(* ===== verification/_CoqProject ===== *)
-Q . S2P
Prelude.v
Text.v
Domain.v
AppDb.v
Reauth.v
Broadcast.v
Servers.v
BroadcastQueue.v
Encryption.v
KeyStore.v
Permissions.v
Migrations.v
Birthday.v
Jobs.v
JobSafety.v
Sends.v
SendSafety.v
JobOutcome.v
Shielding.v
ShieldSafety.v
Addresses.v
Amounts.v
Swaps.v
SwapSafety.v
Float64.v
SyncPipeline.v
SyncService.v
Memos.v
MemoSafety.v
SyncLoop.v
SyncLoopSafety.v
WalletManager.v
WalletFrames.v
WalletDemo.v
WalletDisk.v
WalletSafety.v
WalletGuards.v
WalletBackup.v
WalletRoundtrip.v
Tor.v
NetClients.v
OneClick.v
ExchangeRates.v
Keystone.v
CliServers.v
Shell.v
Downloads.v
ShellSafety.v
WebShell.v
ShellServices.v
CliWallet.v
CliSafety.v
CliRoundtrip.v
CliText.v
Smoketest.v
Diagnostics.v
