(* ===== verification/Prelude.v ===== *)
(** * zbag: a verification of the engine of the zbag Zcash wallet

    zbag is a desktop Zcash wallet.  The program logic is Rust: the crates
    [zbag-core] (domain types, error codes, IPC messages, permissions),
    [zbag-engine] (wallets, transactions, jobs, swaps, synchronisation, the
    metadata databases), [zbag-network] and [zbag-tor] (clients), and the
    Tauri shell [zbag-app-tauri] with the command-line tool [zbag-cli] around
    them.  Services share the application database and the wallet directory;
    long work runs in background tasks that report through events.  What this
    library is about is the money path and the secrets: a transaction that was
    signed must reach the network exactly as the user was told, or be kept on
    disk and retried; a swap that took a deposit must be on record; a wallet
    must open again with its password, and spend only with the user's consent.

    ** Files

    Shared:
    - [Prelude]: machine integers ([u32], [u64], [u128], [i64] as [Z] with
      their saturating and checked operations), the error type of the engine
      ([anyhow::Error] with contexts over [EngineError]), [result], the state
      and error monad [M], tactics, an insertion sort with its laws.
    - [Text]: the [str] operations the code uses on UTF-8 byte strings.
    - [Domain]: [zbag-core]: [domain/*.rs], [errors.rs], the IPC envelope and
      the events.

    Storage:
    - [AppDb]: [zbag-engine/src/db]: the tables as lists of rows, with the
      constraints of [schema.rs] and the text encoding of enum columns.  A
      list [adb_faults] decides which statements fail, so that theorems cover
      every failure of the database.
    - [Migrations]: [db/migrations.rs] and [AppDb::open], one fault per
      statement and file operation.
    - [Permissions]: [zbag-core/src/permissions.rs], one fault per system
      call, with the nodes after each call.
    - [Encryption]: [encryption.rs], [db/wallet_encryption_meta.rs] and the
      encryption of the mnemonic in [wallet_manager.rs].
    - [KeyStore]: [key_store.rs], [key_store_keychain.rs] and the file store
      of [zbag-cli], behind the classes [KeyStore] and [KeyStoreSpec].

    Money path:
    - [Reauth]: [reauth.rs], the single-use tokens that authorise a spend.
    - [Broadcast]: [broadcast.rs] and the retry policy of [tx_service.rs].
    - [Servers]: [grpc_url.rs], [server_resolver.rs], [server_logic.rs] and
      [TxService::try_failover_server].
    - [BroadcastQueue]: the queue of failed broadcasts of [tx_service.rs]
      (files, index, start-up scan, due list, retry loop with failover) and
      the second writer of the same files in [job_service.rs].
    - [Jobs], [JobSafety]: [job_service.rs], as a world in which API calls and
      the steps of the send and shield tasks interleave ([act], [run],
      [reachable]).  [JobOutcome]: a send job from its start to its end.
    - [Sends], [SendSafety]: proposals, hardware signing requests, the
      confirmation of a send and the transaction list of [tx_service.rs],
      with [balance.rs].
    - [Shielding], [ShieldSafety]: [TxService::shield_funds]: the choice of
      transparent inputs, and the batches that are built and broadcast.
    - [Amounts], [Swaps], [SwapSafety]: [swap_service.rs], [db/swap_meta.rs]
      and the data of [near_intents.rs].

    Wallets:
    - [Birthday]: [birthday.rs].  [Addresses]: [address_service.rs].
    - [WalletManager]: [wallet_manager.rs]: creating, restoring, loading,
      unlocking, locking, logging out, the backup challenge, the status, the
      operations that spend.  It calls [Encryption], [KeyStore], [Birthday],
      [Addresses], [Reauth] and [Sends] and runs over the application database.
    - [WalletFrames] (what each operation leaves alone), [WalletDemo] (an
      instance of the wallet library), [WalletDisk], [WalletSafety],
      [WalletGuards], [WalletBackup], [WalletRoundtrip]: its theorems.

    Synchronisation and network:
    - [Float64]: the [f64] operations of the progress estimates, on the
      Standard Library's specification of IEEE 754.
    - [SyncPipeline]: [sync_service.rs], the download and the scan of a range
      of blocks: batch sizes, retries, block cache, reorganisations, and the
      two tasks with their channel as an interleaving ([act], [reachable]).
    - [SyncService]: [sync_service.rs], the job table, the scan guard, the
      progress and ETA, the balance events, and the interleaving of API calls,
      sync tasks and blocking scans ([world_act], [world_run]).
    - [Downloads]: [sync_service.rs], the download tasks that the syncs spawn
      and that outlive their abort, next to that world ([download_act]).
    - [Memos], [MemoSafety]: [sync_service.rs], the memos that are fetched
      after a pass, with the loop and its four concurrent tasks ([enh_act]).
    - [SyncLoop], [SyncLoopSafety]: the task of [SyncService::start_sync] from
      its spawn to its end, around the pipeline and the memos ([loop_act]).
    - [Tor]: [zbag-tor/src/manager.rs], API calls interleaved with bootstrap
      tasks and with those who subscribe to its events ([act], [reachable]).
    - [NetClients]: [transport.rs], [grpc_client.rs] and [http_client.rs] of
      [zbag-network], over a log of what leaves the process.
    - [OneClick]: [near_intents.rs] of [zbag-network]: the requests of the
      1Click client over [NetClients], and the parsing of its answers.
    - [ExchangeRates]: [exchange_rate.rs] of [zbag-network] and the commands
      of [exchange_logic.rs].

    Around them:
    - [Keystone]: [zbag-keystone]: the CBOR and base64 payloads of a hardware
      signer.
    - [CliServers]: the server commands of [zbag-cli], with its benchmark of
      block downloads.
    - [Shell], [ShellSafety]: the commands of [zbag-app-tauri] ([wallet_logic.rs]
      and [commands/*.rs]) over the wallet manager, the sync service and the
      Tor manager together ([AppState]), interleaved with the steps of the
      sync tasks ([shell_act], [shell_run]) and of the download tasks
      ([app_act], [app_run]).
    - [WebShell]: the hardening and the caches of the browser engine in
      [lib.rs], and the guard of [test_bridge].
    - [ShellServices]: the swap and server commands; the deposit of a swap is
      made by the wallet manager, over the one database ([SwapShell]).
    - [CliWallet], [CliSafety], [CliRoundtrip]: the other commands of
      [zbag-cli].  Each command is a process that starts from the disk and the
      database ([app_state_new]); the terminal is a script ([Console]).
    - [CliText]: what [zbag-cli] prints ([output.rs], [progress.rs]).
    - [Smoketest]: the network smoke test of the browser engine
      ([xtask/src/cmd/cef_smoketest]).
    - [Diagnostics]: [logging.rs], [sensitive.rs] and [version.rs].

    Names are those of the source; a Rust [enum] is an inductive type in a
    module of its name.  A method on a service is a function in [M S] for
    the state [S] it can change; an early return is an error value and the
    state is the one at that point.  Clocks, random numbers and identifiers
    are arguments.

    ** What is shown

    - Wallets ([WalletSafety], [WalletRoundtrip], [WalletGuards],
      [WalletBackup], [WalletDisk]).  A wallet that was created on a disk and
      a database that work opens again after a restart, locked, refuses every
      password whose derived key the cipher rejects, unlocks with its own and
      shows the same seed phrase; over all histories of calls the session is
      well typed and refines a machine of three states (no wallet, locked,
      unlocked); whatever spends, or hands out what is needed to spend, has
      consumed an unused token of the active, unlocked wallet; a backup counts
      as verified only when the words were given, and a challenge allows a
      bounded number of guesses; the migration of a wallet database is all or
      nothing, unless its error says that the old file could not be put back
      ([failed_restore_loses_database] exhibits that case).
    - Keys ([Encryption], [KeyStore]).  A data key is recovered with the
      password it was wrapped under and every failure has its own error;
      ciphertexts of one purpose or wallet do not open as another; each key
      store refines a partial map from wallets to mnemonics.
    - Files ([Permissions], [Migrations]).  A secure write replaces an old
      file atomically, makes a new one in place, and is never readable by
      others, at every crash point; created directories are private.  A
      migration of an application database that is in order is all or
      nothing, unless the restore fails as well and the error says so
      ([failed_restore_loses_app_db]); it keeps the user's rows and servers;
      after any number of starts that fail, by one failure each, the next one
      succeeds.
    - The queue ([BroadcastQueue], [Broadcast]).  A queued transaction is
      found again after a restart, decrypts to the bytes that were queued and
      has a coherent record; the two writers of the queue are equivalent; the
      retry loop sends at most twice and what it leaves on disk is described
      for every outcome; the due list is exact; back-off with IEEE rounding
      stays within its band.
    - Jobs ([JobSafety], [JobOutcome]).  Over all interleavings, a send job
      that the API reports as cancelled sends nothing; a job left alone on a
      disk that works reaches its final record, [Completed] exactly when every
      transaction was loaded and accepted, and every other transaction is
      found in the queue after a restart, with its error.  The batches and the dust loop of shielding
      terminate.  Three theorems exhibit behaviours of the code that its
      comments exclude (cancelled shield jobs that send, cancelled records
      that are overwritten, clearing the jobs of other wallets).
    - Sends ([SendSafety], [Reauth]).  A prepared send respects the rules on
      backup, amounts, privacy and memos and shows exact amounts; nothing is
      sent without consuming its proposal or signing request, once, for the
      wallet it was made for and before it expires; with a
      working disk every transaction is sent once and the failed ones are
      queued; the transaction list shows the mined, expired and queued states
      exactly; a token authorises one operation of one wallet for 120 seconds.
    - Shielding ([ShieldSafety]).  Every input is used once; each transaction
      of the batches before a failing one is sent once, queued when that
      failed, and reported by a truthful event; the error that hides
      transactions already sent is exhibited.
    - Servers ([Servers]).  Accepted URLs are safe; there is one default per
      network and it is the one that is resolved; failover picks a live
      server of the same network.
    - Swaps ([Amounts], [SwapSafety]).  Amounts convert exactly; a deposit is
      sent only under its guards and is on record whenever it was sent; a
      terminal swap is not changed by a refresh; a swap completes only on
      evidence; after a restart exactly the swaps that need it are polled;
      swaps of other wallets are invisible.  Three theorems exhibit
      defects (a quote that can be started twice, a stale poller that writes
      over a terminal state, a back-off of zero).
    - Synchronisation ([SyncPipeline], [SyncService]).  Scanned batches are
      consecutive and cover the range when the loop ends normally; every run
      of the pipeline is finite, and where it stops is characterised, with a
      deadlock that is exhibited; a download returns within its bounds; the
      guard admits one scan per wallet as long as aborted tasks stop at once,
      and races without that assumption are exhibited; percentages and ETA
      move within their bounds.
    - The sync task ([SyncLoopSafety], [MemoSafety]).  A retry is announced
      with the time that the task then sleeps; offline waits double up to five
      minutes; a task that is over leaves the idle progress or an error; it
      scans the ranges that the wallet suggested, and fetches memos and reports
      the wallet as caught up only when it suggests no more; memos are written
      once, from the bytes fetched for the transaction of the note, a pass ends
      and gets through its first page; skipped pages and a memo of another
      transaction are exhibited.
    - Tor and the clients ([Tor], [NetClients]).  Status and client agree in
      every interleaving of API calls and bootstrap tasks; a disabled manager
      stays off; only the latest bootstrap publishes; an event reaches whoever
      is subscribed and is lost when nobody is, as the first one of a start is
      ([startup_status_lost]); with Tor enabled and not
      ready nothing leaves the process, retries included; the outcome of a
      send is classified on every branch.
    - The 1Click client ([OneClick]).  A quote costs at most two requests, the
      second only where it can help; a document of a quote parses to that
      quote; a status is terminal only on its own word; with Tor not ready
      nothing is sent and no quote is obtained.
    - Hardware signers ([Keystone]).  The decoder accepts exactly the format of
      [pczt_cbor] and inverts the encoder; it always ends; the input that makes
      it panic and the missing break code are exhibited.
    - The command line ([CliServers], [CliSafety], [CliRoundtrip], [CliText]).
      Its server commands agree with those of an application without an open
      wallet, which otherwise refuses servers of another network; a run of the
      benchmark ends and asks for every block once; the recommended profile is
      the fastest.  Without the password of the one wallet that is meant no
      command shows, sends or scans anything of it; a send is confirmed; a
      wallet that was created shows its seed phrase to a later process.  When
      [zbag sync] stops waiting is characterised, and that [--tor] never uses
      Tor is proved.  Amounts are shown exactly, heights in groups of three,
      seed phrases legibly, and a short identifier names its wallet.
    - The desktop ([ShellSafety], [WebShell]).  Over the histories of commands
      and task steps a sync belongs to the wallet that is open and unlocked;
      after any history locking and logging out leave no sync registered, and
      none live when aborted tasks are not polled again; switching Tor on
      leaves none that was started before, and the download tasks of those
      ask for no further batch; loading a wallet lists all its accounts; two histories
      exhibit a sync that goes on after a wallet switch and one that is not
      restarted.  A swap pays its deposit only with a token, for its quote, and
      on record ([ShellServices]).  The policy of the browser engine holds
      whatever its files contained, purging spares caches in use, and the test
      bridge does not give out secrets without confirmation.
    - The smoke test ([Smoketest]).  The sockets of any listing are classified
      one by one; the walk over the processes ends and lists each descendant
      once; the test passes exactly when the application ended well and every
      sample was in order, as long as the sentinels can be written
      ([lost_sentinel_passes] exhibits the other case).
    - Diagnostics ([Diagnostics]).  Redacted values show a bounded prefix or a
      length; a trimmed secret leaves only zeros behind it; exactly the old
      logs are removed.
    - Addresses, birthdays, rates ([Addresses], [Birthday], [ExchangeRates]).
      Shielded addresses rotate as requested; an estimated birthday is not
      late while blocks come at the assumed pace, and is late otherwise
      ([birthday_estimate_overshoots]); rate requests are spaced and made only
      with consent, and the reply says truthfully how old the rate is.

    ** Bounds

    The retry loop of the source has no bound; [retry_loop] has fuel 2 and
    [retry_loop_at_most_two_sends] shows that it never runs out.  [chunks]
    and the dust loop of shielding recurse on the list they shorten.  [scale]
    recurses on the number of decimals.  [download_loop] has fuel
    [max_retries + 1], which [download_blocks_with_retry_result] shows to be
    enough; a run of the pipeline over [n] blocks has at most [10 n + 7] steps.
    [select_inputs] has the length of its batch as fuel ([select_inputs_ends]);
    a memo pass over [n] transactions has at most [6 n + 2] steps.  The chunks
    of a CBOR string have one unit of fuel per byte ([keystone_decoder_ends]),
    a download of the benchmark one per attempt ([fetch_loop_result]); the
    walk over a process tree one per process ([descendants_exact]).
    The search for a fresh address tries [ADDRESS_TRIES] = 1000 times, as the
    source does.  All other recursion is structural.

    ** Assumptions

    Code outside the repository is a parameter: the URL parser, serde, the
    AEAD, Argon2id and Base64 ([Crypto]), gRPC sends and probes, the 1Click
    API, the wallet database of [zcash_client_sqlite] and SQLCipher
    ([WalletLib]), the OS keychain, the Tor bootstrap, proving.  Where a
    theorem needs a documented law of it (decoding what was encoded,
    decrypting what was encrypted, rounding to nearest) the law is a
    hypothesis and a witness instantiates it.  A mutex is never poisoned.
    Faults of disk and database are scripts, one entry per statement or
    system call; a theorem that needs a working disk says so.

    ** Not modelled

    Of the desktop: the start-up of [AppState] (paths and constructors), menus
    and windows, the HTTP server of the test bridge, the structured details of
    IPC errors.  Of [zbag-cli]: argument parsing, colours and JSON texts (a
value in JSON is the value that is printed) and the arm of
    [run_command] for the server commands, which are those of [CliServers].  Also the set-up of the log
    subscriber and the non-Unix branches of [permissions.rs].  Of [xtask]: the
    arguments and the copy of the log file. *)
From stdpp Require Export base gmap strings list fin_maps sorting pretty.
From Stdlib Require Export ZArith Lia.

#[global] Open Scope Z_scope.

(** ** Machine integers

    Integers are [Z]; each width has its bounds and the Rust operations on
    it: saturating ([saturating_add], ...), checked ([checked_mul], ...) and
    [clamp]. *)

Definition u8_max : Z := 255.
Definition u32_max : Z := 4294967295.
Definition u64_max : Z := 18446744073709551615.
Definition u128_max : Z := 340282366920938463463374607431768211455.
Definition i64_max : Z := 9223372036854775807.
Definition i64_min : Z := -9223372036854775808.

Definition clampZ (lo hi x : Z) : Z := Z.max lo (Z.min hi x).

Definition i64_saturating_add (a b : Z) : Z := clampZ i64_min i64_max (a + b).
Definition i64_saturating_sub (a b : Z) : Z := clampZ i64_min i64_max (a - b).
Definition u32_saturating_add (a b : Z) : Z := clampZ 0 u32_max (a + b).
Definition u32_saturating_sub (a b : Z) : Z := clampZ 0 u32_max (a - b).
Definition u64_saturating_add (a b : Z) : Z := clampZ 0 u64_max (a + b).
Definition u64_saturating_sub (a b : Z) : Z := clampZ 0 u64_max (a - b).

Definition checked (hi x : Z) : option Z := if (0 <=? x) && (x <=? hi) then Some x else None.
Definition checked_mul (hi a b : Z) : option Z := checked hi (a * b).
Definition checked_add (hi a b : Z) : option Z := checked hi (a + b).

Definition in_u32 (x : Z) : Prop := 0 <= x <= u32_max.
Definition in_i64 (x : Z) : Prop := i64_min <= x <= i64_max.

Create HintDb zbag.

Lemma clampZ_bounds lo hi x : lo <= hi -> lo <= clampZ lo hi x <= hi.
Proof. unfold clampZ. lia. Qed.

Lemma clampZ_id lo hi x : lo <= x <= hi -> clampZ lo hi x = x.
Proof. unfold clampZ. lia. Qed.

Lemma clampZ_mono lo hi x y : x <= y -> clampZ lo hi x <= clampZ lo hi y.
Proof. unfold clampZ. lia. Qed.

Lemma checked_Some hi x y : checked hi x = Some y <-> y = x /\ 0 <= x <= hi.
Proof. unfold checked. destruct (_ && _) eqn:E; naive_solver lia. Qed.

(** Unfolds every machine-width operation, so that [lia] sees the clamps. *)
Ltac unfold_widths :=
  unfold i64_saturating_add, i64_saturating_sub, u32_saturating_add,
    u32_saturating_sub, u64_saturating_add, u64_saturating_sub, clampZ, in_u32, in_i64,
    i64_max, i64_min, u8_max, u32_max, u64_max in *.

Ltac width_lia := unfold_widths; lia.

(** ** Errors

    [anyhow::Error]: an IPC error with its stable code, a plain message, or
    an error wrapped by [.context(..)]. *)

Inductive error :=
| EngineIpcError (code message : string)
| AnyhowMsg (message : string)
| Context (ctx : string) (inner : error).

#[global] Instance error_eq_dec : EqDecision error.
Proof. solve_decision. Defined.

Definition ipc_err (code message : string) : error := EngineIpcError code message.

Fixpoint find_engine_ipc_error (e : error) : option (string * string) :=
  match e with
  | EngineIpcError c m => Some (c, m)
  | AnyhowMsg _ => None
  | Context _ e' => find_engine_ipc_error e'
  end.

(** [e.to_string()]: the outermost message only. *)
Definition error_to_string (e : error) : string :=
  match e with
  | EngineIpcError c m => c +:+ ": " +:+ m
  | AnyhowMsg m => m
  | Context c _ => c
  end.

(** [format!("{e:#}")]: the whole chain, joined with [": "]. *)
Fixpoint error_chain (e : error) : string :=
  match e with
  | EngineIpcError c m => c +:+ ": " +:+ m
  | AnyhowMsg m => m
  | Context c e' => c +:+ ": " +:+ error_chain e'
  end.

Definition error_code (e : error) : option string := fst <$> find_engine_ipc_error e.

Inductive result (A : Type) :=
| Ok (a : A)
| Err (e : error).
Arguments Ok {A} _.
Arguments Err {A} _.

#[global] Instance result_eq_dec {A} `{EqDecision A} : EqDecision (result A).
Proof. solve_decision. Defined.

#[global] Instance result_ret : MRet result := fun A => @Ok A.
#[global] Instance result_bind : MBind result := fun A B f m =>
  match m with Ok a => f a | Err e => Err e end.

(** [.context(..)] on a call of a library, whose error is a message. *)
Definition anyhow_context {A} (c : string) (r : string + A) : result A :=
  match r with inr a => Ok a | inl e => Err (Context c (AnyhowMsg e)) end.

Definition ok_or {A} (o : option A) (e : error) : result A :=
  match o with Some a => Ok a | None => Err e end.

Definition is_ok {A} (r : result A) : bool := match r with Ok _ => true | Err _ => false end.

Definition with_context {A} (c : string) (r : result A) : result A :=
  match r with Ok a => Ok a | Err e => Err (Context c e) end.

Lemma ok_or_Ok {A} (o : option A) e a : ok_or o e = Ok a <-> o = Some a.
Proof. destruct o; simpl; split; intros; simplify_eq; done. Qed.

(** A handler on a mutable state [S]: the state survives an error, as the
    fields of [&mut self] do when a method returns [Err]. *)
Definition M (S A : Type) : Type := S -> result A * S.

#[global] Instance M_ret {S} : MRet (M S) := fun A a s => (Ok a, s).
#[global] Instance M_bind {S} : MBind (M S) := fun A B f m s =>
  match m s with
  | (Ok a, s') => f a s'
  | (Err e, s') => (Err e, s')
  end.

Lemma m_bind_eq {S A B} (m : M S A) (f : A -> M S B) s :
  (m ≫= f) s = match m s with (Ok a, s') => f a s' | (Err e, s') => (Err e, s') end.
Proof. done. Qed.

Definition m_err {S A} (e : error) : M S A := fun s => (Err e, s).
Definition m_lift {S A} (r : result A) : M S A := fun s => (r, s).
Definition m_get {S} : M S S := fun s => (Ok s, s).
Definition m_put {S} (s' : S) : M S unit := fun _ => (Ok tt, s').
(** The [Result] of [m] as a value. *)
Definition m_try {S A} (m : M S A) : M S (result A) := fun s => (Ok (m s).1, (m s).2).
(** [let _ = m;], or an error that is only logged. *)
Definition m_ignore {S A} (m : M S A) : M S unit := fun s => (Ok tt, (m s).2).
Definition m_context {S A} (c : string) (m : M S A) : M S A :=
  fun s => (with_context c (m s).1, (m s).2).
Definition m_modify {S} (f : S -> S) : M S unit := fun s => (Ok tt, f s).

Lemma m_err_Ok {S A} e (s s' : S) (a : A) : m_err e s = (Ok a, s') -> False.
Proof. unfold m_err. intros H. discriminate H. Qed.
Lemma m_get_bind {S A} (f : S -> M S A) s : (m_get ≫= f) s = f s s.
Proof. done. Qed.
Lemma m_put_bind {S A} (f : unit -> M S A) s' s : (m_put s' ≫= f) s = f tt s'.
Proof. done. Qed.
Lemma m_modify_bind {S A} g (f : unit -> M S A) s : (m_modify g ≫= f) s = f tt (g s).
Proof. done. Qed.
Lemma m_ret_bind {S A B} (a : A) (f : A -> M S B) s : (mret a ≫= f) s = f a s.
Proof. done. Qed.

(** Runs [m] on a component of a larger state. *)
Definition m_zoom {S T A} (get : S -> T) (set : T -> S -> S) (m : M T A) : M S A := fun s =>
  let '(r, t) := m (get s) in (r, set t s).

Fixpoint m_fold {S A B} (f : B -> A -> M S B) (b : B) (l : list A) : M S B :=
  match l with
  | [] => mret b
  | a :: l' => b' ← f b a; m_fold f b' l'
  end.

(** *** What a handler preserves

    [m_pres R m]: whatever [m] returns, the state after it is related to the
    state before it by [R].  For a preorder this composes along the monad,
    so that frame conditions and invariants follow the code. *)
Definition m_pres {S A} (R : relation S) (m : M S A) : Prop := forall s, R s (m s).2.

Section MPres.
Context {S : Type} (R : relation S) `{!PreOrder R}.

Lemma m_pres_ret {A} (a : A) : m_pres R (mret a).
Proof using Type*. intros s. simpl. reflexivity. Qed.

Lemma m_pres_lift {A} (r : result A) : m_pres R (m_lift r).
Proof using Type*. intros s. simpl. reflexivity. Qed.

Lemma m_pres_err {A} e : m_pres R (m_err e : M S A).
Proof using Type*. intros s. simpl. reflexivity. Qed.

Lemma m_pres_get : m_pres R m_get.
Proof using Type*. intros s. simpl. reflexivity. Qed.

Lemma m_pres_bind {A B} (m : M S A) (f : A -> M S B) :
  m_pres R m -> (forall a, m_pres R (f a)) -> m_pres R (m ≫= f).
Proof using Type*.
  intros Hm Hf s. rewrite m_bind_eq. specialize (Hm s). destruct (m s) as [[a|e] s']; [|done].
  etransitivity; [exact Hm|]. apply Hf.
Qed.

(** After [m_get] the continuation runs on the state it was given. *)
Lemma m_pres_get_bind {B} (f : S -> M S B) : (forall s, R s (f s s).2) -> m_pres R (m_get ≫= f).
Proof using Type. intros Hf s. apply Hf. Qed.

(** Reading the state, checking it and writing it back. *)
Lemma m_pres_get_put {A B} (g : S -> result A) (f : S -> A -> S) (k : S -> A -> M S B) :
  (forall s a, R s (f s a)) -> (forall s a, m_pres R (k s a)) ->
  m_pres R (m_get ≫= fun s => m_lift (g s) ≫= fun a => m_put (f s a) ≫= fun _ => k s a).
Proof using Type*.
  intros Hf Hk s. rewrite !m_bind_eq. simpl. rewrite m_bind_eq. simpl.
  destruct (g s) as [a|e]; simpl; [|reflexivity]. rewrite m_bind_eq. simpl.
  etransitivity; [apply (Hf s a)|apply Hk].
Qed.

(** ... or after an operation whose result says something of the state. *)
Lemma m_pres_bind_post {A B} (m : M S A) (f : A -> M S B) (Q : A -> S -> Prop) :
  m_pres R m -> (forall s a s', m s = (Ok a, s') -> Q a s') ->
  (forall a s, Q a s -> R s (f a s).2) -> m_pres R (m ≫= f).
Proof using Type*.
  intros Hm HQ Hf s. rewrite m_bind_eq. specialize (Hm s). destruct (m s) as [[a|e] s'] eqn:E; [|done].
  etransitivity; [exact Hm|]. eapply Hf, HQ, E.
Qed.

Lemma m_pres_modify f : (forall s, R s (f s)) -> m_pres R (m_modify f).
Proof using Type. intros Hf s. apply Hf. Qed.

Lemma m_pres_try {A} (m : M S A) : m_pres R m -> m_pres R (m_try m).
Proof using Type. intros Hm s. apply Hm. Qed.

Lemma m_pres_ignore {A} (m : M S A) : m_pres R m -> m_pres R (m_ignore m).
Proof using Type. intros Hm s. apply Hm. Qed.

Lemma m_pres_context {A} c (m : M S A) : m_pres R m -> m_pres R (m_context c m).
Proof using Type. intros Hm s. apply Hm. Qed.

Lemma m_pres_fold {A B} (f : B -> A -> M S B) b l :
  (forall b a, m_pres R (f b a)) -> m_pres R (m_fold f b l).
Proof using Type*.
  intros Hf. revert b. induction l as [|a l IH]; intros b; simpl; [apply m_pres_ret|].
  apply m_pres_bind; auto.
Qed.
End MPres.

Lemma m_pres_zoom {S T A} (R : relation S) (Q : relation T) (get : S -> T) (set : T -> S -> S) (m : M T A) :
  (forall s t, Q (get s) t -> R s (set t s)) -> m_pres Q m -> m_pres R (m_zoom get set m).
Proof. intros Hs Hm s. unfold m_zoom. specialize (Hm (get s)). destruct (m (get s)). by apply Hs. Qed.

Lemma m_pres_weaken {S A} (R Q : relation S) (m : M S A) :
  (forall s t, Q s t -> R s t) -> m_pres Q m -> m_pres R m.
Proof. intros Hs Hm s. auto. Qed.

(** The steps that follow the code; the primitive operations are found in
    the hint database. *)
Ltac m_pres_step :=
  match goal with
  | |- m_pres _ (mret _) => apply m_pres_ret; apply _
  | |- m_pres _ (m_lift _) => apply m_pres_lift; apply _
  | |- m_pres _ (m_err _) => apply m_pres_err; apply _
  | |- m_pres _ m_get => apply m_pres_get; apply _
  | |- m_pres _ (_ ≫= _) => apply m_pres_bind; [apply _| |intros ?]
  | |- m_pres _ (m_try _) => apply m_pres_try
  | |- m_pres _ (m_ignore _) => apply m_pres_ignore
  | |- m_pres _ (m_context _ _) => apply m_pres_context
  | |- m_pres _ (m_fold _ _ _) => apply m_pres_fold; [apply _|intros ? ?]
  | |- m_pres _ (match ?x with _ => _ end) => destruct x
  | |- m_pres _ (if ?x then _ else _) => destruct x
  | |- m_pres _ ((fun _ => _) _) => cbv beta
  | |- m_pres _ (let _ := _ in _) => cbv zeta
  | |- _ => solve [eauto with zbag]
  end.
Ltac m_pres_auto := repeat m_pres_step.

(** Case analysis on the matches of a hypothesis [f .. = v], the counterpart
    of following the early returns of a handler. *)
Ltac case_result_step :=
  match goal with
  | H : context [match ?x with _ => _ end] |- _ => destruct x eqn:?; simplify_eq/=
  | |- context [match ?x with _ => _ end] => destruct x eqn:?; simplify_eq/=
  end.
Ltac case_result := repeat (case_result_step; try done).

(** Runs the first operation of a sequence in a goal [(m ≫= f) s = v -> ..]
    or in a hypothesis, with its result and the state after it. *)
Ltac m_run :=
  cbv beta zeta;
  match goal with
  | |- (m_get ≫= _) _ = _ -> _ => rewrite m_get_bind
  | |- (m_modify _ ≫= _) _ = _ -> _ => rewrite m_modify_bind
  | |- (m_put _ ≫= _) _ = _ -> _ => rewrite m_put_bind
  | |- (mret _ ≫= _) _ = _ -> _ => rewrite m_ret_bind
  | |- (_ ≫= _) _ = _ -> _ =>
      rewrite m_bind_eq; cbv beta zeta;
      match goal with
      | |- match ?x with _ => _ end = _ -> _ => destruct x as [[?a|?e] ?s] eqn:?E
      end
  end.

(** ... and the branches of a test. *)
Ltac m_if :=
  cbv beta zeta;
  match goal with |- (if ?b then _ else _) _ = _ -> _ => destruct b eqn:?Eb end.

(** Reflects the boolean tests of the code into propositions. *)
Ltac breflect :=
  repeat match goal with
  | H : andb _ _ = true |- _ => apply andb_true_iff in H; destruct H
  | H : orb _ _ = false |- _ => apply orb_false_iff in H; destruct H
  | H : negb _ = true |- _ => apply negb_true_iff in H
  | H : negb _ = false |- _ => apply negb_false_iff in H
  | H : (_ =? _)%Z = true |- _ => apply Z.eqb_eq in H
  | H : (_ =? _)%Z = false |- _ => apply Z.eqb_neq in H
  | H : (_ <? _)%Z = true |- _ => apply Z.ltb_lt in H
  | H : (_ <? _)%Z = false |- _ => apply Z.ltb_ge in H
  | H : (_ <=? _)%Z = true |- _ => apply Z.leb_le in H
  | H : (_ <=? _)%Z = false |- _ => apply Z.leb_gt in H
  | H : bool_decide _ = true |- _ => apply bool_decide_eq_true_1 in H
  | H : bool_decide _ = false |- _ => apply bool_decide_eq_false_1 in H
  end.

(** ** Insertion sort by a boolean order: [ORDER BY] and [sort_by] are stable. *)

Section Isort.
Context {A : Type} (leb : A -> A -> bool).

Fixpoint insert_sorted (x : A) (l : list A) : list A :=
  match l with
  | [] => [x]
  | y :: l' => if leb x y then x :: l else y :: insert_sorted x l'
  end.

Definition isort (l : list A) : list A := foldr insert_sorted [] l.

Lemma insert_sorted_perm x l : insert_sorted x l ≡ₚ x :: l.
Proof.
  induction l as [|y l IH]; simpl; [done|]. case_match; [done|].
  rewrite IH. apply Permutation_swap.
Qed.

Lemma isort_perm l : isort l ≡ₚ l.
Proof. induction l as [|x l IH]; simpl; [done|]. by rewrite insert_sorted_perm, IH. Qed.

Lemma elem_of_isort x l : x ∈ isort l <-> x ∈ l.
Proof. by rewrite isort_perm. Qed.

Context (Htotal : forall x y, leb x y = false -> leb y x = true).
Context (Htrans : forall x y z, leb x y = true -> leb y z = true -> leb x z = true).

Lemma insert_sorted_sorted x l :
  StronglySorted (fun a b => leb a b = true) l ->
  StronglySorted (fun a b => leb a b = true) (insert_sorted x l).
Proof.
  induction 1 as [|y l Hl IH Hy]; simpl; [repeat constructor|].
  destruct (leb x y) eqn:E.
  - constructor; [by constructor|]. constructor; [done|].
    eapply Forall_impl; [exact Hy|]. eauto.
  - constructor; [done|]. rewrite insert_sorted_perm. constructor; auto.
Qed.

Lemma isort_sorted l : StronglySorted (fun a b => leb a b = true) (isort l).
Proof. induction l; simpl; [constructor|]. by apply insert_sorted_sorted. Qed.
End Isort.

(** First element satisfying a test ([Iterator::find]). *)
Fixpoint find_first {A} (p : A -> bool) (l : list A) : option A :=
  match l with
  | [] => None
  | x :: l' => if p x then Some x else find_first p l'
  end.

Lemma find_first_Some {A} (p : A -> bool) l x :
  find_first p l = Some x -> x ∈ l /\ p x = true.
Proof.
  induction l as [|y l IH]; simpl; [done|]. case_match; intros; simplify_eq.
  - split; [left|done].
  - destruct (IH ltac:(done)). split; [by right|done].
Qed.

Lemma find_first_None {A} (p : A -> bool) l :
  find_first p l = None <-> forall x, x ∈ l -> p x = false.
Proof.
  induction l as [|y l IH]; simpl.
  - split; [|done]. intros _ x Hx. by apply elem_of_nil in Hx.
  - destruct (p y) eqn:E; split; intros H; try done.
    + specialize (H y ltac:(left)). congruence.
    + intros x [->|Hx]%elem_of_cons; [done|]. by apply IH.
    + apply IH. intros x Hx. apply H. by right.
Qed.

(** A unique match is the one that is found. *)
Lemma find_first_unique {A} (p : A -> bool) l x :
  x ∈ l -> p x = true -> (forall y, y ∈ l -> p y = true -> y = x) -> find_first p l = Some x.
Proof.
  intros Hx Hp Hu. destruct (find_first p l) as [y|] eqn:E.
  - apply find_first_Some in E as [Hy Hpy]. f_equal. auto.
  - rewrite find_first_None in E. rewrite E in Hp; done.
Qed.

Lemma alter_lookup_Some {K V} `{Countable K} (f : V -> V) (m : gmap K V) i x :
  m !! i = Some x -> alter f i m = <[i := f x]> m.
Proof.
  intros Hi. apply map_eq. intros j. destruct (decide (i = j)) as [->|Hne].
  - by rewrite lookup_alter_eq, lookup_insert_eq, Hi.
  - by rewrite lookup_alter_ne, lookup_insert_ne.
Qed.

Lemma map_size_le_1 {K V} `{Countable K} (m : gmap K V) :
  (forall i j x y, m !! i = Some x -> m !! j = Some y -> i = j) -> (size m <= 1)%nat.
Proof.
  intros Hu. destruct (decide (m = ∅)) as [->|Hne]; [rewrite map_size_empty; lia|].
  apply map_choose in Hne as (i & x & Hi). rewrite <- (insert_delete_id m i x Hi).
  rewrite map_size_insert_None by apply lookup_delete_eq.
  replace (delete i m) with (∅ : gmap K V); [rewrite map_size_empty; lia|].
  symmetry. apply map_empty. intros j. rewrite lookup_delete_None.
  destruct (m !! j) as [y|] eqn:Hj; [left; eauto|by right].
Qed.
