(* ===== verification/Text.v ===== *)
(** Rust [str] operations on UTF-8 byte strings: substring search,
    [to_lowercase], [trim], [split_once], [split], [parse::<uN>] and decimal
    printing, with the lemmas the components share.

    A [string] is the UTF-8 encoding of a Rust [str].  [to_lowercase] maps
    the ASCII letters and the only two other characters whose lower case
    contains an ASCII letter (U+212A and U+0130); every other character is
    left alone, which cannot change whether an ASCII pattern occurs.
    [trim] removes the encodings of all characters with the Unicode
    [White_Space] property. *)
From S2P Require Import Prelude.
From Stdlib Require Import Ascii String.
Open Scope string_scope.
Open Scope Z_scope.

Notation "a +++ b" := (String.append a b) (at level 60, right associativity) : string_scope.

(** ** Searching *)

Fixpoint contains (s pat : string) : bool :=
  String.prefix pat s ||
  match s with
  | EmptyString => false
  | String _ s' => contains s' pat
  end.

Definition contains_any (s : string) (pats : list string) : bool :=
  existsb (contains s) pats.

Definition starts_with (s pat : string) : bool := String.prefix pat s.

Fixpoint drop_string (n : nat) (s : string) : string :=
  match n, s with
  | O, _ => s
  | S n', String _ s' => drop_string n' s'
  | S _, EmptyString => EmptyString
  end.

Fixpoint take_string (n : nat) (s : string) : string :=
  match n, s with
  | O, _ => EmptyString
  | S n', String c s' => String c (take_string n' s')
  | S _, EmptyString => EmptyString
  end.

Definition strip_prefix (s pat : string) : option string :=
  if String.prefix pat s then Some (drop_string (String.length pat) s) else None.

Fixpoint all_chars (p : ascii -> bool) (s : string) : bool :=
  match s with
  | EmptyString => true
  | String c s' => p c && all_chars p s'
  end.

Definition is_empty (s : string) : bool :=
  match s with EmptyString => true | _ => false end.

(** ** Lower case *)

Definition lower_ascii (c : ascii) : ascii :=
  let n := nat_of_ascii c in
  if (65 <=? n)%nat && (n <=? 90)%nat then ascii_of_nat (n + 32) else c.

Fixpoint to_lowercase (s : string) : string :=
  match s with
  | EmptyString => EmptyString
  | String "226" (String "132" (String "170" s')) => String "k" (to_lowercase s')
  | String "196" (String "176" s') => String "i" (String "204" (String "135" (to_lowercase s')))
  | String c s' => String (lower_ascii c) (to_lowercase s')
  end.

(** [str::eq_ignore_ascii_case] and [to_ascii_lowercase] touch ASCII only. *)
Fixpoint to_ascii_lowercase (s : string) : string :=
  match s with
  | EmptyString => EmptyString
  | String c s' => String (lower_ascii c) (to_ascii_lowercase s')
  end.

Definition eq_ignore_ascii_case (a b : string) : bool :=
  bool_decide (to_ascii_lowercase a = to_ascii_lowercase b).

(** ** Trimming *)

Definition bytes (l : list nat) : string :=
  fold_right (fun n s => String (ascii_of_nat n) s) EmptyString l.

(** The characters with the Unicode [White_Space] property, in UTF-8. *)
Definition white_space : list (list nat) :=
  [[9]; [10]; [11]; [12]; [13]; [32]; [194; 133]; [194; 160]; [225; 154; 128];
   [226; 128; 128]; [226; 128; 129]; [226; 128; 130]; [226; 128; 131];
   [226; 128; 132]; [226; 128; 133]; [226; 128; 134]; [226; 128; 135];
   [226; 128; 136]; [226; 128; 137]; [226; 128; 138]; [226; 128; 168];
   [226; 128; 169]; [226; 128; 175]; [226; 129; 159]; [227; 128; 128]]%nat.

Definition ws_patterns : list string := Eval vm_compute in map bytes white_space.
Definition ws_patterns_rev : list string :=
  Eval vm_compute in map (fun l => bytes (reverse l)) white_space.

Fixpoint strip_any (pats : list string) (s : string) : option string :=
  match pats with
  | [] => None
  | p :: pats' => match strip_prefix s p with Some s' => Some s' | None => strip_any pats' s end
  end.

Fixpoint trim_with (pats : list string) (fuel : nat) (s : string) : string :=
  match fuel with
  | O => s
  | S fuel' => match strip_any pats s with Some s' => trim_with pats fuel' s' | None => s end
  end.

Definition trim_start (s : string) : string := trim_with ws_patterns (String.length s) s.
Definition trim_end (s : string) : string :=
  String.rev (trim_with ws_patterns_rev (String.length s) (String.rev s)).
Definition trim (s : string) : string := trim_end (trim_start s).

(** ** Splitting *)

Fixpoint split_once (c : ascii) (s : string) : option (string * string) :=
  match s with
  | EmptyString => None
  | String d s' =>
      if Ascii.eqb c d then Some (EmptyString, s')
      else match split_once c s' with
           | Some (a, b) => Some (String d a, b)
           | None => None
           end
  end.

(** [s.split_once(pat)] for a string pattern. *)
Fixpoint split_once_str (pat s : string) : option (string * string) :=
  if String.prefix pat s then Some (EmptyString, drop_string (String.length pat) s)
  else match s with
       | EmptyString => None
       | String d s' =>
           match split_once_str pat s' with
           | Some (a, b) => Some (String d a, b)
           | None => None
           end
       end.

Fixpoint split (c : ascii) (s : string) : list string :=
  match s with
  | EmptyString => [EmptyString]
  | String d s' =>
      if Ascii.eqb c d then EmptyString :: split c s'
      else match split c s' with
           | p :: ps => String d p :: ps
           | [] => [String d EmptyString]
           end
  end.

(** [split_whitespace]: the non-empty parts between white space. *)
Fixpoint split_ws (fuel : nat) (word s : string) : list string :=
  let close := if is_empty word then [] else [word] in
  match fuel, s with
  | O, _ | _, EmptyString => close
  | S fuel', String c s' =>
      match strip_any ws_patterns s with
      | Some rest => (close ++ split_ws fuel' EmptyString rest)%list
      | None => split_ws fuel' (word +++ String c EmptyString) s'
      end
  end.

Definition split_whitespace (s : string) : list string := split_ws (String.length s) EmptyString s.

(** [[..].join(sep)]. *)
Fixpoint join (sep : string) (l : list string) : string :=
  match l with
  | [] => EmptyString
  | [w] => w
  | w :: l' => w +++ (sep +++ join sep l')
  end.

(** ** UTF-8 *)

Definition byte_in (lo hi : nat) (c : ascii) : bool :=
  ((lo <=? nat_of_ascii c) && (nat_of_ascii c <=? hi))%nat.

(** [chars().count()] of a UTF-8 string: the bytes that continue no character. *)
Fixpoint chars_count (s : string) : nat :=
  match s with
  | EmptyString => 0
  | String c s' => (if byte_in 128 191 c then 0 else 1) + chars_count s'
  end.

(** [String::from_utf8] accepts the bytes. *)
Fixpoint utf8_valid (s : string) : bool :=
  let cont c := byte_in 128 191 c in
  match s with
  | EmptyString => true
  | String a s1 =>
      if byte_in 0 127 a then utf8_valid s1 else
      match s1 with
      | EmptyString => false
      | String b s2 =>
          if byte_in 194 223 a && cont b then utf8_valid s2 else
          match s2 with
          | EmptyString => false
          | String c s3 =>
              if (byte_in 224 224 a && byte_in 160 191 b
                  || byte_in 225 236 a && cont b
                  || byte_in 237 237 a && byte_in 128 159 b
                  || byte_in 238 239 a && cont b) && cont c
              then utf8_valid s3 else
              match s3 with
              | EmptyString => false
              | String d s4 =>
                  (byte_in 240 240 a && byte_in 144 191 b
                   || byte_in 241 243 a && cont b
                   || byte_in 244 244 a && byte_in 128 143 b) && cont c && cont d
                  && utf8_valid s4
              end
          end
      end
  end.

(** ** Unsigned decimal numbers *)

Definition digit (c : ascii) : option Z :=
  let n := Z.of_nat (nat_of_ascii c) in
  if (48 <=? n) && (n <=? 57) then Some (n - 48) else None.

Definition is_ascii_digit (c : ascii) : bool := match digit c with Some _ => true | None => false end.

Fixpoint parse_digits (hi acc : Z) (s : string) : option Z :=
  match s with
  | EmptyString => Some acc
  | String c s' =>
      d ← digit c;
      a ← checked_mul hi acc 10;
      a' ← checked_add hi a d;
      parse_digits hi a' s'
  end.

(** [s.parse::<uN>()]: a leading ["+"] is accepted, the empty string and a
    lone sign are not, and a value above [hi] is an error. *)
Definition parse_uint (hi : Z) (s : string) : option Z :=
  match s with
  | EmptyString => None
  | String "+" EmptyString => None
  | String "+" s' => parse_digits hi 0 s'
  | _ => parse_digits hi 0 s
  end.

(** The [Display] form of the error of a failed [parse]. *)
Definition parse_int_error (s : string) : string :=
  let digits := match s with String "+" s' => s' | _ => s end in
  if is_empty s then "cannot parse integer from empty string"
  else if negb (is_empty digits) && all_chars is_ascii_digit digits
  then "number too large to fit in target type"
  else "invalid digit found in string".

(** [n.to_string()] of an unsigned integer. *)
Definition uint_to_string (n : Z) : string := pretty (Z.to_N n).

(** ** Lemmas *)

Lemma string_app_cons c s t : String c s +++ t = String c (s +++ t).
Proof. done. Qed.

Lemma string_app_nil_l t : EmptyString +++ t = t.
Proof. done. Qed.

Lemma prefix_app p s : String.prefix p (p +++ s) = true.
Proof.
  induction p as [|c p IH]; rewrite ?string_app_cons, ?string_app_nil_l; simpl; [by destruct s|].
  by destruct (ascii_dec c c).
Qed.

Lemma prefix_app_r p s t : String.prefix p s = true -> String.prefix p (s +++ t) = true.
Proof.
  revert s; induction p as [|c p IH]; intros [|d s]; rewrite ?string_app_cons, ?string_app_nil_l; simpl; try done.
  - by destruct t.
  - destruct (ascii_dec c d); [apply IH | done].
Qed.

Lemma contains_prefix s p : String.prefix p s = true -> contains s p = true.
Proof. intros H. destruct s; cbn [contains]; by rewrite H. Qed.

Lemma contains_app_r s t p : contains s p = true -> contains (s +++ t) p = true.
Proof.
  induction s as [|c s IH].
  - destruct p; [|done]. intros _. rewrite string_app_nil_l. by destruct t.
  - rewrite string_app_cons; cbn [contains]; rewrite !orb_true_iff.
    intros [H|H]; [left|right; auto].
    apply (prefix_app_r p (String c s) t H).
Qed.

Lemma contains_app_l s t p : contains t p = true -> contains (s +++ t) p = true.
Proof.
  induction s as [|c s IH]; [done|]. intros H. rewrite string_app_cons; cbn [contains].
  rewrite orb_true_iff; auto.
Qed.

Lemma contains_self_app a p b : contains (a +++ p +++ b) p = true.
Proof. apply contains_app_l, contains_prefix, prefix_app. Qed.

Lemma drop_string_app p s : drop_string (String.length p) (p +++ s) = s.
Proof. by induction p. Qed.

Lemma strip_prefix_app p s : strip_prefix (p +++ s) p = Some s.
Proof. unfold strip_prefix. by rewrite prefix_app, drop_string_app. Qed.

Lemma string_app_assoc (a b c : string) : (a +++ b) +++ c = a +++ (b +++ c).
Proof. induction a; rewrite ?string_app_cons, ?string_app_nil_l; simpl; [done|]. by f_equal. Qed.

Lemma string_app_nil_r (a : string) : a +++ EmptyString = a.
Proof. induction a; rewrite ?string_app_cons, ?string_app_nil_l; simpl; [done|]. by f_equal. Qed.

Lemma string_length_app (a b : string) :
  String.length (a +++ b) = (String.length a + String.length b)%nat.
Proof. induction a; rewrite ?string_app_cons, ?string_app_nil_l; simpl; [done|]. by f_equal. Qed.

Lemma rev_app_app s t u : String.rev_app (s +++ t) u = String.rev_app t (String.rev_app s u).
Proof. revert u; induction s; intros u; simpl; auto. Qed.

Lemma rev_app_involutive s t u :
  String.rev_app (String.rev_app s t) u = String.rev_app t (s +++ u).
Proof. revert t u; induction s as [|c s IH]; intros t u; simpl; [done|]. by rewrite IH. Qed.

Lemma string_rev_involutive s : String.rev (String.rev s) = s.
Proof. unfold String.rev. rewrite rev_app_involutive. simpl. apply string_app_nil_r. Qed.

Lemma rev_app_nil s t : String.rev_app s t = String.rev s +++ t.
Proof.
  unfold String.rev. revert t; induction s as [|c s IH]; intros t; rewrite ?string_app_cons, ?string_app_nil_l; simpl; [done|].
  rewrite IH, (IH (String c "")), string_app_assoc. done.
Qed.

Lemma string_rev_cons c s : String.rev (String c s) = String.rev s +++ String c "".
Proof. unfold String.rev at 1. simpl. apply rev_app_nil. Qed.

Lemma string_rev_app a b : String.rev (a +++ b) = String.rev b +++ String.rev a.
Proof. unfold String.rev at 1. rewrite rev_app_app. apply rev_app_nil. Qed.

Lemma string_rev_empty s : String.rev s = EmptyString <-> s = EmptyString.
Proof.
  split; [|by intros ->]. intros H. rewrite <- (string_rev_involutive s), H. done.
Qed.

Lemma split_once_Some c s a b : split_once c s = Some (a, b) -> s = a +++ String c b.
Proof.
  revert a b; induction s as [|d s IH]; intros a b; simpl; [done|].
  destruct (Ascii.eqb_spec c d) as [->|]; [by intros [= <- <-]|].
  destruct (split_once c s) as [[a' b']|]; [|done]. intros [= <- <-].
  rewrite string_app_cons. by rewrite (IH a' b').
Qed.

(** A part without the separator is split off whole. *)
Definition avoids_char (c : ascii) (s : string) : bool := all_chars (fun d => negb (Ascii.eqb c d)) s.

Lemma split_once_app c a b : avoids_char c a = true -> split_once c (a +++ String c b) = Some (a, b).
Proof.
  unfold avoids_char. induction a as [|d a IH]; [simpl; by rewrite Ascii.eqb_refl|].
  rewrite string_app_cons. simpl. intros [Hd Ha]%andb_true_iff.
  apply negb_true_iff in Hd. by rewrite Hd, IH.
Qed.

Lemma field_inj c a b a' b' :
  avoids_char c a = true -> avoids_char c a' = true -> a +++ String c b = a' +++ String c b' ->
  a = a' /\ b = b'.
Proof.
  intros Ha Ha' H. apply (f_equal (split_once c)) in H. rewrite !split_once_app in H by done. by simplify_eq.
Qed.

Lemma take_string_length n s : (n <= String.length s)%nat -> String.length (take_string n s) = n.
Proof. revert n. induction s; intros [|n] H; simpl in *; try lia. by rewrite IHs by lia. Qed.

Lemma take_drop_string n s : take_string n s +++ drop_string n s = s.
Proof. revert n. induction s; intros [|n]; try done. simpl. rewrite string_app_cons. by rewrite IHs. Qed.

Lemma string_app_inj_r (a b c : string) : a +++ c = b +++ c -> a = b.
Proof.
  intros H. apply (f_equal String.rev) in H. rewrite !string_rev_app in H.
  apply (inj (String.append (String.rev c))) in H.
  by rewrite <- (string_rev_involutive a), H, string_rev_involutive.
Qed.

Lemma take_string_app a b n : String.length a = n -> take_string n (a +++ b) = a.
Proof.
  intros <-. induction a as [|c a IH]; [by destruct b|].
  rewrite string_app_cons. simpl. by rewrite IH.
Qed.

(** *** Digits *)

Lemma all_chars_app p s t : all_chars p (s +++ t) = all_chars p s && all_chars p t.
Proof. induction s; rewrite ?string_app_cons; simpl; [done|]. by rewrite IHs, andb_assoc. Qed.

Lemma all_chars_rev p s : all_chars p (String.rev s) = all_chars p s.
Proof.
  induction s as [|c s IH]; [done|].
  rewrite string_rev_cons, all_chars_app, IH; simpl.
  rewrite andb_true_r. apply andb_comm.
Qed.

(** Strings over characters that start no white space are not trimmed. *)
Section Solid.
Context (ok : ascii -> bool).

Definition avoids (pats : list string) : bool :=
  forallb (fun p => match p with String d _ => negb (ok d) | _ => false end) pats.

Lemma strip_any_solid pats c s :
  ok c = true -> avoids pats = true -> strip_any pats (String c s) = None.
Proof using Type.
  intros Hc. unfold avoids. induction pats as [|p pats IH]; simpl; [done|].
  intros [Hp ?]%andb_true_iff. rewrite IH by done.
  destruct p as [|d p]; [done|]. unfold strip_prefix; simpl.
  destruct (ascii_dec d c) as [->|]; [|done]. by rewrite Hc in Hp.
Qed.

Lemma trim_with_solid pats n s :
  all_chars ok s = true -> avoids pats = true -> trim_with pats n s = s.
Proof using Type.
  intros Hs Hp. destruct n; simpl; [done|]. destruct s as [|c s].
  - clear Hs. assert (strip_any pats EmptyString = None) as ->; [|done].
    unfold avoids in Hp. induction pats as [|p pats IH]; simpl in *; [done|].
    destruct p; [done|]. apply andb_true_iff in Hp as [_ Hp]. rewrite IH by done. done.
  - simpl in Hs. apply andb_true_iff in Hs as [Hc _]. by rewrite strip_any_solid.
Qed.

Lemma trim_solid s :
  avoids ws_patterns = true -> avoids ws_patterns_rev = true -> all_chars ok s = true -> trim s = s.
Proof using Type.
  intros H1 H2 Hs. unfold trim, trim_start, trim_end.
  rewrite (trim_with_solid ws_patterns) by done.
  rewrite trim_with_solid; [apply string_rev_involutive | by rewrite all_chars_rev | done].
Qed.
End Solid.

(** A mnemonic word: lower-case ASCII letters, at least one. *)
Definition is_lower (c : ascii) : bool := byte_in 97 122 c.
Definition plain_word (w : string) : bool := negb (is_empty w) && all_chars is_lower w.

Lemma split_ws_letters w fuel acc s :
  all_chars is_lower w = true ->
  split_ws (String.length w + fuel) acc (w +++ s) = split_ws fuel (acc +++ w) s.
Proof.
  revert acc. induction w as [|c w IH]; intros acc; [by rewrite string_app_nil_r|].
  intros [Hc Hw]%andb_true_iff. rewrite string_app_cons. simpl String.length. rewrite Nat.add_succ_l.
  cbn [split_ws]. rewrite (strip_any_solid is_lower) by done. rewrite IH by done.
  by rewrite string_app_assoc, string_app_cons, string_app_nil_l.
Qed.

Lemma strip_space s : strip_any ws_patterns (String " " s) = Some s.
Proof. by destruct s. Qed.

Lemma app_not_empty w : plain_word w = true -> is_empty w = false.
Proof. unfold plain_word. by intros [H%negb_true_iff _]%andb_true_iff. Qed.

(** Joining words with spaces and splitting at white space are inverse. *)
Lemma split_whitespace_join (l : list string) :
  forallb plain_word l = true -> split_whitespace (join " " l) = l.
Proof.
  unfold split_whitespace. induction l as [|w l IH]; [done|].
  intros [Hw Hl]%andb_true_iff. pose proof (app_not_empty w Hw) as He.
  apply andb_true_iff in Hw as [_ Hw]. destruct l as [|w' l].
  - cbn [join]. rewrite <- (string_app_nil_r w) at 2. rewrite <- (Nat.add_0_r (String.length w)).
    rewrite split_ws_letters, string_app_nil_l by done. simpl. by rewrite He.
  - change (join " " (w :: w' :: l)) with (w +++ (" " +++ join " " (w' :: l))).
    rewrite string_length_app. rewrite split_ws_letters, string_app_nil_l by done.
    rewrite string_length_app. change (String.length " ") with 1%nat. rewrite Nat.add_1_l.
    rewrite string_app_cons, string_app_nil_l. cbn [split_ws].
    rewrite strip_space.
    rewrite He, IH by done. done.
Qed.

Lemma utf8_valid_ascii s : all_chars (byte_in 0 127) s = true -> utf8_valid s = true.
Proof. induction s as [|c s IH]; [done|]. simpl. intros [-> Hs]%andb_true_iff. auto. Qed.

Lemma join_ascii (l : list string) :
  forallb plain_word l = true -> all_chars (byte_in 0 127) (join " " l) = true.
Proof.
  assert (forall w, all_chars is_lower w = true -> all_chars (byte_in 0 127) w = true) as Hlow.
  { induction w as [|c w IHw]; [done|]. simpl. intros [Hc Hw]%andb_true_iff. rewrite IHw by done.
    unfold is_lower, byte_in in *. apply andb_true_iff in Hc as [_ Hc%Nat.leb_le].
    replace (nat_of_ascii c <=? 127)%nat with true by (symmetry; apply Nat.leb_le; lia). done. }
  induction l as [|w l IH]; [done|]. intros [[_ Hw]%andb_true_iff Hl]%andb_true_iff.
  destruct l as [|w' l]; [by apply Hlow|].
  change (join " " (w :: w' :: l)) with (w +++ (" " +++ join " " (w' :: l))).
  rewrite !all_chars_app, Hlow, IH by done. done.
Qed.

Lemma trim_digits s : all_chars is_ascii_digit s = true -> trim s = s.
Proof. by apply trim_solid. Qed.

Lemma digit_range c d : digit c = Some d -> 0 <= d <= 9.
Proof. unfold digit. case_match; naive_solver lia. Qed.

Lemma pretty_char_digit (n : N) : (n < 10)%N -> digit (pretty_N_char n) = Some (Z.of_N n).
Proof.
  intros H.
  destruct n as [|p]; [reflexivity|].
  do 4 (destruct p as [p|p|]; try reflexivity; try lia).
Qed.

Lemma parse_digits_step hi acc c s d :
  digit c = Some d -> 0 <= acc -> acc * 10 + d <= hi ->
  parse_digits hi acc (String c s) = parse_digits hi (acc * 10 + d) s.
Proof.
  intros Hd Hacc Hhi. pose proof (digit_range _ _ Hd). simpl. rewrite Hd; simpl.
  assert (checked_mul hi acc 10 = Some (acc * 10)) as -> by (apply checked_Some; lia); simpl.
  assert (checked_add hi (acc * 10) d = Some (acc * 10 + d)) as -> by (apply checked_Some; lia).
  done.
Qed.

Lemma parse_digits_pretty_go hi (x : N) s :
  Z.of_N x <= hi ->
  parse_digits hi 0 (pretty_N_go x s) = parse_digits hi (Z.of_N x) s.
Proof.
  revert s. induction (N.lt_wf_0 x) as [x _ IH]; intros s Hx.
  destruct (decide (x = 0)%N) as [->|Hne]; [by rewrite pretty_N_go_0|].
  rewrite pretty_N_go_step by lia.
  assert (0 < 10)%N as H10 by lia.
  pose proof (N.div_lt x 10 ltac:(lia) ltac:(lia)).
  pose proof (N.mod_lt x 10 ltac:(lia)).
  pose proof (N.div_mod x 10 ltac:(lia)).
  rewrite IH by lia.
  rewrite (parse_digits_step _ _ _ _ (Z.of_N (x `mod` 10))) by
    (try apply pretty_char_digit; lia).
  f_equal; lia.
Qed.

Lemma all_digits_pretty_go (x : N) s :
  all_chars is_ascii_digit s = true -> all_chars is_ascii_digit (pretty_N_go x s) = true.
Proof.
  revert s. induction (N.lt_wf_0 x) as [x _ IH]; intros s Hs.
  destruct (decide (x = 0)%N) as [->|Hne]; [by rewrite pretty_N_go_0|].
  rewrite pretty_N_go_step by lia.
  pose proof (N.div_lt x 10 ltac:(lia) ltac:(lia)).
  pose proof (N.mod_lt x 10 ltac:(lia)).
  apply IH; [done|]. simpl. rewrite Hs. unfold is_ascii_digit.
  by rewrite pretty_char_digit by done.
Qed.

Lemma uint_to_string_digits n : all_chars is_ascii_digit (uint_to_string n) = true.
Proof.
  unfold uint_to_string, pretty, pretty_N. case_decide; [done|].
  by apply all_digits_pretty_go.
Qed.

Lemma trim_uint_to_string n : trim (uint_to_string n) = uint_to_string n.
Proof. apply trim_digits, uint_to_string_digits. Qed.

Lemma uint_to_string_nonempty n : uint_to_string n <> EmptyString.
Proof.
  unfold uint_to_string, pretty, pretty_N. case_decide; [done|].
  intros Hz. pose proof (parse_digits_pretty_go (Z.of_N (Z.to_N n)) (Z.to_N n) EmptyString) as HP.
  rewrite Hz in HP. simpl in HP. specialize (HP ltac:(lia)). simplify_eq. lia.
Qed.

Lemma parse_uint_digits hi s :
  all_chars is_ascii_digit s = true -> s <> EmptyString -> parse_uint hi s = parse_digits hi 0 s.
Proof.
  intros Hs Hne. destruct s as [|c s]; [done|]. simpl in Hs.
  apply andb_true_iff in Hs as [Hc _].
  destruct c as [[] [] [] [] [] [] [] []]; try done; destruct s; done.
Qed.

Lemma parse_uint_to_string hi n :
  0 <= n <= hi -> parse_uint hi (uint_to_string n) = Some n.
Proof.
  intros Hn. rewrite parse_uint_digits
    by (apply uint_to_string_digits || apply uint_to_string_nonempty).
  unfold uint_to_string, pretty, pretty_N. case_decide as H0.
  - assert (n = 0) as -> by lia.
    rewrite (parse_digits_step _ _ _ _ 0) by (done || lia). done.
  - rewrite parse_digits_pretty_go by lia. simpl. f_equal; lia.
Qed.

Lemma parse_digits_Some hi acc s n :
  parse_digits hi acc s = Some n -> 0 <= acc <= hi -> 0 <= n <= hi.
Proof.
  revert acc; induction s as [|c s IH]; intros acc; simpl; [naive_solver lia|].
  intros H Hacc. destruct (digit c) as [d|] eqn:Hd; simpl in *; [|done].
  destruct (checked_mul hi acc 10) as [a|] eqn:Ha; simpl in *; [|done].
  destruct (checked_add hi a d) as [b|] eqn:Hb; simpl in *; [|done].
  apply checked_Some in Hb as [-> ?]. eauto.
Qed.

Lemma parse_uint_Some hi s n : 0 <= hi -> parse_uint hi s = Some n -> 0 <= n <= hi.
Proof.
  intros Hhi H. unfold parse_uint in H.
  repeat case_match; simplify_eq; eapply parse_digits_Some; eauto; lia.
Qed.

(** *** Patterns without digits

    A digit cuts a search: a pattern without digits that occurs in
    [a ++ d ++ b], with [d] made of digits, occurs in [a] or in [b]. *)

Definition no_digit (s : string) : bool := all_chars (fun c => negb (is_ascii_digit c)) s.

Lemma prefix_stop p s c b :
  no_digit p = true -> is_ascii_digit c = true ->
  String.prefix p (s +++ String c b) = String.prefix p s.
Proof.
  intros Hp Hc. revert s; induction p as [|d p IH]; intros [|e s].
  - done.
  - done.
  - rewrite string_app_nil_l. simpl. destruct (ascii_dec d c) as [->|]; [|done].
    unfold no_digit in Hp; simpl in Hp. by rewrite Hc in Hp.
  - rewrite string_app_cons. simpl. destruct (ascii_dec d e); [|done].
    apply IH. unfold no_digit in *. simpl in Hp. by apply andb_true_iff in Hp as [_ ?].
Qed.

Lemma contains_cut a c b p :
  no_digit p = true -> p <> EmptyString -> is_ascii_digit c = true ->
  contains (a +++ String c b) p = contains a p || contains b p.
Proof.
  intros Hp Hne Hc. induction a as [|x a IH].
  - rewrite string_app_nil_l. cbn [contains].
    pose proof (prefix_stop p EmptyString c b Hp Hc) as HS. rewrite string_app_nil_l in HS.
    rewrite HS. by destruct p.
  - pose proof (prefix_stop p (String x a) c b Hp Hc) as HS.
    rewrite string_app_cons in *. cbn [contains]. rewrite HS, IH. apply orb_assoc.
Qed.

Lemma contains_digits a d b p :
  no_digit p = true -> p <> EmptyString -> d <> EmptyString ->
  all_chars is_ascii_digit d = true ->
  contains (a +++ d +++ b) p = contains a p || contains b p.
Proof.
  intros Hp Hne Hd. revert a; induction d as [|c d IH]; intros a Had; [done|].
  simpl in Had. apply andb_true_iff in Had as [Hc Had].
  rewrite string_app_cons, contains_cut by done.
  destruct d as [|c' d]; [done|].
  specialize (IH ltac:(done) EmptyString Had). rewrite !string_app_nil_l in IH.
  rewrite IH. f_equal. destruct p; done.
Qed.

Lemma contains_any_digits a d b ps :
  forallb (fun p => no_digit p && negb (is_empty p)) ps = true -> d <> EmptyString ->
  all_chars is_ascii_digit d = true ->
  contains_any (a +++ d +++ b) ps = contains_any a ps || contains_any b ps.
Proof.
  intros Hps Hd Had. unfold contains_any. induction ps as [|p ps IH]; [done|].
  simpl in *. apply andb_true_iff in Hps as [[Hp Hne]%andb_true_iff Hps].
  rewrite IH by done. rewrite contains_digits; [|done|by destruct p|done|done].
  by destruct (contains a p), (contains b p), (existsb (contains a) ps).
Qed.

Lemma to_lowercase_digit c s :
  is_ascii_digit c = true -> to_lowercase (String c s) = String c (to_lowercase s).
Proof. intros Hc. destruct c as [[] [] [] [] [] [] [] []]; try discriminate Hc; reflexivity. Qed.

Lemma to_lowercase_digits d s :
  all_chars is_ascii_digit d = true -> to_lowercase (d +++ s) = d +++ to_lowercase s.
Proof.
  induction d as [|c d IH]; [done|]. intros Had. simpl in Had.
  apply andb_true_iff in Had as [Hc Hd].
  rewrite !string_app_cons, to_lowercase_digit by done. by rewrite IH.
Qed.

#[export] Hint Resolve contains_prefix contains_app_l contains_app_r : zbag.
Create Rewrite HintDb zbag_text.
#[export] Hint Rewrite string_app_assoc string_app_nil_r string_rev_involutive : zbag_text.
