(* ===== verification/Domain.v ===== *)
(** The data types of [crates/zbag-core]: the domain enums and structs
    ([src/domain/*.rs]), the stable error codes ([src/errors.rs]), the IPC
    envelope ([src/ipc/v1/common.rs]) and the events the engine emits
    ([src/ipc/v1/events]).

    An enum [E] with variants [A], [B] is the inductive type [E] of a module
    [E], so that a variant reads [E.A] as in Rust.  A [Uuid] is its canonical
    text form; a time in milliseconds is a [Z]; the [Zatoshis] of the IPC
    layer are decimal strings, as in the source. *)
From S2P Require Import Prelude Text.

Abbreviation Uuid := string (only parsing).
Abbreviation Zatoshis := string (only parsing).

(** ** Error codes (errors.rs) *)

Module errors.
Definition WALLET_NOT_FOUND := "E1001".
Definition WALLET_LOCKED := "E1002".
Definition WALLET_ALREADY_EXISTS := "E1003".
Definition INVALID_SEED_PHRASE := "E1004".
Definition BACKUP_REQUIRED := "E1005".
Definition BACKUP_CHALLENGE_INVALID := "E1006".
Definition BACKUP_CHALLENGE_EXPIRED := "E1007".
Definition INVALID_WALLET_PASSWORD := "E1008".
Definition REAUTH_REQUIRED := "E1009".
Definition REAUTH_TOKEN_INVALID := "E1010".
Definition REAUTH_TOKEN_EXPIRED := "E1011".
Definition BACKUP_CHALLENGE_TOO_MANY_ATTEMPTS := "E1012".
Definition ACCOUNT_NOT_FOUND := "E2001".
Definition WATCH_ONLY_CANNOT_SPEND := "E2002".
Definition INSUFFICIENT_FUNDS := "E3001".
Definition INVALID_RECIPIENT := "E3002".
Definition TRANSPARENT_SPEND_BLOCKED := "E3003".
Definition TRANSACTION_FAILED := "E3004".
Definition MEMO_TOO_LONG := "E3005".
Definition PROPOSAL_NOT_FOUND := "E3006".
Definition PROPOSAL_EXPIRED := "E3007".
Definition QUEUED_BROADCAST_NOT_FOUND := "E3008".
Definition QUEUED_BROADCAST_EXPIRED := "E3009".
Definition PRIVACY_ACK_REQUIRED := "E3010".
Definition MEMO_NOT_ALLOWED := "E3011".
Definition JOB_NOT_FOUND := "E3012".
Definition SYNC_IN_PROGRESS := "E4001".
Definition SERVER_UNAVAILABLE := "E4002".
Definition SYNC_FAILED := "E4003".
Definition SYNC_CHAIN_TIP_FAILED := "E4004".
Definition SYNC_CACHE_INIT_FAILED := "E4005".
Definition SYNC_DB_INIT_FAILED := "E4006".
Definition SYNC_WALLET_DB_FAILED := "E4007".
Definition SYNC_CHAIN_UPDATE_FAILED := "E4008".
Definition SYNC_SCAN_FAILED := "E4009".
Definition SYNC_TREE_STATE_FAILED := "E4010".
Definition SYNC_BLOCK_CACHE_FAILED := "E4011".
Definition INVALID_UFVK := "E5001".
Definition INVALID_PCZT := "E5002".
Definition SIGNING_FAILED := "E5003".
Definition QUOTE_EXPIRED := "E6001".
Definition SWAP_FAILED := "E6002".
Definition INVALID_ASSET := "E6003".
Definition SWAP_UNSUPPORTED_NETWORK := "E6004".
Definition TOR_NOT_READY := "E7001".
Definition TOR_CONNECTION_FAILED := "E7002".
Definition EXCHANGE_RATE_DISABLED := "E8001".
Definition EXCHANGE_RATE_FETCH_FAILED := "E8002".
Definition EXCHANGE_RATE_RATE_LIMITED := "E8003".
Definition EXCHANGE_RATE_PRIVACY_ACK_REQUIRED := "E8004".
Definition WATCH_ONLY_NO_SEED := "E9010".
Definition WATCH_ONLY_NO_BACKUP := "E9011".
Definition WATCH_ONLY_CANNOT_SHIELD := "E9012".
Definition INVALID_REQUEST := "E9001".
Definition INTERNAL_ERROR := "E9002".
Definition SCHEMA_VERSION_MISMATCH := "E9003".
End errors.

(** ** Accounts, wallets and networks *)

Module AccountType.
Inductive AccountType := Software | WatchOnly | HardwareSigner.
#[global] Instance AccountType_eq_dec : EqDecision AccountType.
Proof. solve_decision. Defined.
End AccountType.
Abbreviation AccountType := AccountType.AccountType.

Record AccountInfo := mkAccountInfo {
  ai_id : Z;
  ai_name : string;
  ai_account_type : AccountType;
}.

Module WalletType.
Inductive WalletType := Software | WatchOnly.
#[global] Instance WalletType_eq_dec : EqDecision WalletType.
Proof. solve_decision. Defined.
End WalletType.
Abbreviation WalletType := WalletType.WalletType.

Module Network.
Inductive Network := Mainnet | Testnet.
#[global] Instance Network_eq_dec : EqDecision Network.
Proof. solve_decision. Defined.
End Network.
Abbreviation Network := Network.Network.

Record WalletInfo := mkWalletInfo {
  wi_id : Uuid;
  wi_name : string;
  wi_wallet_type : WalletType;
  wi_network : Network;
  wi_remember_unlock_enabled : bool;
  wi_created_at : Z;
  wi_last_opened_at : option Z;
}.

Module WalletLockStatus.
Inductive WalletLockStatus := Locked | Unlocked.
#[global] Instance WalletLockStatus_eq_dec : EqDecision WalletLockStatus.
Proof. solve_decision. Defined.
End WalletLockStatus.
Abbreviation WalletLockStatus := WalletLockStatus.WalletLockStatus.

Module BackupAction.
Inductive BackupAction := Required | Complete.
#[global] Instance BackupAction_eq_dec : EqDecision BackupAction.
Proof. solve_decision. Defined.
End BackupAction.
Abbreviation BackupAction := BackupAction.BackupAction.

Module SyncStatus.
Inductive SyncStatus :=
| Synced
| Syncing (progress_percent : Z)
| Offline (retry_in_seconds : Z)
| Error (message : string).
#[global] Instance SyncStatus_eq_dec : EqDecision SyncStatus.
Proof. solve_decision. Defined.
End SyncStatus.
Abbreviation SyncStatus := SyncStatus.SyncStatus.

Module ShieldAction.
Inductive ShieldAction := None_ | Available (amount : Zatoshis) | InProgress.
#[global] Instance ShieldAction_eq_dec : EqDecision ShieldAction.
Proof. solve_decision. Defined.
End ShieldAction.
Abbreviation ShieldAction := ShieldAction.ShieldAction.

Module PrivacyPosture.
Inductive PrivacyPosture := Optimal | NeedsAction.
#[global] Instance PrivacyPosture_eq_dec : EqDecision PrivacyPosture.
Proof. solve_decision. Defined.
End PrivacyPosture.
Abbreviation PrivacyPosture := PrivacyPosture.PrivacyPosture.

Record WalletStatus := mkWalletStatus {
  ws_lock_status : WalletLockStatus;
  ws_backup_status : BackupAction;
  ws_sync_status : SyncStatus;
  ws_shield_status : ShieldAction;
  ws_privacy_posture : PrivacyPosture;
}.
#[global] Instance WalletStatus_eq_dec : EqDecision WalletStatus.
Proof. solve_decision. Defined.

Record Balance := mkBalance {
  bal_shielded_spendable : Zatoshis;
  bal_shielded_pending : Zatoshis;
  bal_transparent_total : Zatoshis;
  bal_total : Zatoshis;
}.

(** ** Jobs (domain/job.rs) *)

Module JobType.
Inductive JobType := Send | Shield.
#[global] Instance JobType_eq_dec : EqDecision JobType.
Proof. solve_decision. Defined.
End JobType.
Abbreviation JobType := JobType.JobType.

Module JobState.
Inductive JobState := Queued | Running | Completed | Failed | Cancelled.
#[global] Instance JobState_eq_dec : EqDecision JobState.
Proof. solve_decision. Defined.
End JobState.
Abbreviation JobState := JobState.JobState.

Module JobPhase.
Inductive JobPhase := Preparing | Proving | Broadcasting | Done.
#[global] Instance JobPhase_eq_dec : EqDecision JobPhase.
Proof. solve_decision. Defined.
End JobPhase.
Abbreviation JobPhase := JobPhase.JobPhase.

Record JobProgress := mkJobProgress {
  jp_job_id : string;
  jp_job_type : JobType;
  jp_state : JobState;
  jp_phase : JobPhase;
  jp_progress_percent : option Z;
  jp_txid : option string;
  jp_error : option string;
  jp_can_cancel : bool;
}.
#[global] Instance JobProgress_eq_dec : EqDecision JobProgress.
Proof. solve_decision. Defined.

(** ** Swaps (domain/swap.rs) *)

Module SwapType.
Inductive SwapType := ToZec | FromZec.
#[global] Instance SwapType_eq_dec : EqDecision SwapType.
Proof. solve_decision. Defined.
End SwapType.
Abbreviation SwapType := SwapType.SwapType.

Module SwapMode.
Inductive SwapMode := ExactInput | ExactOutput.
#[global] Instance SwapMode_eq_dec : EqDecision SwapMode.
Proof. solve_decision. Defined.
End SwapMode.
Abbreviation SwapMode := SwapMode.SwapMode.

Module SwapState.
Inductive SwapState :=
  Draft | AwaitingDeposit | Pending | Confirming | Completed | Refunded | Failed.
#[global] Instance SwapState_eq_dec : EqDecision SwapState.
Proof. solve_decision. Defined.
End SwapState.
Abbreviation SwapState := SwapState.SwapState.

Record SwapIntent := mkSwapIntent {
  in_swap_type : SwapType;
  in_swap_mode : SwapMode;
  in_input_asset : string;
  in_input_amount : string;
  in_output_asset : string;
  in_output_amount : option string;
  in_destination_address : option string;
  in_refund_address : option string;
}.

Record SwapInfo := mkSwapInfo {
  sw_id : Uuid;
  sw_remote_id : option string;
  sw_swap_type : SwapType;
  sw_input_asset : string;
  sw_input_amount : string;
  sw_output_asset : string;
  sw_output_amount : option string;
  sw_deposit_address : option string;
  sw_deposit_memo : option string;
  sw_destination_address : option string;
  sw_refund_address : option string;
  sw_state : SwapState;
  sw_deadline : option Z;
  sw_last_error : option string;
  sw_created_at : Z;
  sw_updated_at : Z;
}.
#[global] Instance SwapInfo_eq_dec : EqDecision SwapInfo.
Proof. solve_decision. Defined.

Record SwapQuote := mkSwapQuote {
  sq_input_asset : string;
  sq_input_amount : string;
  sq_input_amount_formatted : string;
  sq_output_asset : string;
  sq_output_amount : string;
  sq_output_amount_formatted : string;
  sq_min_output_amount : string;
  sq_deadline : Z;
  sq_time_estimate_secs : Z;
  sq_deposit_address : option string;
  sq_deposit_memo : option string;
  sq_correlation_id : string;
  sq_app_fee_bps : option Z;
}.

(** ** Synchronisation and Tor *)

Module SyncPhase.
Inductive SyncPhase :=
  Idle | Preparing | Downloading | Scanning | Enhancing | CatchingUp | Offline | Error.
#[global] Instance SyncPhase_eq_dec : EqDecision SyncPhase.
Proof. solve_decision. Defined.
End SyncPhase.
Abbreviation SyncPhase := SyncPhase.SyncPhase.

Record SyncProgress := mkSyncProgress {
  sp_phase : SyncPhase;
  sp_scan_frontier_height : Z;
  sp_wallet_tip_height : Z;
  sp_progress_percent : Z;
  sp_eta_seconds : option Z;
  sp_retry_in_seconds : option Z;
  sp_error_message : option string;
}.

Module TorStatus.
Inductive TorStatus := Off | Connecting | On | Error.
#[global] Instance TorStatus_eq_dec : EqDecision TorStatus.
Proof. solve_decision. Defined.
End TorStatus.
Abbreviation TorStatus := TorStatus.TorStatus.

Record TorState := mkTorState {
  tor_enabled : bool;
  tor_status : TorStatus;
  tor_last_error : option string;
}.

(** ** Fiat display (domain/exchange_rate.rs) *)

Module FiatCurrency.
Inductive FiatCurrency := USD | EUR | GBP | CHF | CAD | AUD | JPY.
#[global] Instance FiatCurrency_eq_dec : EqDecision FiatCurrency.
Proof. solve_decision. Defined.
End FiatCurrency.
Abbreviation FiatCurrency := FiatCurrency.FiatCurrency.

Definition fiat_code (c : FiatCurrency) : string :=
  match c with
  | FiatCurrency.USD => "USD" | FiatCurrency.EUR => "EUR" | FiatCurrency.GBP => "GBP"
  | FiatCurrency.CHF => "CHF" | FiatCurrency.CAD => "CAD" | FiatCurrency.AUD => "AUD"
  | FiatCurrency.JPY => "JPY"
  end.

Definition fiat_all : list FiatCurrency :=
  [FiatCurrency.USD; FiatCurrency.EUR; FiatCurrency.GBP; FiatCurrency.CHF; FiatCurrency.CAD;
   FiatCurrency.AUD; FiatCurrency.JPY].

Record FiatDisplaySettings := mkFiatDisplaySettings {
  fs_enabled : bool;
  fs_currency : FiatCurrency;
  fs_privacy_acknowledged : bool;
}.

Definition fiat_settings_default : FiatDisplaySettings :=
  mkFiatDisplaySettings false FiatCurrency.USD false.

(** ** Transactions (domain/transaction.rs) *)

Module TransactionType.
Inductive TransactionType := Send | Receive | Shield | Consolidate.
#[global] Instance TransactionType_eq_dec : EqDecision TransactionType.
Proof. solve_decision. Defined.
End TransactionType.
Abbreviation TransactionType := TransactionType.TransactionType.

Module TransactionStatus.
Inductive TransactionStatus := Pending | Confirmed | Expired | Failed.
#[global] Instance TransactionStatus_eq_dec : EqDecision TransactionStatus.
Proof. solve_decision. Defined.
End TransactionStatus.
Abbreviation TransactionStatus := TransactionStatus.TransactionStatus.

Module RecipientKind.
Inductive RecipientKind := Orchard | Sapling | Transparent.
#[global] Instance RecipientKind_eq_dec : EqDecision RecipientKind.
Proof. solve_decision. Defined.
End RecipientKind.
Abbreviation RecipientKind := RecipientKind.RecipientKind.

Module MemoKind.
Inductive MemoKind := Text | Binary | Empty.
#[global] Instance MemoKind_eq_dec : EqDecision MemoKind.
Proof. solve_decision. Defined.
End MemoKind.
Abbreviation MemoKind := MemoKind.MemoKind.

Record MemoInfo := mkMemoInfo {
  mi_kind : MemoKind;
  mi_content : option string;
  mi_size_bytes : Z;
}.

Record TransactionInfo := mkTransactionInfo {
  ti_txid : string;
  ti_account_id : Z;
  ti_tx_type : TransactionType;
  ti_value : Zatoshis;
  ti_fee : Zatoshis;
  ti_memo_count : Z;
  ti_memos : list MemoInfo;
  ti_status : TransactionStatus;
  ti_last_error : option string;
  ti_can_retry_broadcast : bool;
  ti_mined_height : option Z;
  ti_created_at : Z;
  ti_confirmed_at : option Z;
}.

Record TransactionSummary := mkTransactionSummary {
  ts_recipient : string;
  ts_recipient_kind : RecipientKind;
  ts_amount : Zatoshis;
  ts_fee : Zatoshis;
  ts_memo_present : bool;
  ts_total_spend : Zatoshis;
}.

(** ** Servers *)

Record ServerInfo := mkServerInfo {
  srv_id : Uuid;
  srv_name : string;
  srv_grpc_url : string;
  srv_network : Network;
  srv_is_default : bool;
  srv_last_success_at : option Z;
  srv_validation_error : option string;
}.

(** ** The IPC envelope and the engine's events *)

Definition SCHEMA_VERSION : Z := 1.

Definition ensure_schema_version (schema_version : Z) : result unit :=
  if negb (schema_version =? SCHEMA_VERSION) then
    Err (ipc_err errors.SCHEMA_VERSION_MISMATCH
           ("schema_version mismatch: expected " +:+ uint_to_string SCHEMA_VERSION
            +:+ ", got " +:+ uint_to_string schema_version))
  else Ok tt.

Record ServerFailoverEvent := mkServerFailoverEvent {
  fo_network : Network;
  fo_from_server_id : string;
  fo_from_server_name : string;
  fo_from_grpc_url : string;
  fo_to_server_id : string;
  fo_to_server_name : string;
  fo_to_grpc_url : string;
  fo_reason : string;
}.

(** What the engine hands to its event handlers, in emission order.  The
    constant fields [schema_version] and [event] of each struct are the
    constructor's. *)
Inductive Event :=
| JobProgressEvent (progress : JobProgress)
| TransactionChangedEvent (transaction : TransactionInfo)
| SwapChangedEvent (swap : SwapInfo)
| ServerFailover (ev : ServerFailoverEvent)
| SyncProgressEvent (progress : SyncProgress)
| BalanceChangedEvent (account_id : Z) (balance : Balance)
| WalletStatusEvent (status : WalletStatus)
| TorStatusEvent (state : TorState).

Definition event_name (e : Event) : string :=
  match e with
  | JobProgressEvent _ => "job.progress"
  | TransactionChangedEvent _ => "tx.changed"
  | SwapChangedEvent _ => "swap.changed"
  | ServerFailover _ => "server.failover"
  | SyncProgressEvent _ => "sync.progress"
  | BalanceChangedEvent _ _ => "balance.changed"
  | WalletStatusEvent _ => "wallet.status"
  | TorStatusEvent _ => "tor.status"
  end.
