(* ===== verification/AppDb.v ===== *)
(** The application metadata database ([crates/zbag-engine/src/db]): its
    tables as lists of rows in insertion order, and the statements of
    [wallet_meta.rs], [account_meta.rs], [backup_meta.rs],
    [rotation_meta.rs], [server_meta.rs], [tor_meta.rs] and [fiat_meta.rs];
    the statements on swaps are in [Swaps], those on the encryption
    parameters in [Encryption].

    Enum columns are text, written with [{:?}] and read back with a
    fallback, as in the source.  The constraints of [schema.rs] (primary
    keys, foreign keys, the partial unique index on default servers) are
    checked by the statements.  [adb_faults] scripts failures of the
    database itself (busy, disk): each statement consumes one entry and
    fails when it is [true]. *)
From S2P Require Import Prelude Text Domain.

(** ** Enum columns *)

Definition network_debug (n : Network) : string :=
  match n with Network.Mainnet => "Mainnet" | Network.Testnet => "Testnet" end.

Definition parse_network_column (s : string) : Network :=
  if bool_decide (s = "Mainnet") then Network.Mainnet else Network.Testnet.

Definition account_type_debug (t : AccountType) : string :=
  match t with
  | AccountType.Software => "Software"
  | AccountType.WatchOnly => "WatchOnly"
  | AccountType.HardwareSigner => "HardwareSigner"
  end.

Definition parse_account_type_column (s : string) : AccountType :=
  if bool_decide (s = "WatchOnly") then AccountType.WatchOnly
  else if bool_decide (s = "HardwareSigner") then AccountType.HardwareSigner
  else AccountType.Software.

Lemma parse_network_debug n : parse_network_column (network_debug n) = n.
Proof. by destruct n. Qed.

Lemma network_debug_inj a b : network_debug a = network_debug b -> a = b.
Proof. by destruct a, b. Qed.

Lemma parse_account_type_debug t : parse_account_type_column (account_type_debug t) = t.
Proof. by destruct t. Qed.

(** ** Rows and the database *)

Record WalletRow := mkWalletRow {
  wr_id : Uuid; wr_name : string; wr_directory_path : string; wr_wallet_type : string;
  wr_network : string; wr_remember_unlock_enabled : bool; wr_created_at : Z;
  wr_last_opened_at : option Z;
}.

Record AccountRow := mkAccountRow {
  ar_wallet_id : Uuid; ar_account_id : Z; ar_name : string; ar_account_type : string;
  ar_created_at : Z;
}.

Record BackupRow := mkBackupRow {
  br_wallet_id : Uuid; br_backup_required : bool; br_backup_completed_at : option Z;
  br_verification_method : option string;
}.

Record ServerRow := mkServerRow {
  sr_id : Uuid; sr_name : string; sr_grpc_url : string; sr_network : string;
  sr_is_default : bool; sr_last_success_at : option Z; sr_created_at : Z;
}.

Record SwapRow := mkSwapRow {
  sw_wallet_id : Uuid; sw_swap_type_text : string; sw_state_text : string; sw_columns : SwapInfo;
}.

Record RotationRow := mkRotationRow {
  rr_wallet_id : Uuid; rr_account_id : Z; rr_diversifier_index : Z; rr_created_at : Z;
}.

(** [kdf_*], [wrapped_dek] and [aead_*] of one wallet; the nonce may be [NULL]. *)
Record EncryptionRow := mkEncryptionRow {
  er_wallet_id : Uuid; er_kdf_algorithm : string; er_kdf_version : Z; er_kdf_memory_mib : Z;
  er_kdf_iterations : Z; er_kdf_parallelism : Z; er_kdf_salt : string; er_wrapped_dek : string;
  er_aead_scheme : string; er_aead_version : Z; er_aead_nonce : option string;
}.

(** The single row ([id = 1]) of [tor_settings] and of [fiat_settings]. *)
Record TorRow := mkTorRow {
  tr_enabled : Z; tr_status : string; tr_last_error : option string; tr_updated_at : Z;
}.

Record FiatRow := mkFiatRow {
  fr_enabled : Z; fr_currency : string; fr_privacy_acknowledged : Z; fr_updated_at : Z;
}.

Record AppDb := mkAppDb {
  adb_wallets : list WalletRow;
  adb_accounts : list AccountRow;
  adb_backup : list BackupRow;
  adb_servers : list ServerRow;
  adb_swaps : list SwapRow;
  adb_rotation : list RotationRow;
  adb_encryption : list EncryptionRow;
  adb_tor : option TorRow;
  adb_fiat : option FiatRow;
  adb_faults : list bool;
}.

Definition set_faults (db : AppDb) (l : list bool) : AppDb :=
  mkAppDb (adb_wallets db) (adb_accounts db) (adb_backup db) (adb_servers db) (adb_swaps db)
    (adb_rotation db) (adb_encryption db) (adb_tor db) (adb_fiat db) l.
Definition set_wallets (db : AppDb) (l : list WalletRow) : AppDb :=
  mkAppDb l (adb_accounts db) (adb_backup db) (adb_servers db) (adb_swaps db)
    (adb_rotation db) (adb_encryption db) (adb_tor db) (adb_fiat db) (adb_faults db).
Definition set_accounts (db : AppDb) (l : list AccountRow) : AppDb :=
  mkAppDb (adb_wallets db) l (adb_backup db) (adb_servers db) (adb_swaps db)
    (adb_rotation db) (adb_encryption db) (adb_tor db) (adb_fiat db) (adb_faults db).
Definition set_backup (db : AppDb) (l : list BackupRow) : AppDb :=
  mkAppDb (adb_wallets db) (adb_accounts db) l (adb_servers db) (adb_swaps db)
    (adb_rotation db) (adb_encryption db) (adb_tor db) (adb_fiat db) (adb_faults db).
Definition set_servers (db : AppDb) (l : list ServerRow) : AppDb :=
  mkAppDb (adb_wallets db) (adb_accounts db) (adb_backup db) l (adb_swaps db)
    (adb_rotation db) (adb_encryption db) (adb_tor db) (adb_fiat db) (adb_faults db).
Definition set_swaps (db : AppDb) (l : list SwapRow) : AppDb :=
  mkAppDb (adb_wallets db) (adb_accounts db) (adb_backup db) (adb_servers db) l
    (adb_rotation db) (adb_encryption db) (adb_tor db) (adb_fiat db) (adb_faults db).
Definition set_rotation (db : AppDb) (l : list RotationRow) : AppDb :=
  mkAppDb (adb_wallets db) (adb_accounts db) (adb_backup db) (adb_servers db) (adb_swaps db)
    l (adb_encryption db) (adb_tor db) (adb_fiat db) (adb_faults db).
Definition set_encryption (db : AppDb) (l : list EncryptionRow) : AppDb :=
  mkAppDb (adb_wallets db) (adb_accounts db) (adb_backup db) (adb_servers db) (adb_swaps db)
    (adb_rotation db) l (adb_tor db) (adb_fiat db) (adb_faults db).
Definition set_tor (db : AppDb) (l : option TorRow) : AppDb :=
  mkAppDb (adb_wallets db) (adb_accounts db) (adb_backup db) (adb_servers db) (adb_swaps db)
    (adb_rotation db) (adb_encryption db) l (adb_fiat db) (adb_faults db).
Definition set_fiat (db : AppDb) (l : option FiatRow) : AppDb :=
  mkAppDb (adb_wallets db) (adb_accounts db) (adb_backup db) (adb_servers db) (adb_swaps db)
    (adb_rotation db) (adb_encryption db) (adb_tor db) l (adb_faults db).

Definition sqlite_error : error := AnyhowMsg "sqlite error".
Definition constraint_error : error := AnyhowMsg "constraint failed".
Definition no_rows_error : error := AnyhowMsg "Query returned no rows".

(** Runs one statement against the database. *)
Definition db_stmt : M AppDb unit := fun db =>
  match adb_faults db with
  | [] => (Ok tt, db)
  | f :: fs => ((if f then Err sqlite_error else Ok tt), set_faults db fs)
  end.

Definition db_require (b : bool) (e : error) : M AppDb unit := if b then mret tt else m_err e.

Definition wallet_exists (db : AppDb) (wallet_id : Uuid) : bool :=
  existsb (fun w => bool_decide (wr_id w = wallet_id)) (adb_wallets db).

(** ** wallet_meta.rs *)

Definition wallet_type_debug (t : WalletType) : string :=
  match t with WalletType.Software => "Software" | WalletType.WatchOnly => "WatchOnly" end.

Definition parse_wallet_type_column (s : string) : WalletType :=
  if bool_decide (s = "WatchOnly") then WalletType.WatchOnly else WalletType.Software.

Definition row_of_wallet (w : WalletInfo) (directory_path : string) : WalletRow :=
  mkWalletRow (wi_id w) (wi_name w) directory_path (wallet_type_debug (wi_wallet_type w))
    (network_debug (wi_network w)) (wi_remember_unlock_enabled w) (wi_created_at w)
    (wi_last_opened_at w).

Definition wallet_of_row (r : WalletRow) : WalletInfo :=
  mkWalletInfo (wr_id r) (wr_name r) (parse_wallet_type_column (wr_wallet_type r))
    (parse_network_column (wr_network r)) (wr_remember_unlock_enabled r) (wr_created_at r)
    (wr_last_opened_at r).

Definition wallet_id_is (id : Uuid) (r : WalletRow) : bool := bool_decide (wr_id r = id).

Definition insert_wallet (wallet : WalletInfo) (directory_path : string) : M AppDb unit :=
  db_stmt ;;
  db ← m_get;
  db_require (negb (wallet_exists db (wi_id wallet))) constraint_error ;;
  m_put (set_wallets db (adb_wallets db ++ [row_of_wallet wallet directory_path])).

Definition get_wallet (wallet_id : Uuid) : M AppDb (option (WalletInfo * string)) :=
  db_stmt ;;
  db ← m_get;
  mret ((fun r => (wallet_of_row r, wr_directory_path r))
          <$> find_first (wallet_id_is wallet_id) (adb_wallets db)).

(** [ORDER BY created_at DESC]. *)
Definition list_wallets : M AppDb (list WalletInfo) :=
  db_stmt ;;
  db ← m_get;
  mret (map wallet_of_row (isort (fun a b => wr_created_at b <=? wr_created_at a) (adb_wallets db))).

Definition update_wallet_row (wallet_id : Uuid) (f : WalletRow -> WalletRow) : M AppDb unit :=
  db_stmt ;;
  m_modify (fun db => set_wallets db
    (map (fun r => if wallet_id_is wallet_id r then f r else r) (adb_wallets db))).

Definition update_last_opened_at (wallet_id : Uuid) (last_opened_at : Z) : M AppDb unit :=
  update_wallet_row wallet_id (fun r =>
    mkWalletRow (wr_id r) (wr_name r) (wr_directory_path r) (wr_wallet_type r) (wr_network r)
      (wr_remember_unlock_enabled r) (wr_created_at r) (Some last_opened_at)).

Definition set_remember_unlock_enabled (wallet_id : Uuid) (enabled : bool) : M AppDb unit :=
  update_wallet_row wallet_id (fun r =>
    mkWalletRow (wr_id r) (wr_name r) (wr_directory_path r) (wr_wallet_type r) (wr_network r)
      enabled (wr_created_at r) (wr_last_opened_at r)).

(** ** tor_meta.rs *)

Definition bool_as_i64 (b : bool) : Z := if b then 1 else 0.

Definition tor_status_debug (s : TorStatus) : string :=
  match s with
  | TorStatus.Off => "Off"
  | TorStatus.Connecting => "Connecting"
  | TorStatus.On => "On"
  | TorStatus.Error => "Error"
  end.

Definition parse_tor_status_column (s : string) : TorStatus :=
  if bool_decide (s = "Connecting") then TorStatus.Connecting
  else if bool_decide (s = "On") then TorStatus.On
  else if bool_decide (s = "Error") then TorStatus.Error
  else TorStatus.Off.

Definition get_tor_state : M AppDb TorState :=
  db_stmt ;;
  db ← m_get;
  mret match adb_tor db with
       | None => mkTorState false TorStatus.Off None
       | Some r => mkTorState (negb (tr_enabled r =? 0)) (parse_tor_status_column (tr_status r))
                     (tr_last_error r)
       end.

Definition upsert_tor_state (state : TorState) (updated_at_ms : Z) : M AppDb unit :=
  db_stmt ;;
  m_modify (fun db => set_tor db
    (Some (mkTorRow (bool_as_i64 (tor_enabled state)) (tor_status_debug (tor_status state))
             (tor_last_error state) updated_at_ms))).

(** ** fiat_meta.rs *)

Definition parse_fiat_currency (s : string) : FiatCurrency :=
  match find_first (fun c => bool_decide (fiat_code c = s)) fiat_all with
  | Some c => c
  | None => FiatCurrency.USD
  end.

Definition get_fiat_settings : M AppDb FiatDisplaySettings :=
  db_stmt ;;
  db ← m_get;
  mret match adb_fiat db with
       | None => fiat_settings_default
       | Some r => mkFiatDisplaySettings (negb (fr_enabled r =? 0)) (parse_fiat_currency (fr_currency r))
                     (negb (fr_privacy_acknowledged r =? 0))
       end.

Definition upsert_fiat_settings (settings : FiatDisplaySettings) (updated_at_ms : Z) : M AppDb unit :=
  db_stmt ;;
  m_modify (fun db => set_fiat db
    (Some (mkFiatRow (bool_as_i64 (fs_enabled settings)) (fiat_code (fs_currency settings))
             (bool_as_i64 (fs_privacy_acknowledged settings)) updated_at_ms))).

(** Every enum column reads back what was written. *)
Lemma wallet_row_roundtrip w dir :
  (wallet_of_row (row_of_wallet w dir), wr_directory_path (row_of_wallet w dir)) = (w, dir).
Proof. destruct w as [i n [] [] r c l]; done. Qed.

Lemma parse_tor_status_debug s : parse_tor_status_column (tor_status_debug s) = s.
Proof. by destruct s. Qed.

Lemma parse_fiat_currency_code c : parse_fiat_currency (fiat_code c) = c.
Proof. by destruct c. Qed.

(** ** account_meta.rs *)

Definition account_key (wallet_id : Uuid) (account_id : Z) (r : AccountRow) : bool :=
  bool_decide (ar_wallet_id r = wallet_id) && (ar_account_id r =? account_id).

Definition upsert_account (wallet_id : Uuid) (account : AccountInfo) (created_at : Z)
    : M AppDb unit :=
  db_stmt ;;
  db ← m_get;
  db_require (wallet_exists db wallet_id) constraint_error ;;
  let hit := account_key wallet_id (ai_id account) in
  if existsb hit (adb_accounts db) then
    m_put (set_accounts db (map (fun r =>
      if hit r then mkAccountRow (ar_wallet_id r) (ar_account_id r) (ai_name account)
                      (account_type_debug (ai_account_type account)) (ar_created_at r)
      else r) (adb_accounts db)))
  else
    m_put (set_accounts db (adb_accounts db ++
      [mkAccountRow wallet_id (ai_id account) (ai_name account)
         (account_type_debug (ai_account_type account)) created_at])).

Definition account_of_row (r : AccountRow) : AccountInfo :=
  mkAccountInfo (ar_account_id r) (ar_name r) (parse_account_type_column (ar_account_type r)).

Definition list_accounts (wallet_id : Uuid) : M AppDb (list AccountInfo) :=
  db_stmt ;;
  db ← m_get;
  mret (map account_of_row
    (isort (fun a b => ar_account_id a <=? ar_account_id b)
      (filter (fun r => ar_wallet_id r = wallet_id) (adb_accounts db)))).

Definition get_account (wallet_id : Uuid) (account_id : Z) : M AppDb (option AccountInfo) :=
  db_stmt ;;
  db ← m_get;
  mret (account_of_row <$> find_first (account_key wallet_id account_id) (adb_accounts db)).

(** The column read by [ensure_spend_allowed_conn]. *)
Definition get_account_type_text (wallet_id : Uuid) (account_id : Z) : M AppDb (option string) :=
  db_stmt ;;
  db ← m_get;
  mret (ar_account_type <$> find_first (account_key wallet_id account_id) (adb_accounts db)).

(** ** backup_meta.rs *)

Definition backup_key (wallet_id : Uuid) (r : BackupRow) : bool :=
  bool_decide (br_wallet_id r = wallet_id).

Definition upsert_backup (wallet_id : Uuid) (fresh : BackupRow) (upd : BackupRow -> BackupRow)
    : M AppDb unit :=
  db_stmt ;;
  db ← m_get;
  db_require (wallet_exists db wallet_id) constraint_error ;;
  if existsb (backup_key wallet_id) (adb_backup db) then
    m_put (set_backup db (map (fun r => if backup_key wallet_id r then upd r else r) (adb_backup db)))
  else m_put (set_backup db (adb_backup db ++ [fresh])).

Definition set_backup_required (wallet_id : Uuid) (required : bool) : M AppDb unit :=
  upsert_backup wallet_id (mkBackupRow wallet_id required None None)
    (fun r => mkBackupRow (br_wallet_id r) required (br_backup_completed_at r)
                (br_verification_method r)).

Definition mark_backup_complete (wallet_id : Uuid) (completed_at : Z) (method : string)
    : M AppDb unit :=
  upsert_backup wallet_id (mkBackupRow wallet_id false (Some completed_at) (Some method))
    (fun r => mkBackupRow (br_wallet_id r) false (Some completed_at) (Some method)).

Definition get_backup_required (wallet_id : Uuid) : M AppDb (option bool) :=
  db_stmt ;;
  db ← m_get;
  mret (br_backup_required <$> find_first (backup_key wallet_id) (adb_backup db)).

(** ** rotation_meta.rs *)

Definition rotation_key (wallet_id : Uuid) (account_id : Z) (r : RotationRow) : bool :=
  bool_decide (rr_wallet_id r = wallet_id) && (rr_account_id r =? account_id).

(** A negative stored index does not convert to [u64]. *)
Definition get_next_diversifier_index (wallet_id : Uuid) (account_id : Z) : M AppDb (option Z) :=
  db_stmt ;;
  db ← m_get;
  match find_first (rotation_key wallet_id account_id) (adb_rotation db) with
  | None => mret None
  | Some r =>
      if 0 <=? rr_diversifier_index r then mret (Some (rr_diversifier_index r))
      else m_err (AnyhowMsg "Conversion error from type Integer")
  end.

(** An index above [i64::MAX] is refused before any statement runs. *)
Definition set_next_diversifier_index (wallet_id : Uuid) (account_id next updated_at : Z)
    : M AppDb unit :=
  db_require (next <=? i64_max) (AnyhowMsg "out of range integral type conversion attempted") ;;
  db_stmt ;;
  db ← m_get;
  db_require (wallet_exists db wallet_id) constraint_error ;;
  let hit := rotation_key wallet_id account_id in
  if existsb hit (adb_rotation db) then
    m_put (set_rotation db (map (fun r =>
      if hit r then mkRotationRow (rr_wallet_id r) (rr_account_id r) next updated_at else r)
      (adb_rotation db)))
  else m_put (set_rotation db (adb_rotation db ++ [mkRotationRow wallet_id account_id next updated_at])).

(** ** server_meta.rs *)

Definition server_of_row (r : ServerRow) : ServerInfo :=
  mkServerInfo (sr_id r) (sr_name r) (sr_grpc_url r) (parse_network_column (sr_network r))
    (sr_is_default r) (sr_last_success_at r) None.

Definition row_of_server (s : ServerInfo) (created_at : Z) : ServerRow :=
  mkServerRow (srv_id s) (srv_name s) (srv_grpc_url s) (network_debug (srv_network s))
    (srv_is_default s) (srv_last_success_at s) created_at.

Definition server_id_is (id : Uuid) (r : ServerRow) : bool := bool_decide (sr_id r = id).

Definition default_for (net : string) (r : ServerRow) : bool :=
  bool_decide (sr_network r = net) && sr_is_default r.

Definition insert_server (server : ServerInfo) (created_at : Z) : M AppDb unit :=
  db_stmt ;;
  db ← m_get;
  let r := row_of_server server created_at in
  db_require (negb (existsb (server_id_is (srv_id server)) (adb_servers db))) constraint_error ;;
  db_require (negb (sr_is_default r && existsb (default_for (sr_network r)) (adb_servers db)))
    constraint_error ;;
  m_put (set_servers db (adb_servers db ++ [r])).

Definition get_server (server_id : Uuid) : M AppDb (option ServerInfo) :=
  db_stmt ;;
  db ← m_get;
  mret (server_of_row <$> find_first (server_id_is server_id) (adb_servers db)).

(** [ORDER BY network ASC, is_default DESC, created_at ASC]. *)
Definition server_order (a b : ServerRow) : bool :=
  if bool_decide (sr_network a = sr_network b) then
    if Bool.eqb (sr_is_default a) (sr_is_default b) then sr_created_at a <=? sr_created_at b
    else sr_is_default a
  else String.leb (sr_network a) (sr_network b).

Definition list_servers : M AppDb (list ServerInfo) :=
  db_stmt ;;
  db ← m_get;
  mret (map server_of_row (isort server_order (adb_servers db))).

Definition with_default (b : bool) (r : ServerRow) : ServerRow :=
  mkServerRow (sr_id r) (sr_name r) (sr_grpc_url r) (sr_network r) b (sr_last_success_at r)
    (sr_created_at r).

(** One transaction: an error at any statement rolls the tables back. *)
Definition set_default_server (server_id : Uuid) : M AppDb unit := fun db0 =>
  let body : M AppDb unit :=
    (db_stmt ;;
     db ← m_get;
     match find_first (server_id_is server_id) (adb_servers db) with
     | None => m_err no_rows_error
     | Some r =>
         let network := sr_network r in
         db_stmt ;;
         m_modify (fun db => set_servers db (map (fun r =>
           if bool_decide (sr_network r = network) then with_default false r else r)
           (adb_servers db))) ;;
         db_stmt ;;
         m_modify (fun db => set_servers db (map (fun r =>
           if server_id_is server_id r then with_default true r else r) (adb_servers db))) ;;
         db_stmt
     end) in
  match body db0 with
  | (Ok u, db') => (Ok u, db')
  | (Err e, db') => (Err e, set_servers db' (adb_servers db0))
  end.

Definition update_last_success_at (server_id : Uuid) (last_success_at : Z) : M AppDb unit :=
  db_stmt ;;
  m_modify (fun db => set_servers db (map (fun r =>
    if server_id_is server_id r
    then mkServerRow (sr_id r) (sr_name r) (sr_grpc_url r) (sr_network r) (sr_is_default r)
           (Some last_success_at) (sr_created_at r)
    else r) (adb_servers db))).

(** ** The server table's invariant *)

(** The primary key and the partial unique index of [schema.rs]. *)
Definition servers_ok (l : list ServerRow) : Prop :=
  NoDup (map sr_id l)
  /\ (forall a b, a ∈ l -> b ∈ l -> sr_is_default a = true -> sr_is_default b = true ->
       sr_network a = sr_network b -> a = b)
  /\ (forall a, a ∈ l -> exists n, sr_network a = network_debug n).

Lemma db_stmt_spec db :
  exists r db', db_stmt db = (r, db') /\ (r = Ok tt \/ r = Err sqlite_error)
    /\ adb_servers db' = adb_servers db /\ adb_accounts db' = adb_accounts db
    /\ adb_backup db' = adb_backup db /\ adb_swaps db' = adb_swaps db
    /\ adb_wallets db' = adb_wallets db /\ adb_rotation db' = adb_rotation db
    /\ adb_encryption db' = adb_encryption db /\ adb_tor db' = adb_tor db /\ adb_fiat db' = adb_fiat db
    /\ (adb_faults db = [] -> db' = db /\ r = Ok tt).
Proof.
  unfold db_stmt. destruct (adb_faults db) as [|[] fs] eqn:E; eexists _, _;
    split; [reflexivity|auto 16| |auto 16| |auto 16]; naive_solver.
Qed.

(** Runs [db_stmt] in a hypothesis or the goal, keeping what it preserves. *)
Ltac db_step :=
  match goal with
  | |- context [db_stmt ?db] =>
      let r := fresh "r" in let db' := fresh "db" in let H := fresh "Hst" in
      destruct (db_stmt_spec db) as (r & db' & H & ?Hr & ?Hsrv & ?Hacc & ?Hbak & ?Hswp & ?Hwal & ?Hrot & ?Henc & ?Htor & ?Hfiat & ?Hflt);
      rewrite H; clear H
  | H : context [db_stmt ?db] |- _ =>
      let r := fresh "r" in let db' := fresh "db" in let Hs := fresh "Hst" in
      destruct (db_stmt_spec db) as (r & db' & Hs & ?Hr & ?Hsrv & ?Hacc & ?Hbak & ?Hswp & ?Hwal & ?Hrot & ?Henc & ?Htor & ?Hfiat & ?Hflt);
      rewrite Hs in H; clear Hs
  end.

(** The table after [set_default_server id] for a server of network [net]. *)
Definition switch_default (id : Uuid) (net : string) (r : ServerRow) : ServerRow :=
  let r' := if bool_decide (sr_network r = net) then with_default false r else r in
  if server_id_is id r' then with_default true r' else r'.

Lemma set_default_server_cases id db :
  let '(res, db') := set_default_server id db in
  match res with
  | Ok _ => exists r, find_first (server_id_is id) (adb_servers db) = Some r
              /\ adb_servers db' = map (switch_default id (sr_network r)) (adb_servers db)
  | Err _ => adb_servers db' = adb_servers db
  end.
Proof.
  unfold set_default_server, mbind, M_bind, m_get, m_modify, m_err.
  db_step. destruct Hr as [-> | ->]; [|by simpl; rewrite ?Hsrv].
  rewrite Hsrv.
  destruct (find_first (server_id_is id) (adb_servers db)) as [r|] eqn:E; [|done].
  db_step. destruct Hr as [-> | ->]; [|done].
  db_step. destruct Hr as [-> | ->]; [|done].
  db_step. destruct Hr as [-> | ->]; [|done].
  exists r. split; [done|]. rewrite Hsrv2. simpl. rewrite Hsrv1. simpl. rewrite Hsrv0, Hsrv.
  rewrite map_map. done.
Qed.

Lemma set_default_server_enabled id db r :
  adb_faults db = [] -> find_first (server_id_is id) (adb_servers db) = Some r ->
  exists db', set_default_server id db = (Ok tt, db') /\ adb_faults db' = [].
Proof.
  intros Hf Hr. unfold set_default_server, mbind, M_bind, m_get, m_modify, db_stmt.
  rewrite Hf, Hr. simpl. rewrite Hf. simpl. rewrite Hf. simpl. rewrite Hf. eauto.
Qed.

Lemma switch_default_id id net r : sr_id (switch_default id net r) = sr_id r.
Proof. unfold switch_default. repeat case_match; done. Qed.

Lemma switch_default_network id net r : sr_network (switch_default id net r) = sr_network r.
Proof. unfold switch_default. repeat case_match; done. Qed.

Lemma switch_default_url id net r : sr_grpc_url (switch_default id net r) = sr_grpc_url r.
Proof. unfold switch_default. repeat case_match; done. Qed.

Lemma switch_default_flag id net r :
  sr_is_default (switch_default id net r)
  = bool_decide (sr_id r = id) || (negb (bool_decide (sr_network r = net)) && sr_is_default r).
Proof.
  unfold switch_default, server_id_is.
  destruct (bool_decide (sr_network r = net)); simpl; case_match; simpl; done.
Qed.

Lemma servers_ok_id l a b : servers_ok l -> a ∈ l -> b ∈ l -> sr_id a = sr_id b -> a = b.
Proof.
  intros [Hnd _] Ha Hb Hid. apply list_elem_of_lookup in Ha as [i Hi], Hb as [j Hj].
  assert (i = j) as ->; [|congruence].
  eapply (NoDup_lookup (map sr_id l)); [done|..]; rewrite list_lookup_fmap.
  - by rewrite Hi.
  - rewrite Hj. simpl. by f_equal.
Qed.

(** The switch keeps the table's constraints, so the two statements of the
    transaction never trip over the unique index. *)
Lemma switch_default_ok id l r :
  servers_ok l -> r ∈ l -> sr_id r = id -> servers_ok (map (switch_default id (sr_network r)) l).
Proof.
  intros Hok Hr Hid. split; [|split].
  3:{ intros a (x & -> & Hx)%list_elem_of_fmap. rewrite switch_default_network. by apply Hok. }
  - rewrite map_map. rewrite (list_fmap_ext _ sr_id); [apply Hok|].
    intros. apply switch_default_id.
  - assert (forall x, x ∈ l -> sr_is_default (switch_default id (sr_network r) x) = true ->
              x = r \/ (sr_network x <> sr_network r /\ sr_is_default x = true)) as Hcase.
    { intros x Hx. rewrite switch_default_flag. intros [H|H]%orb_true_iff; breflect.
      - left. apply (servers_ok_id l); auto. congruence.
      - right. breflect. done. }
    intros a b (x & -> & Hx)%list_elem_of_fmap (y & -> & Hy)%list_elem_of_fmap Ha Hb Hn.
    rewrite !switch_default_network in Hn.
    destruct (Hcase x Hx Ha) as [->|[Hxn Hxd]], (Hcase y Hy Hb) as [->|[Hyn Hyd]];
      try congruence; [done..|]. f_equal. apply Hok; done.
Qed.

Lemma insert_server_cases server created_at db :
  let '(res, db') := insert_server server created_at db in
  match res with
  | Ok _ => adb_servers db' = (adb_servers db ++ [row_of_server server created_at])%list
            /\ (servers_ok (adb_servers db) -> servers_ok (adb_servers db'))
  | Err _ => adb_servers db' = adb_servers db
  end.
Proof.
  unfold insert_server, mbind, M_bind, m_get, m_put, m_err, db_require, mret, M_ret.
  db_step. destruct Hr as [-> | ->]; [|done]. rewrite Hsrv.
  destruct (existsb _ _) eqn:Eid; simpl; [done|].
  destruct (srv_is_default server && _) eqn:Ed; simpl; [done|]. split; [done|].
  assert (forall x, x ∈ adb_servers db -> sr_id x <> srv_id server) as Hid.
  { intros x Hx Hxid. apply not_true_iff_false in Eid. apply Eid, existsb_exists.
    exists x. split; [by apply list_elem_of_In|]. unfold server_id_is. by apply bool_decide_eq_true. }
  assert (forall x, x ∈ adb_servers db -> srv_is_default server = true -> sr_is_default x = true ->
            sr_network x = network_debug (srv_network server) -> False) as Hd.
  { intros x Hx Hsd Hxd Hn. rewrite Hsd in Ed. simpl in Ed. apply not_true_iff_false in Ed.
    apply Ed, existsb_exists. exists x. split; [by apply list_elem_of_In|].
    unfold default_for. rewrite Hxd, andb_true_r. by apply bool_decide_eq_true. }
  intros (Hnd & Hu & Hn). split; [|split].
  - rewrite map_app. apply NoDup_app. split; [done|]. split; [|apply NoDup_singleton].
    intros i (x & -> & Hx)%list_elem_of_fmap Hi. apply list_elem_of_singleton in Hi.
    by apply (Hid x).
  - intros a b [Ha|Ha%list_elem_of_singleton]%elem_of_app [Hb|Hb%list_elem_of_singleton]%elem_of_app;
      intros; subst; simpl in *; try done; [by apply Hu|exfalso; eauto..].
  - intros a [Ha|Ha%list_elem_of_singleton]%elem_of_app; [by apply Hn|]. subst. eauto.
Qed.

Lemma update_last_success_at_cases id t db :
  exists f, adb_servers (update_last_success_at id t db).2 = map f (adb_servers db)
    /\ forall r, sr_id (f r) = sr_id r /\ sr_network (f r) = sr_network r
        /\ sr_is_default (f r) = sr_is_default r /\ sr_grpc_url (f r) = sr_grpc_url r.
Proof.
  unfold update_last_success_at, mbind, M_bind, m_modify. db_step.
  destruct Hr as [-> | ->]; simpl.
  - rewrite Hsrv. eexists. split; [reflexivity|]. intros r. cbv beta. by destruct (server_id_is id r).
  - rewrite Hsrv. exists (fun r => r). split; [|done]. by rewrite map_id.
Qed.

(** A row-wise update that leaves the constrained columns alone keeps the
    table's constraints. *)
Lemma servers_ok_map f l :
  (forall r, sr_id (f r) = sr_id r /\ sr_network (f r) = sr_network r
     /\ sr_is_default (f r) = sr_is_default r /\ sr_grpc_url (f r) = sr_grpc_url r) ->
  servers_ok l -> servers_ok (map f l).
Proof.
  intros Hf (Hnd & Hu & Hn). split; [|split].
  - rewrite map_map, (list_fmap_ext _ sr_id); [done|]. intros. apply Hf.
  - intros a b (x & -> & Hx)%list_elem_of_fmap (y & -> & Hy)%list_elem_of_fmap.
    destruct (Hf x) as (? & Hxn & Hxd & _), (Hf y) as (? & Hyn & Hyd & _).
    rewrite Hxn, Hyn, Hxd, Hyd. intros. f_equal. by apply Hu.
  - intros a (x & -> & Hx)%list_elem_of_fmap. destruct (Hf x) as (_ & -> & _). by apply Hn.
Qed.

(** The default of a network is the only row [find] can return. *)
Lemma find_default_server l r n :
  servers_ok l -> r ∈ l -> sr_is_default r = true -> sr_network r = network_debug n ->
  find_first (fun s => bool_decide (srv_network s = n) && srv_is_default s)
    (map server_of_row (isort server_order l)) = Some (server_of_row r).
Proof.
  intros (_ & Hu & Hn) Hr Hd Hnet. apply find_first_unique.
  - apply list_elem_of_fmap_2. by apply elem_of_isort.
  - simpl. rewrite Hnet, parse_network_debug, Hd, bool_decide_eq_true_2; done.
  - intros y (x & -> & Hx)%list_elem_of_fmap. rewrite elem_of_isort in Hx. simpl.
    intros [Hyn Hyd]%andb_true_iff. breflect. f_equal. apply Hu; try done.
    destruct (Hn x Hx) as [m Hm]. rewrite Hm, parse_network_debug in Hyn. congruence.
Qed.
