(* ===== verification/Reauth.v ===== *)
(** Re-authentication tokens ([reauth.rs] and
    [WalletManager::consume_reauth_token]): single-use tokens bound to a
    wallet and a purpose.  Instants are nanoseconds since the epoch; a token
    is the text of a fresh UUID. *)
From S2P Require Import Prelude Text Domain.

Module ReauthPurpose.
Inductive ReauthPurpose := Spend | ViewSeedPhrase.
#[global] Instance ReauthPurpose_eq_dec : EqDecision ReauthPurpose.
Proof. solve_decision. Defined.
End ReauthPurpose.
Abbreviation ReauthPurpose := ReauthPurpose.ReauthPurpose.

Record TokenRecord := mkTokenRecord {
  tk_wallet_id : Uuid;
  tk_purpose : ReauthPurpose;
  tk_expires_at : Z;
  tk_used : bool;
}.

(** The [tokens] of a [ReauthManager]. *)
Abbreviation Tokens := (gmap string TokenRecord).

Definition REAUTH_TTL : Z := 120 * 1000000000.

Inductive ReauthError := ReauthInvalid | ReauthExpired.

Definition issue (now : Z) (token : string) (wallet_id : Uuid) (purpose : ReauthPurpose) (tokens : Tokens)
    : (string * Z) * Tokens :=
  let expires_at := now + REAUTH_TTL in
  ((token, expires_at), <[token := mkTokenRecord wallet_id purpose expires_at false]> tokens).

Definition validate_and_consume (now : Z) (token : string) (wallet_id : Uuid) (purpose : ReauthPurpose)
    (tokens : Tokens) : (ReauthError + unit) * Tokens :=
  match tokens !! token with
  | None => (inl ReauthInvalid, tokens)
  | Some record =>
      if tk_used record then (inl ReauthInvalid, tokens)
      else if negb (bool_decide (tk_wallet_id record = wallet_id))
              || negb (bool_decide (tk_purpose record = purpose))
      then (inl ReauthInvalid, tokens)
      else if tk_expires_at record <? now then (inl ReauthExpired, tokens)
      else (inr tt, <[token := mkTokenRecord (tk_wallet_id record) (tk_purpose record)
                                 (tk_expires_at record) true]> tokens)
  end.

Definition consume_reauth_token (now : Z) (wallet_id : Uuid) (token : string) (purpose : ReauthPurpose)
    : M Tokens unit := fun tokens =>
  let '(r, tokens') := validate_and_consume now token wallet_id purpose tokens in
  (match r with
   | inr _ => Ok tt
   | inl ReauthInvalid => Err (ipc_err errors.REAUTH_TOKEN_INVALID "reauth token invalid")
   | inl ReauthExpired => Err (ipc_err errors.REAUTH_TOKEN_EXPIRED "reauth token expired")
   end, tokens').

(** ** Histories *)

(** A call of the manager, with the clock it read. *)
Inductive ReauthCall :=
| Issue (now : Z) (token : string) (wallet_id : Uuid) (purpose : ReauthPurpose)
| Consume (now : Z) (token : string) (wallet_id : Uuid) (purpose : ReauthPurpose).

(** The tokens after a call, and the tokens accepted so far. *)
Definition reauth_step (st : Tokens * list string) (c : ReauthCall) : Tokens * list string :=
  let '(tokens, accepted) := st in
  match c with
  | Issue now token w p => ((issue now token w p tokens).2, accepted)
  | Consume now token w p =>
      let '(r, tokens') := validate_and_consume now token w p tokens in
      (tokens', match r with inr _ => (accepted ++ [token])%list | inl _ => accepted end)
  end.

Definition reauth_run (l : list ReauthCall) : Tokens * list string := foldl reauth_step (∅, []) l.

Definition issued (l : list ReauthCall) : list string :=
  omap (fun c => match c with Issue _ t _ _ => Some t | Consume _ _ _ _ => None end) l.

(** The records are those issued, marked as used when accepted. *)
Record history_ok (l : list ReauthCall) : Prop := {
  ho_record : forall t r, (reauth_run l).1 !! t = Some r <->
    exists t0, Issue t0 t (tk_wallet_id r) (tk_purpose r) ∈ l /\ tk_expires_at r = t0 + REAUTH_TTL
      /\ tk_used r = bool_decide (t ∈ (reauth_run l).2);
  ho_accepted : forall t, t ∈ (reauth_run l).2 -> t ∈ issued l;
  ho_once : NoDup (reauth_run l).2;
}.

Lemma elem_of_issued t l : t ∈ issued l <-> exists now w p, Issue now t w p ∈ l.
Proof.
  unfold issued. rewrite list_elem_of_omap. split.
  - intros ([now t' w p|] & Hin & [= ->]). eauto.
  - intros (now & w & p & Hin). by exists (Issue now t w p).
Qed.

Lemma issued_snoc l c :
  issued (l ++ [c]) = (issued l ++ match c with Issue _ t _ _ => [t] | _ => [] end)%list.
Proof. unfold issued. rewrite omap_app. by destruct c. Qed.

Lemma reauth_run_snoc l c : reauth_run (l ++ [c]) = reauth_step (reauth_run l) c.
Proof. unfold reauth_run. by rewrite foldl_app. Qed.

Lemma history_issue l now t w p :
  t ∉ issued l -> history_ok l -> history_ok (l ++ [Issue now t w p]).
Proof.
  intros Hf [Hr Ha Ho]. split.
  - intros t' r. rewrite reauth_run_snoc. destruct (reauth_run l) as [m acc]; cbn in *.
    destruct (decide (t' = t)) as [->|Hne].
    + rewrite lookup_insert_eq. rewrite bool_decide_eq_false_2 by auto. split.
      * intros [= <-]. exists now. cbn. split; [|done]. rewrite elem_of_app, list_elem_of_singleton. auto.
      * intros (t0 & Hin & He & Hu). apply elem_of_app in Hin as [Hin|Hin].
        { destruct Hf. apply elem_of_issued. eauto. }
        apply list_elem_of_singleton in Hin. destruct r; cbn in *. by simplify_eq.
    + rewrite lookup_insert_ne by done. rewrite Hr.
      setoid_rewrite elem_of_app. setoid_rewrite list_elem_of_singleton. naive_solver.
  - intros t'. rewrite reauth_run_snoc, issued_snoc, elem_of_app.
    destruct (reauth_run l) as [m acc]. cbn in *. auto.
  - rewrite reauth_run_snoc. by destruct (reauth_run l).
Qed.

Lemma history_consume l now t w p : history_ok l -> history_ok (l ++ [Consume now t w p]).
Proof.
  intros [Hr Ha Ho].
  assert (forall t0 t' w' p', Issue t0 t' w' p' ∈ (l ++ [Consume now t w p])%list <-> Issue t0 t' w' p' ∈ l)
    as Hin by (intros; rewrite elem_of_app, list_elem_of_singleton; naive_solver).
  assert (issued (l ++ [Consume now t w p]) = issued l) as Hiss
    by (rewrite issued_snoc; apply app_nil_r).
  pose proof (reauth_run_snoc l (Consume now t w p)) as Hrun.
  destruct (reauth_run l) as [m acc] eqn:El; cbn in Hr, Ha, Ho, Hrun.
  assert (reauth_run (l ++ [Consume now t w p]) = (m, acc) -> history_ok (l ++ [Consume now t w p])) as Hsame.
  { intros Hr2. split; rewrite Hr2, ?Hiss; cbn; [|done..]. intros t' r. setoid_rewrite Hin. apply Hr. }
  unfold validate_and_consume in Hrun. destruct (m !! t) as [r|] eqn:Et; [|auto].
  destruct (tk_used r) eqn:Eu; [auto|]. destruct (_ || _) eqn:Eo; [auto|]. destruct (_ <? _) eqn:Ex; [auto|].
  pose proof (proj1 (Hr t r) Et) as (t0 & Hi & He & Hu). rewrite Eu in Hu. symmetry in Hu.
  apply bool_decide_eq_false in Hu. split; rewrite Hrun, ?Hiss; cbn.
  - intros t' r'. setoid_rewrite Hin. destruct (decide (t' = t)) as [->|Hne].
    + rewrite lookup_insert_eq. rewrite bool_decide_eq_true_2 by set_solver. split.
      * intros [= <-]. cbn. eauto.
      * intros (t1 & Hi1 & He1 & Hu1). f_equal.
        assert (m !! t = Some (mkTokenRecord (tk_wallet_id r') (tk_purpose r') (tk_expires_at r') false)) as Hm.
        { apply Hr. exists t1. cbn. rewrite bool_decide_eq_false_2 by done. done. }
        rewrite Et in Hm. destruct r'; simplify_eq/=. done.
    + rewrite lookup_insert_ne, Hr by done.
      assert (bool_decide (t' ∈ (acc ++ [t])%list) = bool_decide (t' ∈ acc)) as ->; [|done].
      apply bool_decide_ext. set_solver.
  - intros t' [Hx| ->%list_elem_of_singleton]%elem_of_app; [auto|]. apply elem_of_issued. eauto.
  - apply NoDup_app. split; [done|]. split; [set_solver|]. apply NoDup_singleton.
Qed.

Lemma history l : NoDup (issued l) -> history_ok l.
Proof.
  induction l as [|c l IH] using rev_ind; intros Hnd.
  { split; cbn; [|set_solver|constructor]. intros t r. rewrite lookup_empty. set_solver. }
  rewrite issued_snoc in Hnd. apply NoDup_app in Hnd as (Hnd & Hd & _).
  destruct c as [now t w p|now t w p]; [|by apply history_consume, IH].
  apply history_issue, IH; [|done]. intros Hin. apply (Hd t Hin). set_solver.
Qed.

(** C17. What a re-authentication token authorises.  After any history of
    calls in which tokens are fresh, a token is accepted exactly when it was
    issued for this wallet and this purpose at most 120 seconds ago and has
    not been accepted before; no token is ever accepted twice, and a refused
    token changes nothing. *)
Theorem reauth_token_authorises_once (l : list ReauthCall) (now : Z) (token : string) (w : Uuid)
    (p : ReauthPurpose) :
  NoDup (issued l) ->
  let '(tokens, accepted) := reauth_run l in
  let '(r, tokens') := consume_reauth_token now w token p tokens in
  NoDup accepted
  /\ (r = Ok tt <-> (token ∉ accepted)
        /\ exists t0, Issue t0 token w p ∈ l /\ now <= t0 + REAUTH_TTL)
  /\ (r <> Ok tt -> tokens' = tokens).
Proof.
  intros Hnd. destruct (history l Hnd) as [Hr _ Ho].
  destruct (reauth_run l) as [m acc]; cbn in *. unfold consume_reauth_token, validate_and_consume.
  assert (forall t0, Issue t0 token w p ∈ l ->
    m !! token = Some (mkTokenRecord w p (t0 + REAUTH_TTL) (bool_decide (token ∈ acc)))) as Hback
    by (intros t0 Hi; apply Hr; eauto).
  destruct (m !! token) as [r|] eqn:E.
  2:{ split; [done|]. split; [|done]. split; [done|]. intros (_ & t0 & Hi & _). by specialize (Hback t0 Hi). }
  pose proof (proj1 (Hr token r) E) as (t0 & Hi & He & Hu).
  assert (forall b : bool, (exists t1, Issue t1 token w p ∈ l /\ now <= t1 + REAUTH_TTL) ->
    tk_wallet_id r = w /\ tk_purpose r = p /\ now <= tk_expires_at r) as Hneed.
  { intros _ (t1 & Hi1 & Hle). specialize (Hback t1 Hi1). simplify_eq. done. }
  destruct (tk_used r) eqn:Eu; [symmetry in Hu; apply bool_decide_eq_true in Hu|
                                symmetry in Hu; apply bool_decide_eq_false in Hu].
  { split; [done|]. split; [|done]. naive_solver. }
  destruct (_ || _) eqn:Eo.
  { split; [done|]. split; [|done]. split; [done|]. intros [_ Hex]. destruct (Hneed true Hex) as (Hw & Hp & _).
    rewrite !bool_decide_eq_true_2 in Eo by done. done. }
  apply orb_false_iff in Eo as [Ew Ep]. rewrite !negb_false_iff, !bool_decide_eq_true in Ew, Ep. subst w p.
  destruct (_ <? _) eqn:Ex; (split; [done|]; split; [|done]).
  - split; [done|]. intros [_ Hex]. destruct (Hneed true Hex) as (_ & _ & Hle). lia.
  - split; [|done]. intros _. split; [done|]. exists t0. split; [done|]. lia.
Qed.

Lemma reauth_token_authorises_once_witness :
  let l := [Issue 5 "t1" "w1" ReauthPurpose.Spend; Consume 7 "t1" "w2" ReauthPurpose.Spend] in
  (consume_reauth_token 9 "w1" "t1" ReauthPurpose.Spend (reauth_run l).1).1 = Ok tt.
Proof.
  intros l.
  pose proof (reauth_token_authorises_once l 9 "t1" "w1" ReauthPurpose.Spend) as H.
  assert (NoDup (issued l)) as Hnd by (apply NoDup_singleton).
  specialize (H Hnd). destruct (reauth_run l) as [m acc] eqn:E.
  destruct (consume_reauth_token 9 "w1" "t1" ReauthPurpose.Spend m) as [r m'] eqn:E2.
  cbn. rewrite E2. apply (proj1 (proj2 H)). vm_compute in E. injection E as <- <-.
  split; [apply not_elem_of_nil|]. exists 5. split; [left|]. discriminate.
Defined.
