(* ===== verification/Broadcast.v ===== *)
(** The broadcast policy of [crates/zbag-engine/src/broadcast.rs]
    (classification of upstream errors, back-off, retry budget, failover
    threshold, time-out) and the retry policy on the metadata of a queued
    transaction from [tx_service.rs] ([apply_retry_policy],
    [normalize_queued_broadcast_meta]). *)
From S2P Require Import Prelude Text Domain.
From Stdlib Require Import QArith Qround Qminmax Qabs Lqa.
Open Scope Z_scope.

Definition SEND_TRANSACTION_TIMEOUT_SECS : Z := 45.
Definition FAILOVER_TRANSPORT_FAILURE_THRESHOLD : Z := 2.
Definition MAX_TOTAL_BROADCAST_RETRY_ATTEMPTS : Z := 7.
Definition MAX_UNKNOWN_BROADCAST_RETRY_ATTEMPTS : Z := 3.

Definition RETRY_SCHEDULE_SECS : list Z := [5; 15; 45; 120; 300; 900; 1800].

Module BroadcastErrorClass.
Inductive BroadcastErrorClass := TransientTransport | TransientServer | Terminal | Unknown.
#[global] Instance BroadcastErrorClass_eq_dec : EqDecision BroadcastErrorClass.
Proof. solve_decision. Defined.
End BroadcastErrorClass.
Abbreviation BroadcastErrorClass := BroadcastErrorClass.BroadcastErrorClass.
Import BroadcastErrorClass.

(** ** Classification *)

Definition is_benign_duplicate_relay_message_lowercase (lower : string) : bool :=
  contains lower "already in mempool"
  || contains lower "already known"
  || contains lower "txn-already-in-mempool".

Definition is_benign_duplicate_relay_message (message : string) : bool :=
  is_benign_duplicate_relay_message_lowercase (to_lowercase message).

Definition is_effective_success_broadcast_error (message : string) : bool :=
  is_benign_duplicate_relay_message message.

Definition terminal_patterns : list string :=
  ["broadcast rejected"; "non-mandatory-script-verify-flag"; "bad-txns";
   "already spent"; "double spend"; "txn-mempool-conflict"].

Definition transport_patterns : list string :=
  ["failed to connect"; "connection"; "transport"; "timed out"; "timeout";
   "deadline exceeded"; "unavailable"; "broken pipe"; "reset by peer";
   "refused"; "dns"; "h2"].

Definition server_patterns : list string :=
  ["resource exhausted"; "temporarily"; "try again";
   "sendtransaction rpc failed"; "rpc failed"; "internal"].

Definition classify_broadcast_error_message (message : string) : BroadcastErrorClass :=
  let lower := to_lowercase message in
  if is_benign_duplicate_relay_message_lowercase lower then TransientServer
  else if contains_any lower terminal_patterns then Terminal
  else if contains_any lower transport_patterns then TransientTransport
  else if contains_any lower server_patterns then TransientServer
  else Unknown.

Definition is_retryable_broadcast_error_class (class : BroadcastErrorClass) : bool :=
  match class with
  | TransientTransport | TransientServer | Unknown => true
  | Terminal => false
  end.

(** ** Back-off *)

(** Seconds; an index past the schedule takes its last entry. *)
Definition retry_backoff_base (attempt_count : Z) : Z :=
  match RETRY_SCHEDULE_SECS !! Z.to_nat attempt_count with
  | Some secs => secs
  | None => default 0 (last RETRY_SCHEDULE_SECS)
  end.

(** The [f64] constant [0.2]. *)
Definition RETRY_JITTER_RATIO : Q := 3602879701896397 # 18014398509481984.

(** [f64::round] of a non-negative value: to the nearest integer, ties up. *)
Definition f64_round (x : Q) : Z := Qfloor (x + (1 # 2)).

Section Jitter.
(** Rounding of a real to the nearest [f64]. *)
Context (fl : Q -> Q).

Definition jitter_ms (attempt_count : Z) : Q :=
  fl (inject_Z (retry_backoff_base attempt_count * 1000) * RETRY_JITTER_RATIO).

(** [offset_ms] is the draw of [rng.gen_range(-jitter_ms..=jitter_ms)];
    the result is in milliseconds. *)
Definition retry_backoff_with_jitter (attempt_count : Z) (offset_ms : Q) : Z :=
  let base_ms := inject_Z (retry_backoff_base attempt_count * 1000) in
  let jittered := Qmax (fl (base_ms + offset_ms)) 1 in
  Z.min u64_max (f64_round jittered).

Definition schedule_next_attempt_at_ms (now_ms attempt_count : Z) (offset_ms : Q) : Z :=
  let delay := retry_backoff_with_jitter attempt_count offset_ms in
  let delay_ms := if delay <=? i64_max then delay else i64_max in
  i64_saturating_add now_ms delay_ms.
End Jitter.

Definition should_trigger_failover (transport_failure_streak : Z) : bool :=
  FAILOVER_TRANSPORT_FAILURE_THRESHOLD <=? transport_failure_streak.

Definition retry_budget_terminal_reason (class : BroadcastErrorClass) (attempt_count : Z)
    : option string :=
  if bool_decide (class = Unknown) && (MAX_UNKNOWN_BROADCAST_RETRY_ATTEMPTS <=? attempt_count)
  then Some "unknown broadcast retry budget exhausted"
  else if MAX_TOTAL_BROADCAST_RETRY_ATTEMPTS <=? attempt_count
  then Some "broadcast retry budget exhausted"
  else None.

(** The outcome of a send future under [tokio::time::timeout]: [None] when
    the timer fires first. *)
Definition send_with_timeout_for (timeout_secs : Z) (send : option (result unit)) : result unit :=
  match send with
  | Some r => r
  | None => Err (AnyhowMsg ("send transaction timed out after "
                            +:+ uint_to_string timeout_secs +:+ "s"))
  end.

Definition send_with_timeout (send : option (result unit)) : result unit :=
  send_with_timeout_for SEND_TRANSACTION_TIMEOUT_SECS send.

(** ** Metadata of a queued broadcast (tx_service.rs) *)

Record QueuedBroadcastMeta := mkMeta {
  qm_created_at_ms : Z;
  qm_attempt_count : Z;
  qm_next_attempt_at_ms : option Z;
  qm_last_attempt_at_ms : option Z;
  qm_transport_failure_streak : Z;
  qm_retryable : bool;
  qm_last_error_class : option BroadcastErrorClass;
  qm_terminal_reason : option string;
  qm_last_error : option string;
}.

#[global] Instance QueuedBroadcastMeta_eq_dec : EqDecision QueuedBroadcastMeta.
Proof. solve_decision. Defined.

(** The [Debug] form of the class. *)
Definition class_debug (class : BroadcastErrorClass) : string :=
  match class with
  | TransientTransport => "TransientTransport"
  | TransientServer => "TransientServer"
  | Terminal => "Terminal"
  | Unknown => "Unknown"
  end.

Definition apply_retry_policy (retryable : bool) (attempt_count : Z)
    (last_error_class : option BroadcastErrorClass) (terminal_reason : option string)
    : bool * option string :=
  let '(effective_retryable, effective_terminal_reason) :=
    match last_error_class with
    | None => (retryable, terminal_reason)
    | Some class =>
        let '(er, etr) :=
          if negb (is_retryable_broadcast_error_class class) then (false, terminal_reason)
          else if retryable then
            match retry_budget_terminal_reason class attempt_count with
            | Some reason => (false, Some reason)
            | None => (retryable, terminal_reason)
            end
          else (retryable, terminal_reason) in
        let etr :=
          if negb er && bool_decide (etr = None) then
            if is_retryable_broadcast_error_class class then None
            else Some ("broadcast error classified as terminal (" +:+ class_debug class +:+ ")")
          else etr in
        (er, etr)
    end in
  if effective_retryable then (true, None) else (false, effective_terminal_reason).

Definition queued_broadcast_error_for_display (meta : QueuedBroadcastMeta) : option string :=
  match qm_last_error meta, qm_terminal_reason meta with
  | Some last_error, Some terminal_reason =>
      if contains last_error terminal_reason then Some last_error
      else Some (last_error +:+ " [terminal: " +:+ terminal_reason +:+ "]")
  | Some last_error, None => Some last_error
  | None, Some terminal_reason => Some terminal_reason
  | None, None => None
  end.

(** The class of a record written before classes were stored is recovered
    from its message. *)
Definition effective_class (class : option BroadcastErrorClass) (last_error : option string)
    : option BroadcastErrorClass :=
  match class, last_error with
  | None, Some last_error => Some (classify_broadcast_error_message last_error)
  | c, _ => c
  end.

Definition normalize_queued_broadcast_meta (meta : QueuedBroadcastMeta) (now_ms : Z)
    : QueuedBroadcastMeta :=
  let class := effective_class (qm_last_error_class meta) (qm_last_error meta) in
  let '(retryable, terminal_reason) :=
    apply_retry_policy (qm_retryable meta) (qm_attempt_count meta) class
      (qm_terminal_reason meta) in
  let next :=
    if retryable then
      match qm_next_attempt_at_ms meta with None => Some now_ms | some => some end
    else None in
  {| qm_created_at_ms := qm_created_at_ms meta;
     qm_attempt_count := qm_attempt_count meta;
     qm_next_attempt_at_ms := next;
     qm_last_attempt_at_ms := qm_last_attempt_at_ms meta;
     qm_transport_failure_streak := qm_transport_failure_streak meta;
     qm_retryable := retryable;
     qm_last_error_class := class;
     qm_terminal_reason := terminal_reason;
     qm_last_error := qm_last_error meta |}.

(** ** The schedule and its jitter *)

Lemma retry_backoff_base_range n : 5 <= retry_backoff_base n <= 1800.
Proof.
  unfold retry_backoff_base, RETRY_SCHEDULE_SECS.
  destruct (Z.to_nat n) as [|[|[|[|[|[|[|k]]]]]]]; simpl; lia.
Qed.

Lemma retry_backoff_base_mono n m :
  n <= m -> retry_backoff_base n <= retry_backoff_base m.
Proof.
  intros Hnm. assert (Z.to_nat n <= Z.to_nat m)%nat as Hle by lia. revert Hle.
  unfold retry_backoff_base, RETRY_SCHEDULE_SECS.
  destruct (Z.to_nat n) as [|[|[|[|[|[|[|k]]]]]]];
    destruct (Z.to_nat m) as [|[|[|[|[|[|[|j]]]]]]]; simpl; lia.
Qed.

Lemma f64_round_bounds x lo hi :
  (inject_Z lo - (1 # 4) <= x <= inject_Z hi + (1 # 4))%Q -> lo <= f64_round x <= hi.
Proof.
  intros [Hlo Hhi]. unfold f64_round.
  pose proof (Qfloor_le (x + (1 # 2))) as Hf1.
  pose proof (Qlt_floor (x + (1 # 2))) as Hf2.
  set (k := Qfloor (x + (1 # 2))) in *.
  assert (inject_Z lo < inject_Z (k + 1))%Q as H1 by lra.
  assert (inject_Z k < inject_Z (hi + 1))%Q as H2.
  { rewrite (inject_Z_plus hi 1). change (inject_Z 1) with 1%Q. lra. }
  rewrite <- Zlt_Qlt in H1, H2. lia.
Qed.

(** A relative error of at most half an ulp, which IEEE 754 guarantees for
    round-to-nearest on the normal range. *)
Definition nearest_f64 (fl : Q -> Q) : Prop :=
  forall x, (1 <= x)%Q -> (Qabs (fl x - x) <= x * (1 # 9007199254740992))%Q.

Section JitterFacts.
Context (fl : Q -> Q) (Hfl : nearest_f64 fl).

Lemma fl_range x :
  (1 <= x <= 4000000)%Q -> (x - (1 # 1000000) <= fl x <= x + (1 # 1000000))%Q.
Proof.
  intros [H1 H2]. specialize (Hfl x H1). apply Qabs_Qle_condition in Hfl. lra.
Qed.

Lemma jittered_range attempt_count offset_ms :
  (- jitter_ms fl attempt_count <= offset_ms <= jitter_ms fl attempt_count)%Q ->
  let b := retry_backoff_base attempt_count in
  b * 800 <= retry_backoff_with_jitter fl attempt_count offset_ms <= b * 1200.
Proof.
  intros [Hlo Hhi] b. pose proof (retry_backoff_base_range attempt_count) as Hb.
  fold b in Hb. unfold jitter_ms, retry_backoff_with_jitter in *. fold b in Hlo, Hhi |- *.
  set (B := inject_Z (b * 1000)) in *.
  assert (inject_Z 5000 <= B)%Q as HB1 by (unfold B; rewrite <- Zle_Qle; lia).
  assert (B <= inject_Z 1800000)%Q as HB2 by (unfold B; rewrite <- Zle_Qle; lia).
  change (inject_Z 5000) with 5000%Q in HB1. change (inject_Z 1800000) with 1800000%Q in HB2.
  assert (inject_Z (b * 800) == B * (4 # 5))%Q as E1
    by (unfold B; rewrite !inject_Z_mult; change (inject_Z 800) with 800%Q; change (inject_Z 1000) with 1000%Q; ring).
  assert (inject_Z (b * 1200) == B * (6 # 5))%Q as E2
    by (unfold B; rewrite !inject_Z_mult; change (inject_Z 1200) with 1200%Q; change (inject_Z 1000) with 1000%Q; ring).
  pose proof (fl_range (B * RETRY_JITTER_RATIO)) as HJ. unfold RETRY_JITTER_RATIO in *.
  specialize (HJ ltac:(lra)). set (J := fl (B * _)) in *. clearbody J.
  pose proof (fl_range (B + offset_ms)) as HS. specialize (HS ltac:(lra)).
  set (x := fl (B + offset_ms)) in *. clearbody x.
  assert (Qmax x 1 == x)%Q as EM by (apply Q.max_l; lra).
  assert (b * 800 <= f64_round (Qmax x 1) <= b * 1200) as HR
    by (apply f64_round_bounds; rewrite EM, E1, E2; lra).
  unfold u64_max. lia.
Qed.
End JitterFacts.

(** Every retry delay drawn by [retry_backoff_with_jitter] stays within
    20% of the scheduled base, whatever the draw and however the [f64]
    operations round; in particular a retry is never scheduled for now. *)
Theorem retry_backoff_jitter_bounds (fl : Q -> Q) (attempt_count : Z) (offset_ms : Q) :
  nearest_f64 fl ->
  (- jitter_ms fl attempt_count <= offset_ms <= jitter_ms fl attempt_count)%Q ->
  retry_backoff_base attempt_count * 800
    <= retry_backoff_with_jitter fl attempt_count offset_ms
    <= retry_backoff_base attempt_count * 1200
  /\ 4000 <= retry_backoff_with_jitter fl attempt_count offset_ms <= 2160000.
Proof.
  intros Hfl Hoff. pose proof (jittered_range fl Hfl _ _ Hoff).
  pose proof (retry_backoff_base_range attempt_count). simpl in *. lia.
Qed.

Lemma retry_backoff_jitter_bounds_witness :
  nearest_f64 (fun x => x) /\
  96000 <= retry_backoff_with_jitter (fun x => x) 3 (-1234.5) <= 144000.
Proof.
  assert (nearest_f64 (fun x => x)) as Hid.
  { intros x Hx. assert (x - x == 0)%Q as -> by ring. change (Qabs 0) with 0%Q. lra. }
  split; [exact Hid|].
  refine (proj1 (retry_backoff_jitter_bounds (fun x => x) 3 (-1234.5) Hid _)).
  vm_compute. split; discriminate.
Defined.

(** ** Classification of time-outs *)

Lemma timeout_message_class (t : Z) :
  classify_broadcast_error_message ("send transaction timed out after " +:+ uint_to_string t +:+ "s")
  = TransientTransport.
Proof.
  pose proof (uint_to_string_digits t) as Hd.
  pose proof (uint_to_string_nonempty t) as Hne.
  unfold classify_broadcast_error_message.
  assert (to_lowercase ("send transaction timed out after " +:+ uint_to_string t +:+ "s")
          = "send transaction timed out after " +:+ uint_to_string t +:+ "s") as ->.
  { repeat rewrite string_app_cons; rewrite string_app_nil_l. cbn [to_lowercase].
    rewrite to_lowercase_digits by done. reflexivity. }
  set (m := _ +:+ _).
  assert (is_benign_duplicate_relay_message_lowercase m = false) as ->.
  { unfold is_benign_duplicate_relay_message_lowercase, m.
    rewrite !contains_digits by done. reflexivity. }
  assert (contains_any m terminal_patterns = false) as ->
    by (unfold m; rewrite contains_any_digits by done; reflexivity).
  assert (contains m "timed out" = true) as Ht
    by (unfold m; rewrite contains_digits by done; reflexivity).
  assert (contains_any m transport_patterns = true) as ->; [|done].
  apply existsb_exists. exists "timed out". split; [|done].
  unfold transport_patterns. do 3 right. by left.
Qed.

(** A send that runs into its time-out, whatever the time-out, is
    reported with an error that the retry machinery classifies as a
    transport failure: it is retryable, never terminal, and counts towards
    the failover streak. *)
Theorem send_timeout_is_transport_failure (timeout_secs : Z) :
  exists e, send_with_timeout_for timeout_secs None = Err e
    /\ classify_broadcast_error_message (error_chain e) = TransientTransport
    /\ is_effective_success_broadcast_error (error_chain e) = false
    /\ is_retryable_broadcast_error_class (classify_broadcast_error_message (error_chain e)) = true.
Proof.
  eexists. split; [reflexivity|]. cbn [error_chain].
  pose proof (timeout_message_class timeout_secs) as H. rewrite H. repeat split.
  unfold is_effective_success_broadcast_error, is_benign_duplicate_relay_message.
  unfold classify_broadcast_error_message in H.
  destruct (is_benign_duplicate_relay_message_lowercase _); [discriminate H|done].
Qed.

(** ** The retry policy *)

(** What a queued broadcast promises to the retry scheduler: a retryable
    entry has a next attempt, no terminal reason, a class that may be
    retried and budget left; a terminal one is never scheduled. *)
Record meta_ready (m : QueuedBroadcastMeta) : Prop := {
  mr_next : qm_retryable m = true -> is_Some (qm_next_attempt_at_ms m);
  mr_no_reason : qm_retryable m = true -> qm_terminal_reason m = None;
  mr_terminal : qm_retryable m = false -> qm_next_attempt_at_ms m = None;
  mr_class : forall c, qm_retryable m = true -> qm_last_error_class m = Some c ->
    c <> Terminal /\ qm_attempt_count m < MAX_TOTAL_BROADCAST_RETRY_ATTEMPTS
    /\ (c = Unknown -> qm_attempt_count m < MAX_UNKNOWN_BROADCAST_RETRY_ATTEMPTS);
  mr_classified : is_Some (qm_last_error m) -> is_Some (qm_last_error_class m);
  mr_reason : forall c, qm_retryable m = false -> qm_last_error_class m = Some c ->
    c = Terminal -> is_Some (qm_terminal_reason m);
}.

Lemma retry_budget_None c n :
  retry_budget_terminal_reason c n = None <->
  n < MAX_TOTAL_BROADCAST_RETRY_ATTEMPTS
  /\ (c = Unknown -> n < MAX_UNKNOWN_BROADCAST_RETRY_ATTEMPTS).
Proof.
  unfold retry_budget_terminal_reason, MAX_TOTAL_BROADCAST_RETRY_ATTEMPTS,
    MAX_UNKNOWN_BROADCAST_RETRY_ATTEMPTS.
  destruct c; simpl; repeat case_match; breflect; naive_solver lia.
Qed.

Lemma apply_retry_policy_true r n c t t' :
  apply_retry_policy r n c t = (true, t') ->
  r = true /\ t' = None
  /\ forall k, c = Some k -> k <> Terminal /\ retry_budget_terminal_reason k n = None.
Proof.
  unfold apply_retry_policy. destruct c as [k|]; [|by destruct r; intros; simplify_eq].
  destruct (retry_budget_terminal_reason k n) as [reason|] eqn:Hb, k, r;
    simpl; repeat case_match; naive_solver.
Qed.

Lemma apply_retry_policy_false r n c t t' :
  apply_retry_policy r n c t = (false, t') -> c = Some Terminal -> is_Some t'.
Proof.
  unfold apply_retry_policy. intros H ->. simpl in H.
  destruct t; simpl in H; simplify_eq; eauto.
Qed.

(** Deciding again on the outcome of a decision changes nothing. *)
Lemma apply_retry_policy_idempotent r n c t r' t' :
  apply_retry_policy r n c t = (r', t') -> apply_retry_policy r' n c t' = (r', t').
Proof.
  destruct r'.
  - intros H. apply apply_retry_policy_true in H as (-> & -> & Hc).
    destruct c as [k|]; [|done]. destruct (Hc k eq_refl) as [Hk Hb].
    unfold apply_retry_policy. rewrite Hb. by destruct k.
  - unfold apply_retry_policy. destruct c as [k|]; intros H.
    + destruct (retry_budget_terminal_reason k n) as [reason|], k, r, t; simpl in *;
        simplify_eq; done.
    + by destruct r; simplify_eq.
Qed.

Lemma normalize_ready m now_ms : meta_ready (normalize_queued_broadcast_meta m now_ms).
Proof.
  unfold normalize_queued_broadcast_meta.
  set (class := effective_class _ _).
  assert (is_Some (qm_last_error m) -> is_Some class) as Hclass
    by (unfold class; intros [? ->]; destruct (qm_last_error_class m); simpl; eauto).
  destruct (apply_retry_policy _ _ _ _) as [r t] eqn:HP.
  destruct r.
  - apply apply_retry_policy_true in HP as (Hr & -> & HP).
    split; simpl; try done.
    + by destruct (qm_next_attempt_at_ms m).
    + intros c _ Hc. destruct (HP c Hc) as [? Hb]. by apply retry_budget_None in Hb.
  - split; simpl; try done. intros c _ -> ->. by eapply apply_retry_policy_false.
Qed.

(** Loading a queued broadcast always yields a coherent entry: what is
    marked retryable is scheduled, has a retryable class and an unexhausted
    budget, what is terminal is never scheduled and carries a reason; and
    normalising is stable: a second start-up scan, at any later time, finds
    the same entry. *)
Theorem normalize_queued_meta_coherent (m : QueuedBroadcastMeta) (t1 t2 : Z) :
  let n := normalize_queued_broadcast_meta m t1 in
  meta_ready n
  /\ normalize_queued_broadcast_meta n t2 = n
  /\ qm_created_at_ms n = qm_created_at_ms m
  /\ qm_attempt_count n = qm_attempt_count m
  /\ (qm_retryable n = true -> qm_retryable m = true).
Proof.
  simpl. split; [apply normalize_ready|].
  unfold normalize_queued_broadcast_meta.
  set (class := effective_class _ _).
  destruct (apply_retry_policy (qm_retryable m) _ class _) as [r t] eqn:HP. simpl.
  assert (effective_class class (qm_last_error m) = class) as ->
    by (unfold class; destruct (qm_last_error_class m), (qm_last_error m); done).
  rewrite (apply_retry_policy_idempotent _ _ _ _ _ _ HP).
  split; [|split; [done|split; [done|]]].
  - f_equal. by destruct r; [destruct (qm_next_attempt_at_ms m)|].
  - intros ->. by apply apply_retry_policy_true in HP as [? _].
Qed.
