(* ===== verification/Servers.v ===== *)
(** Lightwalletd endpoints: URL validation ([grpc_url.rs]), resolution of
    the active endpoint ([server_resolver.rs]), the server commands of the
    app ([server_logic.rs]) and the failover of the broadcast path
    ([TxService::try_failover_server]).

    [url::Url::parse] and the gRPC probe are code outside the repository:
    parameters of the sections below. *)
From S2P Require Import Prelude Text Domain AppDb.

(** ** Validation (grpc_url.rs) *)

Module GrpcUrlPolicy.
Inductive GrpcUrlPolicy := Release | Debug.
#[global] Instance GrpcUrlPolicy_eq_dec : EqDecision GrpcUrlPolicy.
Proof. solve_decision. Defined.
End GrpcUrlPolicy.
Abbreviation GrpcUrlPolicy := GrpcUrlPolicy.GrpcUrlPolicy.

(** [url::Host]; an address is its 32-bit or 128-bit value. *)
Inductive Host :=
| Domain (d : string)
| Ipv4 (ip : Z)
| Ipv6 (ip : Z).

(** What the code reads of a parsed [Url]. *)
Record Url := mkUrl {
  url_scheme : string;
  url_username : string;
  url_password : option string;
  url_host : option Host;
  url_port : option Z;
  url_query : option string;
  url_fragment : option string;
}.

Inductive ParseError := EmptyHost | RelativeUrlWithoutBase | OtherParseError (msg : string).

Definition from_build (debug_assertions : bool) : GrpcUrlPolicy :=
  if debug_assertions then GrpcUrlPolicy.Debug else GrpcUrlPolicy.Release.

(** [Ipv4Addr::is_loopback]: 127.0.0.0/8. *)
Definition ipv4_is_loopback (ip : Z) : bool := Z.shiftr ip 24 =? 127.
Definition ipv6_is_loopback (ip : Z) : bool := ip =? 1.
(** [Ipv6Addr::to_ipv4_mapped]: ::ffff:0:0/96. *)
Definition to_ipv4_mapped (ip : Z) : option Z :=
  if Z.shiftr ip 32 =? 65535 then Some (Z.land ip u32_max) else None.

Definition host_is_loopback (h : option Host) : bool :=
  match h with
  | Some (Domain d) => eq_ignore_ascii_case d "localhost"
  | Some (Ipv4 ip) => ipv4_is_loopback ip
  | Some (Ipv6 ip) =>
      ipv6_is_loopback ip
      || match to_ipv4_mapped ip with Some v4 => ipv4_is_loopback v4 | None => false end
  | None => false
  end.

Definition invalid_url (m : string) : error :=
  ipc_err errors.INVALID_REQUEST ("invalid gRPC URL: " +:+ m).

(** The final [match policy] of the validation. *)
Definition check_scheme (policy : GrpcUrlPolicy) (parsed : Url) : result unit :=
  let scheme := url_scheme parsed in
  match policy with
  | GrpcUrlPolicy.Release =>
      if negb (bool_decide (scheme = "https"))
      then Err (invalid_url "only HTTPS URLs are allowed for gRPC servers")
      else Ok tt
  | GrpcUrlPolicy.Debug =>
      if negb (bool_decide (scheme = "https")) then
        let is_localhost := host_is_loopback (url_host parsed) in
        if negb (bool_decide (scheme = "http")) || negb is_localhost
        then Err (invalid_url "only HTTPS URLs (or HTTP loopback URLs for development) are allowed")
        else Ok tt
      else Ok tt
  end.

Section GrpcUrl.
Context (url_parse : string -> Url + ParseError).

Definition validate_grpc_url_with_policy (grpc_url : string) (policy : GrpcUrlPolicy)
    : result unit :=
  let grpc_url := trim grpc_url in
  after_scheme ← ok_or (snd <$> split_once_str "://" grpc_url)
    (invalid_url "expected absolute URL like https://example.com");
  if is_empty after_scheme || starts_with after_scheme "/" then Err (invalid_url "missing host")
  else
  match url_parse grpc_url with
  | inr EmptyHost => Err (invalid_url "missing host")
  | inr RelativeUrlWithoutBase =>
      Err (invalid_url "expected absolute URL like https://example.com")
  | inr (OtherParseError other) => Err (invalid_url other)
  | inl parsed =>
      if negb (is_empty (url_username parsed)) || bool_decide (is_Some (url_password parsed))
      then Err (invalid_url "username/password not allowed")
      else if bool_decide (is_Some (url_query parsed))
      then Err (invalid_url "query parameters not allowed")
      else if bool_decide (is_Some (url_fragment parsed))
      then Err (invalid_url "fragments not allowed")
      else if bool_decide (url_port parsed = Some 0)
      then Err (invalid_url "port 0 is not allowed")
      else
        check_scheme policy parsed
  end.

Context (debug_assertions : bool).

Definition validate_grpc_url (grpc_url : string) : result unit :=
  validate_grpc_url_with_policy grpc_url (from_build debug_assertions).

(** *** server_resolver.rs *)

Definition resolve_grpc_url_with_dev_override (network : Network) (dev_override : option string)
    : M AppDb string :=
  let override_url :=
    match dev_override with
    | Some raw_url =>
        if debug_assertions && negb (is_empty (trim raw_url)) then Some (trim raw_url) else None
    | None => None
    end in
  match override_url with
  | Some u =>
      m_lift (with_context "invalid ZBAG_GRPC_URL" (validate_grpc_url u)) ;; mret u
  | None =>
      servers ← m_context "failed to list servers" list_servers;
      server ← m_lift (ok_or
        (find_first (fun s => bool_decide (srv_network s = network) && srv_is_default s) servers)
        (AnyhowMsg "no default server configured for network"));
      m_lift (with_context ("invalid gRPC URL for default " +:+ network_debug network
                +:+ " server '" +:+ srv_name server +:+ "' (" +:+ srv_id server +:+ ")")
               (validate_grpc_url (srv_grpc_url server))) ;;
      mret (srv_grpc_url server)
  end.

(** [env_var] is [ZBAG_GRPC_URL], read in debug builds only. *)
Definition resolve_grpc_url (network : Network) (env_var : option string) : M AppDb string :=
  resolve_grpc_url_with_dev_override network (if debug_assertions then env_var else None).

(** *** server_logic.rs *)

Definition parse_network (chain_name : string) : result Network :=
  let name := to_lowercase (trim chain_name) in
  if bool_decide (name = "main") || bool_decide (name = "mainnet") then Ok Network.Mainnet
  else if bool_decide (name = "test") || bool_decide (name = "testnet") then Ok Network.Testnet
  else Err (ipc_err errors.INVALID_REQUEST ("unsupported chain_name: " +:+ name)).

(** [probe]: the chain name reported by the server within the time-out;
    [fresh_id] and [now_ms] are the values drawn by the call. *)
Definition add_server (probe : string -> result string) (name grpc_url : string)
    (fresh_id : Uuid) (now_ms : Z) : M AppDb ServerInfo :=
  let name := trim name in
  if is_empty name then m_err (ipc_err errors.INVALID_REQUEST "server name required") else
  let grpc_url := trim grpc_url in
  if is_empty grpc_url then m_err (ipc_err errors.INVALID_REQUEST "grpc_url required") else
  m_lift (validate_grpc_url grpc_url) ;;
  chain_name ← m_lift (match probe grpc_url with
                       | Ok c => Ok c
                       | Err e => Err (ipc_err errors.SERVER_UNAVAILABLE
                                        ("server probe failed: " +:+ error_to_string e))
                       end);
  network ← m_lift (parse_network chain_name);
  let server := mkServerInfo fresh_id name grpc_url network false (Some now_ms) None in
  insert_server server now_ms ;;
  mret server.

(** [active_network]: the network of the active wallet, if one is loaded. *)
Definition ensure_server_network_matches_active_wallet (active_network : option Network)
    (server_network : Network) : result unit :=
  match active_network with
  | None => Ok tt
  | Some n => if negb (bool_decide (n = server_network))
              then Err (ipc_err errors.INVALID_REQUEST "server network mismatch")
              else Ok tt
  end.

Definition set_default_server_cmd (active_network : option Network) (server_id : Uuid)
    : M AppDb bool :=
  found ← get_server server_id;
  server ← m_lift (ok_or found (ipc_err errors.INVALID_REQUEST "server not found"));
  m_lift (validate_grpc_url (srv_grpc_url server)) ;;
  m_lift (ensure_server_network_matches_active_wallet active_network (srv_network server)) ;;
  set_default_server server_id ;;
  mret true.

Definition list_servers_cmd : M AppDb (list ServerInfo) :=
  servers ← list_servers;
  mret (map (fun s =>
    match validate_grpc_url (srv_grpc_url s) with
    | Ok _ => s
    | Err e =>
        let message := match find_engine_ipc_error e with
                       | Some (_, m) => m | None => error_to_string e end in
        mkServerInfo (srv_id s) (srv_name s) (srv_grpc_url s) (srv_network s)
          (srv_is_default s) (srv_last_success_at s) (Some message)
    end) servers).

(** The response of [test_server], without the measured latency. *)
Record TestServerResponse := mkTestServerResponse {
  tsr_success : bool;
  tsr_error : option string;
}.

Definition test_server (probe : string -> result string) (server_id : Uuid) (now_ms : Z)
    : M AppDb TestServerResponse :=
  found ← get_server server_id;
  server ← m_lift (ok_or found (ipc_err errors.INVALID_REQUEST "server not found"));
  match validate_grpc_url (srv_grpc_url server) with
  | Err e =>
      let message := match find_engine_ipc_error e with
                     | Some (_, m) => m | None => error_to_string e end in
      mret (mkTestServerResponse false
             (Some ("stored server configuration is invalid: " +:+ message)))
  | Ok _ =>
      match probe (srv_grpc_url server) with
      | Err e => mret (mkTestServerResponse false (Some (error_to_string e)))
      | Ok chain_name =>
          network ← m_lift (parse_network chain_name);
          if negb (bool_decide (network = srv_network server))
          then mret (mkTestServerResponse false (Some "server network mismatch"))
          else
            (* the result of the update is ignored *)
            m_ignore (update_last_success_at (srv_id server) now_ms) ;;
            mret (mkTestServerResponse true None)
      end
  end.

(** *** Failover (tx_service.rs) *)

(** [probe_ok url]: the probe of a candidate answers within its time-out. *)
Definition try_failover_server (probe_ok : string -> bool) (now_ms : result Z)
    (network : Network) (current_grpc_url reason : string)
    : M AppDb (option (string * ServerFailoverEvent)) :=
  servers ← m_context "failed to list servers for failover" list_servers;
  let network_servers :=
    filter (fun s => is_ok (validate_grpc_url (srv_grpc_url s)))
      (filter (fun s => srv_network s = network) servers) in
  if (length network_servers <? 2)%nat then mret None else
  let from_server :=
    match find_first (fun s => bool_decide (srv_grpc_url s = current_grpc_url)) network_servers with
    | Some s => Some s
    | None => find_first srv_is_default network_servers
    end in
  match from_server with
  | None => mret None
  | Some from_server =>
      match find_first (fun s => probe_ok (srv_grpc_url s))
              (filter (fun s => srv_id s <> srv_id from_server) network_servers) with
      | None => mret None
      | Some candidate =>
          m_context "failed to switch default server during failover"
            (set_default_server (srv_id candidate)) ;;
          now_ms ← m_lift now_ms;
          (* a failed update is only logged *)
          m_ignore (update_last_success_at (srv_id candidate) now_ms) ;;
          mret (Some (srv_grpc_url candidate,
                  mkServerFailoverEvent network (srv_id from_server) (srv_name from_server)
                    (srv_grpc_url from_server) (srv_id candidate) (srv_name candidate)
                    (srv_grpc_url candidate) reason))
      end
  end.
End GrpcUrl.

(** ** What validation guarantees *)

(** The transport policy: encrypted, or in a debug build plain HTTP to the
    local host. *)
Definition transport_allowed (policy : GrpcUrlPolicy) (u : Url) : Prop :=
  url_scheme u = "https"
  \/ (policy = GrpcUrlPolicy.Debug /\ url_scheme u = "http"
      /\ host_is_loopback (url_host u) = true).

Definition url_clean (u : Url) : Prop :=
  url_username u = "" /\ url_password u = None /\ url_query u = None
  /\ url_fragment u = None /\ url_port u <> Some 0.

Lemma is_empty_true s : is_empty s = true <-> s = "".
Proof. by destruct s. Qed.

Lemma check_scheme_Ok policy u : check_scheme policy u = Ok tt <-> transport_allowed policy u.
Proof.
  unfold check_scheme, transport_allowed.
  destruct (bool_decide (url_scheme u = "https")) eqn:Hs; breflect; simpl.
  { by destruct policy; split; auto. }
  destruct policy; simpl; [split; [done|naive_solver]|].
  destruct (bool_decide (url_scheme u = "http")) eqn:Hh, (host_is_loopback (url_host u));
    breflect; simpl; split; naive_solver.
Qed.

Lemma validate_cases url_parse grpc_url policy :
  validate_grpc_url_with_policy url_parse grpc_url policy = Ok tt <->
  exists scheme rest u,
    split_once_str "://" (trim grpc_url) = Some (scheme, rest)
    /\ rest <> "" /\ starts_with rest "/" = false
    /\ url_parse (trim grpc_url) = inl u /\ url_clean u /\ transport_allowed policy u.
Proof.
  unfold validate_grpc_url_with_policy, url_clean.
  destruct (split_once_str "://" (trim grpc_url)) as [[scheme rest]|]; simpl; [|naive_solver].
  destruct (is_empty rest) eqn:Er; simpl.
  { apply is_empty_true in Er. naive_solver. }
  assert (rest <> "") as Hr by (intros ->; done).
  destruct (starts_with rest "/") eqn:Es; simpl;
    [split; [done|by intros (? & ? & ? & [= <- <-] & _ & Hs & _); rewrite Es in Hs]|].
  destruct (url_parse (trim grpc_url)) as [u|[| |msg]];
    [|split; [done|by intros (? & ? & ? & ? & ? & ? & [=] & _)]..].
  destruct (is_empty (url_username u)) eqn:Eu; simpl; [apply is_empty_true in Eu|].
  2:{ split; [done|]. intros (? & ? & ? & ? & ? & ? & [= ->] & (Hu & _) & _). by rewrite Hu in Eu. }
  destruct (url_password u) eqn:?, (url_query u) eqn:?, (url_fragment u) eqn:?; simpl;
    try (split; [done|naive_solver]).
  destruct (bool_decide (url_port u = Some 0)) eqn:Hp; breflect; [split; [done|naive_solver]|].
  rewrite check_scheme_Ok. naive_solver.
Qed.

(** A URL accepted by [validate_grpc_url_with_policy] has an explicit
    authority, carries no credentials, query, fragment or port 0, and its
    transport is HTTPS, or in a debug build plain HTTP to a loopback host;
    what a release build accepts, a debug build accepts too. *)
Theorem validated_url_is_safe (url_parse : string -> Url + ParseError) (grpc_url : string)
    (policy : GrpcUrlPolicy) :
  validate_grpc_url_with_policy url_parse grpc_url policy = Ok tt ->
  (exists u, url_parse (trim grpc_url) = inl u /\ url_clean u /\ transport_allowed policy u
     /\ (policy = GrpcUrlPolicy.Release -> url_scheme u = "https"))
  /\ validate_grpc_url_with_policy url_parse grpc_url GrpcUrlPolicy.Debug = Ok tt.
Proof.
  rewrite !validate_cases.
  intros (scheme & rest & u & Hsp & Hne & Hsl & Hu & Hc & Ht). split.
  - exists u. do 3 (split; [done|]). intros ->. by destruct Ht as [|(? & _)].
  - exists scheme, rest, u. do 5 (split; [done|]). unfold transport_allowed in *. naive_solver.
Qed.

(** A parser that knows one URL, for the witnesses. *)
Definition demo_url_parse (s : string) : Url + ParseError :=
  if bool_decide (s = "https://zec.rocks")
  then inl (mkUrl "https" "" None (Some (Domain "zec.rocks")) None None None)
  else if bool_decide (s = "https://eu.zec.rocks")
  then inl (mkUrl "https" "" None (Some (Domain "eu.zec.rocks")) None None None)
  else inr EmptyHost.

Lemma validated_url_is_safe_witness :
  exists u, demo_url_parse "https://zec.rocks" = inl u /\ url_scheme u = "https".
Proof.
  destruct (proj1 (validated_url_is_safe demo_url_parse "https://zec.rocks" GrpcUrlPolicy.Release
                     eq_refl)) as (u & Hu & _ & _ & Hs).
  exists u. split; [exact Hu | exact (Hs eq_refl)].
Defined.

Section Resolve.
Context (url_parse : string -> Url + ParseError) (debug : bool).
Let validate := validate_grpc_url url_parse debug.

Lemma resolve_default db r n :
  servers_ok (adb_servers db) -> adb_faults db = [] ->
  r ∈ adb_servers db -> sr_is_default r = true -> sr_network r = network_debug n ->
  validate (sr_grpc_url r) = Ok tt ->
  resolve_grpc_url url_parse debug n None db = (Ok (sr_grpc_url r), db).
Proof using Type.
  intros Hok Hf Hr Hd Hn Hv.
  assert (resolve_grpc_url url_parse debug n None
          = resolve_grpc_url_with_dev_override url_parse debug n None) as ->
    by (unfold resolve_grpc_url; by destruct debug).
  unfold resolve_grpc_url_with_dev_override, list_servers, mbind, M_bind, m_context, m_get,
    m_lift, mret, M_ret, db_stmt. rewrite Hf. simpl.
  rewrite (find_default_server _ r n) by done. simpl.
  unfold validate in Hv. rewrite Hv. done.
Qed.

Lemma set_default_cmd_cases active id db res db' :
  servers_ok (adb_servers db) -> adb_faults db = [] ->
  set_default_server_cmd url_parse debug active id db = (res, db') ->
  match res with
  | Ok _ => exists r n, r ∈ adb_servers db /\ sr_id r = id /\ sr_network r = network_debug n
      /\ validate (sr_grpc_url r) = Ok tt /\ (active = None \/ active = Some n)
      /\ adb_faults db' = []
      /\ adb_servers db' = map (switch_default id (sr_network r)) (adb_servers db)
  | Err _ => db' = db
  end.
Proof using Type.
  intros Hok Hf. unfold set_default_server_cmd, get_server, mbind, M_bind, m_lift, m_get,
    mret, M_ret, db_stmt. rewrite Hf.
  destruct (find_first _ _) as [r|] eqn:Er; simpl; [|by intros; simplify_eq].
  destruct (validate_grpc_url _ _ _) as [[]|] eqn:Ev; [|by intros; simplify_eq].
  destruct (find_first_Some _ _ _ Er) as [Hr Hid]. unfold server_id_is in Hid. breflect.
  destruct (proj2 (proj2 Hok) r Hr) as [n Hn]. rewrite Hn, parse_network_debug.
  destruct (ensure_server_network_matches_active_wallet active n) as [[]|] eqn:Ea;
    [|by intros; simplify_eq].
  assert (active = None \/ active = Some n) as Hact.
  { unfold ensure_server_network_matches_active_wallet in Ea. destruct active as [m|]; [|auto].
    destruct (bool_decide (m = n)) eqn:E; simpl in Ea; breflect; [|done]. subst; auto. }
  destruct (set_default_server_enabled id db r Hf Er) as (db2 & Hset & Hf2).
  pose proof (set_default_server_cases id db) as Hcases. rewrite Hset in Hcases |- *.
  destruct Hcases as (r' & Er' & Hmap). intros; simplify_eq.
  exists r, n. done.
Qed.
End Resolve.

(** Choosing a default server: when the command succeeds, the chosen
    server exists, has a valid URL and the network of the active wallet, the
    table still satisfies its constraints (one default per network) and the
    resolver of that network now returns exactly that server's URL; when it
    fails nothing changes. *)
Theorem set_default_server_resolves (url_parse : string -> Url + ParseError) (debug : bool)
    (active : option Network) (id : Uuid) (db db' : AppDb) (res : result bool) :
  servers_ok (adb_servers db) -> adb_faults db = [] ->
  set_default_server_cmd url_parse debug active id db = (res, db') ->
  servers_ok (adb_servers db') /\
  match res with
  | Ok _ => exists r n, r ∈ adb_servers db /\ sr_id r = id /\ sr_network r = network_debug n
      /\ (active = None \/ active = Some n)
      /\ resolve_grpc_url url_parse debug n None db' = (Ok (sr_grpc_url r), db')
  | Err _ => db' = db
  end.
Proof.
  intros Hok Hf H. pose proof (set_default_cmd_cases _ _ _ _ _ _ _ Hok Hf H) as Hc.
  destruct res as [b|e]; [|by subst].
  destruct Hc as (r & n & Hr & Hid & Hn & Hv & Hact & Hf' & Hm).
  assert (servers_ok (adb_servers db')) as Hok' by (rewrite Hm; by apply switch_default_ok).
  split; [done|]. exists r, n. do 4 (split; [done|]).
  pose proof (resolve_default url_parse debug db' (switch_default id (sr_network r) r) n) as HR.
  rewrite switch_default_url in HR. apply HR; try done.
  - rewrite Hm. by apply list_elem_of_fmap_2.
  - rewrite switch_default_flag, bool_decide_eq_true_2; done.
  - by rewrite switch_default_network.
Qed.

(** The seeded servers of a fresh installation (migrations.rs). *)
Definition demo_db : AppDb :=
  mkAppDb [] [] [] [mkServerRow "s1" "zec.rocks" "https://zec.rocks" "Mainnet" true None 1;
                    mkServerRow "s2" "eu.zec.rocks" "https://eu.zec.rocks" "Mainnet" false None 2]
    [] [] [] None None [].

Lemma demo_db_ok : servers_ok (adb_servers demo_db).
Proof.
  split; [|split].
  - apply (bool_decide_unpack (NoDup (map sr_id (adb_servers demo_db)))). vm_compute. exact I.
  - intros a b Ha Hb. apply list_elem_of_In in Ha, Hb. simpl in Ha, Hb.
    intuition (subst; try discriminate; auto).
  - intros a Ha. apply list_elem_of_In in Ha. simpl in Ha. exists Network.Mainnet.
    intuition (subst; reflexivity).
Qed.

Lemma set_default_server_resolves_witness :
  exists db', resolve_grpc_url demo_url_parse false Network.Mainnet None db'
              = (Ok "https://eu.zec.rocks", db').
Proof.
  destruct (set_default_server_resolves demo_url_parse false (Some Network.Mainnet) "s2" demo_db
              _ _ demo_db_ok eq_refl eq_refl) as [_ (r & n & Hr & Hid & Hn & _ & Hres)].
  apply list_elem_of_In in Hr. simpl in Hr.
  destruct Hr as [<-|[<-|[]]]; [discriminate Hid|].
  destruct n; [|discriminate Hn]. eexists. exact Hres.
Defined.

Section Failover.
Context (url_parse : string -> Url + ParseError) (debug : bool) (probe_ok : string -> bool).

(** A failover that is performed goes to a live, valid server of the
    network other than the one that failed. *)
Lemma try_failover_cases t n cur reason db :
  servers_ok (adb_servers db) -> adb_faults db = [] ->
  let '(res, db') := try_failover_server url_parse debug probe_ok (Ok t) n cur reason db in
  adb_faults db' = [] /\
  match res with
  | Ok (Some (url, ev)) => exists c f,
      c ∈ adb_servers db /\ sr_network c = network_debug n /\ sr_grpc_url c = url
      /\ validate_grpc_url url_parse debug url = Ok tt /\ probe_ok url = true
      /\ fo_to_server_id ev = sr_id c /\ fo_from_server_id ev <> sr_id c
      /\ fo_to_grpc_url ev = url /\ fo_reason ev = reason
      /\ adb_servers db' = map f (map (switch_default (sr_id c) (sr_network c)) (adb_servers db))
      /\ (forall r, sr_id (f r) = sr_id r /\ sr_network (f r) = sr_network r
            /\ sr_is_default (f r) = sr_is_default r /\ sr_grpc_url (f r) = sr_grpc_url r)
  | Ok None => db' = db
  | Err _ => False
  end.
Proof using Type.
  intros Hok Hf.
  unfold try_failover_server, list_servers, mbind, M_bind, m_context, m_get, m_lift, m_ignore,
    mret, M_ret. unfold db_stmt at 1. unfold db_stmt at 1. rewrite Hf. simpl.
  set (ns := filter _ (filter _ _)).
  destruct (length ns <? 2)%nat; [done|].
  destruct (match find_first _ ns with Some s => _ | None => _ end) as [from|]; [|done].
  destruct (find_first _ (filter _ ns)) as [cand|] eqn:Ec; [|done].
  apply find_first_Some in Ec as [Hc Hprobe].
  apply list_elem_of_filter in Hc as [Hne Hc]. unfold ns in Hc.
  apply list_elem_of_filter in Hc as [Hv Hc]. apply list_elem_of_filter in Hc as [Hn Hc].
  apply list_elem_of_fmap in Hc as (c & -> & Hc). rewrite elem_of_isort in Hc.
  simpl in *. destruct (proj2 (proj2 Hok) c Hc) as [m Hm].
  rewrite Hm, parse_network_debug in Hn. subst m.
  assert (find_first (server_id_is (sr_id c)) (adb_servers db) = Some c) as Hfind.
  { apply find_first_unique; [done|by apply bool_decide_eq_true|].
    intros y Hy Hyc. apply (servers_ok_id (adb_servers db)); try done.
    by apply bool_decide_eq_true in Hyc. }
  destruct (set_default_server_enabled (sr_id c) db c Hf Hfind) as (db2 & Hset & Hf2).
  pose proof (set_default_server_cases (sr_id c) db) as Hsc. rewrite Hset in Hsc |- *.
  destruct Hsc as (c' & Hc' & Hmap). assert (c' = c) as -> by congruence. simpl.
  destruct (update_last_success_at_cases (sr_id c) t db2) as (f & Hu & Hfr).
  split.
  - unfold update_last_success_at, mbind, M_bind, m_modify, db_stmt. by rewrite Hf2.
  - exists c, f. rewrite Hu, Hmap.
    assert (validate_grpc_url url_parse debug (sr_grpc_url c) = Ok tt) as Hvok.
    { destruct (validate_grpc_url _ _ _) as [[]|]; [done|]. by simpl in Hv. }
    repeat split; try done; apply Hfr.
Qed.
End Failover.

(** Failover: when [try_failover_server] switches, the new endpoint is
    another server of the same network, with a valid URL, that answered its
    probe; it has become the network's only default, so every later
    resolution uses it.  When it does not switch, the database is as
    before. *)
Theorem failover_switches_to_live_server (url_parse : string -> Url + ParseError) (debug : bool)
    (probe_ok : string -> bool) (t : Z) (n : Network) (cur reason : string) (db : AppDb) :
  servers_ok (adb_servers db) -> adb_faults db = [] ->
  let '(res, db') := try_failover_server url_parse debug probe_ok (Ok t) n cur reason db in
  servers_ok (adb_servers db') /\
  match res with
  | Ok (Some (url, ev)) =>
      probe_ok url = true /\ validate_grpc_url url_parse debug url = Ok tt
      /\ fo_from_server_id ev <> fo_to_server_id ev /\ fo_to_grpc_url ev = url
      /\ resolve_grpc_url url_parse debug n None db' = (Ok url, db')
  | Ok None => db' = db
  | Err _ => False
  end.
Proof.
  intros Hok Hf. pose proof (try_failover_cases url_parse debug probe_ok t n cur reason db Hok Hf) as H.
  destruct (try_failover_server _ _ _ _ _ _ _ _) as [res db'].
  destruct H as [Hf' H]. destruct res as [[[url ev]|]|]; [|by subst|done].
  destruct H as (c & f & Hc & Hn & Hurl & Hv & Hp & Hto & Hfrom & Htu & _ & Hm & Hfr).
  assert (servers_ok (adb_servers db')) as Hok'.
  { rewrite Hm. apply servers_ok_map; [done|]. by apply switch_default_ok. }
  split; [done|]. do 2 (split; [done|]). split; [congruence|]. split; [done|].
  destruct (Hfr (switch_default (sr_id c) (sr_network c) c)) as (Hfid & Hfn & Hfd & Hfu).
  pose proof (resolve_default url_parse debug db' (f (switch_default (sr_id c) (sr_network c) c)) n) as HR.
  rewrite Hfu, switch_default_url, Hurl in HR. apply HR; try done.
  - rewrite Hm. by do 2 apply list_elem_of_fmap_2.
  - rewrite Hfd, switch_default_flag, bool_decide_eq_true_2; done.
  - by rewrite Hfn, switch_default_network.
Qed.

Lemma failover_switches_to_live_server_witness :
  let db' := (try_failover_server demo_url_parse false (fun _ => true) (Ok 7) Network.Mainnet
                "https://zec.rocks" "streak" demo_db).2 in
  resolve_grpc_url demo_url_parse false Network.Mainnet None db' = (Ok "https://eu.zec.rocks", db').
Proof.
  pose proof (failover_switches_to_live_server demo_url_parse false (fun _ => true) 7
    Network.Mainnet "https://zec.rocks" "streak" demo_db demo_db_ok eq_refl) as H.
  vm_compute in H. destruct H as (_ & _ & _ & _ & _ & Hres). vm_compute. exact Hres.
Defined.
