(* ===== verification/BroadcastQueue.v ===== *)
(** The queue of transactions whose broadcast failed ([tx_service.rs]): the
    encrypted files under [<wallet_dir>/queued_broadcasts], their in-memory
    index, the start-up scan, the due list and the retry with failover; and
    the writer of the same files in [job_service.rs].

    Code outside the repository is a parameter: [serde_json] on the
    metadata, XChaCha20-Poly1305, the gRPC send and probe, [hex] and the
    wallet database of [zcash_client_sqlite].  A directory is a finite map
    from file names to contents; [q_faults] scripts I/O failures, one entry
    per file-system call.  A [SystemTime] is in nanoseconds since the
    epoch. *)
From S2P Require Import Prelude Text Domain AppDb Broadcast Servers.
From Stdlib Require Import QArith Ascii.
Open Scope Z_scope.

Definition QUEUED_BROADCAST_RETENTION : Z := 7 * 24 * 60 * 60 * 1000000000.

Definition to_unix_ms (time : Z) : result Z :=
  if time <? 0 then Err (ipc_err errors.INTERNAL_ERROR "time went backwards")
  else if time / 1000000 <=? i64_max then Ok (time / 1000000)
  else Err (ipc_err errors.INTERNAL_ERROR "timestamp overflow").

(** ** Files *)

(** A path is a directory and a file name. *)
Definition Path : Type := string * string.

Definition queued_broadcasts_dir (wallet_dir : string) : string :=
  wallet_dir +:+ "/queued_broadcasts".
Definition queued_broadcast_bin_path (queue_dir txid : string) : Path := (queue_dir, txid +:+ ".bin").
Definition queued_broadcast_meta_path (queue_dir txid : string) : Path := (queue_dir, txid +:+ ".json").

(** [Path::file_stem] and [Path::extension] of a file name: split at the
    last dot, unless it is the first character. *)
Definition file_parts (name : string) : string * option string :=
  match split_once "."%char (String.rev name) with
  | Some (ext, stem) =>
      if is_empty stem then (name, None) else (String.rev stem, Some (String.rev ext))
  | None => (name, None)
  end.

Record QueuedBroadcastEntry := mkEntry {
  qe_bin_path : Path;
  qe_meta : QueuedBroadcastMeta;
}.

Record QueueState := mkQueueState {
  q_disk : gmap string (gmap string string);
  q_faults : list bool;
  q_mem : gmap string (gmap string QueuedBroadcastEntry);
}.

Definition q_set_disk (q : QueueState) (d : gmap string (gmap string string)) : QueueState :=
  mkQueueState d (q_faults q) (q_mem q).
Definition q_set_mem (q : QueueState) (m : gmap string (gmap string QueuedBroadcastEntry)) : QueueState :=
  mkQueueState (q_disk q) (q_faults q) m.

Definition io_error : error := AnyhowMsg "io error".

(** One file-system call. *)
Definition fs_call : M QueueState unit := fun q =>
  match q_faults q with
  | [] => (Ok tt, q)
  | f :: fs => ((if f then Err io_error else Ok tt), mkQueueState (q_disk q) fs (q_mem q))
  end.

Definition file_at (q : QueueState) (p : Path) : option string := files ← q_disk q !! p.1; files !! p.2.

Definition fs_read (p : Path) : M QueueState string :=
  fs_call ;; q ← m_get; m_lift (ok_or (file_at q p) io_error).

Definition fs_remove_file (p : Path) : M QueueState unit :=
  fs_call ;; q ← m_get;
  match file_at q p with
  | None => m_err io_error
  | Some _ => m_put (q_set_disk q (alter (delete p.2) p.1 (q_disk q)))
  end.

(** [write_file_secure] into an existing directory. *)
Definition write_file_secure (p : Path) (contents : string) : M QueueState unit :=
  fs_call ;; q ← m_get;
  match q_disk q !! p.1 with
  | None => m_err io_error
  | Some _ => m_put (q_set_disk q (alter (<[p.2 := contents]>) p.1 (q_disk q)))
  end.

(** [create_dir_all_secure]: an existing directory is kept.  The modes, which
    this disk does not have, are in Permissions.v. *)
Definition create_dir_all_secure (dir : string) : M QueueState unit :=
  fs_call ;; q ← m_get;
  match q_disk q !! dir with
  | Some _ => mret tt
  | None => m_put (q_set_disk q (<[dir := ∅]> (q_disk q)))
  end.

(** [std::fs::create_dir_all], with the process's own modes: on a disk without
    modes the same directories. *)
Definition create_dir_all (dir : string) : M QueueState unit :=
  fs_call ;; q ← m_get;
  match q_disk q !! dir with
  | Some _ => mret tt
  | None => m_put (q_set_disk q (<[dir := ∅]> (q_disk q)))
  end.

Section Queue.
(** serde_json on the metadata. *)
Context (to_vec_pretty : QueuedBroadcastMeta -> string)
        (from_slice : string -> option QueuedBroadcastMeta).
(** XChaCha20-Poly1305: key, nonce, associated data, message. *)
Context (aead_encrypt aead_decrypt : string -> string -> string -> string -> option string).
(** Rounding to [f64], for the jitter. *)
Context (fl : Q -> Q).

(** ** Start-up scan *)

Definition retention_expired (now : Z) (meta : QueuedBroadcastMeta) : bool :=
  let created_at := Z.max (qm_created_at_ms meta) 0 * 1000000 in
  QUEUED_BROADCAST_RETENTION <? Z.max (now - created_at) 0.

Definition scan_entry (queue_dir : string) (now now_ms : Z)
    (entries : gmap string QueuedBroadcastEntry) (name : string)
    : M QueueState (gmap string QueuedBroadcastEntry) :=
  match file_parts name with
  | (txid, Some "json") =>
      if is_empty txid then mret entries else
      read ← m_try (fs_read (queue_dir, name));
      match read with
      | Err _ => mret entries
      | Ok meta_bytes =>
          match from_slice meta_bytes with
          | None => m_ignore (fs_remove_file (queue_dir, name)) ;; mret entries
          | Some parsed_meta =>
              let meta := normalize_queued_broadcast_meta parsed_meta now_ms in
              let bin_path := queued_broadcast_bin_path queue_dir txid in
              q ← m_get;
              if bool_decide (file_at q bin_path = None) then
                m_ignore (fs_remove_file (queue_dir, name)) ;; mret entries
              else if retention_expired now meta then
                m_ignore (fs_remove_file bin_path) ;;
                m_ignore (fs_remove_file (queue_dir, name)) ;;
                mret entries
              else mret (<[txid := mkEntry bin_path meta]> entries)
          end
      end
  | _ => mret entries
  end.

(** The directory is read entry by entry; an error of its stream ends the scan. *)
Definition scan_dir_entry (queue_dir : string) (now now_ms : Z)
    (entries : gmap string QueuedBroadcastEntry) (name : string)
    : M QueueState (gmap string QueuedBroadcastEntry) :=
  fs_call ;; scan_entry queue_dir now now_ms entries name.

Definition scan_queued_broadcasts (now : Z) (wallet_id : Uuid) (wallet_dir : string)
    : M QueueState unit :=
  let queue_dir := queued_broadcasts_dir wallet_dir in
  q ← m_get;
  match q_disk q !! queue_dir with
  | None => m_put (q_set_mem q (delete wallet_id (q_mem q)))
  | Some files =>
      now_ms ← m_lift (to_unix_ms now);
      m_context ("failed to read queued broadcasts dir: " +:+ queue_dir) fs_call ;;
      entries ← m_fold (scan_dir_entry queue_dir now now_ms) ∅ (map fst (map_to_list files));
      m_modify (fun q => q_set_mem q (<[wallet_id := entries]> (q_mem q)))
  end.

(** The (time, txid) pairs in the order of the final [sort_by]. *)
Definition due_order (a b : Z * string) : bool :=
  (a.1 <? b.1) || ((a.1 =? b.1) && String.leb a.2 b.2).

Definition due_at (now_ms : Z) (p : string * QueuedBroadcastEntry) : option (Z * string) :=
  let meta := qe_meta p.2 in
  if negb (qm_retryable meta) then None
  else
    let next_at := default now_ms (qm_next_attempt_at_ms meta) in
    if next_at <=? now_ms then Some (next_at, p.1) else None.

Definition list_due_retry_txids (now : Z) (wallet_id : Uuid) (wallet_dir : string)
    : M QueueState (list string) :=
  scan_queued_broadcasts now wallet_id wallet_dir ;;
  now_ms ← m_lift (to_unix_ms now);
  q ← m_get;
  let entries := default ∅ (q_mem q !! wallet_id) in
  mret (map snd (isort due_order (omap (due_at now_ms) (map_to_list entries)))).

(** ** Writing *)

Definition write_queued_broadcast_meta (wallet_dir txid : string) (meta : QueuedBroadcastMeta)
    : M QueueState unit :=
  let meta_path := queued_broadcast_meta_path (queued_broadcasts_dir wallet_dir) txid in
  m_context ("failed to write queued broadcast meta: " +:+ meta_path.2)
    (write_file_secure meta_path (to_vec_pretty meta)).

Definition queued_aad (wallet_id : Uuid) (txid : string) : string :=
  "wallet_id=" +:+ wallet_id +:+ ";txid=" +:+ txid +:+ ";aead_scheme=xchacha20poly1305;v=1".

Definition initial_streak (class : option BroadcastErrorClass) : Z :=
  if bool_decide (class = Some BroadcastErrorClass.TransientTransport) then 1 else 0.

(** [nonce] and [offset_ms] are the random draws of the call. *)
Definition queue_broadcast (now : Z) (nonce : string) (offset_ms : Q)
    (wallet_id : Uuid) (wallet_dir wallet_dek txid tx_bytes : string)
    (last_error : option string) (last_error_class : option BroadcastErrorClass)
    (retryable : bool) : M QueueState unit :=
  let queue_dir := queued_broadcasts_dir wallet_dir in
  m_context ("failed to create queued broadcasts dir: " +:+ queue_dir)
    (create_dir_all_secure queue_dir) ;;
  ciphertext ← m_lift (ok_or (aead_encrypt wallet_dek nonce (queued_aad wallet_id txid) tx_bytes)
                        (AnyhowMsg "failed to encrypt queued tx"));
  let bin_path := queued_broadcast_bin_path queue_dir txid in
  m_context ("failed to write queued tx bytes: " +:+ bin_path.2)
    (write_file_secure bin_path (nonce +:+ ciphertext)) ;;
  created_at_ms ← m_lift (to_unix_ms now);
  let '(retryable, terminal_reason) := apply_retry_policy retryable 0 last_error_class None in
  let next_attempt_at_ms :=
    if retryable then Some (schedule_next_attempt_at_ms fl created_at_ms 0 offset_ms) else None in
  write_queued_broadcast_meta wallet_dir txid
    {| qm_created_at_ms := created_at_ms;
       qm_attempt_count := 0;
       qm_next_attempt_at_ms := next_attempt_at_ms;
       qm_last_attempt_at_ms := Some created_at_ms;
       qm_transport_failure_streak := initial_streak last_error_class;
       qm_retryable := retryable;
       qm_last_error_class := last_error_class;
       qm_terminal_reason := terminal_reason;
       qm_last_error := last_error |}.

Definition decrypt_queued_tx_bytes (wallet_id : Uuid) (wallet_dek : string) (bin_path : Path)
    : M QueueState string :=
  bytes ← m_context ("failed to read queued tx bytes: " +:+ bin_path.2) (fs_read bin_path);
  if (String.length bytes <? 24)%nat then m_err (AnyhowMsg "queued tx blob too short") else
  let nonce_bytes := take_string 24 bytes in
  let ciphertext := drop_string 24 bytes in
  let txid := (file_parts bin_path.2).1 in
  m_lift (ok_or (aead_decrypt wallet_dek nonce_bytes (queued_aad wallet_id txid) ciphertext)
           (AnyhowMsg "failed to decrypt queued tx")).

Definition delete_queued_broadcast (wallet_dir txid : string) : M QueueState unit :=
  let queue_dir := queued_broadcasts_dir wallet_dir in
  m_ignore (fs_remove_file (queued_broadcast_bin_path queue_dir txid)) ;;
  m_ignore (fs_remove_file (queued_broadcast_meta_path queue_dir txid)).

Definition fresh_meta (now_ms : Z) : QueuedBroadcastMeta :=
  mkMeta now_ms 0 None None 0 true None None None.

Definition update_queued_broadcast_error (now : Z) (offset_ms : Q) (wallet_dir txid : string)
    (last_error : option string) (last_error_class : option BroadcastErrorClass)
    (retryable : bool) (attempt_count transport_failure_streak : Z) : M QueueState unit :=
  let meta_path := queued_broadcast_meta_path (queued_broadcasts_dir wallet_dir) txid in
  read ← m_try (fs_read meta_path);
  (* the default is built eagerly, so a clock before the epoch fails here *)
  fresh ← m_lift (t ← to_unix_ms now; Ok (fresh_meta t));
  let existing :=
    match read with
    | Ok bytes => default fresh (from_slice bytes)
    | Err _ => fresh
    end in
  now_ms ← m_lift (to_unix_ms now);
  let '(retryable, terminal_reason) :=
    apply_retry_policy retryable attempt_count last_error_class (qm_terminal_reason existing) in
  write_queued_broadcast_meta wallet_dir txid
    {| qm_created_at_ms := qm_created_at_ms existing;
       qm_attempt_count := attempt_count;
       qm_next_attempt_at_ms :=
         if retryable then Some (schedule_next_attempt_at_ms fl now_ms attempt_count offset_ms)
         else None;
       qm_last_attempt_at_ms := Some now_ms;
       qm_transport_failure_streak := transport_failure_streak;
       qm_retryable := retryable;
       qm_last_error_class := last_error_class;
       qm_terminal_reason := terminal_reason;
       qm_last_error := last_error |}.

(** The writer used by the background jobs (job_service.rs): the same
    files, with the retry decision taken by the caller. *)
Definition queue_broadcast_for_retry (now_ms : Z) (nonce : string) (offset_ms : Q)
    (wallet_id : Uuid) (wallet_dir wallet_dek txid : string)
    (last_error : option string) (last_error_class : option BroadcastErrorClass)
    (retryable : bool) (tx_bytes : string) : M QueueState unit :=
  let queue_dir := queued_broadcasts_dir wallet_dir in
  create_dir_all_secure queue_dir ;;
  ciphertext ← m_lift (ok_or (aead_encrypt wallet_dek nonce (queued_aad wallet_id txid) tx_bytes)
                        (AnyhowMsg "failed to encrypt queued tx"));
  write_file_secure (queued_broadcast_bin_path queue_dir txid) (nonce +:+ ciphertext) ;;
  let next_attempt_at_ms :=
    if retryable then Some (schedule_next_attempt_at_ms fl now_ms 0 offset_ms) else None in
  write_file_secure (queued_broadcast_meta_path queue_dir txid)
    (to_vec_pretty
      {| qm_created_at_ms := now_ms;
         qm_attempt_count := 0;
         qm_next_attempt_at_ms := next_attempt_at_ms;
         qm_last_attempt_at_ms := Some now_ms;
         qm_transport_failure_streak := initial_streak last_error_class;
         qm_retryable := retryable;
         qm_last_error_class := last_error_class;
         qm_terminal_reason := None;
         qm_last_error := last_error |}).

(** ** Retry *)

(** What a retry touches: the queue, the application database, the events
    it emits and the trace of endpoints the transaction was sent to. *)
Record RetryEnv := mkRetryEnv {
  re_queue : QueueState;
  re_db : AppDb;
  re_events : list Event;
  re_sends : list string;
}.

Definition on_queue {A} (m : M QueueState A) : M RetryEnv A :=
  m_zoom re_queue (fun q e => mkRetryEnv q (re_db e) (re_events e) (re_sends e)) m.
Definition on_db {A} (m : M AppDb A) : M RetryEnv A :=
  m_zoom re_db (fun db e => mkRetryEnv (re_queue e) db (re_events e) (re_sends e)) m.
Definition emit (ev : Event) : M RetryEnv unit := m_modify (fun e =>
  mkRetryEnv (re_queue e) (re_db e) (re_events e ++ [ev])%list (re_sends e)).

(** [send n url bytes]: the outcome of the [n]-th gRPC call of this retry,
    [None] when the time-out fires first. *)
Context (send : nat -> string -> string -> option (result unit)).
Context (url_parse : string -> Url + ParseError) (debug : bool) (probe_ok : string -> bool).

Definition send_transaction_bytes (grpc_url tx_bytes : string) : M RetryEnv unit := fun e =>
  let r := send_with_timeout (send (length (re_sends e)) grpc_url tx_bytes) in
  let e' := mkRetryEnv (re_queue e) (re_db e) (re_events e) (re_sends e ++ [grpc_url])%list in
  match r with
  | Ok _ => (Ok tt, e')
  | Err err =>
      if is_effective_success_broadcast_error (error_chain err) then (Ok tt, e')
      else (Err err, e')
  end.

Definition next_streak (class : BroadcastErrorClass) (streak : Z) : Z :=
  if bool_decide (class = BroadcastErrorClass.TransientTransport)
  then u32_saturating_add streak 1 else 0.

(** One turn of the retry [loop]: [inl] continues with a new target,
    attempt count and streak; [inr] leaves the loop, with the error of a
    failed retry. *)
Definition retry_step (now : Z) (offset_ms : Q) (network : Network) (on_failover : bool)
    (wallet_dir txid tx_bytes : string) (st : string * Z * Z)
    : M RetryEnv ((string * Z * Z) + option error) :=
  let '(grpc_target, attempt_count, streak) := st in
  sent ← m_try (send_transaction_bytes grpc_target tx_bytes);
  match sent with
  | Ok _ => on_queue (delete_queued_broadcast wallet_dir txid) ;; mret (inr None)
  | Err err =>
      let err_msg := error_chain err in
      let err_class := classify_broadcast_error_message err_msg in
      let attempt_count := u32_saturating_add attempt_count 1 in
      let '(retryable, _) :=
        apply_retry_policy (is_retryable_broadcast_error_class err_class) attempt_count
          (Some err_class) None in
      let streak := next_streak err_class streak in
      let reason := "broadcast transport failure streak " +:+ uint_to_string streak
                    +:+ ": " +:+ err_msg in
      switched ←
        (if bool_decide (err_class = BroadcastErrorClass.TransientTransport)
            && should_trigger_failover streak
         then on_db (try_failover_server url_parse debug probe_ok (to_unix_ms now) network
                       grpc_target reason)
         else mret None);
      '(grpc_target, streak, performed) ←
        (match switched with
         | Some (next_grpc_url, ev) =>
             (if on_failover then emit (ServerFailover ev) else mret tt) ;;
             mret (next_grpc_url, 0, true)
         | None => mret (grpc_target, streak, false)
         end);
      if retryable && performed then mret (inl (grpc_target, attempt_count, streak))
      else
        on_queue (update_queued_broadcast_error now offset_ms wallet_dir txid (Some err_msg)
                    (Some err_class) retryable attempt_count streak) ;;
        mret (inr (Some err))
  end.

(** The [loop]; [None] is reserved for running out of fuel. *)
Fixpoint retry_loop (fuel : nat) (now : Z) (offset_ms : Q) (network : Network)
    (on_failover : bool) (wallet_dir txid tx_bytes : string) (st : string * Z * Z)
    : M RetryEnv (option (option error)) :=
  match fuel with
  | O => mret None
  | S fuel' =>
      r ← retry_step now offset_ms network on_failover wallet_dir txid tx_bytes st;
      match r with
      | inr out => mret (Some out)
      | inl st' => retry_loop fuel' now offset_ms network on_failover wallet_dir txid tx_bytes st'
      end
  end.

(** *** Who may spend *)

Definition ensure_spend_allowed_conn (wallet_id : Uuid) (account_id : Z) : M AppDb unit :=
  required ← get_backup_required wallet_id;
  if default true required then m_err (ipc_err errors.BACKUP_REQUIRED "backup required") else
  ty ← get_account_type_text wallet_id account_id;
  match ty with
  | None => m_err (ipc_err errors.ACCOUNT_NOT_FOUND "account not found")
  | Some account_type =>
      if bool_decide (account_type = "HardwareSigner") || bool_decide (account_type = "WatchOnly")
      then m_err (ipc_err errors.WATCH_ONLY_CANNOT_SPEND "watch-only accounts cannot spend")
      else mret tt
  end.

(** [hex_ok]: [hex::decode] accepts the id.  [sender]: the account of the
    wallet database that sent the transaction.  [history]: the result of
    [list_transactions], asked for when a handler is installed.  [now1]
    to [now3] are the clock readings of the two scans and of the update. *)
Definition retry_broadcast (hex_ok : string -> bool) (sender : string -> result (option Z))
    (history : result (list TransactionInfo)) (now1 now2 now3 : Z) (offset_ms : Q)
    (wallet_id : Uuid) (network : Network) (wallet_dir wallet_dek grpc_url txid : string)
    (on_tx_changed on_failover : bool) (fuel : nat) : M RetryEnv string :=
  on_queue (scan_queued_broadcasts now1 wallet_id wallet_dir) ;;
  (if hex_ok txid then mret tt
   else m_err (ipc_err errors.TRANSACTION_FAILED "invalid txid hex")) ;;
  found ← m_lift (sender txid);
  account_id ← m_lift (ok_or found
    (ipc_err errors.QUEUED_BROADCAST_NOT_FOUND "queued broadcast not found"));
  let account_id_u32 := Z.max account_id 0 mod 2 ^ 32 in
  on_db (ensure_spend_allowed_conn wallet_id account_id_u32) ;;
  e ← m_get;
  entry ← m_lift (ok_or (m ← q_mem (re_queue e) !! wallet_id; m !! txid)
    (ipc_err errors.QUEUED_BROADCAST_NOT_FOUND "queued broadcast not found"));
  (if qm_retryable (qe_meta entry) then mret tt
   else m_err (ipc_err errors.TRANSACTION_FAILED
                "broadcast failure is terminal and cannot be retried")) ;;
  tx_bytes ← on_queue (decrypt_queued_tx_bytes wallet_id wallet_dek (qe_bin_path entry));
  out ← retry_loop fuel now2 offset_ms network on_failover wallet_dir txid tx_bytes
          (grpc_url, qm_attempt_count (qe_meta entry), qm_transport_failure_streak (qe_meta entry));
  match out with
  | None => m_err (AnyhowMsg "out of fuel")
  | Some retry_failed_error =>
      on_queue (scan_queued_broadcasts now3 wallet_id wallet_dir) ;;
      (if on_tx_changed then
         transactions ← m_lift history;
         match find_first (fun t => bool_decide (ti_txid t = txid)) transactions with
         | Some info => emit (TransactionChangedEvent info)
         | None => mret tt
         end
       else mret tt) ;;
      match retry_failed_error with
      | None => mret txid
      | Some err => m_err err
      end
  end.
End Queue.

(** ** File names *)

Lemma file_parts_json stem :
  stem <> "" -> file_parts (stem +:+ ".json") = (stem, Some "json").
Proof.
  intros Hne. unfold file_parts. rewrite string_rev_app.
  change (String.rev ".json") with "nosj.".
  cbn [split_once Ascii.eqb Bool.eqb String.append].
  assert (is_empty (String.rev stem) = false) as Hemp.
  { destruct (String.rev stem) eqn:E; [|done]. by apply (proj1 (string_rev_empty stem)) in E. }
  repeat rewrite string_app_cons. rewrite string_app_nil_l. simpl.
  rewrite Hemp, string_rev_involutive. done.
Qed.

Lemma file_parts_json_inv name stem :
  file_parts name = (stem, Some "json") -> name = stem +:+ ".json" /\ stem <> "".
Proof.
  unfold file_parts. destruct (split_once _ _) as [[ext rstem]|] eqn:E; [|done].
  apply split_once_Some in E.
  destruct (is_empty rstem) eqn:Er; [done|]. intros [= <- Hext]. split.
  - rewrite <- (string_rev_involutive name), E, string_rev_app, string_rev_cons.
    rewrite string_app_assoc, Hext. done.
  - intros Hz. apply (f_equal String.rev) in Hz. rewrite string_rev_involutive in Hz. by subst.
Qed.

Lemma json_not_bin a b : a +:+ ".json" <> b +:+ ".bin".
Proof.
  intros H. apply (f_equal String.rev) in H. rewrite !string_rev_app in H.
  change (String.rev ".json") with "nosj." in H. change (String.rev ".bin") with "nib." in H.
  by repeat rewrite string_app_cons in H.
Qed.

Lemma file_parts_bin stem : stem <> "" -> file_parts (stem +:+ ".bin") = (stem, Some "bin").
Proof.
  intros Hne. unfold file_parts. rewrite string_rev_app. change (String.rev ".bin") with "nib.".
  repeat rewrite string_app_cons. rewrite string_app_nil_l. simpl.
  assert (is_empty (String.rev stem) = false) as ->.
  { destruct (String.rev stem) eqn:E; [|done]. by apply (proj1 (string_rev_empty stem)) in E. }
  by rewrite string_rev_involutive.
Qed.

(** ** The scan computes a function of the directory *)

Section ScanSpec.
Context (from_slice : string -> option QueuedBroadcastMeta) (dir : string) (now now_ms : Z).

(** What one scan keeps of the files of transaction [stem]. *)
Definition live_entry (files : gmap string string) (stem : string) : option QueuedBroadcastEntry :=
  meta_bytes ← files !! (stem +:+ ".json");
  parsed ← from_slice meta_bytes;
  let meta := normalize_queued_broadcast_meta parsed now_ms in
  _ ← files !! (stem +:+ ".bin");
  if retention_expired now meta then None
  else Some (mkEntry (queued_broadcast_bin_path dir stem) meta).

Definition add_live (files : gmap string string) (entries : gmap string QueuedBroadcastEntry)
    (stem : string) : gmap string QueuedBroadcastEntry :=
  match live_entry files stem with Some e => <[stem := e]> entries | None => entries end.

Definition scanned (files : gmap string string) (entries : gmap string QueuedBroadcastEntry)
    (name : string) : gmap string QueuedBroadcastEntry :=
  match file_parts name with
  | (stem, Some "json") => add_live files entries stem
  | _ => entries
  end.

Lemma scanned_json files acc stem :
  stem <> "" -> scanned files acc (stem +:+ ".json") = add_live files acc stem.
Proof using Type. intros. unfold scanned. by rewrite file_parts_json. Qed.

Lemma scanned_ext files acc name stem oext :
  file_parts name = (stem, oext) -> oext <> Some "json" -> scanned files acc name = acc.
Proof using Type.
  intros Hp Hx. unfold scanned. rewrite Hp. destruct oext as [e|]; [|done].
  destruct e; [done|]. repeat case_match; try done; by subst.
Qed.

Lemma scanned_other files acc name stem :
  name <> stem +:+ ".json" -> scanned files acc name !! stem = acc !! stem.
Proof using Type.
  intros Hdiff. destruct (file_parts name) as [s oext] eqn:Ep.
  destruct (decide (oext = Some "json")) as [->|Hx]; [|by erewrite scanned_ext].
  apply file_parts_json_inv in Ep as [-> Hs]. rewrite scanned_json by done. unfold add_live.
  destruct (live_entry files s); [|done]. rewrite lookup_insert_ne; [done|]. by intros ->.
Qed.

Lemma live_entry_frame files files' stem :
  files' !! (stem +:+ ".json") = files !! (stem +:+ ".json") ->
  files' !! (stem +:+ ".bin") = files !! (stem +:+ ".bin") ->
  live_entry files' stem = live_entry files stem.
Proof using Type. intros H1 H2. unfold live_entry. by rewrite H1, H2. Qed.

(** Without I/O failures, [fs_remove_file] of an existing file deletes it. *)
Lemma remove_quiet q files name x :
  q_faults q = [] -> q_disk q !! dir = Some files -> files !! name = Some x ->
  fs_remove_file (dir, name) q = (Ok tt, q_set_disk q (<[dir := delete name files]> (q_disk q))).
Proof using Type.
  intros Hf Hd Hx. unfold fs_remove_file, mbind, M_bind, fs_call, m_get, m_put. rewrite Hf.
  unfold file_at. simpl. rewrite Hd. simpl. rewrite Hx.
  by rewrite (alter_lookup_Some _ _ _ _ Hd).
Qed.

Lemma scan_entry_step q files acc name :
  q_faults q = [] -> q_disk q !! dir = Some files ->
  exists files',
    scan_entry from_slice dir now now_ms acc name q
      = (Ok (scanned files acc name),
         q_set_disk q (<[dir := files']> (q_disk q)))
    /\ (forall f, files' !! f = files !! f \/
          exists stem, file_parts name = (stem, Some "json") /\ live_entry files stem = None
            /\ (f = stem +:+ ".json" \/ f = stem +:+ ".bin")).
Proof using Type.
  intros Hf Hd. unfold scan_entry.
  assert (q_set_disk q (<[dir := files]> (q_disk q)) = q) as Hid
    by (unfold q_set_disk; rewrite insert_id by done; by destruct q).
  destruct (file_parts name) as [stem oext] eqn:Ep.
  destruct (decide (oext = Some "json")) as [->|Hext].
  2:{ exists files. rewrite Hid, (scanned_ext _ _ _ _ _ Ep Hext). split; [|by left].
      destruct oext as [e|]; [|done]. destruct e; [done|].
      repeat case_match; try done; by subst. }
  destruct (file_parts_json_inv _ _ Ep) as [-> Hne]. rewrite scanned_json by done.
  assert (is_empty stem = false) as -> by (destruct stem; done).
  unfold add_live, live_entry.
  unfold mbind, M_bind, m_try, fs_read, m_ignore, m_get, m_lift, mret, M_ret. unfold fs_call at 1.
  unfold fs_call at 1. unfold mbind, M_bind. rewrite Hf. unfold file_at. simpl. rewrite Hd. simpl.
  destruct (files !! (stem +:+ ".json")) as [b|] eqn:Hj; simpl.
  2:{ exists files. rewrite Hid. split; [done|by left]. }
  destruct (from_slice b) as [m0|] eqn:Hm; simpl.
  2:{ exists (delete (stem +:+ ".json") files). rewrite (remove_quiet _ _ _ _ Hf Hd Hj).
      split; [done|]. intros f. destruct (decide (f = stem +:+ ".json")) as [->|].
      - right. exists stem. by rewrite Hj, ?Hm; simpl; rewrite ?Hm; auto.
      - left. by rewrite lookup_delete_ne. }
  rewrite Hd. simpl.
  destruct (files !! (stem +:+ ".bin")) as [bb|] eqn:Hb; simpl.
  2:{ exists (delete (stem +:+ ".json") files). rewrite (remove_quiet _ _ _ _ Hf Hd Hj).
      split; [done|]. intros f. destruct (decide (f = stem +:+ ".json")) as [->|].
      - right. exists stem. rewrite Hj; simpl. rewrite Hm; simpl. rewrite Hb. auto.
      - left. by rewrite lookup_delete_ne. }
  destruct (retention_expired now _) eqn:Hret; simpl.
  2:{ exists files. rewrite Hid. split; [done|by left]. }
  unfold queued_broadcast_bin_path. rewrite (remove_quiet _ _ _ _ Hf Hd Hb). simpl.
  rewrite (remove_quiet _ (delete (stem +:+ ".bin") files) (stem +:+ ".json") b); simpl;
    [|done|by rewrite lookup_insert_eq
     |rewrite lookup_delete_ne by (intros Hx; by apply (json_not_bin stem stem)); done].
  eexists. split.
  - unfold q_set_disk; simpl. by rewrite insert_insert_eq.
  - intros f. destruct (decide (f = stem +:+ ".json")) as [->|];
      [|destruct (decide (f = stem +:+ ".bin")) as [->|]].
    1,2: right; exists stem; rewrite Hj; simpl; rewrite Hm; simpl; rewrite Hb; simpl; rewrite Hret; auto.
    left. by rewrite !lookup_delete_ne.
Qed.

(** A step leaves alone the files of every transaction but a dead one that
    it is processing. *)
Lemma step_frame (files files' : gmap string string) name stem :
  (forall f, files' !! f = files !! f \/
     exists s, file_parts name = (s, Some "json") /\ live_entry files s = None
       /\ (f = s +:+ ".json" \/ f = s +:+ ".bin")) ->
  stem <> "" -> name <> stem +:+ ".json" \/ is_Some (live_entry files stem) ->
  files' !! (stem +:+ ".json") = files !! (stem +:+ ".json")
  /\ files' !! (stem +:+ ".bin") = files !! (stem +:+ ".bin").
Proof using Type.
  intros Hfr Hne Hsafe.
  assert (forall s, file_parts name = (s, Some "json") -> live_entry files s = None -> s <> stem)
    as Hdiff.
  { intros s Hp Hl ->. apply file_parts_json_inv in Hp as [-> _].
    destruct Hsafe as [|[e He]]; [done|congruence]. }
  split.
  - destruct (Hfr (stem +:+ ".json")) as [|(s & Hp & Hl & [E|E])]; [done| |].
    + apply string_app_inj_r in E. by destruct (Hdiff s).
    + by apply json_not_bin in E.
  - destruct (Hfr (stem +:+ ".bin")) as [|(s & Hp & Hl & [E|E])]; [done| |].
    + symmetry in E. by apply json_not_bin in E.
    + apply string_app_inj_r in E. by destruct (Hdiff s).
Qed.

Lemma scan_fold names q (files : gmap string string) acc :
  NoDup names -> q_faults q = [] -> q_disk q !! dir = Some files ->
  exists files' entries',
    m_fold (scan_dir_entry from_slice dir now now_ms) acc names q
      = (Ok entries', q_set_disk q (<[dir := files']> (q_disk q)))
    /\ (forall stem, stem <> "" ->
          entries' !! stem
          = (if decide (stem +:+ ".json" ∈ names) then live_entry files stem else None)
            ∪ acc !! stem)
    /\ (forall stem, stem <> "" -> is_Some (live_entry files stem) ->
          files' !! (stem +:+ ".json") = files !! (stem +:+ ".json")
          /\ files' !! (stem +:+ ".bin") = files !! (stem +:+ ".bin")).
Proof using Type.
  intros Hnd Hf. revert q files acc Hf.
  induction Hnd as [|name names Hn Hnd IH]; intros q files acc Hf Hd.
  - exists files, acc. simpl. split; [|split].
    + unfold mret, M_ret, q_set_disk. rewrite insert_id by done. by destruct q.
    + intros stem _. by destruct (acc !! stem).
    + done.
  - destruct (scan_entry_step q files acc name Hf Hd) as (files1 & Hs & Hfr).
    set (acc1 := scanned files acc name) in Hs.
    destruct (IH (q_set_disk q (<[dir := files1]> (q_disk q))) files1 acc1)
      as (files' & entries' & Hfold & Hent & Hkeep); [done|simpl; by rewrite lookup_insert_eq|].
    exists files', entries'. split; [|split].
    + cbn [m_fold]. rewrite m_bind_eq.
      assert (scan_dir_entry from_slice dir now now_ms acc name q
              = scan_entry from_slice dir now now_ms acc name q) as ->
        by (unfold scan_dir_entry; rewrite m_bind_eq; unfold fs_call at 1; by rewrite Hf).
      rewrite Hs, Hfold.
      unfold q_set_disk. simpl. by rewrite insert_insert_eq.
    + intros stem Hne. rewrite (Hent stem Hne).
      destruct (decide (name = stem +:+ ".json")) as [->|Hdiff].
      * rewrite decide_False by done. rewrite decide_True by left.
        unfold acc1. rewrite scanned_json by done. unfold add_live.
        destruct (live_entry files stem) as [e|]; [|done].
        rewrite lookup_insert_eq. by destruct (acc !! stem).
      * destruct (step_frame files files1 name stem Hfr Hne ltac:(by left)) as [H1 H2].
        rewrite (live_entry_frame files files1 stem H1 H2).
        assert (acc1 !! stem = acc !! stem) as -> by (by apply scanned_other).
        f_equal. destruct (decide (stem +:+ ".json" ∈ names)) as [Hin|Hin].
        -- by rewrite decide_True by (by right).
        -- rewrite decide_False; [done|]. intros [Heq|]%elem_of_cons; [|done]. by apply Hdiff.
    + intros stem Hne Hlive.
      destruct (step_frame files files1 name stem Hfr Hne ltac:(by right)) as [H1 H2].
      destruct (Hkeep stem Hne) as [H3 H4].
      { by rewrite (live_entry_frame files files1 stem H1 H2). }
      by rewrite H3, H4, H1, H2.
Qed.
End ScanSpec.

(** Without I/O failures, the index built by a scan is exactly the set of
    live transactions of the directory, and their files survive. *)
Lemma scan_exact from_slice now now_ms wallet_id wallet_dir q (files : gmap string string) :
  q_faults q = [] -> to_unix_ms now = Ok now_ms ->
  q_disk q !! queued_broadcasts_dir wallet_dir = Some files ->
  exists q' entries,
    scan_queued_broadcasts from_slice now wallet_id wallet_dir q = (Ok tt, q')
    /\ q_faults q' = [] /\ q_mem q' = <[wallet_id := entries]> (q_mem q)
    /\ (forall stem, stem <> "" ->
          entries !! stem = live_entry from_slice (queued_broadcasts_dir wallet_dir) now now_ms files stem)
    /\ (forall stem, stem <> "" -> is_Some (entries !! stem) ->
          file_at q' (queued_broadcast_bin_path (queued_broadcasts_dir wallet_dir) stem)
          = file_at q (queued_broadcast_bin_path (queued_broadcasts_dir wallet_dir) stem)
          /\ file_at q' (queued_broadcast_meta_path (queued_broadcasts_dir wallet_dir) stem)
             = file_at q (queued_broadcast_meta_path (queued_broadcasts_dir wallet_dir) stem)).
Proof.
  intros Hf Ht Hd. set (dir := queued_broadcasts_dir wallet_dir) in *.
  destruct (scan_fold from_slice dir now now_ms (map fst (map_to_list files)) q files ∅)
    as (files' & entries & Hfold & Hent & Hkeep); [apply NoDup_fst_map_to_list|done|done|].
  assert (forall stem, stem <> "" -> entries !! stem = live_entry from_slice dir now now_ms files stem)
    as Hlive.
  { intros stem Hne. rewrite (Hent stem Hne), lookup_empty.
    destruct (decide (stem +:+ ".json" ∈ map fst (map_to_list files))) as [|Hnot].
    - by destruct (live_entry _ _ _ _ _ _).
    - destruct (live_entry from_slice dir now now_ms files stem) as [e|] eqn:E; [|done].
      exfalso. apply Hnot. unfold live_entry in E.
      destruct (files !! (stem +:+ ".json")) as [b|] eqn:Eb; [|done].
      apply list_elem_of_fmap. exists (stem +:+ ".json", b). split; [done|].
      by apply elem_of_map_to_list. }
  eexists _, entries. split; [|split; [|split; [|split]]].
  - unfold scan_queued_broadcasts. fold dir. unfold mbind, M_bind, m_get, m_lift, m_context, m_modify.
    rewrite Hd, Ht. unfold fs_call at 1 2. rewrite Hf. simpl. rewrite Hfold. reflexivity.
  - done.
  - done.
  - done.
  - intros stem Hne Hs. rewrite Hlive in Hs by done.
    destruct (Hkeep stem Hne Hs) as [Hj Hb].
    unfold file_at. simpl. rewrite lookup_insert_eq, Hd. simpl. done.
Qed.

(** ** Writing without I/O failures *)

Lemma create_dir_quiet dir q :
  q_faults q = [] ->
  create_dir_all_secure dir q
  = (Ok tt, q_set_disk q (<[dir := default ∅ (q_disk q !! dir)]> (q_disk q))).
Proof.
  intros Hf. unfold create_dir_all_secure, mbind, M_bind, fs_call, m_get, m_put. rewrite Hf.
  destruct (q_disk q !! dir) as [files|] eqn:Hd; [|done]. simpl. unfold q_set_disk.
  rewrite insert_id by done. by destruct q.
Qed.

Lemma write_file_quiet dir name contents q (files : gmap string string) :
  q_faults q = [] -> q_disk q !! dir = Some files ->
  write_file_secure (dir, name) contents q
  = (Ok tt, q_set_disk q (<[dir := <[name := contents]> files]> (q_disk q))).
Proof.
  intros Hf Hd. unfold write_file_secure, mbind, M_bind, fs_call, m_get, m_put. rewrite Hf. simpl.
  rewrite Hd. by rewrite (alter_lookup_Some _ _ _ _ Hd).
Qed.

Lemma read_quiet p q : q_faults q = [] -> fs_read p q = (ok_or (file_at q p) io_error, q).
Proof. intros Hf. unfold fs_read, mbind, M_bind, fs_call, m_get, m_lift. by rewrite Hf. Qed.

#[local] Arguments take_string : simpl never.
#[local] Arguments drop_string : simpl never.

Section WriteSpec.
Context (to_vec_pretty : QueuedBroadcastMeta -> string)
        (from_slice : string -> option QueuedBroadcastMeta)
        (aead_encrypt aead_decrypt : string -> string -> string -> string -> option string)
        (fl : Q -> Q).

(** The two files of a queued transaction. *)
Definition queued_files (q : QueueState) (wallet_dir txid blob : string)
    (meta : QueuedBroadcastMeta) (q' : QueueState) : Prop :=
  let dir := queued_broadcasts_dir wallet_dir in
  q' = q_set_disk q (<[dir := <[txid +:+ ".json" := to_vec_pretty meta]>
         (<[txid +:+ ".bin" := blob]> (default ∅ (q_disk q !! dir)))]> (q_disk q)).

Lemma queue_broadcast_files now now_ms nonce off w wdir dek txid tx err c r ct q :
  q_faults q = [] -> to_unix_ms now = Ok now_ms ->
  aead_encrypt dek nonce (queued_aad w txid) tx = Some ct ->
  let '(r', reason) := apply_retry_policy r 0 c None in
  exists q',
    queue_broadcast to_vec_pretty aead_encrypt fl now nonce off w wdir dek txid tx err c r q
      = (Ok tt, q')
    /\ queued_files q wdir txid (nonce +:+ ct)
        (mkMeta now_ms 0
           (if r' then Some (schedule_next_attempt_at_ms fl now_ms 0 off) else None)
           (Some now_ms) (initial_streak c) r' c reason err) q'.
Proof using Type.
  intros Hf Ht Hct. destruct (apply_retry_policy r 0 c None) as [r' reason] eqn:HP.
  unfold queue_broadcast, write_queued_broadcast_meta, mbind, M_bind, m_context, m_lift.
  rewrite create_dir_quiet by done. rewrite Hct. simpl. unfold queued_broadcast_bin_path.
  rewrite (write_file_quiet _ _ _ _ (default ∅ (q_disk q !! queued_broadcasts_dir wdir)))
    by (simpl; rewrite ?lookup_insert_eq; done).
  simpl. rewrite Ht, HP. unfold queued_broadcast_meta_path.
  erewrite write_file_quiet; [|done|simpl; by rewrite lookup_insert_eq].
  eexists. split; [reflexivity|]. unfold queued_files, q_set_disk. simpl.
  by rewrite !insert_insert_eq.
Qed.

Lemma queue_for_retry_files now_ms nonce off w wdir dek txid tx err c r ct q :
  q_faults q = [] -> aead_encrypt dek nonce (queued_aad w txid) tx = Some ct ->
  exists q',
    queue_broadcast_for_retry to_vec_pretty aead_encrypt fl now_ms nonce off w wdir dek txid err c r tx q
      = (Ok tt, q')
    /\ queued_files q wdir txid (nonce +:+ ct)
        (mkMeta now_ms 0
           (if r then Some (schedule_next_attempt_at_ms fl now_ms 0 off) else None)
           (Some now_ms) (initial_streak c) r c None err) q'.
Proof using Type.
  intros Hf Hct. unfold queue_broadcast_for_retry, mbind, M_bind, m_lift.
  rewrite create_dir_quiet by done. rewrite Hct. simpl. unfold queued_broadcast_bin_path.
  rewrite (write_file_quiet _ _ _ _ (default ∅ (q_disk q !! queued_broadcasts_dir wdir)))
    by (simpl; rewrite ?lookup_insert_eq; done).
  unfold queued_broadcast_meta_path.
  erewrite write_file_quiet; [|done|simpl; by rewrite lookup_insert_eq].
  eexists. split; [reflexivity|]. unfold queued_files, q_set_disk. simpl.
  by rewrite !insert_insert_eq.
Qed.

(** *** Documented behaviour of the libraries *)
Context (serde_ok : forall m, from_slice (to_vec_pretty m) = Some m).
Context (aead_ok : forall k n a m c, aead_encrypt k n a m = Some c -> aead_decrypt k n a c = Some m).

(** A queued transaction found by a later scan, with its bytes. *)
Lemma queued_files_recovered now2 now2_ms w wdir dek txid tx nonce ct meta q q1 :
  q_faults q = [] -> to_unix_ms now2 = Ok now2_ms -> txid <> "" -> String.length nonce = 24%nat ->
  aead_encrypt dek nonce (queued_aad w txid) tx = Some ct ->
  queued_files q wdir txid (nonce +:+ ct) meta q1 ->
  retention_expired now2 (normalize_queued_broadcast_meta meta now2_ms) = false ->
  exists q2 entries,
    scan_queued_broadcasts from_slice now2 w wdir q1 = (Ok tt, q2)
    /\ q_mem q2 = <[w := entries]> (q_mem q)
    /\ entries !! txid = Some (mkEntry (queued_broadcast_bin_path (queued_broadcasts_dir wdir) txid)
                                 (normalize_queued_broadcast_meta meta now2_ms))
    /\ decrypt_queued_tx_bytes aead_decrypt w dek
         (queued_broadcast_bin_path (queued_broadcasts_dir wdir) txid) q2 = (Ok tx, q2).
Proof using aead_ok serde_ok.
  intros Hf Ht Hne Hn Hct Hq Hret. unfold queued_files in Hq.
  set (dir := queued_broadcasts_dir wdir) in *.
  set (files := <[txid +:+ ".json" := _]> _) in Hq.
  assert (q_disk q1 !! dir = Some files) as Hd by (subst q1; simpl; by rewrite lookup_insert_eq).
  assert (files !! (txid +:+ ".bin") = Some (nonce +:+ ct)) as Hb.
  { unfold files. rewrite lookup_insert_ne by (apply json_not_bin). by rewrite lookup_insert_eq. }
  assert (files !! (txid +:+ ".json") = Some (to_vec_pretty meta)) as Hj
    by (unfold files; by rewrite lookup_insert_eq).
  destruct (scan_exact from_slice now2 now2_ms w wdir q1 files)
    as (q2 & entries & Hs & Hf2 & Hm & Hlive & Hkeep); [by subst q1|done|done|].
  fold dir in Hlive, Hkeep.
  assert (entries !! txid = Some (mkEntry (queued_broadcast_bin_path dir txid)
                                    (normalize_queued_broadcast_meta meta now2_ms))) as He.
  { rewrite (Hlive txid Hne). unfold live_entry. rewrite Hj, Hb. simpl.
    rewrite serde_ok. simpl. by rewrite Hret. }
  exists q2, entries. split; [done|]. split; [by rewrite Hm; subst q1|]. split; [done|].
  unfold decrypt_queued_tx_bytes, mbind, M_bind, m_context.
  rewrite read_quiet by done. rewrite (proj1 (Hkeep txid Hne ltac:(eauto))).
  unfold file_at. simpl. rewrite Hd. simpl. rewrite Hb. simpl.
  assert ((String.length (nonce +:+ ct) <? 24)%nat = false) as ->
    by (apply Nat.ltb_ge; rewrite string_length_app; lia).
  rewrite take_string_app by done. rewrite <- Hn at 1. rewrite drop_string_app.
  unfold queued_broadcast_bin_path. simpl. rewrite file_parts_bin by done. simpl.
  unfold m_lift. by rewrite (aead_ok _ _ _ _ _ Hct).
Qed.

(** The entry both writers aim for. *)
Definition queued_meta (now_ms : Z) (off : Q) (err : option string)
    (c : option BroadcastErrorClass) (r : bool) (reason : option string) : QueuedBroadcastMeta :=
  mkMeta now_ms 0 (if r then Some (schedule_next_attempt_at_ms fl now_ms 0 off) else None)
    (Some now_ms) (initial_streak c) r c reason err.

Definition may_retry (c : option BroadcastErrorClass) : bool :=
  match c with Some k => is_retryable_broadcast_error_class k | None => true end.

Lemma apply_retry_policy_first r c t : (apply_retry_policy r 0 c t).1 = r && may_retry c.
Proof using Type. by destruct r, c as [[]|], t. Qed.

(** Deciding when writing or when scanning gives the same entry. *)
Lemma queued_meta_normalize now_ms off err c r t :
  let '(r', reason) := apply_retry_policy r 0 c None in
  normalize_queued_broadcast_meta (queued_meta now_ms off err c r' reason) t
  = normalize_queued_broadcast_meta (queued_meta now_ms off err c r None) t.
Proof using Type.
  destruct (apply_retry_policy r 0 c None) as [r' reason] eqn:HP.
  unfold normalize_queued_broadcast_meta, queued_meta. simpl.
  destruct c as [k|].
  - assert (effective_class (Some k) err = Some k) as -> by (by destruct err).
    rewrite (apply_retry_policy_idempotent _ _ _ _ _ _ HP), HP. f_equal.
    destruct r'; [|done]. by apply apply_retry_policy_true in HP as [-> _].
  - by destruct r; injection HP as <- <-.
Qed.

Lemma queued_meta_retryable now_ms off err c r t :
  qm_retryable (normalize_queued_broadcast_meta (queued_meta now_ms off err c r None) t)
  = r && may_retry (effective_class c err).
Proof using Type.
  unfold normalize_queued_broadcast_meta, queued_meta. simpl.
  rewrite <- (apply_retry_policy_first r _ None). by destruct (apply_retry_policy _ _ _ _).
Qed.

Lemma retention_fresh now2 now_ms m t :
  qm_created_at_ms m = now_ms -> 0 <= now_ms ->
  now2 - now_ms * 1000000 <= QUEUED_BROADCAST_RETENTION ->
  retention_expired now2 (normalize_queued_broadcast_meta m t) = false.
Proof using Type.
  intros Hm H0 H. unfold retention_expired.
  assert (qm_created_at_ms (normalize_queued_broadcast_meta m t) = now_ms) as ->.
  { unfold normalize_queued_broadcast_meta. by destruct (apply_retry_policy _ _ _ _). }
  apply Z.ltb_ge. unfold QUEUED_BROADCAST_RETENTION in *. lia.
Qed.

Lemma to_unix_ms_nonneg t ms : to_unix_ms t = Ok ms -> 0 <= ms.
Proof using Type.
  unfold to_unix_ms. destruct (t <? 0) eqn:E; [done|]. case_match; [|done].
  intros [= <-]. breflect. by apply Z.div_pos.
Qed.

(** The process after a restart: the files, and no index. *)
Definition restarted (q : QueueState) : QueueState := mkQueueState (q_disk q) [] ∅.

Definition indexed (q : QueueState) (w txid : string) : option QueuedBroadcastEntry :=
  entries ← q_mem q !! w; entries !! txid.

(** What a scan after a restart makes of the two files. *)
Lemma restart_recovers now2 now2_ms w wdir dek txid tx nonce ct meta q q1 :
  q_faults q = [] -> to_unix_ms now2 = Ok now2_ms -> txid <> "" -> String.length nonce = 24%nat ->
  aead_encrypt dek nonce (queued_aad w txid) tx = Some ct ->
  queued_files q wdir txid (nonce +:+ ct) meta q1 ->
  0 <= qm_created_at_ms meta ->
  now2 - qm_created_at_ms meta * 1000000 <= QUEUED_BROADCAST_RETENTION ->
  let path := queued_broadcast_bin_path (queued_broadcasts_dir wdir) txid in
  exists q2,
    scan_queued_broadcasts from_slice now2 w wdir (restarted q1) = (Ok tt, q2)
    /\ indexed q2 w txid = Some (mkEntry path (normalize_queued_broadcast_meta meta now2_ms))
    /\ decrypt_queued_tx_bytes aead_decrypt w dek path q2 = (Ok tx, q2).
Proof using aead_ok serde_ok.
  intros Hf Ht Hne Hn Hct Hq H0 Hret path.
  destruct (queued_files_recovered now2 now2_ms w wdir dek txid tx nonce ct meta
              (restarted q) (restarted q1)) as (q2 & entries & Hs & Hm & He & Hdec); try done.
  - unfold queued_files in *. by subst q1.
  - by eapply retention_fresh.
  - exists q2. split; [done|]. split; [|done]. unfold indexed. rewrite Hm, lookup_insert_eq. done.
Qed.
End WriteSpec.

(** C7. A queued broadcast survives a restart.  After [queue_broadcast], a
    process that starts again with an empty index and scans the queue within
    the retention period finds the transaction, decrypts exactly the bytes
    that were queued, and holds a coherent entry with no attempt spent; the
    entry is retryable exactly when the caller said so and the (recorded or
    recovered) error class allows it. *)
Theorem queued_broadcast_survives_restart
    (to_vec_pretty : QueuedBroadcastMeta -> string) (from_slice : string -> option QueuedBroadcastMeta)
    (aead_encrypt aead_decrypt : string -> string -> string -> string -> option string) (fl : Q -> Q)
    (now now_ms now2 now2_ms : Z) (nonce : string) (off : Q) (w wdir dek txid tx : string)
    (err : option string) (c : option BroadcastErrorClass) (r : bool) (ct : string) (q : QueueState) :
  (forall m, from_slice (to_vec_pretty m) = Some m) ->
  (forall k n a m c, aead_encrypt k n a m = Some c -> aead_decrypt k n a c = Some m) ->
  q_faults q = [] -> txid <> "" -> String.length nonce = 24%nat ->
  aead_encrypt dek nonce (queued_aad w txid) tx = Some ct ->
  to_unix_ms now = Ok now_ms -> to_unix_ms now2 = Ok now2_ms ->
  now2 - now_ms * 1000000 <= QUEUED_BROADCAST_RETENTION ->
  exists q1 q2 entry,
    queue_broadcast to_vec_pretty aead_encrypt fl now nonce off w wdir dek txid tx err c r q = (Ok tt, q1)
    /\ scan_queued_broadcasts from_slice now2 w wdir (restarted q1) = (Ok tt, q2)
    /\ indexed q2 w txid = Some entry
    /\ decrypt_queued_tx_bytes aead_decrypt w dek (qe_bin_path entry) q2 = (Ok tx, q2)
    /\ meta_ready (qe_meta entry)
    /\ qm_attempt_count (qe_meta entry) = 0
    /\ qm_last_error (qe_meta entry) = err
    /\ qm_retryable (qe_meta entry) = r && may_retry (effective_class c err).
Proof.
  intros Hserde Haead Hf Hne Hn Hct Ht Ht2 Hret.
  pose proof (queue_broadcast_files to_vec_pretty aead_encrypt fl
                now now_ms nonce off w wdir dek txid tx err c r ct q Hf Ht Hct) as HQ.
  pose proof (queued_meta_normalize fl now_ms off err c r now2_ms) as HN.
  destruct (apply_retry_policy r 0 c None) as [r' reason]. destruct HQ as (q1 & HQ & Hfiles).
  fold (queued_meta fl now_ms off err c r' reason) in Hfiles.
  destruct (restart_recovers to_vec_pretty from_slice aead_encrypt aead_decrypt Hserde Haead
              now2 now2_ms w wdir dek txid tx nonce ct _ q q1 Hf Ht2 Hne Hn Hct Hfiles)
    as (q2 & Hs & Hi & Hd); [by eapply to_unix_ms_nonneg|done|].
  rewrite HN in Hi. eexists q1, q2, _.
  do 4 (split; [done|]). cbn [qe_meta]. split; [apply normalize_ready|].
  split; [|split; [|apply queued_meta_retryable]];
    unfold normalize_queued_broadcast_meta; by destruct (apply_retry_policy _ _ _ _).
Qed.

(** ** Concrete libraries, for the witnesses *)

(** Metadata as the binary digits of its code; an authenticated encryption
    that prefixes the key and the associated data. *)
#[global] Instance BroadcastErrorClass_countable : Countable BroadcastErrorClass.
Proof.
  refine (inj_countable'
    (fun c => match c with
       | BroadcastErrorClass.TransientTransport => 0%nat
       | BroadcastErrorClass.TransientServer => 1%nat
       | BroadcastErrorClass.Terminal => 2%nat
       | BroadcastErrorClass.Unknown => 3%nat end)
    (fun n => match n with
       | 0%nat => BroadcastErrorClass.TransientTransport
       | 1%nat => BroadcastErrorClass.TransientServer
       | 2%nat => BroadcastErrorClass.Terminal
       | _ => BroadcastErrorClass.Unknown end) _).
  by intros [].
Defined.

#[global] Instance QueuedBroadcastMeta_countable : Countable QueuedBroadcastMeta.
Proof.
  refine (inj_countable'
    (fun m => (qm_created_at_ms m, qm_attempt_count m, qm_next_attempt_at_ms m,
       qm_last_attempt_at_ms m, qm_transport_failure_streak m, qm_retryable m,
       qm_last_error_class m, qm_terminal_reason m, qm_last_error m))
    (fun '(a, b, c, d, e, f, g, h, i) => mkMeta a b c d e f g h i) _).
  by intros [].
Defined.

Fixpoint bits_of_pos (p : positive) : string :=
  match p with
  | xH => ""
  | xO p' => String "0" (bits_of_pos p')
  | xI p' => String "1" (bits_of_pos p')
  end.

Fixpoint pos_of_bits (s : string) : positive :=
  match s with
  | "" => xH
  | String c s' => if Ascii.eqb c "0" then xO (pos_of_bits s') else xI (pos_of_bits s')
  end.

Definition demo_to_vec (m : QueuedBroadcastMeta) : string := bits_of_pos (encode m).
Definition demo_from_slice (s : string) : option QueuedBroadcastMeta := decode (pos_of_bits s).

Lemma demo_serde_ok m : demo_from_slice (demo_to_vec m) = Some m.
Proof.
  unfold demo_from_slice, demo_to_vec.
  assert (forall p, pos_of_bits (bits_of_pos p) = p) as -> by (induction p; simpl; congruence).
  apply decode_encode.
Qed.

Definition demo_encrypt (k n a m : string) : option string := Some (k +++ (a +++ m)).
Definition demo_decrypt (k n a c : string) : option string :=
  match strip_prefix c k with Some am => strip_prefix am a | None => None end.

Lemma demo_aead_ok k n a m c : demo_encrypt k n a m = Some c -> demo_decrypt k n a c = Some m.
Proof. intros [= <-]. unfold demo_decrypt. by rewrite !strip_prefix_app. Qed.

Definition demo_queue : QueueState := mkQueueState ∅ [] ∅.

Lemma queued_broadcast_survives_restart_witness :
  exists q1 q2 entry,
    queue_broadcast demo_to_vec demo_encrypt (fun x => x) 1700000000000000000
      "abcdefghijklmnopqrstuvwx" 0 "w1" "/wallets/w1" "key" "00ff" "rawtx"
      (Some "connection refused") (Some BroadcastErrorClass.TransientTransport) true demo_queue
      = (Ok tt, q1)
    /\ scan_queued_broadcasts demo_from_slice 1700000100000000000 "w1" "/wallets/w1" (restarted q1)
      = (Ok tt, q2)
    /\ indexed q2 "w1" "00ff" = Some entry
    /\ qm_retryable (qe_meta entry) = true.
Proof.
  destruct (queued_broadcast_survives_restart demo_to_vec demo_from_slice demo_encrypt demo_decrypt
              (fun x => x) 1700000000000000000 1700000000000 1700000100000000000 1700000100000
              "abcdefghijklmnopqrstuvwx" 0 "w1" "/wallets/w1" "key" "00ff" "rawtx"
              (Some "connection refused") (Some BroadcastErrorClass.TransientTransport) true
              _ demo_queue demo_serde_ok demo_aead_ok eq_refl ltac:(discriminate) eq_refl eq_refl
              eq_refl eq_refl ltac:(vm_compute; discriminate))
    as (q1 & q2 & entry & H1 & H2 & H3 & _ & _ & _ & _ & H4).
  exists q1, q2, entry. repeat split; [exact H1|exact H2|exact H3|exact H4].
Defined.

(** The two writers agree.  The background jobs write queue files with
    the retry decision taken by their caller, the direct sends decide while
    writing; after the next scan both leave the same entry, with the same
    schedule, class, reason and bytes. *)
Theorem job_writer_refines_queue_broadcast
    (to_vec_pretty : QueuedBroadcastMeta -> string) (from_slice : string -> option QueuedBroadcastMeta)
    (aead_encrypt aead_decrypt : string -> string -> string -> string -> option string) (fl : Q -> Q)
    (now now_ms now2 now2_ms : Z) (nonce : string) (off : Q) (w wdir dek txid tx : string)
    (err : option string) (c : option BroadcastErrorClass) (r : bool) (ct : string) (q : QueueState) :
  (forall m, from_slice (to_vec_pretty m) = Some m) ->
  (forall k n a m c, aead_encrypt k n a m = Some c -> aead_decrypt k n a c = Some m) ->
  q_faults q = [] -> txid <> "" -> String.length nonce = 24%nat ->
  aead_encrypt dek nonce (queued_aad w txid) tx = Some ct ->
  to_unix_ms now = Ok now_ms -> to_unix_ms now2 = Ok now2_ms ->
  now2 - now_ms * 1000000 <= QUEUED_BROADCAST_RETENTION ->
  exists qa qb qa2 qb2 entry,
    queue_broadcast to_vec_pretty aead_encrypt fl now nonce off w wdir dek txid tx err c r q
      = (Ok tt, qa)
    /\ queue_broadcast_for_retry to_vec_pretty aead_encrypt fl now_ms nonce off w wdir dek txid err c r tx q
      = (Ok tt, qb)
    /\ scan_queued_broadcasts from_slice now2 w wdir (restarted qa) = (Ok tt, qa2)
    /\ scan_queued_broadcasts from_slice now2 w wdir (restarted qb) = (Ok tt, qb2)
    /\ indexed qa2 w txid = Some entry /\ indexed qb2 w txid = Some entry
    /\ (decrypt_queued_tx_bytes aead_decrypt w dek (qe_bin_path entry) qb2).1 = Ok tx.
Proof.
  intros Hserde Haead Hf Hne Hn Hct Ht Ht2 Hret.
  pose proof (queue_broadcast_files to_vec_pretty aead_encrypt fl
                now now_ms nonce off w wdir dek txid tx err c r ct q Hf Ht Hct) as HA.
  destruct (queue_for_retry_files to_vec_pretty aead_encrypt fl
              now_ms nonce off w wdir dek txid tx err c r ct q Hf Hct) as (qb & HB & Hfb).
  pose proof (queued_meta_normalize fl now_ms off err c r now2_ms) as HN.
  destruct (apply_retry_policy r 0 c None) as [r' reason]. destruct HA as (qa & HA & Hfa).
  fold (queued_meta fl now_ms off err c r' reason) in Hfa.
  fold (queued_meta fl now_ms off err c r None) in Hfb.
  pose proof (to_unix_ms_nonneg _ _ Ht) as H0.
  destruct (restart_recovers to_vec_pretty from_slice aead_encrypt aead_decrypt Hserde Haead
              now2 now2_ms w wdir dek txid tx nonce ct _ q qa Hf Ht2 Hne Hn Hct Hfa H0 Hret)
    as (qa2 & Hsa & Hia & _).
  destruct (restart_recovers to_vec_pretty from_slice aead_encrypt aead_decrypt Hserde Haead
              now2 now2_ms w wdir dek txid tx nonce ct _ q qb Hf Ht2 Hne Hn Hct Hfb H0 Hret)
    as (qb2 & Hsb & Hib & Hd).
  rewrite HN in Hia. eexists qa, qb, qa2, qb2, _. do 6 (split; [done|]). cbn [qe_bin_path].
  by rewrite Hd.
Qed.

Lemma job_writer_refines_queue_broadcast_witness :
  exists qb qb2 entry,
    queue_broadcast_for_retry demo_to_vec demo_encrypt (fun x => x) 1700000000000
      "abcdefghijklmnopqrstuvwx" 0 "w1" "/wallets/w1" "key" "00ff"
      (Some "bad-txns-inputs-spent") (Some BroadcastErrorClass.Terminal) true "rawtx" demo_queue
      = (Ok tt, qb)
    /\ scan_queued_broadcasts demo_from_slice 1700000100000000000 "w1" "/wallets/w1" (restarted qb)
      = (Ok tt, qb2)
    /\ indexed qb2 "w1" "00ff" = Some entry.
Proof.
  destruct (job_writer_refines_queue_broadcast demo_to_vec demo_from_slice demo_encrypt demo_decrypt
              (fun x => x) 1700000000000000000 1700000000000 1700000100000000000 1700000100000
              "abcdefghijklmnopqrstuvwx" 0 "w1" "/wallets/w1" "key" "00ff" "rawtx"
              (Some "bad-txns-inputs-spent") (Some BroadcastErrorClass.Terminal) true
              _ demo_queue demo_serde_ok demo_aead_ok eq_refl ltac:(discriminate) eq_refl eq_refl
              eq_refl eq_refl ltac:(vm_compute; discriminate))
    as (qa & qb & qa2 & qb2 & entry & _ & H1 & _ & H2 & _ & H3 & _).
  exists qb, qb2, entry. repeat split; [exact H1|exact H2|exact H3].
Defined.

(** ** The retry loop *)

Lemma file_at_write q dir name x p' (files : gmap string string) :
  q_disk q !! dir = Some files -> p' <> (dir, name) ->
  file_at (q_set_disk q (<[dir := <[name := x]> files]> (q_disk q))) p' = file_at q p'.
Proof.
  intros Hd Hp. unfold file_at. destruct p' as [d n']. simpl.
  destruct (decide (d = dir)) as [->|]; [|by rewrite lookup_insert_ne].
  rewrite lookup_insert_eq, Hd. simpl. rewrite lookup_insert_ne; [done|]. by intros ->.
Qed.

(** [let _ = fs::remove_file(p)] without I/O failures. *)
Lemma remove_ignored p q :
  q_faults q = [] ->
  exists q', m_ignore (fs_remove_file p) q = (Ok tt, q')
    /\ q_faults q' = [] /\ file_at q' p = None /\ forall p', p' <> p -> file_at q' p' = file_at q p'.
Proof.
  intros Hf. unfold m_ignore, fs_remove_file, mbind, M_bind, fs_call, m_get, m_put. rewrite Hf.
  destruct (file_at q p) as [x|] eqn:Hx; simpl; [|by eexists].
  destruct p as [dir name]. simpl. eexists. split; [reflexivity|]. split; [done|].
  unfold file_at in *. simpl in *.
  destruct (q_disk q !! dir) as [files|] eqn:Hd; [|done]. rewrite lookup_alter_eq, Hd. simpl.
  split; [by rewrite lookup_delete_eq|]. intros [d n] Hne. simpl.
  destruct (decide (d = dir)) as [->|]; [|by rewrite lookup_alter_ne].
  rewrite lookup_alter_eq, Hd. simpl. rewrite lookup_delete_ne; [done|]. by intros ->.
Qed.

Lemma delete_quiet wdir txid q :
  q_faults q = [] ->
  let dir := queued_broadcasts_dir wdir in
  exists q', delete_queued_broadcast wdir txid q = (Ok tt, q')
    /\ file_at q' (queued_broadcast_bin_path dir txid) = None
    /\ file_at q' (queued_broadcast_meta_path dir txid) = None.
Proof.
  intros Hf dir. unfold delete_queued_broadcast, mbind, M_bind.
  destruct (remove_ignored (queued_broadcast_bin_path dir txid) q Hf) as (q1 & E1 & Hf1 & Hb & _).
  destruct (remove_ignored (queued_broadcast_meta_path dir txid) q1 Hf1) as (q2 & E2 & _ & Hm & Hfr).
  fold dir. rewrite E1, E2. exists q2. split; [done|]. split; [|done].
  rewrite Hfr, Hb; [done|]. unfold queued_broadcast_bin_path, queued_broadcast_meta_path.
  intros [= H]. symmetry in H. by apply json_not_bin in H.
Qed.

Lemma update_quiet to_vec_pretty from_slice fl now now_ms off wdir txid err c r n s q :
  q_faults q = [] -> to_unix_ms now = Ok now_ms ->
  is_Some (q_disk q !! queued_broadcasts_dir wdir) ->
  let dir := queued_broadcasts_dir wdir in
  exists q' m,
    update_queued_broadcast_error to_vec_pretty from_slice fl now off wdir txid (Some err) (Some c)
      r n s q = (Ok tt, q')
    /\ file_at q' (queued_broadcast_meta_path dir txid) = Some (to_vec_pretty m)
    /\ file_at q' (queued_broadcast_bin_path dir txid) = file_at q (queued_broadcast_bin_path dir txid)
    /\ meta_ready m /\ qm_attempt_count m = n /\ qm_transport_failure_streak m = s
    /\ qm_last_error m = Some err
    /\ (qm_retryable m = true ->
        r = true /\ qm_next_attempt_at_ms m = Some (schedule_next_attempt_at_ms fl now_ms n off)).
Proof.
  intros Hf Ht [files Hd] dir. unfold update_queued_broadcast_error, mbind, M_bind, m_try, m_lift.
  rewrite read_quiet by done. simpl. rewrite Ht. simpl.
  set (existing := match ok_or _ _ with Ok _ => _ | Err _ => _ end). clearbody existing.
  destruct (apply_retry_policy r n (Some c) _) as [r' reason] eqn:HP.
  unfold write_queued_broadcast_meta, m_context, queued_broadcast_meta_path.
  rewrite (write_file_quiet _ _ _ _ files) by done. simpl.
  eexists _, _. split; [reflexivity|]. split; [|split].
  - unfold file_at. simpl. rewrite lookup_insert_eq. simpl. by rewrite lookup_insert_eq.
  - fold dir. rewrite (file_at_write q dir) by
      (done || (unfold queued_broadcast_bin_path; intros [= H]; symmetry in H; by apply json_not_bin in H)).
    done.
  - destruct r'.
    + apply apply_retry_policy_true in HP as (-> & -> & HP).
      repeat split; simpl; try done; intros;
        (destruct (HP c eq_refl) as [? Hb]; apply retry_budget_None in Hb; naive_solver).
    + repeat split; simpl; try done. intros k _ [= ->] ->. by eapply apply_retry_policy_false.
Qed.

Section RetrySpec.
Context (to_vec_pretty : QueuedBroadcastMeta -> string)
        (from_slice : string -> option QueuedBroadcastMeta) (fl : Q -> Q)
        (send : nat -> string -> string -> option (result unit))
        (url_parse : string -> Url + ParseError) (debug : bool) (probe_ok : string -> bool)
        (now : Z) (off : Q) (network : Network) (on_failover : bool) (wdir txid tx : string).

Let step := retry_step to_vec_pretty from_slice fl send url_parse debug probe_ok now off network
              on_failover wdir txid tx.
Let loop fuel := retry_loop to_vec_pretty from_slice fl send url_parse debug probe_ok fuel now off
                   network on_failover wdir txid tx.

Lemma send_transaction_bytes_sends url e :
  re_sends (send_transaction_bytes send url tx e).2 = (re_sends e ++ [url])%list
  /\ re_queue (send_transaction_bytes send url tx e).2 = re_queue e.
Proof using Type. unfold send_transaction_bytes. by repeat case_match. Qed.

(** What every turn does: one send, and a continuation only after a
    failover, with the streak reset and the attempt counted. *)
Lemma retry_step_spec url n s e :
  let '(r, e') := step (url, n, s) e in
  re_sends e' = (re_sends e ++ [url])%list
  /\ match r with
     | Ok (inl (url', n', s')) =>
         should_trigger_failover (u32_saturating_add s 1) = true
         /\ n' = u32_saturating_add n 1 /\ s' = 0 /\ re_queue e' = re_queue e
     | _ => True
     end.
Proof using Type.
  unfold step, retry_step. unfold mbind at 1, M_bind at 1. unfold m_try.
  pose proof (send_transaction_bytes_sends url e) as [Hsend Hq].
  destruct (send_transaction_bytes send url tx e) as [[[]|err] e1]; simpl in Hsend, Hq |- *.
  { done. }
  destruct (apply_retry_policy _ _ _ _) as [retryable ?].
  set (class := classify_broadcast_error_message _).
  unfold mbind, M_bind, next_streak.
  destruct (bool_decide (class = BroadcastErrorClass.TransientTransport)) eqn:Hc.
  2:{ simpl. rewrite andb_false_r. unfold on_queue, m_zoom.
      by destruct (update_queued_broadcast_error _ _ _ _ _ _ _ _ _ _ _ _ _) as [[]]. }
  simpl. destruct (should_trigger_failover _) eqn:Hs.
  2:{ simpl. rewrite andb_false_r. unfold on_queue, m_zoom.
      by destruct (update_queued_broadcast_error _ _ _ _ _ _ _ _ _ _ _ _ _) as [[]]. }
  unfold on_db, m_zoom at 1.
  destruct (try_failover_server _ _ _ _ _ _ _ _) as [[[[next ev]|]|] db']; simpl.
  - assert (exists evs, (if on_failover then emit (ServerFailover ev) else mret tt)
      (mkRetryEnv (re_queue e1) db' (re_events e1) (re_sends e1))
      = (Ok tt, mkRetryEnv (re_queue e1) db' evs (re_sends e1))) as [evs ->]
      by (destruct on_failover; eexists; reflexivity).
    simpl. rewrite andb_true_r. destruct retryable; [done|].
    unfold on_queue, m_zoom.
    by destruct (update_queued_broadcast_error _ _ _ _ _ _ _ _ _ _ _ _ _) as [[]].
  - rewrite andb_false_r. unfold on_queue, m_zoom.
    by destruct (update_queued_broadcast_error _ _ _ _ _ _ _ _ _ _ _ _ _) as [[]].
  - done.
Qed.

(** A turn that starts with the streak at zero is the last one. *)
Lemma retry_step_fresh url n e :
  match (step (url, n, 0) e).1 with Ok (inl _) => False | _ => True end.
Proof using Type.
  pose proof (retry_step_spec url n 0 e) as H.
  destruct (step (url, n, 0) e) as [[[[[? ?] ?]|]|] ?]; try done.
  by destruct H as (_ & H & _).
Qed.

Lemma retry_loop_S k st e :
  loop (S k) st e =
  match step st e with
  | (Ok (inl st'), e') => loop k st' e'
  | (Ok (inr out), e') => (Ok (Some out), e')
  | (Err x, e') => (Err x, e')
  end.
Proof using Type. unfold loop, step. simpl. unfold mbind, M_bind. by repeat case_match. Qed.

(** The state a retry leaves behind: nothing of a transaction that was
    sent; for one that was not, its bytes and a coherent record of the
    failed attempts. *)
Let dir := queued_broadcasts_dir wdir.
Definition retry_sent (q' : QueueState) : Prop :=
  file_at q' (queued_broadcast_bin_path dir txid) = None
  /\ file_at q' (queued_broadcast_meta_path dir txid) = None.
Definition retry_recorded (now_ms n : Z) (err : error) (q q' : QueueState) : Prop :=
  exists m, file_at q' (queued_broadcast_meta_path dir txid) = Some (to_vec_pretty m)
    /\ file_at q' (queued_broadcast_bin_path dir txid) = file_at q (queued_broadcast_bin_path dir txid)
    /\ meta_ready m /\ qm_attempt_count m = n
    /\ qm_last_error m = Some (error_chain err)
    /\ (qm_retryable m = true ->
        qm_next_attempt_at_ms m = Some (schedule_next_attempt_at_ms fl now_ms n off)).

Definition quiet (q : QueueState) : Prop := q_faults q = [] /\ is_Some (q_disk q !! dir).

Lemma retry_recording now_ms err c r n s e :
  to_unix_ms now = Ok now_ms -> quiet (re_queue e) ->
  exists e',
    (on_queue (update_queued_broadcast_error to_vec_pretty from_slice fl now off wdir txid
                 (Some (error_chain err)) (Some c) r n s) ;;
     mret (inr (Some err) : (string * Z * Z) + option error)) e = (Ok (inr (Some err)), e')
    /\ retry_recorded now_ms n err (re_queue e) (re_queue e').
Proof using Type.
  intros Ht [Hf Hd].
  destruct (update_quiet to_vec_pretty from_slice fl now now_ms off wdir txid (error_chain err)
              c r n s (re_queue e) Hf Ht Hd) as (q' & m & E & Hm & Hb & Hr & Hn & _ & He & Hs).
  unfold mbind, M_bind, on_queue, m_zoom. rewrite E. eexists. split; [reflexivity|].
  exists m. simpl. do 5 (split; [done|]). intros Hret. by apply Hs.
Qed.

Lemma retry_step_outcome now_ms url n s e :
  to_unix_ms now = Ok now_ms -> quiet (re_queue e) ->
  let '(r, e') := step (url, n, s) e in
  match r with
  | Ok (inr None) => retry_sent (re_queue e')
  | Ok (inr (Some err)) =>
      retry_recorded now_ms (u32_saturating_add n 1) err (re_queue e) (re_queue e')
  | _ => re_queue e' = re_queue e
  end.
Proof using Type.
  intros Ht Hquiet. unfold step, retry_step. unfold mbind at 1, M_bind at 1. unfold m_try.
  pose proof (send_transaction_bytes_sends url e) as [_ Hq].
  destruct (send_transaction_bytes send url tx e) as [[[]|err] e1]; cbn [fst snd] in Hq |- *.
  { unfold mbind, M_bind, on_queue, m_zoom. rewrite Hq.
    destruct (delete_quiet wdir txid (re_queue e) (proj1 Hquiet)) as (q' & -> & ?). done. }
  destruct (apply_retry_policy _ _ _ _) as [retryable ?].
  set (class := classify_broadcast_error_message _). rewrite <- Hq in *.
  unfold mbind at 1, M_bind at 1.
  destruct (_ && should_trigger_failover _).
  2:{ simpl. unfold mbind at 1, M_bind at 1. simpl. rewrite andb_false_r.
      edestruct retry_recording as (e' & -> & ?); done. }
  unfold on_db, m_zoom at 1.
  destruct (try_failover_server _ _ _ _ _ _ _ _) as [[[[next ev]|]|] db']; simpl; [| |done].
  - unfold mbind at 1, M_bind at 1. unfold mbind at 1, M_bind at 1.
    assert (exists evs, (if on_failover then emit (ServerFailover ev) else mret tt)
      (mkRetryEnv (re_queue e1) db' (re_events e1) (re_sends e1))
      = (Ok tt, mkRetryEnv (re_queue e1) db' evs (re_sends e1))) as [evs ->]
      by (destruct on_failover; eexists; reflexivity).
    simpl. rewrite andb_true_r. destruct retryable; [done|].
    edestruct retry_recording as (e' & -> & ?); done.
  - unfold mbind at 1, M_bind at 1. simpl. rewrite andb_false_r.
    edestruct retry_recording as (e' & -> & ?); done.
Qed.

Lemma retry_loop_outcome now_ms url n s e :
  to_unix_ms now = Ok now_ms -> quiet (re_queue e) -> 0 <= n -> n + 2 <= u32_max ->
  let '(r, e') := loop 2 (url, n, s) e in
  let sends := Z.of_nat (length (re_sends e')) - Z.of_nat (length (re_sends e)) in
  match r with
  | Ok (Some None) => retry_sent (re_queue e')
  | Ok (Some (Some err)) =>
      retry_recorded now_ms (n + sends) err (re_queue e) (re_queue e')
  | Ok None => False
  | Err _ => re_queue e' = re_queue e
  end.
Proof using Type.
  intros Ht Hquiet Hn0 Hn. rewrite (retry_loop_S _ (url, n, s)).
  pose proof (retry_step_spec url n s e) as H1.
  pose proof (retry_step_outcome now_ms url n s e Ht Hquiet) as H1'.
  destruct (step (url, n, s) e) as [[[[[url' n'] s']|[x|]]|err] e1]; destruct H1 as [Hs1 H1];
    try done.
  2:{ rewrite Hs1, length_app. simpl.
      replace (n + _) with (u32_saturating_add n 1) by width_lia. done. }
  destruct H1 as (_ & -> & -> & Hq). rewrite (retry_loop_S _ (url', _, 0)).
  pose proof (retry_step_fresh url' (u32_saturating_add n 1) e1) as H2.
  pose proof (retry_step_spec url' (u32_saturating_add n 1) 0 e1) as H3.
  pose proof (retry_step_outcome now_ms url' (u32_saturating_add n 1) 0 e1 Ht) as H2'.
  rewrite Hq in H2'. specialize (H2' Hquiet).
  destruct (step _ e1) as [[[|[x|]]|] e2]; destruct H3 as [Hs2 _]; simpl in *; try done;
    try congruence.
  rewrite Hs2, Hs1, !length_app. simpl.
  replace (n + _) with (u32_saturating_add (u32_saturating_add n 1) 1) by width_lia. done.
Qed.

Lemma retry_loop_unfold k st e :
  loop (S (S k)) st e = loop 2 st e
  /\ (loop 2 st e).1 <> Ok None
  /\ (length (re_sends e) < length (re_sends (loop 2 st e).2) <= length (re_sends e) + 2)%nat.
Proof using Type.
  destruct st as [[url n] s].
  rewrite !(retry_loop_S _ (url, n, s)).
  pose proof (retry_step_spec url n s e) as H1.
  destruct (step (url, n, s) e) as [[[[[url' n'] s']|out]|err] e1] eqn:E1; destruct H1 as [Hs1 H1].
  - destruct H1 as (_ & -> & -> & _). rewrite !(retry_loop_S _ (url', _, 0)).
    pose proof (retry_step_fresh url' (u32_saturating_add n 1) e1) as H2.
    pose proof (retry_step_spec url' (u32_saturating_add n 1) 0 e1) as H3.
    destruct (step _ e1) as [[[|]|] e2]; destruct H3 as [Hs2 _]; simpl in *; try done;
      (split; [done|]; split; [done|]); rewrite Hs2, Hs1, !length_app; simpl; lia.
  - simpl. split; [done|]. split; [done|]. rewrite Hs1, length_app. simpl. lia.
  - simpl. split; [done|]. split; [done|]. rewrite Hs1, length_app. simpl. lia.
Qed.
End RetrySpec.

(** C12. The retry [loop] has no bound of its own, yet it terminates after at
    most two sends, whatever the servers, the database and the disk do: a
    turn that continues has performed a failover and reset the streak, and a
    streak of one does not trigger another.  Two units of fuel give the
    result of any larger number. *)
Theorem retry_loop_at_most_two_sends
    (to_vec_pretty : QueuedBroadcastMeta -> string) (from_slice : string -> option QueuedBroadcastMeta)
    (fl : Q -> Q) (send : nat -> string -> string -> option (result unit))
    (url_parse : string -> Url + ParseError) (debug : bool) (probe_ok : string -> bool)
    (now : Z) (off : Q) (network : Network) (on_failover : bool) (wdir txid tx : string)
    (k : nat) (st : string * Z * Z) (e : RetryEnv) :
  let loop fuel := retry_loop to_vec_pretty from_slice fl send url_parse debug probe_ok fuel now off
                     network on_failover wdir txid tx st e in
  loop (S (S k)) = loop 2%nat
  /\ (loop 2%nat).1 <> Ok None
  /\ (length (re_sends e) < length (re_sends (loop 2%nat).2) <= length (re_sends e) + 2)%nat.
Proof. apply retry_loop_unfold. Qed.

(** What a retry leaves on disk, without I/O failures: after a send that
    went through (or was refused as a duplicate) both files of the
    transaction are gone; after one that failed the bytes are untouched and
    the record is coherent, counts exactly the sends that were made, and is
    due again only after the backoff of that count; when the database failed
    during the failover nothing was written. *)
Theorem retry_loop_disk_outcome
    (to_vec_pretty : QueuedBroadcastMeta -> string) (from_slice : string -> option QueuedBroadcastMeta)
    (fl : Q -> Q) (send : nat -> string -> string -> option (result unit))
    (url_parse : string -> Url + ParseError) (debug : bool) (probe_ok : string -> bool)
    (now now_ms : Z) (off : Q) (network : Network) (on_failover : bool) (wdir txid tx url : string)
    (n s : Z) (k : nat) (e : RetryEnv) :
  to_unix_ms now = Ok now_ms -> quiet wdir (re_queue e) -> 0 <= n -> n + 2 <= u32_max ->
  let '(r, e') := retry_loop to_vec_pretty from_slice fl send url_parse debug probe_ok (S (S k)) now off
                    network on_failover wdir txid tx (url, n, s) e in
  let sends := Z.of_nat (length (re_sends e')) - Z.of_nat (length (re_sends e)) in
  1 <= sends <= 2 /\
  match r with
  | Ok (Some None) => retry_sent wdir txid (re_queue e')
  | Ok (Some (Some err)) =>
      retry_recorded to_vec_pretty fl off wdir txid now_ms (n + sends) err (re_queue e) (re_queue e')
  | Ok None => False
  | Err _ => re_queue e' = re_queue e
  end.
Proof.
  intros Ht Hquiet Hn0 Hn.
  pose proof (retry_loop_unfold to_vec_pretty from_slice fl send url_parse debug probe_ok now off
                network on_failover wdir txid tx k (url, n, s) e) as (-> & _ & Hlen).
  pose proof (retry_loop_outcome to_vec_pretty from_slice fl send url_parse debug probe_ok now off
                network on_failover wdir txid tx now_ms url n s e Ht Hquiet Hn0 Hn) as H.
  cbv beta zeta in H, Hlen |- *.
  destruct (retry_loop _ _ _ _ _ _ _ _ _ _ _ _ _ _ _ _ e) as [r e'].
  split; [simpl in Hlen; lia|done].
Qed.

(** One queued transaction with a transport failure behind it, and a network
    whose first server is down. *)
Definition demo_meta : QueuedBroadcastMeta :=
  mkMeta 1700000000000 0 (Some 1700000005000) (Some 1700000000000) 1 true
    (Some BroadcastErrorClass.TransientTransport) None (Some "connection refused").
Definition demo_env : RetryEnv :=
  mkRetryEnv
    (mkQueueState {["/w/queued_broadcasts" :=
        {["00ff.bin" := "blob"; "00ff.json" := demo_to_vec demo_meta]}]} [] ∅)
    demo_db [] [].
Definition demo_send (n : nat) (url bytes : string) : option (result unit) :=
  if bool_decide (url = "https://zec.rocks") then Some (Err (AnyhowMsg "connection refused"))
  else Some (Ok tt).

Lemma retry_loop_disk_outcome_witness :
  let out := retry_loop demo_to_vec demo_from_slice (fun x => x) demo_send demo_url_parse false
               (fun _ => true) 2 1700000010000000000 0 Network.Mainnet true "/w" "00ff" "rawtx"
               ("https://zec.rocks", 0, 1) demo_env in
  out.1 = Ok (Some None) /\ re_sends out.2 = ["https://zec.rocks"; "https://eu.zec.rocks"]
  /\ retry_sent "/w" "00ff" (re_queue out.2).
Proof.
  pose proof (retry_loop_disk_outcome demo_to_vec demo_from_slice (fun x => x) demo_send
    demo_url_parse false (fun _ => true) 1700000010000000000 1700000010000 0 Network.Mainnet true
    "/w" "00ff" "rawtx" "https://zec.rocks" 0 1 0 demo_env eq_refl) as H.
  set (out := retry_loop _ _ _ _ _ _ _ _ _ _ _ _ _ _ _ _ demo_env) in H |- *.
  assert (out.1 = Ok (Some None)) as H1 by (vm_compute; reflexivity).
  assert (re_sends out.2 = ["https://zec.rocks"; "https://eu.zec.rocks"]) as H2
    by (vm_compute; reflexivity).
  split; [exact H1|]. split; [exact H2|]. clearbody out. destruct out as [r e'].
  simpl in H1, H2 |- *. subst r. apply H.
  - split; [reflexivity|]. eexists. reflexivity.
  - discriminate.
  - vm_compute. discriminate.
Defined.

(** A retry that exhausts the budget forgets why.  [retry_broadcast]
    decides with [apply_retry_policy] and drops the reason;
    [update_queued_broadcast_error] decides again on the already negative
    answer, which yields no reason for a retryable class, so the entry is
    terminal with no terminal reason and the message shown to the user does
    not mention the exhausted budget. *)
Theorem budget_exhaustion_reason_lost (class : BroadcastErrorClass) (attempt_count : Z) (m : QueuedBroadcastMeta) :
  is_retryable_broadcast_error_class class = true ->
  MAX_TOTAL_BROADCAST_RETRY_ATTEMPTS <= attempt_count ->
  qm_terminal_reason m = None ->
  let '(retryable, reason) :=
    apply_retry_policy (is_retryable_broadcast_error_class class) attempt_count (Some class) None in
  retryable = false /\ is_Some reason
  /\ apply_retry_policy retryable attempt_count (Some class) (qm_terminal_reason m) = (false, None).
Proof.
  intros Hc Hn Hm. rewrite Hm.
  destruct (apply_retry_policy _ _ _ None) as [r reason] eqn:HP.
  assert (exists why, retry_budget_terminal_reason class attempt_count = Some why) as [why Hwhy].
  { destruct (retry_budget_terminal_reason class attempt_count) eqn:E; [eauto|].
    apply retry_budget_None in E as [? _]. lia. }
  unfold apply_retry_policy in *. rewrite Hc, Hwhy in HP. simpl in HP.
  injection HP as <- <-. rewrite Hc. simpl. eauto.
Qed.

Lemma budget_exhaustion_reason_lost_witness :
  apply_retry_policy false 12 (Some BroadcastErrorClass.TransientServer) None = (false, None).
Proof.
  exact (proj2 (proj2 (budget_exhaustion_reason_lost BroadcastErrorClass.TransientServer 12 demo_meta
    eq_refl ltac:(vm_compute; discriminate) eq_refl))).
Defined.

(** ** The due list *)

Lemma due_order_total a b : due_order a b = false -> due_order b a = true.
Proof.
  unfold due_order. intros H. apply orb_false_iff in H as [H1 H2].
  destruct (b.1 <? a.1) eqn:E; [done|]. simpl. breflect.
  assert (b.1 = a.1) as Heq by lia. rewrite Heq, Z.eqb_refl in *. simpl in *.
  unfold String.leb in *. rewrite String.compare_antisym.
  by destruct (String.compare a.2 b.2).
Qed.

Lemma string_leb_trans a b c : String.leb a b = true -> String.leb b c = true -> String.leb a c = true.
Proof.
  revert b c. induction a as [|x a IH]; intros [|y b] [|z c]; try done.
  unfold String.leb. cbn [String.compare]. unfold Ascii.compare.
  destruct (N.compare_spec (Ascii.N_of_ascii x) (Ascii.N_of_ascii y)) as [E1|E1|E1]; try done;
  destruct (N.compare_spec (Ascii.N_of_ascii y) (Ascii.N_of_ascii z)) as [E2|E2|E2]; try done; intros H1 H2;
  destruct (N.compare_spec (Ascii.N_of_ascii x) (Ascii.N_of_ascii z)) as [E3|E3|E3]; try done; try lia.
  apply (IH b c); [exact H1|exact H2].
Qed.

Lemma due_order_trans a b c : due_order a b = true -> due_order b c = true -> due_order a c = true.
Proof.
  unfold due_order. rewrite !orb_true_iff, !andb_true_iff, !Z.ltb_lt, !Z.eqb_eq.
  intros [H1|[H1 H1']] [H2|[H2 H2']]; [left; lia..|].
  right. split; [lia|]. by eapply string_leb_trans.
Qed.

(** When a retryable entry is due: at once when it has no time. *)
Definition due_time (now_ms : Z) (entry : QueuedBroadcastEntry) : Z :=
  default now_ms (qm_next_attempt_at_ms (qe_meta entry)).

Lemma due_at_Some now_ms p t x :
  due_at now_ms p = Some (t, x) <->
  x = p.1 /\ t = due_time now_ms p.2 /\ qm_retryable (qe_meta p.2) = true /\ t <= now_ms.
Proof.
  unfold due_at, due_time. destruct (qm_retryable (qe_meta p.2)); simpl; [|naive_solver].
  case_match; breflect; naive_solver lia.
Qed.

Lemma omap_due_nodup now_ms (l : list (string * QueuedBroadcastEntry)) :
  NoDup l.*1 -> NoDup (omap (due_at now_ms) l).*2.
Proof.
  induction l as [|p l IH]; simpl; [constructor|]. intros [Hp Hl]%NoDup_cons.
  destruct (due_at now_ms p) as [[t x]|] eqn:E; [|auto]. simpl. constructor; [|auto].
  apply due_at_Some in E as (-> & _). intros Hin. apply Hp.
  apply list_elem_of_fmap in Hin as ([t' x'] & Hx & Hin). simpl in Hx. subst x'.
  apply list_elem_of_omap in Hin as (p' & Hp' & Hd). apply due_at_Some in Hd as (-> & _).
  by apply list_elem_of_fmap_2.
Qed.

(** [list_due_retry_txids] returns, without repetition and ordered by
    due time, exactly the queued transactions of the wallet that are
    retryable and due: a terminal entry and one scheduled for later are
    never retried automatically, and none that is due is forgotten. *)
Theorem list_due_exact (from_slice : string -> option QueuedBroadcastMeta) (now now_ms : Z)
    (w wdir : string) (q q' : QueueState) (l : list string) :
  to_unix_ms now = Ok now_ms ->
  list_due_retry_txids from_slice now w wdir q = (Ok l, q') ->
  NoDup l
  /\ (forall x, x ∈ l <-> exists entry, indexed q' w x = Some entry
        /\ qm_retryable (qe_meta entry) = true /\ due_time now_ms entry <= now_ms)
  /\ StronglySorted (fun x y => forall ex ey, indexed q' w x = Some ex -> indexed q' w y = Some ey ->
        due_time now_ms ex <= due_time now_ms ey) l.
Proof.
  intros Ht. unfold list_due_retry_txids, mbind, M_bind, m_lift, m_get.
  destruct (scan_queued_broadcasts from_slice now w wdir q) as [[[]|] q1]; [|done]. rewrite Ht.
  intros [= <- <-]. set (entries := default ∅ (q_mem q1 !! w)).
  assert (forall x, indexed q1 w x = entries !! x) as Hidx.
  { intros x. unfold indexed, entries. destruct (q_mem q1 !! w); simpl; [done|]. by rewrite lookup_empty. }
  set (keys := omap (due_at now_ms) (map_to_list entries)).
  assert (forall t x, (t, x) ∈ keys <-> exists entry, entries !! x = Some entry
    /\ t = due_time now_ms entry /\ qm_retryable (qe_meta entry) = true /\ t <= now_ms) as Hkeys.
  { intros t x. unfold keys. rewrite list_elem_of_omap. split.
    - intros ([x' en] & Hin & Hd). apply due_at_Some in Hd as (-> & ? & ? & ?).
      apply elem_of_map_to_list in Hin. eauto.
    - intros (en & Hin & Ht' & ? & ?). exists (x, en). rewrite elem_of_map_to_list, due_at_Some. done. }
  split; [|split].
  - rewrite isort_perm. apply omap_due_nodup, NoDup_fst_map_to_list.
  - intros x. rewrite list_elem_of_fmap. setoid_rewrite Hidx. split.
    + intros ([t y] & -> & Hin). rewrite elem_of_isort, Hkeys in Hin. naive_solver.
    + intros (en & He & Hr & Hd). exists (due_time now_ms en, x). rewrite elem_of_isort, Hkeys. eauto 10.
  - pose proof (isort_sorted due_order due_order_total due_order_trans keys) as Hs.
    assert (forall t x, (t, x) ∈ isort due_order keys -> forall en, entries !! x = Some en ->
      t = due_time now_ms en) as Hk.
    { intros t x Hin en He. rewrite elem_of_isort, Hkeys in Hin. naive_solver. }
    induction Hs as [|[t x] l Hs IH Hall]; simpl; constructor.
    + apply IH. intros t' x' Hin. apply Hk. by right.
    + rewrite Forall_fmap. rewrite Forall_forall in Hall |- *. intros [t' y] Hin ex ey Hx Hy.
      rewrite Hidx in Hx, Hy. specialize (Hall _ Hin). simpl in *.
      rewrite <- (Hk t x ltac:(left) ex Hx), <- (Hk t' y ltac:(by right) ey Hy).
      unfold due_order in Hall. simpl in Hall. rewrite orb_true_iff, andb_true_iff in Hall.
      rewrite Z.ltb_lt, Z.eqb_eq in Hall. lia.
Qed.

Lemma list_due_exact_witness :
  exists q', indexed q' "w1" "00ff" = Some (mkEntry ("/w/queued_broadcasts", "00ff.bin") demo_meta)
    /\ ("00ff" ∈ ["00ff"] <-> exists entry, indexed q' "w1" "00ff" = Some entry
        /\ qm_retryable (qe_meta entry) = true /\ due_time 1700000010000 entry <= 1700000010000).
Proof.
  exists (list_due_retry_txids demo_from_slice 1700000010000000000 "w1" "/w" (re_queue demo_env)).2.
  split; [vm_compute; reflexivity|].
  refine (proj1 (proj2 (list_due_exact demo_from_slice 1700000010000000000 1700000010000
    "w1" "/w" (re_queue demo_env) _ ["00ff"] eq_refl _)) "00ff").
  vm_compute. reflexivity.
Defined.
