(* ===== verification/Encryption.v ===== *)
(** Wallet encryption: the wrapping of a wallet's data key under the
    password ([encryption.rs]), its stored parameters
    ([db/wallet_encryption_meta.rs]), and the encryption of the mnemonic
    under the data key (the free functions at the end of
    [wallet_manager.rs]).

    Keys, nonces, salts and ciphertexts are byte strings.  Base64, the PHC
    salt, Argon2id and XChaCha20-Poly1305 are the class [Crypto]; what the
    code relies on is the class [CryptoLaws], with an instance at the end
    that shows the laws can hold. *)
From S2P Require Import Prelude Text Domain AppDb BroadcastQueue.
From Stdlib Require Import Ascii.

(** ** The cryptographic libraries *)

Inductive DecodeSliceError := OutputSliceTooSmall | DecodeError (message : string).

Class Crypto := {
  (** [base64::STANDARD]: encoding, decoding into a buffer of a size, and
      decoding into a vector. *)
  b64_encode : string -> string;
  b64_decode_slice : nat -> string -> DecodeSliceError + string;
  b64_decode : string -> string + string;
  (** [Salt::from_b64] followed by [decode_b64]. *)
  salt_decode : string -> string + string;
  (** [Params::new]: memory in KiB, iterations, parallelism, 32 bytes of
      output; then [Argon2::hash_password_into] with Argon2id V0x13 and these
      parameters on a password and a salt. *)
  argon2_params : Z -> Z -> Z -> string + unit;
  argon2id : Z -> Z -> Z -> string -> string -> string + string;
  (** XChaCha20-Poly1305: key, nonce, associated data, message. *)
  aead_encrypt : string -> string -> string -> string -> option string;
  aead_decrypt : string -> string -> string -> string -> option string;
}.

Class CryptoLaws (C : Crypto) : Prop := {
  (** Whole base64 groups decode into a buffer of exactly their size. *)
  b64_roundtrip s : (String.length s mod 3 = 0)%nat ->
    b64_decode_slice (String.length s) (b64_encode s) = inr s;
  b64_decode_encode s : b64_decode (b64_encode s) = inr s;
  (** The documented domain of Argon2 and of the cipher. *)
  argon2_params_ok m t p : 1 <= p <= 16777215 -> 8 * p <= m <= u32_max -> 1 <= t <= u32_max ->
    argon2_params m t p = inr tt;
  argon2id_ok m t p pw salt : argon2_params m t p = inr tt ->
    Z.of_nat (String.length pw) <= u32_max -> (8 <= String.length salt)%nat ->
    Z.of_nat (String.length salt) <= u32_max -> exists k, argon2id m t p pw salt = inr k;
  salt_decode_max s b : salt_decode s = inr b -> (String.length b <= 48)%nat;
  aead_encrypt_ok k n a m : Z.of_nat (String.length m) <= u32_max ->
    exists c, aead_encrypt k n a m = Some c;
  argon2id_length m t p pw salt k : argon2id m t p pw salt = inr k -> String.length k = 32%nat;
  aead_roundtrip k n a m c : aead_encrypt k n a m = Some c -> aead_decrypt k n a c = Some m;
  (** The tag has 16 bytes. *)
  aead_decrypt_length k n a c m : aead_decrypt k n a c = Some m ->
    String.length c = (String.length m + 16)%nat;
  aead_length k n a m c : aead_encrypt k n a m = Some c ->
    String.length c = (String.length m + 16)%nat;
}.

(** ** Parameters *)

Definition KDF_ALGORITHM_ARGON2ID : string := "argon2id".
Definition AEAD_SCHEME_XCHACHA20POLY1305 : string := "xchacha20poly1305".
Definition KDF_VERSION : Z := 1.
Definition AEAD_VERSION : Z := 1.
Definition KDF_MEMORY_MIB : Z := 64.
Definition KDF_ITERATIONS : Z := 3.
Definition KDF_PARALLELISM : Z := 1.

Definition SUPPORTED_KDF_ALGORITHMS : list string := [KDF_ALGORITHM_ARGON2ID].
Definition SUPPORTED_KDF_VERSIONS : list Z := [1].
Definition SUPPORTED_AEAD_SCHEMES : list string := [AEAD_SCHEME_XCHACHA20POLY1305].
Definition SUPPORTED_AEAD_VERSIONS : list Z := [1].

Definition KDF_MEMORY_MIB_MIN : Z := 1.
Definition KDF_MEMORY_MIB_MAX : Z := 256.
Definition KDF_ITERATIONS_MIN : Z := 1.
Definition KDF_ITERATIONS_MAX : Z := 100.
Definition KDF_PARALLELISM_MIN : Z := 1.
Definition KDF_PARALLELISM_MAX : Z := 16.
Definition KDF_SALT_LEN_MIN_BYTES : nat := 8.
Definition AEAD_NONCE_LEN_BYTES : nat := 24.
Definition DEK_LEN_BYTES : nat := 32.
Definition AEAD_TAG_LEN_BYTES : nat := 16.
Definition WRAPPED_DEK_LEN_BYTES : nat := DEK_LEN_BYTES + AEAD_TAG_LEN_BYTES.

Record WalletKdfParams := mkWalletKdfParams {
  kdf_algorithm : string; kdf_version : Z; kdf_memory_mib : Z; kdf_iterations : Z;
  kdf_parallelism : Z; kdf_salt_b64 : string;
}.

Record WalletAeadParams := mkWalletAeadParams {
  aead_scheme : string; aead_version : Z; aead_nonce_b64 : string;
}.

(** [generate_kdf_salt_b64] and [generate_nonce_b64] are the arguments. *)
Definition default_kdf_params (salt_b64 : string) : WalletKdfParams :=
  mkWalletKdfParams KDF_ALGORITHM_ARGON2ID KDF_VERSION KDF_MEMORY_MIB KDF_ITERATIONS
    KDF_PARALLELISM salt_b64.

Definition in_range (lo hi x : Z) : bool := (lo <=? x) && (x <=? hi).

Definition out_of_bounds (what : string) (x lo hi : Z) : error :=
  AnyhowMsg ("KDF " +:+ what +:+ " out of bounds: " +:+ uint_to_string x +:+ " (valid: "
             +:+ uint_to_string lo +:+ "-" +:+ uint_to_string hi +:+ ")").

Definition anyhow_of {A} (context : string) (r : string + A) : result A :=
  match r with inr a => Ok a | inl e => Err (AnyhowMsg (context +:+ ": " +:+ e)) end.

(** [u32] values as the table stores them: [as i64] and back with [as u32]. *)
Definition i64_as_u32 (x : Z) : Z := x mod 2 ^ 32.

(** ** db/wallet_encryption_meta.rs *)

Record WalletEncryptionMeta := mkWalletEncryptionMeta {
  em_kdf : WalletKdfParams; em_aead : WalletAeadParams; em_wrapped_dek_b64 : string;
}.

Definition row_of_encryption (wallet_id : Uuid) (meta : WalletEncryptionMeta) : EncryptionRow :=
  let kdf := em_kdf meta in
  let aead := em_aead meta in
  mkEncryptionRow wallet_id (kdf_algorithm kdf) (kdf_version kdf) (kdf_memory_mib kdf)
    (kdf_iterations kdf) (kdf_parallelism kdf) (kdf_salt_b64 kdf) (em_wrapped_dek_b64 meta)
    (aead_scheme aead) (aead_version aead) (Some (aead_nonce_b64 aead)).

Definition encryption_key (wallet_id : Uuid) (r : EncryptionRow) : bool :=
  bool_decide (er_wallet_id r = wallet_id).

Definition insert_wallet_encryption (wallet_id : Uuid) (meta : WalletEncryptionMeta) : M AppDb unit :=
  db_stmt ;;
  db ← m_get;
  db_require (wallet_exists db wallet_id) constraint_error ;;
  db_require (negb (existsb (encryption_key wallet_id) (adb_encryption db))) constraint_error ;;
  m_put (set_encryption db (adb_encryption db ++ [row_of_encryption wallet_id meta])).

(** A row without a nonce answers as if there were none. *)
Definition encryption_of_row (r : EncryptionRow) : option WalletEncryptionMeta :=
  nonce ← er_aead_nonce r;
  Some (mkWalletEncryptionMeta
    (mkWalletKdfParams (er_kdf_algorithm r) (i64_as_u32 (er_kdf_version r))
       (i64_as_u32 (er_kdf_memory_mib r)) (i64_as_u32 (er_kdf_iterations r))
       (i64_as_u32 (er_kdf_parallelism r)) (er_kdf_salt r))
    (mkWalletAeadParams (er_aead_scheme r) (i64_as_u32 (er_aead_version r)) nonce)
    (er_wrapped_dek r)).

Definition get_wallet_encryption (wallet_id : Uuid) : M AppDb (option WalletEncryptionMeta) :=
  db_stmt ;;
  db ← m_get;
  mret (find_first (encryption_key wallet_id) (adb_encryption db) ≫= encryption_of_row).

Section Encryption.
Context `{C : Crypto}.

Definition default_aead_params (nonce : string) : WalletAeadParams :=
  mkWalletAeadParams AEAD_SCHEME_XCHACHA20POLY1305 AEAD_VERSION (b64_encode nonce).

(** ** Validation *)

Definition validate_and_decode_kdf_salt (kdf : WalletKdfParams) : result string :=
  if negb (bool_decide (kdf_algorithm kdf ∈ SUPPORTED_KDF_ALGORITHMS))
  then Err (AnyhowMsg ("unsupported KDF algorithm: " +:+ kdf_algorithm kdf))
  else if negb (bool_decide (kdf_version kdf ∈ SUPPORTED_KDF_VERSIONS))
  then Err (AnyhowMsg ("unsupported KDF version: " +:+ uint_to_string (kdf_version kdf)))
  else if negb (in_range KDF_MEMORY_MIB_MIN KDF_MEMORY_MIB_MAX (kdf_memory_mib kdf))
  then Err (out_of_bounds "memory_mib" (kdf_memory_mib kdf) KDF_MEMORY_MIB_MIN KDF_MEMORY_MIB_MAX)
  else if negb (in_range KDF_ITERATIONS_MIN KDF_ITERATIONS_MAX (kdf_iterations kdf))
  then Err (out_of_bounds "iterations" (kdf_iterations kdf) KDF_ITERATIONS_MIN KDF_ITERATIONS_MAX)
  else if negb (in_range KDF_PARALLELISM_MIN KDF_PARALLELISM_MAX (kdf_parallelism kdf))
  then Err (out_of_bounds "parallelism" (kdf_parallelism kdf) KDF_PARALLELISM_MIN KDF_PARALLELISM_MAX)
  else
  salt ← anyhow_of "invalid KDF salt" (salt_decode (kdf_salt_b64 kdf));
  if (String.length salt <? KDF_SALT_LEN_MIN_BYTES)%nat
  then Err (AnyhowMsg ("invalid KDF salt length: " +:+ uint_to_string (Z.of_nat (String.length salt))
                       +:+ " (min: " +:+ uint_to_string (Z.of_nat KDF_SALT_LEN_MIN_BYTES) +:+ ")"))
  else Ok salt.

Definition validate_kdf_params (kdf : WalletKdfParams) : result unit :=
  validate_and_decode_kdf_salt kdf ≫= fun _ => Ok tt.

(** [decode_slice] into a buffer of [n] bytes that must be filled. *)
Definition decode_exact (what : string) (n : nat) (s : string) : result string :=
  match b64_decode_slice n s with
  | inl OutputSliceTooSmall =>
      Err (AnyhowMsg ("invalid " +:+ what +:+ " length: > " +:+ uint_to_string (Z.of_nat n)))
  | inl (DecodeError e) => Err (AnyhowMsg ("invalid " +:+ what +:+ " base64: " +:+ e))
  | inr bytes =>
      if negb (Nat.eqb (String.length bytes) n)
      then Err (AnyhowMsg ("invalid " +:+ what +:+ " length: "
                           +:+ uint_to_string (Z.of_nat (String.length bytes))))
      else Ok bytes
  end.

Definition validate_and_decode_aead_nonce (aead : WalletAeadParams) : result string :=
  if negb (bool_decide (aead_scheme aead ∈ SUPPORTED_AEAD_SCHEMES))
  then Err (AnyhowMsg ("unsupported AEAD scheme: " +:+ aead_scheme aead))
  else if negb (bool_decide (aead_version aead ∈ SUPPORTED_AEAD_VERSIONS))
  then Err (AnyhowMsg ("unsupported AEAD version: " +:+ uint_to_string (aead_version aead)))
  else decode_exact "AEAD nonce" AEAD_NONCE_LEN_BYTES (aead_nonce_b64 aead).

Definition validate_aead_params (aead : WalletAeadParams) : result unit :=
  validate_and_decode_aead_nonce aead ≫= fun _ => Ok tt.

(** ** Wrapping *)

Definition derive_kek (password : string) (kdf : WalletKdfParams) (salt : string) : result string :=
  memory_kib ← ok_or (checked_mul u32_max (kdf_memory_mib kdf) 1024) (AnyhowMsg "KDF memory overflow");
  anyhow_of "invalid KDF params"
    (argon2_params memory_kib (kdf_iterations kdf) (kdf_parallelism kdf)) ≫= fun _ =>
  anyhow_of "failed to derive KEK"
    (argon2id memory_kib (kdf_iterations kdf) (kdf_parallelism kdf) password salt).

Definition aead_aad (wallet_id : Uuid) (network : Network) (aead : WalletAeadParams) : string :=
  "wallet_id=" +:+ wallet_id +:+ ";network=" +:+ network_debug network +:+ ";aead_scheme="
  +:+ aead_scheme aead +:+ ";aead_version=" +:+ uint_to_string (aead_version aead).

(** [XChaCha20Poly1305::new_from_slice]. *)
Definition cipher_new (key : string) : result string :=
  if Nat.eqb (String.length key) 32 then Ok key
  else Err (AnyhowMsg "failed to init AEAD: Invalid Length").

Definition wrap_dek (wallet_id : Uuid) (network : Network) (password : string)
    (kdf : WalletKdfParams) (aead : WalletAeadParams) (dek : string) : result string :=
  salt ← validate_and_decode_kdf_salt kdf;
  nonce ← validate_and_decode_aead_nonce aead;
  kek ← derive_kek password kdf salt;
  cipher ← cipher_new kek;
  ciphertext ← ok_or (aead_encrypt cipher nonce (aead_aad wallet_id network aead) dek)
                 (AnyhowMsg "failed to wrap DEK: aead::Error");
  Ok (b64_encode ciphertext).

Definition unwrap_dek (wallet_id : Uuid) (network : Network) (password : string)
    (kdf : WalletKdfParams) (aead : WalletAeadParams) (wrapped_dek_b64 : string) : result string :=
  salt ← validate_and_decode_kdf_salt kdf;
  nonce ← validate_and_decode_aead_nonce aead;
  kek ← derive_kek password kdf salt;
  ciphertext ← decode_exact "wrapped DEK" WRAPPED_DEK_LEN_BYTES wrapped_dek_b64;
  cipher ← cipher_new kek;
  plaintext ← ok_or (aead_decrypt cipher nonce (aead_aad wallet_id network aead) ciphertext)
                (AnyhowMsg "failed to unwrap DEK: aead::Error");
  if negb (Nat.eqb (String.length plaintext) DEK_LEN_BYTES)
  then Err (AnyhowMsg ("invalid DEK length: " +:+ uint_to_string (Z.of_nat (String.length plaintext))))
  else Ok plaintext.

(** ** The mnemonic (wallet_manager.rs) *)

Definition mnemonic_aad (wallet_id : Uuid) (network : Network) : string :=
  "wallet_id=" +:+ wallet_id +:+ ";network=" +:+ network_debug network
  +:+ ";purpose=mnemonic;scheme=xchacha20poly1305;version=1".

Definition mnemonic_version : string := bytes [1%nat].

(** [nonce] is the random draw of the call. *)
Definition encrypt_mnemonic (nonce : string) (wallet_id : Uuid) (network : Network)
    (dek plaintext : string) : result string :=
  cipher ← cipher_new dek;
  ciphertext ← ok_or (aead_encrypt cipher nonce (mnemonic_aad wallet_id network) plaintext)
                 (AnyhowMsg "failed to encrypt mnemonic: aead::Error");
  Ok (mnemonic_version +:+ nonce +:+ ciphertext).

Definition decrypt_mnemonic_bytes (wallet_id : Uuid) (network : Network) (dek b : string)
    : result string :=
  if (String.length b <? 1 + 24 + 16)%nat then Err (AnyhowMsg "encrypted mnemonic is too short")
  else if negb (bool_decide (take_string 1 b = mnemonic_version))
  then Err (AnyhowMsg ("unsupported encrypted mnemonic version: "
              +:+ uint_to_string (match b with
                                  | EmptyString => 0
                                  | String c _ => Z.of_nat (Ascii.nat_of_ascii c)
                                  end)))
  else
  let nonce := take_string 24 (drop_string 1 b) in
  let ciphertext := drop_string (1 + 24) b in
  cipher ← cipher_new dek;
  ok_or (aead_decrypt cipher nonce (mnemonic_aad wallet_id network) ciphertext)
    (AnyhowMsg "failed to decrypt mnemonic: aead::Error").
End Encryption.

(** ** What the validation accepts *)

Definition kdf_supported (kdf : WalletKdfParams) : Prop :=
  kdf_algorithm kdf = KDF_ALGORITHM_ARGON2ID /\ kdf_version kdf = 1
  /\ 1 <= kdf_memory_mib kdf <= 256 /\ 1 <= kdf_iterations kdf <= 100
  /\ 1 <= kdf_parallelism kdf <= 16.

Definition aead_supported (aead : WalletAeadParams) : Prop :=
  aead_scheme aead = AEAD_SCHEME_XCHACHA20POLY1305 /\ aead_version aead = 1.

Lemma in_range_spec lo hi x : in_range lo hi x = true <-> lo <= x <= hi.
Proof. unfold in_range. rewrite andb_true_iff, !Z.leb_le. done. Qed.

Lemma result_bind_Ok {A B} (r : result A) (f : A -> result B) b :
  (r ≫= f) = Ok b <-> exists a, r = Ok a /\ f a = Ok b.
Proof. destruct r; simpl; unfold mbind, result_bind; naive_solver. Qed.

Lemma anyhow_of_Ok {A} c (r : string + A) a : anyhow_of c r = Ok a <-> r = inr a.
Proof. destruct r; simpl; naive_solver. Qed.

Section Validation.
Context `{C : Crypto}.

Lemma validate_kdf_salt_Ok kdf salt :
  validate_and_decode_kdf_salt kdf = Ok salt <->
  kdf_supported kdf /\ salt_decode (kdf_salt_b64 kdf) = inr salt /\ (8 <= String.length salt)%nat.
Proof.
  unfold validate_and_decode_kdf_salt, kdf_supported, SUPPORTED_KDF_ALGORITHMS, SUPPORTED_KDF_VERSIONS.
  destruct (bool_decide (kdf_algorithm kdf ∈ _)) eqn:E1; breflect; rewrite list_elem_of_singleton in E1; simpl;
    [|naive_solver].
  destruct (bool_decide (kdf_version kdf ∈ _)) eqn:E2; breflect; rewrite list_elem_of_singleton in E2; simpl;
    [|naive_solver].
  destruct (in_range _ _ (kdf_memory_mib kdf)) eqn:E3; simpl;
    [apply in_range_spec in E3|apply not_true_iff_false in E3; rewrite in_range_spec in E3; naive_solver].
  destruct (in_range _ _ (kdf_iterations kdf)) eqn:E4; simpl;
    [apply in_range_spec in E4|apply not_true_iff_false in E4; rewrite in_range_spec in E4; naive_solver].
  destruct (in_range _ _ (kdf_parallelism kdf)) eqn:E5; simpl;
    [apply in_range_spec in E5|apply not_true_iff_false in E5; rewrite in_range_spec in E5; naive_solver].
  rewrite result_bind_Ok. setoid_rewrite anyhow_of_Ok. split.
  - intros (s & Hs & H). destruct (_ <? _)%nat eqn:El; [done|]. simplify_eq.
    apply Nat.ltb_ge in El. done.
  - intros (_ & Hs & Hl). exists salt. split; [done|].
    apply Nat.ltb_ge in Hl. unfold KDF_SALT_LEN_MIN_BYTES. by rewrite Hl.
Qed.

Lemma decode_exact_Ok what n s b :
  decode_exact what n s = Ok b <-> b64_decode_slice n s = inr b /\ String.length b = n.
Proof.
  unfold decode_exact. destruct (b64_decode_slice n s) as [[]|b']; [naive_solver..|].
  destruct (Nat.eqb_spec (String.length b') n); simpl; naive_solver.
Qed.

Lemma validate_aead_nonce_Ok aead nonce :
  validate_and_decode_aead_nonce aead = Ok nonce <->
  aead_supported aead /\ b64_decode_slice 24 (aead_nonce_b64 aead) = inr nonce
  /\ String.length nonce = 24%nat.
Proof.
  unfold validate_and_decode_aead_nonce, aead_supported, SUPPORTED_AEAD_SCHEMES, SUPPORTED_AEAD_VERSIONS.
  destruct (bool_decide (aead_scheme aead ∈ _)) eqn:E1; breflect; rewrite list_elem_of_singleton in E1; simpl;
    [|naive_solver].
  destruct (bool_decide (aead_version aead ∈ _)) eqn:E2; breflect; rewrite list_elem_of_singleton in E2; simpl;
    [|naive_solver].
  rewrite decode_exact_Ok. unfold AEAD_NONCE_LEN_BYTES. naive_solver.
Qed.

Context `{L : !CryptoLaws C}.

(** Within the validated bounds neither the multiplication nor Argon2 can fail. *)
Lemma derive_kek_ok password kdf salt :
  kdf_supported kdf -> salt_decode (kdf_salt_b64 kdf) = inr salt -> (8 <= String.length salt)%nat ->
  Z.of_nat (String.length password) <= u32_max ->
  exists kek, derive_kek password kdf salt = Ok kek /\ String.length kek = 32%nat.
Proof using L.
  intros (_ & _ & Hm & Ht & Hp) Hs Hl Hpw. unfold derive_kek, checked_mul, checked.
  replace (_ && _) with true by (symmetry; apply andb_true_iff; rewrite !Z.leb_le; width_lia). simpl.
  assert (argon2_params (kdf_memory_mib kdf * 1024) (kdf_iterations kdf) (kdf_parallelism kdf) = inr tt)
    as Hpar by (apply argon2_params_ok; width_lia).
  pose proof (salt_decode_max _ _ Hs) as Hmax.
  destruct (argon2id_ok _ _ _ password salt Hpar Hpw Hl) as [k Hk]; [width_lia|].
  exists k. unfold mbind, result_bind. rewrite Hpar. simpl. rewrite Hk. simpl. split; [done|].
  by eapply argon2id_length.
Qed.
End Validation.

(** ** Wrapping and unwrapping *)

Lemma unwrap_wrap `{C : Crypto} `{L : !CryptoLaws C} w n password kdf aead dek wrapped :
  String.length dek = 32%nat -> wrap_dek w n password kdf aead dek = Ok wrapped ->
  unwrap_dek w n password kdf aead wrapped = Ok dek.
Proof.
  intros Hdek. unfold wrap_dek, unwrap_dek. rewrite result_bind_Ok. intros (salt & -> & H).
  apply result_bind_Ok in H as (nonce & -> & H). apply result_bind_Ok in H as (kek & Hk & H).
  apply result_bind_Ok in H as (c & Hc & H). apply result_bind_Ok in H as (ct & Hct & [= <-]).
  apply ok_or_Ok in Hct. pose proof (aead_length _ _ _ _ _ Hct) as Hlen. rewrite Hdek in Hlen.
  unfold mbind, result_bind. rewrite Hk. unfold decode_exact.
  replace WRAPPED_DEK_LEN_BYTES with (String.length ct) by done.
  rewrite b64_roundtrip by (by rewrite Hlen). rewrite Nat.eqb_refl. simpl. rewrite Hc. simpl.
  rewrite (aead_roundtrip _ _ _ _ _ Hct). simpl. by rewrite Hdek.
Qed.

(** Another password, whose key the cipher rejects. *)
Lemma unwrap_rejected `{C : Crypto} `{L : !CryptoLaws C} w n password pw kdf aead dek wrapped :
  String.length dek = 32%nat -> wrap_dek w n password kdf aead dek = Ok wrapped ->
  (forall salt nonce kek kek' c,
     validate_and_decode_kdf_salt kdf = Ok salt -> validate_and_decode_aead_nonce aead = Ok nonce ->
     derive_kek password kdf salt = Ok kek -> derive_kek pw kdf salt = Ok kek' ->
     aead_encrypt kek nonce (aead_aad w n aead) dek = Some c ->
     aead_decrypt kek' nonce (aead_aad w n aead) c = None) ->
  exists e, unwrap_dek w n pw kdf aead wrapped = Err e.
Proof.
  intros Hdek. unfold wrap_dek, unwrap_dek. rewrite result_bind_Ok. intros (salt & -> & H) Hrej.
  apply result_bind_Ok in H as (nonce & Hn & H). rewrite Hn in *. apply result_bind_Ok in H as (kek & Hk & H).
  apply result_bind_Ok in H as (c & Hc & H). apply result_bind_Ok in H as (ct & Hct & [= <-]).
  apply ok_or_Ok in Hct. pose proof (aead_length _ _ _ _ _ Hct) as Hlen. rewrite Hdek in Hlen.
  unfold cipher_new in Hc. case_match; simplify_eq.
  unfold mbind, result_bind. destruct (derive_kek pw kdf salt) as [kek'|e] eqn:Ek; [|by eexists].
  unfold decode_exact. replace WRAPPED_DEK_LEN_BYTES with (String.length ct) by done.
  rewrite b64_roundtrip by (by rewrite Hlen). rewrite Nat.eqb_refl. simpl. unfold cipher_new.
  case_match; case_match; simplify_eq; [|by eexists]. rewrite (Hrej _ _ _ _ _ eq_refl eq_refl Hk Ek Hct). by eexists.
Qed.

Lemma unwrap_dek_length `{C : Crypto} w n password kdf aead wrapped dek :
  unwrap_dek w n password kdf aead wrapped = Ok dek -> String.length dek = 32%nat.
Proof.
  unfold unwrap_dek. intros H. do 5 apply result_bind_Ok in H as (? & _ & H).
  apply result_bind_Ok in H as (m & _ & H).
  destruct (Nat.eqb_spec (String.length m) DEK_LEN_BYTES); simpl in H; [|done]. by injection H as <-.
Qed.

(** C38. Unsupported encryption parameters.  The validation accepts exactly
    Argon2id version 1 within its bounds with a salt of at least 8 bytes,
    and XChaCha20-Poly1305 version 1 with a nonce of 24 bytes; wrapping and
    unwrapping refuse everything else with the error of the validation,
    whatever the password.  For accepted parameters the key derivation
    cannot fail or overflow: an unwrap then fails only because the stored
    blob is malformed, with the error of its decoding, or because it does
    not authenticate. *)
Theorem unwrap_dek_errors `{C : Crypto} `{L : !CryptoLaws C} (w : Uuid) (n : Network) (password : string)
    (kdf : WalletKdfParams) (aead : WalletAeadParams) (dek wrapped : string) (e : error) :
  (validate_kdf_params kdf = Ok tt <-> kdf_supported kdf
     /\ exists salt, salt_decode (kdf_salt_b64 kdf) = inr salt /\ (8 <= String.length salt)%nat)
  /\ (validate_aead_params aead = Ok tt <-> aead_supported aead
     /\ exists nonce, b64_decode_slice 24 (aead_nonce_b64 aead) = inr nonce
          /\ String.length nonce = 24%nat)
  /\ (validate_kdf_params kdf = Err e ->
       wrap_dek w n password kdf aead dek = Err e /\ unwrap_dek w n password kdf aead wrapped = Err e)
  /\ (validate_kdf_params kdf = Ok tt -> validate_aead_params aead = Err e ->
       wrap_dek w n password kdf aead dek = Err e /\ unwrap_dek w n password kdf aead wrapped = Err e)
  /\ (validate_kdf_params kdf = Ok tt -> validate_aead_params aead = Ok tt ->
       Z.of_nat (String.length password) <= u32_max ->
       unwrap_dek w n password kdf aead wrapped = Err e ->
       decode_exact "wrapped DEK" 48 wrapped = Err e
       \/ e = AnyhowMsg "failed to unwrap DEK: aead::Error").
Proof.
  assert (forall r : result string, (r ≫= fun _ => Ok tt) = Ok tt <-> exists s, r = Ok s) as Hunit.
  { intros r. rewrite result_bind_Ok. naive_solver. }
  unfold validate_kdf_params, validate_aead_params. split; [|split; [|split; [|split]]].
  - rewrite Hunit. setoid_rewrite validate_kdf_salt_Ok. naive_solver.
  - rewrite Hunit. setoid_rewrite validate_aead_nonce_Ok. naive_solver.
  - unfold wrap_dek, unwrap_dek. destruct (validate_and_decode_kdf_salt kdf); simpl; [done|].
    intros [= ->]. done.
  - unfold wrap_dek, unwrap_dek. destruct (validate_and_decode_kdf_salt kdf); simpl; [|done].
    destruct (validate_and_decode_aead_nonce aead); simpl; [done|]. intros _ [= ->]. done.
  - intros (salt & Hs)%Hunit (nonce & Hn)%Hunit Hpw. unfold unwrap_dek. rewrite Hs, Hn.
    apply validate_kdf_salt_Ok in Hs as (Hsup & Hsd & Hsl).
    destruct (derive_kek_ok password kdf salt Hsup Hsd Hsl Hpw) as (kek & Hk & Hkl).
    unfold mbind, result_bind. rewrite Hk. change WRAPPED_DEK_LEN_BYTES with 48%nat.
    destruct (decode_exact _ _ wrapped) as [ct|] eqn:Ect; [|naive_solver].
    unfold cipher_new. rewrite Hkl. simpl.
    destruct (aead_decrypt _ _ _ _) as [m|] eqn:Em; simpl; [|naive_solver].
    apply decode_exact_Ok in Ect as [_ Hct]. apply aead_decrypt_length in Em.
    assert (String.length m = 32%nat) as -> by lia. done.
Qed.

Lemma default_aead_valid `{C : Crypto} `{L : !CryptoLaws C} nonce :
  String.length nonce = 24%nat -> validate_aead_params (default_aead_params nonce) = Ok tt.
Proof.
  intros Hn. unfold validate_aead_params. apply result_bind_Ok. exists nonce. split; [|done].
  apply validate_aead_nonce_Ok. split; [done|]. split; [|done]. simpl. rewrite <- Hn.
  apply b64_roundtrip. by rewrite Hn.
Qed.

Lemma default_kdf_valid `{C : Crypto} `{L : !CryptoLaws C} salt_b64 salt :
  salt_decode salt_b64 = inr salt -> (8 <= String.length salt)%nat ->
  validate_kdf_params (default_kdf_params salt_b64) = Ok tt.
Proof.
  intros Hs Hl. unfold validate_kdf_params. apply result_bind_Ok. exists salt. split; [|done].
  apply validate_kdf_salt_Ok. repeat split; done || (simpl; unfold KDF_MEMORY_MIB, KDF_ITERATIONS,
    KDF_PARALLELISM; lia).
Qed.

Lemma wrap_dek_ok `{C : Crypto} `{L : !CryptoLaws C} w n password kdf aead dek :
  Z.of_nat (String.length password) <= u32_max -> String.length dek = 32%nat ->
  validate_kdf_params kdf = Ok tt -> validate_aead_params aead = Ok tt ->
  exists wrapped, wrap_dek w n password kdf aead dek = Ok wrapped
    /\ unwrap_dek w n password kdf aead wrapped = Ok dek.
Proof.
  intros Hpw Hdek (salt & Hs & _)%result_bind_Ok (nonce & Hn & _)%result_bind_Ok.
  pose proof Hs as Hs'. apply validate_kdf_salt_Ok in Hs' as (Hsup & Hsd & Hsl).
  destruct (derive_kek_ok password kdf salt Hsup Hsd Hsl Hpw) as (kek & Hk & Hkl).
  destruct (aead_encrypt_ok kek nonce (aead_aad w n aead) dek) as [ct Hct]; [rewrite Hdek; width_lia|].
  assert (wrap_dek w n password kdf aead dek = Ok (b64_encode ct)) as Hwrap.
  { unfold wrap_dek. rewrite Hs, Hn. unfold mbind, result_bind, cipher_new. rewrite Hk, Hkl. simpl.
    by rewrite Hct. }
  eexists. split; [exact Hwrap|]. by apply unwrap_wrap.
Qed.

(** The wrapped data key.  With valid parameters and a password of any
    practical length, wrapping succeeds, and unwrapping what it returns, for
    the same wallet, network and password, returns the data key.  The
    parameters of new wallets are valid. *)
Theorem wrap_dek_roundtrip `{C : Crypto} `{L : !CryptoLaws C} (w : Uuid) (n : Network) (password : string)
    (kdf : WalletKdfParams) (aead : WalletAeadParams) (dek : string) :
  Z.of_nat (String.length password) <= u32_max -> String.length dek = 32%nat ->
  (forall nonce, String.length nonce = 24%nat ->
     validate_aead_params (default_aead_params nonce) = Ok tt)
  /\ (forall salt_b64 salt, salt_decode salt_b64 = inr salt -> (8 <= String.length salt)%nat ->
       validate_kdf_params (default_kdf_params salt_b64) = Ok tt)
  /\ (validate_kdf_params kdf = Ok tt -> validate_aead_params aead = Ok tt ->
       exists wrapped, wrap_dek w n password kdf aead dek = Ok wrapped
         /\ unwrap_dek w n password kdf aead wrapped = Ok dek).
Proof.
  intros Hpw Hdek. split; [|split].
  - apply default_aead_valid.
  - apply default_kdf_valid.
  - by apply wrap_dek_ok.
Qed.

Lemma encrypt_decrypt_mnemonic `{C : Crypto} `{L : !CryptoLaws C} w n dek nonce phrase :
  String.length dek = 32%nat -> String.length nonce = 24%nat ->
  Z.of_nat (String.length phrase) <= u32_max ->
  exists stored, encrypt_mnemonic nonce w n dek phrase = Ok stored
    /\ decrypt_mnemonic_bytes w n dek stored = Ok phrase.
Proof.
  intros Hd Hn Hp. unfold encrypt_mnemonic, cipher_new. rewrite Hd. simpl.
  destruct (aead_encrypt_ok dek nonce (mnemonic_aad w n) phrase Hp) as [ct Hct].
  unfold mbind, result_bind. rewrite Hct. simpl. eexists. split; [done|].
  pose proof (aead_length _ _ _ _ _ Hct) as Hlen. unfold decrypt_mnemonic_bytes.
  assert (String.length (mnemonic_version +:+ nonce +:+ ct) = (25 + String.length ct)%nat) as Hl.
  { rewrite !string_length_app, Hn. done. }
  destruct (_ <? _)%nat eqn:E; [apply Nat.ltb_lt in E; rewrite Hl in E; lia|].
  rewrite (take_string_app mnemonic_version) by done. rewrite bool_decide_eq_true_2 by done. simpl negb.
  cbv iota. change (drop_string 1 (mnemonic_version +:+ nonce +:+ ct)) with (nonce +:+ ct).
  rewrite take_string_app by done. unfold cipher_new. rewrite Hd.
  assert (drop_string (1 + 24) (mnemonic_version +:+ nonce +:+ ct) = ct) as ->.
  { rewrite <- string_app_assoc.
    replace (1 + 24)%nat with (String.length (mnemonic_version +:+ nonce))
      by (rewrite string_length_app, Hn; done).
    by rewrite drop_string_app. }
  unfold mbind, result_bind. simpl. by rewrite (aead_roundtrip _ _ _ _ _ Hct).
Qed.

(** The encrypted mnemonic.  Encrypting succeeds, and decrypting the
    stored bytes, for the same wallet, network and key, returns the phrase;
    bytes of another version or shorter than 41 are refused. *)
Theorem mnemonic_roundtrip `{C : Crypto} `{L : !CryptoLaws C} (w : Uuid) (n : Network) (dek nonce phrase : string) :
  String.length dek = 32%nat -> String.length nonce = 24%nat ->
  Z.of_nat (String.length phrase) <= u32_max ->
  exists stored, encrypt_mnemonic nonce w n dek phrase = Ok stored
    /\ decrypt_mnemonic_bytes w n dek stored = Ok phrase
    /\ forall short, (String.length short < 41)%nat -> is_ok (decrypt_mnemonic_bytes w n dek short) = false.
Proof.
  intros Hd Hn Hp. destruct (encrypt_decrypt_mnemonic w n dek nonce phrase Hd Hn Hp) as (stored & H1 & H2).
  exists stored. split; [done|]. split; [done|]. intros short Hs. unfold decrypt_mnemonic_bytes.
  destruct (_ <? _)%nat eqn:E; [done|]. apply Nat.ltb_ge in E. lia.
Qed.

(** ** Domain separation *)

(** The text form of a UUID has no semicolon. *)
Definition plain_id (w : Uuid) : Prop := avoids_char ";"%char w = true.

Lemma wallet_field_inj w w' r r' :
  plain_id w -> plain_id w' ->
  "wallet_id=" +:+ w +:+ String ";"%char r = "wallet_id=" +:+ w' +:+ String ";"%char r' -> w = w' /\ r = r'.
Proof. intros Hw Hw' H. apply (inj (String.append "wallet_id=")) in H. by apply (field_inj ";"%char). Qed.

(** The associated data binds every ciphertext to its wallet, network
    and use: it differs for different wallets or networks, for a wrapped
    key, a mnemonic and a queued transaction, and for different queued
    transactions of one wallet.  In particular the two uses of the data
    key, mnemonic and queue, never share associated data. *)
Theorem aad_separates_uses (w w' : Uuid) (n n' : Network) (a a' : WalletAeadParams)
    (txid txid' : string) :
  plain_id w -> plain_id w' ->
  (mnemonic_aad w n = mnemonic_aad w' n' <-> w = w' /\ n = n')
  /\ (aead_aad w n a = aead_aad w' n' a' -> w = w' /\ n = n')
  /\ (queued_aad w txid = queued_aad w' txid' <-> w = w' /\ txid = txid')
  /\ mnemonic_aad w n <> queued_aad w' txid
  /\ aead_aad w n a <> mnemonic_aad w' n'
  /\ aead_aad w n a <> queued_aad w' txid.
Proof.
  intros Hw Hw'. unfold mnemonic_aad, aead_aad, queued_aad. split_and!.
  - split; [|by intros [-> ->]]. intros H. apply wallet_field_inj in H as [-> H]; [|done..].
    apply (inj (String.append "network=")) in H. by destruct n, n'.
  - intros H. apply wallet_field_inj in H as [-> H]; [|done..].
    apply (inj (String.append "network=")) in H. by destruct n, n'.
  - split; [|by intros [-> ->]]. intros H. apply wallet_field_inj in H as [-> H]; [|done..].
    apply (inj (String.append "txid=")) in H. by apply string_app_inj_r in H.
  - intros H. by apply wallet_field_inj in H as [_ H].
  - intros H. apply wallet_field_inj in H as [_ H]; [|done..].
    apply (inj (String.append "network=")) in H. by destruct n, n'.
  - intros H. by apply wallet_field_inj in H as [_ H].
Qed.

(** ** An instance of the laws *)

Definition demo_tag (k : string) : string := take_string 16 (k +:+ "0123456789abcdef").

Definition demo_key (pw : string) : string := take_string 32 (pw +:+ "00000000000000000000000000000000").

Definition demo_open (k c : string) : option string :=
  let n := (String.length c - 16)%nat in
  if (16 <=? String.length c)%nat && bool_decide (drop_string n c = demo_tag k)
  then Some (take_string n c) else None.

#[global] Instance demo_crypto : Crypto := {|
  b64_encode s := s;
  b64_decode_slice n s := if (n <? String.length s)%nat then inl OutputSliceTooSmall else inr s;
  b64_decode s := inr s;
  salt_decode s := if (48 <? String.length s)%nat then inl "salt too long" else inr s;
  argon2_params _ _ _ := inr tt;
  argon2id _ _ _ pw _ := inr (demo_key pw);
  aead_encrypt k _ _ m := Some (m +:+ demo_tag k);
  aead_decrypt k _ _ c := demo_open k c;
|}.

Lemma demo_tag_length k : String.length (demo_tag k) = 16%nat.
Proof. apply take_string_length. rewrite string_length_app. simpl. lia. Qed.

#[global] Instance demo_crypto_laws : CryptoLaws demo_crypto.
Proof.
  split; simpl.
  - intros s _. destruct (_ <? _)%nat eqn:E; [apply Nat.ltb_lt in E; lia|done].
  - done.
  - done.
  - eauto.
  - intros s b. destruct (_ <? _)%nat eqn:E; [done|]. intros [= <-]. apply Nat.ltb_ge in E. done.
  - eauto.
  - intros m t p pw salt k [= <-]. apply take_string_length. rewrite string_length_app. simpl. lia.
  - intros k n a m c [= <-]. unfold demo_open. rewrite string_length_app, demo_tag_length.
    replace (String.length m + 16 - 16)%nat with (String.length m) by lia.
    rewrite drop_string_app, take_string_app by done. rewrite bool_decide_eq_true_2 by done.
    destruct (_ <=? _)%nat eqn:E; [done|]. apply Nat.leb_gt in E. lia.
  - intros k n a c m. unfold demo_open. destruct (_ <=? _)%nat eqn:E; [|done]. simpl. case_match; [|done].
    intros [= <-]. apply Nat.leb_le in E. rewrite take_string_length; lia.
  - intros k n a m c [= <-]. by rewrite string_length_app, demo_tag_length.
Qed.

Definition demo_dek : string := "0123456789abcdef0123456789abcdef".
Definition demo_nonce : string := "nonce-nonce-nonce-nonce!".
Definition demo_kdf : WalletKdfParams := default_kdf_params "saltsaltsalt".
Definition demo_aead : WalletAeadParams := default_aead_params demo_nonce.

Lemma unwrap_dek_errors_witness :
  unwrap_dek "w1" Network.Mainnet "pw" (mkWalletKdfParams "argon2id" 1 257 3 1 "saltsaltsalt") demo_aead "x"
  = Err (AnyhowMsg "KDF memory_mib out of bounds: 257 (valid: 1-256)").
Proof.
  apply (proj1 (proj2 (proj2 (unwrap_dek_errors "w1" Network.Mainnet "pw" _ demo_aead demo_dek "x" _)))).
  vm_compute. reflexivity.
Defined.

Lemma wrap_dek_roundtrip_witness :
  exists wrapped, wrap_dek "w1" Network.Mainnet "pw" demo_kdf demo_aead demo_dek = Ok wrapped
    /\ unwrap_dek "w1" Network.Mainnet "pw" demo_kdf demo_aead wrapped = Ok demo_dek
    /\ is_ok (unwrap_dek "w1" Network.Mainnet "wrong" demo_kdf demo_aead wrapped) = false.
Proof.
  destruct (proj2 (proj2 (wrap_dek_roundtrip "w1" Network.Mainnet "pw" demo_kdf demo_aead demo_dek
    ltac:(by vm_compute) eq_refl)) eq_refl eq_refl) as (wrapped & H1 & H2).
  exists wrapped. split; [done|]. split; [done|]. vm_compute in H1. injection H1 as <-. by vm_compute.
Defined.

Lemma mnemonic_roundtrip_witness :
  exists stored, encrypt_mnemonic demo_nonce "w1" Network.Testnet demo_dek "abandon ability" = Ok stored
    /\ decrypt_mnemonic_bytes "w1" Network.Testnet demo_dek stored = Ok "abandon ability".
Proof.
  destruct (mnemonic_roundtrip "w1" Network.Testnet demo_dek demo_nonce "abandon ability"
    eq_refl eq_refl ltac:(by vm_compute)) as (stored & H1 & H2 & _). eauto.
Defined.

Lemma aad_separates_uses_witness : mnemonic_aad "w1" Network.Mainnet <> queued_aad "w2" "ab".
Proof.
  apply (aad_separates_uses "w1" "w2" Network.Mainnet Network.Mainnet demo_aead demo_aead "ab" "ab"
           eq_refl eq_refl).
Defined.
