(* ===== verification/KeyStore.v ===== *)
(** Key stores ([key_store.rs], [key_store_keychain.rs] and the
    [FileKeyStore] of [zbag-cli]): where the encrypted mnemonic of a wallet
    is kept.

    The trait is the class [KeyStore]; what the wallet manager relies on is
    the class [KeyStoreSpec], which views a store as a partial map from
    wallets to mnemonics.  Both implementations are instances.  Files are
    those of [BroadcastQueue]; the OS keychain is a parameter. *)
From S2P Require Import Prelude Text Domain AppDb BroadcastQueue Encryption.

(** [network_dir_name], in three files of the source. *)
Definition network_dir_name (n : Network) : string :=
  match n with Network.Mainnet => "mainnet" | Network.Testnet => "testnet" end.

Definition wallet_dir (wallets_root : string) (wallet_id : Uuid) (network : Network) : string :=
  wallets_root +:+ "/" +:+ network_dir_name network +:+ "/" +:+ wallet_id.

Lemma wallet_dir_inj root w n w' n' : wallet_dir root w n = wallet_dir root w' n' -> w = w' /\ n = n'.
Proof.
  unfold wallet_dir. intros H. apply (inj (String.append root)) in H.
  apply (inj (String.append "/")) in H. destruct n, n'; simpl in H; try done.
  - by apply (inj (String.append "mainnet/")) in H.
  - by apply (inj (String.append "testnet/")) in H.
Qed.

(** [std::fs::read] with a missing file as [None]. *)
Definition fs_read_opt (p : Path) : M QueueState (option string) :=
  fs_call ;; q ← m_get; mret (file_at q p).

(** [std::fs::remove_file] with a missing file accepted. *)
Definition fs_remove_opt (p : Path) : M QueueState unit :=
  fs_call ;; q ← m_get; m_put (q_set_disk q (alter (delete p.2) p.1 (q_disk q))).

(** ** The trait *)

Class KeyStore := {
  store_encrypted_mnemonic : Uuid -> Network -> string -> M QueueState unit;
  load_encrypted_mnemonic : Uuid -> Network -> M QueueState (option string);
  delete_encrypted_mnemonic : Uuid -> Network -> M QueueState unit;
  store_keychain_unlock_material : Uuid -> Network -> string -> M QueueState unit;
  load_keychain_unlock_material : Uuid -> Network -> M QueueState (option string);
  delete_keychain_unlock_material : Uuid -> Network -> M QueueState unit;
}.

(** ** Frames *)

(** [q'] differs from [q] in files satisfying [P], new directories and
    consumed faults only. *)
Record touches (P : Path -> Prop) (q q' : QueueState) : Prop := {
  th_mem : q_mem q' = q_mem q;
  th_files p : ~ P p -> file_at q' p = file_at q p;
  th_dirs d : is_Some (q_disk q !! d) -> is_Some (q_disk q' !! d);
  th_faults : q_faults q = [] -> q_faults q' = [];
}.

#[global] Instance touches_preorder P : PreOrder (touches P).
Proof.
  split; [by split|]. intros q1 q2 q3 [] []. split; [congruence|..]; [|naive_solver..].
  intros p Hp. rewrite th_files1, th_files0; done.
Qed.

Lemma touches_weaken (P Q : Path -> Prop) q q' : (forall p, P p -> Q p) -> touches P q q' -> touches Q q q'.
Proof. intros HPQ [? Hf ? ?]. split; [done| |done|done]. intros p Hp. apply Hf. naive_solver. Qed.

Lemma touches_same_disk P q q' :
  q_mem q' = q_mem q -> q_disk q' = q_disk q -> (q_faults q = [] -> q_faults q' = []) -> touches P q q'.
Proof. intros Hm Hd Hf. split; [done| | |done]; unfold file_at; by rewrite Hd. Qed.

Lemma fs_call_spec q :
  let '(r, q') := fs_call q in
  q_mem q' = q_mem q /\ q_disk q' = q_disk q /\ (r = Ok tt \/ r = Err io_error)
  /\ (q_faults q = [] -> r = Ok tt /\ q' = q).
Proof. unfold fs_call. destruct (q_faults q) as [|[] fs]; naive_solver. Qed.

(** Runs the [fs_call] of the goal, keeping what it says. *)
Ltac fs_step :=
  match goal with
  | |- context [fs_call ?q] =>
      let q' := fresh "q" in
      generalize (fs_call_spec q); destruct (fs_call q) as [?r q'];
      intros (?Hmem & ?Hdisk & ?Hr & ?Hquiet)
  end.

Lemma fs_call_touches P : m_pres (touches P) fs_call.
Proof. intros q. fs_step. apply touches_same_disk; try done. naive_solver. Qed.

Lemma write_file_secure_spec p c q :
  let '(r, q') := write_file_secure p c q in
  touches (fun p' => p' = p) q q'
  /\ (r = Ok tt -> file_at q' p = Some c)
  /\ (r <> Ok tt -> q_disk q' = q_disk q)
  /\ (q_faults q = [] -> is_Some (q_disk q !! p.1) -> r = Ok tt).
Proof.
  unfold write_file_secure, mbind, M_bind, m_get, m_put, m_err. fs_step.
  destruct Hr as [-> | ->]; [|split; [by apply touches_same_disk; naive_solver|naive_solver]].
  rewrite Hdisk. destruct (q_disk q !! p.1) as [files|] eqn:E.
  - split; [split; simpl|split; [|naive_solver]].
    + done.
    + intros [d f] Hne. unfold file_at. simpl. destruct (decide (d = p.1)) as [->|Hd].
      * rewrite lookup_alter_eq, E. simpl. rewrite lookup_insert_ne; [done|]. destruct p; naive_solver.
      * by rewrite lookup_alter_ne.
    + intros d Hd. destruct (decide (d = p.1)) as [->|Hne];
        [rewrite lookup_alter_eq; by destruct Hd as [? ->]|by rewrite lookup_alter_ne].
    + naive_solver.
    + intros _. unfold file_at. simpl. rewrite ?Hdisk, lookup_alter_eq, E. simpl. apply lookup_insert_eq.
  - split; [by apply touches_same_disk; naive_solver|]. split; [done|]. split; [done|].
    by intros _ [? ?].
Qed.

(** The two differ in the modes alone. *)
Lemma create_dir_all_same d : create_dir_all d = create_dir_all_secure d.
Proof. reflexivity. Qed.

Lemma create_dir_all_secure_spec d q :
  let '(r, q') := create_dir_all_secure d q in
  touches (fun _ => False) q q' /\ (r = Ok tt -> is_Some (q_disk q' !! d)) /\ (q_faults q = [] -> r = Ok tt).
Proof.
  unfold create_dir_all_secure, mbind, M_bind, m_get, m_put, m_err, mret, M_ret. fs_step.
  destruct Hr as [-> | ->]; [|split; [by apply touches_same_disk; naive_solver|naive_solver]].
  rewrite Hdisk. destruct (q_disk q !! d) as [files|] eqn:E.
  - split; [by apply touches_same_disk; naive_solver|]. rewrite Hdisk, E. naive_solver.
  - split; [split; simpl; rewrite ?Hdisk|].
    + done.
    + intros [d' f] _. unfold file_at. simpl. destruct (decide (d = d')) as [->|Hd].
      * rewrite lookup_insert_eq, E. simpl. apply lookup_empty.
      * by rewrite lookup_insert_ne.
    + intros d' Hd'. destruct (decide (d = d')) as [->|]; [rewrite lookup_insert_eq; eauto|by rewrite lookup_insert_ne].
    + naive_solver.
    + split; [|naive_solver]. intros _. simpl. rewrite lookup_insert_eq. eauto.
Qed.

Lemma fs_read_opt_spec p q :
  let '(r, q') := fs_read_opt p q in
  touches (fun _ => False) q q' /\ (forall v, r = Ok v -> v = file_at q p)
  /\ (q_faults q = [] -> r = Ok (file_at q p)).
Proof.
  unfold fs_read_opt, mbind, M_bind, m_get, mret, M_ret. fs_step.
  assert (file_at q0 p = file_at q p) as Hf by (unfold file_at; by rewrite Hdisk).
  destruct Hr as [-> | ->]; (split; [by apply touches_same_disk; naive_solver|]); naive_solver.
Qed.

Lemma fs_remove_opt_spec p q :
  let '(r, q') := fs_remove_opt p q in
  touches (fun p' => p' = p) q q'
  /\ (r = Ok tt -> file_at q' p = None) /\ (r <> Ok tt -> q_disk q' = q_disk q)
  /\ (q_faults q = [] -> r = Ok tt).
Proof.
  unfold fs_remove_opt, mbind, M_bind, m_get, m_put, m_err. fs_step.
  destruct Hr as [-> | ->]; [|split; [by apply touches_same_disk; naive_solver|naive_solver]].
  split; [split; simpl; rewrite ?Hdisk|split; [|naive_solver]].
  - done.
  - intros [d f] Hne. unfold file_at. simpl. destruct (decide (d = p.1)) as [->|Hd].
    + rewrite lookup_alter_eq. destruct (q_disk q !! p.1); [simpl|done].
      rewrite lookup_delete_ne; [done|]. destruct p; naive_solver.
    + by rewrite lookup_alter_ne.
  - intros d [x Hd]. destruct (decide (d = p.1)) as [->|Hne];
      [rewrite lookup_alter_eq, Hd; simpl; eauto|rewrite lookup_alter_ne by done; eauto].
  - naive_solver.
  - intros _. unfold file_at. simpl. rewrite ?Hdisk, lookup_alter_eq.
    destruct (q_disk q !! p.1); [simpl|done]. apply lookup_delete_eq.
Qed.

(** The files a key store may write. *)
Definition key_file (p : Path) : Prop := p.2 = "mnemonic.enc" \/ p.2 = "keystore.json".

(** ** What the wallet manager relies on *)

Class KeyStoreSpec (KS : KeyStore) := {
  ks_view : QueueState -> Uuid -> Network -> option string;
  (** The view depends on the mnemonic files only. *)
  ks_view_ext q q' : (forall p, p.2 = "mnemonic.enc" -> file_at q' p = file_at q p) ->
    forall w n, ks_view q' w n = ks_view q w n;
  ks_store w n b q : let '(r, q') := store_encrypted_mnemonic w n b q in
    touches key_file q q' /\ (q_faults q = [] -> r = Ok tt)
    /\ (forall w' n', (w', n') <> (w, n) -> ks_view q' w' n' = ks_view q w' n')
    /\ (r = Ok tt -> ks_view q' w n = Some b)
    /\ (r <> Ok tt -> ks_view q' w n = ks_view q w n);
  ks_load w n q : let '(r, q') := load_encrypted_mnemonic w n q in
    touches key_file q q' /\ (forall w' n', ks_view q' w' n' = ks_view q w' n')
    /\ (q_faults q = [] -> r = Ok (ks_view q w n))
    /\ (forall v, r = Ok v -> v = ks_view q w n);
  ks_delete w n q : let '(r, q') := delete_encrypted_mnemonic w n q in
    touches key_file q q' /\ (q_faults q = [] -> r = Ok tt)
    /\ (forall w' n', (w', n') <> (w, n) -> ks_view q' w' n' = ks_view q w' n')
    /\ (r = Ok tt -> ks_view q' w n = None)
    /\ (r <> Ok tt -> ks_view q' w n = ks_view q w n);
  ks_forget w n q : let '(r, q') := delete_keychain_unlock_material w n q in
    touches key_file q q' /\ (forall w' n', ks_view q' w' n' = ks_view q w' n');
}.

(** ** KeyStoreKeychain *)

Section Keychain.
(** The OS keychain: the outcome of [Entry::new] and [delete_password] for a
    user name; a missing entry is [inr None]. *)
Context (keychain_delete : string -> string + option unit) (wallets_root : string).

Definition mnemonic_path (wallet_id : Uuid) (network : Network) : Path :=
  (wallet_dir wallets_root wallet_id network, "mnemonic.enc").

Definition keychain_username (wallet_id : Uuid) (network : Network) : string :=
  "wallet-dek:" +:+ wallet_id +:+ ":" +:+ network_dir_name network.

Definition kc_store_encrypted_mnemonic (wallet_id : Uuid) (network : Network)
    (encrypted_mnemonic : string) : M QueueState unit :=
  let path := mnemonic_path wallet_id network in
  m_context ("failed to create key store parent directory: " +:+ path.1)
    (create_dir_all_secure path.1) ;;
  m_context ("failed to write encrypted mnemonic file: " +:+ path.2)
    (write_file_secure path encrypted_mnemonic).

Definition kc_load_encrypted_mnemonic (wallet_id : Uuid) (network : Network)
    : M QueueState (option string) :=
  let path := mnemonic_path wallet_id network in
  m_context ("failed to read " +:+ path.2) (fs_read_opt path).

Definition kc_delete_encrypted_mnemonic (wallet_id : Uuid) (network : Network) : M QueueState unit :=
  let path := mnemonic_path wallet_id network in
  m_context ("failed to delete " +:+ path.2) (fs_remove_opt path).

Definition kc_delete_keychain_unlock_material (wallet_id : Uuid) (network : Network)
    : M QueueState unit :=
  match keychain_delete (keychain_username wallet_id network) with
  | inr _ => mret tt
  | inl e => m_err (Context "failed to delete keychain unlock material" (AnyhowMsg e))
  end.

(** Automatic unlocking is disabled: nothing is stored, and loading only
    cleans up. *)
Definition kc_store_keychain_unlock_material (_ : Uuid) (_ : Network) (_ : string) : M QueueState unit :=
  mret tt.

Definition kc_load_keychain_unlock_material (wallet_id : Uuid) (network : Network)
    : M QueueState (option string) :=
  m_ignore (kc_delete_keychain_unlock_material wallet_id network) ;; mret None.

Definition KeyStoreKeychain : KeyStore := {|
  store_encrypted_mnemonic := kc_store_encrypted_mnemonic;
  load_encrypted_mnemonic := kc_load_encrypted_mnemonic;
  delete_encrypted_mnemonic := kc_delete_encrypted_mnemonic;
  store_keychain_unlock_material := kc_store_keychain_unlock_material;
  load_keychain_unlock_material := kc_load_keychain_unlock_material;
  delete_keychain_unlock_material := kc_delete_keychain_unlock_material;
|}.
End Keychain.

(** ** FileKeyStore *)

Section FileStore.
(** serde_json on [KeyStoreData], the map of unlock materials. *)
Context `{C : Crypto} (keystore_to_string : gmap string string -> string)
        (keystore_from_str : string -> option (gmap string string)) (data_dir : string).

Definition file_wallets_root : string := data_dir +:+ "/wallets".
Definition keystore_path : Path := (data_dir, "keystore.json").

Definition unlock_key (wallet_id : Uuid) (network : Network) : string :=
  wallet_id +:+ ":" +:+ network_dir_name network.

Definition load_keystore : M QueueState (gmap string string) :=
  content ← m_context "failed to read keystore.json" (fs_read_opt keystore_path);
  match content with
  | None => mret ∅
  | Some s => m_lift (ok_or (keystore_from_str s)
                        (Context "invalid keystore.json format" (AnyhowMsg "json error")))
  end.

Definition save_keystore (unlock_materials : gmap string string) : M QueueState unit :=
  create_dir_all_secure keystore_path.1 ;;
  m_context ("failed to write keystore file: " +:+ keystore_path.2)
    (write_file_secure keystore_path (keystore_to_string unlock_materials)).

Definition fks_store_encrypted_mnemonic (wallet_id : Uuid) (network : Network)
    (encrypted_mnemonic : string) : M QueueState unit :=
  let path := mnemonic_path file_wallets_root wallet_id network in
  create_dir_all_secure path.1 ;;
  m_context ("failed to write encrypted mnemonic file: " +:+ path.2)
    (write_file_secure path encrypted_mnemonic).

Definition fks_load_encrypted_mnemonic (wallet_id : Uuid) (network : Network)
    : M QueueState (option string) :=
  let path := mnemonic_path file_wallets_root wallet_id network in
  m_context ("failed to read " +:+ path.2) (fs_read_opt path).

Definition fks_delete_encrypted_mnemonic (wallet_id : Uuid) (network : Network) : M QueueState unit :=
  let path := mnemonic_path file_wallets_root wallet_id network in
  m_context ("failed to delete " +:+ path.2) (fs_remove_opt path).

Definition fks_store_keychain_unlock_material (wallet_id : Uuid) (network : Network)
    (unlock_material : string) : M QueueState unit :=
  data ← load_keystore;
  save_keystore (<[unlock_key wallet_id network := b64_encode unlock_material]> data).

Definition fks_load_keychain_unlock_material (wallet_id : Uuid) (network : Network)
    : M QueueState (option string) :=
  data ← load_keystore;
  match data !! unlock_key wallet_id network with
  | Some encoded =>
      match b64_decode encoded with
      | inr decoded => mret (Some decoded)
      | inl e => m_err (Context "invalid unlock material encoding" (AnyhowMsg e))
      end
  | None => mret None
  end.

Definition fks_delete_keychain_unlock_material (wallet_id : Uuid) (network : Network)
    : M QueueState unit :=
  data ← load_keystore;
  save_keystore (delete (unlock_key wallet_id network) data).

Definition FileKeyStore : KeyStore := {|
  store_encrypted_mnemonic := fks_store_encrypted_mnemonic;
  load_encrypted_mnemonic := fks_load_encrypted_mnemonic;
  delete_encrypted_mnemonic := fks_delete_encrypted_mnemonic;
  store_keychain_unlock_material := fks_store_keychain_unlock_material;
  load_keychain_unlock_material := fks_load_keychain_unlock_material;
  delete_keychain_unlock_material := fks_delete_keychain_unlock_material;
|}.
End FileStore.

(** ** The instances *)

(** Creating the directory of a file and then writing it. *)
Lemma store_file_spec (mkdir : M QueueState unit) (p : Path) (b c : string) q :
  (let '(r, q') := mkdir q in
   touches (fun _ => False) q q' /\ (r = Ok tt -> is_Some (q_disk q' !! p.1)) /\ (q_faults q = [] -> r = Ok tt)) ->
  let '(r, q') := (mkdir ;; m_context c (write_file_secure p b)) q in
  touches (fun p' => p' = p) q q' /\ (q_faults q = [] -> r = Ok tt)
  /\ (r = Ok tt -> file_at q' p = Some b) /\ (r <> Ok tt -> file_at q' p = file_at q p).
Proof.
  intros Hmk. rewrite m_bind_eq. destruct (mkdir q) as [[[]|e] q1].
  2:{ destruct Hmk as (Ht & _ & Hq). split; [eapply touches_weaken; [|exact Ht]; done|].
      split; [naive_solver|]. split; [done|]. intros _. apply Ht. tauto. }
  destruct Hmk as (Ht & Hd & Hq). unfold m_context.
  generalize (write_file_secure_spec p b q1). destruct (write_file_secure p b q1) as [r q2]. simpl.
  intros (Hw & Hok & Herr & Hquiet).
  assert (file_at q1 p = file_at q p) as Hp by (apply Ht; tauto).
  split; [|split; [|split]].
  - transitivity q1; [eapply touches_weaken; [|exact Ht]; done|done].
  - intros Hf. rewrite Hquiet; [done| |auto]. by apply Ht.
  - destruct r; [|done]. intros _. destruct a. auto.
  - intros Hr. rewrite <- Hp. unfold file_at. rewrite Herr; [done|]. destruct r; naive_solver.
Qed.

Lemma create_dir_context_spec c d q :
  let '(r, q') := m_context c (create_dir_all_secure d) q in
  touches (fun _ => False) q q' /\ (r = Ok tt -> is_Some (q_disk q' !! d)) /\ (q_faults q = [] -> r = Ok tt).
Proof.
  unfold m_context. generalize (create_dir_all_secure_spec d q).
  destruct (create_dir_all_secure d q) as [[[]|] q']; simpl; [done|].
  intros (? & ? & H). split; [done|]. split; [done|]. intros Hq. by specialize (H Hq).
Qed.

Section RootView.
Context (root : string).

Definition root_view (q : QueueState) (w : Uuid) (n : Network) : option string :=
  file_at q (mnemonic_path root w n).

Lemma root_view_ext q q' :
  (forall p, p.2 = "mnemonic.enc" -> file_at q' p = file_at q p) ->
  forall w n, root_view q' w n = root_view q w n.
Proof using Type. intros H w n. by apply H. Qed.

Lemma root_view_other q q' w n w' n' :
  touches (fun p => p = mnemonic_path root w n) q q' -> (w', n') <> (w, n) ->
  root_view q' w' n' = root_view q w' n'.
Proof using Type.
  intros Ht Hne. apply Ht. unfold mnemonic_path. intros [= H]. apply wallet_dir_inj in H. naive_solver.
Qed.

Lemma mnemonic_path_key_file w n p : p = mnemonic_path root w n -> key_file p.
Proof using Type. intros ->. by left. Qed.

(** Both stores keep a mnemonic the same way. *)
Lemma root_store (mkdir : M QueueState unit) w n b c q :
  (let '(r, q') := mkdir q in
   touches (fun _ => False) q q' /\ (r = Ok tt -> is_Some (q_disk q' !! wallet_dir root w n))
   /\ (q_faults q = [] -> r = Ok tt)) ->
  let '(r, q') := (mkdir ;; m_context c (write_file_secure (mnemonic_path root w n) b)) q in
  touches key_file q q' /\ (q_faults q = [] -> r = Ok tt)
  /\ (forall w' n', (w', n') <> (w, n) -> root_view q' w' n' = root_view q w' n')
  /\ (r = Ok tt -> root_view q' w n = Some b)
  /\ (r <> Ok tt -> root_view q' w n = root_view q w n).
Proof using Type.
  intros Hmk. generalize (store_file_spec mkdir (mnemonic_path root w n) b c q Hmk).
  destruct ((mkdir ;; m_context c (write_file_secure (mnemonic_path root w n) b)) q) as [r q']. intros (Ht & Hq & Hok & Herr).
  split; [eapply touches_weaken; [|exact Ht]; apply mnemonic_path_key_file|].
  split; [done|]. split; [intros; by eapply root_view_other|done].
Qed.

Lemma root_load w n c q :
  let '(r, q') := m_context c (fs_read_opt (mnemonic_path root w n)) q in
  touches key_file q q' /\ (forall w' n', root_view q' w' n' = root_view q w' n')
  /\ (q_faults q = [] -> r = Ok (root_view q w n))
  /\ (forall v, r = Ok v -> v = root_view q w n).
Proof using Type.
  unfold m_context. generalize (fs_read_opt_spec (mnemonic_path root w n) q).
  destruct (fs_read_opt _ q) as [r q']. simpl. intros (Ht & Hok & Hq).
  split; [eapply touches_weaken; [|exact Ht]; done|]. split; [intros; apply Ht; tauto|].
  split; [intros Hf; by rewrite Hq|]. destruct r; simpl; naive_solver.
Qed.

Lemma root_delete w n c q :
  let '(r, q') := m_context c (fs_remove_opt (mnemonic_path root w n)) q in
  touches key_file q q' /\ (q_faults q = [] -> r = Ok tt)
  /\ (forall w' n', (w', n') <> (w, n) -> root_view q' w' n' = root_view q w' n')
  /\ (r = Ok tt -> root_view q' w n = None)
  /\ (r <> Ok tt -> root_view q' w n = root_view q w n).
Proof using Type.
  unfold m_context. generalize (fs_remove_opt_spec (mnemonic_path root w n) q).
  destruct (fs_remove_opt _ q) as [r q']. simpl. intros (Ht & Hok & Herr & Hq).
  split; [eapply touches_weaken; [|exact Ht]; apply mnemonic_path_key_file|].
  split; [intros Hf; by rewrite Hq|]. split; [intros; by eapply root_view_other|].
  split; [destruct r; naive_solver|]. intros Hr. unfold root_view, file_at. rewrite Herr; [done|].
  destruct r; naive_solver.
Qed.
End RootView.

#[global] Instance KeyStoreKeychain_spec keychain_delete wallets_root :
  KeyStoreSpec (KeyStoreKeychain keychain_delete wallets_root).
Proof.
  refine {| ks_view := root_view wallets_root |}; simpl.
  - apply root_view_ext.
  - intros w n b q. apply root_store. apply create_dir_context_spec.
  - intros w n q. apply root_load.
  - intros w n q. apply root_delete.
  - intros w n q. unfold kc_delete_keychain_unlock_material. by destruct (keychain_delete _).
Defined.

(** Reading and rewriting [keystore.json] leaves the mnemonics alone. *)
Lemma save_keystore_touches to_string data_dir data :
  m_pres (touches (fun p => p.2 = "keystore.json")) (save_keystore to_string data_dir data).
Proof.
  unfold save_keystore. apply m_pres_bind; [apply _| |intros _; apply m_pres_context]; intros q.
  - generalize (create_dir_all_secure_spec (keystore_path data_dir).1 q).
    destruct (create_dir_all_secure _ q) as [r q']. intros [Ht _]. eapply touches_weaken; [|exact Ht]. done.
  - generalize (write_file_secure_spec (keystore_path data_dir) (to_string data) q).
    destruct (write_file_secure _ _ q) as [r q']. intros [Ht _]. eapply touches_weaken; [|exact Ht].
    by intros ? ->.
Qed.

Lemma load_keystore_touches from_str data_dir P : m_pres (touches P) (load_keystore from_str data_dir).
Proof.
  unfold load_keystore. apply m_pres_bind; [apply _|apply m_pres_context|].
  - intros q. generalize (fs_read_opt_spec (keystore_path data_dir) q).
    destruct (fs_read_opt _ q) as [r q']. intros [Ht _]. eapply touches_weaken; [|exact Ht]. done.
  - intros [c|]; [apply m_pres_lift|apply m_pres_ret]; apply _.
Qed.

#[global] Instance FileKeyStore_spec `{C : Crypto} to_string from_str data_dir :
  KeyStoreSpec (FileKeyStore to_string from_str data_dir).
Proof.
  refine {| ks_view := root_view (file_wallets_root data_dir) |}; simpl.
  - apply root_view_ext.
  - intros w n b q. apply root_store. apply create_dir_all_secure_spec.
  - intros w n q. apply root_load.
  - intros w n q. apply root_delete.
  - intros w n q.
    assert (m_pres (touches (fun p => p.2 = "keystore.json"))
      (fks_delete_keychain_unlock_material to_string from_str data_dir w n)) as Ht.
    { unfold fks_delete_keychain_unlock_material. apply m_pres_bind; [apply _|apply load_keystore_touches|].
      intros. apply save_keystore_touches. }
    specialize (Ht q). destruct (fks_delete_keychain_unlock_material _ _ _ w n q) as [r q']. split.
    + eapply touches_weaken; [|exact Ht]. by right.
    + intros w' n'. by apply Ht.
Defined.

(** ** Refinement of a map *)

#[global] Instance Network_countable : Countable Network.
Proof.
  refine (inj_countable' (fun n => match n with Network.Mainnet => true | Network.Testnet => false end)
    (fun b => if b then Network.Mainnet else Network.Testnet) _). by intros [].
Defined.

(** The calls that change or read mnemonics, and the clean-up of [unlock]. *)
Inductive KsCall :=
| KStore (w : Uuid) (n : Network) (b : string)
| KLoad (w : Uuid) (n : Network)
| KDelete (w : Uuid) (n : Network)
| KForget (w : Uuid) (n : Network).

Definition ks_call `{KS : KeyStore} (c : KsCall) : M QueueState (option string) :=
  match c with
  | KStore w n b => store_encrypted_mnemonic w n b ;; mret None
  | KLoad w n => load_encrypted_mnemonic w n
  | KDelete w n => delete_encrypted_mnemonic w n ;; mret None
  | KForget w n => delete_keychain_unlock_material w n ;; mret None
  end.

Fixpoint ks_run `{KS : KeyStore} (cs : list KsCall) (q : QueueState)
    : list (result (option string)) * QueueState :=
  match cs with
  | [] => ([], q)
  | c :: cs' => let '(r, q1) := ks_call c q in let '(rs, q2) := ks_run cs' q1 in (r :: rs, q2)
  end.

(** The abstract store: a finite map. *)
Abbreviation KeyMap := (gmap (Uuid * Network) string).

Definition map_call (c : KsCall) (m : KeyMap) : option string * KeyMap :=
  match c with
  | KStore w n b => (None, <[(w, n) := b]> m)
  | KLoad w n => (m !! (w, n), m)
  | KDelete w n => (None, delete (w, n) m)
  | KForget w n => (None, m)
  end.

(** A run of the calls on the map in which the calls marked [false] fail. *)
Fixpoint map_run (cs : list KsCall) (oks : list bool) (m : KeyMap) : list (option (option string)) * KeyMap :=
  match cs, oks with
  | c :: cs', true :: oks' =>
      let '(v, m1) := map_call c m in let '(vs, m2) := map_run cs' oks' m1 in (Some v :: vs, m2)
  | c :: cs', false :: oks' => let '(vs, m2) := map_run cs' oks' m in (None :: vs, m2)
  | _, _ => ([], m)
  end.

Definition result_value {A} (r : result A) : option A := match r with Ok a => Some a | Err _ => None end.

Definition represents `{KS : KeyStore} `{S : !KeyStoreSpec KS} (q : QueueState) (m : KeyMap) : Prop :=
  forall w n, ks_view q w n = m !! (w, n).

Lemma ks_call_refines `{KS : KeyStore} `{S : !KeyStoreSpec KS} c q m :
  represents q m ->
  let '(r, q') := ks_call c q in
  touches key_file q q'
  /\ (q_faults q = [] -> (forall w n, c <> KForget w n) -> is_ok r = true)
  /\ match r with
     | Ok v => v = (map_call c m).1 /\ represents q' (map_call c m).2
     | Err _ => represents q' m
     end.
Proof.
  intros Hm. destruct c as [w n b|w n|w n|w n]; simpl; rewrite ?m_bind_eq.
  - generalize (ks_store w n b q). destruct (store_encrypted_mnemonic w n b q) as [[[]|e] q'];
      simpl; intros (Ht & Hq & Ho & Hok & Herr); (split; [done|]; split; [naive_solver|]).
    + split; [done|]. intros w' n'. destruct (decide ((w', n') = (w, n))) as [[= -> ->]|Hne].
      * rewrite lookup_insert_eq. auto.
      * rewrite lookup_insert_ne by done. by rewrite Ho.
    + intros w' n'. rewrite <- Hm. destruct (decide ((w', n') = (w, n))) as [[= -> ->]|Hne]; auto.
  - generalize (ks_load w n q). destruct (load_encrypted_mnemonic w n q) as [[v|e] q'];
      intros (Ht & Hv & Hq & Hok); (split; [done|]; split; [naive_solver|]).
    + split; [rewrite <- Hm; auto|]. intros w' n'. by rewrite Hv.
    + intros w' n'. by rewrite Hv.
  - generalize (ks_delete w n q). destruct (delete_encrypted_mnemonic w n q) as [[[]|e] q'];
      simpl; intros (Ht & Hq & Ho & Hok & Herr); (split; [done|]; split; [naive_solver|]).
    + split; [done|]. intros w' n'. destruct (decide ((w', n') = (w, n))) as [[= -> ->]|Hne].
      * rewrite lookup_delete_eq. auto.
      * rewrite lookup_delete_ne by done. by rewrite Ho.
    + intros w' n'. rewrite <- Hm. destruct (decide ((w', n') = (w, n))) as [[= -> ->]|Hne]; auto.
  - generalize (ks_forget w n q). destruct (delete_keychain_unlock_material w n q) as [[[]|e] q'];
      simpl; intros (Ht & Hv); (split; [done|]; split; [naive_solver|]).
    + split; [done|]. intros w' n'. by rewrite Hv.
    + intros w' n'. by rewrite Hv.
Qed.

(** A key store is a map from wallets to mnemonics.  For every
    implementation of the interface, whatever fails on disk, a sequence of
    calls answers exactly like the same calls on a finite map from which
    the failed calls are left out: a stored mnemonic is read back until it
    is replaced or deleted, other wallets and the other network are never
    affected, and a failed call changes nothing.  No file outside the key
    store is touched. *)
Theorem key_store_refines_map `{KS : KeyStore} `{S : !KeyStoreSpec KS} (cs : list KsCall) (q : QueueState) (m : KeyMap) :
  represents q m ->
  let '(rs, q') := ks_run cs q in
  let '(vs, m') := map_run cs (map is_ok rs) m in
  map result_value rs = vs /\ represents q' m' /\ touches key_file q q'.
Proof.
  revert q m. induction cs as [|c cs IH]; intros q m Hm; simpl; [done|].
  generalize (ks_call_refines c q m Hm). destruct (ks_call c q) as [r q1]. intros (Ht & _ & Hr).
  destruct r as [v|e]; simpl.
  - destruct Hr as [-> Hm1]. specialize (IH q1 _ Hm1). destruct (ks_run cs q1) as [rs q2]. simpl.
    destruct (map_call c m) as [v m1]. simpl in *. destruct (map_run cs _ m1) as [vs m2].
    destruct IH as (<- & Hm2 & Ht2). split; [done|]. split; [done|]. by transitivity q1.
  - specialize (IH q1 m Hr). destruct (ks_run cs q1) as [rs q2]. simpl.
    destruct (map_run cs _ m) as [vs m2].
    destruct IH as (<- & Hm2 & Ht2). split; [done|]. split; [done|]. by transitivity q1.
Qed.

(** Both implementations, on a disk whose second call fails. *)
Lemma key_store_refines_map_witness :
  let q := mkQueueState ∅ [false; false; true; true] ∅ in
  let cs := [KStore "w1" Network.Mainnet "m1"; KStore "w2" Network.Mainnet "m2";
             KLoad "w1" Network.Mainnet; KLoad "w1" Network.Mainnet; KLoad "w1" Network.Testnet] in
  let ks := KeyStoreKeychain (fun _ => inr None) "/root" in
  map result_value (@ks_run ks cs q).1 = [Some None; None; None; Some (Some "m1"); Some None].
Proof.
  intros q cs ks.
  pose proof (key_store_refines_map (KS := ks) (S := KeyStoreKeychain_spec (fun _ => inr None) "/root") cs q ∅) as H.
  assert (represents (KS := ks) (S := KeyStoreKeychain_spec (fun _ => inr None) "/root") q ∅) as Hr
    by (intros w n; reflexivity).
  specialize (H Hr). destruct (ks_run cs q) as [rs q'] eqn:E. destruct (map_run cs _ ∅) as [vs m'] eqn:Em.
  destruct H as (Hvs & _). simpl. rewrite Hvs. vm_compute in E. injection E as <- <-.
  vm_compute in Em. by injection Em as <- <-.
Defined.
