(* ===== verification/Permissions.v ===== *)
(** Files and directories with owner-only permissions
    ([zbag-core/src/permissions.rs], on Unix).

    A file system of nodes with their modes, one system call at a time: each
    call takes the next entry of a fault script, and the nodes after each call
    are kept, so that a claim can speak of a crash between two calls.  A path
    is its list of components, the last one first; the empty list is the root,
    or the working directory of a relative path. *)
From S2P Require Import Prelude Text.
From stdpp Require Import gmap strings list.
Open Scope Z_scope.

Inductive IoKind := AlreadyExists | NotFound | NotADirectory | InvalidInput | OtherIo.

Inductive Node := File (contents : string) (mode : Z) | Dir (mode : Z).

Abbreviation Nodes := (gmap (list string) Node).

(** A fault: the call fails, a write after so many bytes. *)
Record Fs := mkFs {
  fs_nodes : Nodes;
  fs_faults : list (option nat);
  fs_trace : list Nodes;
}.

Definition Io (A : Type) : Type := Fs -> (IoKind + A) * Fs.
#[global] Instance Io_ret : MRet Io := fun A a fs => (inr a, fs).
#[global] Instance Io_bind : MBind Io := fun A B f m fs =>
  match m fs with
  | (inr a, fs') => f a fs'
  | (inl e, fs') => (inl e, fs')
  end.
Definition io_err {A} (e : IoKind) : Io A := fun fs => (inl e, fs).
Definition io_try {A} (m : Io A) : Io (IoKind + A) := fun fs => let '(r, fs') := m fs in (inr r, fs').

Lemma io_bind_eq {A B} (m : Io A) (f : A -> Io B) fs :
  (m ≫= f) fs = match m fs with (inr a, fs') => f a fs' | (inl e, fs') => (inl e, fs') end.
Proof. done. Qed.

(** One system call: what it does to the nodes, and what it has done when it
    fails after [n] bytes. *)
Definition syscall (run : Nodes -> IoKind + Nodes) (partial : nat -> Nodes -> Nodes) : Io unit := fun fs =>
  let '(fault, faults) := match fs_faults fs with [] => (None, []) | f :: l => (f, l) end in
  let done r nodes := (r, mkFs nodes faults (fs_trace fs ++ [nodes])%list) in
  match fault with
  | Some n => done (inl OtherIo) (partial n (fs_nodes fs))
  | None =>
      match run (fs_nodes fs) with
      | inl e => done (inl e) (fs_nodes fs)
      | inr nodes => done (inr ()) nodes
      end
  end.

Definition no_partial (_ : nat) (nodes : Nodes) : Nodes := nodes.

(** Resolving a directory: [None], or why it is not one. *)
Fixpoint dir_status (nodes : Nodes) (p : list string) : option IoKind :=
  match p with
  | [] => None
  | _ :: p' =>
      match dir_status nodes p' with
      | Some e => Some e
      | None =>
          match nodes !! p with
          | Some (Dir _) => None
          | Some (File _ _) => Some NotADirectory
          | None => Some NotFound
          end
      end
  end.

(** A new entry: its directory must exist, the name must be free. *)
Definition create_node (p : list string) (node : Node) (nodes : Nodes) : IoKind + Nodes :=
  match p with
  | [] => inl AlreadyExists
  | _ :: p' =>
      match dir_status nodes p' with
      | Some e => inl e
      | None => if bool_decide (is_Some (nodes !! p)) then inl AlreadyExists else inr (<[p := node]> nodes)
      end
  end.

Definition sys_open_new (p : list string) (mode : Z) : Io unit :=
  syscall (create_node p (File EmptyString mode)) no_partial.
Definition sys_write_all (p : list string) (contents : string) : Io unit :=
  let put c := alter (fun node => match node with File _ m => File c m | Dir m => Dir m end) p in
  syscall (fun nodes => inr (put contents nodes)) (fun n => put (take_string n contents)).
Definition sys_sync_all : Io unit := syscall inr no_partial.
Definition sys_remove_file (p : list string) : Io unit :=
  syscall (fun nodes => match nodes !! p with
                        | Some (File _ _) => inr (delete p nodes)
                        | Some (Dir _) => inl OtherIo
                        | None => inl NotFound
                        end) no_partial.
(** A directory is not replaced by a file. *)
Definition sys_rename (src dst : list string) : Io unit :=
  syscall (fun nodes => match nodes !! src, nodes !! dst with
                        | None, _ => inl NotFound
                        | Some _, Some (Dir _) => inl OtherIo
                        | Some node, _ => inr (<[dst := node]> (delete src nodes))
                        end) no_partial.
Definition sys_chmod (p : list string) (mode : Z) : Io unit :=
  syscall (fun nodes => match nodes !! p with
                        | Some (File c _) => inr (<[p := File c mode]> nodes)
                        | Some (Dir _) => inr (<[p := Dir mode]> nodes)
                        | None => match p with [] => inr nodes | _ => inl NotFound end
                        end) no_partial.
Definition is_dir (p : list string) : Io bool := fun fs =>
  (inr (bool_decide (dir_status (fs_nodes fs) p = None)), fs).

(** ** Files *)

Definition mode_0600 : Z := 6 * 64.
Definition mode_0700 : Z := 7 * 64.

Definition set_file_permissions (p : list string) : Io unit := sys_chmod p mode_0600.
Definition set_dir_permissions (p : list string) : Io unit := sys_chmod p mode_0700.

(** Writes the file that was just created; on failure the file is removed,
    best effort. *)
Definition write_created (p : list string) (contents : string) : Io unit :=
  r ← io_try (sys_write_all p contents ;; sys_sync_all);
  match r with
  | inr _ => mret ()
  | inl e => io_try (sys_remove_file p) ;; io_err e
  end.

(** [.tmp-<uuid>] appended to the file name; a path without a file name has
    none. *)
Definition tmp_path (uuid : string) (p : list string) : option (list string) :=
  match p with
  | [] => None
  | file_name :: dir => Some ((file_name +:+ ".tmp-" +:+ uuid) :: dir)
  end.

Definition write_file_secure (uuid : string) (p : list string) (contents : string) : Io unit :=
  opened ← io_try (sys_open_new p mode_0600);
  match opened with
  | inr _ => write_created p contents
  | inl AlreadyExists =>
      match tmp_path uuid p with
      | None => io_err InvalidInput
      | Some tmp =>
          sys_open_new tmp mode_0600 ;;
          write_created tmp contents ;;
          renamed ← io_try (sys_rename tmp p);
          match renamed with
          | inr _ => mret ()
          | inl e => io_try (sys_remove_file tmp) ;; io_err e
          end
      end
  | inl e => io_err e
  end.

(** The database, then its sidecar files, best effort. *)
Definition sidecars : list string := ["-wal"; "-shm"; "-journal"].
Definition set_sqlite_file_permissions (p : list string) : Io unit :=
  set_file_permissions p ;;
  match p with
  | [] => mret ()
  | file_name :: dir =>
      foldr (fun suffix rest => io_try (set_file_permissions ((file_name +:+ suffix) :: dir)) ;; rest)
        (mret ()) sidecars
  end.

(** ** Directories *)

Definition create_dir_secure (p : list string) : Io unit :=
  syscall (create_node p (Dir mode_0700)) no_partial.

(** The first [loop]: up from [current] to a directory that exists or can be
    made, with the directories left to create, outermost first.  [relative]:
    a relative path of one component has no parent to try. *)
Fixpoint climb (relative : bool) (path current : list string) (to_create : list (list string))
    : Io (list (list string)) :=
  made ← io_try (create_dir_secure current);
  match made with
  | inr _ => mret to_create
  | inl AlreadyExists =>
      dir ← is_dir current;
      if dir : bool then
        (if bool_decide (current = path) then io_try (set_dir_permissions current) ;; mret to_create
         else mret to_create)
      else io_err NotADirectory
  | inl (NotFound as e) | inl (NotADirectory as e) =>
      match current with
      | [] => io_err e
      | _ :: parent =>
          if relative && bool_decide (parent = []) then io_err e
          else climb relative path parent (current :: to_create)
      end
  | inl e => io_err e
  end.

(** The second loop. *)
Fixpoint create_rest (dirs : list (list string)) : Io unit :=
  match dirs with
  | [] => mret ()
  | d :: dirs' =>
      made ← io_try (create_dir_secure d);
      match made with
      | inr _ => create_rest dirs'
      | inl AlreadyExists =>
          dir ← is_dir d;
          if dir : bool then io_try (set_dir_permissions d) ;; create_rest dirs'
          else io_err NotADirectory
      | inl e => io_err e
      end
  end.

Definition create_dir_all_secure (relative : bool) (path : list string) : Io unit :=
  to_create ← climb relative path path [];
  create_rest to_create.

(** ** Writing a file *)

(** The faults that are still to come. *)
Definition faults_left (fs : Fs) : nat :=
  length (List.filter (fun f => match f with Some _ => true | None => false end) (fs_faults fs)).

Lemma syscall_spec run partial fs :
  let '(r, fs') := syscall run partial fs in
  fs_trace fs' = (fs_trace fs ++ [fs_nodes fs'])%list
  /\ ((exists n, r = inl OtherIo /\ fs_nodes fs' = partial n (fs_nodes fs) /\ faults_left fs = S (faults_left fs'))
      \/ faults_left fs' = faults_left fs
         /\ match run (fs_nodes fs) with
            | inl e => r = inl e /\ fs_nodes fs' = fs_nodes fs
            | inr nodes => r = inr () /\ fs_nodes fs' = nodes
            end).
Proof.
  unfold syscall, faults_left. destruct fs as [nodes [|[n|] faults] trace]; simpl.
  - destruct (run nodes); simpl; auto.
  - split; [done|]. left. by exists n.
  - destruct (run nodes); simpl; auto.
Qed.

(** Runs the first system call of the goal. *)
Ltac sys_step :=
  match goal with
  | |- context [syscall ?run ?partial ?fs] =>
      let fs' := fresh "fs" in
      generalize (syscall_spec run partial fs); destruct (syscall run partial fs) as [?r fs'];
      intros [?Ht [(?n & -> & ?Hn & ?Hf)|[?Hf ?Hrun]]]
  end.

Lemma dir_status_kinds nodes p e : dir_status nodes p = Some e -> e = NotFound \/ e = NotADirectory.
Proof.
  induction p as [|x p IH]; simpl; [done|]. destruct (dir_status nodes p); [done|].
  repeat case_match; intros [= <-]; auto.
Qed.

Lemma create_node_inr p node nodes nodes' :
  create_node p node nodes = inr nodes' -> nodes !! p = None /\ nodes' = <[p := node]> nodes.
Proof.
  unfold create_node. destruct p as [|f d]; [done|]. destruct (dir_status nodes d); [done|].
  case_bool_decide as Hb; [done|]. intros [= <-]. split; [|done]. destruct (nodes !! (f :: d)); [|done].
  destruct Hb. eauto.
Qed.

Lemma create_node_exists p node nodes :
  create_node p node nodes = inl AlreadyExists -> p = [] \/ is_Some (nodes !! p).
Proof.
  unfold create_node. destruct p as [|f d]; [by left|]. intros H. right.
  destruct (dir_status nodes d) eqn:E; [injection H as ->; by destruct (dir_status_kinds _ _ _ E)|].
  by case_bool_decide.
Qed.

(** The new states of the disk satisfy [P]. *)
Definition trace_within (P : Nodes -> Prop) (fs fs' : Fs) : Prop :=
  exists new, fs_trace fs' = (fs_trace fs ++ new)%list /\ Forall P new.

Lemma trace_within_refl P fs : trace_within P fs fs.
Proof. exists []. by rewrite app_nil_r. Qed.

Lemma trace_within_step (P : Nodes -> Prop) fs fs1 fs2 :
  trace_within P fs fs1 -> fs_trace fs2 = (fs_trace fs1 ++ [fs_nodes fs2])%list -> P (fs_nodes fs2) ->
  trace_within P fs fs2.
Proof.
  intros (new & Hn & HF) Ht HP. exists (new ++ [fs_nodes fs2])%list. rewrite Ht, Hn, app_assoc.
  split; [done|]. apply Forall_app. by repeat constructor.
Qed.

Lemma trace_within_trans (P : Nodes -> Prop) fs fs1 fs2 :
  trace_within P fs fs1 -> trace_within P fs1 fs2 -> trace_within P fs fs2.
Proof.
  intros (n1 & H1 & F1) (n2 & H2 & F2). exists (n1 ++ n2)%list. rewrite H2, H1, app_assoc.
  split; [done|]. by apply Forall_app.
Qed.

Lemma trace_within_weaken (P Q : Nodes -> Prop) fs fs' :
  (forall n, P n -> Q n) -> trace_within P fs fs' -> trace_within Q fs fs'.
Proof. intros H (new & Hn & HF). exists new. split; [done|]. by eapply Forall_impl. Qed.

(** A file for the owner only with the beginning of [c], all of it at most. *)
Definition partial_file (c : string) (node : Node) : Prop := exists n, node = File (take_string n c) mode_0600.

Lemma partial_empty c : partial_file c (File "" mode_0600).
Proof. by exists 0%nat. Qed.

Lemma partial_whole c : partial_file c (File c mode_0600).
Proof. exists (String.length c). f_equal. by induction c as [|a c IH]; simpl; [|rewrite <- IH]. Qed.

(** [base], with or without a partial file at [p]. *)
Definition scratch (p : list string) (c : string) (base nodes : Nodes) : Prop :=
  nodes = base \/ exists node, partial_file c node /\ nodes = <[p := node]> base.

(** Removing the file that was just created. *)
Lemma remove_created p c x base fs :
  base !! p = None -> partial_file c (File x mode_0600) -> fs_nodes fs = <[p := File x mode_0600]> base ->
  let '(_, fs') := sys_remove_file p fs in
  trace_within (scratch p c base) fs fs'
  /\ (fs_nodes fs' = base /\ faults_left fs' = faults_left fs
      \/ fs_nodes fs' = fs_nodes fs /\ faults_left fs = S (faults_left fs')).
Proof.
  intros Hp Hx Hfs. unfold sys_remove_file. sys_step.
  - split; [|by right]. eapply trace_within_step; [apply trace_within_refl|done|].
    unfold no_partial in Hn. rewrite Hn, Hfs. right. eauto.
  - rewrite Hfs, lookup_insert_eq in Hrun. destruct Hrun as [_ Hn].
    rewrite delete_insert_id in Hn by done. split; [|by left].
    eapply trace_within_step; [apply trace_within_refl|done|]. by left.
Qed.

Lemma alter_file (p : list string) (x y : string) (m : Z) (base : Nodes) :
  alter (fun node => match node with File _ m => File x m | Dir m => Dir m end) p (<[p := File y m]> base)
  = <[p := File x m]> base.
Proof.
  apply map_eq. intros q. destruct (decide (q = p)) as [->|]; [by rewrite lookup_alter_eq, !lookup_insert_eq|].
  by rewrite lookup_alter_ne, !lookup_insert_ne.
Qed.

(** Filling a file that was just created. *)
Lemma write_created_spec p c base fs :
  base !! p = None -> fs_nodes fs = <[p := File EmptyString mode_0600]> base ->
  let '(r, fs') := write_created p c fs in
  trace_within (scratch p c base) fs fs' /\ (faults_left fs' <= faults_left fs)%nat
  /\ match r with
     | inr _ => fs_nodes fs' = <[p := File c mode_0600]> base
     | inl _ => scratch p c base (fs_nodes fs') /\ (faults_left fs' < faults_left fs)%nat
         /\ (fs_nodes fs' = base \/ (S (faults_left fs') < faults_left fs)%nat)
     end.
Proof.
  intros Hp Hfs. unfold write_created. rewrite io_bind_eq. unfold io_try at 1. rewrite io_bind_eq.
  assert (forall x, partial_file c (File x mode_0600) -> scratch p c base (<[p := File x mode_0600]> base)) as Hsc
    by (intros x; right; eauto).
  assert (forall n, partial_file c (File (take_string n c) mode_0600)) as Hpart by (intros n; by exists n).
  pose proof (partial_whole c) as Hwhole.
  (* the write or the sync failed, leaving [x] *)
  assert (forall x fs1 e, partial_file c (File x mode_0600) -> trace_within (scratch p c base) fs fs1 -> fs_nodes fs1 = <[p := File x mode_0600]> base ->
    (faults_left fs1 < faults_left fs)%nat ->
    let '(r, fs') := (io_try (sys_remove_file p) ;; io_err e) fs1 in
    trace_within (scratch p c base) fs fs' /\ (faults_left fs' <= faults_left fs)%nat
    /\ match r : IoKind + unit with
       | inr _ => fs_nodes fs' = <[p := File c mode_0600]> base
       | inl _ => scratch p c base (fs_nodes fs') /\ (faults_left fs' < faults_left fs)%nat
           /\ (fs_nodes fs' = base \/ (S (faults_left fs') < faults_left fs)%nat)
       end) as Hclean.
  { intros x fs1 e Hx Ht Hn Hf. rewrite io_bind_eq. unfold io_try.
    pose proof (remove_created p c x base fs1 Hp Hx Hn) as H. destruct (sys_remove_file p fs1) as [r fs2]. simpl.
    destruct H as [Ht2 [[Hb Hl]|[Hb Hl]]]; (split_and!; [by eapply trace_within_trans|lia| |lia|]);
      rewrite ?Hb, ?Hn; auto; [by left|right; lia]. }
  unfold sys_write_all. sys_step.
  - rewrite Hfs, alter_file in Hn. simpl. eapply Hclean; [apply Hpart| |exact Hn|lia].
    eapply trace_within_step; [apply trace_within_refl|done|]. rewrite Hn. auto.
  - destruct Hrun as [-> Hn]. rewrite Hfs, alter_file in Hn. cbv iota.
    assert (trace_within (scratch p c base) fs fs0) as Ht0
      by (eapply trace_within_step; [apply trace_within_refl|done|rewrite Hn; auto]).
    unfold sys_sync_all. sys_step.
    + unfold no_partial in Hn0. simpl. eapply Hclean; [exact Hwhole| |by rewrite Hn0|lia].
      eapply trace_within_step; [exact Ht0|done|]. rewrite Hn0, Hn. auto.
    + destruct Hrun as [-> Hn1]. simpl. split_and!; [|lia|congruence].
      eapply trace_within_step; [exact Ht0|done|]. rewrite Hn1, Hn. auto.
Qed.

Lemma tmp_path_ne uuid p tmp : tmp_path uuid p = Some tmp -> tmp <> p.
Proof.
  destruct p as [|f d]; [done|]. simpl. intros [= <-] [= E]. apply (f_equal String.length) in E.
  rewrite string_length_app in E. simpl in E. lia.
Qed.

(** What a state of the disk may show while a write of [c] to [p] is under
    way.  An old file at [p] is there whole, or replaced whole; a new one is
    not there, or there with the beginning of [c]; the temporary file is as it
    was, or new with the beginning of [c]; every other path is as it was. *)
Record write_state (uuid : string) (p : list string) (c : string) (before nodes : Nodes) : Prop := {
  ws_other q : q <> p -> tmp_path uuid p <> Some q -> nodes !! q = before !! q;
  ws_old node : before !! p = Some node -> nodes !! p = Some node \/ nodes !! p = Some (File c mode_0600);
  ws_new : before !! p = None -> nodes !! p = None \/ exists node, nodes !! p = Some node /\ partial_file c node;
  ws_tmp tmp : tmp_path uuid p = Some tmp ->
    nodes !! tmp = before !! tmp
    \/ before !! tmp = None /\ exists node, nodes !! tmp = Some node /\ partial_file c node;
}.

Lemma write_state_refl uuid p c n : write_state uuid p c n n.
Proof. split; auto. Qed.

Lemma write_state_fresh uuid p c before nodes :
  before !! p = None -> scratch p c before nodes -> write_state uuid p c before nodes.
Proof.
  intros Hp [->|[node [Hn ->]]]; [apply write_state_refl|]. split.
  - intros q Hq _. by rewrite lookup_insert_ne.
  - congruence.
  - intros _. right. exists node. by rewrite lookup_insert_eq.
  - intros tmp Ht%tmp_path_ne. left. by rewrite lookup_insert_ne.
Qed.

Lemma write_state_tmp uuid p tmp c before nodes :
  tmp_path uuid p = Some tmp -> before !! tmp = None -> scratch tmp c before nodes ->
  write_state uuid p c before nodes.
Proof.
  intros Ht Hb [->|[node [Hn ->]]]; [apply write_state_refl|]. pose proof (tmp_path_ne _ _ _ Ht) as Hne. split.
  - intros q _ Hq. rewrite lookup_insert_ne; [done|]. congruence.
  - intros x Hx. left. by rewrite lookup_insert_ne.
  - intros Hx. left. by rewrite lookup_insert_ne.
  - intros tmp' Ht'. assert (tmp' = tmp) as -> by congruence. right. split; [done|]. exists node.
    by rewrite lookup_insert_eq.
Qed.

Lemma write_state_done uuid p c before : write_state uuid p c before (<[p := File c mode_0600]> before).
Proof.
  split.
  - intros q Hq _. by rewrite lookup_insert_ne.
  - intros node _. right. by rewrite lookup_insert_eq.
  - intros _. right. eexists. rewrite lookup_insert_eq. split; [done|apply partial_whole].
  - intros tmp Ht%tmp_path_ne. left. by rewrite lookup_insert_ne.
Qed.

(** The outcome of a write: [c] is at [p], or nothing changed (up to a
    leftover when more calls fail than the clean-up can take). *)
Definition write_outcome (uuid : string) (p : list string) (c : string) (fs : Fs) (r : IoKind + unit) (fs' : Fs) : Prop :=
  trace_within (write_state uuid p c (fs_nodes fs)) fs fs'
  /\ match r with
     | inr _ => fs_nodes fs' = <[p := File c mode_0600]> (fs_nodes fs)
     | inl _ => (faults_left fs <= 1)%nat -> (forall m, fs_nodes fs !! p <> Some (Dir m)) -> fs_nodes fs' = fs_nodes fs
     end.

(** After a failed rename: the temporary file is removed. *)
Lemma failed_rename uuid p tmp c e fs fs2 fs3 :
  tmp_path uuid p = Some tmp -> fs_nodes fs !! tmp = None -> trace_within (write_state uuid p c (fs_nodes fs)) fs fs2 ->
  fs_trace fs3 = (fs_trace fs2 ++ [fs_nodes fs3])%list ->
  fs_nodes fs3 = <[tmp := File c mode_0600]> (fs_nodes fs) ->
  (faults_left fs3 < faults_left fs)%nat \/ (exists m, fs_nodes fs !! p = Some (Dir m)) ->
  let '(r, fs') := (io_try (sys_remove_file tmp) ;; io_err e) fs3 in write_outcome uuid p c fs r fs'.
Proof.
  intros Htp Htmp Ht2 Ht3 Hn3 Hcase. unfold write_outcome. rewrite io_bind_eq. unfold io_try.
  pose proof (remove_created tmp c c (fs_nodes fs) fs3 Htmp (partial_whole c) Hn3) as H.
  destruct (sys_remove_file tmp fs3) as [r fs4]. destruct H as [Ht4 Hend]. simpl. split.
  - eapply trace_within_trans; [eapply trace_within_step; [exact Ht2|done|]|].
    + rewrite Hn3. eapply write_state_tmp; [done|done|]. right. eauto using partial_whole.
    + eapply trace_within_weaken; [|exact Ht4]. intros n. by apply write_state_tmp.
  - intros Hle Hd. destruct Hend as [[Hend _]|[_ Hend]]; [done|].
    destruct Hcase as [Hlt|[m Hm]]; [lia|]. by destruct (Hd m).
Qed.

(** Overwriting: the temporary file, then the rename. *)
Lemma overwrite_spec uuid p tmp c fs fs0 :
  tmp_path uuid p = Some tmp -> is_Some (fs_nodes fs !! p) -> fs_nodes fs0 = fs_nodes fs ->
  (faults_left fs0 <= faults_left fs)%nat -> trace_within (write_state uuid p c (fs_nodes fs)) fs fs0 ->
  let '(r, fs') :=
    (sys_open_new tmp mode_0600 ;; write_created tmp c ;; renamed ← io_try (sys_rename tmp p);
     match renamed with
     | inr _ => mret ()
     | inl e => io_try (sys_remove_file tmp) ;; io_err e
     end) fs0 in
  write_outcome uuid p c fs r fs'.
Proof.
  intros Htp Hp Hn0 Hf0 Ht0. pose proof (tmp_path_ne _ _ _ Htp) as Hne. unfold write_outcome. rewrite io_bind_eq. unfold sys_open_new. sys_step.
  { split; [|intros; unfold no_partial in Hn; congruence].
    eapply trace_within_step; [exact Ht0|done|]. unfold no_partial in Hn. rewrite Hn, Hn0. apply write_state_refl. }
  destruct (create_node tmp (File "" mode_0600) (fs_nodes fs0)) as [e|n1] eqn:Ec.
  { destruct Hrun as [-> Hn]. split; [|intros; congruence].
    eapply trace_within_step; [exact Ht0|done|]. rewrite Hn, Hn0. apply write_state_refl. }
  destruct Hrun as [-> Hn]. assert (fs_nodes fs !! tmp = None /\ n1 = <[tmp := File "" mode_0600]> (fs_nodes fs)) as [Htmp ->].
  { rewrite Hn0 in Ec. by apply create_node_inr in Ec. }
  assert (trace_within (write_state uuid p c (fs_nodes fs)) fs fs1) as Ht1.
  { eapply trace_within_step; [exact Ht0|done|]. rewrite Hn. eapply write_state_tmp; [done|done|]. right. eauto using partial_empty. }
  rewrite io_bind_eq. pose proof (write_created_spec tmp c (fs_nodes fs) fs1 Htmp Hn) as Hw.
  destruct (write_created tmp c fs1) as [[e|[]] fs2].
  { destruct Hw as (Ht2 & _ & _ & Hlt & Hb). split.
    - eapply trace_within_trans; [exact Ht1|]. eapply trace_within_weaken; [|exact Ht2].
      intros n. by apply write_state_tmp.
    - intros Hle _. destruct Hb as [Hb|Hb]; [done|lia]. }
  destruct Hw as (Ht2 & Hf2 & Hn2).
  assert (trace_within (write_state uuid p c (fs_nodes fs)) fs fs2) as Ht02.
  { eapply trace_within_trans; [exact Ht1|]. eapply trace_within_weaken; [|exact Ht2].
    intros n. by apply write_state_tmp. }
  rewrite io_bind_eq. unfold io_try at 1. unfold sys_rename. sys_step.
  { eapply failed_rename; [done|done|exact Ht02|done|unfold no_partial in *; congruence|]. left. lia. }
  rewrite Hn2, lookup_insert_eq, lookup_insert_ne in Hrun by done.
  destruct Hp as [node Hp]. rewrite Hp in Hrun. destruct node as [x m|m].
  - destruct Hrun as [-> Hn3]. rewrite delete_insert_id in Hn3 by done. simpl. split; [|done].
    eapply trace_within_step; [exact Ht02|done|]. rewrite Hn3. apply write_state_done.
  - destruct Hrun as [-> Hn3]. eapply failed_rename; [done|done|exact Ht02|done|congruence|]. right. eauto.
Qed.

Lemma write_file_secure_outcome uuid p c fs :
  let '(r, fs') := write_file_secure uuid p c fs in write_outcome uuid p c fs r fs'.
Proof.
  unfold write_file_secure, write_outcome. rewrite io_bind_eq. unfold io_try at 1, sys_open_new at 1. sys_step.
  { unfold no_partial in Hn. simpl. split; [|done].
    eapply trace_within_step; [apply trace_within_refl|done|]. rewrite Hn. apply write_state_refl. }
  destruct (create_node p (File "" mode_0600) (fs_nodes fs)) as [e|n1] eqn:Ec.
  - destruct Hrun as [-> Hn].
    assert (trace_within (write_state uuid p c (fs_nodes fs)) fs fs0) as Ht0.
    { eapply trace_within_step; [apply trace_within_refl|done|]. rewrite Hn. apply write_state_refl. }
    destruct e; try done. destruct (tmp_path uuid p) as [tmp|] eqn:Etmp; [|done].
    apply overwrite_spec; [done| |done|lia|done].
    apply create_node_exists in Ec as [->|Ec]; [done|exact Ec].
  - destruct Hrun as [-> Hn].
    assert (fs_nodes fs !! p = None /\ n1 = <[p := File "" mode_0600]> (fs_nodes fs)) as [Hp ->].
    { by apply create_node_inr in Ec. }
    pose proof (write_created_spec p c (fs_nodes fs) fs0 Hp Hn) as Hw.
    destruct (write_created p c fs0) as [[e|[]] fs1]; (split;
      [eapply trace_within_trans; [eapply trace_within_step; [apply trace_within_refl|done|]|];
         [rewrite Hn; eapply write_state_fresh; [done|]; right; eauto using partial_empty
         |eapply trace_within_weaken; [intros n; by apply write_state_fresh|apply Hw]]|]).
    + intros Hle _. destruct Hw as (_ & _ & _ & Hlt & [Hb|Hb]); [done|lia].
    + apply Hw.
Qed.

(** Without faults a system call is its effect. *)
Lemma syscall_quiet run partial nodes trace :
  syscall run partial (mkFs nodes [] trace)
  = match run nodes with
    | inl e => (inl e, mkFs nodes [] (trace ++ [nodes])%list)
    | inr n => (inr (), mkFs n [] (trace ++ [n])%list)
    end.
Proof. unfold syscall. simpl. by destruct (run nodes). Qed.

Lemma create_node_ok (f : string) (d : list string) (node : Node) (nodes : Nodes) :
  dir_status nodes d = None -> nodes !! (f :: d) = None -> create_node (f :: d) node nodes = inr (<[f :: d := node]> nodes).
Proof. intros Hd Hn. simpl. rewrite Hd, bool_decide_false; [done|]. rewrite Hn. by intros []. Qed.

Lemma write_created_quiet p c base trace :
  exists trace', write_created p c (mkFs (<[p := File "" mode_0600]> base) [] trace)
    = (inr (), mkFs (<[p := File c mode_0600]> base) [] trace').
Proof.
  eexists. unfold write_created, io_try, sys_write_all, sys_sync_all. rewrite io_bind_eq. rewrite io_bind_eq.
  rewrite syscall_quiet, alter_file. cbv beta iota. rewrite syscall_quiet. reflexivity.
Qed.

Lemma write_file_secure_succeeds uuid f d c nodes trace :
  dir_status nodes d = None -> (forall m, nodes !! (f :: d) <> Some (Dir m)) ->
  nodes !! ((f +:+ ".tmp-" +:+ uuid) :: d) = None ->
  (write_file_secure uuid (f :: d) c (mkFs nodes [] trace)).1 = inr ().
Proof.
  intros Hd Hp Htmp. unfold write_file_secure. rewrite io_bind_eq. unfold io_try at 1, sys_open_new at 1.
  rewrite syscall_quiet. destruct (nodes !! (f :: d)) as [node|] eqn:E.
  - assert (create_node (f :: d) (File "" mode_0600) nodes = inl AlreadyExists) as ->
      by (simpl; rewrite Hd, E; by rewrite bool_decide_true by eauto).
    cbv beta iota. unfold tmp_path. rewrite io_bind_eq. unfold sys_open_new.
    rewrite syscall_quiet, create_node_ok by done. cbv beta iota. rewrite io_bind_eq.
    destruct (write_created_quiet ((f +:+ ".tmp-" +:+ uuid) :: d) c nodes ((trace ++ [nodes]) ++ [<[(f +:+ ".tmp-" +:+ uuid) :: d := File "" mode_0600]> nodes])%list)
      as [trace' ->]. rewrite io_bind_eq. unfold io_try at 1, sys_rename. rewrite syscall_quiet.
    rewrite lookup_insert_eq, lookup_insert_ne by (apply (tmp_path_ne uuid (f :: d)); done). rewrite E.
    destruct node as [x m|m]; [done|by destruct (Hp m)].
  - rewrite create_node_ok by done. cbv beta iota.
    destruct (write_created_quiet (f :: d) c nodes (trace ++ [<[f :: d := File "" mode_0600]> nodes])%list) as [trace' E'].
    cbv beta iota in *. by rewrite E'.
Qed.

(** C35. [write_file_secure] writes for the owner's eyes only, and replaces an
    old file atomically.  Whatever calls fail: if it succeeds, the disk is the
    old one with [c] at [p], mode 0600.  At every moment, so also after a
    crash, an old file at [p] is there whole or replaced whole; a file that did
    not exist is made in place, so that it may be seen missing, or with mode
    0600 and only the beginning of [c]; the temporary file, when it is there,
    is new, of mode 0600 and holds the beginning of [c]; and every other path
    is as it was.  If it fails and at most one call failed, the disk is as it
    was (a directory at [p] aside); and when the directory exists and nothing
    fails, it succeeds. *)
Theorem write_file_secure_atomic (uuid : string) (p : list string) (c : string) (fs : Fs) :
  let '(r, fs') := write_file_secure uuid p c fs in
  trace_within (write_state uuid p c (fs_nodes fs)) fs fs'
  /\ match r with
     | inr _ => fs_nodes fs' = <[p := File c mode_0600]> (fs_nodes fs)
     | inl _ => (faults_left fs <= 1)%nat -> (forall m, fs_nodes fs !! p <> Some (Dir m)) ->
                fs_nodes fs' = fs_nodes fs
     end
  /\ (forall f d, p = f :: d -> fs_faults fs = [] -> dir_status (fs_nodes fs) d = None ->
        (forall m, fs_nodes fs !! p <> Some (Dir m)) -> fs_nodes fs !! ((f +:+ ".tmp-" +:+ uuid) :: d) = None ->
        r = inr ()).
Proof.
  pose proof (write_file_secure_outcome uuid p c fs) as H.
  destruct (write_file_secure uuid p c fs) as [r fs'] eqn:E. destruct H as [Ht Hr]. split_and!; [done|done|].
  intros f d -> Hf Hd Hp Htmp. destruct fs as [nodes faults trace]. simpl in *. subst faults.
  pose proof (write_file_secure_succeeds uuid f d c nodes trace Hd Hp Htmp) as Hok. by rewrite E in Hok.
Qed.

(** ** Making directories *)

(** Every entry lies in a directory, and the root is not an entry. *)
Definition well_formed (nodes : Nodes) : Prop :=
  nodes !! [] = None /\ forall x d, is_Some (nodes !! (x :: d)) -> dir_status nodes d = None.

(** [nodes'] has new directories of mode 0700, and possibly a directory at
    [path] made private; nothing else differs. *)
Definition dirs_added (path : list string) (nodes nodes' : Nodes) : Prop :=
  forall q, nodes' !! q = nodes !! q \/ nodes !! q = None /\ nodes' !! q = Some (Dir mode_0700)
    \/ q = path /\ (exists m, nodes !! q = Some (Dir m)) /\ nodes' !! q = Some (Dir mode_0700).

Lemma dirs_added_refl path nodes : dirs_added path nodes nodes.
Proof. intros q. by left. Qed.

Lemma dirs_added_trans path n1 n2 n3 : dirs_added path n1 n2 -> dirs_added path n2 n3 -> dirs_added path n1 n3.
Proof.
  intros H12 H23 q. specialize (H12 q). specialize (H23 q).
  destruct H12 as [E1|[[E1 E1']|(P1 & [m E1] & E1')]], H23 as [E2|[[E2 E2']|(P2 & [m' E2] & E2')]];
    try congruence; try (left; congruence); try (right; left; split; congruence);
    right; right; (split; [done|]); (split; [first [exists m; congruence|exists m'; congruence]|congruence]).
Qed.

Lemma dir_status_added path nodes nodes' p :
  dirs_added path nodes nodes' -> dir_status nodes p = None -> dir_status nodes' p = None.
Proof.
  intros Ha. induction p as [|x p IH]; simpl; [done|]. destruct (dir_status nodes p) eqn:E; [done|].
  rewrite IH by done. destruct (Ha (x :: p)) as [->|[[-> ->]|(-> & [m ->] & ->)]]; done.
Qed.

Lemma create_dir_secure_spec path p fs :
  let '(r, fs') := create_dir_secure p fs in
  match r with
  | inr _ => fs_nodes fs !! p = None /\ fs_nodes fs' = <[p := Dir mode_0700]> (fs_nodes fs)
             /\ dirs_added path (fs_nodes fs) (fs_nodes fs') /\ dir_status (fs_nodes fs') p = None
             /\ exists x d, p = x :: d /\ dir_status (fs_nodes fs) d = None
  | inl e => fs_nodes fs' = fs_nodes fs
             /\ (e = OtherIo \/ e = AlreadyExists /\ (p = [] \/ is_Some (fs_nodes fs !! p))
                 \/ exists x d, p = x :: d /\ dir_status (fs_nodes fs) d = Some e)
  end.
Proof.
  unfold create_dir_secure. sys_step; [by auto|].
  destruct (create_node p (Dir mode_0700) (fs_nodes fs)) as [e|n1] eqn:Ec.
  - destruct Hrun as [-> Hn]. split; [done|]. right. unfold create_node in Ec. destruct p as [|x d].
    + injection Ec as <-. auto.
    + destruct (dir_status _ d) eqn:Ed; [injection Ec as <-; right; eauto|].
      case_bool_decide; [injection Ec as <-; auto|done].
  - destruct Hrun as [-> Hn]. pose proof (create_node_inr _ _ _ _ Ec) as [Hp ->].
    assert (dirs_added path (fs_nodes fs) (fs_nodes fs0)) as Ha.
    { rewrite Hn. intros q. destruct (decide (q = p)) as [->|]; [rewrite lookup_insert_eq; auto|].
      rewrite lookup_insert_ne by done. by left. }
    unfold create_node in Ec. destruct p as [|x d]; [done|].
    destruct (dir_status (fs_nodes fs) d) eqn:Ed; [done|]. split_and!; [done|done|done| |eauto].
    simpl. rewrite (dir_status_added path _ _ _ Ha Ed), Hn, lookup_insert_eq. done.
Qed.

(** Without faults. *)
Lemma create_dir_secure_quiet p fs :
  faults_left fs = 0%nat ->
  faults_left (create_dir_secure p fs).2 = 0%nat /\ (create_dir_secure p fs).1 <> inl OtherIo.
Proof.
  intros Hq. unfold create_dir_secure. sys_step; [lia|]. simpl. split; [lia|].
  unfold create_node in Hrun. destruct p as [|x d]; [by destruct Hrun as [-> _]|].
  destruct (dir_status (fs_nodes fs) d) as [e|] eqn:E.
  - destruct Hrun as [-> _]. by destruct (dir_status_kinds _ _ _ E) as [-> | ->].
  - case_bool_decide; by destruct Hrun as [-> _].
Qed.

Lemma well_formed_insert x d m nodes :
  well_formed nodes -> dir_status nodes d = None -> well_formed (<[x :: d := Dir m]> nodes).
Proof.
  intros [Hroot Hwf] Hd. split; [by rewrite lookup_insert_ne|]. intros y e.
  assert (forall p, dir_status nodes p = None -> dir_status (<[x :: d := Dir m]> nodes) p = None) as Hmono.
  { induction p as [|z p IH]; simpl; [done|]. destruct (dir_status nodes p); [done|]. rewrite IH by done.
    destruct (decide (x :: d = z :: p)) as [<-|]; [by rewrite lookup_insert_eq|by rewrite lookup_insert_ne]. }
  destruct (decide (x :: d = y :: e)) as [[= <- <-]|]; [intros _; by apply Hmono|].
  rewrite lookup_insert_ne by done. intros H%Hwf. by apply Hmono.
Qed.

(** [l] leads from [base] down to [leaf]. *)
Fixpoint chain (base : list string) (l : list (list string)) (leaf : list string) : Prop :=
  match l with
  | [] => base = leaf
  | p :: l' => (exists x, p = x :: base) /\ chain p l' leaf
  end.

Lemma set_dir_permissions_added p fs :
  well_formed (fs_nodes fs) -> dir_status (fs_nodes fs) p = None ->
  dirs_added p (fs_nodes fs) (fs_nodes (set_dir_permissions p fs).2)
  /\ well_formed (fs_nodes (set_dir_permissions p fs).2)
  /\ (faults_left fs = 0%nat -> faults_left (set_dir_permissions p fs).2 = 0%nat).
Proof.
  intros Hwf Hd. unfold set_dir_permissions, sys_chmod. sys_step; simpl.
  - rewrite Hn. split_and!; [apply dirs_added_refl|done|lia].
  - apply and_assoc. split; [|lia]. destruct p as [|x d]; [rewrite (proj1 Hwf) in Hrun; destruct Hrun as [_ ->]; by split; [apply dirs_added_refl|]|].
    simpl in Hd. destruct (dir_status (fs_nodes fs) d) eqn:Ed; [done|].
    destruct (fs_nodes fs !! (x :: d)) as [[c m|m]|] eqn:E; [done| |done].
    destruct Hrun as [_ ->]. split; [|by apply well_formed_insert].
    intros q. destruct (decide (q = x :: d)) as [->|]; [|left; by rewrite lookup_insert_ne].
    rewrite lookup_insert_eq. right. right. eauto.
Qed.

Lemma chain_longer base l leaf p : chain base l leaf -> p ∈ l -> (length base < length p)%nat.
Proof.
  revert base. induction l as [|q l IH]; intros base; simpl; [by intros _ ?%not_elem_of_nil|].
  intros [[x ->] Hc] [->|Hp]%elem_of_cons; [simpl; lia|]. specialize (IH _ Hc Hp). simpl in IH. lia.
Qed.

Lemma chain_length base l leaf : chain base l leaf -> length leaf = (length base + length l)%nat.
Proof.
  revert base. induction l as [|q l IH]; intros base; simpl; [intros ->; lia|].
  intros [[x ->] Hc]. rewrite (IH _ Hc). simpl. lia.
Qed.

Lemma absent_insert (base : list string) (l : list (list string)) (leaf : list string) (node : Node) (nodes : Nodes) :
  chain base l leaf -> (forall p, p ∈ l -> nodes !! p = None) ->
  forall p, p ∈ l -> <[base := node]> nodes !! p = None.
Proof.
  intros Hc Hl p Hp. pose proof (chain_longer _ _ _ _ Hc Hp).
  rewrite lookup_insert_ne; [by apply Hl|]. intros ->. lia.
Qed.

(** What the two loops promise: [l] is what is left to create. *)
Definition climbed (path : list string) (nodes : Nodes) (l : list (list string)) : Prop :=
  exists base, chain base l path /\ dir_status nodes base = None /\ forall p, p ∈ l -> nodes !! p = None.

(** Leaving the first loop with the directories [to_create]. *)
Definition climb_outcome (path current : list string) (fs : Fs) (r : IoKind + list (list string)) (fs' : Fs) : Prop :=
  dirs_added path (fs_nodes fs) (fs_nodes fs') /\ well_formed (fs_nodes fs')
  /\ (forall l, r = inr l -> climbed path (fs_nodes fs') l)
  /\ (faults_left fs = 0%nat -> faults_left fs' = 0%nat
        /\ (dir_status (fs_nodes fs) current <> Some NotADirectory -> exists l, r = inr l)).

(** The directory is there already. *)
Lemma climb_exists path current to_create fs fs1 :
  well_formed (fs_nodes fs) -> chain current to_create path -> (forall p, p ∈ to_create -> fs_nodes fs !! p = None) ->
  fs_nodes fs1 = fs_nodes fs -> (faults_left fs = 0%nat -> faults_left fs1 = 0%nat) ->
  current = [] \/ is_Some (fs_nodes fs !! current) ->
  let '(r, fs') :=
    (dir ← is_dir current;
     if dir : bool then
       (if bool_decide (current = path) then io_try (set_dir_permissions current) ;; mret to_create
        else mret to_create)
     else io_err NotADirectory) fs1 in
  climb_outcome path current fs r fs'.
Proof.
  intros Hwf Hc Habs Hn Hq Hcur. unfold climb_outcome. rewrite io_bind_eq. unfold is_dir. rewrite Hn.
  case_bool_decide as Hd; cbv beta iota.
  - assert (climbed path (fs_nodes fs) to_create) as Hcl by (exists current; eauto).
    case_bool_decide as Ep.
    + subst path. rewrite io_bind_eq. unfold io_try.
      destruct (set_dir_permissions_added current fs1) as (Ha & Hw & Hf); [by rewrite Hn|by rewrite Hn|].
      destruct (set_dir_permissions current fs1) as [r fs2]. simpl in *. rewrite Hn in *. split_and!; [done|done| |].
      * intros l [= <-]. apply chain_length in Hc as Hl. destruct to_create as [|q tc]; [|simpl in Hl; lia].
        exists current. split_and!; [done|by eapply dir_status_added|]. by intros p ?%not_elem_of_nil.
      * intros H0. split; [auto|eauto].
    + simpl. rewrite Hn. split_and!; [apply dirs_added_refl|done|by intros l [= <-]|]. intros H0. split; [auto|eauto].
  - simpl. rewrite Hn. split_and!; [apply dirs_added_refl|done|done|]. intros H0. split; [auto|]. intros Hna.
    exfalso. destruct current as [|x d]; [done|]. destruct Hcur as [|Hcur]; [done|].
    pose proof (proj2 Hwf x d Hcur) as Ed. simpl in Hd, Hna. rewrite Ed in *. by repeat case_match.
Qed.

Lemma climb_failed path current fs fs1 e :
  well_formed (fs_nodes fs) -> fs_nodes fs1 = fs_nodes fs ->
  (faults_left fs = 0%nat -> False) -> climb_outcome path current fs (inl e) fs1.
Proof.
  intros Hwf Hn Hq. unfold climb_outcome. rewrite Hn. split_and!; [apply dirs_added_refl|done|done|].
  intros H0. by destruct (Hq H0).
Qed.

Lemma climb_spec relative path current to_create fs :
  well_formed (fs_nodes fs) -> chain current to_create path -> (forall p, p ∈ to_create -> fs_nodes fs !! p = None) ->
  let '(r, fs') := climb relative path current to_create fs in climb_outcome path current fs r fs'.
Proof.
  revert to_create fs. induction current as [|x parent IH]; intros tc fs Hwf Hc Habs; simpl climb;
    rewrite io_bind_eq; unfold io_try at 1.
  - pose proof (create_dir_secure_spec path [] fs) as H. pose proof (create_dir_secure_quiet [] fs) as Hq.
    destruct (create_dir_secure [] fs) as [[e|[]] fs1]; simpl in Hq; [|by destruct H as (_ & _ & _ & _ & x & d & ? & _)].
    destruct H as [Hn [->|[[-> _]|(? & ? & ? & _)]]]; [|apply climb_exists; try done; naive_solver|done].
    apply climb_failed; [done|done|]. intros H0. by destruct (Hq H0).
  - pose proof (create_dir_secure_spec path (x :: parent) fs) as H.
    pose proof (create_dir_secure_quiet (x :: parent) fs) as Hq.
    destruct (create_dir_secure (x :: parent) fs) as [[e|[]] fs1]; simpl in Hq; cbv beta iota.
    + destruct H as [Hn [->|[[-> Hex]|(x' & d & [= <- <-] & Hd)]]].
      * apply climb_failed; [done|done|]. intros H0. by destruct (Hq H0).
      * apply climb_exists; try done. naive_solver.
      * assert (parent <> []) as Hpar by (intros ->; done).
        assert (fs_nodes fs !! (x :: parent) = None) as Hnone.
        { destruct (fs_nodes fs !! (x :: parent)) eqn:E; [|done].
          pose proof (proj2 Hwf x parent ltac:(rewrite E; eauto)). congruence. }
        assert (let '(r, fs') := climb relative path parent ((x :: parent) :: tc) fs1 in
                climb_outcome path (x :: parent) fs r fs') as Hup.
        { specialize (IH ((x :: parent) :: tc) fs1). rewrite Hn in IH.
          specialize (IH Hwf). destruct (climb relative path parent ((x :: parent) :: tc) fs1) as [r fs'].
          destruct IH as (Ha & Hw & Hl & Hf); [split; [by exists x|done]| |].
          { intros p [->|Hp]%elem_of_cons; auto. }
          rewrite Hn in *. unfold climb_outcome. split_and!; [done|done|done|]. intros H0.
          destruct (Hf (proj1 (Hq H0))) as [Hf' Hr]. split; [done|]. intros Hna. apply Hr. simpl in Hna.
          intros Hp. rewrite Hp in *. congruence. }
        destruct (dir_status_kinds _ _ _ Hd) as [-> | ->]; rewrite (bool_decide_false (parent = [])), andb_false_r; done.
    + destruct H as (Hnone & Hn & Ha & Hd & x' & d & [= <- <-] & Hdp). unfold climb_outcome. simpl.
      split_and!; [done|rewrite Hn; by apply well_formed_insert| |].
      * intros l [= <-]. exists (x :: parent). split_and!; [done|done|]. rewrite Hn. by eapply absent_insert.
      * intros H0. split; [by apply Hq|eauto].
Qed.

Lemma create_rest_spec path base l fs :
  well_formed (fs_nodes fs) -> chain base l path -> dir_status (fs_nodes fs) base = None ->
  (forall p, p ∈ l -> fs_nodes fs !! p = None) ->
  let '(r, fs') := create_rest l fs in
  dirs_added path (fs_nodes fs) (fs_nodes fs') /\ well_formed (fs_nodes fs')
  /\ (r = inr () -> dir_status (fs_nodes fs') path = None)
  /\ (faults_left fs = 0%nat -> r = inr ()).
Proof.
  revert base fs. induction l as [|p l IH]; intros base fs Hwf Hc Hb Habs; simpl create_rest.
  - simpl in Hc. subst path. split_and!; [apply dirs_added_refl|done|done|done].
  - destruct Hc as [[x ->] Hc]. rewrite io_bind_eq. unfold io_try at 1.
    pose proof (create_dir_secure_spec path (x :: base) fs) as H.
    pose proof (create_dir_secure_quiet (x :: base) fs) as Hq.
    destruct (create_dir_secure (x :: base) fs) as [[e|[]] fs1]; simpl in Hq; cbv beta iota.
    + destruct H as [Hn [->|[[-> [?|Hex]]|(x' & d & [= <- <-] & Hd)]]]; [|done| |congruence].
      * simpl. rewrite Hn. split_and!; [apply dirs_added_refl|done|done|]. intros H0. by destruct (Hq H0).
      * rewrite (Habs (x :: base)) in Hex by apply elem_of_cons, or_introl, eq_refl. by destruct Hex.
    + destruct H as (Hnone & Hn & Ha & Hd & _).
      specialize (IH (x :: base) fs1). rewrite Hn in IH at 1.
      specialize (IH ltac:(by apply well_formed_insert) Hc Hd).
      destruct (create_rest l fs1) as [r fs']. destruct IH as (Ha' & Hw & Hr & Hf).
      { rewrite Hn. eapply absent_insert; [exact Hc|]. intros p Hp. apply Habs. by apply elem_of_cons; right. }
      split_and!; [by eapply dirs_added_trans|done|done|]. intros H0. apply Hf. by apply Hq.
Qed.

(** [create_dir_all_secure] makes private directories and nothing else.
    Whatever calls fail: the only changes are new directories of mode 0700 and
    the directory asked for made private, and the tree stays well formed; if
    it succeeds, the path is a directory; and when no call fails and no file
    is in the way, it succeeds. *)
Theorem create_dir_all_secure_private (relative : bool) (path : list string) (fs : Fs) :
  well_formed (fs_nodes fs) ->
  let '(r, fs') := create_dir_all_secure relative path fs in
  dirs_added path (fs_nodes fs) (fs_nodes fs') /\ well_formed (fs_nodes fs')
  /\ (r = inr () -> dir_status (fs_nodes fs') path = None)
  /\ (faults_left fs = 0%nat -> dir_status (fs_nodes fs) path <> Some NotADirectory -> r = inr ()).
Proof.
  intros Hwf. unfold create_dir_all_secure. rewrite io_bind_eq.
  pose proof (climb_spec relative path path [] fs Hwf eq_refl ltac:(by intros p ?%not_elem_of_nil)) as H.
  destruct (climb relative path path [] fs) as [[e|l] fs1]; destruct H as (Ha & Hw & Hl & Hq).
  - split_and!; [done|done|done|]. intros H0 Hna. by destruct (proj2 (Hq H0) Hna) as [l [=]].
  - destruct (Hl l eq_refl) as (base & Hc & Hb & Habs).
    pose proof (create_rest_spec path base l fs1 Hw Hc Hb Habs) as H. destruct (create_rest l fs1) as [r fs'].
    destruct H as (Ha' & Hw' & Hr & Hf). split_and!; [by eapply dirs_added_trans|done|done|].
    intros H0 _. apply Hf. by apply Hq.
Qed.

(** ** Witness *)

Lemma well_formed_empty : well_formed ∅.
Proof. split; [apply lookup_empty|]. intros x d. rewrite lookup_empty. by intros []. Defined.

Definition demo_fs : Fs := mkFs (<[["data"] := Dir 493]> ∅) [] [].

Lemma create_dir_all_secure_private_witness :
  let '(r, fs') := create_dir_all_secure false ["b"; "a"; "data"] demo_fs in
  r = inr () /\ fs_nodes fs' !! ["a"; "data"] = Some (Dir mode_0700) /\ fs_nodes fs' !! ["data"] = Some (Dir 493)
  /\ dir_status (fs_nodes fs') ["b"; "a"; "data"] = None.
Proof.
  pose proof (create_dir_all_secure_private false ["b"; "a"; "data"] demo_fs) as H.
  assert (well_formed (fs_nodes demo_fs)) as Hwf
    by (apply well_formed_insert; [exact well_formed_empty|reflexivity]).
  specialize (H Hwf). destruct (create_dir_all_secure false ["b"; "a"; "data"] demo_fs) as [r fs'] eqn:E.
  vm_compute in E. injection E as <- <-. split; [reflexivity|]. split; [reflexivity|]. split; [reflexivity|].
  apply H. reflexivity.
Defined.
