(* ===== verification/Migrations.v ===== *)
(** Migrations of the application database ([zbag-engine/src/db/migrations.rs],
    [db/schema.rs] and [AppDb::open] of [db/mod.rs]).

    An image is the content of the database file: the tables that exist, the
    versions on record and the rows.  The state is the file and its snapshot;
    every statement and every file operation takes the next entry of one
    fault script. *)
From S2P Require Import Prelude Text Domain AppDb Servers.
From Stdlib Require Import Ascii.
Open Scope Z_scope.

Definition LATEST_VERSION : Z := 3.

Record Image := mkImage {
  im_tables : list string;
  im_versions : list Z;
  im_rows : AppDb;
}.

Definition no_rows : AppDb := mkAppDb [] [] [] [] [] [] [] None None [].
Definition empty_image : Image := mkImage [] [] no_rows.

Record DbDisk := mkDbDisk {
  dd_db : option Image;
  dd_snapshot : option Image;
  dd_faults : list bool;
}.

Definition dd_set_db (d : DbDisk) (i : option Image) : DbDisk := mkDbDisk i (dd_snapshot d) (dd_faults d).
Definition dd_set_snapshot (d : DbDisk) (i : option Image) : DbDisk := mkDbDisk (dd_db d) i (dd_faults d).

Definition disk_error : error := AnyhowMsg "io error".

(** The next entry of the fault script. *)
Definition step : M DbDisk unit := fun d =>
  match dd_faults d with
  | [] => (Ok tt, d)
  | f :: fs => ((if f then Err disk_error else Ok tt), mkDbDisk (dd_db d) (dd_snapshot d) fs)
  end.

(** ** Statements *)

(** A statement on table [t]. *)
Definition on_table (t : string) (f : Image -> result Image) : M DbDisk unit :=
  step ;;
  d ← m_get;
  match dd_db d with
  | None => m_err disk_error
  | Some im =>
      if bool_decide (t ∈ im_tables im)
      then im' ← m_lift (f im); m_put (dd_set_db d (Some im'))
      else m_err (AnyhowMsg ("no such table: " +:+ t))
  end.

(** [CREATE TABLE IF NOT EXISTS], also for the index. *)
Definition create_object (t : string) : M DbDisk unit :=
  step ;;
  d ← m_get;
  match dd_db d with
  | None => m_err disk_error
  | Some im =>
      if bool_decide (t ∈ im_tables im) then mret ()
      else m_put (dd_set_db d (Some (mkImage (im_tables im ++ [t]) (im_versions im) (im_rows im))))
  end.

Definition execute_batch (objects : list string) : M DbDisk unit :=
  m_fold (fun _ t => create_object t) tt objects.

Definition with_rows (f : AppDb -> AppDb) (im : Image) : result Image :=
  Ok (mkImage (im_tables im) (im_versions im) (f (im_rows im))).

Definition INITIAL_SCHEMA_V1 : list string :=
  ["wallets"; "accounts"; "wallet_encryption"; "backup_status"; "servers"; "servers_one_default_per_network";
   "tor_settings"; "swaps"; "receive_rotation"; "_app_migrations"].

(** [INSERT OR IGNORE]: skipped when the key is taken, or the unique index
    already has a default server for the network. *)
Definition insert_or_ignore_server (r : ServerRow) (db : AppDb) : AppDb :=
  if existsb (fun x => bool_decide (sr_id x = sr_id r)) (adb_servers db)
     || sr_is_default r
        && existsb (fun x => sr_is_default x && bool_decide (sr_network x = sr_network r)) (adb_servers db)
  then db
  else set_servers db (adb_servers db ++ [r])%list.

Definition seed_server (now_ms : Z) (ctx : string) (id name url network : string) (is_default : bool)
    : M DbDisk unit :=
  m_context ctx (on_table "servers" (with_rows (insert_or_ignore_server
    (mkServerRow id name url network is_default None now_ms)))).

Definition mainnet_others : list (string * string * string) :=
  [("00000000-0000-0000-0000-000000000003", "na.zec.rocks", "https://na.zec.rocks");
   ("00000000-0000-0000-0000-000000000004", "eu.zec.rocks", "https://eu.zec.rocks");
   ("00000000-0000-0000-0000-000000000005", "sa.zec.rocks", "https://sa.zec.rocks")].

Definition seed_servers_v1 (now_ms : Z) : M DbDisk unit :=
  seed_server now_ms "failed to seed mainnet default server" "00000000-0000-0000-0000-000000000001"
    "zec.rocks" "https://zec.rocks" "Mainnet" true ;;
  m_fold (fun _ '(id, name, url) =>
    seed_server now_ms ("failed to seed mainnet server " +:+ url) id name url "Mainnet" false) tt mainnet_others ;;
  seed_server now_ms "failed to seed testnet default server" "00000000-0000-0000-0000-000000000006"
    "testnet.zec.rocks" "https://testnet.zec.rocks" "Testnet" true.

Definition seed_tor_settings_v1 (now_ms : Z) : M DbDisk unit :=
  m_context "failed to seed tor_settings" (on_table "tor_settings" (with_rows (fun db =>
    match adb_tor db with None => set_tor db (Some (mkTorRow 0 "Off" None now_ms)) | Some _ => db end))).

Definition apply_v1 (now_ms : Z) : M DbDisk unit :=
  m_context "failed to apply initial schema" (execute_batch INITIAL_SCHEMA_V1) ;;
  seed_servers_v1 now_ms ;;
  seed_tor_settings_v1 now_ms.

Definition seed_fiat_settings_v2 (now_ms : Z) : M DbDisk unit :=
  m_context "failed to seed fiat_settings" (on_table "fiat_settings" (with_rows (fun db =>
    match adb_fiat db with None => set_fiat db (Some (mkFiatRow 0 "USD" 0 now_ms)) | Some _ => db end))).

Definition apply_v2 (now_ms : Z) : M DbDisk unit :=
  m_context "failed to create fiat_settings table" (execute_batch ["fiat_settings"]) ;;
  seed_fiat_settings_v2 now_ms.

(** [UPDATE servers SET name, grpc_url WHERE id AND name AND grpc_url]. *)
Definition rename_server (id old_name old_url name url : string) (db : AppDb) : AppDb :=
  set_servers db (map (fun r =>
    if bool_decide (sr_id r = id /\ sr_name r = old_name /\ sr_grpc_url r = old_url)
    then mkServerRow (sr_id r) name url (sr_network r) (sr_is_default r) (sr_last_success_at r) (sr_created_at r)
    else r) (adb_servers db)).

Definition drop_duplicate (db : AppDb) : AppDb :=
  set_servers db (List.filter (fun r =>
    negb (bool_decide (sr_id r = "00000000-0000-0000-0000-000000000002" /\ sr_name r = "zec.rocks"
                       /\ sr_grpc_url r = "https://zec.rocks" /\ sr_is_default r = false)))
    (adb_servers db)).

Definition apply_v3 : M DbDisk unit :=
  m_context "failed to update seeded mainnet lightwalletd endpoint"
    (on_table "servers" (with_rows (rename_server "00000000-0000-0000-0000-000000000001" "lwd.zec.pro"
       "https://lwd.zec.pro" "zec.rocks" "https://zec.rocks"))) ;;
  m_context "failed to remove duplicate seeded zec.rocks endpoint"
    (on_table "servers" (with_rows drop_duplicate)) ;;
  m_context "failed to update seeded testnet lightwalletd endpoint"
    (on_table "servers" (with_rows (rename_server "00000000-0000-0000-0000-000000000006" "lwd.testnet.zec.pro"
       "https://lwd.testnet.zec.pro" "testnet.zec.rocks" "https://testnet.zec.rocks"))).

(** [COALESCE(MAX(version), 0)]. *)
Definition max_version (vs : list Z) : Z :=
  match vs with [] => 0 | v :: vs' => foldr Z.max v vs' end.

Definition current_version : M DbDisk Z :=
  m_context "failed to ensure _app_migrations table" (execute_batch ["_app_migrations"]) ;;
  m_context "failed to prepare version query" (on_table "_app_migrations" Ok) ;;
  m_context "failed to query current migration version" (on_table "_app_migrations" Ok) ;;
  d ← m_get;
  mret (match dd_db d with Some im => max_version (im_versions im) | None => 0 end).

Definition record_version (version : Z) : M DbDisk unit :=
  m_context ("failed to record migration version " +:+ pretty version)
    (on_table "_app_migrations" (fun im =>
       if bool_decide (version ∈ im_versions im) then Err constraint_error
       else Ok (mkImage (im_tables im) (im_versions im ++ [version])%list (im_rows im)))).

Definition apply_migrations (now_ms : Z) : M DbDisk unit :=
  current ← current_version;
  if LATEST_VERSION <? current
  then m_err (AnyhowMsg ("app metadata db version " +:+ pretty current +:+ " is newer than supported "
                         +:+ pretty LATEST_VERSION))
  else
    (if current <? 1 then apply_v1 now_ms ;; record_version 1 else mret ()) ;;
    (if current <? 2 then apply_v2 now_ms ;; record_version 2 else mret ()) ;;
    (if current <? 3 then apply_v3 ;; record_version 3 else mret ()).

(** ** The snapshot *)

(** [open_app_db_connection]: the file is created, then two settings. *)
Definition open_app_db_connection : M DbDisk unit :=
  m_context "failed to open app metadata db"
    (step ;; m_modify (fun d => dd_set_db d (Some (default empty_image (dd_db d))))) ;;
  m_context "failed to set busy_timeout" step ;;
  m_context "failed to enable foreign_keys" step.

(** [std::fs::copy]; one that fails leaves [garbage] at its destination. *)
Definition copy_to_snapshot (garbage : option Image) : M DbDisk unit :=
  r ← m_try step;
  match r with
  | Ok _ => m_modify (fun d => dd_set_snapshot d (dd_db d))
  | Err e => m_modify (fun d => dd_set_snapshot d garbage) ;; m_err e
  end.
Definition copy_from_snapshot (garbage : option Image) : M DbDisk unit :=
  r ← m_try step;
  match r with
  | Ok _ => m_modify (fun d => dd_set_db d (dd_snapshot d))
  | Err e => m_modify (fun d => dd_set_db d garbage) ;; m_err e
  end.
Definition remove_snapshot : M DbDisk unit := step ;; m_modify (fun d => dd_set_snapshot d None).

Definition migrate_with_rollback (garbage : option Image) (now_ms : Z) : M DbDisk unit :=
  d ← m_get;
  let existed := bool_decide (is_Some (dd_db d)) in
  (if existed then
     m_context "failed to create pre-migration snapshot" (copy_to_snapshot garbage) ;;
     m_context "failed to set permissions on pre-migration snapshot" step
   else mret ()) ;;
  migrate_result ← m_try (open_app_db_connection ;; apply_migrations now_ms);
  match migrate_result with
  | Ok _ => if existed then m_ignore remove_snapshot else mret ()
  | Err err =>
      if existed then
        restore_result ← m_try (m_context "failed to restore pre-migration snapshot" (copy_from_snapshot garbage));
        (if is_ok restore_result then m_ignore step else mret ()) ;;
        m_ignore remove_snapshot ;;
        match restore_result with
        | Err restore_err =>
            m_err (AnyhowMsg (error_to_string err +:+ String "010"%char EmptyString +:+ error_to_string restore_err))
        | Ok _ => m_err err
        end
      else m_err err
  end.

(** [AppDb::open]: the directory, the migrations, the connection, the
    permissions. *)
Definition open_app_db (garbage : option Image) (now_ms : Z) : M DbDisk unit :=
  m_context "failed to create app metadata db parent directory" step ;;
  migrate_with_rollback garbage now_ms ;;
  open_app_db_connection ;;
  m_context "failed to set permissions on app metadata db" step.

(** ** What migrations keep *)

(** The ids of the servers that the migrations seed, rename and drop. *)
Definition seeded_ids : list string :=
  map (fun i => "00000000-0000-0000-0000-00000000000" +:+ pretty i) [1; 2; 3; 4; 5; 6].
Definition seeded (r : ServerRow) : bool := bool_decide (sr_id r ∈ seeded_ids).

(** The servers that the user added. *)
Definition user_servers (db : AppDb) : list ServerRow := List.filter (fun r => negb (seeded r)) (adb_servers db).

(** The rows that belong to the user. *)
Definition user_data (db : AppDb) :=
  (adb_wallets db, adb_accounts db, adb_backup db, adb_swaps db, adb_rotation db, adb_encryption db,
   user_servers db).

(** No version is too new, and the tables are there for every version on
    record. *)
Definition schema_ok (im : Image) : Prop :=
  forall v, v ∈ im_versions im ->
  v <= LATEST_VERSION /\ (1 <= v -> forall t, t ∈ INITIAL_SCHEMA_V1 -> t ∈ im_tables im) /\ (2 <= v -> "fiat_settings" ∈ im_tables im).

Definition image_ok (im : Image) : Prop := schema_ok im /\ servers_ok (adb_servers (im_rows im)).

(** [im'] is [im] with more tables and versions; the user's rows and settings
    are the same. *)
Record image_grows (im im' : Image) : Prop := {
  ig_tables t : t ∈ im_tables im -> t ∈ im_tables im';
  ig_versions : exists new, im_versions im' = (im_versions im ++ new)%list;
  ig_user : user_data (im_rows im') = user_data (im_rows im);
  ig_tor : is_Some (adb_tor (im_rows im)) -> adb_tor (im_rows im') = adb_tor (im_rows im);
  ig_fiat : is_Some (adb_fiat (im_rows im)) -> adb_fiat (im_rows im') = adb_fiat (im_rows im);
}.

#[export] Instance image_grows_preorder : PreOrder image_grows.
Proof.
  split.
  - intros im. split; try done. exists []. by rewrite app_nil_r.
  - intros a b c [T1 [n1 V1] U1 R1 F1] [T2 [n2 V2] U2 R2 F2]. split.
    + auto.
    + exists (n1 ++ n2)%list. by rewrite V2, V1, app_assoc.
    + congruence.
    + intros H. pose proof (R1 H) as E. rewrite <- E. apply R2. by rewrite E.
    + intros H. pose proof (F1 H) as E. rewrite <- E. apply F2. by rewrite E.
Qed.

(** The same without a new version. *)
Definition image_keeps (im im' : Image) : Prop := image_grows im im' /\ im_versions im' = im_versions im.

#[export] Instance image_keeps_preorder : PreOrder image_keeps.
Proof.
  split.
  - intros im. by split.
  - intros a b c [G1 V1] [G2 V2]. split; [by etransitivity|congruence].
Qed.

(** The faults still to come. *)
Definition faults_left (d : DbDisk) : nat := length (List.filter id (dd_faults d)).

(** A step of the migrations on an image: it keeps the image in order; if it
    returns, the new image satisfies [Q]; and if it fails, a fault was spent. *)
Definition stmt_ok {A} (G : relation Image) (P : Image -> Prop) (m : M DbDisk A) (Q : Image -> Prop) : Prop :=
  forall d im, dd_db d = Some im -> image_ok im -> P im ->
  exists im', dd_db (m d).2 = Some im' /\ dd_snapshot (m d).2 = dd_snapshot d
    /\ image_ok im' /\ G im im'
    /\ (is_ok (m d).1 = true -> Q im')
    /\ (faults_left (m d).2 + (if is_ok (m d).1 then 0 else 1) <= faults_left d)%nat.

Lemma stmt_ok_bind {A B} G `{!PreOrder G} P Q R (m : M DbDisk A) (k : A -> M DbDisk B) :
  stmt_ok G P m Q -> (forall a, stmt_ok G Q (k a) R) -> stmt_ok G P (m ≫= k) R.
Proof.
  intros Hm Hk d im Hd Hok HP. destruct (Hm d im Hd Hok HP) as (im1 & Hd1 & Hs1 & Hok1 & Hg1 & HQ & Hf1).
  rewrite m_bind_eq. destruct (m d) as [[a|e] d1]; simpl in *.
  - destruct (Hk a d1 im1 Hd1 Hok1 (HQ eq_refl)) as (im2 & Hd2 & Hs2 & Hok2 & Hg2 & HR & Hf2).
    exists im2. split_and!; [done|congruence|done|by etransitivity|done|lia].
  - exists im1. by split_and!.
Qed.

Lemma stmt_ok_context {A} G P Q c (m : M DbDisk A) : stmt_ok G P m Q -> stmt_ok G P (m_context c m) Q.
Proof.
  intros Hm d im Hd Hok HP. destruct (Hm d im Hd Hok HP) as (im1 & H1 & H2 & H3 & H4 & H5 & H6).
  exists im1. unfold m_context. destruct (m d) as [[a|e] d1]; simpl in *; split_and!; done.
Qed.

(** A fact that growth keeps can be carried over a step. *)
Lemma stmt_ok_frame {A} (F : Image -> Prop) G P Q (m : M DbDisk A) :
  (forall im im', G im im' -> F im -> F im') ->
  stmt_ok G P m Q -> stmt_ok G (fun im => P im /\ F im) m (fun im => Q im /\ F im).
Proof.
  intros HF Hm d im Hd Hok [HP HFim]. destruct (Hm d im Hd Hok HP) as (im1 & H1 & H2 & H3 & H4 & H5 & H6).
  exists im1. split_and!; try done. intros Hr. split; [auto|by eapply HF].
Qed.

Lemma stmt_ok_weaken {A} G (P P' Q Q' : Image -> Prop) (m : M DbDisk A) :
  (forall im, P' im -> P im) -> (forall im, Q im -> Q' im) -> stmt_ok G P m Q -> stmt_ok G P' m Q'.
Proof.
  intros HP HQ Hm d im Hd Hok HP'. destruct (Hm d im Hd Hok (HP _ HP')) as (im1 & H1 & H2 & H3 & H4 & H5 & H6).
  exists im1. split_and!; try done. intros Hr. auto.
Qed.

Lemma stmt_ok_ret G `{!PreOrder G} P : stmt_ok G P (mret ()) P.
Proof. intros d im Hd Hok HP. exists im. split_and!; try done. simpl. lia. Qed.

Lemma stmt_ok_grows {A} P Q (m : M DbDisk A) : stmt_ok image_keeps P m Q -> stmt_ok image_grows P m Q.
Proof.
  intros Hm d im Hd Hok HP. destruct (Hm d im Hd Hok HP) as (im1 & H1 & H2 & H3 & [H4 _] & H5 & H6).
  by exists im1.
Qed.

Lemma step_cases d :
  exists fs, let d' := mkDbDisk (dd_db d) (dd_snapshot d) fs in
  step d = (Ok tt, d') /\ faults_left d' = faults_left d
  \/ step d = (Err disk_error, d') /\ faults_left d = S (faults_left d').
Proof.
  unfold step, faults_left. destruct d as [db snap [|[] fs]]; simpl.
  - exists []. by left.
  - exists fs. by right.
  - exists fs. by left.
Qed.

Lemma stmt_ok_on_table G `{!PreOrder G} t f (P Q : Image -> Prop) :
  (forall im, P im -> t ∈ im_tables im) ->
  (forall im, image_ok im -> P im -> exists im', f im = Ok im' /\ image_ok im' /\ G im im' /\ Q im') ->
  stmt_ok G P (on_table t f) Q.
Proof.
  intros Ht Hf d im Hd Hok HP. unfold on_table. rewrite m_bind_eq.
  destruct (step_cases d) as (fs & [[Es Hfs]|[Es Hfs]]); rewrite Es.
  - rewrite m_get_bind. simpl. rewrite Hd, bool_decide_true by auto.
    destruct (Hf im Hok HP) as (im' & Hf' & Hok' & Hg & HQ). rewrite Hf'. simpl. exists im'.
    split_and!; try done. unfold faults_left in *. simpl in *. lia.
  - exists im. simpl. split_and!; try done. unfold faults_left in *. simpl in *. lia.
Qed.

Definition has_tables (ts : list string) (im : Image) : Prop := forall t, t ∈ ts -> t ∈ im_tables im.

Lemma has_tables_grows ts im im' : image_keeps im im' -> has_tables ts im -> has_tables ts im'.
Proof. intros [Hg _] Ht t Hin. apply (ig_tables _ _ Hg). auto. Qed.

Lemma stmt_ok_create t : stmt_ok image_keeps (fun _ => True) (create_object t) (has_tables [t]).
Proof.
  intros d im Hd Hok _. unfold create_object. rewrite m_bind_eq.
  destruct (step_cases d) as (fs & [[Es Hfs]|[Es Hfs]]); rewrite Es.
  - rewrite m_get_bind. simpl. rewrite Hd. case_bool_decide as Ht.
    + exists im. simpl. split_and!; try done; [intros _ t' ->%list_elem_of_singleton; done|].
      unfold faults_left in *. simpl in *. lia.
    + simpl. eexists. split_and!; [reflexivity|done| | | |unfold faults_left in *; simpl in *; lia].
      * destruct Hok as [Hs Hv]. split; [|done]. intros v Hv'. destruct (Hs v Hv') as (H0 & H1 & H2). simpl.
        split; [done|]. split; intros; apply elem_of_app; left; auto.
      * split; [|done]. split; try done; simpl; [intros; apply elem_of_app; by left|]. exists []. by rewrite app_nil_r.
      * intros _ t' ->%list_elem_of_singleton. simpl. apply elem_of_app. right. apply list_elem_of_singleton. done.
  - exists im. simpl. split_and!; try done. unfold faults_left in *. simpl in *. lia.
Qed.

Lemma stmt_ok_batch ts : stmt_ok image_keeps (fun _ => True) (execute_batch ts) (has_tables ts).
Proof.
  unfold execute_batch. induction ts as [|t ts IH]; simpl.
  - eapply stmt_ok_weaken; [| |apply (stmt_ok_ret image_keeps (fun _ => True))]; [done|]. intros im _ t H. by apply not_elem_of_nil in H.
  - eapply stmt_ok_bind; [apply _|apply stmt_ok_create|]. intros [].
    eapply stmt_ok_weaken; [| |apply (stmt_ok_frame (has_tables [t]) _ _ _ _ (has_tables_grows [t]) IH)]; [done|].
    intros im [H1 H2] t' [->|Hin]%elem_of_cons; [apply H2; by apply list_elem_of_singleton|auto].
Qed.

Lemma stmt_ok_fold {X} (f : unit -> X -> M DbDisk unit) l P :
  (forall x, x ∈ l -> stmt_ok image_keeps P (f tt x) P) -> stmt_ok image_keeps P (m_fold f tt l) P.
Proof.
  induction l as [|x l IH]; intros Hf; simpl; [apply stmt_ok_ret; apply _|].
  eapply stmt_ok_bind; [apply _|apply Hf; by left|]. intros []. apply IH. intros y Hy. apply Hf. by right.
Qed.

(** Statements that only touch rows. *)
Lemma stmt_ok_rows t g P :
  (forall im, P im -> t ∈ im_tables im) -> (forall im im', image_keeps im im' -> P im -> P im') ->
  (forall db, servers_ok (adb_servers db) -> servers_ok (adb_servers (g db))) ->
  (forall db, user_data (g db) = user_data db
     /\ (is_Some (adb_tor db) -> adb_tor (g db) = adb_tor db) /\ (is_Some (adb_fiat db) -> adb_fiat (g db) = adb_fiat db)) ->
  stmt_ok image_keeps P (on_table t (with_rows g)) P.
Proof.
  intros Ht Hmono Hs Hg. apply stmt_ok_on_table; [apply _|done|]. intros im [Hsch Hsrv] HP. eexists. split; [reflexivity|].
  assert (image_keeps im (mkImage (im_tables im) (im_versions im) (g (im_rows im)))) as Hgrow.
  { split; [|done]. destruct (Hg (im_rows im)) as (Hu & Htor & Hf). split; try done. exists []. by rewrite app_nil_r. }
  split_and!; [|done|by eapply Hmono]. split; [done|]. by apply Hs.
Qed.

Lemma insert_or_ignore_ok r n db :
  sr_network r = network_debug n -> servers_ok (adb_servers db) ->
  servers_ok (adb_servers (insert_or_ignore_server r db)).
Proof.
  intros Hn (Hnd & Hdef & Hnet). unfold insert_or_ignore_server.
  destruct (existsb _ _ || _) eqn:E; [done|]. apply orb_false_iff in E as [Eid Edef].
  assert (forall x, x ∈ adb_servers db -> sr_id x <> sr_id r) as Hid.
  { intros x Hx Heq. assert (existsb (fun x => bool_decide (sr_id x = sr_id r)) (adb_servers db) = true) as Ht; [|congruence].
    apply existsb_exists. exists x. split; [by apply list_elem_of_In|by apply bool_decide_true]. }
  assert (sr_is_default r = true -> forall x, x ∈ adb_servers db -> sr_is_default x = true ->
            sr_network x <> sr_network r) as Hd.
  { intros Hr x Hx Hxd Heq. rewrite Hr in Edef. simpl in Edef.
    assert (existsb (fun x => sr_is_default x && bool_decide (sr_network x = sr_network r)) (adb_servers db) = true)
      as Ht; [|congruence].
    apply existsb_exists. exists x. split; [by apply list_elem_of_In|]. rewrite Hxd. by apply bool_decide_true. }
  simpl. split_and!.
  - rewrite map_app. apply NoDup_app. split_and!; [done| |simpl; apply NoDup_singleton].
    intros i Hi ->%list_elem_of_singleton. apply list_elem_of_fmap in Hi as (x & Hi & Hx). by apply (Hid x Hx).
  - intros a b [Ha|Ha]%elem_of_app [Hb|Hb]%elem_of_app Da Db Hab; try apply list_elem_of_singleton in Ha;
      try apply list_elem_of_singleton in Hb; subst; auto.
    + exfalso. by apply (Hd Db a Ha Da).
    + exfalso. by apply (Hd Da b Hb Db).
  - intros a [Ha| ->%list_elem_of_singleton]%elem_of_app; eauto.
Qed.

Lemma rename_server_ok id on ou n u db :
  servers_ok (adb_servers db) -> servers_ok (adb_servers (rename_server id on ou n u db)).
Proof.
  intros (Hnd & Hdef & Hnet). unfold rename_server. simpl. set (f := fun r : ServerRow => if bool_decide _ then _ else r).
  assert (forall r, sr_id (f r) = sr_id r /\ sr_network (f r) = sr_network r /\ sr_is_default (f r) = sr_is_default r)
    as Hf by (intros r; unfold f; by case_bool_decide).
  split_and!.
  - rewrite map_map, (map_ext _ sr_id); [done|]. intros r. apply Hf.
  - intros a b Ha Hb Da Db Hab. apply list_elem_of_fmap in Ha as (a' & -> & Ha).
    apply list_elem_of_fmap in Hb as (b' & -> & Hb).
    destruct (Hf a') as (_ & Na & Dfa), (Hf b') as (_ & Nb & Dfb).
    f_equal. apply Hdef; try done; congruence.
  - intros a Ha. apply list_elem_of_fmap in Ha as (a' & -> & Ha). rewrite (proj1 (proj2 (Hf a'))). auto.
Qed.

Lemma drop_duplicate_ok db : servers_ok (adb_servers db) -> servers_ok (adb_servers (drop_duplicate db)).
Proof.
  intros (Hnd & Hdef & Hnet). unfold drop_duplicate. simpl. set (p := fun r : ServerRow => negb _).
  assert (forall r, r ∈ List.filter p (adb_servers db) -> r ∈ adb_servers db) as Hsub.
  { intros r Hr. apply list_elem_of_In in Hr. apply filter_In in Hr as [Hr _]. by apply list_elem_of_In. }
  split_and!; [|eauto|eauto]. clear Hsub Hdef Hnet. induction (adb_servers db) as [|r l IH]; simpl; [constructor|].
  simpl in Hnd. apply NoDup_cons in Hnd as [Hr Hl]. destruct (p r); simpl; [|auto].
  apply NoDup_cons. split; [|auto]. intros H. apply Hr. apply list_elem_of_fmap in H as (x & Hx & Hin).
  apply list_elem_of_fmap. exists x. split; [done|]. apply list_elem_of_In in Hin. apply filter_In in Hin as [Hin _].
  by apply list_elem_of_In.
Qed.

(** What the statements do to the servers that the user added. *)
Lemma seeded_id r id : sr_id r = id -> id ∈ seeded_ids -> seeded r = true.
Proof. intros <- H. unfold seeded. by apply bool_decide_eq_true_2. Qed.

Lemma insert_or_ignore_user r db :
  sr_id r ∈ seeded_ids -> user_servers (insert_or_ignore_server r db) = user_servers db.
Proof.
  intros Hr. unfold insert_or_ignore_server. case_match; [done|]. unfold user_servers. simpl.
  rewrite List.filter_app. simpl. rewrite (seeded_id r _ eq_refl Hr). simpl. apply app_nil_r.
Qed.

Lemma rename_server_user id on ou n u db :
  id ∈ seeded_ids -> user_servers (rename_server id on ou n u db) = user_servers db.
Proof.
  intros Hid. unfold rename_server, user_servers. simpl. induction (adb_servers db) as [|r l IH]; simpl; [done|].
  rewrite IH. case_bool_decide as Hr; [|done]. destruct Hr as (Hr & _).
  rewrite (seeded_id r id Hr Hid). by rewrite (seeded_id _ id) by done.
Qed.

Lemma drop_duplicate_user db : user_servers (drop_duplicate db) = user_servers db.
Proof.
  unfold drop_duplicate, user_servers. simpl. induction (adb_servers db) as [|r l IH]; simpl; [done|].
  case_bool_decide as Hr; simpl; rewrite IH; [|done]. destruct Hr as (Hr & _).
  rewrite (seeded_id r _ Hr); [done|]. apply list_elem_of_In. vm_compute. auto 10.
Qed.

(** Every row statement on [servers] keeps the rest. *)
Lemma stmt_ok_servers g ts :
  "servers" ∈ ts ->
  (forall db, servers_ok (adb_servers db) -> servers_ok (adb_servers (g db))) ->
  (forall db, exists l, g db = set_servers db l) -> (forall db, user_servers (g db) = user_servers db) ->
  stmt_ok image_keeps (has_tables ts) (on_table "servers" (with_rows g)) (has_tables ts).
Proof.
  intros Hin Hs Hg Hu. apply stmt_ok_rows; [auto|apply has_tables_grows|done|].
  intros db. specialize (Hu db). destruct (Hg db) as [l E]. rewrite E in *. split; [|done].
  unfold user_data. by rewrite Hu.
Qed.

Lemma seed_server_ok now ctx id name url n d ts :
  "servers" ∈ ts -> id ∈ seeded_ids ->
  stmt_ok image_keeps (has_tables ts) (seed_server now ctx id name url (network_debug n) d) (has_tables ts).
Proof.
  intros Hin Hid. apply stmt_ok_context, stmt_ok_servers; [done| | |].
  - intros db. by apply (insert_or_ignore_ok _ n).
  - intros db. unfold insert_or_ignore_server. case_match; [|eauto]. exists (adb_servers db). by destruct db.
  - intros db. by apply insert_or_ignore_user.
Qed.

Lemma in_seeded id : existsb (String.eqb id) seeded_ids = true -> id ∈ seeded_ids.
Proof. intros (x & Hx & ->%String.eqb_eq)%existsb_exists. by apply list_elem_of_In. Qed.

Lemma servers_in_v1 : "servers" ∈ INITIAL_SCHEMA_V1.
Proof. apply list_elem_of_In. simpl. auto 10. Qed.

Lemma apply_v1_ok now : stmt_ok image_keeps (fun _ => True) (apply_v1 now) (has_tables INITIAL_SCHEMA_V1).
Proof.
  unfold apply_v1. eapply stmt_ok_bind; [apply _|apply stmt_ok_context, stmt_ok_batch|intros _].
  eapply stmt_ok_bind; [apply _| |intros _].
  - unfold seed_servers_v1. eapply stmt_ok_bind; [apply _|apply (seed_server_ok _ _ _ _ _ Network.Mainnet);
      [apply servers_in_v1|by apply in_seeded]|intros _].
    eapply stmt_ok_bind; [apply _| |intros _; apply (seed_server_ok _ _ _ _ _ Network.Testnet);
      [apply servers_in_v1|by apply in_seeded]].
    apply stmt_ok_fold. intros [[id name] url] Hx. apply (seed_server_ok _ _ _ _ _ Network.Mainnet), in_seeded;
      [apply servers_in_v1|].
    unfold mainnet_others in Hx. repeat (apply elem_of_cons in Hx as [[= -> -> ->]|Hx]; [done|]). by apply elem_of_nil in Hx.
  - apply stmt_ok_context, stmt_ok_rows; [|apply has_tables_grows| |].
    + intros im H. apply H. apply list_elem_of_In. simpl. auto 10.
    + intros db. by case_match.
    + intros db. destruct (adb_tor db) eqn:E; [done|]. split_and!; [done| |done]. by intros [].
Qed.

Lemma apply_v2_ok now : stmt_ok image_keeps (fun _ => True) (apply_v2 now) (has_tables ["fiat_settings"]).
Proof.
  unfold apply_v2. eapply stmt_ok_bind; [apply _|apply stmt_ok_context, stmt_ok_batch|intros _].
  apply stmt_ok_context, stmt_ok_rows; [|apply has_tables_grows| |].
  - intros im H. apply H. by apply list_elem_of_singleton.
  - intros db. by case_match.
  - intros db. destruct (adb_fiat db) eqn:E; [done|]. split_and!; [done|done|]. by intros [].
Qed.

Lemma apply_v3_ok : stmt_ok image_keeps (has_tables INITIAL_SCHEMA_V1) apply_v3 (has_tables INITIAL_SCHEMA_V1).
Proof.
  unfold apply_v3.
  eapply stmt_ok_bind; [apply _| |intros _; eapply stmt_ok_bind; [apply _| |intros _]];
    (apply stmt_ok_context, stmt_ok_servers; [apply servers_in_v1| |intros db; unfold rename_server, drop_duplicate; eauto|]);
    intros db.
  - apply rename_server_ok.
  - by apply rename_server_user, in_seeded.
  - apply drop_duplicate_ok.
  - apply drop_duplicate_user.
  - apply rename_server_ok.
  - by apply rename_server_user, in_seeded.
Qed.

(** The versions on record are all below [k]. *)
Definition below (k : Z) (im : Image) : Prop := forall v, v ∈ im_versions im -> v < k.

Lemma record_version_ok k :
  k <= LATEST_VERSION ->
  stmt_ok image_grows (fun im => has_tables INITIAL_SCHEMA_V1 im /\ (2 <= k -> has_tables ["fiat_settings"] im) /\ below k im)
    (record_version k)
    (fun im => has_tables INITIAL_SCHEMA_V1 im /\ (2 <= k -> has_tables ["fiat_settings"] im)
               /\ below (k + 1) im /\ k ∈ im_versions im).
Proof.
  intros Hk. apply stmt_ok_context, stmt_ok_on_table; [apply _| |].
  - intros im (Ht & _). apply Ht. apply list_elem_of_In. simpl. auto 20.
  - intros im [Hs Hsrv] (Ht & Hf & Hb). rewrite bool_decide_false by (intros H%Hb; lia).
    eexists. split; [reflexivity|]. split_and!; [|split; try done; simpl; eauto|done|done| |].
    + split; [|done]. intros v [Hv| ->%list_elem_of_singleton]%elem_of_app; [apply (Hs v Hv)|].
      split_and!; [done|done|]. intros H2. apply (Hf H2). by apply list_elem_of_singleton.
    + intros v [Hv%Hb| ->%list_elem_of_singleton]%elem_of_app; lia.
    + simpl. apply elem_of_app. right. by apply list_elem_of_singleton.
Qed.

(** At version [k]. *)
Definition stage (k : Z) (im : Image) : Prop :=
  below (k + 1) im /\ (1 <= k -> has_tables INITIAL_SCHEMA_V1 im /\ k ∈ im_versions im)
  /\ (2 <= k -> has_tables ["fiat_settings"] im).

Lemma below_keeps k im im' : image_keeps im im' -> below k im -> below k im'.
Proof. intros [_ E] Hb v. rewrite E. apply Hb. Qed.

Lemma migration_1 now : stmt_ok image_grows (stage 0) (apply_v1 now ;; record_version 1) (stage 1).
Proof.
  eapply stmt_ok_bind; [apply _| |intros _].
  - apply stmt_ok_grows. eapply stmt_ok_weaken;
      [| |apply (stmt_ok_frame (below 1) _ _ _ _ (below_keeps 1) (apply_v1_ok now))]; [|done]. intros im [Hb _]. done.
  - eapply stmt_ok_weaken; [| |apply (record_version_ok 1); done].
    + intros im [Ht Hb]. split_and!; [done|lia|done].
    + intros im (Ht & _ & Hb & Hv). split_and!; [done|done|lia].
Qed.

Lemma migration_2 now : stmt_ok image_grows (stage 1) (apply_v2 now ;; record_version 2) (stage 2).
Proof.
  eapply stmt_ok_bind; [apply _| |intros _].
  - apply stmt_ok_grows. eapply stmt_ok_weaken;
      [| |apply (stmt_ok_frame (fun im => below 2 im /\ has_tables INITIAL_SCHEMA_V1 im) _ _ _ _) with (2 := apply_v2_ok now)];
      [|done|].
    + intros im (Hb & Ht & _). split_and!; [done|done|]. by apply Ht.
    + intros im im' Hk [Hb Ht]. split; [by eapply below_keeps|by eapply has_tables_grows].
  - eapply stmt_ok_weaken; [| |apply (record_version_ok 2); done].
    + intros im (Hf & Hb & Ht). split_and!; done.
    + intros im (Ht & Hf & Hb & Hv). split_and!; [done|done|by auto].
Qed.

Lemma migration_3 : stmt_ok image_grows (stage 2) (apply_v3 ;; record_version 3) (stage 3).
Proof.
  eapply stmt_ok_bind; [apply _| |intros _].
  - apply stmt_ok_grows. eapply stmt_ok_weaken;
      [| |apply (stmt_ok_frame (fun im => below 3 im /\ has_tables ["fiat_settings"] im) _ _ _ _) with (2 := apply_v3_ok)];
      [|done|].
    + intros im (Hb & Ht & Hf). split_and!; [by apply Ht|done|by apply Hf].
    + intros im im' Hk [Hb Ht]. split; [by eapply below_keeps|by eapply has_tables_grows].
  - eapply stmt_ok_weaken; [| |apply (record_version_ok 3); done].
    + intros im (Ht & Hb & Hf). split_and!; done.
    + intros im (Ht & Hf & Hb & Hv). split_and!; [done|done|by auto].
Qed.

Lemma max_version_spec vs :
  (forall v, v ∈ vs -> v <= max_version vs) /\ (vs <> [] -> max_version vs ∈ vs).
Proof.
  destruct vs as [|v0 vs]; [split; [intros v H; by apply not_elem_of_nil in H|done]|]. simpl.
  induction vs as [|v vs [IH1 IH2]]; simpl.
  - split; [intros v ->%list_elem_of_singleton; lia|]. intros _. by left.
  - split.
    + intros w [->|[->|Hw]%elem_of_cons]%elem_of_cons; [specialize (IH1 v0 ltac:(by left)); lia|lia|].
      specialize (IH1 w ltac:(by right)). lia.
    + intros _. destruct (Z.max_spec v (foldr Z.max v0 vs)) as [[_ ->]|[_ ->]]; [|by right; left].
      pose proof (IH2 ltac:(done)) as [->|H]%elem_of_cons; [by left|]. right. by right.
Qed.

(** An image in order is at the stage of its latest version. *)
Lemma image_stage im : image_ok im -> stage (Z.max 0 (max_version (im_versions im))) im.
Proof.
  intros [Hs _]. destruct (max_version_spec (im_versions im)) as [Hle Hin].
  assert (1 <= Z.max 0 (max_version (im_versions im)) ->
            max_version (im_versions im) ∈ im_versions im
            /\ Z.max 0 (max_version (im_versions im)) = max_version (im_versions im)) as Hmax.
  { intros H. split; [|lia]. apply Hin. intros E. rewrite E in H. simpl in H. lia. }
  split_and!.
  - intros v Hv%Hle. lia.
  - intros H. destruct (Hmax H) as [Hm ->]. split; [|done]. exact (proj1 (proj2 (Hs _ Hm)) ltac:(lia)).
  - intros H t ->%list_elem_of_singleton. destruct (Hmax ltac:(lia)) as [Hm E]. apply (proj2 (proj2 (Hs _ Hm))). lia.
Qed.

Lemma image_version im : image_ok im -> max_version (im_versions im) <= LATEST_VERSION.
Proof.
  intros [Hs _]. destruct (max_version_spec (im_versions im)) as [_ Hin].
  destruct (im_versions im) as [|v vs] eqn:E; [done|]. apply (Hs (max_version (v :: vs))). rewrite E. by apply Hin.
Qed.

(** Reading the version changes no version. *)
Lemma current_version_keeps vs :
  stmt_ok image_keeps (fun im => im_versions im = vs) current_version (fun im => im_versions im = vs).
Proof.
  assert (forall im im' : Image, image_keeps im im' -> im_versions im = vs -> im_versions im' = vs) as Hkeep
    by (intros im im' [_ E]; congruence).
  set (P := fun im => has_tables ["_app_migrations"] im /\ im_versions im = vs).
  assert (forall c, stmt_ok image_keeps P (m_context c (on_table "_app_migrations" Ok)) P) as Hread.
  { intros c. apply stmt_ok_context, (stmt_ok_on_table image_keeps).
    - intros im [Ht _]. apply Ht. by apply list_elem_of_singleton.
    - intros im Hok HP. by exists im. }
  unfold current_version. eapply (stmt_ok_bind _ _ P); [|intros _].
  - apply stmt_ok_context. eapply stmt_ok_weaken;
      [| |apply (stmt_ok_frame (fun im => im_versions im = vs) _ _ _ _ Hkeep (stmt_ok_batch ["_app_migrations"]))];
      done.
  - eapply (stmt_ok_bind _ _ P); [apply Hread|intros _]. eapply (stmt_ok_bind _ _ P); [apply Hread|intros _].
    intros d im Hd Hok [_ Hv]. exists im. split_and!; try done. simpl. lia.
Qed.

Lemma current_version_value d v d' :
  current_version d = (Ok v, d') -> v = match dd_db d' with Some im => max_version (im_versions im) | None => 0 end.
Proof.
  unfold current_version. rewrite m_bind_eq. destruct (m_context _ (execute_batch _) d) as [[[]|] d1]; [|done].
  rewrite m_bind_eq. destruct (m_context _ _ d1) as [[[]|] d2]; [|done].
  rewrite m_bind_eq. destruct (m_context _ _ d2) as [[[]|] d3]; [|done].
  by intros [= <- <-].
Qed.

Lemma apply_migrations_ok now :
  stmt_ok image_grows (fun _ => True) (apply_migrations now) (stage 3).
Proof.
  intros d im Hd Hok _. pose proof (image_version im Hok) as Hle. unfold apply_migrations. rewrite m_bind_eq.
  destruct (current_version_keeps (im_versions im) d im Hd Hok eq_refl) as (im1 & Hd1 & Hs1 & Hok1 & Hk1 & Hv1 & Hq1).
  pose proof (current_version_value d) as Hval.
  destruct (current_version d) as [[c|e] d1]; simpl in *.
  2:{ exists im1. split_and!; try done. by destruct Hk1. }
  specialize (Hval c d1 eq_refl). rewrite Hd1, (Hv1 eq_refl) in Hval. subst c. unfold LATEST_VERSION in *.
  set (c := max_version (im_versions im)) in *. rewrite (proj2 (Z.ltb_ge 3 c)) by lia.
  assert (stage (Z.max 0 c) im1) as Hst by (unfold c; rewrite <- (Hv1 eq_refl); by apply image_stage).
  assert (stmt_ok image_grows (stage (Z.max 0 c))
    ((if c <? 1 then apply_v1 now ;; record_version 1 else mret ()) ;;
     (if c <? 2 then apply_v2 now ;; record_version 2 else mret ()) ;;
     (if c <? 3 then apply_v3 ;; record_version 3 else mret ())) (stage 3)) as Hall.
  { apply (stmt_ok_bind _ _ (stage (Z.max 1 c))); [|intros _; apply (stmt_ok_bind _ _ (stage (Z.max 2 c))); [|intros _]].
    - destruct (Z.ltb_spec c 1).
      + rewrite (Z.max_l 0 c), (Z.max_l 1 c) by lia. apply migration_1.
      + rewrite (Z.max_r 0 c), (Z.max_r 1 c) by lia. by apply stmt_ok_ret; apply _.
    - destruct (Z.ltb_spec c 2).
      + rewrite (Z.max_l 1 c), (Z.max_l 2 c) by lia. apply migration_2.
      + rewrite (Z.max_r 1 c), (Z.max_r 2 c) by lia. by apply stmt_ok_ret; apply _.
    - destruct (Z.ltb_spec c 3).
      + rewrite (Z.max_l 2 c) by lia. apply migration_3.
      + rewrite (Z.max_r 2 c) by lia. replace c with 3 by lia. by apply stmt_ok_ret; apply _. }
  destruct (Hall d1 im1 Hd1 Hok1 Hst) as (im2 & Hd2 & Hs2 & Hok2 & Hg2 & HQ2 & Hq2).
  exists im2. split_and!; [done|congruence|done| |done|lia].
  etransitivity; [exact (proj1 Hk1)|done].
Qed.

(** ** All or nothing *)

Lemma stmt_ok_step P : stmt_ok image_keeps P step P.
Proof.
  intros d im Hd Hok HP. destruct (step_cases d) as (fs & [[Es Hfs]|[Es Hfs]]); rewrite Es; simpl in *;
    exists im; split_and!; try done; lia.
Qed.

(** Opening the connection to an existing file. *)
Lemma open_existing_ok P : stmt_ok image_keeps P open_app_db_connection P.
Proof.
  unfold open_app_db_connection. apply (stmt_ok_bind _ _ P); [|intros _].
  - apply stmt_ok_context, (stmt_ok_bind _ _ P); [apply stmt_ok_step|intros _].
    intros d im Hd Hok HP. exists im. unfold m_modify, dd_set_db. simpl. rewrite Hd. split_and!; try done.
    unfold faults_left. simpl. lia.
  - apply (stmt_ok_bind _ _ P); [|intros _]; apply stmt_ok_context, stmt_ok_step.
Qed.

Lemma migrate_body_ok now :
  stmt_ok image_grows (fun _ => True) (open_app_db_connection ;; apply_migrations now) (stage 3).
Proof.
  apply (stmt_ok_bind _ _ (fun _ => True));
    [apply stmt_ok_grows, open_existing_ok|intros _; apply apply_migrations_ok].
Qed.

(** A step that no fault can hit, and one whose outcome is only logged. *)
Lemma step_quiet d :
  faults_left d = 0%nat -> exists fs, step d = (Ok tt, mkDbDisk (dd_db d) (dd_snapshot d) fs)
    /\ faults_left (mkDbDisk (dd_db d) (dd_snapshot d) fs) = 0%nat.
Proof. intros H0. destruct (step_cases d) as (fs & [[Es Hfs]|[Es Hfs]]); [exists fs|simpl in Hfs]; [split; [done|congruence]|lia]. Qed.

Lemma remove_snapshot_db d : dd_db (remove_snapshot d).2 = dd_db d.
Proof.
  unfold remove_snapshot. rewrite m_bind_eq. by destruct (step_cases d) as (fs & [[-> _]|[-> _]]).
Qed.

Lemma copy_from_snapshot_cases garbage d :
  exists fs, copy_from_snapshot garbage d = (Ok tt, mkDbDisk (dd_snapshot d) (dd_snapshot d) fs)
  \/ copy_from_snapshot garbage d = (Err disk_error, mkDbDisk garbage (dd_snapshot d) fs)
     /\ (1 <= faults_left d)%nat.
Proof.
  destruct (step_cases d) as (fs & [[Es Hfs]|[Es Hfs]]); exists fs; [left|right]; unfold copy_from_snapshot;
    rewrite m_bind_eq; unfold m_try; rewrite Es; [done|]. split; [done|lia].
Qed.

(** The answer says that the database could not be put back. *)
Definition restore_failed (e : error) : Prop := exists err,
  e = AnyhowMsg (err +:+ String "010"%char EmptyString +:+ "failed to restore pre-migration snapshot").

(** The failing branch of a migration, once the snapshot is there. *)
Lemma restored garbage err d snap :
  dd_snapshot d = Some snap ->
  let '(r, d') :=
    (restore_result ← m_try (m_context "failed to restore pre-migration snapshot" (copy_from_snapshot garbage));
     (if is_ok restore_result then m_ignore step else mret ()) ;;
     m_ignore remove_snapshot ;;
     match restore_result with
     | Err restore_err =>
         m_err (AnyhowMsg (error_to_string err +:+ String "010"%char EmptyString +:+ error_to_string restore_err))
     | Ok _ => m_err (A := unit) err
     end) d in
  exists e, r = Err e /\ (dd_db d' = Some snap \/ (1 <= faults_left d)%nat /\ restore_failed e).
Proof.
  intros Hs. destruct (copy_from_snapshot_cases garbage d) as (fs & [E|[E Hf]]);
    rewrite m_bind_eq; unfold m_try, m_context; rewrite E; simpl.
  - exists err. split; [done|]. left. rewrite Hs. set (d1 := mkDbDisk _ _ fs).
    rewrite remove_snapshot_db. by destruct (step_cases d1) as (fs' & [[-> _]|[-> _]]).
  - eexists. split; [reflexivity|]. right. split; [done|]. by eexists.
Qed.

Lemma copy_to_snapshot_cases garbage d :
  exists fs, let d' := mkDbDisk (dd_db d) (dd_db d) fs in
  copy_to_snapshot garbage d = (Ok tt, d') /\ faults_left d' = faults_left d
  \/ copy_to_snapshot garbage d = (Err disk_error, mkDbDisk (dd_db d) garbage fs)
     /\ faults_left d = S (faults_left d').
Proof.
  destruct (step_cases d) as (fs & [[Es Hfs]|[Es Hfs]]); exists fs; [left|right]; (split; [|done]);
    unfold copy_to_snapshot; rewrite m_bind_eq; unfold m_try; by rewrite Es.
Qed.

Lemma migrate_existing (garbage : option Image) (now_ms : Z) (d : DbDisk) (im : Image) :
  dd_db d = Some im -> image_ok im ->
  let '(r, d') := migrate_with_rollback garbage now_ms d in
  match r with
  | Ok _ => exists im', dd_db d' = Some im' /\ stage LATEST_VERSION im' /\ image_grows im im' /\ image_ok im'
  | Err e => (1 <= faults_left d)%nat /\ (dd_db d' = Some im \/ (2 <= faults_left d)%nat /\ restore_failed e)
  end.
Proof.
  intros Hd Hok. unfold migrate_with_rollback. rewrite m_get_bind, Hd. rewrite bool_decide_true by eauto.
  rewrite m_bind_eq. rewrite m_bind_eq. unfold m_context at 1.
  destruct (copy_to_snapshot_cases garbage d) as (fs & [[Es Hfs]|[Es Hfs]]); rewrite Es; simpl in *; [|split; [lia|by left]].
  set (d1 := mkDbDisk (dd_db d) (dd_db d) fs) in *.
  unfold m_context at 1. destruct (step_cases d1) as (fs1 & [[Es1 Hfs1]|[Es1 Hfs1]]); rewrite Es1; simpl in *;
    [|split; [lia|by left]].
  set (d2 := mkDbDisk (dd_db d) (dd_db d) fs1) in *. rewrite m_bind_eq. unfold m_try at 1.
  destruct (migrate_body_ok now_ms d2 im Hd Hok I) as (im' & Hd' & Hs' & Hok' & Hg & Hst & Hleft).
  destruct ((open_app_db_connection ;; apply_migrations now_ms) d2) as [[u|err] d3]; cbn [fst snd is_ok] in *; cbv beta iota.
  - unfold m_ignore. simpl. rewrite remove_snapshot_db. exists im'. split_and!; auto.
  - pose proof (restored garbage err d3 im ltac:(rewrite Hs'; exact Hd)) as H.
    lazymatch type of H with context [match ?t with pair _ _ => _ end] =>
      lazymatch goal with |- context [match ?u with pair _ _ => _ end] => change u with t; destruct t as [r d4] end end.
    destruct H as (e & -> & H). unfold d2 in *. split; [lia|]. destruct H as [H|[H Hr]]; [by left|right; split; [lia|done]].
Qed.

(** Opening the connection to a file that is not there yet. *)
Lemma open_fresh d :
  dd_db d = None ->
  let '(r, d') := open_app_db_connection d in
  (dd_db d' = None \/ dd_db d' = Some empty_image) /\ (is_ok r = true -> dd_db d' = Some empty_image)
  /\ (faults_left d' + (if is_ok r then 0 else 1) <= faults_left d)%nat.
Proof.
  intros Hd. unfold open_app_db_connection. rewrite !m_bind_eq. unfold m_context. rewrite m_bind_eq.
  destruct (step_cases d) as (fs & [[E Hf]|[E Hf]]); rewrite E; simpl in *; [|split_and!; [by left|done|lia]].
  unfold m_modify, dd_set_db. simpl. rewrite Hd. simpl. rewrite m_bind_eq.
  set (d1 := mkDbDisk (Some empty_image) (dd_snapshot d) fs). assert (faults_left d1 = faults_left d) as H1 by done.
  destruct (step_cases d1) as (fs1 & [[E1 Hf1]|[E1 Hf1]]); rewrite E1; simpl in *; [|split_and!; [by right|done|lia]].
  set (d2 := mkDbDisk (Some empty_image) (dd_snapshot d) fs1) in *.
  destruct (step_cases d2) as (fs2 & [[E2 Hf2]|[E2 Hf2]]); rewrite E2; simpl in *; split_and!; (by right) || done || lia.
Qed.

Lemma empty_image_ok : image_ok empty_image.
Proof.
  split; [intros v H; by apply not_elem_of_nil in H|]. simpl. split_and!.
  - apply NoDup_nil_2.
  - intros a b H. by apply not_elem_of_nil in H.
  - intros a H. by apply not_elem_of_nil in H.
Qed.

(** A database file the program can start from. *)
Definition startable (db : option Image) : Prop := forall im, db = Some im -> image_ok im.

Lemma migrate_fresh garbage now d :
  dd_db d = None ->
  let '(r, d') := migrate_with_rollback garbage now d in
  startable (dd_db d') /\ (is_ok r = true -> exists im', dd_db d' = Some im' /\ stage LATEST_VERSION im')
  /\ (faults_left d = 0%nat -> is_ok r = true).
Proof.
  intros Hd. unfold migrate_with_rollback. rewrite m_get_bind, Hd. rewrite bool_decide_false by (by intros []).
  rewrite m_ret_bind, m_bind_eq. unfold m_try. rewrite m_bind_eq.
  pose proof (open_fresh d Hd) as H. destruct (open_app_db_connection d) as [[u|e] d1].
  - destruct H as (_ & Hdb & Hf). specialize (Hdb eq_refl). simpl in Hf.
    destruct (apply_migrations_ok now d1 empty_image Hdb empty_image_ok I) as (im' & Hd' & _ & Hok & _ & Hst & Hleft).
    destruct (apply_migrations now d1) as [[u'|e] d2]; simpl in *; (split_and!; [|by eauto|]); try done.
    + intros im. rewrite Hd'. by intros [= <-].
    + intros im. rewrite Hd'. by intros [= <-].
    + intros H0. lia.
  - destruct H as (Hdb & _ & Hf). simpl in *. split_and!; [|done|intros H0; lia].
    intros im Him. destruct Hdb as [Hdb|Hdb]; rewrite Hdb in Him; [done|]. injection Him as <-. apply empty_image_ok.
Qed.

(** One start of the program: what is left of the database file. *)
Definition start (garbage : option Image) (now_ms : Z) (faults : list bool) (db : option Image)
    : result unit * option Image :=
  let '(r, d') := migrate_with_rollback garbage now_ms (mkDbDisk db None faults) in (r, dd_db d').

Fixpoint starts (l : list (option Image * Z * list bool)) (db : option Image) : option Image :=
  match l with
  | [] => db
  | (garbage, now_ms, faults) :: l' => starts l' (start garbage now_ms faults db).2
  end.

Lemma start_ok garbage now faults db :
  (length (List.filter id faults) <= 1)%nat -> startable db ->
  let '(r, db') := start garbage now faults db in
  startable db' /\ (is_ok r = true -> exists im', db' = Some im' /\ stage LATEST_VERSION im')
  /\ (List.filter id faults = [] -> is_ok r = true).
Proof.
  intros Hf Hdb. unfold start. destruct db as [im|].
  - pose proof (migrate_existing garbage now (mkDbDisk (Some im) None faults) im eq_refl (Hdb im eq_refl)) as H.
    destruct (migrate_with_rollback _ _ _) as [[u|e] d']; simpl.
    + destruct H as (im' & Hd' & Hst & _ & Hok). split_and!; [|eauto|done]. intros x. rewrite Hd'. by intros [= <-].
    + destruct H as [H1 [Hd'|[H2 _]]]; [|unfold faults_left in H2; simpl in *; lia]. split_and!; [|done|].
      * intros x. rewrite Hd'. by apply Hdb.
      * intros H0. unfold faults_left in H1. simpl in H1. rewrite H0 in H1. simpl in H1. lia.
  - pose proof (migrate_fresh garbage now (mkDbDisk None None faults) eq_refl) as H.
    destruct (migrate_with_rollback _ _ _) as [r d']. destruct H as (Hs & Hst & Hq). split_and!; [done|done|].
    intros H0. apply Hq. unfold faults_left. simpl. by rewrite H0.
Qed.

(** C36. Migrating the application database is all or nothing, for a database
    that an earlier or this version of the program made: its tables are those
    of the versions on record, none newer than the latest, and its servers are
    in order (distinct, at most one default per network).  Whichever
    statements and file operations fail: if the migration succeeds, the
    database is at the latest version with every table, its servers are in
    order, and the user's rows and settings, with the servers that the user
    added, are as they were.  If it fails, something failed, and the file is
    the old one again, unless a second operation, the restore, failed and the
    error says so (see [failed_restore_loses_app_db]).  Without a failure it
    succeeds. *)
Theorem app_db_migration_all_or_nothing (garbage : option Image) (now_ms : Z) (d : DbDisk) (im : Image) :
  dd_db d = Some im -> image_ok im ->
  let '(r, d') := migrate_with_rollback garbage now_ms d in
  match r with
  | Ok _ => exists im', dd_db d' = Some im' /\ stage LATEST_VERSION im' /\ image_grows im im' /\ image_ok im'
  | Err e => (1 <= faults_left d)%nat /\ (dd_db d' = Some im \/ (2 <= faults_left d)%nat /\ restore_failed e)
  end.
Proof. apply migrate_existing. Qed.

(** A failed start is harmless: from no database at all, or from one that
    is in order, however many starts fail, with one failure each and whatever
    a failing copy leaves behind, the next start without a failure succeeds
    and leaves the database at the latest version. *)
Theorem failed_starts_are_harmless (db : option Image) (l : list (option Image * Z * list bool))
    (garbage : option Image) (now_ms : Z) :
  startable db -> Forall (fun s => (length (List.filter id s.2) <= 1)%nat) l ->
  let '(r, db') := start garbage now_ms [] (starts l db) in
  r = Ok () /\ exists im, db' = Some im /\ stage LATEST_VERSION im.
Proof.
  intros Hdb Hl.
  assert (startable (starts l db)) as Hs.
  { revert db Hdb. induction Hl as [|[[g n] f] l Hf Hl IH]; intros db Hdb; [done|]. simpl. apply IH.
    pose proof (start_ok g n f db Hf Hdb) as H. destruct (start g n f db) as [r db']. apply H. }
  pose proof (start_ok garbage now_ms [] (starts l db) ltac:(simpl; lia) Hs) as H.
  destruct (start garbage now_ms [] (starts l db)) as [r db']. destruct H as (_ & Hst & Hq).
  specialize (Hq eq_refl). destruct r as [[]|]; [|done]. split; [done|]. by apply Hst.
Qed.

(** ** Witnesses *)

(** A database of the first version, with a wallet. *)
Definition demo_image : Image :=
  mkImage INITIAL_SCHEMA_V1 [1]
    (set_wallets no_rows [mkWalletRow "w" "Wallet" "/w" "Software" "Mainnet" false 0 None]).

Lemma demo_image_ok : image_ok demo_image.
Proof.
  split; [|apply empty_image_ok]. intros v Hv. apply list_elem_of_singleton in Hv. subst v.
  split; [discriminate|]. split; [auto|]. intros H. exfalso. by apply H.
Defined.

Lemma app_db_migration_all_or_nothing_witness :
  exists d' im', migrate_with_rollback None 7 (mkDbDisk (Some demo_image) None []) = (Ok (), d')
  /\ dd_db d' = Some im' /\ im_versions im' = [1; 2; 3] /\ user_data (im_rows im') = user_data (im_rows demo_image).
Proof.
  pose proof (app_db_migration_all_or_nothing None 7 (mkDbDisk (Some demo_image) None []) demo_image
                eq_refl demo_image_ok) as H.
  destruct (migrate_with_rollback None 7 (mkDbDisk (Some demo_image) None [])) as [r d'] eqn:E.
  vm_compute in E. injection E as <- <-. destruct H as (im' & Hd & _ & Hg & _).
  eexists. exists im'. split; [reflexivity|]. split; [exact Hd|]. injection Hd as <-.
  split; [reflexivity|]. exact (ig_user _ _ Hg).
Defined.

Lemma failed_starts_are_harmless_witness :
  let '(r, db') := start None 9 [] (starts [(None, 7, [false; false; false; false; false; true])] None) in
  r = Ok () /\ exists im, db' = Some im /\ stage LATEST_VERSION im.
Proof.
  apply (failed_starts_are_harmless None [(None, 7, [false; false; false; false; false; true])] None 9).
  - intros im H. discriminate H.
  - repeat constructor.
Defined.

(** Two failures, of the migration and of the restore, lose the database: the
    snapshot is removed all the same. *)
Lemma failed_restore_loses_app_db :
  exists d', migrate_with_rollback None 7
      (mkDbDisk (Some demo_image) None [false; false; true; true; false]) = (Err (AnyhowMsg
        ("failed to open app metadata db" +:+ String "010"%char EmptyString
         +:+ "failed to restore pre-migration snapshot")), d')
  /\ dd_db d' = None /\ dd_snapshot d' = None.
Proof. eexists. split; [vm_compute; reflexivity|]. split; reflexivity. Qed.
