(* ===== verification/Birthday.v ===== *)
(** Birthday heights ([zbag-engine/src/birthday.rs]): the height a restored
    wallet is scanned from, estimated from a date.  Dates are [i64]
    milliseconds, heights [u32]. *)
From S2P Require Import Prelude Domain.
Open Scope Z_scope.

Definition AVERAGE_BLOCK_TIME_MS : Z := 75000.
Definition SAFETY_MARGIN_BLOCKS : Z := 300.
Definition MAINNET_GENESIS_MS : Z := 1477612800000.
Definition TESTNET_GENESIS_MS : Z := 1477612800000.

Definition MAINNET_CHECKPOINTS : list (Z * Z) :=
  [(MAINNET_GENESIS_MS, 0);
   (1546300800000, 419200);
   (1609459200000, 1046400);
   (1654041600000, 1687104)].

(** [slice::partition_point]: the length of the prefix that satisfies [p]. *)
Fixpoint partition_point {A} (p : A -> bool) (l : list A) : nat :=
  match l with
  | x :: l' => if p x then S (partition_point p l') else 0
  | [] => 0
  end.

(** Truncating division of [i64]; the divisor is positive. *)
Definition estimate_from_checkpoints (checkpoints : list (Z * Z)) (birthday_date_ms : Z) : Z :=
  match checkpoints with
  | [] => 0
  | (first_ts, _) :: _ =>
      if birthday_date_ms <=? first_ts then 0
      else
        let idx := partition_point (fun c => c.1 <=? birthday_date_ms) checkpoints in
        let '(base_ts, base_height) := default (0, 0) (checkpoints !! (idx - 1)%nat) in
        let delta_ms := i64_saturating_sub birthday_date_ms base_ts in
        let estimated := i64_saturating_add base_height (Z.quot delta_ms AVERAGE_BLOCK_TIME_MS) in
        let estimated_with_margin := i64_saturating_sub estimated SAFETY_MARGIN_BLOCKS in
        clampZ 0 u32_max estimated_with_margin
  end.

Definition estimate_linear (genesis_ms birthday_date_ms : Z) : Z :=
  if birthday_date_ms <=? genesis_ms then 0
  else
    let delta_ms := i64_saturating_sub birthday_date_ms genesis_ms in
    let estimated := Z.quot delta_ms AVERAGE_BLOCK_TIME_MS in
    let estimated_with_margin := i64_saturating_sub estimated SAFETY_MARGIN_BLOCKS in
    clampZ 0 u32_max estimated_with_margin.

Definition estimate_birthday_height (network : Network) (birthday_date_ms : Z) : Z :=
  match network with
  | Network.Mainnet => estimate_from_checkpoints MAINNET_CHECKPOINTS birthday_date_ms
  | Network.Testnet => estimate_linear TESTNET_GENESIS_MS birthday_date_ms
  end.

(** ** When the estimate is conservative *)

(** The checkpoint an estimate starts from: the last one not after the date. *)
Definition base_checkpoint (network : Network) (t : Z) : Z * Z :=
  match network with
  | Network.Mainnet =>
      if 1654041600000 <=? t then (1654041600000, 1687104)
      else if 1609459200000 <=? t then (1609459200000, 1046400)
      else if 1546300800000 <=? t then (1546300800000, 419200)
      else (MAINNET_GENESIS_MS, 0)
  | Network.Testnet => (TESTNET_GENESIS_MS, 0)
  end.

(** The [i64] arithmetic of an estimate never saturates. *)
Lemma estimate_exact t base_ts base :
  in_i64 t -> MAINNET_GENESIS_MS <= base_ts <= t -> 0 <= base <= u32_max ->
  i64_saturating_sub t base_ts = t - base_ts
  /\ i64_saturating_sub (i64_saturating_add base (Z.quot (t - base_ts) AVERAGE_BLOCK_TIME_MS)) SAFETY_MARGIN_BLOCKS
     = base + (t - base_ts) / AVERAGE_BLOCK_TIME_MS - SAFETY_MARGIN_BLOCKS.
Proof.
  unfold in_i64, i64_saturating_sub, i64_saturating_add, AVERAGE_BLOCK_TIME_MS, SAFETY_MARGIN_BLOCKS, clampZ,
    i64_min, i64_max, u32_max, MAINNET_GENESIS_MS.
  intros Hi Ht Hb. split; [lia|]. rewrite Z.quot_div_nonneg by lia.
  pose proof (Z.div_pos (t - base_ts) 75000 ltac:(lia) ltac:(lia)).
  pose proof (Z.div_le_upper_bound (t - base_ts) 75000 (2 ^ 62) ltac:(lia) ltac:(lia)). lia.
Qed.

Lemma estimate_closed_form network t :
  in_i64 t ->
  estimate_birthday_height network t
  = if t <=? MAINNET_GENESIS_MS then 0
    else let '(base_ts, base) := base_checkpoint network t in
         clampZ 0 u32_max (base + (t - base_ts) / AVERAGE_BLOCK_TIME_MS - SAFETY_MARGIN_BLOCKS).
Proof.
  intros Hi.
  assert (forall base_ts base, MAINNET_GENESIS_MS <= base_ts <= t -> 0 <= base <= u32_max ->
    clampZ 0 u32_max (i64_saturating_sub (i64_saturating_add base
      (Z.quot (i64_saturating_sub t base_ts) AVERAGE_BLOCK_TIME_MS)) SAFETY_MARGIN_BLOCKS)
    = clampZ 0 u32_max (base + (t - base_ts) / AVERAGE_BLOCK_TIME_MS - SAFETY_MARGIN_BLOCKS)) as Hexact.
  { intros bts base Ht Hb. destruct (estimate_exact t bts base Hi Ht Hb) as [E1 E2]. by rewrite E1, E2. }
  unfold MAINNET_GENESIS_MS, u32_max in *. destruct network; unfold estimate_birthday_height.
  - unfold estimate_from_checkpoints, MAINNET_CHECKPOINTS, base_checkpoint, MAINNET_GENESIS_MS.
    simpl fst. simpl partition_point. destruct (t <=? 1477612800000) eqn:E0; [done|]. apply Z.leb_gt in E0.
    rewrite (proj2 (Z.leb_le 1477612800000 t)) by lia.
    destruct (Z.leb_spec 1546300800000 t), (Z.leb_spec 1609459200000 t), (Z.leb_spec 1654041600000 t);
      try lia; simpl; apply Hexact; lia.
  - unfold estimate_linear, base_checkpoint, TESTNET_GENESIS_MS.
    destruct (t <=? 1477612800000) eqn:E0; [done|]. apply Z.leb_gt in E0.
    destruct (estimate_exact t 1477612800000 0 Hi) as [E1 E2]; [unfold MAINNET_GENESIS_MS; lia|unfold u32_max; lia|].
    rewrite E1, <- E2. f_equal. f_equal. unfold i64_saturating_add, clampZ, i64_min, i64_max, AVERAGE_BLOCK_TIME_MS.
    destruct Hi as [_ Hi]. unfold i64_max in Hi. rewrite Z.quot_div_nonneg by lia.
    pose proof (Z.div_pos (t - 1477612800000) 75000 ltac:(lia) ltac:(lia)).
    pose proof (Z.div_le_upper_bound (t - 1477612800000) 75000 (2 ^ 62) ltac:(lia) ltac:(lia)). lia.
Qed.

(** The estimated birthday is a [u32] height and conservative where its
    assumptions hold: on a chain that had reached the checkpoint's height by
    the checkpoint's date and has since produced at least a block every 75
    seconds, the wallet is scanned from a height the chain had already reached
    at the date given, so no later transaction is missed. *)
Theorem birthday_estimate_conservative (height_at : Z -> Z) (network : Network) (t : Z) :
  in_i64 t -> 0 <= height_at t ->
  (base_checkpoint network t).2 <= height_at (base_checkpoint network t).1 ->
  height_at (base_checkpoint network t).1
    + (t - (base_checkpoint network t).1) / AVERAGE_BLOCK_TIME_MS <= height_at t ->
  0 <= estimate_birthday_height network t <= u32_max
  /\ estimate_birthday_height network t <= height_at t.
Proof.
  intros Hi H0 Hb Hg. rewrite estimate_closed_form by done.
  destruct (t <=? MAINNET_GENESIS_MS); [unfold u32_max; lia|].
  destruct (base_checkpoint network t) as [bts base]. simpl in *.
  unfold clampZ, u32_max, SAFETY_MARGIN_BLOCKS. lia.
Qed.

(** Blocks every 75 seconds since the last checkpoint, for a date in 2024. *)
Lemma birthday_estimate_conservative_witness :
  estimate_birthday_height Network.Mainnet 1704067200000
    <= 1687104 + (1704067200000 - 1654041600000) / AVERAGE_BLOCK_TIME_MS.
Proof.
  refine (proj2 (birthday_estimate_conservative
                   (fun t => 1687104 + (t - 1654041600000) / AVERAGE_BLOCK_TIME_MS)
                   Network.Mainnet 1704067200000 _ _ _ _)); vm_compute; repeat split; discriminate.
Defined.

(** Before a checkpoint the estimate is not conservative: for a date one
    millisecond before 2019 it is 915,539 and for one before 2021 it is
    1,261,011, far above the 419,200 and 1,046,400 that the table gives for
    the very next millisecond, so a later date can give an earlier height. *)
Theorem birthday_estimate_overshoots :
  estimate_birthday_height Network.Mainnet (1546300800000 - 1) = 915539
  /\ estimate_birthday_height Network.Mainnet 1546300800000 = 418900
  /\ estimate_birthday_height Network.Mainnet (1609459200000 - 1) = 1261011
  /\ estimate_birthday_height Network.Mainnet 1609459200000 = 1046100.
Proof. vm_compute. repeat split. Qed.
