(* ===== verification/Jobs.v ===== *)
(** Background jobs ([job_service.rs], [domain/job.rs]): the job table, the
    API of [JobService], and the send and shield tasks as state machines
    whose steps interleave with the API calls.

    One step is one critical section of the state mutex, one read of the
    cancellation channel, or one call into a library.  [JoinHandle::abort]
    drops a task at its next suspension point: before its first poll, while
    it awaits the blocking closure, or while it awaits a send; it does not
    stop a blocking closure.  The outcome of the library calls of a job
    (opening the wallet database, proving, loading and sending transactions,
    fees) is the record [JobIo], a parameter of the task. *)
From S2P Require Import Prelude Text Domain AppDb Broadcast Servers BroadcastQueue.
From Stdlib Require Import QArith.
Open Scope Z_scope.

(** ** Progress records (domain/job.rs) *)

Definition queued (job_id : string) (job_type : JobType) : JobProgress :=
  mkJobProgress job_id job_type JobState.Queued JobPhase.Preparing (Some 0) None None true.
Definition proving (job_id : string) (job_type : JobType) (progress_percent : option Z) : JobProgress :=
  mkJobProgress job_id job_type JobState.Running JobPhase.Proving progress_percent None None true.
Definition broadcasting (job_id : string) (job_type : JobType) (txid : string) : JobProgress :=
  mkJobProgress job_id job_type JobState.Running JobPhase.Broadcasting (Some 90) (Some txid) None false.
Definition completed (job_id : string) (job_type : JobType) (txid : string) : JobProgress :=
  mkJobProgress job_id job_type JobState.Completed JobPhase.Done (Some 100) (Some txid) None false.
Definition failed (job_id : string) (job_type : JobType) (error : string) (txid : option string)
    : JobProgress :=
  mkJobProgress job_id job_type JobState.Failed JobPhase.Done None txid (Some error) false.
Definition cancelled (job_id : string) (job_type : JobType) : JobProgress :=
  mkJobProgress job_id job_type JobState.Cancelled JobPhase.Done None None None false.

Definition is_terminal (p : JobProgress) : bool :=
  match jp_state p with
  | JobState.Completed | JobState.Failed | JobState.Cancelled => true
  | _ => false
  end.

(** ** Account identifiers in key sources (account_key_source.rs) *)

Definition ACCOUNT_ID_KEY_SOURCE_PREFIX : string := "zbag-account-id:".
Definition key_source_for_account_id (account_id : Z) : string :=
  ACCOUNT_ID_KEY_SOURCE_PREFIX +:+ uint_to_string account_id.
Definition parse_account_id_from_key_source (key_source : string) : option Z :=
  s ← strip_prefix key_source ACCOUNT_ID_KEY_SOURCE_PREFIX; parse_uint u32_max s.

(** ** What a job sees of the libraries *)

(** [create_proposed_transactions]: a non-empty list of transaction ids, an
    error, or a panic of the blocking closure. *)
Inductive Build :=
| Built (first : string) (rest : list string)
| BuildError (e : string)
| BuildPanic (e : string).

Record Utxo := mkUtxo { u_outpoint : string; u_value : Z }.

(** [ChangeStrategy::compute_balance] on a selection of inputs. *)
Inductive BalanceOutcome :=
| BalanceOk
| DustInputs (transparent : list string)
| InsufficientFunds
| OtherChangeError (e : string).

(** An account of the wallet database, with its [key_source] and ZIP-32
    index; [None] where [get_account] fails. *)
Record AccountView := mkAccountView {
  av_key_source : option string;
  av_account_index : option Z;
}.

Record JobIo := mkJobIo {
  io_open : result unit;                              (* open_wallet_db_for_job *)
  io_build : nat -> Build;                            (* the n-th proving call *)
  io_get_transaction : string -> string + option string;
  io_write : string -> string + string;               (* Transaction::write *)
  io_send : string -> option (result unit);           (* the gRPC send of a txid *)
  io_accounts : string + list (option AccountView);   (* get_account_ids, get_account *)
  io_receivers : string + list string;                (* get_transparent_receivers *)
  io_chain_height : string + option Z;
  io_outputs : string -> string + list Utxo;          (* spendable outputs of an address *)
  io_wallet_meta : string + unit;                     (* fetch_wallet_meta *)
  io_balance : list Utxo -> BalanceOutcome;
  io_propose : list Utxo -> string + unit;            (* Proposal::single_step *)
  io_now_ms : Z;
  io_nonce : string -> string;
  io_offset : Q;
}.

Record JobContext := mkJobContext {
  jc_type : JobType;
  jc_wallet_id : Uuid;
  jc_wallet_dir : string;
  jc_wallet_dek : string;
  jc_account_id : Z;
  jc_on_progress : bool;
  jc_on_tx_changed : bool;
}.

(** ** Task states *)

(** [primary_txid], [broadcast_error], [can_retry_broadcast] of a shield job. *)
Definition Acc : Type := option string * option string * bool.

(** The value the blocking closure hands to the task. *)
Inductive JobResult :=
| JrErr (e : string)
| JrPanic (e : string)
| JrBuilt (first : string) (rest : list string)
| JrShielded (primary : string) (err : option string) (can_retry : bool).

Inductive Pc :=
(* the async task, before the blocking closure *)
| PcCheck
| PcStartCancelled
| PcProving10
| PcOpen
(* the blocking closure *)
| PcBlock
| PcProving50
| PcBuild
| PcBuilt (first : string) (rest : list string)
| PcGather
| PcProving30 (inputs : list Utxo)
| PcBatch (batches : list (list Utxo)) (n : nat) (acc : Acc)
| PcSelect (sel : list Utxo) (batches : list (list Utxo)) (n : nat) (acc : Acc)
| PcProving60 (batches : list (list Utxo)) (n : nat) (acc : Acc)
| PcBuildBatch (batches : list (list Utxo)) (n : nat) (acc : Acc)
| PcShieldTx (txids : list string) (batches : list (list Utxo)) (n : nat) (acc : Acc)
| PcShieldSend (txid bytes : string) (txids : list string) (batches : list (list Utxo)) (n : nat)
    (acc : Acc)
(* the async task, after it *)
| PcJoin (r : JobResult)
| PcResume (r : JobResult)
| PcBroadcast (primary : string) (txids : list string) (err : option string) (can_retry : bool)
| PcTxChanged (primary : string) (err : option string) (can_retry : bool)
| PcFinal (primary : string) (err : option string)
| PcDone
| PcDropped.

Record Task := mkTask {
  t_ctx : JobContext;
  t_io : JobIo;
  t_pc : Pc;
  t_cancel : bool;    (* the value of the watch channel *)
  t_aborted : bool;   (* [JoinHandle::abort] was called *)
}.

Definition t_set_pc (t : Task) (pc : Pc) : Task :=
  mkTask (t_ctx t) (t_io t) pc (t_cancel t) (t_aborted t).

(** ** The service *)

(** [w_jobs] and [w_progress] are [JobServiceState]; an entry keeps its
    wallet, its channel and handle are those of the task of the same id.
    [w_starting]: jobs spawned and not yet registered in [jobs].
    [w_sent] and [w_cancelled] record the sends made and the jobs that
    [cancel_job] has moved to [Cancelled]. *)
Record World := mkWorld {
  w_jobs : gmap string Uuid;
  w_progress : gmap string JobProgress;
  w_tasks : gmap string Task;
  w_starting : gmap string Uuid;
  w_queue : QueueState;
  w_events : list Event;
  w_sent : list (string * string);
  w_cancelled : gset string;
}.

Definition new_service (q : QueueState) : World := mkWorld ∅ ∅ ∅ ∅ q [] [] ∅.

Definition w_set_jobs (w : World) (jobs : gmap string Uuid) : World :=
  mkWorld jobs (w_progress w) (w_tasks w) (w_starting w) (w_queue w) (w_events w) (w_sent w) (w_cancelled w).
Definition w_set_progress (w : World) (p : gmap string JobProgress) : World :=
  mkWorld (w_jobs w) p (w_tasks w) (w_starting w) (w_queue w) (w_events w) (w_sent w) (w_cancelled w).
Definition w_set_task (w : World) (id : string) (t : Task) : World :=
  mkWorld (w_jobs w) (w_progress w) (<[id := t]> (w_tasks w)) (w_starting w) (w_queue w) (w_events w)
    (w_sent w) (w_cancelled w).
Definition w_emit (w : World) (on : bool) (ev : Event) : World :=
  if on then
    mkWorld (w_jobs w) (w_progress w) (w_tasks w) (w_starting w) (w_queue w) (w_events w ++ [ev])%list
      (w_sent w) (w_cancelled w)
  else w.
Definition w_send (w : World) (id txid : string) (q : QueueState) : World :=
  mkWorld (w_jobs w) (w_progress w) (w_tasks w) (w_starting w) q (w_events w)
    (w_sent w ++ [(id, txid)])%list (w_cancelled w).

(** *** API *)

Definition get_progress (w : World) (job_id : string) : option JobProgress := w_progress w !! job_id.

Definition list_jobs (w : World) (wallet_id : Uuid) : list JobProgress :=
  omap (fun '(job_id, owner) =>
          if bool_decide (owner = wallet_id) then w_progress w !! job_id else None)
    (map_to_list (w_jobs w)).

Definition cancel_job (w : World) (job_id : string) : bool * World :=
  let cancel_entry :=
    match w_jobs w !! job_id with
    | None => (false, w)
    | Some _ =>
        (true,
         mkWorld (delete job_id (w_jobs w))
           (alter (fun p => cancelled job_id (jp_job_type p)) job_id (w_progress w))
           (alter (fun t => mkTask (t_ctx t) (t_io t) (t_pc t) true true) job_id (w_tasks w))
           (w_starting w) (w_queue w) (w_events w) (w_sent w)
           (if bool_decide (is_Some (w_progress w !! job_id))
            then {[job_id]} ∪ w_cancelled w else w_cancelled w))
    end in
  match w_progress w !! job_id with
  | Some progress =>
      if is_terminal progress then (true, w)
      else if negb (jp_can_cancel progress) then (false, w)
      else cancel_entry
  | None => cancel_entry
  end.

Definition clears (w : World) (wallet_id : Uuid) (job_id : string) (progress : JobProgress) : bool :=
  is_terminal progress
  && match w_jobs w !! job_id with
     | None => true
     | Some owner => bool_decide (owner = wallet_id)
     end.

Definition clear_finished_jobs (w : World) (wallet_id : Uuid) : World :=
  let to_remove := (filter (fun kv => clears w wallet_id kv.1 kv.2 = true) (map_to_list (w_progress w))).*1 in
  mkWorld (foldr delete (w_jobs w) to_remove) (foldr delete (w_progress w) to_remove)
    (w_tasks w) (w_starting w) (w_queue w) (w_events w) (w_sent w) (w_cancelled w).

(** [start_send_job] and [start_shield_job] up to the spawn: the initial
    progress, its event, the task.  [job_id] is the fresh UUID. *)
Definition start_job (w : World) (job_id : string) (ctx : JobContext) (io : JobIo) : World :=
  let p := queued job_id (jc_type ctx) in
  let w := w_emit (w_set_progress w (<[job_id := p]> (w_progress w))) (jc_on_progress ctx)
             (JobProgressEvent p) in
  mkWorld (w_jobs w) (w_progress w) (<[job_id := mkTask ctx io PcCheck false false]> (w_tasks w))
    (<[job_id := jc_wallet_id ctx]> (w_starting w)) (w_queue w) (w_events w) (w_sent w) (w_cancelled w).

(** ... and their last statement, which stores the entry. *)
Definition register_job (w : World) (job_id : string) : option World :=
  wallet_id ← w_starting w !! job_id;
  Some (mkWorld (<[job_id := wallet_id]> (w_jobs w)) (w_progress w) (w_tasks w)
          (delete job_id (w_starting w)) (w_queue w) (w_events w) (w_sent w) (w_cancelled w)).

(** *** Tasks *)

(** The [emit_progress] closure of the tasks. *)
Definition emit_progress (w : World) (job_id : string) (on : bool) (p : JobProgress) : World :=
  let w1 := w_set_progress w (<[job_id := p]> (w_progress w)) in
  let w2 := if is_terminal p then w_set_jobs w1 (delete job_id (w_jobs w1)) else w1 in
  w_emit w2 on (JobProgressEvent p).

(** The updates made inside the blocking closure. *)
Definition insert_progress (w : World) (job_id : string) (on : bool) (p : JobProgress) : World :=
  w_emit (w_set_progress w (<[job_id := p]> (w_progress w))) on (JobProgressEvent p).

Definition classify_job_broadcast_failure (error_message : string)
    : option (BroadcastErrorClass * bool) :=
  if is_effective_success_broadcast_error error_message then None
  else
    let err_class := classify_broadcast_error_message error_message in
    Some (err_class, is_retryable_broadcast_error_class err_class).

Definition MAX_SHIELDING_INPUTS_PER_TX : nat := 200.

(** [slice::chunks]. *)
Fixpoint chunks_aux {A} (fuel n : nat) (l : list A) : list (list A) :=
  match fuel, l with
  | O, _ | _, [] => []
  | S fuel', _ => take n l :: chunks_aux fuel' n (drop n l)
  end.
Definition chunks {A} (n : nat) (l : list A) : list (list A) := chunks_aux (length l) n l.

(** The account lookup of [shield_funds_blocking]. *)
Definition account_matches (account_id : Z) (a : option AccountView) : bool :=
  match a with
  | None => false
  | Some a =>
      bool_decide ((av_key_source a ≫= parse_account_id_from_key_source) = Some account_id)
      || bool_decide (av_account_index a = Some account_id)
  end.

Fixpoint gather_outputs (outputs : string -> string + list Utxo) (addrs : list string)
    : string + list Utxo :=
  match addrs with
  | [] => inr []
  | a :: addrs' =>
      match outputs a with
      | inl e => inl ("failed to list transparent outputs: " +:+ e)
      | inr us =>
          match gather_outputs outputs addrs' with
          | inl e => inl e
          | inr us' => inr (us ++ us')%list
          end
      end
  end.

(** From the account to the list of spendable transparent inputs. *)
Definition gather_inputs (io : JobIo) (account_id : Z) : string + list Utxo :=
  match io_accounts io with
  | inl e => inl ("failed to list accounts: " +:+ e)
  | inr accounts =>
      match find_first (account_matches account_id) accounts with
      | None => inl "account not found"
      | Some _ =>
          match io_receivers io with
          | inl e => inl ("failed to list transparent receivers: " +:+ e)
          | inr from_addrs =>
              match io_chain_height io with
              | inl e => inl ("failed to read chain height: " +:+ e)
              | inr None => inl "must scan blocks first"
              | inr (Some _) =>
                  match gather_outputs (io_outputs io) from_addrs with
                  | inl e => inl e
                  | inr [] => inl "no transparent funds to shield"
                  | inr inputs => inr inputs
                  end
              end
          end
      end
  end.

(** The bytes of a transaction, or the error message of each failure. *)
Definition load_tx (io : JobIo) (txid : string) : string + string :=
  match io_get_transaction io txid with
  | inl e => inl ("failed to load tx: " +:+ e)
  | inr None => inl "tx bytes unavailable"
  | inr (Some tx) =>
      match io_write io tx with
      | inl e => inl ("failed to serialize tx: " +:+ e)
      | inr bytes => inr bytes
      end
  end.

Section Tasks.
Context (to_vec_pretty : QueuedBroadcastMeta -> string)
        (aead_encrypt : string -> string -> string -> string -> option string) (fl : Q -> Q).

(** [broadcast_transaction] and the handling of its failure: the queue
    after it, and the message and retry flag of a failure that counts.  A
    failure to queue is only logged. *)
Definition broadcast_one (t : Task) (txid bytes : string) (q : QueueState)
    : option (string * bool) * QueueState :=
  let ctx := t_ctx t in
  let io := t_io t in
  match send_with_timeout (io_send io txid) with
  | Ok _ => (None, q)
  | Err e =>
      let err_msg := error_chain e in
      match classify_job_broadcast_failure err_msg with
      | None => (None, q)
      | Some (err_class, retryable) =>
          (Some (err_msg, retryable),
           (queue_broadcast_for_retry to_vec_pretty aead_encrypt fl (io_now_ms io) (io_nonce io txid)
              (io_offset io) (jc_wallet_id ctx) (jc_wallet_dir ctx) (jc_wallet_dek ctx) txid
              (Some err_msg) (Some err_class) retryable bytes q).2)
      end
  end.

Definition tx_changed_event (t : Task) (primary : string) (err : option string) (can_retry : bool)
    : Event :=
  TransactionChangedEvent
    (mkTransactionInfo primary (jc_account_id (t_ctx t))
       (match jc_type (t_ctx t) with
        | JobType.Send => TransactionType.Send
        | JobType.Shield => TransactionType.Shield
        end)
       "0" "0" 0 []
       (if bool_decide (is_Some err) then TransactionStatus.Failed else TransactionStatus.Pending)
       err can_retry None (io_now_ms (t_io t)) None).

(** A step of task [t] of [job_id], in world [w]. *)
Definition goto (w : World) (job_id : string) (t : Task) (pc : Pc) : option World :=
  Some (w_set_task w job_id (t_set_pc t pc)).

(** The start of [run_send_job] and [run_shield_job], up to the closure. *)
Definition prologue_step (w : World) (job_id : string) (t : Task) : option World :=
  let ty := jc_type (t_ctx t) in
  let emit p := emit_progress w job_id (jc_on_progress (t_ctx t)) p in
  match t_pc t with
  | PcCheck =>
      if t_aborted t then goto w job_id t PcDropped
      else if t_cancel t then goto w job_id t PcStartCancelled else goto w job_id t PcProving10
  | PcStartCancelled => goto (emit (cancelled job_id ty)) job_id t PcDone
  | PcProving10 => goto (emit (proving job_id ty (Some 10))) job_id t PcOpen
  | PcOpen =>
      match io_open (t_io t) with
      | Ok _ => goto w job_id t PcBlock
      | Err e =>
          goto (emit (failed job_id ty ("failed to open wallet: " +:+ error_to_string e) None))
            job_id t PcDone
      end
  | _ => None
  end.

(** The blocking closure of [run_send_job]; a shield job enters
    [shield_funds_blocking], which starts with the same check. *)
Definition closure_step (w : World) (job_id : string) (t : Task) : option World :=
  let ty := jc_type (t_ctx t) in
  match t_pc t with
  | PcBlock =>
      if t_cancel t then goto w job_id t (PcJoin (JrErr "cancelled"))
      else goto w job_id t (match ty with JobType.Send => PcProving50 | JobType.Shield => PcGather end)
  | PcProving50 =>
      goto (insert_progress w job_id (jc_on_progress (t_ctx t)) (proving job_id ty (Some 50)))
        job_id t PcBuild
  | PcBuild =>
      goto w job_id t (match io_build (t_io t) 0 with
                       | Built first rest => PcBuilt first rest
                       | BuildError e => PcJoin (JrErr ("failed to build tx: " +:+ e))
                       | BuildPanic e => PcJoin (JrPanic e)
                       end)
  | PcBuilt first rest =>
      goto w job_id t (PcJoin (if t_cancel t then JrErr "cancelled" else JrBuilt first rest))
  | _ => None
  end.

(** [shield_funds_blocking]: the batches and their inputs. *)
Definition shield_batch_step (w : World) (job_id : string) (t : Task) : option World :=
  let ctx := t_ctx t in
  let io := t_io t in
  let ty := jc_type ctx in
  let insert p := insert_progress w job_id (jc_on_progress ctx) p in
  match t_pc t with
  | PcGather =>
      goto w job_id t (match gather_inputs io (jc_account_id ctx) with
                       | inl e => PcJoin (JrErr e)
                       | inr inputs => PcProving30 inputs
                       end)
  | PcProving30 inputs =>
      goto (insert (proving job_id ty (Some 30))) job_id t
        (PcBatch (chunks MAX_SHIELDING_INPUTS_PER_TX inputs) 0 (None, None, false))
  | PcBatch [] n (primary, err, can_retry) =>
      goto w job_id t (PcJoin (match primary with
                               | None => JrErr "no transparent funds to shield"
                               | Some txid => JrShielded txid err can_retry
                               end))
  | PcBatch (batch :: batches) n acc =>
      if t_cancel t then goto w job_id t (PcJoin (JrErr "cancelled"))
      else if bool_decide (batch = []) then goto w job_id t (PcBatch batches n acc)
      else
        match io_wallet_meta io with
        | inl e => goto w job_id t (PcJoin (JrErr ("failed to load wallet metadata: " +:+ e)))
        | inr _ => goto w job_id t (PcSelect batch batches n acc)
        end
  | PcSelect sel batches n acc =>
      match io_balance io sel with
      | BalanceOk =>
          if bool_decide (sel = []) then goto w job_id t (PcBatch batches n acc)
          else
            match io_propose io sel with
            | inl e => goto w job_id t (PcJoin (JrErr ("invalid shielding proposal: " +:+ e)))
            | inr _ => goto w job_id t (PcProving60 batches n acc)
            end
      | DustInputs exclusions =>
          let sel' := filter (fun u => u_outpoint u ∉ exclusions) sel in
          if bool_decide (sel' = []) then goto w job_id t (PcBatch batches n acc)
          else goto w job_id t (PcSelect sel' batches n acc)
      | InsufficientFunds =>
          goto w job_id t (PcJoin (JrErr "insufficient transparent balance to cover shielding fee"))
      | OtherChangeError e =>
          goto w job_id t (PcJoin (JrErr ("failed to compute shielding balance: " +:+ e)))
      end
  | _ => None
  end.

(** [shield_funds_blocking]: proving and sending the transactions of a batch. *)
Definition shield_tx_step (w : World) (job_id : string) (t : Task) : option World :=
  let io := t_io t in
  let ty := jc_type (t_ctx t) in
  let insert p := insert_progress w job_id (jc_on_progress (t_ctx t)) p in
  match t_pc t with
  | PcProving60 batches n acc =>
      goto (insert (proving job_id ty (Some 60))) job_id t (PcBuildBatch batches n acc)
  | PcBuildBatch batches n acc =>
      goto w job_id t
        (match io_build io n with
         | Built first rest => PcShieldTx (first :: rest) batches (S n) acc
         | BuildError e => PcJoin (JrErr ("failed to build shielding tx: " +:+ e))
         | BuildPanic e => PcJoin (JrPanic e)
         end)
  | PcShieldTx [] batches n acc => goto w job_id t (PcBatch batches n acc)
  | PcShieldTx (txid :: txids) batches n (primary, err, can_retry) =>
      let acc := (Some (default txid primary), err, can_retry) in
      match load_tx io txid with
      | inl e => goto w job_id t (PcJoin (JrErr e))
      | inr bytes =>
          goto (insert (broadcasting job_id ty txid)) job_id t
            (PcShieldSend txid bytes txids batches n acc)
      end
  | PcShieldSend txid bytes txids batches n (primary, err, can_retry) =>
      let '(failure, q) := broadcast_one t txid bytes (w_queue w) in
      let acc :=
        match failure with
        | None => (primary, err, can_retry)
        | Some (e, retryable) =>
            (primary, match err with None => Some e | some => some end, can_retry || retryable)
        end in
      goto (w_send w job_id txid q) job_id t (PcShieldTx txids batches n acc)
  | _ => None
  end.

(** [run_send_job] once the transactions are signed. *)
Definition broadcast_step (w : World) (job_id : string) (t : Task) : option World :=
  match t_pc t with
  | PcResume (JrBuilt first rest) =>
      goto (emit_progress w job_id (jc_on_progress (t_ctx t))
              (broadcasting job_id (jc_type (t_ctx t)) first))
        job_id t (PcBroadcast first (first :: rest) None false)
  | PcBroadcast primary [] err can_retry => goto w job_id t (PcTxChanged primary err can_retry)
  | PcBroadcast primary (txid :: txids) err can_retry =>
      match load_tx (t_io t) txid with
      | inl e => goto w job_id t (PcTxChanged primary (Some e) can_retry)
      | inr bytes =>
          if t_aborted t then goto w job_id t PcDropped
          else
            let '(failure, q) := broadcast_one t txid bytes (w_queue w) in
            goto (w_send w job_id txid q) job_id t
              (match failure with
               | None => PcBroadcast primary txids err can_retry
               | Some (e, retryable) => PcBroadcast primary txids (Some e) (can_retry || retryable)
               end)
      end
  | _ => None
  end.

(** The end of [run_send_job] and [run_shield_job]: the value of the
    closure, the transaction event and the final record. *)
Definition epilogue_step (w : World) (job_id : string) (t : Task) : option World :=
  let ty := jc_type (t_ctx t) in
  let emit p := emit_progress w job_id (jc_on_progress (t_ctx t)) p in
  match t_pc t with
  | PcJoin r => goto w job_id t (if t_aborted t then PcDropped else PcResume r)
  | PcResume (JrErr e) =>
      goto (emit (if bool_decide (e = "cancelled") then cancelled job_id ty
                  else failed job_id ty e None)) job_id t PcDone
  | PcResume (JrPanic e) =>
      goto (emit (failed job_id ty ("task panicked: " +:+ e) None)) job_id t PcDone
  | PcResume (JrShielded primary err can_retry) => goto w job_id t (PcTxChanged primary err can_retry)
  | PcTxChanged primary err can_retry =>
      goto (w_emit w (jc_on_tx_changed (t_ctx t)) (tx_changed_event t primary err can_retry))
        job_id t (PcFinal primary err)
  | PcFinal primary err =>
      goto (emit (match err with
                  | Some e => failed job_id ty e (Some primary)
                  | None => completed job_id ty primary
                  end)) job_id t PcDone
  | _ => None
  end.

(** One step of the task of [job_id]; [None] when it has none to make. *)
Definition task_step (w : World) (job_id : string) : option World :=
  t ← w_tasks w !! job_id;
  match t_pc t with
  | PcCheck | PcStartCancelled | PcProving10 | PcOpen => prologue_step w job_id t
  | PcBlock | PcProving50 | PcBuild | PcBuilt _ _ => closure_step w job_id t
  | PcGather | PcProving30 _ | PcBatch _ _ _ | PcSelect _ _ _ _ => shield_batch_step w job_id t
  | PcProving60 _ _ _ | PcBuildBatch _ _ _ | PcShieldTx _ _ _ _ | PcShieldSend _ _ _ _ _ _ =>
      shield_tx_step w job_id t
  | PcResume (JrBuilt _ _) | PcBroadcast _ _ _ _ => broadcast_step w job_id t
  | PcJoin _ | PcResume _ | PcTxChanged _ _ _ | PcFinal _ _ => epilogue_step w job_id t
  | PcDone | PcDropped => None
  end.

(** ** Interleavings *)

Inductive Action :=
| AStart (job_id : string) (ctx : JobContext) (io : JobIo)
| ARegister (job_id : string)
| ATask (job_id : string)
| ACancel (job_id : string)
| AClear (wallet_id : Uuid).

Definition act (w : World) (a : Action) : option World :=
  match a with
  | AStart id ctx io =>
      (* UUIDs are fresh *)
      if bool_decide (w_tasks w !! id = None) then Some (start_job w id ctx io) else None
  | ARegister id => register_job w id
  | ATask id => task_step w id
  | ACancel id => Some (cancel_job w id).2
  | AClear wallet_id => Some (clear_finished_jobs w wallet_id)
  end.

Fixpoint run (w : World) (l : list Action) : option World :=
  match l with
  | [] => Some w
  | a :: l' => match act w a with Some w' => run w' l' | None => None end
  end.

Inductive reachable (q : QueueState) : World -> Prop :=
| reach_new : reachable q (new_service q)
| reach_act w a w' : reachable q w -> act w a = Some w' -> reachable q w'.
End Tasks.
