(* ===== verification/JobSafety.v ===== *)
(** Theorems on the background jobs of [Jobs]: the shape of the progress
    records, the exclusion between cancelling and sending, the behaviour of
    the table operations, and the parts of the run of a job to its end, which
    [JobOutcome] puts together. *)
From S2P Require Import Prelude Text Domain AppDb Broadcast Servers BroadcastQueue Jobs.
From Stdlib Require Import QArith.
Open Scope Z_scope.

(** ** Progress records *)

(** What every record of the table satisfies: it belongs to its key, its
    percentage is one, it can be cancelled exactly before anything is signed,
    and its error and transaction id go with its state. *)
Record progress_ok (job_id : string) (p : JobProgress) : Prop := {
  po_id : jp_job_id p = job_id;
  po_percent : forall n, jp_progress_percent p = Some n -> 0 <= n <= 100;
  po_phase : is_terminal p = true <-> jp_phase p = JobPhase.Done;
  po_cancel : jp_can_cancel p = true <->
    jp_phase p = JobPhase.Preparing \/ jp_phase p = JobPhase.Proving;
  po_error : is_Some (jp_error p) <-> jp_state p = JobState.Failed;
  po_txid : jp_phase p = JobPhase.Broadcasting \/ jp_state p = JobState.Completed ->
    is_Some (jp_txid p);
}.

Ltac progress_case := constructor; cbn; try done; intuition (simplify_eq; eauto; try lia).

Lemma queued_ok id ty : progress_ok id (queued id ty).
Proof. progress_case. Qed.
Lemma proving_ok id ty n : 0 <= n <= 100 -> progress_ok id (proving id ty (Some n)).
Proof. progress_case. Qed.
Lemma broadcasting_ok id ty x : progress_ok id (broadcasting id ty x).
Proof. progress_case. Qed.
Lemma completed_ok id ty x : progress_ok id (completed id ty x).
Proof. progress_case. Qed.
Lemma failed_ok id ty e x : progress_ok id (failed id ty e x).
Proof. progress_case. Qed.
Lemma cancelled_ok id ty : progress_ok id (cancelled id ty).
Proof. progress_case. Qed.

Create HintDb jobs.
#[export] Hint Resolve queued_ok broadcasting_ok completed_ok failed_ok cancelled_ok : jobs.
#[export] Hint Extern 1 (progress_ok _ (proving _ _ _)) => apply proving_ok; lia : jobs.

(** ** The effect of one task step *)

(** The definition of a step, as one match on the state. *)
Ltac unfold_steps := unfold task_step, prologue_step, closure_step, shield_batch_step,
  shield_tx_step, broadcast_step, epilogue_step, goto in *.

(** Every branch of [task_step], with the updates evaluated. *)
Ltac task_cases t :=
  unfold emit_progress, insert_progress, w_emit in *;
  destruct (jc_on_progress (t_ctx t)), (jc_on_tx_changed (t_ctx t));
  repeat case_match; simplify_eq; cbn in *.

Definition no_cancel (o : option JobProgress) : Prop :=
  forall p, o = Some p -> is_terminal p = true \/ jp_can_cancel p = false.

(** The states in which a send job has signed its transactions. *)
Definition late (pc : Pc) : bool :=
  match pc with PcBroadcast _ _ _ _ | PcTxChanged _ _ _ | PcFinal _ _ => true | _ => false end.
Definition committed (pc : Pc) : bool := late pc || match pc with PcDone => true | _ => false end.

(** The states a send job can be in. *)
Definition send_pc (pc : Pc) : bool :=
  match pc with
  | PcGather | PcProving30 _ | PcBatch _ _ _ | PcSelect _ _ _ _ | PcProving60 _ _ _
  | PcBuildBatch _ _ _ | PcShieldTx _ _ _ _ | PcShieldSend _ _ _ _ _ _
  | PcJoin (JrShielded _ _ _) | PcResume (JrShielded _ _ _) => false
  | _ => true
  end.

Definition is_send (t : Task) : Prop := jc_type (t_ctx t) = JobType.Send.

Section Steps.
Context (to_vec_pretty : QueuedBroadcastMeta -> string)
        (aead_encrypt : string -> string -> string -> string -> option string) (fl : Q -> Q).
Let tstep := task_step to_vec_pretty aead_encrypt fl.

(** What no step changes, and what it may. *)
Lemma task_step_frame w id w' :
  tstep w id = Some w' ->
  exists t pc', w_tasks w !! id = Some t
    /\ w_tasks w' = <[id := t_set_pc t pc']> (w_tasks w)
    /\ w_starting w' = w_starting w /\ w_cancelled w' = w_cancelled w
    /\ (w_jobs w' = w_jobs w \/ w_jobs w' = delete id (w_jobs w))
    /\ (w_progress w' = w_progress w
        \/ exists p, progress_ok id p /\ w_progress w' = <[id := p]> (w_progress w)).
Proof using Type.
  unfold tstep; unfold_steps. destruct (w_tasks w !! id) as [t|] eqn:Ht; [|done].
  cbn [mbind option_bind]. intros H. exists t.
  destruct (t_pc t); task_cases t; eexists; (split; [done|]); (split; [reflexivity|]);
    repeat (split; [solve [auto]|]); solve [auto | right; eexists; split; [|reflexivity]; auto with jobs].
Qed.

(** Of a send job: a step stays before the signature, or crosses it and
    publishes a record that cannot be cancelled, or is after it. *)
Lemma send_step_cases w id w' t :
  tstep w id = Some w' -> w_tasks w !! id = Some t -> is_send t -> send_pc (t_pc t) = true ->
  exists pc', w_tasks w' = <[id := t_set_pc t pc']> (w_tasks w) /\ send_pc pc' = true /\
  ( (committed (t_pc t) = false /\ t_pc t <> PcDropped
      /\ committed pc' = false /\ w_sent w' = w_sent w)
  \/ (committed pc' = true /\ w_sent w' = w_sent w
      /\ exists p, w_progress w' = <[id := p]> (w_progress w) /\ no_cancel (Some p))
  \/ (late (t_pc t) = true /\ (late pc' = true \/ pc' = PcDropped) /\ w_progress w' = w_progress w
      /\ (w_sent w' = w_sent w
          \/ (t_aborted t = false /\ exists x, w_sent w' = (w_sent w ++ [(id, x)])%list)))).
Proof using Type.
  unfold tstep, is_send; unfold_steps. intros H Ht Hs Hpc. rewrite Ht in H. cbn [mbind option_bind] in H.
  destruct (t_pc t) eqn:Epc; try discriminate Hpc; rewrite ?Hs in H; task_cases t;
    try discriminate Hpc; eexists; (split; [reflexivity|]); (split; [solve [exact Hpc|reflexivity]|]);
    first
      [ left; split; [reflexivity|]; split; [discriminate|]; split; reflexivity
      | right; right; split; [reflexivity|];
        split; [solve [left; reflexivity | right; reflexivity]|]; split; [reflexivity|];
        solve [left; reflexivity | right; split; [done|]; eexists; reflexivity]
      | right; left; split; [reflexivity|]; split; [reflexivity|]; eexists;
        split; [reflexivity|]; intros ? [= <-]; cbn; auto ].
Qed.
End Steps.

(** ** Table operations *)

Lemma cancel_cases w id :
  let '(r, w') := cancel_job w id in
  (w' = w \/
   (is_Some (w_jobs w !! id) /\ ~ no_cancel (w_progress w !! id)
    /\ r = true /\ w_cancelled w' = {[id]} ∪ w_cancelled w
    /\ (exists ty, w_progress w' = <[id := cancelled id ty]> (w_progress w))) \/
   (is_Some (w_jobs w !! id) /\ w_progress w !! id = None /\ r = true
    /\ w_cancelled w' = w_cancelled w /\ w_progress w' = w_progress w))
  /\ (w' = w \/ (w_jobs w' = delete id (w_jobs w)
        /\ w_tasks w' = alter (fun t => mkTask (t_ctx t) (t_io t) (t_pc t) true true) id (w_tasks w)))
  /\ w_starting w' = w_starting w /\ w_sent w' = w_sent w.
Proof.
  unfold cancel_job. destruct (w_progress w !! id) as [p|] eqn:Hp.
  - destruct (is_terminal p) eqn:Ht; [auto|]. destruct (jp_can_cancel p) eqn:Hc; simpl; [|auto].
    destruct (w_jobs w !! id) as [o|] eqn:Hj; [|auto]. split; [|cbn; auto].
    right. left. split; [eauto|]. split; [intros Hn; destruct (Hn p eq_refl); congruence|].
    split; [done|]. split; [done|].
    exists (jp_job_type p). by rewrite (alter_lookup_Some _ _ _ _ Hp).
  - destruct (w_jobs w !! id) as [o|] eqn:Hj; [|auto]. split; [|cbn; auto].
    right. right. split; [eauto|]. do 3 (split; [done|]). cbn.
    apply map_eq. intros j. destruct (decide (j = id)) as [->|].
    + by rewrite lookup_alter_eq, Hp.
    + by rewrite lookup_alter_ne.
Qed.

Lemma foldr_delete_lookup {V} (m : gmap string V) l i :
  foldr delete m l !! i = if decide (i ∈ l) then None else m !! i.
Proof.
  induction l as [|x l IH]; cbn [foldr]; [by rewrite decide_False by apply not_elem_of_nil|].
  destruct (decide (i = x)) as [->|Hne].
  - by rewrite lookup_delete_eq, decide_True by left.
  - rewrite lookup_delete_ne by done. rewrite IH.
    destruct (decide (i ∈ l)); [by rewrite decide_True by (by right)|].
    rewrite decide_False; [done|]. by intros [|]%elem_of_cons.
Qed.

(** What [clear_finished_jobs] keeps, exactly. *)
Lemma clear_lookup w wallet_id id :
  let w' := clear_finished_jobs w wallet_id in
  let gone := match w_progress w !! id with Some p => clears w wallet_id id p | None => false end in
  w_progress w' !! id = (if gone then None else w_progress w !! id)
  /\ w_jobs w' !! id = (if gone then None else w_jobs w !! id).
Proof.
  cbn. unfold clear_finished_jobs. cbn. rewrite !foldr_delete_lookup.
  set (l := (filter _ _).*1).
  assert (id ∈ l <-> exists p, w_progress w !! id = Some p /\ clears w wallet_id id p = true) as Hl.
  { unfold l. rewrite list_elem_of_fmap. split.
    - intros ([k p] & -> & Hin). apply list_elem_of_filter in Hin as [Hc Hin].
      apply elem_of_map_to_list in Hin. eauto.
    - intros (p & Hp & Hc). exists (id, p). split; [done|]. apply list_elem_of_filter.
      split; [done|]. by apply elem_of_map_to_list. }
  destruct (w_progress w !! id) as [p|] eqn:Hp.
  - destruct (clears w wallet_id id p) eqn:Hc.
    + rewrite !decide_True by (apply Hl; eauto). done.
    + rewrite !decide_False by (rewrite Hl; intros (? & [= <-] & ?); congruence). done.
  - rewrite !decide_False by (rewrite Hl; naive_solver). done.
Qed.

(** ** The invariant *)

Definition sent_by (w : World) (id : string) : Prop := exists x, (id, x) ∈ w_sent w.

Record jobs_inv (w : World) : Prop := {
  ji_progress : forall id p, w_progress w !! id = Some p -> progress_ok id p;
  ji_starting : forall id, is_Some (w_starting w !! id) ->
    (id ∉ w_cancelled w) /\ is_Some (w_tasks w !! id);
  ji_jobs : forall id, is_Some (w_jobs w !! id) ->
    (id ∉ w_cancelled w) /\ w_starting w !! id = None /\ is_Some (w_tasks w !! id);
  ji_cancelled : forall id, id ∈ w_cancelled w -> exists t, w_tasks w !! id = Some t
    /\ t_cancel t = true /\ t_aborted t = true /\ (is_send t -> ~ sent_by w id);
  ji_pc : forall id t, w_tasks w !! id = Some t -> is_send t -> send_pc (t_pc t) = true;
  ji_sent : forall id, sent_by w id -> exists t, w_tasks w !! id = Some t
    /\ (is_send t -> committed (t_pc t) = true \/ t_pc t = PcDropped);
  ji_committed : forall id t, w_tasks w !! id = Some t -> is_send t -> id ∉ w_cancelled w ->
    committed (t_pc t) = true \/ sent_by w id -> no_cancel (w_progress w !! id);
}.

Lemma jobs_inv_new q : jobs_inv (new_service q).
Proof.
  split; cbn; intros *; rewrite ?lookup_empty; try done; try (by intros [? ?]).
  - intros [x Hx]. by apply elem_of_nil in Hx.
Qed.

Lemma jobs_inv_start w id ctx io :
  jobs_inv w -> w_tasks w !! id = None -> jobs_inv (start_job w id ctx io).
Proof.
  intros Hi Hn.
  assert (id ∉ w_cancelled w) as Hnc.
  { intros Hin. destruct (ji_cancelled w Hi id Hin) as (t & Ht & _). congruence. }
  assert (~ sent_by w id) as Hns.
  { intros Hs. destruct (ji_sent w Hi id Hs) as (t & Ht & _). congruence. }
  assert (w_jobs w !! id = None) as Hnj.
  { apply eq_None_not_Some. intros Hj. destruct (ji_jobs w Hi id Hj) as (_ & _ & [? ?]). congruence. }
  assert (forall w', start_job w id ctx io = w' ->
    w_jobs w' = w_jobs w /\ w_progress w' = <[id := queued id (jc_type ctx)]> (w_progress w)
    /\ w_tasks w' = <[id := mkTask ctx io PcCheck false false]> (w_tasks w)
    /\ w_starting w' = <[id := jc_wallet_id ctx]> (w_starting w)
    /\ w_sent w' = w_sent w /\ w_cancelled w' = w_cancelled w) as Hshape.
  { intros w' <-. unfold start_job, w_emit. by destruct (jc_on_progress ctx). }
  destruct (Hshape _ eq_refl) as (Ej & Ep & Et & Es & Esent & Ec). clear Hshape.
  split; unfold sent_by in *; rewrite ?Ej, ?Ep, ?Et, ?Es, ?Esent, ?Ec; intros i.
  - intros p. destruct (decide (i = id)) as [->|].
    + rewrite lookup_insert_eq. intros [= <-]. apply queued_ok.
    + rewrite lookup_insert_ne by done. apply Hi.
  - destruct (decide (i = id)) as [->|]; [rewrite !lookup_insert_eq; eauto|].
    rewrite !lookup_insert_ne by done. apply Hi.
  - intros Hj. destruct (decide (i = id)) as [->|]; [rewrite Hnj in Hj; by destruct Hj|].
    rewrite !lookup_insert_ne by done. by apply Hi.
  - intros Hin. destruct (decide (i = id)) as [->|]; [done|].
    rewrite lookup_insert_ne by done. by apply Hi.
  - intros t. destruct (decide (i = id)) as [->|].
    + rewrite lookup_insert_eq. by intros [= <-].
    + rewrite lookup_insert_ne by done. apply Hi.
  - intros Hs. destruct (decide (i = id)) as [->|]; [done|].
    rewrite lookup_insert_ne by done. by apply Hi.
  - intros t. destruct (decide (i = id)) as [->|].
    + rewrite lookup_insert_eq. intros [= <-] _ _ [|Hs]; done.
    + rewrite !lookup_insert_ne by done. apply Hi.
Qed.

Lemma jobs_inv_register w id w' : jobs_inv w -> register_job w id = Some w' -> jobs_inv w'.
Proof.
  intros Hi. unfold register_job. destruct (w_starting w !! id) as [o|] eqn:Hs; [|done].
  cbn. intros [= <-]. destruct (ji_starting w Hi id ltac:(eauto)) as [Hnc Ht].
  split; cbn; try apply Hi; intros i.
  - destruct (decide (i = id)) as [->|]; [rewrite lookup_delete_eq; by intros []|].
    rewrite lookup_delete_ne by done. apply Hi.
  - destruct (decide (i = id)) as [->|].
    + rewrite lookup_delete_eq. auto.
    + rewrite lookup_insert_ne, lookup_delete_ne by done. apply Hi.
Qed.

Lemma jobs_inv_clear w wallet_id : jobs_inv w -> jobs_inv (clear_finished_jobs w wallet_id).
Proof.
  intros Hi. pose proof (clear_lookup w wallet_id) as Hl. cbv zeta in Hl.
  split; try apply Hi; intros i.
  - intros p. destruct (Hl i) as [-> _]. destruct (match w_progress w !! i with Some _ => _ | None => _ end); [done|].
    apply Hi.
  - destruct (Hl i) as [_ ->]. destruct (match w_progress w !! i with Some _ => _ | None => _ end);
      [by intros []|]. apply Hi.
  - intros t Ht Hs Hc Hcom. destruct (Hl i) as [-> _].
    destruct (match w_progress w !! i with Some _ => _ | None => _ end); [done|].
    by apply (ji_committed w Hi i t).
Qed.

Lemma jobs_inv_cancel w id : jobs_inv w -> jobs_inv (cancel_job w id).2.
Proof.
  intros Hi. pose proof (cancel_cases w id) as H. destruct (cancel_job w id) as [r w'] eqn:E. cbn.
  destruct H as (Hc & [->|[Hj Ht]] & Hst & Hsent); [done|].
  destruct Hc as [->|Hc]; [done|].
  assert (is_Some (w_jobs w !! id)) as Hjob by (destruct Hc as [[? _]|[? _]]; done).
  destruct (ji_jobs w Hi id Hjob) as (Hnc & Hnst & [t Htask]).
  rewrite (alter_lookup_Some _ _ _ _ Htask) in Ht.
  assert (forall i, i <> id -> w_progress w' !! i = w_progress w !! i
    /\ (i ∈ w_cancelled w' <-> i ∈ w_cancelled w)) as Hother.
  { intros i Hne. destruct Hc as [(_ & _ & _ & -> & ty & ->)|(_ & _ & _ & -> & ->)]; [|done].
    rewrite lookup_insert_ne by done. set_solver. }
  assert (w_progress w' !! id = None \/ exists ty, w_progress w' !! id = Some (cancelled id ty)) as Hpid.
  { destruct Hc as [(_ & _ & _ & _ & ty & ->)|(_ & Hn & _ & _ & ->)]; [right|by left].
    rewrite lookup_insert_eq. eauto. }
  split; unfold sent_by in *; rewrite ?Hj, ?Ht, ?Hst, ?Hsent; intros i;
    (destruct (decide (i = id)) as [->|Hne];
      [|destruct (Hother i Hne) as [Hpi Hci];
        rewrite ?Hpi, ?Hci, ?lookup_insert_ne, ?lookup_delete_ne by done;
        first [by apply Hi | intros t' ? ? Hn; rewrite Hci in Hn; by apply (ji_committed w Hi i t')]]).
  - intros p Hp. destruct Hpid as [?|[ty ?]]; [congruence|]. simplify_eq. apply cancelled_ok.
  - intros [? ?]. congruence.
  - rewrite lookup_delete_eq. by intros [].
  - intros Hin. rewrite lookup_insert_eq. eexists. repeat split. unfold is_send. cbn. intros Hs [x Hx].
    destruct Hc as [(_ & Hno & _)|(_ & _ & _ & Ec & _)].
    + apply Hno, (ji_committed w Hi id t); [done..|]. right. by exists x.
    + rewrite Ec in Hin. done.
  - rewrite lookup_insert_eq. intros t' [= <-]. unfold is_send. cbn. by apply (ji_pc w Hi id t).
  - intros Hs. rewrite lookup_insert_eq. eexists. split; [done|]. unfold is_send. cbn. intros His.
    destruct (ji_sent w Hi id Hs) as (t2 & Ht2 & Hcom). simplify_eq. auto.
  - intros t' _ _ _ _. destruct Hpid as [->|[ty ->]]; [done|]. intros p [= <-]. by left.
Qed.

Section Invariant.
Context (to_vec_pretty : QueuedBroadcastMeta -> string)
        (aead_encrypt : string -> string -> string -> string -> option string) (fl : Q -> Q).
Let tstep := task_step to_vec_pretty aead_encrypt fl.

(** Who is behind a new send. *)
Lemma task_step_sent w id w' x :
  tstep w id = Some w' -> sent_by w' x -> sent_by w x \/ x = id.
Proof using Type.
  unfold tstep; unfold_steps. destruct (w_tasks w !! id) as [t|] eqn:Ht; [|done].
  cbn [mbind option_bind]. intros H. unfold sent_by.
  destruct (t_pc t); task_cases t; try (by left);
    (intros [y [Hy|Hy]%elem_of_app]; [left; eauto|]); apply list_elem_of_singleton in Hy; simplify_eq; auto.
Qed.

(** The part of the invariant that is about send jobs, after a step. *)
Lemma send_task_effect w id w' t pc' :
  jobs_inv w -> tstep w id = Some w' -> w_tasks w !! id = Some t -> is_send t ->
  w_tasks w' = <[id := t_set_pc t pc']> (w_tasks w) ->
  send_pc pc' = true
  /\ (sent_by w' id -> committed pc' = true \/ pc' = PcDropped)
  /\ (id ∈ w_cancelled w -> ~ sent_by w' id)
  /\ (id ∉ w_cancelled w -> committed pc' = true \/ sent_by w' id -> no_cancel (w_progress w' !! id)).
Proof using Type.
  intros Hi H Ht Hs Htasks. pose proof (ji_pc w Hi id t Ht Hs) as Hpc.
  assert (sent_by w id -> committed (t_pc t) = true \/ t_pc t = PcDropped) as Hsent.
  { intros Hw. destruct (ji_sent w Hi id Hw) as (t' & Ht' & ?). simplify_eq. auto. }
  assert (id ∈ w_cancelled w -> t_aborted t = true /\ ~ sent_by w id) as Hcan.
  { intros Hin. destruct (ji_cancelled w Hi id Hin) as (t' & Ht' & _ & ? & ?). simplify_eq. auto. }
  pose proof (ji_committed w Hi id t Ht Hs) as Hcom.
  destruct (send_step_cases _ _ _ w id w' t H Ht Hs Hpc) as (pc & Epc & Hok & Hcases).
  assert (pc = pc') as ->.
  { rewrite Epc in Htasks. apply (f_equal (.!! id)) in Htasks.
    rewrite !lookup_insert_eq in Htasks. by simplify_eq. }
  split; [done|].
  destruct Hcases as [(Hnc & Hnd & Hnc' & E)|[(Hc' & E & p & Ep & Hp)|(Hl & Hl' & Ep & E)]].
  - assert (~ sent_by w' id) as Hns.
    { unfold sent_by in *. rewrite E. intros Hw. destruct (Hsent Hw); congruence. }
    split; [done|]. split; [done|]. intros _ [?|?]; [congruence|done].
  - assert (sent_by w' id -> sent_by w id) as Hback by (unfold sent_by; by rewrite E).
    split; [by left|]. split; [intros Hin; destruct (Hcan Hin); auto|].
    intros _ _. rewrite Ep, lookup_insert_eq. done.
  - assert (committed pc' = true \/ pc' = PcDropped) as Hpc'.
    { destruct Hl' as [Hl'| ->]; [left; unfold committed; by rewrite Hl'|by right]. }
    assert (committed (t_pc t) = true) as Hct by (unfold committed; by rewrite Hl).
    split; [done|]. rewrite Ep. split; [|intros Hn _; apply Hcom; auto].
    intros Hin. destruct (Hcan Hin) as [Ha Hns]. unfold sent_by in *.
    destruct E as [->|[? _]]; [done|congruence].
Qed.

Lemma jobs_inv_task w id w' : jobs_inv w -> tstep w id = Some w' -> jobs_inv w'.
Proof using Type.
  intros Hi H.
  destruct (task_step_frame _ _ _ w id w' H) as (t & pc' & Ht & Htasks & Hst & Hcn & Hj & Hp).
  pose proof (fun x => task_step_sent w id w' x H) as Hsent.
  pose proof (fun Hs => send_task_effect w id w' t pc' Hi H Ht Hs Htasks) as Hsend.
  assert (forall i, is_Some (w_tasks w !! i) -> is_Some (w_tasks w' !! i)) as Hmono.
  { intros i Hx. rewrite Htasks. apply lookup_insert_is_Some'. auto. }
  split; rewrite ?Hst, ?Hcn; intros i.
  - intros p. destruct Hp as [->|(p0 & Hok & ->)]; [apply Hi|].
    intros [[<- <-]|[_ Hl]]%lookup_insert_Some; [done|by apply Hi].
  - intros Hs. destruct (ji_starting w Hi i Hs). auto.
  - intros Hjob. assert (is_Some (w_jobs w !! i)) as Hjob'.
    { destruct Hj as [<-|Hj]; [done|]. rewrite Hj in Hjob. apply lookup_delete_is_Some in Hjob. naive_solver. }
    destruct (ji_jobs w Hi i Hjob') as (? & ? & ?). auto.
  - intros Hin. destruct (ji_cancelled w Hi i Hin) as (t' & Ht' & Hc & Ha & Hns). rewrite Htasks.
    destruct (decide (i = id)) as [->|Hne].
    + simplify_eq. rewrite lookup_insert_eq. eexists. repeat split; [done..|].
      intros Hs. by apply (Hsend Hs).
    + rewrite lookup_insert_ne by done. exists t'. repeat split; [done..|].
      intros Hs Hsw. destruct (Hsent i Hsw); [by apply Hns|done].
  - intros t'. rewrite Htasks. intros [[<- <-]|[_ Hl]]%lookup_insert_Some Hs;
      [apply (Hsend Hs)|by apply (ji_pc w Hi i)].
  - intros Hsw. rewrite Htasks. destruct (decide (i = id)) as [->|Hne].
    + rewrite lookup_insert_eq. eexists. split; [done|]. intros Hs. by apply (Hsend Hs).
    + rewrite lookup_insert_ne by done. destruct (Hsent i Hsw); [by apply Hi|done].
  - intros t'. rewrite Htasks. intros [[<- <-]|[Hne Hl]]%lookup_insert_Some Hs Hnc Hcom;
      [by apply (Hsend Hs)|].
    assert (w_progress w' !! i = w_progress w !! i) as ->.
    { destruct Hp as [->|(p0 & _ & ->)]; [done|]. by rewrite lookup_insert_ne. }
    apply (ji_committed w Hi i t'); [done..|]. destruct Hcom as [|Hsw]; [by left|].
    destruct (Hsent i Hsw); [by right|congruence].
Qed.

Lemma reachable_inv q w : reachable to_vec_pretty aead_encrypt fl q w -> jobs_inv w.
Proof using Type.
  induction 1 as [|w a w' _ IH H]; [apply jobs_inv_new|].
  destruct a; cbn in H.
  - case_bool_decide; simplify_eq. by apply jobs_inv_start.
  - by eapply jobs_inv_register.
  - by eapply jobs_inv_task.
  - simplify_eq. by apply jobs_inv_cancel.
  - simplify_eq. by apply jobs_inv_clear.
Qed.
End Invariant.

(** ** Concrete jobs, for the witnesses *)

Definition demo_ctx (ty : JobType) : JobContext := mkJobContext ty "w1" "/w" "key" 0 true true.

(** One account with one spendable output; every call succeeds but for the
    sends listed in [down]. *)
Definition demo_io (down : list string) : JobIo :=
  mkJobIo (Ok tt) (fun n => Built ("tx" +:+ uint_to_string (Z.of_nat n)) [])
    (fun txid => inr (Some txid)) (fun tx => inr tx)
    (fun txid => if bool_decide (txid ∈ down) then Some (Err (AnyhowMsg "connection refused"))
                 else Some (Ok tt))
    (inr [Some (mkAccountView (Some "zbag-account-id:0") None)]) (inr ["t1"]) (inr (Some 100))
    (fun _ => inr [mkUtxo "o1" 5000]) (inr tt) (fun _ => BalanceOk) (fun _ => inr tt)
    1700000000000 (fun _ => "abcdefghijklmnopqrstuvwx") 0.

Definition demo_run (l : list Action) : option World :=
  run demo_to_vec demo_encrypt (fun x => x) (new_service demo_queue) l.

Lemma run_reachable to_vec enc fl q l w w' :
  reachable to_vec enc fl q w -> run to_vec enc fl w l = Some w' -> reachable to_vec enc fl q w'.
Proof.
  revert w. induction l as [|a l IH]; cbn; intros w Hw H; [by simplify_eq|].
  destruct (act _ _ _ w a) as [w1|] eqn:E; [|done]. apply (IH w1); [|done]. by eapply reach_act.
Qed.

(** ** Cancelling and sending exclude each other *)

(** C13. Once [cancel_job] has moved a send job to [Cancelled], no
    transaction of that job has been or will ever be sent, whatever the
    interleaving of the job's task, its blocking closure, its registration
    and the other calls of the service; and every progress record shown is
    well formed, cancellable exactly before anything is signed. *)
Theorem cancelled_send_job_never_broadcasts
    (to_vec_pretty : QueuedBroadcastMeta -> string)
    (aead_encrypt : string -> string -> string -> string -> option string) (fl : Q -> Q)
    (q : QueueState) (w : World) (id : string) (t : Task) :
  reachable to_vec_pretty aead_encrypt fl q w ->
  id ∈ w_cancelled w -> w_tasks w !! id = Some t -> jc_type (t_ctx t) = JobType.Send ->
  (forall txid, ~ (id, txid) ∈ w_sent w)
  /\ forall j p, get_progress w j = Some p -> progress_ok j p.
Proof.
  intros Hw Hin Ht Hs. pose proof (reachable_inv _ _ _ _ _ Hw) as Hi. split.
  - intros txid Hx. destruct (ji_cancelled w Hi id Hin) as (t' & Ht' & _ & _ & Hns). simplify_eq.
    apply Hns; [done|]. by exists txid.
  - intros j p Hp. by apply (ji_progress w Hi).
Qed.

(** A send cancelled while it proves. *)
Definition demo_cancel_trace : list Action :=
  [AStart "j1" (demo_ctx JobType.Send) (demo_io []); ATask "j1"; ATask "j1"; ARegister "j1";
   ATask "j1"; ATask "j1"; ACancel "j1"; ATask "j1"; ATask "j1"; ATask "j1"; ATask "j1"].

Lemma cancelled_send_job_never_broadcasts_witness :
  exists w, demo_run demo_cancel_trace = Some w /\ "j1" ∈ w_cancelled w
    /\ forall txid, ~ ("j1", txid) ∈ w_sent w.
Proof.
  destruct (demo_run demo_cancel_trace) as [w|] eqn:E; [|vm_compute in E; discriminate E].
  exists w. split; [reflexivity|].
  assert ("j1" ∈ w_cancelled w) as Hin.
  { apply (bool_decide_unpack ("j1" ∈ w_cancelled w)). vm_compute in E. injection E as <-.
    vm_compute. exact I. }
  split; [exact Hin|].
  assert (exists t, w_tasks w !! "j1" = Some t /\ jc_type (t_ctx t) = JobType.Send) as (t & Ht & Hs).
  { vm_compute in E. injection E as <-. eexists. split; reflexivity. }
  refine (proj1 (cancelled_send_job_never_broadcasts demo_to_vec demo_encrypt (fun x => x) demo_queue
           w "j1" t _ Hin Ht Hs)).
  eapply run_reachable; [apply reach_new|exact E].
Defined.

(** The same does not hold of shield jobs: the blocking closure reads the
    channel only between batches, and a batch that is past that point is
    proved and sent although [cancel_job] has answered [true] and shown the
    job as cancelled; the record then goes back to a running state that no
    call can leave. *)
Theorem cancelled_shield_job_can_broadcast :
  exists w w1 txid,
    demo_run [AStart "j1" (demo_ctx JobType.Shield) (demo_io []); ARegister "j1";
              ATask "j1"; ATask "j1"; ATask "j1"; ATask "j1"; ATask "j1"; ATask "j1"; ATask "j1"]
      = Some w
    /\ cancel_job w "j1" = (true, w1)
    /\ jp_state <$> get_progress w1 "j1" = Some JobState.Cancelled
    /\ exists w2,
        run demo_to_vec demo_encrypt (fun x => x) w1
          [ATask "j1"; ATask "j1"; ATask "j1"; ATask "j1"; ATask "j1"; ATask "j1"; ATask "j1"; ATask "j1"]
          = Some w2
        /\ ("j1", txid) ∈ w_sent w2
        /\ jp_phase <$> get_progress w2 "j1" = Some JobPhase.Broadcasting
        /\ task_step demo_to_vec demo_encrypt (fun x => x) w2 "j1" = None
        /\ cancel_job w2 "j1" = (false, w2).
Proof.
  eexists _, _, "tx0". split; [vm_compute; reflexivity|]. split; [vm_compute; reflexivity|].
  split; [vm_compute; reflexivity|].
  eexists. split; [vm_compute; reflexivity|]. split; [|vm_compute; auto].
  apply (bool_decide_unpack (_ ∈ _)). vm_compute. exact I.
Qed.

(** The order of [cancel_job] (record first, signal after) does not keep
    the cancelled record: the closure of a send job, past its first check,
    stores [proving] over it; the aborted task never stores a final one, so
    the job is shown as running and cancellable for ever, [cancel_job]
    answers [false] and [clear_finished_jobs] never removes it. *)
Theorem cancelled_record_overwritten :
  exists w1 w2,
    demo_run [AStart "j1" (demo_ctx JobType.Send) (demo_io []); ARegister "j1";
              ATask "j1"; ATask "j1"; ATask "j1"; ATask "j1"; ACancel "j1"] = Some w1
    /\ jp_state <$> get_progress w1 "j1" = Some JobState.Cancelled
    /\ run demo_to_vec demo_encrypt (fun x => x) w1 [ATask "j1"; ATask "j1"; ATask "j1"; ATask "j1"]
       = Some w2
    /\ get_progress w2 "j1" = Some (proving "j1" JobType.Send (Some 50))
    /\ task_step demo_to_vec demo_encrypt (fun x => x) w2 "j1" = None
    /\ cancel_job w2 "j1" = (false, w2)
    /\ forall wallet_id, get_progress (clear_finished_jobs w2 wallet_id) "j1" = get_progress w2 "j1".
Proof.
  eexists _, _. split; [vm_compute; reflexivity|]. split; [vm_compute; reflexivity|].
  split; [vm_compute; reflexivity|]. split; [vm_compute; reflexivity|].
  split; [vm_compute; reflexivity|]. split; [vm_compute; reflexivity|].
  intros wallet_id. unfold get_progress.
  match goal with |- w_progress (clear_finished_jobs ?w _) !! _ = _ =>
    destruct (clear_lookup w wallet_id "j1") as [-> _] end.
  vm_compute. reflexivity.
Qed.

(** [clear_finished_jobs] removes exactly the finished jobs that are not
    registered to another wallet, and nothing else.  But a task that stores
    its final record removes its registration, so a job that has ended is
    cleared by a call for any wallet, not only for its own. *)
Theorem clear_finished_jobs_exact (w : World) (wallet_id : Uuid) (id : string) :
  (forall p, get_progress w id = Some p -> is_terminal p = false ->
     get_progress (clear_finished_jobs w wallet_id) id = Some p
     /\ w_jobs (clear_finished_jobs w wallet_id) !! id = w_jobs w !! id)
  /\ (forall p, get_progress w id = Some p -> is_terminal p = true ->
       (get_progress (clear_finished_jobs w wallet_id) id = None
        <-> w_jobs w !! id = None \/ w_jobs w !! id = Some wallet_id))
  /\ (forall p on, is_terminal p = true ->
       get_progress (clear_finished_jobs (emit_progress w id on p) wallet_id) id = None).
Proof.
  unfold get_progress. destruct (clear_lookup w wallet_id id) as [Hp Hj]. split; [|split].
  - intros p E Ht. rewrite Hp, Hj, E. unfold clears. rewrite Ht. done.
  - intros p E Ht. rewrite Hp, E. unfold clears. rewrite Ht. cbn.
    destruct (w_jobs w !! id) as [o|]; [|naive_solver].
    destruct (bool_decide (o = wallet_id)) eqn:Eb; breflect; naive_solver.
  - intros p on Ht. destruct (clear_lookup (emit_progress w id on p) wallet_id id) as [-> _].
    unfold emit_progress, clears. rewrite Ht.
    destruct on; cbn; by rewrite lookup_insert_eq, lookup_delete_eq, Ht.
Qed.

(** ** A job left alone runs to its end *)

Section Completion.
Context (to_vec_pretty : QueuedBroadcastMeta -> string)
        (aead_encrypt : string -> string -> string -> string -> option string) (fl : Q -> Q).

Definition tstep (id : string) (w w' : World) : Prop :=
  task_step to_vec_pretty aead_encrypt fl w id = Some w'.

(** One step of a task whose state is known, with the outcome of its call. *)
Ltac one_step H :=
  eapply rtc_l;
  [unfold tstep; unfold_steps; cbn; rewrite ?lookup_insert_eq; cbn; rewrite ?H; reflexivity|].

Lemma start_to_broadcast id t w first rest :
  w_tasks w !! id = Some t -> t_pc t = PcCheck -> t_cancel t = false -> t_aborted t = false ->
  is_send t -> io_open (t_io t) = Ok tt -> io_build (t_io t) 0 = Built first rest ->
  exists w', rtc (tstep id) w w'
    /\ w_tasks w' !! id = Some (t_set_pc t (PcBroadcast first (first :: rest) None false))
    /\ w_sent w' = w_sent w /\ w_queue w' = w_queue w /\ w_jobs w' = w_jobs w
    /\ w_progress w' !! id = Some (broadcasting id JobType.Send first).
Proof using Type.
  destruct t as [[ty wid dir dek acc onp ont] io pc c a]. unfold is_send. cbn.
  intros Ht -> -> -> -> Ho Hb.
  destruct onp; (eexists; split;
    [ one_step Ht; one_step Ht; one_step Ho; do 2 one_step Ht; one_step Hb; do 3 one_step Ht;
      apply rtc_refl
    | cbn; rewrite !lookup_insert_eq; done ]).
Qed.

Lemma finish id t w primary err can_retry :
  w_tasks w !! id = Some (t_set_pc t (PcTxChanged primary err can_retry)) -> is_send t ->
  exists w', rtc (tstep id) w w'
    /\ w_tasks w' !! id = Some (t_set_pc t PcDone)
    /\ w_sent w' = w_sent w /\ w_queue w' = w_queue w /\ w_jobs w' = delete id (w_jobs w)
    /\ w_progress w' !! id = Some (match err with
                                   | Some e => failed id JobType.Send e (Some primary)
                                   | None => completed id JobType.Send primary
                                   end).
Proof using Type.
  destruct t as [[ty wid dir dek acc onp ont] io pc c a]. unfold is_send. cbn. intros Ht ->.
  destruct onp, ont, err as [e|]; (eexists; split;
    [ one_step Ht; one_step Ht; apply rtc_refl | cbn; rewrite !lookup_insert_eq; done ]).
Qed.
End Completion.

(** ** Shielding in batches *)

Lemma chunks_aux_spec {A} fuel n (l : list A) :
  (0 < n)%nat -> (length l <= fuel)%nat ->
  concat (chunks_aux fuel n l) = l
  /\ Forall (fun c => c <> [] /\ (length c <= n)%nat) (chunks_aux fuel n l).
Proof.
  intros Hn. revert l. induction fuel as [|fuel IH]; intros l Hl.
  - destruct l; [|simpl in Hl; lia]. done.
  - destruct l as [|x l]; [done|].
    assert (chunks_aux (S fuel) n (x :: l) = take n (x :: l) :: chunks_aux fuel n (drop n (x :: l)))
      as -> by done.
    destruct (IH (drop n (x :: l))) as [Hc Hf].
    { rewrite length_drop. simpl in *. lia. }
    split.
    + cbn [concat]. rewrite Hc. apply take_drop.
    + constructor; [|done]. split; [|rewrite length_take; lia]. by destruct n; [lia|].
Qed.

(** Dust reported for a selection is part of it. *)
Definition dust_is_selected (io : JobIo) : Prop := forall sel ex,
  io_balance io sel = DustInputs ex -> exists u, u ∈ sel /\ u_outpoint u ∈ ex.

Lemma filter_shorter (sel : list Utxo) (ex : list string) u :
  u ∈ sel -> u_outpoint u ∈ ex ->
  (length (filter (fun u => u_outpoint u ∉ ex) sel) < length sel)%nat.
Proof.
  intros Hu Hx. induction sel as [|v sel IH]; [by apply elem_of_nil in Hu|].
  rewrite filter_cons. apply elem_of_cons in Hu as [->|Hu].
  - rewrite decide_False by (intros Hn; by apply Hn). pose proof (length_filter (fun u => u_outpoint u ∉ ex) sel).
    simpl. lia.
  - specialize (IH Hu). destruct (decide (u_outpoint v ∉ ex)); simpl; lia.
Qed.

(** Shielding: the inputs are split into non-empty batches of at most
    [MAX_SHIELDING_INPUTS_PER_TX] that together are exactly the inputs, in
    order; and the unbounded loop that drops dust from a batch ends: each
    turn removes an input, so after at most one turn per input the task has
    left the selection, without sending or storing anything. *)
Theorem shield_batches_and_selection_terminate
    (to_vec_pretty : QueuedBroadcastMeta -> string)
    (aead_encrypt : string -> string -> string -> string -> option string) (fl : Q -> Q)
    (id : string) (t : Task) (w : World) (inputs sel : list Utxo) (batches : list (list Utxo))
    (n : nat) (acc : Acc) :
  dust_is_selected (t_io t) ->
  w_tasks w !! id = Some (t_set_pc t (PcSelect sel batches n acc)) ->
  concat (chunks MAX_SHIELDING_INPUTS_PER_TX inputs) = inputs
  /\ Forall (fun b => b <> [] /\ (length b <= MAX_SHIELDING_INPUTS_PER_TX)%nat)
       (chunks MAX_SHIELDING_INPUTS_PER_TX inputs)
  /\ exists k w' pc, (k <= S (length sel))%nat
      /\ nsteps (tstep to_vec_pretty aead_encrypt fl id) k w w'
      /\ w_tasks w' !! id = Some (t_set_pc t pc)
      /\ (forall s b m a, pc <> PcSelect s b m a)
      /\ w_sent w' = w_sent w /\ w_queue w' = w_queue w /\ w_progress w' = w_progress w.
Proof.
  intros Hdust Ht.
  destruct (chunks_aux_spec (length inputs) MAX_SHIELDING_INPUTS_PER_TX inputs) as [Hc Hf];
    [unfold MAX_SHIELDING_INPUTS_PER_TX; lia|lia|].
  split; [exact Hc|]. split; [exact Hf|]. clear Hc Hf.
  remember (length sel) as len eqn:Hlen. revert sel w Hlen Ht.
  induction len as [len IH] using lt_wf_ind. intros sel w -> Ht.
  assert (forall pc', (forall s b m a, pc' <> PcSelect s b m a) ->
    tstep to_vec_pretty aead_encrypt fl id w (w_set_task w id (t_set_pc t pc')) ->
    exists k w' pc, (k <= S (length sel))%nat /\ nsteps (tstep to_vec_pretty aead_encrypt fl id) k w w'
      /\ w_tasks w' !! id = Some (t_set_pc t pc) /\ (forall s b m a, pc <> PcSelect s b m a)
      /\ w_sent w' = w_sent w /\ w_queue w' = w_queue w /\ w_progress w' = w_progress w) as Hout.
  { intros pc' Hpc Hstep. exists 1%nat, (w_set_task w id (t_set_pc t pc')), pc'.
    split; [lia|]. split; [by apply nsteps_once|]. cbn. by rewrite lookup_insert_eq. }
  destruct (io_balance (t_io t) sel) as [|ex| |e] eqn:Eb.
  1,3,4: destruct (io_propose (t_io t) sel) as [|] eqn:Ep; destruct (bool_decide (sel = [])) eqn:Es;
    eapply Hout; try (unfold tstep; unfold_steps; rewrite Ht; cbn; rewrite Eb, ?Es, ?Ep; reflexivity); done.
  set (sel' := filter (fun u => u_outpoint u ∉ ex) sel).
  destruct (bool_decide (sel' = [])) eqn:Es.
  { eapply Hout; [|unfold tstep; unfold_steps; rewrite Ht; cbn; rewrite Eb; fold sel'; rewrite Es; reflexivity]. done. }
  destruct (Hdust sel ex Eb) as (u & Hu & Hx).
  assert (length sel' < length sel)%nat as Hlt by (by eapply filter_shorter).
  destruct (IH (length sel') Hlt sel' (w_set_task w id (t_set_pc t (PcSelect sel' batches n acc))) eq_refl)
    as (k & w' & pc & Hk & Hsteps & H1); [cbn; by rewrite lookup_insert_eq|].
  exists (S k), w', pc. split; [lia|]. split; [|exact H1].
  econstructor; [|exact Hsteps]. unfold tstep; unfold_steps. rewrite Ht. cbn. rewrite Eb. fold sel'.
  rewrite Es. reflexivity.
Qed.

(** A wallet where one of two inputs is dust. *)
Definition demo_dust_io : JobIo :=
  mkJobIo (Ok tt) (fun _ => Built "tx0" []) (fun x => inr (Some x)) (fun x => inr x)
    (fun _ => Some (Ok tt)) (inr []) (inr []) (inr None) (fun _ => inr []) (inr tt)
    (fun sel => if bool_decide ("dust" ∈ (map u_outpoint sel)) then DustInputs ["dust"] else BalanceOk)
    (fun _ => inr tt) 0 (fun _ => "") 0.

Lemma shield_batches_and_selection_terminate_witness :
  let t := mkTask (demo_ctx JobType.Shield) demo_dust_io
             (PcSelect [mkUtxo "dust" 1; mkUtxo "o1" 5000] [] 0 (None, None, false)) false false in
  let w := w_set_task (new_service demo_queue) "j1" t in
  exists k w' pc, (k <= 3)%nat
    /\ nsteps (tstep demo_to_vec demo_encrypt (fun x => x) "j1") k w w'
    /\ w_tasks w' !! "j1" = Some (t_set_pc t pc) /\ (forall s b m a, pc <> PcSelect s b m a).
Proof.
  intros t w.
  destruct (shield_batches_and_selection_terminate demo_to_vec demo_encrypt (fun x => x) "j1" t w []
    [mkUtxo "dust" 1; mkUtxo "o1" 5000] [] 0 (None, None, false)) as (_ & _ & k & w' & pc & Hk & H1 & H2 & H3 & _).
  - intros sel ex. cbn. case_bool_decide as Hin; [|discriminate]. intros [= <-].
    apply list_elem_of_fmap in Hin as (u & Hu & Hin). exists u. split; [exact Hin|].
    rewrite <- Hu. left.
  - reflexivity.
  - exists k, w', pc. split; [exact Hk|]. split; [exact H1|]. split; [exact H2|exact H3].
Defined.
