(* ===== verification/Sends.v ===== *)
(** Sending ([tx_service.rs]): proposals, hardware signing requests, the
    confirmation of a send and the transaction list; the balance lookup of
    [balance.rs] and the account lookup they share.

    The wallet library ([zcash_client_backend], [zcash_client_sqlite]) is a
    parameter: [SendIo] holds its answers to the calls of one operation.
    Each operation reads the clock once, in nanoseconds. *)
From S2P Require Import Prelude Text Domain AppDb Broadcast Servers BroadcastQueue Jobs.
From Stdlib Require Import QArith.
Open Scope Z_scope.

(** ** The wallet library *)

(** [zcash_client_backend::address::Address], with the receivers of a
    unified address. *)
Inductive Address :=
| Unified (has_orchard has_sapling has_transparent : bool) (encoded : string)
| SaplingAddress (encoded : string)
| TransparentAddress (encoded : string)
| TexAddress (encoded : string).

Record AccountBalance := mkAccountBalance {
  ab_spendable_value : Z;
  ab_change_pending_confirmation : Z;
  ab_value_pending_spendability : Z;
  ab_uneconomic_value : Z;
  ab_unshielded_total : Z;
  ab_total : Z;
}.

Record Step := mkStep { step_transparent_inputs : list string; step_fee_required : Z }.

(** A transfer proposal: its steps, and whatever else it carries. *)
Record Proposal := mkProposal { pr_steps : list Step; pr_payload : string }.

Record SendIo := mkSendIo {
  (** [Address::decode] on the wallet's network. *)
  si_decode : string -> option Address;
  (** [MemoBytes::from_bytes]. *)
  si_memo : string -> option string;
  (** [get_account_ids] and [get_account]. *)
  si_accounts : string + list (string * (string + option AccountView));
  (** [get_wallet_summary]: the balance of each account it knows. *)
  si_summary : string + option (list (string * AccountBalance));
  (** [propose_standard_transfer_to_address]. *)
  si_propose : string -> Address -> Z -> option string -> string + Proposal;
  (** [create_proposed_transactions]: at least one transaction id. *)
  si_create : Proposal -> string + (string * list string);
  (** [get_transaction] and [Transaction::write]. *)
  si_get_transaction : string -> string + option string;
  si_write : string -> string + string;
  (** [create_pczt_from_proposal] with its proofs: the error message, or the
      full and the redacted encoding. *)
  si_create_pczt : Proposal -> string + (string * string);
  (** The two decoders and the combiner of [zbag_keystone], and
      [extract_and_store_transaction_from_pczt]. *)
  si_decode_full : string -> string + string;
  si_decode_signed : string -> string + string;
  si_combine : string -> string -> string + string;
  si_extract : string -> string + string;
}.

(** The largest amount of [Zatoshis]. *)
Section MaxMoney.
Context (max_money : Z).

Definition zatoshis_from_u64 (v : Z) : option Z := if v <=? max_money then Some v else None.

(** ** Request checks *)

Definition invalid_amount : error := ipc_err errors.INVALID_REQUEST "invalid amount".

Definition parse_zatoshis (value : string) : result Z :=
  let trimmed := trim value in
  if is_empty trimmed then Err (ipc_err errors.INVALID_REQUEST "amount required")
  else
    parsed ← ok_or (parse_uint u64_max trimmed) invalid_amount;
    ok_or (zatoshis_from_u64 parsed) invalid_amount.

Definition invalid_recipient : error := ipc_err errors.INVALID_RECIPIENT "invalid recipient".

Definition parse_recipient (io : SendIo) (recipient : string) : result (Address * RecipientKind) :=
  addr ← ok_or (si_decode io recipient) invalid_recipient;
  match addr with
  | Unified orchard sapling transparent _ =>
      if orchard then Ok (addr, RecipientKind.Orchard)
      else if sapling then Ok (addr, RecipientKind.Sapling)
      else if transparent then Ok (addr, RecipientKind.Transparent)
      else Err invalid_recipient
  | SaplingAddress _ => Ok (addr, RecipientKind.Sapling)
  | TransparentAddress _ | TexAddress _ => Ok (addr, RecipientKind.Transparent)
  end.

Definition memo_too_long : error := ipc_err errors.MEMO_TOO_LONG "memo too long".

Definition enforce_privacy_and_memo_rules (recipient_kind : RecipientKind) (memo : option string)
    (allow_transparent_recipient : bool) : result unit :=
  if bool_decide (recipient_kind = RecipientKind.Transparent) && bool_decide (is_Some memo)
  then Err (ipc_err errors.MEMO_NOT_ALLOWED "memos are not allowed for transparent recipients")
  else if bool_decide (recipient_kind = RecipientKind.Transparent) && negb allow_transparent_recipient
  then Err (ipc_err errors.PRIVACY_ACK_REQUIRED
              "transparent recipient requires privacy acknowledgement")
  else
    match memo with
    | Some m => if (512 <? String.length m)%nat then Err memo_too_long else Ok tt
    | None => Ok tt
    end.

(** [resolve_wallet_account_uuid], and [find_account_uuid] of balance.rs with
    another message: the first account tagged with the id, or derived at it. *)
Fixpoint find_account (load_failed : string) (account_id : Z)
    (accounts : list (string * (string + option AccountView))) : result string :=
  match accounts with
  | [] => Err (ipc_err errors.ACCOUNT_NOT_FOUND "account not found")
  | (uuid, inl e) :: _ => Err (Context load_failed (AnyhowMsg e))
  | (uuid, inr account) :: accounts' =>
      if account_matches account_id account then Ok uuid
      else find_account load_failed account_id accounts'
  end.

Definition resolve_account (load_failed : string) (io : SendIo) (account_id : Z) : result string :=
  match si_accounts io with
  | inl e => Err (Context "failed to list wallet accounts" (AnyhowMsg e))
  | inr accounts => find_account load_failed account_id accounts
  end.

Definition resolve_wallet_account_uuid : SendIo -> Z -> result string :=
  resolve_account "failed to load account".

(** [balance::get_balance]. *)
Definition get_balance (io : SendIo) (account_id : Z) : result Balance :=
  account ← resolve_account "failed to load wallet account" io account_id;
  match si_summary io with
  | inl e => Err (Context "failed to compute wallet summary" (AnyhowMsg e))
  | inr summary =>
      let b := default (mkAccountBalance 0 0 0 0 0 0)
                 (summary ≫= fun l => snd <$> find_first (fun kv => bool_decide (kv.1 = account)) l) in
      Ok (mkBalance (uint_to_string (ab_spendable_value b))
            (uint_to_string (ab_change_pending_confirmation b + ab_value_pending_spendability b
                             + ab_uneconomic_value b))
            (uint_to_string (ab_unshielded_total b)) (uint_to_string (ab_total b)))
  end.

Definition parse_balance (field value : string) : result Z :=
  ok_or (parse_uint u64_max value)
    (ipc_err errors.INTERNAL_ERROR
       ("invalid " +:+ field +:+ " format: " +:+ parse_int_error value)).

Definition proposal_total_fee (proposal : Proposal) : result Z :=
  let total := foldl (fun total step => u64_saturating_add total (step_fee_required step)) 0
                 (pr_steps proposal) in
  ok_or (zatoshis_from_u64 total) (ipc_err errors.INTERNAL_ERROR "fee out of range").

(** What the checks of a request establish. *)
Record ValidSend := mkValidSend {
  vs_amount : Z;
  vs_recipient : Address;
  vs_kind : RecipientKind;
  vs_memo : option string;
  vs_account : string;
  vs_shielded_spendable : Z;
  vs_transparent_total : Z;
}.

Definition transparent_blocked : error :=
  ipc_err errors.TRANSPARENT_SPEND_BLOCKED
    "shielded funds are insufficient; shield transparent funds first".

(** The checks that [prepare_send] and [build_signing_request] have in
    common, up to the proposal. *)
Definition check_send (io : SendIo) (account_id : Z) (recipient amount_zat : string)
    (memo : option string) (allow_transparent_recipient : bool) : result ValidSend :=
  amount ← parse_zatoshis amount_zat;
  if amount =? 0 then Err (ipc_err errors.INVALID_REQUEST "amount must be > 0") else
  '(recipient_addr, recipient_kind) ← parse_recipient io recipient;
  enforce_privacy_and_memo_rules recipient_kind memo allow_transparent_recipient ≫= fun _ =>
  memo_bytes ← match memo with
               | None => Ok None
               | Some m => bytes ← ok_or (si_memo io m) memo_too_long; Ok (Some bytes)
               end;
  balance ← match get_balance io account_id with
            | Ok b => Ok b
            | Err e => Err (ipc_err errors.INTERNAL_ERROR
                              ("balance lookup failed: " +:+ error_to_string e))
            end;
  shielded_spendable ← parse_balance "shielded_spendable" (bal_shielded_spendable balance);
  shielded_pending ← parse_balance "shielded_pending" (bal_shielded_pending balance);
  transparent_total ← parse_balance "transparent_total" (bal_transparent_total balance);
  if (shielded_spendable <? amount) && (0 <? transparent_total)
     && (amount <=? u64_saturating_add shielded_spendable transparent_total)
  then Err transparent_blocked
  else if (shielded_spendable <? amount) && (0 <? shielded_pending)
          && (amount <=? u64_saturating_add shielded_spendable shielded_pending)
  then Err (ipc_err errors.INSUFFICIENT_FUNDS
              "insufficient spendable funds (some funds are still pending sync/restore)")
  else
  account_uuid ← with_context "failed to resolve wallet account"
                   (resolve_wallet_account_uuid io account_id);
  Ok (mkValidSend amount recipient_addr recipient_kind memo_bytes account_uuid shielded_spendable
        transparent_total).

(** ** Service state *)

Definition PROPOSAL_TTL : Z := 10 * 60 * 1000000000.

Record ProposalRecord := mkProposalRecord {
  pp_wallet_id : Uuid;
  pp_account_id : Z;
  pp_expires_at : Z;
  pp_proposal : Proposal;
  pp_summary : TransactionSummary;
}.

Record PendingSigningRequest := mkPendingSigningRequest {
  ps_wallet_id : Uuid;
  ps_pczt_with_proofs : string;
  ps_expires_at : Z;
}.

(** [TxService]: the proposals and signing requests; its queue, the
    application database, the events and the sends are those of
    [BroadcastQueue]. *)
Record TxEnv := mkTxEnv {
  te_proposals : gmap string ProposalRecord;
  te_pending : gmap string PendingSigningRequest;
  te_retry : RetryEnv;
}.

Definition set_proposals (p : gmap string ProposalRecord) (e : TxEnv) : TxEnv :=
  mkTxEnv p (te_pending e) (te_retry e).
Definition set_pending (p : gmap string PendingSigningRequest) (e : TxEnv) : TxEnv :=
  mkTxEnv (te_proposals e) p (te_retry e).
Definition on_retry {A} (m : M RetryEnv A) : M TxEnv A :=
  m_zoom te_retry (fun r e => mkTxEnv (te_proposals e) (te_pending e) r) m.

(** *** The proposal table *)

Definition proposal_not_found : error := ipc_err errors.PROPOSAL_NOT_FOUND "proposal not found".

Definition proposal_account_id (proposal_id : string) (e : TxEnv) : option Z :=
  pp_account_id <$> te_proposals e !! proposal_id.

Definition validate_proposal_for_wallet (now : Z) (proposal_id : string) (wallet_id : Uuid)
    : M TxEnv Z :=
  e ← m_get;
  r ← m_lift (ok_or (te_proposals e !! proposal_id) proposal_not_found);
  if negb (bool_decide (pp_wallet_id r = wallet_id)) then m_err proposal_not_found
  else if pp_expires_at r <? now
  then m_modify (fun e => set_proposals (delete proposal_id (te_proposals e)) e) ;;
       m_err (ipc_err errors.PROPOSAL_EXPIRED "proposal expired")
  else mret (pp_account_id r).

Definition cancel_send (proposal_id : string) (e : TxEnv) : bool * TxEnv :=
  (bool_decide (is_Some (te_proposals e !! proposal_id)),
   set_proposals (delete proposal_id (te_proposals e)) e).

(** The record leaves the service with its original expiry. *)
Definition take_proposal_for_execution (now : Z) (proposal_id : string) (wallet_id : Uuid)
    : M TxEnv (Z * TransactionSummary * Z * Proposal) :=
  validate_proposal_for_wallet now proposal_id wallet_id ;;
  e ← m_get;
  record ← m_lift (ok_or (te_proposals e !! proposal_id) proposal_not_found);
  m_put (set_proposals (delete proposal_id (te_proposals e)) e) ;;
  mret (pp_account_id record, pp_summary record, pp_expires_at record, pp_proposal record).

Definition import_proposal_for_execution (proposal_id : string) (wallet_id : Uuid) (account_id : Z)
    (summary : TransactionSummary) (expires_at : Z) (proposal : Proposal) (e : TxEnv) : TxEnv :=
  set_proposals
    (<[proposal_id := mkProposalRecord wallet_id account_id expires_at proposal summary]>
       (te_proposals e)) e.

Definition take_proposal (proposal_id : string) (e : TxEnv) : option Proposal * TxEnv :=
  (pp_proposal <$> te_proposals e !! proposal_id,
   set_proposals (delete proposal_id (te_proposals e)) e).

Definition clear_proposals_for_wallet (wallet_id : Uuid) (e : TxEnv) : TxEnv :=
  set_proposals (filter (fun kv => pp_wallet_id kv.2 <> wallet_id) (te_proposals e)) e.

(** *** The signing requests *)

(** The lookup of [finalize_signing] and of
    [take_pending_signing_request_for_execution]: the expiry is checked
    before the owner. *)
Definition take_pending_signing_request_for_execution (now : Z) (signing_request_id : string)
    (wallet_id : Uuid) : M TxEnv (string * Z) :=
  e ← m_get;
  r ← m_lift (ok_or (te_pending e !! signing_request_id)
        (ipc_err errors.PROPOSAL_NOT_FOUND "signing request not found or expired"));
  if ps_expires_at r <? now
  then m_put (set_pending (delete signing_request_id (te_pending e)) e) ;;
       m_err (ipc_err errors.PROPOSAL_EXPIRED "signing request expired")
  else if negb (bool_decide (ps_wallet_id r = wallet_id))
  then m_err (ipc_err errors.PROPOSAL_NOT_FOUND "signing request not found")
  else
  m_put (set_pending (delete signing_request_id (te_pending e)) e) ;;
  mret (ps_pczt_with_proofs r, ps_expires_at r).

Definition import_pending_signing_request_for_execution (signing_request_id : string) (wallet_id : Uuid)
    (pczt_with_proofs : string) (expires_at : Z) (e : TxEnv) : TxEnv :=
  set_pending (<[signing_request_id := mkPendingSigningRequest wallet_id pczt_with_proofs expires_at]>
                 (te_pending e)) e.

(** ** Preparing a send *)

Definition insufficient (err : string) : bool :=
  contains err "Insufficient balance" || contains err "Insufficient funds".

Definition has_transparent_inputs (proposal : Proposal) : bool :=
  existsb (fun step => negb (bool_decide (step_transparent_inputs step = []))) (pr_steps proposal).

Definition propose_failed (err : string) : error :=
  ipc_err errors.TRANSACTION_FAILED ("failed to propose transaction: " +:+ err).

Record PrepareSendResponse := mkPrepareSendResponse {
  psr_proposal_id : string;
  psr_fee : string;
  psr_summary : TransactionSummary;
  psr_expires_at : Z;
}.

(** [proposal_id] is the fresh UUID. *)
Definition prepare_send (io : SendIo) (now : Z) (proposal_id : string) (wallet_id : Uuid) (account_id : Z)
    (recipient amount_zat : string) (memo : option string) (allow_transparent_recipient : bool)
    : M TxEnv PrepareSendResponse :=
  on_retry (on_db (ensure_spend_allowed_conn wallet_id account_id)) ;;
  v ← m_lift (check_send io account_id recipient amount_zat memo allow_transparent_recipient);
  let amount := vs_amount v in
  proposal ← m_lift
    (match si_propose io (vs_account v) (vs_recipient v) amount (vs_memo v) with
     | inr p => Ok p
     | inl err =>
         if insufficient err then
           if (vs_shielded_spendable v <? amount) && (0 <? vs_transparent_total v)
              && (amount <=? u64_saturating_add (vs_shielded_spendable v) (vs_transparent_total v))
           then Err transparent_blocked
           else Err (ipc_err errors.INSUFFICIENT_FUNDS "insufficient funds")
         else Err (propose_failed err)
     end);
  if has_transparent_inputs proposal
  then m_err (ipc_err errors.TRANSPARENT_SPEND_BLOCKED
                "transparent inputs are not allowed; shield funds before sending")
  else
  fee ← m_lift (proposal_total_fee proposal);
  let summary := mkTransactionSummary recipient (vs_kind v) (uint_to_string amount) (uint_to_string fee)
                   (bool_decide (is_Some memo)) (uint_to_string (amount + fee)) in
  let expires_at := now + PROPOSAL_TTL in
  m_modify (fun e => set_proposals
    (<[proposal_id := mkProposalRecord wallet_id account_id expires_at proposal summary]>
       (te_proposals e)) e) ;;
  expires_at_ms ← m_lift (to_unix_ms expires_at);
  mret (mkPrepareSendResponse proposal_id (uint_to_string fee) summary expires_at_ms).

Record SigningSummary := mkSigningSummary {
  sg_recipient : string;
  sg_recipient_kind : RecipientKind;
  sg_amount : Zatoshis;
  sg_fee : Zatoshis;
  sg_memo_present : bool;
  sg_tx_type : TransactionType;
}.

Record SigningRequest := mkSigningRequest {
  srq_signing_request_id : string;
  srq_pczt_payload : string;
  srq_qr_frames : list string;
  srq_summary : SigningSummary;
}.

Definition ensure_backup_complete (wallet_id : Uuid) : M AppDb unit :=
  required ← get_backup_required wallet_id;
  if default true required then m_err (ipc_err errors.BACKUP_REQUIRED "backup required") else mret tt.

Definition build_signing_request (io : SendIo) (now : Z) (signing_request_id : string) (wallet_id : Uuid)
    (account_id : Z) (recipient amount_zat : string) (memo : option string)
    (allow_transparent_recipient : bool) : M TxEnv SigningRequest :=
  on_retry (on_db (ensure_backup_complete wallet_id)) ;;
  v ← m_lift (check_send io account_id recipient amount_zat memo allow_transparent_recipient);
  let amount := vs_amount v in
  proposal ← m_lift
    (match si_propose io (vs_account v) (vs_recipient v) amount (vs_memo v) with
     | inr p => Ok p
     | inl err =>
         if insufficient err then Err (ipc_err errors.INSUFFICIENT_FUNDS "insufficient funds")
         else Err (propose_failed err)
     end);
  if has_transparent_inputs proposal
  then m_err (ipc_err errors.TRANSPARENT_SPEND_BLOCKED
                "transparent inputs are not allowed; shield funds before sending")
  else
  '(pczt_full, pczt_for_signer) ← m_lift
    (match si_create_pczt io proposal with
     | inr p => Ok p
     | inl err => Err (ipc_err errors.SIGNING_FAILED err)
     end);
  fee ← m_lift (proposal_total_fee proposal);
  m_modify (fun e => set_pending
    (<[signing_request_id := mkPendingSigningRequest wallet_id pczt_full (now + PROPOSAL_TTL)]>
       (te_pending e)) e) ;;
  mret (mkSigningRequest signing_request_id pczt_for_signer []
          (mkSigningSummary recipient (vs_kind v) (uint_to_string amount) (uint_to_string fee)
             (bool_decide (is_Some memo)) TransactionType.Send)).
End MaxMoney.

(** ** Sending *)

Section Sending.
Context (to_vec_pretty : QueuedBroadcastMeta -> string)
        (from_slice : string -> option QueuedBroadcastMeta)
        (aead_encrypt : string -> string -> string -> string -> option string) (fl : Q -> Q).
(** The gRPC calls, as in [BroadcastQueue]; the nonce and the jitter drawn
    for a transaction that has to be queued. *)
Context (send : nat -> string -> string -> option (result unit))
        (nonce : string -> string) (offset_ms : string -> Q).

Definition load_transaction (io : SendIo) (txid : string) : result string :=
  match si_get_transaction io txid with
  | inl e => Err (ipc_err errors.TRANSACTION_FAILED ("failed to load tx: " +:+ e))
  | inr None => Err (ipc_err errors.TRANSACTION_FAILED "tx bytes unavailable")
  | inr (Some tx) =>
      match si_write io tx with
      | inl e => Err (ipc_err errors.TRANSACTION_FAILED ("failed to serialize tx: " +:+ e))
      | inr bytes => Ok bytes
      end
  end.

(** Send, and queue on failure or clean up on success; the error message of
    a failed send. *)
Definition broadcast_or_queue (now : Z) (wallet_id : Uuid) (wallet_dir wallet_dek grpc_url txid tx_bytes : string)
    : M TxEnv (option string) :=
  sent ← m_try (on_retry (send_transaction_bytes send grpc_url tx_bytes));
  match sent with
  | Err err =>
      let err_msg := error_chain err in
      let err_class := classify_broadcast_error_message err_msg in
      on_retry (on_queue (queue_broadcast to_vec_pretty aead_encrypt fl now (nonce txid) (offset_ms txid)
        wallet_id wallet_dir wallet_dek txid tx_bytes (Some err_msg) (Some err_class)
        (is_retryable_broadcast_error_class err_class))) ;;
      mret (Some err_msg)
  | Ok _ =>
      on_retry (on_queue (delete_queued_broadcast wallet_dir txid)) ;;
      mret None
  end.

(** The loop over the transactions of a proposal, with [broadcast_errors]. *)
Fixpoint broadcast_all (io : SendIo) (now : Z) (wallet_id : Uuid) (wallet_dir wallet_dek grpc_url : string)
    (txids : list string) (broadcast_errors : gmap string string) : M TxEnv (gmap string string) :=
  match txids with
  | [] => mret broadcast_errors
  | txid :: txids' =>
      tx_bytes ← m_lift (load_transaction io txid);
      failed ← broadcast_or_queue now wallet_id wallet_dir wallet_dek grpc_url txid tx_bytes;
      broadcast_all io now wallet_id wallet_dir wallet_dek grpc_url txids'
        (match failed with
         | Some err_msg => <[txid := err_msg]> broadcast_errors
         | None => broadcast_errors
         end)
  end.

(** The status reported for the first transaction. *)
Definition initial_status (queued : option QueuedBroadcastEntry) (primary_error : option string)
    : TransactionStatus * option string * bool :=
  match queued, primary_error with
  | Some entry, _ =>
      (TransactionStatus.Failed, queued_broadcast_error_for_display (qe_meta entry),
       qm_retryable (qe_meta entry))
  | None, Some err => (TransactionStatus.Failed, Some err, false)
  | None, None => (TransactionStatus.Pending, None, false)
  end.

Definition confirm_send (io : SendIo) (now now_ms : Z) (wallet_id : Uuid)
    (wallet_dir wallet_dek grpc_url proposal_id : string) (on_tx_changed : bool) : M TxEnv string :=
  validate_proposal_for_wallet now proposal_id wallet_id ;;
  m_context "failed to open app db for send policy checks" (on_retry (on_db db_stmt)) ;;
  e ← m_get;
  record ← m_lift (ok_or (te_proposals e !! proposal_id) proposal_not_found);
  m_put (set_proposals (delete proposal_id (te_proposals e)) e) ;;
  on_retry (on_db (ensure_spend_allowed_conn wallet_id (pp_account_id record))) ;;
  if has_transparent_inputs (pp_proposal record)
  then m_err (ipc_err errors.TRANSPARENT_SPEND_BLOCKED "transparent inputs are not allowed for sends")
  else
  '(primary_txid, rest) ← m_lift
    (match si_create io (pp_proposal record) with
     | inr txids => Ok txids
     | inl e => Err (ipc_err errors.TRANSACTION_FAILED ("failed to build tx: " +:+ e))
     end);
  broadcast_errors ← broadcast_all io now wallet_id wallet_dir wallet_dek grpc_url
                       (primary_txid :: rest) ∅;
  on_retry (on_queue (scan_queued_broadcasts from_slice now wallet_id wallet_dir)) ;;
  e ← m_get;
  let queued := m ← q_mem (re_queue (te_retry e)) !! wallet_id; m !! primary_txid in
  let '(status, last_error, can_retry_broadcast) :=
    initial_status queued (broadcast_errors !! primary_txid) in
  let summary := pp_summary record in
  (if on_tx_changed then
     on_retry (emit (TransactionChangedEvent
       (mkTransactionInfo primary_txid (pp_account_id record) TransactionType.Send (ts_amount summary)
          (ts_fee summary) (if ts_memo_present summary then 1 else 0) [] status last_error
          can_retry_broadcast None now_ms None)))
   else mret tt) ;;
  mret primary_txid.

Definition finalize_signing (io : SendIo) (now : Z) (wallet_id : Uuid)
    (wallet_dir wallet_dek grpc_url signing_request_id signed_payload : string) : M TxEnv string :=
  on_retry (on_db (ensure_backup_complete wallet_id)) ;;
  '(stored, _) ← take_pending_signing_request_for_execution now signing_request_id wallet_id;
  pczt_with_proofs ← m_lift
    (match si_decode_full io stored with
     | inr p => Ok p
     | inl e => Err (ipc_err errors.INTERNAL_ERROR ("invalid stored PCZT: " +:+ e))
     end);
  pczt_with_sigs ← m_lift
    (match si_decode_signed io signed_payload with
     | inr p => Ok p
     | inl e => Err (ipc_err errors.INVALID_PCZT ("invalid signed payload: " +:+ e))
     end);
  pczt ← m_lift
    (match si_combine io pczt_with_proofs pczt_with_sigs with
     | inr p => Ok p
     | inl e => Err (ipc_err errors.SIGNING_FAILED ("failed to combine PCZTs: " +:+ e))
     end);
  txid ← m_lift
    (match si_extract io pczt with
     | inr t => Ok t
     | inl e => Err (ipc_err errors.SIGNING_FAILED ("failed to finalize signing: " +:+ e))
     end);
  tx_bytes ← m_lift (load_transaction io txid);
  broadcast_or_queue now wallet_id wallet_dir wallet_dek grpc_url txid tx_bytes ;;
  on_retry (on_queue (scan_queued_broadcasts from_slice now wallet_id wallet_dir)) ;;
  mret txid.

(** ** The transaction list *)

(** A row of [v_transactions] for the account; the id is the raw bytes. *)
Record ViewRow := mkViewRow {
  vr_txid : string;
  vr_mined_height : option Z;
  vr_expiry_height : option Z;
  vr_fee_paid : option Z;
  vr_total_spent : Z;
  vr_total_received : Z;
  vr_block_time : option Z;
  vr_is_shielding : bool;
  vr_sent_note_count : Z;
  vr_received_note_count : Z;
}.

(** A memo as [zcash_protocol] parses it; [None] when it does not. *)
Inductive Memo := MemoText (text : string) | MemoEmpty | MemoOther.

(** [txid_display] is [TxId::to_string]; [memo_rows] are the distinct memos
    of a transaction in the note tables. *)
Context (txid_display : string -> string) (memo_rows : string -> list string)
        (memo_parse : string -> option Memo).

Definition memo_info (memo_bytes : string) : MemoInfo :=
  let size_bytes := Z.of_nat (String.length memo_bytes) mod 2 ^ 32 in
  match memo_parse memo_bytes with
  | Some (MemoText text) => mkMemoInfo MemoKind.Text (Some text) size_bytes
  | Some MemoEmpty => mkMemoInfo MemoKind.Empty None 0
  | Some MemoOther | None =>
      mkMemoInfo MemoKind.Binary (Some ("[binary: " +:+ uint_to_string size_bytes +:+ " bytes]")) size_bytes
  end.

Definition fetch_transaction_memos (txid_bytes : string) : list MemoInfo :=
  map memo_info (memo_rows txid_bytes).

Definition tx_type_of (r : ViewRow) : TransactionType :=
  if vr_is_shielding r then TransactionType.Shield
  else if 0 <? vr_sent_note_count r then TransactionType.Send
  else if 0 <? vr_received_note_count r then TransactionType.Receive
  else TransactionType.Consolidate.

Definition value_of (r : ViewRow) (fee : Z) : Z :=
  let spent := Z.max (vr_total_spent r) 0 in
  let received := Z.max (vr_total_received r) 0 in
  match tx_type_of r with
  | TransactionType.Send => u64_saturating_sub (u64_saturating_sub spent received) fee
  | _ => received
  end.

(** [u32::try_from(h).ok()]. *)
Definition to_u32 (h : Z) : option Z := if (0 <=? h) && (h <=? u32_max) then Some h else None.

(** Before the queue is consulted. *)
Definition chain_status (chain_height : option Z) (r : ViewRow) : TransactionStatus :=
  match vr_mined_height r ≫= to_u32, vr_expiry_height r ≫= to_u32, chain_height with
  | Some _, _, _ => TransactionStatus.Confirmed
  | None, Some expiry, Some height =>
      if expiry <? height then TransactionStatus.Expired else TransactionStatus.Pending
  | None, _, _ => TransactionStatus.Pending
  end.

Definition queue_status (status : TransactionStatus) (entry : option QueuedBroadcastEntry)
    : TransactionStatus * option string * bool :=
  match status, entry with
  | TransactionStatus.Pending, Some entry | TransactionStatus.Failed, Some entry =>
      (TransactionStatus.Failed, queued_broadcast_error_for_display (qe_meta entry),
       qm_retryable (qe_meta entry))
  | _, _ => (status, None, false)
  end.

Definition view_transaction (now_ms : Z) (wallet_id : Uuid) (wallet_dir : string) (account_id : Z)
    (chain_height : option Z) (r : ViewRow) : M TxEnv TransactionInfo :=
  if negb (String.length (vr_txid r) =? 32)%nat
  then m_err (ipc_err errors.TRANSACTION_FAILED "invalid txid encoding")
  else
  let txid := txid_display (vr_txid r) in
  let fee := match vr_fee_paid r with Some f => Z.max f 0 | None => 0 end in
  let confirmed_at := (fun t => clampZ i64_min i64_max (t * 1000)) <$> vr_block_time r in
  let status := chain_status chain_height r in
  (if bool_decide (status = TransactionStatus.Expired)
   then on_retry (on_queue (delete_queued_broadcast wallet_dir txid)) else mret tt) ;;
  e ← m_get;
  let queue_entry := m ← q_mem (re_queue (te_retry e)) !! wallet_id; m !! txid in
  let '(status, last_error, can_retry_broadcast) := queue_status status queue_entry in
  let memos := fetch_transaction_memos (vr_txid r) in
  mret (mkTransactionInfo txid account_id (tx_type_of r) (uint_to_string (value_of r fee))
          (uint_to_string fee) (Z.of_nat (length memos)) memos status last_error can_retry_broadcast
          (vr_mined_height r ≫= to_u32) (default now_ms confirmed_at) confirmed_at).

Fixpoint view_transactions (now_ms : Z) (wallet_id : Uuid) (wallet_dir : string) (account_id : Z)
    (chain_height : option Z) (rows : list ViewRow) : M TxEnv (list TransactionInfo) :=
  match rows with
  | [] => mret []
  | r :: rows' =>
      t ← view_transaction now_ms wallet_id wallet_dir account_id chain_height r;
      ts ← view_transactions now_ms wallet_id wallet_dir account_id chain_height rows';
      mret (t :: ts)
  end.

(** [ORDER BY COALESCE(block_time, 0) DESC, txid DESC]. *)
Definition view_order (a b : ViewRow) : bool :=
  let ta := default 0 (vr_block_time a) in
  let tb := default 0 (vr_block_time b) in
  (tb <? ta) || ((ta =? tb) && String.leb (vr_txid b) (vr_txid a)).

(** [rows]: the rows of the view for an account id of the wallet library. *)
Definition list_transactions (io : SendIo) (rows : string -> list ViewRow) (chain_height : option Z)
    (now now_ms : Z) (wallet_id : Uuid) (wallet_dir : string) (account_id : Z) (limit offset : nat)
    : M TxEnv (list TransactionInfo * Z) :=
  on_retry (on_queue (scan_queued_broadcasts from_slice now wallet_id wallet_dir)) ;;
  account_uuid ← m_lift (with_context "failed to resolve wallet account"
                           (resolve_wallet_account_uuid io account_id));
  let all := rows account_uuid in
  let page := take limit (drop offset (isort view_order all)) in
  transactions ← view_transactions now_ms wallet_id wallet_dir account_id chain_height page;
  mret (transactions, Z.of_nat (length all) mod 2 ^ 32).
End Sending.
