(* ===== verification/SendSafety.v ===== *)
(** Theorems on sending: what a prepared send guarantees, that nothing is
    sent without consuming its proposal or signing request, the outcome of a
    confirmed send and the statuses of the transaction list. *)
From S2P Require Import Prelude Text Domain AppDb Broadcast Servers BroadcastQueue Jobs Sends.
From Stdlib Require Import QArith.
Open Scope Z_scope.

(** ** Frames *)

(** A computation on the application database alone. *)
Lemma on_db_frame {A} (m : M AppDb A) e :
  let '(r, e') := on_retry (on_db m) e in
  r = (m (re_db (te_retry e))).1
  /\ e' = mkTxEnv (te_proposals e) (te_pending e)
            (mkRetryEnv (re_queue (te_retry e)) (m (re_db (te_retry e))).2 (re_events (te_retry e))
               (re_sends (te_retry e))).
Proof. unfold on_retry, on_db, m_zoom. by destruct (m (re_db (te_retry e))). Qed.

(** Who may spend: the backup is recorded as done and the account is one
    that holds its key. *)
Definition may_spend (w : Uuid) (account_id : Z) (db : AppDb) : Prop :=
  exists backup account,
    find_first (backup_key w) (adb_backup db) = Some backup /\ br_backup_required backup = false
    /\ find_first (account_key w account_id) (adb_accounts db) = Some account
    /\ ar_account_type account <> "HardwareSigner" /\ ar_account_type account <> "WatchOnly".

Lemma ensure_spend_allowed_ok w a db :
  (ensure_spend_allowed_conn w a db).1 = Ok tt -> may_spend w a db.
Proof.
  unfold ensure_spend_allowed_conn, get_backup_required, get_account_type_text.
  unfold mbind, M_bind, m_get, mret, M_ret, m_err. db_step.
  destruct Hr as [-> | ->]; [|done]. cbn. rewrite Hbak.
  destruct (find_first (backup_key w) (adb_backup db)) as [b|] eqn:Eb; cbn; [|done].
  destruct (br_backup_required b) eqn:Er; cbn; [done|]. db_step.
  destruct Hr as [-> | ->]; [|done]. cbn. rewrite Hacc0, Hacc.
  destruct (find_first (account_key w a) (adb_accounts db)) as [ar|] eqn:Ea; cbn; [|done].
  destruct (_ || _) eqn:Eo; [done|]. apply orb_false_iff in Eo as [E1 E2]. breflect.
  intros _. exists b, ar. auto.
Qed.

Section MaxMoney.
Context (max_money : Z).

(** ** Request checks *)

Lemma parse_zatoshis_Ok s n :
  parse_zatoshis max_money s = Ok n ->
  parse_uint u64_max (trim s) = Some n /\ 0 <= n <= max_money.
Proof using Type.
  unfold parse_zatoshis, zatoshis_from_u64. destruct (is_empty (trim s)); [done|].
  destruct (parse_uint u64_max (trim s)) as [x|] eqn:E; cbn; [|done].
  destruct (x <=? max_money) eqn:El; cbn; [|done]. intros [= <-]. split; [done|].
  pose proof (parse_uint_Some u64_max _ _ ltac:(unfold u64_max; lia) E). lia.
Qed.

Lemma privacy_rules_Ok kind memo allow :
  enforce_privacy_and_memo_rules kind memo allow = Ok tt <->
  (kind = RecipientKind.Transparent -> memo = None /\ allow = true)
  /\ (forall m, memo = Some m -> (String.length m <= 512)%nat).
Proof using Type.
  unfold enforce_privacy_and_memo_rules. destruct (decide (kind = RecipientKind.Transparent)) as [->|Hk].
  - rewrite bool_decide_eq_true_2 by done. destruct memo as [m|]; cbn.
    { split; [done|]. intros [H _]. by destruct (H eq_refl). }
    destruct allow; cbn; split; [done..|]. intros [H _]. by destruct (H eq_refl).
  - rewrite bool_decide_eq_false_2 by done. cbn [andb]. destruct memo as [m|]; [|done].
    destruct (512 <? String.length m)%nat eqn:El; [apply Nat.ltb_lt in El|apply Nat.ltb_ge in El].
    + split; [done|]. intros [_ H]. specialize (H m eq_refl). lia.
    + split; [|done]. intros _. split; [done|]. intros m' [= <-]. lia.
Qed.

(** Whether the shielded funds are too small and the rest would do. *)
Definition short_of (spendable rest amount : Z) : bool :=
  (spendable <? amount) && (0 <? rest) && (amount <=? u64_saturating_add spendable rest).

Record valid_send (io : SendIo) (account_id : Z) (recipient amount_zat : string) (memo : option string)
    (allow : bool) (v : ValidSend) : Prop := {
  va_amount : parse_uint u64_max (trim amount_zat) = Some (vs_amount v);
  va_range : 0 < vs_amount v <= max_money;
  va_recipient : parse_recipient io recipient = Ok (vs_recipient v, vs_kind v);
  va_privacy : vs_kind v = RecipientKind.Transparent -> memo = None /\ allow = true;
  va_memo : forall m, memo = Some m -> (String.length m <= 512)%nat;
  va_memo_bytes : vs_memo v = memo ≫= si_memo io;
  va_memo_kept : is_Some memo -> is_Some (vs_memo v);
  va_account : resolve_wallet_account_uuid io account_id = Ok (vs_account v);
  va_funds : short_of (vs_shielded_spendable v) (vs_transparent_total v) (vs_amount v) = false;
}.

Lemma check_send_Ok io account_id recipient amount_zat memo allow v :
  check_send max_money io account_id recipient amount_zat memo allow = Ok v ->
  valid_send io account_id recipient amount_zat memo allow v.
Proof using Type.
  unfold check_send. destruct (parse_zatoshis max_money amount_zat) as [amount|] eqn:Ea; [|done].
  apply parse_zatoshis_Ok in Ea as [Hp Hr]. cbn. destruct (amount =? 0) eqn:E0; [done|].
  destruct (parse_recipient io recipient) as [[addr kind]|] eqn:Er; [|done]. cbn.
  destruct (enforce_privacy_and_memo_rules kind memo allow) as [[]|] eqn:Ep; [|done]. cbn.
  apply privacy_rules_Ok in Ep as [Hpriv Hmemo].
  destruct (match memo with Some m => _ | None => _ end) as [mb|] eqn:Em; [|done]. cbn.
  assert (mb = memo ≫= si_memo io /\ (is_Some memo -> is_Some mb)) as [Hmb Hms].
  { destruct memo as [m|]; [|injection Em as <-; split; [done|by intros []]]. cbn in Em |- *.
    destruct (si_memo io m); [|done]. injection Em as <-. split; [done|eauto]. }
  destruct (get_balance io account_id) as [b|]; [|done]. cbn.
  destruct (parse_balance _ (bal_shielded_spendable b)) as [sp|]; [|done]. cbn.
  destruct (parse_balance _ (bal_shielded_pending b)) as [pend|]; [|done]. cbn.
  destruct (parse_balance _ (bal_transparent_total b)) as [tr|]; [|done]. cbn.
  destruct (_ && _) eqn:Ef; [done|]. destruct ((sp <? amount) && (0 <? pend) && _); [done|].
  destruct (resolve_wallet_account_uuid io account_id) as [acc|] eqn:Eacc; [|done]. cbn. intros [= <-].
  split; cbn; auto. lia.
Qed.

(** ** Fees *)

Definition fees (p : Proposal) : Z := foldr (fun s n => step_fee_required s + n) 0 (pr_steps p).

Lemma saturating_fold steps n :
  (forall s, s ∈ steps -> 0 <= step_fee_required s) -> 0 <= n <= u64_max ->
  foldl (fun total step => u64_saturating_add total (step_fee_required step)) n steps
  = Z.min u64_max (n + foldr (fun s n => step_fee_required s + n) 0 steps).
Proof using Type.
  revert n. induction steps as [|s l IH]; intros n Hp Hn; cbn; [lia|].
  pose proof (Hp s (list_elem_of_here _ _)) as Hs.
  rewrite IH; [|intros x Hx; apply Hp; by right|unfold u64_saturating_add, clampZ; lia].
  assert (0 <= foldr (fun s n => step_fee_required s + n) 0 l).
  { assert (forall s, s ∈ l -> 0 <= step_fee_required s) as Hl by (intros x Hx; apply Hp; by right).
    clear -Hl. induction l as [|x l IH]; cbn; [lia|].
    pose proof (Hl x (list_elem_of_here _ _)). assert (forall s, s ∈ l -> 0 <= step_fee_required s)
      by (intros y Hy; apply Hl; by right). specialize (IH H0). lia. }
  unfold u64_saturating_add, clampZ. lia.
Qed.

Lemma proposal_total_fee_Ok p fee :
  max_money < u64_max -> (forall s, s ∈ pr_steps p -> 0 <= step_fee_required s) ->
  proposal_total_fee max_money p = Ok fee -> fee = fees p /\ fee <= max_money.
Proof using Type.
  intros Hm Hp. unfold proposal_total_fee, zatoshis_from_u64.
  rewrite saturating_fold by (done || (unfold u64_max; lia)). fold (fees p).
  destruct (_ <=? max_money) eqn:E; cbn; [|done]. intros [= <-]. lia.
Qed.

Lemma no_transparent_inputs p :
  has_transparent_inputs p = false <-> forall s, s ∈ pr_steps p -> step_transparent_inputs s = [].
Proof using Type.
  unfold has_transparent_inputs. rewrite <- not_true_iff_false, existsb_exists. split.
  - intros H s Hs. destruct (decide (step_transparent_inputs s = [])) as [|Hne]; [done|].
    destruct H. exists s. rewrite <- list_elem_of_In. split; [done|]. by rewrite bool_decide_eq_false_2.
  - intros H (s & Hs & Hn). rewrite <- list_elem_of_In in Hs. rewrite bool_decide_eq_true_2 in Hn; [done|auto].
Qed.

(** ** Preparing *)

(** A failed preparation leaves the service as it was, except for the scripted
    failures of the database it consumed. *)
Definition same_service (e e' : TxEnv) : Prop :=
  te_proposals e' = te_proposals e /\ te_pending e' = te_pending e
  /\ re_queue (te_retry e') = re_queue (te_retry e)
  /\ re_events (te_retry e') = re_events (te_retry e) /\ re_sends (te_retry e') = re_sends (te_retry e).

Lemma prepare_send_cases io now pid w account_id recipient amount_zat memo allow e :
  let '(r, e') := prepare_send max_money io now pid w account_id recipient amount_zat memo allow e in
  (same_service e e' /\ exists err, r = Err err)
  \/ exists v p fee e1, same_service e e1 /\ may_spend w account_id (re_db (te_retry e))
     /\ check_send max_money io account_id recipient amount_zat memo allow = Ok v
     /\ si_propose io (vs_account v) (vs_recipient v) (vs_amount v) (vs_memo v) = inr p
     /\ has_transparent_inputs p = false /\ proposal_total_fee max_money p = Ok fee
     /\ let summary := mkTransactionSummary recipient (vs_kind v) (uint_to_string (vs_amount v))
                         (uint_to_string fee) (bool_decide (is_Some memo))
                         (uint_to_string (vs_amount v + fee)) in
        e' = set_proposals (<[pid := mkProposalRecord w account_id (now + PROPOSAL_TTL) p summary]>
                              (te_proposals e1)) e1
        /\ r = (ms ← to_unix_ms (now + PROPOSAL_TTL);
                Ok (mkPrepareSendResponse pid (uint_to_string fee) summary ms)).
Proof using Type.
  unfold prepare_send. rewrite m_bind_eq.
  pose proof (on_db_frame (ensure_spend_allowed_conn w account_id) e) as Hdb.
  destruct (on_retry (on_db (ensure_spend_allowed_conn w account_id)) e) as [r1 e1].
  destruct Hdb as [Hr1 He1]. assert (same_service e e1) as Hsame by (by subst e1).
  destruct r1 as [[]|err]; [|left; eauto].
  symmetry in Hr1. apply ensure_spend_allowed_ok in Hr1.
  rewrite m_bind_eq. unfold m_lift at 1.
  destruct (check_send _ _ _ _ _ _ _) as [v|err] eqn:Ec; [|left; eauto].
  cbn zeta. rewrite m_bind_eq. unfold m_lift at 1.
  destruct (si_propose io _ _ _ _) as [perr|p] eqn:Ep.
  { destruct (insufficient perr); [destruct (_ && _)|]; left; eauto. }
  destruct (has_transparent_inputs p) eqn:Et; [left; eauto|].
  rewrite m_bind_eq. unfold m_lift at 1.
  destruct (proposal_total_fee max_money p) as [fee|err] eqn:Ef; [|left; eauto].
  rewrite m_bind_eq. unfold m_modify. rewrite m_bind_eq. unfold m_lift.
  destruct (to_unix_ms (now + PROPOSAL_TTL)) as [ms|err];
    right; exists v, p, fee, e1; do 6 (split; [done|]); done.
Qed.

Lemma validate_present now pid w e r :
  te_proposals e !! pid = Some r -> pp_wallet_id r = w -> now <= pp_expires_at r ->
  validate_proposal_for_wallet now pid w e = (Ok (pp_account_id r), e).
Proof using Type.
  intros Hl Hw Hn. unfold validate_proposal_for_wallet, mbind, M_bind, m_get, m_lift. rewrite Hl. cbn.
  rewrite bool_decide_eq_true_2 by done. cbn.
  assert ((pp_expires_at r <? now) = false) as -> by lia. done.
Qed.
End MaxMoney.

(** What a confirmation gets from the table, in every case. *)
Lemma take_proposal_cases now pid w e r :
  te_proposals e !! pid = Some r ->
  let gone := set_proposals (delete pid (te_proposals e)) e in
  take_proposal_for_execution now pid w e
  = (if negb (bool_decide (pp_wallet_id r = w)) then (Err proposal_not_found, e)
     else if pp_expires_at r <? now then (Err (ipc_err errors.PROPOSAL_EXPIRED "proposal expired"), gone)
     else (Ok (pp_account_id r, pp_summary r, pp_expires_at r, pp_proposal r), gone))
  /\ forall now' w', take_proposal_for_execution now' pid w' gone = (Err proposal_not_found, gone).
Proof.
  intros Hr. cbv zeta. split.
  - unfold take_proposal_for_execution, validate_proposal_for_wallet, mbind, M_bind, m_get, m_lift, m_modify,
      m_put, m_err, mret, M_ret. rewrite Hr. cbn.
    destruct (bool_decide (pp_wallet_id r = w)); cbn; [|done]. destruct (pp_expires_at r <? now); cbn; [done|].
    by rewrite Hr.
  - intros now' w'. unfold take_proposal_for_execution, validate_proposal_for_wallet, mbind, M_bind, m_get, m_lift.
    cbn. by rewrite lookup_delete_eq.
Qed.

(** C10. What [prepare_send] guarantees.  When it succeeds the wallet is backed
    up and the account holds its key; the amount is a positive one; a
    transparent recipient was acknowledged and carries no memo, a memo fits;
    the proposal is the one that the wallet library made for the requested
    account, recipient, amount and memo, and nothing transparent is spent in
    it; the amounts shown are the amount, the exact sum of the fees of all
    steps, and their sum.  The stored proposal is handed to a confirmation of
    the same wallet until ten minutes later and then dropped: to another wallet
    it is not found, later it has expired and is dropped, and a second
    confirmation does not find it.  When the preparation fails no proposal is
    stored, unless the expiry cannot be expressed in milliseconds. *)
Theorem prepare_send_guarded (max_money : Z) (io : SendIo) (now : Z) (pid : string) (w : Uuid)
    (account_id : Z) (recipient amount_zat : string) (memo : option string) (allow : bool) (e : TxEnv) :
  max_money < 2 ^ 63 ->
  (forall a r n m p s, si_propose io a r n m = inr p -> s ∈ pr_steps p -> 0 <= step_fee_required s) ->
  let '(r, e') := prepare_send max_money io now pid w account_id recipient amount_zat memo allow e in
  (is_ok r = false -> te_proposals e' = te_proposals e \/ is_ok (to_unix_ms (now + PROPOSAL_TTL)) = false)
  /\ forall resp, r = Ok resp ->
  may_spend w account_id (re_db (te_retry e))
  /\ exists amount kind p addr account memo_bytes,
     let summary := mkTransactionSummary recipient kind (uint_to_string amount) (uint_to_string (fees p))
                      (bool_decide (is_Some memo)) (uint_to_string (amount + fees p)) in
     let gone := set_proposals (delete pid (te_proposals e')) e' in
     parse_uint u64_max (trim amount_zat) = Some amount /\ 0 < amount <= max_money
     /\ amount + fees p <= u64_max
     /\ parse_recipient io recipient = Ok (addr, kind)
     /\ resolve_wallet_account_uuid io account_id = Ok account
     /\ memo_bytes = memo ≫= si_memo io /\ (is_Some memo -> is_Some memo_bytes)
     /\ si_propose io account addr amount memo_bytes = inr p
     /\ (kind = RecipientKind.Transparent -> memo = None /\ allow = true)
     /\ (forall m, memo = Some m -> (String.length m <= 512)%nat)
     /\ (forall s, s ∈ pr_steps p -> step_transparent_inputs s = [])
     /\ psr_proposal_id resp = pid /\ psr_fee resp = uint_to_string (fees p) /\ psr_summary resp = summary
     /\ to_unix_ms (now + PROPOSAL_TTL) = Ok (psr_expires_at resp)
     /\ (forall id, id <> pid -> te_proposals e' !! id = te_proposals e !! id)
     /\ (forall now2, now2 <= now + PROPOSAL_TTL ->
         take_proposal_for_execution now2 pid w e' = (Ok (account_id, summary, now + PROPOSAL_TTL, p), gone))
     /\ (forall now2, now + PROPOSAL_TTL < now2 ->
         take_proposal_for_execution now2 pid w e'
         = (Err (ipc_err errors.PROPOSAL_EXPIRED "proposal expired"), gone))
     /\ (forall now2 w2, w2 <> w ->
         take_proposal_for_execution now2 pid w2 e' = (Err proposal_not_found, e'))
     /\ (forall now2 w2, take_proposal_for_execution now2 pid w2 gone = (Err proposal_not_found, gone)).
Proof.
  intros Hmax Hfee.
  pose proof (prepare_send_cases max_money io now pid w account_id recipient amount_zat memo allow e) as Hc.
  destruct (prepare_send _ _ _ _ _ _ _ _ _ _ e) as [r e'].
  destruct Hc as [[Hsame [err ->]]|(v & p & fee & e1 & Hsame & Hspend & Hv & Hp & Ht & Hf & Heq)].
  { destruct Hsame as [Hsame _]. split; [auto|done]. }
  cbn zeta in Heq. destruct Heq as [-> ->]. split.
  { destruct (to_unix_ms _); [done|by right]. }
  intros resp Hr. destruct (to_unix_ms _) as [ms|] eqn:Ems; [|done]. injection Hr as <-.
  apply check_send_Ok in Hv as [Ha Hrange Hrec Hpriv Hmemo Hmb Hms Hacc _].
  apply proposal_total_fee_Ok in Hf as [-> Hfm]; [|unfold u64_max; lia|by eauto].
  split; [done|]. exists (vs_amount v), (vs_kind v), p, (vs_recipient v), (vs_account v), (vs_memo v). cbn zeta.
  do 2 (split; [done|]). split; [unfold u64_max; lia|]. do 7 (split; [done|]).
  split; [by apply no_transparent_inputs|]. do 4 (split; [done|]). destruct Hsame as [Hsame _]. split.
  { intros id Hid. cbn. by rewrite lookup_insert_ne, Hsame. }
  set (rec := mkProposalRecord _ _ _ _ _). set (e2 := set_proposals _ e1).
  assert (te_proposals e2 !! pid = Some rec) as Hrec2 by apply lookup_insert_eq.
  split_and!.
  - intros now2 Hn. destruct (take_proposal_cases now2 pid w e2 rec Hrec2) as [-> _]. cbn.
    rewrite bool_decide_eq_true_2 by done. cbn. destruct (_ <? now2) eqn:E; [lia|done].
  - intros now2 Hn. destruct (take_proposal_cases now2 pid w e2 rec Hrec2) as [-> _]. cbn.
    rewrite bool_decide_eq_true_2 by done. cbn. destruct (_ <? now2) eqn:E; [done|lia].
  - intros now2 w2 Hw. destruct (take_proposal_cases now2 pid w2 e2 rec Hrec2) as [-> _]. cbn.
    by rewrite bool_decide_eq_false_2 by congruence.
  - apply (take_proposal_cases now pid w e2 rec Hrec2).
Qed.

Definition demo_send_io : SendIo := {|
  si_decode := fun s => if bool_decide (s = "u1dest") then Some (Unified true false false s) else None;
  si_memo := Some;
  si_accounts := inr [("uuid0", inr (Some (mkAccountView (Some "zbag-account-id:0") None)))];
  si_summary := inr (Some [("uuid0", mkAccountBalance 500000 0 0 0 0 500000)]);
  si_propose := fun _ _ n _ =>
    if n <=? 490000 then inr (mkProposal [mkStep [] 10000] "p") else inl "Insufficient balance";
  si_create := fun _ => inr ("aa", ["bb"]);
  si_get_transaction := fun t => inr (Some t);
  si_write := fun t => inr ("raw-" +:+ t);
  si_create_pczt := fun _ => inr ("full", "redacted");
  si_decode_full := inr;
  si_decode_signed := fun s => if bool_decide (s = "signed") then inr s else inl "bad encoding";
  si_combine := fun a b => inr (a +:+ b);
  si_extract := fun _ => inr "cc";
|}.

Definition demo_send_env : TxEnv :=
  mkTxEnv ∅ ∅
    (mkRetryEnv (mkQueueState ∅ [] ∅)
       (mkAppDb [] [mkAccountRow "w1" 0 "main" "Software" 1] [mkBackupRow "w1" false None None] [] [] [] [] None None [])
       [] []).

Definition demo_max_money : Z := 2100000000000000.

Lemma prepare_send_guarded_witness :
  exists resp e', prepare_send demo_max_money demo_send_io 0 "p1" "w1" 0 "u1dest" "150000" (Some "hi") false
                    demo_send_env = (Ok resp, e')
  /\ ts_total_spend (psr_summary resp) = "160000"
  /\ is_Some (te_proposals e' !! "p1")
  /\ take_proposal_for_execution 5 "p1" "w2" e' = (Err proposal_not_found, e').
Proof.
  pose proof (prepare_send_guarded demo_max_money demo_send_io 0 "p1" "w1" 0 "u1dest" "150000" (Some "hi") false
    demo_send_env eq_refl) as H.
  assert (forall a r n m p s, si_propose demo_send_io a r n m = inr p -> s ∈ pr_steps p ->
    0 <= step_fee_required s) as Hf.
  { intros a r n m p s Hp Hs. cbn in Hp. destruct (n <=? 490000); [|discriminate Hp]. injection Hp as <-.
    apply list_elem_of_singleton in Hs. subst s. discriminate. }
  specialize (H Hf). eexists _, _. split; [vm_compute; reflexivity|].
  destruct (prepare_send _ _ _ _ _ _ _ _ _ _ _) as [r e'] eqn:E. vm_compute in E. injection E as <- <-.
  destruct (proj2 H _ eq_refl) as (_ & amount & kind & p & addr & account & m & _ & _ & _ & _ & _ & _ & _ & _ & _ & _
    & _ & _ & _ & _ & _ & _ & _ & _ & Hother & _).
  split; [reflexivity|]. split; [by eexists|]. exact (Hother 5 "w2" ltac:(discriminate)).
Defined.

(** ** Consuming *)

(** Computations that leave the two tables alone. *)
Definition keeps {A} (m : M TxEnv A) : Prop := forall e,
  te_proposals (m e).2 = te_proposals e /\ te_pending (m e).2 = te_pending e.

Lemma keeps_ret {A} (a : A) : keeps (mret a).
Proof. done. Qed.
Lemma keeps_err {A} err : keeps (m_err err : M TxEnv A).
Proof. done. Qed.
Lemma keeps_get : keeps m_get.
Proof. done. Qed.
Lemma keeps_lift {A} (r : result A) : keeps (m_lift r).
Proof. done. Qed.
Lemma keeps_retry {A} (m : M RetryEnv A) : keeps (on_retry m).
Proof. intros e. unfold on_retry, m_zoom. by destruct (m (te_retry e)). Qed.
Lemma keeps_try {A} (m : M TxEnv A) : keeps m -> keeps (m_try m).
Proof. intros H e. apply H. Qed.
Lemma keeps_bind {A B} (m : M TxEnv A) (f : A -> M TxEnv B) :
  keeps m -> (forall a, keeps (f a)) -> keeps (m ≫= f).
Proof.
  intros Hm Hf e. rewrite m_bind_eq. specialize (Hm e). destruct (m e) as [[a|err] e1]; [|done].
  cbn in Hm. destruct (Hf a e1) as [H1 H2], Hm as [H3 H4]. split; congruence.
Qed.

Create HintDb sends.
#[local] Hint Resolve keeps_ret keeps_err keeps_get keeps_lift keeps_retry keeps_try keeps_bind : sends.

Section Consuming.
Context (to_vec_pretty : QueuedBroadcastMeta -> string)
        (from_slice : string -> option QueuedBroadcastMeta)
        (aead_encrypt : string -> string -> string -> string -> option string) (fl : Q -> Q)
        (send : nat -> string -> string -> option (result unit))
        (nonce : string -> string) (offset_ms : string -> Q).

Lemma keeps_broadcast_or_queue now w wdir dek url txid bytes :
  keeps (broadcast_or_queue to_vec_pretty aead_encrypt fl send nonce offset_ms now w wdir dek url txid bytes).
Proof using Type.
  unfold broadcast_or_queue. apply keeps_bind; [auto with sends|]. intros [u|err]; auto 6 with sends.
Qed.

Lemma keeps_broadcast_all io now w wdir dek url txids errs :
  keeps (broadcast_all to_vec_pretty aead_encrypt fl send nonce offset_ms io now w wdir dek url txids errs).
Proof using Type.
  revert errs. induction txids as [|t l IH]; intros errs; cbn [broadcast_all]; [auto with sends|].
  apply keeps_bind; [auto with sends|]. intros bytes. apply keeps_bind; [apply keeps_broadcast_or_queue|]. auto.
Qed.

Lemma may_spend_stmt w a db : may_spend w a (db_stmt db).2 -> may_spend w a db.
Proof using Type.
  intros (b & ar & H). destruct (db_stmt_spec db) as (r & db' & E & _ & _ & Hacc & Hbak & _).
  rewrite E in H. cbn in H. rewrite Hacc, Hbak in H. by exists b, ar.
Qed.

Lemma validate_proposal_cases now pid w e :
  let '(r, e') := validate_proposal_for_wallet now pid w e in
  te_pending e' = te_pending e /\ te_retry e' = te_retry e
  /\ match r with
     | Ok a => e' = e /\ exists rec, te_proposals e !! pid = Some rec /\ pp_wallet_id rec = w
                 /\ now <= pp_expires_at rec /\ a = pp_account_id rec
     | Err err => te_proposals e' = te_proposals e \/ te_proposals e' = delete pid (te_proposals e)
     end.
Proof using Type.
  unfold validate_proposal_for_wallet, mbind, M_bind, m_get, m_lift, m_err.
  destruct (te_proposals e !! pid) as [rec|] eqn:El; cbn; [|auto].
  destruct (bool_decide (pp_wallet_id rec = w)) eqn:Ew; cbn; [|auto].
  destruct (pp_expires_at rec <? now) eqn:Ex; cbn; [auto|]. breflect.
  do 3 (split; [done|]). exists rec. split; [done|]. split; [done|]. split; [lia|done].
Qed.

(** The part of [confirm_send] after the proposal left the table. *)
Definition consumed (pid : string) (w : Uuid) (now : Z) (e e' : TxEnv) : Prop :=
  exists rec, te_proposals e !! pid = Some rec /\ pp_wallet_id rec = w /\ now <= pp_expires_at rec
    /\ te_proposals e' = delete pid (te_proposals e)
    /\ (re_sends (te_retry e') = re_sends (te_retry e)
        \/ may_spend w (pp_account_id rec) (re_db (te_retry e))
           /\ (forall s, s ∈ pr_steps (pp_proposal rec) -> step_transparent_inputs s = [])).

Lemma confirm_send_cases io now now_ms w wdir dek url pid on e :
  let '(r, e') := confirm_send to_vec_pretty from_slice aead_encrypt fl send nonce offset_ms io now now_ms
                    w wdir dek url pid on e in
  te_pending e' = te_pending e
  /\ (is_ok r = false /\ re_sends (te_retry e') = re_sends (te_retry e)
        /\ (te_proposals e' = te_proposals e \/ te_proposals e' = delete pid (te_proposals e))
      \/ consumed pid w now e e').
Proof using Type.
  unfold confirm_send. rewrite m_bind_eq. pose proof (validate_proposal_cases now pid w e) as Hv.
  destruct (validate_proposal_for_wallet now pid w e) as [[a|err] e1]; destruct Hv as (Hp1 & Hr1 & Hv).
  2:{ split; [done|]. left. rewrite Hr1. auto. }
  destruct Hv as (-> & rec & Hl & Hw & Hx & ->). rewrite m_bind_eq. unfold m_context at 1.
  pose proof (on_db_frame db_stmt e) as Hdb. destruct (on_retry (on_db db_stmt) e) as [r2 e2].
  destruct Hdb as [-> ->]. cbn [fst snd].
  destruct (db_stmt (re_db (te_retry e))) as [[[]|err] db2] eqn:Edb; cbn [fst with_context].
  2:{ split; [done|]. left. auto. }
  rewrite m_bind_eq. unfold m_get at 1. rewrite m_bind_eq. cbn [te_proposals]. unfold m_lift at 1.
  rewrite Hl. cbn [ok_or]. rewrite m_bind_eq. unfold m_put at 1.
  set (e3 := set_proposals _ _). rewrite m_bind_eq.
  pose proof (on_db_frame (ensure_spend_allowed_conn w (pp_account_id rec)) e3) as Hdb.
  destruct (on_retry (on_db (ensure_spend_allowed_conn w (pp_account_id rec))) e3) as [r4 e4].
  destruct Hdb as [Hr4 He4].
  assert (te_proposals e4 = delete pid (te_proposals e) /\ te_pending e4 = te_pending e
    /\ re_sends (te_retry e4) = re_sends (te_retry e)) as (Hpr4 & Hpe4 & Hse4) by (by subst e4).
  destruct r4 as [[]|err].
  2:{ split; [done|]. right. exists rec. auto 10. }
  symmetry in Hr4. apply ensure_spend_allowed_ok in Hr4.
  assert (may_spend w (pp_account_id rec) (re_db (te_retry e))) as Hspend.
  { apply may_spend_stmt. rewrite Edb. exact Hr4. }
  destruct (has_transparent_inputs (pp_proposal rec)) eqn:Et.
  { split; [done|]. right. exists rec. auto 10. }
  match goal with |- context [@mbind (M TxEnv) ?i ?A ?B ?f ?m e4] => assert (keeps (@mbind _ i A B f m)) as Hk;
    [|specialize (Hk e4); set (out := @mbind _ i A B f m e4) in *] end.
  { apply keeps_bind; [auto with sends|]. intros [primary rest].
    apply keeps_bind; [apply keeps_broadcast_all|]. intros errs. apply keeps_bind; [auto with sends|].
    intros []. apply keeps_bind; [auto with sends|]. intros e5. case_match. case_match.
    destruct on; auto 6 with sends. }
  destruct out as [r5 e5]. cbn in Hk. destruct Hk as [Hk1 Hk2].
  split; [congruence|]. right. exists rec. do 3 (split; [done|]). split; [congruence|]. right.
  split; [done|]. by apply no_transparent_inputs.
Qed.
(** C9. Nothing is sent without consuming its proposal.  Whatever the wallet
    library, the network, the disk and the database do, if [confirm_send]
    sends anything then the proposal was one of this wallet, had not expired,
    spends nothing transparent and the account may spend; it has left the
    table, so that every later confirmation of it is refused and sends
    nothing; and no other proposal or signing request is touched. *)
Theorem confirm_send_consumes_proposal (io : SendIo) (now now_ms : Z) (w : Uuid)
    (wdir dek url pid : string) (on : bool) (e : TxEnv) :
  let run io now now_ms w wdir dek url on :=
    confirm_send to_vec_pretty from_slice aead_encrypt fl send nonce offset_ms io now now_ms w wdir dek url
      pid on in
  let '(r, e') := run io now now_ms w wdir dek url on e in
  te_pending e' = te_pending e
  /\ (forall id, id <> pid -> te_proposals e' !! id = te_proposals e !! id)
  /\ (is_ok r = true \/ re_sends (te_retry e') <> re_sends (te_retry e) ->
      te_proposals e' !! pid = None
      /\ (exists rec, te_proposals e !! pid = Some rec /\ pp_wallet_id rec = w /\ now <= pp_expires_at rec
            /\ (re_sends (te_retry e') <> re_sends (te_retry e) ->
                may_spend w (pp_account_id rec) (re_db (te_retry e))
                /\ forall s, s ∈ pr_steps (pp_proposal rec) -> step_transparent_inputs s = []))
      /\ forall io2 now2 now_ms2 w2 wdir2 dek2 url2 on2,
           run io2 now2 now_ms2 w2 wdir2 dek2 url2 on2 e' = (Err proposal_not_found, e')).
Proof using Type.
  cbn beta zeta. pose proof (confirm_send_cases io now now_ms w wdir dek url pid on e) as Hc.
  destruct (confirm_send _ _ _ _ _ _ _ _ _ _ _ _ _ _ _ _ e) as [r e'].
  destruct Hc as [Hpe [(Hr & Hs & Hpr)|(rec & Hl & Hw & Hx & Hpr & Hsend)]]; (split; [done|]); split.
  - intros id Hid. destruct Hpr as [-> | ->]; [done|]. by rewrite lookup_delete_ne.
  - intros [Hok|Hne]; congruence.
  - intros id Hid. by rewrite Hpr, lookup_delete_ne.
  - intros _. assert (te_proposals e' !! pid = None) as Hnone by (by rewrite Hpr, lookup_delete_eq).
    split; [done|]. split; [exists rec; do 3 (split; [done|]); intros Hne; by destruct Hsend|].
    intros. unfold confirm_send, validate_proposal_for_wallet, mbind, M_bind, m_get, m_lift.
    by rewrite Hnone.
Qed.

Lemma take_pending_cases now id w e :
  let '(r, e') := take_pending_signing_request_for_execution now id w e in
  te_proposals e' = te_proposals e /\ te_retry e' = te_retry e
  /\ match r with
     | Ok _ => te_pending e' = delete id (te_pending e)
         /\ exists q, te_pending e !! id = Some q /\ ps_wallet_id q = w /\ now <= ps_expires_at q
     | Err _ => te_pending e' = te_pending e \/ te_pending e' = delete id (te_pending e)
     end
  /\ (forall q, te_pending e !! id = Some q -> ps_wallet_id q = w -> te_pending e' !! id = None).
Proof using Type.
  unfold take_pending_signing_request_for_execution, mbind, M_bind, m_get, m_lift, m_put, m_err, mret, M_ret.
  destruct (te_pending e !! id) as [q|] eqn:El; cbn; [|by auto].
  destruct (ps_expires_at q <? now) eqn:Ex; cbn.
  { do 2 (split; [done|]). split; [auto|]. intros. apply lookup_delete_eq. }
  destruct (bool_decide (ps_wallet_id q = w)) eqn:Ew; cbn; breflect.
  - do 2 (split; [done|]). split; [split; [done|]; exists q; split; [done|]; split; [done|lia]|].
    intros. apply lookup_delete_eq.
  - do 2 (split; [done|]). split; [auto|]. by intros q' [= <-] Hw.
Qed.

(** Nothing is sent for a hardware wallet without consuming its signing
    request.  If [finalize_signing] sends anything the request was one of
    this wallet and had not expired; and once the check of the backup has
    passed a request of the wallet is gone whatever follows, so that it is
    used at most once and a payload that does not decode costs the user the
    request. *)
Theorem finalize_signing_consumes_request (io : SendIo) (now : Z) (w : Uuid)
    (wdir dek url id payload : string) (e : TxEnv) :
  let run io now w wdir dek url payload :=
    finalize_signing to_vec_pretty from_slice aead_encrypt fl send nonce offset_ms io now w wdir dek url
      id payload in
  let '(r, e') := run io now w wdir dek url payload e in
  te_proposals e' = te_proposals e
  /\ (forall id', id' <> id -> te_pending e' !! id' = te_pending e !! id')
  /\ (re_sends (te_retry e') <> re_sends (te_retry e) ->
      exists q, te_pending e !! id = Some q /\ ps_wallet_id q = w /\ now <= ps_expires_at q)
  /\ (forall q, te_pending e !! id = Some q -> ps_wallet_id q = w ->
      is_ok (ensure_backup_complete w (re_db (te_retry e))).1 = true -> te_pending e' !! id = None)
  /\ (te_pending e' !! id = None -> forall io2 now2 w2 wdir2 dek2 url2 payload2,
      let '(r2, e2) := run io2 now2 w2 wdir2 dek2 url2 payload2 e' in
      is_ok r2 = false /\ re_sends (te_retry e2) = re_sends (te_retry e')).
Proof using Type.
  cbn beta zeta.
  assert (forall io now w wdir dek url payload e, te_pending e !! id = None ->
    let '(r2, e2) := finalize_signing to_vec_pretty from_slice aead_encrypt fl send nonce offset_ms io now w
                       wdir dek url id payload e in
    is_ok r2 = false /\ re_sends (te_retry e2) = re_sends (te_retry e)) as Hgone.
  { clear. intros. unfold finalize_signing. rewrite m_bind_eq.
    pose proof (on_db_frame (ensure_backup_complete w) e) as Hdb.
    destruct (on_retry (on_db (ensure_backup_complete w)) e) as [[[]|err] e1]; destruct Hdb as [_ ->]; [|done].
    rewrite m_bind_eq. unfold take_pending_signing_request_for_execution, mbind, M_bind, m_get, m_lift.
    cbn. by rewrite H. }
  unfold finalize_signing at 1. rewrite m_bind_eq.
  pose proof (on_db_frame (ensure_backup_complete w) e) as Hdb.
  destruct (on_retry (on_db (ensure_backup_complete w)) e) as [r1 e1]. destruct Hdb as [Hr1 He1].
  assert (te_proposals e1 = te_proposals e /\ te_pending e1 = te_pending e
    /\ re_sends (te_retry e1) = re_sends (te_retry e)) as (Hp1 & Hq1 & Hs1) by (by subst e1).
  destruct r1 as [[]|err].
  2:{ rewrite <- Hr1, Hp1, Hq1, Hs1. do 4 (split; [done|]). intros Hn. intros. rewrite <- Hs1.
      apply Hgone. by rewrite Hq1. }
  clear He1 Hr1. rewrite m_bind_eq. pose proof (take_pending_cases now id w e1) as Ht.
  destruct (take_pending_signing_request_for_execution now id w e1) as [[[stored x]|err] e2];
    destruct Ht as (Hp2 & Hr2 & Ht & Hown); rewrite Hq1 in Ht, Hown.
  2:{ split; [congruence|]. split.
      { intros id' Hid. destruct Ht as [-> | ->]; [done|]. by rewrite lookup_delete_ne. }
      split; [rewrite Hr2; congruence|]. split; [intros; by eapply Hown|]. intros. by apply Hgone. }
  destruct Ht as (Hq2 & q & Hl & Hw & Hx).
  match goal with |- context [@mbind (M TxEnv) ?i ?A ?B ?f ?m e2] => assert (keeps (@mbind _ i A B f m)) as Hk;
    [|specialize (Hk e2); set (out := @mbind _ i A B f m e2) in *] end.
  { do 5 (apply keeps_bind; [auto with sends|]; intros ?).
    apply keeps_bind; [apply keeps_broadcast_or_queue|]. auto with sends. }
  destruct out as [r3 e3]. destruct Hk as [Hk1 Hk2]. cbn in Hk1, Hk2.
  split; [congruence|]. rewrite Hk2, Hq2. split; [intros id' Hid; by rewrite lookup_delete_ne|].
  split; [eauto|]. split; [intros; apply lookup_delete_eq|].
  intros Hn. intros. apply Hgone. by rewrite Hk2, Hq2.
Qed.
End Consuming.

(** ** The outcome of a send *)

(** A failed [broadcast] of the [k]-th call: its message. *)
Definition send_outcome (send : nat -> string -> string -> option (result unit)) (k : nat)
    (url bytes : string) : option string :=
  match send_with_timeout (send k url bytes) with
  | Ok _ => None
  | Err err =>
      if is_effective_success_broadcast_error (error_chain err) then None else Some (error_chain err)
  end.

Section Outcome.
Context (to_vec_pretty : QueuedBroadcastMeta -> string)
        (from_slice : string -> option QueuedBroadcastMeta)
        (aead_encrypt : string -> string -> string -> string -> option string) (fl : Q -> Q)
        (send : nat -> string -> string -> option (result unit))
        (nonce : string -> string) (offset_ms : string -> Q).
Context (serde_ok : forall m, from_slice (to_vec_pretty m) = Some m).
Context (aead_total : forall k n a m, is_Some (aead_encrypt k n a m)).
Context (now now_ms : Z) (Hnow : to_unix_ms now = Ok now_ms) (w : Uuid) (wdir dek url : string).

Let dir : string := queued_broadcasts_dir wdir.

(** The files of a transaction. *)
Definition tx_file (txid : string) (p : Path) : Prop :=
  p = queued_broadcast_bin_path dir txid \/ p = queued_broadcast_meta_path dir txid.

Lemma tx_file_inj t t' p : tx_file t p -> tx_file t' p -> t = t'.
Proof using Type.
  unfold tx_file, queued_broadcast_bin_path, queued_broadcast_meta_path.
  intros [-> | ->] [H|H]; injection H as H.
  - by apply string_app_inj_r in H.
  - symmetry in H. by apply json_not_bin in H.
  - by apply json_not_bin in H.
  - by apply string_app_inj_r in H.
Qed.

(** What the disk holds for a transaction after its broadcast. *)
Definition stored (txid : string) (failed : option string) (q : QueueState) : Prop :=
  match failed with
  | None => file_at q (queued_broadcast_bin_path dir txid) = None
            /\ file_at q (queued_broadcast_meta_path dir txid) = None
  | Some err =>
      let class := classify_broadcast_error_message err in
      let '(r, reason) := apply_retry_policy (is_retryable_broadcast_error_class class) 0 (Some class) None in
      is_Some (file_at q (queued_broadcast_bin_path dir txid))
      /\ file_at q (queued_broadcast_meta_path dir txid)
         = Some (to_vec_pretty (queued_meta fl now_ms (offset_ms txid) (Some err) (Some class) r reason))
  end.

Lemma stored_frame txid failed q q' :
  (forall p, tx_file txid p -> file_at q' p = file_at q p) -> stored txid failed q -> stored txid failed q'.
Proof using Type.
  intros Hf. unfold stored. destruct failed as [err|].
  - cbn zeta. destruct (apply_retry_policy _ _ _ _). by rewrite !Hf by (by left + by right).
  - by rewrite !Hf by (by left + by right).
Qed.

Lemma delete_quiet_frame txid q :
  q_faults q = [] ->
  exists q', delete_queued_broadcast wdir txid q = (Ok tt, q') /\ q_faults q' = [] /\ q_mem q' = q_mem q
    /\ stored txid None q' /\ forall p, ~ tx_file txid p -> file_at q' p = file_at q p.
Proof using Type.
  intros Hf. unfold delete_queued_broadcast, mbind, M_bind.
  destruct (remove_ignored (queued_broadcast_bin_path dir txid) q Hf) as (q1 & E1 & Hf1 & Hb & Hfr1).
  destruct (remove_ignored (queued_broadcast_meta_path dir txid) q1 Hf1) as (q2 & E2 & Hf2 & Hm & Hfr2).
  fold dir. rewrite E1, E2. exists q2. split; [done|]. split; [done|]. split.
  { assert (forall p q q', m_ignore (fs_remove_file p) q = (Ok tt, q') -> q_mem q' = q_mem q) as Hmem.
    { clear. intros p q q' [= <-]. unfold fs_remove_file, mbind, M_bind, fs_call, m_get, m_put, m_err.
      destruct (q_faults q) as [|[] fs]; cbn; repeat case_match; done. }
    by rewrite (Hmem _ _ _ E2), (Hmem _ _ _ E1). }
  split.
  - split; [|done]. rewrite Hfr2, Hb; [done|]. intros H. injection H as H.
    symmetry in H. by apply json_not_bin in H.
  - intros p Hp. rewrite Hfr2, Hfr1; [done| |]; intros ->; apply Hp; [by left|by right].
Qed.

(** The queue writer, file by file. *)
Lemma queue_quiet_frame txid bytes err q :
  q_faults q = [] ->
  let class := classify_broadcast_error_message err in
  exists q', queue_broadcast to_vec_pretty aead_encrypt fl now (nonce txid) (offset_ms txid) w wdir dek txid
               bytes (Some err) (Some class) (is_retryable_broadcast_error_class class) q = (Ok tt, q')
    /\ q_faults q' = [] /\ q_mem q' = q_mem q /\ stored txid (Some err) q'
    /\ forall p, ~ tx_file txid p -> file_at q' p = file_at q p.
Proof using Hnow aead_total.
  intros Hf class. destruct (aead_total dek (nonce txid) (queued_aad w txid) bytes) as [ct Hct].
  pose proof (queue_broadcast_files to_vec_pretty aead_encrypt fl now now_ms (nonce txid) (offset_ms txid)
    w wdir dek txid bytes (Some err) (Some class) (is_retryable_broadcast_error_class class) ct q Hf Hnow Hct)
    as H.
  unfold stored. fold class. cbn zeta.
  destruct (apply_retry_policy _ 0 _ None) as [r reason]. destruct H as (q' & Hq & Hfiles).
  exists q'. split; [done|]. unfold queued_files in Hfiles. fold dir in Hfiles. subst q'.
  split; [done|]. split; [done|]. unfold file_at. cbn. rewrite lookup_insert_eq. cbn.
  rewrite lookup_insert_eq, lookup_insert_ne, lookup_insert_eq by apply json_not_bin.
  split; [by eauto|]. intros [d n] Hp. cbn. destruct (decide (d = dir)) as [->|Hd]; [|by rewrite lookup_insert_ne].
  rewrite lookup_insert_eq. cbn. rewrite !lookup_insert_ne; [by destruct (q_disk q !! dir)| |];
    intros <-; apply Hp; [by left|by right].
Qed.

(** One broadcast: it is sent once, and only its own files change. *)
Record broadcast_post (e : TxEnv) (txid : string) (failed : option string) (e' : TxEnv) : Prop := {
  bp_faults : q_faults (re_queue (te_retry e')) = [];
  bp_mem : q_mem (re_queue (te_retry e')) = q_mem (re_queue (te_retry e));
  bp_sends : re_sends (te_retry e') = (re_sends (te_retry e) ++ [url])%list;
  bp_events : re_events (te_retry e') = re_events (te_retry e);
  bp_stored : stored txid failed (re_queue (te_retry e'));
  bp_frame : forall p, ~ tx_file txid p ->
    file_at (re_queue (te_retry e')) p = file_at (re_queue (te_retry e)) p;
}.

Lemma broadcast_or_queue_quiet txid bytes e :
  q_faults (re_queue (te_retry e)) = [] ->
  let failed := send_outcome send (length (re_sends (te_retry e))) url bytes in
  exists e', broadcast_or_queue to_vec_pretty aead_encrypt fl send nonce offset_ms now w wdir dek url txid bytes e
               = (Ok failed, e') /\ broadcast_post e txid failed e'.
Proof using Hnow aead_total.
  intros Hf failed.
  set (e1 := mkTxEnv (te_proposals e) (te_pending e)
    (mkRetryEnv (re_queue (te_retry e)) (re_db (te_retry e)) (re_events (te_retry e))
       (re_sends (te_retry e) ++ [url])%list)).
  assert (exists r, on_retry (send_transaction_bytes send url bytes) e = (r, e1)
    /\ match failed with None => r = Ok tt | Some m => exists err, r = Err err /\ m = error_chain err end)
    as (r & Hsend & Hr).
  { unfold failed, send_outcome, on_retry, m_zoom, send_transaction_bytes.
    destruct (send_with_timeout _) as [u|err]; [by eexists|].
    destruct (is_effective_success_broadcast_error (error_chain err)); eauto. }
  unfold broadcast_or_queue. rewrite m_bind_eq. unfold m_try. rewrite Hsend. cbn [fst snd].
  destruct failed as [msg|].
  - destruct Hr as (err & -> & ->).
    destruct (queue_quiet_frame txid bytes (error_chain err) (re_queue (te_retry e)) Hf)
      as (q' & Hq & Hq1 & Hq2 & Hq3 & Hq4).
    rewrite m_bind_eq. unfold on_retry, on_queue, m_zoom. cbn. rewrite Hq. eexists. split; [done|]. by split.
  - subst r. destruct (delete_quiet_frame txid (re_queue (te_retry e)) Hf) as (qd & Hdel & Hd1 & Hd2 & Hd3 & Hd4).
    rewrite m_bind_eq. unfold on_retry, on_queue, m_zoom. cbn. rewrite Hdel. eexists. split; [done|]. by split.
Qed.

Context (io : SendIo) (bytes : string -> string).

(** The outcome of the transaction at position [k] of a run that starts
    after [n] sends. *)
Let outcome (n k : nat) (t : string) : option string := send_outcome send (n + k) url (bytes t).

Record broadcasts_post (e : TxEnv) (txids : list string) (errs : gmap string string) (e' : TxEnv)
    (errs' : gmap string string) : Prop := {
  bsp_faults : q_faults (re_queue (te_retry e')) = [];
  bsp_mem : q_mem (re_queue (te_retry e')) = q_mem (re_queue (te_retry e));
  bsp_sends : re_sends (te_retry e') = (re_sends (te_retry e) ++ replicate (length txids) url)%list;
  bsp_events : re_events (te_retry e') = re_events (te_retry e);
  bsp_stored : forall k t, txids !! k = Some t ->
    stored t (outcome (length (re_sends (te_retry e))) k t) (re_queue (te_retry e'))
    /\ errs' !! t = outcome (length (re_sends (te_retry e))) k t;
  bsp_errs : forall t, t ∉ txids -> errs' !! t = errs !! t;
  bsp_frame : forall p, (forall t, t ∈ txids -> ~ tx_file t p) ->
    file_at (re_queue (te_retry e')) p = file_at (re_queue (te_retry e)) p;
}.

Lemma broadcast_all_quiet txids errs e :
  NoDup txids -> (forall t, t ∈ txids -> load_transaction io t = Ok (bytes t)) ->
  (forall t, t ∈ txids -> errs !! t = None) -> q_faults (re_queue (te_retry e)) = [] ->
  exists e' errs',
    broadcast_all to_vec_pretty aead_encrypt fl send nonce offset_ms io now w wdir dek url txids errs e
      = (Ok errs', e') /\ broadcasts_post e txids errs e' errs'.
Proof using Hnow aead_total.
  clear serde_ok from_slice. revert errs e. induction txids as [|t l IH]; intros errs e Hnd Hload Herrs Hf; cbn [broadcast_all].
  { exists e, errs. split; [done|]. split; try done. by rewrite app_nil_r. }
  apply NoDup_cons in Hnd as [Hnt Hnd]. rewrite m_bind_eq. unfold m_lift at 1.
  rewrite Hload by (by left). rewrite m_bind_eq.
  destruct (broadcast_or_queue_quiet t (bytes t) e Hf) as (e1 & He1 & Hp1). rewrite He1.
  set (failed := send_outcome send _ url (bytes t)) in *.
  set (errs1 := match failed with Some err_msg => _ | None => _ end).
  destruct (IH errs1 e1 Hnd) as (e2 & errs2 & He2 & Hp2).
  { intros x Hx. apply Hload. by right. }
  { intros x Hx. assert (x <> t) as Hne by (intros ->; done). unfold errs1.
    destruct failed; [rewrite lookup_insert_ne by done|]; apply Herrs; by right. }
  { by destruct Hp1. }
  exists e2, errs2. split; [done|]. destruct Hp1 as [H1 H2 H3 H4 H5 H6], Hp2 as [G1 G2 G3 G4 G5 G6 G7].
  split; try congruence.
  - rewrite G3, H3. cbn [length replicate]. by rewrite <- app_assoc.
  - intros [|k] x Hx; cbn in Hx.
    + injection Hx as <-. unfold outcome. rewrite Nat.add_0_r. fold failed. split.
      * eapply stored_frame; [|exact H5]. intros p Hp. apply G7. intros x Hx Hx2.
        by rewrite (tx_file_inj _ _ _ Hp Hx2) in Hnt.
      * rewrite G6 by done. unfold errs1. destruct failed; [apply lookup_insert_eq|]. apply Herrs. by left.
    + destruct (G5 k x Hx) as [Hst Her]. unfold outcome in *. rewrite H3, length_app in Hst, Her.
      cbn [length] in Hst, Her.
      replace (length (re_sends (te_retry e)) + S k)%nat
        with (length (re_sends (te_retry e)) + 1 + k)%nat by lia. done.
  - intros x Hx. rewrite G6 by set_solver. unfold errs1.
    destruct failed; [|done]. apply lookup_insert_ne. set_solver.
  - intros p Hp. rewrite G7, H6; [done| |]; [apply Hp; by left|]. intros x Hx. apply Hp. by right.
Qed.

(** The index entry a scan makes of the files of a transaction. *)
Lemma scan_index q t :
  q_faults q = [] -> t <> "" ->
  exists q', scan_queued_broadcasts from_slice now w wdir q = (Ok tt, q')
    /\ (m ← q_mem q' !! w; m !! t)
       = (meta_bytes ← file_at q (queued_broadcast_meta_path dir t);
          parsed ← from_slice meta_bytes;
          let meta := normalize_queued_broadcast_meta parsed now_ms in
          _ ← file_at q (queued_broadcast_bin_path dir t);
          if retention_expired now meta then None
          else Some (mkEntry (queued_broadcast_bin_path dir t) meta)).
Proof using Hnow.
  intros Hf Ht. destruct (q_disk q !! dir) as [files|] eqn:Ed.
  - destruct (scan_exact from_slice now now_ms w wdir q files Hf Hnow Ed)
      as (q' & entries & Hs & _ & Hmem & He & _).
    exists q'. split; [done|]. rewrite Hmem, lookup_insert_eq. cbn. rewrite He by done.
    unfold live_entry, file_at. cbn. by rewrite Ed.
  - unfold scan_queued_broadcasts, mbind, M_bind, m_get, m_put. fold dir. rewrite Ed.
    eexists. split; [done|]. cbn. rewrite lookup_delete_eq. unfold file_at. cbn. by rewrite Ed.
Qed.

(** The entry of a transaction whose broadcast failed. *)
Definition failed_entry (t err : string) : QueuedBroadcastEntry :=
  let class := classify_broadcast_error_message err in
  mkEntry (queued_broadcast_bin_path dir t)
    (normalize_queued_broadcast_meta
       (queued_meta fl now_ms (offset_ms t) (Some err) (Some class)
          (is_retryable_broadcast_error_class class) None) now_ms).

Lemma scan_stored q t failed :
  q_faults q = [] -> t <> "" -> stored t failed q ->
  exists q', scan_queued_broadcasts from_slice now w wdir q = (Ok tt, q')
    /\ (m ← q_mem q' !! w; m !! t) = failed_entry t <$> failed.
Proof using Hnow serde_ok.
  intros Hf Ht Hst. destruct (scan_index q t Hf Ht) as (q' & Hs & Hi). exists q'. split; [done|].
  rewrite Hi. destruct failed as [err|]; cbn in Hst; [|by destruct Hst as [_ ->]].
  pose proof (queued_meta_normalize fl now_ms (offset_ms t) (Some err)
    (Some (classify_broadcast_error_message err))
    (is_retryable_broadcast_error_class (classify_broadcast_error_message err)) now_ms) as HN.
  destruct (apply_retry_policy _ _ _ _) as [r reason]. destruct Hst as [[blob Hb] Hm].
  rewrite Hm. cbn [mbind option_bind]. rewrite serde_ok. cbn [mbind option_bind]. rewrite Hb.
  cbn [mbind option_bind]. rewrite HN.
  assert (0 <= now_ms /\ now - now_ms * 1000000 <= QUEUED_BROADCAST_RETENTION) as [H0 Hret].
  { split; [by eapply to_unix_ms_nonneg|]. revert Hnow. unfold to_unix_ms. case_match; [done|].
    case_match; [|done]. intros [= <-]. unfold QUEUED_BROADCAST_RETENTION.
    pose proof (Z.div_mod now 1000000 ltac:(lia)). pose proof (Z.mod_pos_bound now 1000000 ltac:(lia)). lia. }
  by rewrite (retention_fresh now now_ms).
Qed.

Lemma failed_entry_meta t err :
  qm_last_error (qe_meta (failed_entry t err)) = Some err
  /\ qm_attempt_count (qe_meta (failed_entry t err)) = 0
  /\ qm_retryable (qe_meta (failed_entry t err))
     = is_retryable_broadcast_error_class (classify_broadcast_error_message err).
Proof using Type.
  cbn [qe_meta failed_entry]. rewrite queued_meta_retryable.
  unfold normalize_queued_broadcast_meta. destruct (apply_retry_policy _ _ _ _). cbn.
  split; [done|]. split; [done|]. apply andb_diag.
Qed.
(** A scan after the broadcasts indexes exactly the failed ones. *)
Lemma scan_broadcasts e t1 rest errs e' errs' :
  broadcasts_post e (t1 :: rest) errs e' errs' -> (forall t, t ∈ t1 :: rest -> t <> "") ->
  exists q', scan_queued_broadcasts from_slice now w wdir (re_queue (te_retry e')) = (Ok tt, q')
    /\ forall k t, (t1 :: rest) !! k = Some t ->
       indexed q' w t = failed_entry t <$> outcome (length (re_sends (te_retry e))) k t.
Proof using Hnow serde_ok.
  intros [G1 _ _ _ G5 _ _] Hne. destruct (G5 0%nat t1 eq_refl) as [Hst0 _].
  destruct (scan_stored _ t1 _ G1 (Hne t1 (list_elem_of_here _ _)) Hst0) as (q' & Hscan & _).
  exists q'. split; [done|]. intros k t Hk. destruct (G5 k t Hk) as [Hst _].
  destruct (scan_stored _ t _ G1 (Hne t (list_elem_of_lookup_2 _ _ _ Hk)) Hst) as (q2 & Hscan2 & Hi).
  rewrite Hscan in Hscan2. injection Hscan2 as <-. exact Hi.
Qed.

Lemma initial_status_failed t first :
  exists last_error,
    initial_status (failed_entry t <$> first) first
    = (if bool_decide (is_Some first) then TransactionStatus.Failed else TransactionStatus.Pending,
       last_error,
       match first with
       | Some err => is_retryable_broadcast_error_class (classify_broadcast_error_message err)
       | None => false
       end).
Proof using Type.
  destruct first as [err|]; cbn [fmap option_fmap option_map initial_status]; eexists; [|done].
  f_equal. apply failed_entry_meta.
Qed.
End Outcome.

Lemma ensure_spend_allowed_quiet w a db :
  adb_faults db = [] -> may_spend w a db -> ensure_spend_allowed_conn w a db = (Ok tt, db).
Proof.
  intros Hf (b & ar & Hb & Hreq & Ha & H1 & H2).
  assert (db_stmt db = (Ok tt, db)) as Hst by (unfold db_stmt; by rewrite Hf).
  unfold ensure_spend_allowed_conn, get_backup_required, get_account_type_text.
  unfold mbind, M_bind, m_get, mret, M_ret. rewrite Hst, Hb. cbn. rewrite Hreq, Hst, Ha. cbn.
  by rewrite !bool_decide_eq_false_2.
Qed.

(** C8. The outcome of a confirmed send, with a working disk and database.
    Every transaction of the proposal is sent exactly once, in order; each
    one that was not accepted is afterwards in the queue with its error, no
    attempt spent, and retryable exactly when its error class is; each one
    that was accepted is not; and the event shows the first transaction as
    failed, and as retryable, exactly when it was not accepted and its error
    allows a retry. *)
Theorem confirm_send_outcome
    (to_vec_pretty : QueuedBroadcastMeta -> string) (from_slice : string -> option QueuedBroadcastMeta)
    (aead_encrypt : string -> string -> string -> string -> option string) (fl : Q -> Q)
    (send : nat -> string -> string -> option (result unit)) (nonce : string -> string)
    (offset_ms : string -> Q) (now t_ms now_ms : Z) (w : Uuid) (wdir dek url pid : string) (io : SendIo)
    (bytes : string -> string) (rec : ProposalRecord) (t1 : string) (rest : list string) (e : TxEnv) :
  (forall m, from_slice (to_vec_pretty m) = Some m) ->
  (forall k n a m, is_Some (aead_encrypt k n a m)) ->
  to_unix_ms now = Ok t_ms -> q_faults (re_queue (te_retry e)) = [] -> adb_faults (re_db (te_retry e)) = [] ->
  te_proposals e !! pid = Some rec -> pp_wallet_id rec = w -> now <= pp_expires_at rec ->
  may_spend w (pp_account_id rec) (re_db (te_retry e)) -> has_transparent_inputs (pp_proposal rec) = false ->
  si_create io (pp_proposal rec) = inr (t1, rest) -> NoDup (t1 :: rest) ->
  (forall t, t ∈ t1 :: rest -> t <> "" /\ load_transaction io t = Ok (bytes t)) ->
  let outcome k t := send_outcome send (length (re_sends (te_retry e)) + k) url (bytes t) in
  exists e', confirm_send to_vec_pretty from_slice aead_encrypt fl send nonce offset_ms io now now_ms w wdir
               dek url pid true e = (Ok t1, e')
    /\ te_proposals e' = delete pid (te_proposals e)
    /\ re_sends (te_retry e') = (re_sends (te_retry e) ++ replicate (S (length rest)) url)%list
    /\ (forall k t, (t1 :: rest) !! k = Some t ->
        match outcome k t with
        | None => indexed (re_queue (te_retry e')) w t = None
        | Some err => exists entry, indexed (re_queue (te_retry e')) w t = Some entry
            /\ qm_last_error (qe_meta entry) = Some err /\ qm_attempt_count (qe_meta entry) = 0
            /\ qm_retryable (qe_meta entry)
               = is_retryable_broadcast_error_class (classify_broadcast_error_message err)
        end)
    /\ exists info, re_events (te_retry e') = (re_events (te_retry e) ++ [TransactionChangedEvent info])%list
       /\ ti_txid info = t1 /\ ti_value info = ts_amount (pp_summary rec)
       /\ ti_status info = (if bool_decide (is_Some (outcome 0%nat t1)) then TransactionStatus.Failed
                            else TransactionStatus.Pending)
       /\ ti_can_retry_broadcast info =
          match outcome 0%nat t1 with
          | Some err => is_retryable_broadcast_error_class (classify_broadcast_error_message err)
          | None => false
          end.
Proof.
  intros Hserde Haead Hnow Hf Hdbf Hl Hw Hx Hspend Hti Hcreate Hnd Htx outcome.
  unfold confirm_send. rewrite m_bind_eq, (validate_present now pid w e rec) by done.
  assert (forall m : M AppDb unit, m (re_db (te_retry e)) = (Ok tt, re_db (te_retry e)) ->
    on_retry (on_db m) e = (Ok tt, e)) as Hdb.
  { intros m Hm. unfold on_retry, on_db, m_zoom. rewrite Hm. by destruct e as [? ? []]. }
  rewrite m_bind_eq. unfold m_context at 1.
  rewrite (Hdb db_stmt) by (unfold db_stmt; by rewrite Hdbf). cbn [fst snd with_context].
  rewrite m_bind_eq. unfold m_get at 1. rewrite m_bind_eq. unfold m_lift at 1. rewrite Hl. cbn [ok_or].
  rewrite m_bind_eq. unfold m_put at 1. set (e1 := set_proposals _ _). rewrite m_bind_eq.
  assert (on_retry (on_db (ensure_spend_allowed_conn w (pp_account_id rec))) e1 = (Ok tt, e1)) as ->.
  { unfold on_retry, on_db, m_zoom. cbn. rewrite ensure_spend_allowed_quiet by done. by destruct e as [? ? []]. }
  rewrite Hti, m_bind_eq. unfold m_lift at 1. rewrite Hcreate, m_bind_eq.
  destruct (broadcast_all_quiet to_vec_pretty aead_encrypt fl send nonce offset_ms Haead now t_ms Hnow w wdir
    dek url io bytes (t1 :: rest) ∅ e1 Hnd) as (e2 & errs & Hall & Hpost);
    [intros t Ht; by apply Htx|intros; apply lookup_empty|done|].
  pose proof (keeps_broadcast_all to_vec_pretty aead_encrypt fl send nonce offset_ms io now w wdir dek url
    (t1 :: rest) ∅ e1) as [Hprop _]. rewrite Hall in Hprop |- *. cbn [snd] in Hprop.
  rewrite m_bind_eq.
  destruct (scan_broadcasts to_vec_pretty from_slice fl send offset_ms Hserde now t_ms Hnow w wdir url bytes
    e1 t1 rest ∅ e2 errs Hpost) as (q' & Hscan & Hidx); [intros t Ht; by apply Htx|].
  destruct Hpost as [G1 G2 G3 G4 G5 G6 G7].
  unfold on_retry at 1, on_queue at 1, m_zoom. rewrite Hscan. rewrite m_bind_eq. unfold m_get at 1.
  cbn [te_retry re_queue]. fold (indexed q' w t1). rewrite (Hidx 0%nat t1 eq_refl).
  destruct (G5 0%nat t1 eq_refl) as [_ ->].
  change (send_outcome send (length (re_sends (te_retry e1)) + 0) url (bytes t1)) with (outcome 0%nat t1).
  destruct (initial_status_failed fl offset_ms t_ms wdir t1 (outcome 0%nat t1)) as [last_error ->].
  eexists. split; [reflexivity|]. split; [exact Hprop|]. split; [exact G3|]. split.
  - intros k t Hk. unfold emit. cbn [te_retry re_queue].
    change (indexed (re_queue _) w t) with (indexed q' w t). rewrite (Hidx k t Hk).
    change (send_outcome send _ url (bytes t)) with (outcome k t).
    destruct (outcome k t) as [err|]; [|done]. eexists. split; [reflexivity|]. apply failed_entry_meta.
  - eexists. split; [cbn; by rewrite G4|]. done.
Qed.

Definition demo_record : ProposalRecord :=
  mkProposalRecord "w1" 0 PROPOSAL_TTL (mkProposal [mkStep [] 10000] "p")
    (mkTransactionSummary "u1dest" RecipientKind.Orchard "150000" "10000" false "160000").

Definition demo_prepared : TxEnv := mkTxEnv {["p1" := demo_record]} ∅ (te_retry demo_send_env).

(** The first transaction times out, the second is accepted. *)
Lemma confirm_send_outcome_witness :
  exists e2,
    confirm_send demo_to_vec demo_from_slice demo_encrypt (fun q => q)
      (fun n _ _ => if Nat.eqb n 0 then None else Some (Ok tt)) (fun _ => "012345678901234567890123")
      (fun _ => 0%Q) demo_send_io 1000000 1 "w1" "/w" "dek" "https://a" "p1" true demo_prepared = (Ok "aa", e2)
    /\ re_sends (te_retry e2) = ["https://a"; "https://a"]
    /\ (exists entry, indexed (re_queue (te_retry e2)) "w1" "aa" = Some entry)
    /\ indexed (re_queue (te_retry e2)) "w1" "bb" = None.
Proof.
  assert (may_spend "w1" 0 (re_db (te_retry demo_prepared))) as Hsp.
  { exists (mkBackupRow "w1" false None None), (mkAccountRow "w1" 0 "main" "Software" 1).
    split; [reflexivity|]. split; [reflexivity|]. split; [reflexivity|]. split; discriminate. }
  assert (NoDup ["aa"; "bb"]) as Hnd by (apply (bool_decide_unpack _); vm_compute; exact I).
  assert (forall t, t ∈ ["aa"; "bb"] -> t <> "" /\ load_transaction demo_send_io t = Ok ("raw-" +:+ t)) as Htx.
  { intros t Ht. apply list_elem_of_In in Ht. destruct Ht as [<-|[<-|[]]]; (split; [discriminate|reflexivity]). }
  destruct (confirm_send_outcome demo_to_vec demo_from_slice demo_encrypt (fun q => q)
    (fun n _ _ => if Nat.eqb n 0 then None else Some (Ok tt)) (fun _ => "012345678901234567890123")
    (fun _ => 0%Q) 1000000 1 1 "w1" "/w" "dek" "https://a" "p1" demo_send_io (fun t => "raw-" +:+ t)
    demo_record "aa" ["bb"] demo_prepared demo_serde_ok (fun k n a m => ex_intro _ _ eq_refl) eq_refl eq_refl
    eq_refl eq_refl eq_refl ltac:(discriminate) Hsp eq_refl eq_refl Hnd Htx) as (e2 & Hc & _ & Hs & Hk & _).
  exists e2. split; [exact Hc|]. split; [exact Hs|]. split.
  - destruct (Hk 0%nat "aa" eq_refl) as (entry & H & _). by exists entry.
  - exact (Hk 1%nat "bb" eq_refl).
Defined.

(** ** The transaction list *)

(** Deleting queued files never fails and leaves the index alone. *)
Lemma delete_keeps_index wdir txid q :
  exists q', delete_queued_broadcast wdir txid q = (Ok tt, q') /\ q_mem q' = q_mem q.
Proof.
  assert (forall p q, q_mem (m_ignore (fs_remove_file p) q).2 = q_mem q) as Hmem.
  { clear. intros p q. unfold m_ignore, fs_remove_file, mbind, M_bind, fs_call, m_get, m_put, m_err.
    destruct (q_faults q) as [|[] fs]; cbn; repeat case_match; done. }
  unfold delete_queued_broadcast. rewrite m_bind_eq. set (p := queued_broadcast_bin_path _ _).
  set (p' := queued_broadcast_meta_path _ _). exists (m_ignore (fs_remove_file p') (m_ignore (fs_remove_file p) q).2).2.
  split; [reflexivity|]. by rewrite !Hmem.
Qed.

Section Listing.
Context (from_slice : string -> option QueuedBroadcastMeta)
        (txid_display : string -> string) (memo_rows : string -> list string)
        (memo_parse : string -> option Memo).
Context (chain_height : option Z) (w : Uuid) (wdir : string) (account_id : Z).

(** The transaction shown for a row, given the index. *)
Definition shown (index : gmap string (gmap string QueuedBroadcastEntry)) (r : ViewRow) (t : TransactionInfo)
    : Prop :=
  let entry := m ← index !! w; m !! txid_display (vr_txid r) in
  ti_txid t = txid_display (vr_txid r) /\ ti_tx_type t = tx_type_of r
  /\ ti_mined_height t = (vr_mined_height r ≫= to_u32)
  /\ (ti_status t, ti_last_error t, ti_can_retry_broadcast t) = queue_status (chain_status chain_height r) entry.

Lemma view_transaction_cases now_ms r e :
  let '(res, e') := view_transaction txid_display memo_rows memo_parse now_ms w wdir account_id
                      chain_height r e in
  te_proposals e' = te_proposals e /\ te_pending e' = te_pending e
  /\ re_sends (te_retry e') = re_sends (te_retry e)
  /\ q_mem (re_queue (te_retry e')) = q_mem (re_queue (te_retry e))
  /\ forall t, res = Ok t -> shown (q_mem (re_queue (te_retry e))) r t.
Proof using Type.
  unfold view_transaction. destruct (negb _); [done|]. rewrite m_bind_eq.
  set (txid := txid_display (vr_txid r)).
  assert (exists e1, (if bool_decide (chain_status chain_height r = TransactionStatus.Expired)
      then on_retry (on_queue (delete_queued_broadcast wdir txid)) else mret tt) e = (Ok tt, e1)
    /\ te_proposals e1 = te_proposals e /\ te_pending e1 = te_pending e
    /\ re_sends (te_retry e1) = re_sends (te_retry e)
    /\ q_mem (re_queue (te_retry e1)) = q_mem (re_queue (te_retry e))) as (e1 & -> & H1 & H2 & H3 & H4).
  { destruct (bool_decide _); [|by eexists]. unfold on_retry, on_queue, m_zoom.
    destruct (delete_keeps_index wdir txid (re_queue (te_retry e))) as (q' & -> & Hq). by eexists. }
  rewrite m_bind_eq. unfold m_get. destruct (queue_status _ _) as [[st err] retry] eqn:Eq.
  do 4 (split; [done|]). intros t [= <-]. do 3 (split; [done|]). rewrite <- H4. symmetry. exact Eq.
Qed.

Lemma view_transactions_cases now_ms rows e :
  let '(res, e') := view_transactions txid_display memo_rows memo_parse now_ms w wdir account_id
                      chain_height rows e in
  te_proposals e' = te_proposals e /\ te_pending e' = te_pending e
  /\ re_sends (te_retry e') = re_sends (te_retry e)
  /\ q_mem (re_queue (te_retry e')) = q_mem (re_queue (te_retry e))
  /\ forall ts, res = Ok ts -> Forall2 (shown (q_mem (re_queue (te_retry e)))) rows ts.
Proof using Type.
  revert e. induction rows as [|r l IH]; intros e; cbn [view_transactions].
  { do 4 (split; [done|]). intros ts [= <-]. constructor. }
  rewrite m_bind_eq. pose proof (view_transaction_cases now_ms r e) as Hv.
  destruct (view_transaction _ _ _ _ _ _ _ _ _ e) as [[t|err] e1]; destruct Hv as (H1 & H2 & H3 & H4 & Ht);
    [|by do 4 (split; [done|])].
  rewrite m_bind_eq. specialize (IH e1).
  destruct (view_transactions _ _ _ _ _ _ _ _ l e1) as [[ts|err] e2]; destruct IH as (G1 & G2 & G3 & G4 & Hts);
    unfold mret, M_ret; (do 4 (split; [congruence|])); [|done].
  intros ts' [= <-]. constructor; [by apply Ht|]. rewrite <- H4. by apply Hts.
Qed.
End Listing.

(** The statuses, from the two decisions. *)
Lemma status_table (mined expired : Prop) chain_height r (t : TransactionInfo) entry :
  (mined <-> is_Some (vr_mined_height r ≫= to_u32)) ->
  (expired <-> exists x h, (vr_expiry_height r ≫= to_u32) = Some x /\ chain_height = Some h /\ x < h) ->
  (ti_status t, ti_last_error t, ti_can_retry_broadcast t) = queue_status (chain_status chain_height r) entry ->
  (ti_status t = TransactionStatus.Confirmed <-> mined)
  /\ (ti_status t = TransactionStatus.Expired <-> ~ mined /\ expired)
  /\ (ti_status t = TransactionStatus.Failed <-> ~ mined /\ ~ expired /\ is_Some entry)
  /\ (ti_can_retry_broadcast t = true <->
      ti_status t = TransactionStatus.Failed
      /\ exists en, entry = Some en /\ qm_retryable (qe_meta en) = true).
Proof.
  intros Hm Hx Hq.
  assert (chain_status chain_height r = TransactionStatus.Confirmed /\ mined
    \/ chain_status chain_height r = TransactionStatus.Expired /\ ~ mined /\ expired
    \/ chain_status chain_height r = TransactionStatus.Pending /\ ~ mined /\ ~ expired) as Hc.
  { unfold chain_status. destruct (vr_mined_height r ≫= to_u32) as [n|].
    { left. split; [done|]. apply Hm. eauto. }
    assert (~ mined) as Hnm by (rewrite Hm; by intros [? [=]]).
    destruct (vr_expiry_height r ≫= to_u32) as [x|].
    2:{ right; right. split; [done|]. split; [done|]. rewrite Hx. by intros (? & ? & [=] & _). }
    destruct chain_height as [h|].
    2:{ right; right. split; [done|]. split; [done|]. rewrite Hx. by intros (? & ? & _ & [=] & _). }
    destruct (x <? h) eqn:El; right; [left|right]; (split; [done|]); (split; [done|]); rewrite Hx.
    - exists x, h. split; [done|]. split; [done|]. lia.
    - intros (x' & h' & [= <-] & [= <-] & Hl). lia. }
  clear Hm Hx. destruct t; cbn in *.
  destruct Hc as [[Hc Hd]|[[Hc [Hd He]]|[Hc [Hd He]]]]; rewrite Hc in Hq; cbn in Hq;
    destruct entry as [en|]; injection Hq as -> -> ->;
    (split; [by split|]); (split; [split; intuition discriminate|]);
    (split; [split; intuition (try discriminate; try (by destruct (is_Some_None (A := QueuedBroadcastEntry))); eauto)|]);
    split; intros H;
    try discriminate H; try (destruct H as [H1 (en' & [= <-] & H2)]; congruence);
    try (destruct H as [[=] _]); try (split; [reflexivity|eauto]).
  all: destruct H as [_ (? & [=] & _)].
Qed.

(** What the transaction list shows, a page of the account's transactions
    from the newest: a mined transaction is confirmed; one that is not and
    whose expiry lies below the chain tip is expired; any other one is failed
    exactly when it is in the queue of failed broadcasts, and only then can it
    be retried, if its entry is retryable.  Listing sends nothing and touches
    no proposal. *)
Theorem list_transactions_statuses (from_slice : string -> option QueuedBroadcastMeta)
    (txid_display : string -> string) (memo_rows : string -> list string) (memo_parse : string -> option Memo)
    (io : SendIo) (rows : string -> list ViewRow) (chain_height : option Z) (now now_ms : Z) (w : Uuid)
    (wdir : string) (account_id : Z) (limit offset : nat) (e : TxEnv) :
  let '(res, e') := list_transactions from_slice txid_display memo_rows memo_parse io rows chain_height now
                      now_ms w wdir account_id limit offset e in
  te_proposals e' = te_proposals e /\ te_pending e' = te_pending e
  /\ re_sends (te_retry e') = re_sends (te_retry e)
  /\ forall ts total, res = Ok (ts, total) ->
     exists account, resolve_wallet_account_uuid io account_id = Ok account /\
     Forall2 (fun r t =>
       let entry := indexed (re_queue (te_retry e')) w (txid_display (vr_txid r)) in
       let mined := is_Some (vr_mined_height r ≫= to_u32) in
       let expired := exists x h, (vr_expiry_height r ≫= to_u32) = Some x /\ chain_height = Some h /\ x < h in
       ti_txid t = txid_display (vr_txid r)
       /\ (ti_status t = TransactionStatus.Confirmed <-> mined)
       /\ (ti_status t = TransactionStatus.Expired <-> ~ mined /\ expired)
       /\ (ti_status t = TransactionStatus.Failed <-> ~ mined /\ ~ expired /\ is_Some entry)
       /\ (ti_can_retry_broadcast t = true <->
           ti_status t = TransactionStatus.Failed
           /\ exists en, entry = Some en /\ qm_retryable (qe_meta en) = true))
       (take limit (drop offset (isort view_order (rows account)))) ts.
Proof.
  unfold list_transactions. rewrite m_bind_eq.
  assert (exists r1 q1, on_retry (on_queue (scan_queued_broadcasts from_slice now w wdir)) e
    = (r1, mkTxEnv (te_proposals e) (te_pending e)
             (mkRetryEnv q1 (re_db (te_retry e)) (re_events (te_retry e)) (re_sends (te_retry e)))))
    as (r1 & q1 & ->).
  { unfold on_retry, on_queue, m_zoom. destruct (scan_queued_broadcasts _ _ _ _ _) as [r1 q1]. by eexists _, _. }
  destruct r1 as [[]|err]; [|done]. rewrite m_bind_eq. unfold m_lift.
  destruct (resolve_wallet_account_uuid io account_id) as [account|err]; [|done]. cbn [with_context].
  set (page := take limit _). rewrite m_bind_eq.
  match goal with |- context [view_transactions _ _ _ _ _ _ _ _ _ ?x] => set (e1 := x) end.
  pose proof (view_transactions_cases txid_display memo_rows memo_parse chain_height w wdir account_id now_ms
    page e1) as Hv.
  destruct (view_transactions _ _ _ _ _ _ _ _ page e1) as [[ts|err] e2];
    destruct Hv as (H1 & H2 & H3 & H4 & Hts); [|done].
  do 3 (split; [done|]). intros ts' total [= <- <-]. exists account. split; [done|].
  eapply Forall2_impl; [by apply Hts|]. intros r t (Ht & _ & _ & Hq). cbn zeta. unfold indexed. rewrite H4.
  set (entry := (m ← q_mem (re_queue (te_retry e1)) !! w; m !! txid_display (vr_txid r))) in *.
  split; [done|]. apply (status_table _ _ chain_height r); [done..|exact Hq].
Qed.
