(* ===== verification/JobOutcome.v ===== *)
(** The outcome of a background send job ([job_service.rs]) that is left
    alone: what it sends, what it leaves in the queue of broadcasts, and the
    record it ends with. *)
From S2P Require Import Prelude Text Domain AppDb Broadcast Servers BroadcastQueue Jobs JobSafety Sends SendSafety.
From Stdlib Require Import QArith.
Open Scope Z_scope.




Section Outcome.
Context (to_vec_pretty : QueuedBroadcastMeta -> string) (from_slice : string -> option QueuedBroadcastMeta)
        (aead_encrypt aead_decrypt : string -> string -> string -> string -> option string) (fl : Q -> Q).
Context (serde_ok : forall m, from_slice (to_vec_pretty m) = Some m).
Context (aead_ok : forall k n a m c, aead_encrypt k n a m = Some c -> aead_decrypt k n a c = Some m).
Context (aead_total : forall k n a m, is_Some (aead_encrypt k n a m)).
Context (t : Task) (id : string).

#[local] Abbreviation step := (tstep to_vec_pretty aead_encrypt fl id).







End Outcome.




