(* ===== verification/Shielding.v ===== *)
(** Direct shielding ([TxService::shield_funds] of [tx_service.rs]): the
    transparent outputs of an account are swept into Orchard in batches, each
    batch one proposal whose transactions are sent at once.

    The wallet library is a parameter, as in [Sends]; [ShieldIo] holds its
    answers.  The clock is read once. *)
From S2P Require Import Prelude Text Domain AppDb Broadcast Servers BroadcastQueue Jobs JobSafety.
From S2P Require Import Sends SendSafety.
From Stdlib Require Import QArith.
Open Scope Z_scope.

(** ** The wallet library *)

(** [ChangeStrategy::compute_balance]: the fee, or one of its errors. *)
Inductive ChangeOutcome :=
| ChangeOk (fee_required : Z)
| ChangeDust (transparent : list string)
| ChangeInsufficient (available required : Z)
| ChangeOther (e : string).

Record ShieldIo := mkShieldIo {
  (** The accounts, [create_proposed_transactions], [get_transaction] and
      [Transaction::write]. *)
  sh_send : SendIo;
  (** [get_transparent_receivers] of an account. *)
  sh_receivers : string -> string + list string;
  sh_chain_height : string + option Z;
  (** [get_spendable_transparent_outputs] of an address at a target height. *)
  sh_outputs : string -> Z -> string + list Utxo;
  (** [fetch_wallet_meta], before the [n]-th batch. *)
  sh_wallet_meta : nat -> string + unit;
  sh_compute_balance : list Utxo -> ChangeOutcome;
  (** [Proposal::single_step] on the inputs and their balance. *)
  sh_single_step : list Utxo -> Z -> string + Proposal;
}.

(** ** Inputs and batches *)

Fixpoint list_outputs (io : ShieldIo) (target_height : Z) (from_addrs : list string)
    : result (list Utxo) :=
  match from_addrs with
  | [] => Ok []
  | addr :: addrs =>
      outputs ← anyhow_context "failed to list transparent outputs" (sh_outputs io addr target_height);
      rest ← list_outputs io target_height addrs;
      Ok (outputs ++ rest)%list
  end.

Definition no_transparent_funds : error :=
  ipc_err errors.INSUFFICIENT_FUNDS "no transparent funds to shield".

(** From the account to its spendable transparent outputs. *)
Definition transparent_inputs (io : ShieldIo) (account_id : Z) : result (list Utxo) :=
  account_uuid ← with_context "failed to resolve wallet account"
                   (resolve_wallet_account_uuid (sh_send io) account_id);
  from_addrs ← anyhow_context "failed to list transparent receivers" (sh_receivers io account_uuid);
  height ← anyhow_context "failed to read chain height" (sh_chain_height io);
  tip ← ok_or height (ipc_err errors.TRANSACTION_FAILED "must scan blocks first");
  inputs ← list_outputs io (u32_saturating_add tip 1) from_addrs;
  if bool_decide (inputs = []) then Err no_transparent_funds else Ok inputs.

(** The loop that drops dust from a batch: the inputs left and their fee, no
    input left, or an error.  [None] when it has not ended after [fuel]
    turns.  (The amounts that [ChangeInsufficient] carries are the details
    of the error.) *)
Fixpoint select_inputs (io : ShieldIo) (fuel : nat) (input_selection : list Utxo)
    : option (result (option (list Utxo * Z))) :=
  match fuel with
  | O => None
  | S fuel' =>
      match sh_compute_balance io input_selection with
      | ChangeOk fee => Some (Ok (Some (input_selection, fee)))
      | ChangeDust exclusions =>
          let input_selection := filter (fun u => u_outpoint u ∉ exclusions) input_selection in
          if bool_decide (input_selection = []) then Some (Ok None)
          else select_inputs io fuel' input_selection
      | ChangeInsufficient _ _ =>
          Some (Err (ipc_err errors.INSUFFICIENT_FUNDS
                       "insufficient transparent balance to cover shielding fee"))
      | ChangeOther e =>
          Some (Err (ipc_err errors.TRANSACTION_FAILED
                       ("failed to compute shielding balance: " +:+ e)))
      end
  end.

(** What is sent for a batch. *)
Record ShieldPlan := mkShieldPlan {
  pl_txids : list string;
  pl_inputs : list Utxo;
  pl_fee : Z;
}.

Definition input_total (inputs : list Utxo) : Z :=
  foldl (fun acc u => u64_saturating_add acc (u_value u)) 0 inputs.

Definition build_batch (io : ShieldIo) (inputs : list Utxo) (fee : Z) : result ShieldPlan :=
  proposal ← match sh_single_step io inputs fee with
             | inr p => Ok p
             | inl e => Err (ipc_err errors.TRANSACTION_FAILED ("invalid shielding proposal: " +:+ e))
             end;
  match si_create (sh_send io) proposal with
  | inr (first, rest) => Ok (mkShieldPlan (first :: rest) inputs fee)
  | inl e => Err (ipc_err errors.TRANSACTION_FAILED ("failed to build shielding tx: " +:+ e))
  end.

(** One turn of the loop over the batches, up to the broadcast: nothing for
    an empty batch or one of dust only. *)
Definition plan_batch (io : ShieldIo) (n : nat) (batch : list Utxo) : option (result (option ShieldPlan)) :=
  if bool_decide (batch = []) then Some (Ok None)
  else
    match anyhow_context "failed to load wallet metadata for shielding" (sh_wallet_meta io n) with
    | Err e => Some (Err e)
    | Ok _ =>
        selected ← select_inputs io (length batch) batch;
        match selected with
        | Err e => Some (Err e)
        | Ok None => Some (Ok None)
        | Ok (Some (inputs, fee)) =>
            if bool_decide (inputs = []) then Some (Ok None)
            else Some (plan ← build_batch io inputs fee; Ok (Some plan))
        end
    end.

(** ** The operation *)

Record ShieldFundsResponse := mkShieldFundsResponse { sr_txid : string; sr_fee : string }.

Section Shielding.
Context (to_vec_pretty : QueuedBroadcastMeta -> string)
        (from_slice : string -> option QueuedBroadcastMeta)
        (aead_encrypt : string -> string -> string -> string -> option string) (fl : Q -> Q)
        (send : nat -> string -> string -> option (result unit))
        (nonce : string -> string) (offset_ms : string -> Q).
Context (io : ShieldIo) (now now_ms : Z) (wallet_id : Uuid) (wallet_dir wallet_dek grpc_url : string)
        (account_id : Z) (on_tx_changed : bool).

(** [primary_txid] with [primary_fee], and [broadcast_errors]. *)
Definition ShieldAcc : Type := option (string * Z) * gmap string string.

Definition shield_event (plan : ShieldPlan) (broadcast_errors : gmap string string) (txid : string)
    (e : TxEnv) : Event :=
  let queued := m ← q_mem (re_queue (te_retry e)) !! wallet_id; m !! txid in
  let '(status, last_error, can_retry_broadcast) := initial_status queued (broadcast_errors !! txid) in
  TransactionChangedEvent
    (mkTransactionInfo txid account_id TransactionType.Shield
       (uint_to_string (u64_saturating_sub (input_total (pl_inputs plan)) (pl_fee plan)))
       (uint_to_string (pl_fee plan)) 0 [] status last_error can_retry_broadcast None now_ms None).

(** The body of the loop over the transactions of a batch. *)
Definition shield_tx (plan : ShieldPlan) (txid : string) (acc : ShieldAcc) : M TxEnv ShieldAcc :=
  let '(primary, broadcast_errors) := acc in
  tx_bytes ← m_lift (load_transaction (sh_send io) txid);
  failed ← broadcast_or_queue to_vec_pretty aead_encrypt fl send nonce offset_ms now wallet_id wallet_dir
             wallet_dek grpc_url txid tx_bytes;
  let broadcast_errors := match failed with
                          | Some err_msg => <[txid := err_msg]> broadcast_errors
                          | None => broadcast_errors
                          end in
  let primary := match primary with Some p => Some p | None => Some (txid, pl_fee plan) end in
  on_retry (on_queue (scan_queued_broadcasts from_slice now wallet_id wallet_dir)) ;;
  e ← m_get;
  (if on_tx_changed then on_retry (emit (shield_event plan broadcast_errors txid e)) else mret tt) ;;
  mret (primary, broadcast_errors).

Fixpoint shield_txs (plan : ShieldPlan) (txids : list string) (acc : ShieldAcc) : M TxEnv ShieldAcc :=
  match txids with
  | [] => mret acc
  | txid :: txids' => acc ← shield_tx plan txid acc; shield_txs plan txids' acc
  end.

(** The loop over the batches; [None] when the selection of one does not end. *)
Fixpoint shield_batches (n : nat) (batches : list (list Utxo)) (acc : ShieldAcc)
    : M TxEnv (option ShieldAcc) :=
  match batches with
  | [] => mret (Some acc)
  | batch :: batches' =>
      match plan_batch io n batch with
      | None => mret None
      | Some planned =>
          plan ← m_lift planned;
          acc ← match plan with Some p => shield_txs p (pl_txids p) acc | None => mret acc end;
          shield_batches (S n) batches' acc
      end
  end.

Definition shield_funds : M TxEnv (option ShieldFundsResponse) :=
  m_context "failed to open app db for shield policy checks" (on_retry (on_db db_stmt)) ;;
  on_retry (on_db (ensure_spend_allowed_conn wallet_id account_id)) ;;
  inputs ← m_lift (transparent_inputs io account_id);
  acc ← shield_batches 0 (chunks MAX_SHIELDING_INPUTS_PER_TX inputs) (None, ∅);
  match acc with
  | None => mret None
  | Some (None, _) => m_err no_transparent_funds
  | Some (Some (txid, fee), _) => mret (Some (mkShieldFundsResponse txid (uint_to_string fee)))
  end.
End Shielding.
