(* ===== verification/ShieldSafety.v ===== *)
(** Correctness of direct shielding: what it asks for, how inputs are
    selected, and what is sent, queued and reported. *)
From S2P Require Import Prelude Text Domain AppDb Broadcast Servers BroadcastQueue Jobs JobSafety.
From S2P Require Import Sends SendSafety Shielding.
From Stdlib Require Import QArith.
Open Scope Z_scope.

(** ** Selection *)

(** Dust reported for a selection is part of it. *)
Definition dust_selected (io : ShieldIo) : Prop := forall sel ex,
  sh_compute_balance io sel = ChangeDust ex -> exists u, u ∈ sel /\ u_outpoint u ∈ ex.

Lemma select_inputs_ends io fuel sel :
  dust_selected io -> sel <> [] -> (length sel <= fuel)%nat -> is_Some (select_inputs io fuel sel).
Proof.
  intros Hdust. revert sel. induction fuel as [|fuel IH]; intros sel Hne Hlen.
  { destruct sel; [done|cbn in Hlen; lia]. }
  cbn [select_inputs]. destruct (sh_compute_balance io sel) as [fee|ex|av rq|e] eqn:Eb; [by eauto| |by eauto..].
  case_bool_decide as He; [by eauto|]. apply IH; [done|].
  destruct (Hdust _ _ Eb) as (u & Hu & Hx). pose proof (filter_shorter sel ex u Hu Hx). lia.
Qed.

(** The inputs dropped from a selection, each reported as dust. *)
Definition reported_dust (io : ShieldIo) (u : Utxo) : Prop :=
  exists sel ex, u ∈ sel /\ sh_compute_balance io sel = ChangeDust ex /\ u_outpoint u ∈ ex.

(** What the loop keeps of a batch: inputs in their order, with a fee the
    library computed for exactly those; whatever it drops is dust. *)
Lemma select_inputs_sound io fuel sel r :
  select_inputs io fuel sel = Some (Ok r) -> sel <> [] ->
  match r with
  | Some (l, fee) => l <> [] /\ sublist l sel /\ sh_compute_balance io l = ChangeOk fee
                     /\ forall u, u ∈ sel -> u ∈ l \/ reported_dust io u
  | None => forall u, u ∈ sel -> reported_dust io u
  end.
Proof.
  revert sel. induction fuel as [|fuel IH]; intros sel; [done|]. cbn [select_inputs].
  destruct (sh_compute_balance io sel) as [fee|ex|av rq|e] eqn:Eb; [|cbn zeta|done..].
  { intros [= <-] Hne. do 3 (split; [done|]). auto. }
  set (sel' := filter _ sel).
  assert (forall u, u ∈ sel -> u ∈ sel' \/ reported_dust io u) as Hdrop.
  { intros u Hu. destruct (decide (u_outpoint u ∈ ex)) as [Hx|Hx].
    - right. exists sel, ex. done.
    - left. by apply list_elem_of_filter. }
  case_bool_decide as He.
  { intros [= <-] _ u Hu. destruct (Hdrop u Hu) as [H|]; [|done]. rewrite He in H. by apply elem_of_nil in H. }
  intros Hs _. specialize (IH _ Hs He). destruct r as [[l fee]|].
  - destruct IH as (Hl & Hsub & Hok & Hd). split; [done|]. split; [|split; [done|]].
    + etrans; [exact Hsub|]. apply sublist_filter.
    + intros u Hu. destruct (Hdrop u Hu) as [H|]; auto.
  - intros u Hu. destruct (Hdrop u Hu) as [H|]; auto.
Qed.

(** ** The plan of a run *)

(** The batches in order, up to the first that fails. *)
Fixpoint shield_plan (io : ShieldIo) (n : nat) (batches : list (list Utxo))
    : list ShieldPlan * option error :=
  match batches with
  | [] => ([], None)
  | batch :: batches' =>
      match plan_batch io n batch with
      | None => ([], None)
      | Some (Err err) => ([], Some err)
      | Some (Ok plan) =>
          let '(plans, stop) := shield_plan io (S n) batches' in
          (match plan with Some p => p :: plans | None => plans end, stop)
      end
  end.

Definition sweep (io : ShieldIo) (inputs : list Utxo) : list ShieldPlan * option error :=
  shield_plan io 0 (chunks MAX_SHIELDING_INPUTS_PER_TX inputs).

Lemma plan_batch_ends io n batch : dust_selected io -> is_Some (plan_batch io n batch).
Proof.
  intros Hdust. unfold plan_batch. case_bool_decide as Hb; [by eauto|].
  destruct (anyhow_context _ _); [|by eauto].
  destruct (select_inputs_ends io (length batch) batch Hdust Hb ltac:(done)) as [r ->]. cbn.
  destruct r as [[[l fee]|]|e]; [case_bool_decide|..]; eauto.
Qed.

Lemma plan_batch_sound io n batch r :
  plan_batch io n batch = Some (Ok r) ->
  match r with
  | Some p => pl_txids p <> [] /\ pl_inputs p <> [] /\ sublist (pl_inputs p) batch
              /\ sh_compute_balance io (pl_inputs p) = ChangeOk (pl_fee p)
              /\ forall u, u ∈ batch -> u ∈ pl_inputs p \/ reported_dust io u
  | None => forall u, u ∈ batch -> reported_dust io u
  end.
Proof.
  unfold plan_batch. case_bool_decide as Hb.
  { intros [= <-]. subst. by intros u Hu%elem_of_nil. }
  destruct (anyhow_context _ _); [|done].
  destruct (select_inputs io (length batch) batch) as [sel|] eqn:Es; [cbn|done].
  destruct sel as [sel|err]; [|done]. apply select_inputs_sound in Es; [|done].
  destruct sel as [[l fee]|]; [|by intros [= <-]].
  destruct Es as (Hl & Hsub & Hok & Hd). rewrite bool_decide_eq_false_2 by done. unfold build_batch.
  destruct (sh_single_step io l fee) as [|p]; [done|]. cbn.
  destruct (si_create (sh_send io) p) as [|[first rest]]; [done|]. intros [= <-]. cbn. done.
Qed.


(** The plans use inputs of the batches, each at most once. *)
Lemma shield_plan_sound io n batches :
  let '(plans, stop) := shield_plan io n batches in
  sublist (concat (map pl_inputs plans)) (concat batches)
  /\ Forall (fun p => pl_txids p <> [] /\ pl_inputs p <> []
               /\ sh_compute_balance io (pl_inputs p) = ChangeOk (pl_fee p)) plans
  /\ (dust_selected io -> stop = None ->
      forall u, u ∈ concat batches -> u ∈ concat (map pl_inputs plans) \/ reported_dust io u).
Proof.
  revert n. induction batches as [|b batches IH]; intros n; cbn [shield_plan].
  { split; [constructor|]. split; [constructor|]. by intros _ _ u Hu%elem_of_nil. }
  destruct (plan_batch io n b) as [[plan|err]|] eqn:Ep.
  - apply plan_batch_sound in Ep. specialize (IH (S n)). destruct (shield_plan io (S n) batches) as [plans stop].
    destruct IH as (Hs & Hf & Hd). destruct plan as [p|]; cbn.
    + destruct Ep as (H1 & H2 & H3 & H4 & H5). split; [by apply sublist_app|]. split; [by constructor|].
      intros Hdust Hst u [Hu|Hu]%elem_of_app.
      * destruct (H5 u Hu); [left; apply elem_of_app; by left|by right].
      * destruct (Hd Hdust Hst u Hu); [left; apply elem_of_app; by right|by right].
    + split; [by apply sublist_inserts_l|]. split; [done|].
      intros Hdust Hst u [Hu|Hu]%elem_of_app; auto.
  - split; [apply sublist_nil_l|]. done.
  - split; [apply sublist_nil_l|]. split; [done|]. intros Hdust.
    destruct (plan_batch_ends io n b Hdust) as [? H]. congruence.
Qed.

(** How transparent funds are swept.  Whatever the wallet library answers,
    the transactions spend outputs of the account, none twice, each at the
    fee the library computed for exactly its inputs, at most 200 inputs per
    proposal; and unless a batch fails, every output is spent or was reported
    as dust. *)
Theorem sweep_uses_inputs_once (io : ShieldIo) (inputs : list Utxo) :
  let '(plans, stop) := sweep io inputs in
  sublist (concat (map pl_inputs plans)) inputs
  /\ (NoDup inputs -> NoDup (concat (map pl_inputs plans)))
  /\ Forall (fun p => pl_txids p <> [] /\ pl_inputs p <> []
               /\ sh_compute_balance io (pl_inputs p) = ChangeOk (pl_fee p)) plans
  /\ (dust_selected io -> stop = None ->
      forall u, u ∈ inputs -> u ∈ concat (map pl_inputs plans) \/ reported_dust io u).
Proof.
  unfold sweep. pose proof (shield_plan_sound io 0 (chunks MAX_SHIELDING_INPUTS_PER_TX inputs)) as H.
  destruct (chunks_aux_spec (length inputs) MAX_SHIELDING_INPUTS_PER_TX inputs) as [Hc _];
    [unfold MAX_SHIELDING_INPUTS_PER_TX; lia|lia|].
  destruct (shield_plan _ _ _) as [plans stop]. unfold chunks in H. rewrite Hc in H.
  destruct H as (H1 & H2 & H3). split; [done|]. split; [|done].
  intros Hnd. by eapply sublist_NoDup.
Qed.

(** ** Scanning between broadcasts *)

(** A scan only deletes files. *)
Definition shrinks (q q' : QueueState) : Prop := forall p, file_at q p = None -> file_at q' p = None.

#[local] Instance shrinks_preorder : PreOrder shrinks.
Proof. split; [by intros q p|]. intros q1 q2 q3 H1 H2 p Hp. auto. Qed.

Lemma same_disk_shrinks q q' : q_disk q' = q_disk q -> shrinks q q'.
Proof. intros Hd p. unfold file_at. by rewrite Hd. Qed.

Lemma fs_call_shrinks : m_pres shrinks fs_call.
Proof. intros q. apply same_disk_shrinks. unfold fs_call. by destruct (q_faults q) as [|[] ?]. Qed.

Lemma remove_shrinks p : m_pres shrinks (fs_remove_file p).
Proof.
  unfold fs_remove_file. apply m_pres_bind; [apply _|apply fs_call_shrinks|]. intros _ q. cbn.
  rewrite m_get_bind. destruct (file_at q p) as [x|]; [|by intros p'].
  intros [d n]. unfold file_at. cbn. destruct (decide (d = p.1)) as [->|Hd].
  - rewrite lookup_alter_eq. destruct (q_disk q !! p.1) as [files|]; [|done]. cbn. intros Hn.
    apply lookup_delete_None. by right.
  - by rewrite lookup_alter_ne.
Qed.

Lemma read_shrinks p : m_pres shrinks (fs_read p).
Proof. pose proof fs_call_shrinks. unfold fs_read. m_pres_auto. Qed.

Lemma scan_entry_shrinks from_slice qd now now_ms entries name :
  m_pres shrinks (scan_entry from_slice qd now now_ms entries name).
Proof.
  unfold scan_entry. pose proof remove_shrinks. pose proof read_shrinks.
  repeat (case_match; try (m_pres_auto; fail)).
Qed.

Lemma scan_shrinks from_slice now w wdir : m_pres shrinks (scan_queued_broadcasts from_slice now w wdir).
Proof.
  unfold scan_queued_broadcasts. apply m_pres_get_bind. intros q.
  destruct (q_disk q !! _) as [files|]; [|by apply same_disk_shrinks].
  match goal with |- shrinks q (?m q).2 => assert (m_pres shrinks m) as Hm; [|apply Hm] end.
  unfold scan_dir_entry. pose proof fs_call_shrinks. pose proof scan_entry_shrinks. m_pres_auto. intros q1. by apply same_disk_shrinks.
Qed.

Section Outcome.
Context (to_vec_pretty : QueuedBroadcastMeta -> string)
        (from_slice : string -> option QueuedBroadcastMeta)
        (aead_encrypt : string -> string -> string -> string -> option string) (fl : Q -> Q)
        (send : nat -> string -> string -> option (result unit))
        (nonce : string -> string) (offset_ms : string -> Q).
Context (serde_ok : forall m, from_slice (to_vec_pretty m) = Some m).
Context (aead_total : forall k n a m, is_Some (aead_encrypt k n a m)).
Context (now t_ms : Z) (Hnow : to_unix_ms now = Ok t_ms) (w : Uuid) (wdir dek url : string).

Let stored := SendSafety.stored to_vec_pretty fl offset_ms t_ms wdir.
Let failed_entry := SendSafety.failed_entry fl offset_ms t_ms wdir.
Let dir : string := queued_broadcasts_dir wdir.

(** A scan keeps what was stored for a transaction, and indexes it. *)
Lemma scan_keeps_stored q t failed :
  q_faults q = [] -> t <> "" -> stored t failed q ->
  exists q', scan_queued_broadcasts from_slice now w wdir q = (Ok tt, q') /\ q_faults q' = []
    /\ stored t failed q' /\ indexed q' w t = failed_entry t <$> failed.
Proof using Hnow serde_ok.
  intros Hf Ht Hst.
  destruct (scan_stored to_vec_pretty from_slice fl offset_ms serde_ok now t_ms Hnow w wdir q t failed Hf Ht Hst)
    as (q' & Hscan & Hi).
  exists q'. split; [done|]. fold (indexed q' w t) in Hi.
  destruct (q_disk q !! dir) as [files|] eqn:Ed.
  - destruct (scan_exact from_slice now t_ms w wdir q files Hf Hnow Ed)
      as (q2 & entries & Hs & Hf2 & Hmem & He & Hkeep).
    rewrite Hscan in Hs. injection Hs as <-. split; [done|]. split; [|done].
    destruct failed as [err|].
    + eapply stored_frame; [|exact Hst].
      assert (is_Some (entries !! t)) as Hs.
      { unfold indexed in Hi. rewrite Hmem, lookup_insert_eq in Hi. cbn in Hi. rewrite Hi. cbn. by eauto. }
      destruct (Hkeep t Ht Hs) as [Hb Hj]. by intros p [-> | ->].
    + pose proof (scan_shrinks from_slice now w wdir q) as Hsh. rewrite Hscan in Hsh.
      destruct Hst as [H1 H2]. split; by apply Hsh.
  - revert Hscan. unfold scan_queued_broadcasts. fold dir. rewrite m_get_bind, Ed.
    intros [= <-]. split; [done|]. split; [|done].
    eapply stored_frame; [|exact Hst]. done.
Qed.

Context (io : ShieldIo) (bytes : string -> string) (now_ms account_id : Z).

Let outcome (n k : nat) (t : string) : option string := send_outcome send (n + k) url (bytes t).

(** The event of the [k]-th transaction of a run. *)
Definition shield_info (n k : nat) (x : ShieldPlan * string) : TransactionInfo :=
  let '(plan, t) := x in
  let o := outcome n k t in
  let '(status, last_error, can_retry) := initial_status (failed_entry t <$> o) o in
  mkTransactionInfo t account_id TransactionType.Shield
    (uint_to_string (u64_saturating_sub (input_total (pl_inputs plan)) (pl_fee plan)))
    (uint_to_string (pl_fee plan)) 0 [] status last_error can_retry None now_ms None.

Lemma shield_info_shows n k p t :
  let info := shield_info n k (p, t) in
  ti_txid info = t /\ ti_tx_type info = TransactionType.Shield
  /\ ti_value info = uint_to_string (u64_saturating_sub (input_total (pl_inputs p)) (pl_fee p))
  /\ ti_fee info = uint_to_string (pl_fee p)
  /\ ti_status info = (if bool_decide (is_Some (outcome n k t)) then TransactionStatus.Failed
                       else TransactionStatus.Pending).
Proof using Type.
  cbn zeta. unfold shield_info.
  destruct (initial_status_failed fl offset_ms t_ms wdir t (outcome n k t)) as [last_error Hi].
  change (SendSafety.failed_entry fl offset_ms t_ms wdir t) with (failed_entry t) in Hi. by rewrite Hi.
Qed.

(** Where a run stands after the transactions [sent]. *)
Record shielded (e0 e : TxEnv) (sent : list (ShieldPlan * string)) (acc : ShieldAcc) : Prop := {
  sd_tables : te_proposals e = te_proposals e0 /\ te_pending e = te_pending e0;
  sd_faults : q_faults (re_queue (te_retry e)) = [];
  sd_sends : re_sends (te_retry e) = (re_sends (te_retry e0) ++ replicate (length sent) url)%list;
  sd_events : re_events (te_retry e)
    = (re_events (te_retry e0)
       ++ map TransactionChangedEvent (imap (shield_info (length (re_sends (te_retry e0)))) sent))%list;
  sd_stored : forall k p t, sent !! k = Some (p, t) ->
    t <> "" /\ stored t (outcome (length (re_sends (te_retry e0))) k t) (re_queue (te_retry e))
    /\ indexed (re_queue (te_retry e)) w t
       = failed_entry t <$> outcome (length (re_sends (te_retry e0))) k t;
  sd_primary : acc.1 = (fun x => (x.2, pl_fee x.1)) <$> head sent;
  sd_errors : forall t, t ∉ map snd sent -> acc.2 !! t = None;
}.

Lemma shielded_start e : q_faults (re_queue (te_retry e)) = [] -> shielded e e [] (None, ∅).
Proof using Type. intros Hf. split; try done. all: cbn; by rewrite app_nil_r. Qed.

Lemma shield_tx_quiet e0 e sent acc plan t :
  shielded e0 e sent acc -> t ∉ map snd sent -> t <> "" ->
  load_transaction (sh_send io) t = Ok (bytes t) ->
  exists e' acc',
    shield_tx to_vec_pretty from_slice aead_encrypt fl send nonce offset_ms io now now_ms w wdir dek url
      account_id true plan t acc e = (Ok acc', e')
    /\ shielded e0 e' (sent ++ [(plan, t)])%list acc'.
Proof using Hnow aead_total serde_ok.
  intros [Htab Hf Hsends Hev Hst Hpr Herr] Hnew Ht Hload. destruct acc as [primary errs]. cbn in Hpr, Herr.
  unfold shield_tx. rewrite m_bind_eq. unfold m_lift. rewrite Hload, m_bind_eq.
  pose proof (keeps_broadcast_or_queue to_vec_pretty aead_encrypt fl send nonce offset_ms now w wdir dek url t
    (bytes t) e) as [Hk1 Hk2].
  destruct (broadcast_or_queue_quiet to_vec_pretty aead_encrypt fl send nonce offset_ms aead_total now t_ms Hnow
    w wdir dek url t (bytes t) e Hf) as (e1 & He1 & [B1 B2 B3 B4 B5 B6]).
  rewrite He1 in Hk1, Hk2 |- *. cbn [snd] in Hk1, Hk2.
  rewrite Hsends, length_app, length_replicate in B5. rewrite Hsends, length_app, length_replicate.
  set (n := length (re_sends (te_retry e0))) in *.
  change (send_outcome send (n + length sent) url (bytes t)) with (outcome n (length sent) t) in *.
  set (o := outcome n (length sent) t) in *. cbv zeta. rewrite m_bind_eq.
  set (errs1 := match o with Some err_msg => _ | None => _ end).
  assert (errs1 !! t = o) as Hlook.
  { unfold errs1. destruct o; [apply lookup_insert_eq|by apply Herr]. }
  destruct (scan_keeps_stored (re_queue (te_retry e1)) t o B1 Ht B5) as (q' & Hscan & Hq1 & Hq2 & Hq3).
  unfold on_retry at 1, on_queue, m_zoom. rewrite Hscan, m_get_bind. cbn [te_retry].
  eexists _, _. split; [reflexivity|]. split; cbn.
  - destruct Htab. split; congruence.
  - exact Hq1.
  - rewrite B3, Hsends, length_app, replicate_add. cbn. by rewrite app_assoc.
  - rewrite B4, Hev, imap_app, map_app, app_assoc. cbn. do 2 f_equal. unfold shield_event, shield_info. cbn.
    rewrite Nat.add_0_r. fold n. change (m ← q_mem q' !! w; m !! t) with (indexed q' w t).
    fold o. rewrite Hq3, Hlook. by destruct (initial_status _ _) as [[? ?] ?].
  - intros k p x Hx. apply lookup_app_Some in Hx as [Hx|[Hlen Hx]].
    + destruct (Hst k p x Hx) as (Hne & Hs & _). split; [done|]. fold n in Hs |- *.
      assert (stored x (outcome n k x) (re_queue (te_retry e1))) as Hs1.
      { eapply stored_frame; [|exact Hs]. intros path Hp. apply B6. intros Hp2.
        assert (x = t) as -> by (by eapply tx_file_inj).
        apply Hnew. apply list_elem_of_fmap. exists (p, t). split; [done|]. by eapply list_elem_of_lookup_2. }
      destruct (scan_keeps_stored _ x _ B1 Hne Hs1) as (q2 & Hscan2 & _ & H2 & H3).
      rewrite Hscan in Hscan2. by injection Hscan2 as <-.
    + apply list_lookup_singleton_Some in Hx as [Hk Hx]. injection Hx as <- <-.
      assert (k = length sent) as -> by lia. done.
  - rewrite Hpr. by destruct sent.
  - intros x Hx. rewrite map_app in Hx. cbn in Hx. unfold errs1.
    destruct o; [rewrite lookup_insert_ne by set_solver|]; apply Herr; set_solver.
Qed.

(** The transactions of the plans, in the order they are sent. *)
Definition plan_txs (plan : ShieldPlan) : list (ShieldPlan * string) := map (pair plan) (pl_txids plan).

Definition sendable (txs : list (ShieldPlan * string)) : Prop :=
  NoDup (map snd txs)
  /\ forall t, t ∈ map snd txs -> t <> "" /\ load_transaction (sh_send io) t = Ok (bytes t).

Lemma shield_txs_quiet e0 e sent acc plan txids :
  shielded e0 e sent acc -> sendable (sent ++ map (pair plan) txids) ->
  exists e' acc',
    shield_txs to_vec_pretty from_slice aead_encrypt fl send nonce offset_ms io now now_ms w wdir dek url
      account_id true plan txids acc e = (Ok acc', e')
    /\ shielded e0 e' (sent ++ map (pair plan) txids)%list acc'.
Proof using Hnow aead_total serde_ok.
  revert e sent acc. induction txids as [|t txids IH]; intros e sent acc Hsd [Hnd Htx]; cbn [shield_txs].
  { exists e, acc. cbn. by rewrite app_nil_r. }
  cbn [map] in *. rewrite map_app in Hnd, Htx. cbn [map snd] in Hnd, Htx.
  destruct (Htx t ltac:(set_solver)) as [Hne Hload].
  assert (t ∉ map snd sent) as Hnew.
  { apply NoDup_app in Hnd as (_ & Hd & _). intros Ht. by apply (Hd t Ht); left. }
  destruct (shield_tx_quiet e0 e sent acc plan t Hsd Hnew Hne Hload) as (e1 & acc1 & Hr & Hsd1).
  rewrite m_bind_eq, Hr.
  destruct (IH e1 (sent ++ [(plan, t)])%list acc1 Hsd1) as (e2 & acc2 & Hr2 & Hsd2).
  { split; rewrite <- app_assoc, map_app; cbn [app map snd]; done. }
  rewrite <- app_assoc in Hsd2. by exists e2, acc2.
Qed.

Lemma shield_batches_quiet n batches e0 e sent acc :
  dust_selected io -> shielded e0 e sent acc ->
  let '(plans, stop) := shield_plan io n batches in
  sendable (sent ++ concat (map plan_txs plans)) ->
  exists e' acc',
    shield_batches to_vec_pretty from_slice aead_encrypt fl send nonce offset_ms io now now_ms w wdir dek url
      account_id true n batches acc e
    = (match stop with Some err => Err err | None => Ok (Some acc') end, e')
    /\ shielded e0 e' (sent ++ concat (map plan_txs plans))%list acc'.
Proof using Hnow aead_total serde_ok.
  intros Hdust. revert n e sent acc. induction batches as [|b batches IH]; intros n e sent acc Hsd;
    cbn [shield_plan shield_batches].
  { intros _. exists e, acc. cbn. by rewrite app_nil_r. }
  destruct (plan_batch_ends io n b Hdust) as [planned Hp]. rewrite Hp.
  destruct planned as [plan|err].
  2:{ intros _. exists e, acc. cbn. by rewrite app_nil_r. }
  destruct plan as [p|].
  - specialize (IH (S n)). destruct (shield_plan io (S n) batches) as [plans stop]. cbn [map concat].
    intros Hs. rewrite app_assoc in Hs |- *.
    destruct (shield_txs_quiet e0 e sent acc p (pl_txids p) Hsd) as (e1 & acc1 & Hr & Hsd1).
    { destruct Hs as [Hnd Htx]. rewrite map_app in Hnd, Htx. apply NoDup_app in Hnd as [Hnd _].
      split; [done|]. intros t Ht. apply Htx. apply elem_of_app. by left. }
    destruct (IH e1 _ acc1 Hsd1 Hs) as (e2 & acc2 & Hr2 & Hsd2).
    exists e2, acc2. split; [|done]. rewrite m_bind_eq. unfold m_lift. by rewrite m_bind_eq, Hr.
  - specialize (IH (S n) e sent acc Hsd). destruct (shield_plan io (S n) batches) as [plans stop].
    intros Hs. destruct (IH Hs) as (e2 & acc2 & Hr2 & Hsd2). exists e2, acc2. split; [|done].
    rewrite m_bind_eq. unfold m_lift. by rewrite m_bind_eq.
Qed.
End Outcome.

(** C11. The outcome of shielding, with a working disk and database.  The
    transactions of the batches before the first one that fails are each
    sent exactly once, in order; each one that was not accepted is afterwards
    in the queue with its error, no attempt spent, and retryable exactly when
    its error class is; each one that was accepted is not; each has one event
    that shows the amount it shields, its fee, and whether it was accepted.
    When no batch fails the answer is the first transaction with its fee; when
    one does, the answer is that error, and what was sent before stays sent. *)
Theorem shield_funds_outcome
    (to_vec_pretty : QueuedBroadcastMeta -> string) (from_slice : string -> option QueuedBroadcastMeta)
    (aead_encrypt : string -> string -> string -> string -> option string) (fl : Q -> Q)
    (send : nat -> string -> string -> option (result unit)) (nonce : string -> string)
    (offset_ms : string -> Q) (now t_ms now_ms : Z) (w : Uuid) (wdir dek url : string) (account_id : Z)
    (io : ShieldIo) (bytes : string -> string) (inputs : list Utxo) (e : TxEnv) :
  (forall m, from_slice (to_vec_pretty m) = Some m) ->
  (forall k n a m, is_Some (aead_encrypt k n a m)) ->
  to_unix_ms now = Ok t_ms -> q_faults (re_queue (te_retry e)) = [] -> adb_faults (re_db (te_retry e)) = [] ->
  may_spend w account_id (re_db (te_retry e)) ->
  transparent_inputs io account_id = Ok inputs -> dust_selected io ->
  let '(plans, stop) := sweep io inputs in
  let txs := concat (map plan_txs plans) in
  sendable io bytes txs ->
  let outcome k t := send_outcome send (length (re_sends (te_retry e)) + k) url (bytes t) in
  exists r e',
    shield_funds to_vec_pretty from_slice aead_encrypt fl send nonce offset_ms io now now_ms w wdir dek url
      account_id true e = (r, e')
    /\ r = match stop, txs with
           | Some err, _ => Err err
           | None, [] => Err no_transparent_funds
           | None, (p, t) :: _ => Ok (Some (mkShieldFundsResponse t (uint_to_string (pl_fee p))))
           end
    /\ te_proposals e' = te_proposals e /\ te_pending e' = te_pending e
    /\ re_sends (te_retry e') = (re_sends (te_retry e) ++ replicate (length txs) url)%list
    /\ (forall k p t, txs !! k = Some (p, t) ->
        match outcome k t with
        | None => indexed (re_queue (te_retry e')) w t = None
        | Some err => exists entry, indexed (re_queue (te_retry e')) w t = Some entry
            /\ qm_last_error (qe_meta entry) = Some err /\ qm_attempt_count (qe_meta entry) = 0
            /\ qm_retryable (qe_meta entry)
               = is_retryable_broadcast_error_class (classify_broadcast_error_message err)
        end)
    /\ exists infos, re_events (te_retry e') = (re_events (te_retry e) ++ map TransactionChangedEvent infos)%list
       /\ length infos = length txs
       /\ forall k p t, txs !! k = Some (p, t) -> exists info, infos !! k = Some info
          /\ ti_txid info = t /\ ti_tx_type info = TransactionType.Shield
          /\ ti_value info = uint_to_string (u64_saturating_sub (input_total (pl_inputs p)) (pl_fee p))
          /\ ti_fee info = uint_to_string (pl_fee p)
          /\ ti_status info = (if bool_decide (is_Some (outcome k t)) then TransactionStatus.Failed
                               else TransactionStatus.Pending).
Proof.
  intros Hserde Haead Hnow Hf Hdbf Hspend Hin Hdust.
  assert (forall m : M AppDb unit, m (re_db (te_retry e)) = (Ok tt, re_db (te_retry e)) ->
    on_retry (on_db m) e = (Ok tt, e)) as Hdb.
  { intros m Hm. unfold on_retry, on_db, m_zoom. rewrite Hm. by destruct e as [? ? []]. }
  pose proof (shield_batches_quiet to_vec_pretty from_slice aead_encrypt fl send nonce offset_ms Hserde Haead now
    t_ms Hnow w wdir dek url io bytes now_ms account_id 0 (chunks MAX_SHIELDING_INPUTS_PER_TX inputs) e e []
    (None, ∅) Hdust (shielded_start _ fl send offset_ms t_ms w wdir url bytes now_ms account_id e Hf)) as H.
  fold (sweep io inputs) in H. destruct (sweep io inputs) as [plans stop]. intros txs Hs.
  cbn [app] in H. fold txs in H. destruct (H Hs) as (e' & acc & Hrun & [Htab Hf' Hsends Hev Hst Hpr Herr]).
  intros outcome.
  unfold shield_funds. rewrite m_bind_eq. unfold m_context at 1.
  rewrite (Hdb db_stmt) by (unfold db_stmt; by rewrite Hdbf). cbn [fst snd with_context].
  rewrite m_bind_eq, Hdb by (by apply ensure_spend_allowed_quiet).
  rewrite m_bind_eq. unfold m_lift at 1. rewrite Hin, m_bind_eq, Hrun.
  exists (match stop with
     | Some err => Err err
     | None => match acc.1 with
               | Some (t, fee) => Ok (Some (mkShieldFundsResponse t (uint_to_string fee)))
               | None => Err no_transparent_funds
               end
     end), e'.
  split; [destruct stop; [done|by destruct acc as [[[t fee]|] errs]]|].
  split; [|split; [apply Htab|split; [apply Htab|split; [exact Hsends|split]]]].
  - rewrite Hpr. destruct stop as [err|]; [done|]. by destruct txs as [|[p t] txs'].
  - intros k p t Hk. destruct (Hst k p t Hk) as (_ & _ & ->).
    change (send_outcome send _ url (bytes t)) with (outcome k t).
    destruct (outcome k t) as [err|]; [|done]. eexists. split; [reflexivity|]. apply failed_entry_meta.
  - eexists. split; [exact Hev|]. split; [apply length_imap|]. intros k p t Hk.
    eexists. split; [rewrite list_lookup_imap, Hk; reflexivity|]. apply shield_info_shows.
Qed.

(** A wallet of [n] outputs of 20000 and a last one of [last]; an output
    below 100 is dust, and a transaction costs 10000. *)
Definition demo_outputs (n : nat) (last : Z) : list Utxo :=
  (map (fun i => mkUtxo (uint_to_string (Z.of_nat i)) 20000) (seq 0 n) ++ [mkUtxo "last" last])%list.

Definition demo_balance (sel : list Utxo) : ChangeOutcome :=
  match filter (fun u => u_value u < 100) sel with
  | [] => if input_total sel <=? 10000 then ChangeInsufficient (input_total sel) 10000 else ChangeOk 10000
  | dust => ChangeDust (map u_outpoint dust)
  end.

Definition demo_shield_io (n : nat) (last : Z) : ShieldIo := {|
  sh_send := {|
    si_decode := si_decode demo_send_io; si_memo := si_memo demo_send_io;
    si_accounts := si_accounts demo_send_io; si_summary := si_summary demo_send_io;
    si_propose := si_propose demo_send_io;
    si_create := fun p => inr ("tx-" +:+ pr_payload p, []);
    si_get_transaction := si_get_transaction demo_send_io; si_write := si_write demo_send_io;
    si_create_pczt := si_create_pczt demo_send_io; si_decode_full := si_decode_full demo_send_io;
    si_decode_signed := si_decode_signed demo_send_io; si_combine := si_combine demo_send_io;
    si_extract := si_extract demo_send_io |};
  sh_receivers := fun _ => inr ["t1"];
  sh_chain_height := inr (Some 100);
  sh_outputs := fun _ _ => inr (demo_outputs n last);
  sh_wallet_meta := fun _ => inr tt;
  sh_compute_balance := demo_balance;
  sh_single_step := fun l fee =>
    inr (mkProposal [mkStep (map u_outpoint l) fee] (default "" (u_outpoint <$> head l)));
|}.

Lemma demo_dust_selected n last : dust_selected (demo_shield_io n last).
Proof.
  intros sel ex. cbn. unfold demo_balance. destruct (filter _ sel) as [|u dust] eqn:Ef; [by case_match|].
  intros [= <-]. exists u. split; [|left].
  assert (u ∈ filter (fun u => u_value u < 100) sel) as Hu by (rewrite Ef; left).
  by apply list_elem_of_filter in Hu as [_ Hu].
Qed.

Definition demo_shield (send : nat -> string -> string -> option (result unit)) (n : nat) (last : Z)
    : result (option ShieldFundsResponse) * TxEnv :=
  shield_funds demo_to_vec demo_from_slice demo_encrypt (fun q => q) send
    (fun _ => "012345678901234567890123") (fun _ => 0%Q) (demo_shield_io n last) 1000000 1 "w1" "/w" "dek"
    "https://a" 0 true demo_prepared.

(** Dust is dropped from the batch; the transaction times out and is queued. *)
Lemma shield_funds_outcome_witness :
  exists e2, demo_shield (fun _ _ _ => None) 1 50
               = (Ok (Some (mkShieldFundsResponse "tx-0" "10000")), e2)
    /\ re_sends (te_retry e2) = ["https://a"]
    /\ exists entry, indexed (re_queue (te_retry e2)) "w1" "tx-0" = Some entry.
Proof.
  assert (may_spend "w1" 0 (re_db (te_retry demo_prepared))) as Hsp.
  { exists (mkBackupRow "w1" false None None), (mkAccountRow "w1" 0 "main" "Software" 1).
    split; [reflexivity|]. split; [reflexivity|]. split; [reflexivity|]. split; discriminate. }
  pose proof (shield_funds_outcome demo_to_vec demo_from_slice demo_encrypt (fun q => q)
    (fun _ _ _ => None) (fun _ => "012345678901234567890123") (fun _ => 0%Q) 1000000 1 1 "w1" "/w" "dek"
    "https://a" 0 (demo_shield_io 1 50) (fun t => "raw-" +:+ t) (demo_outputs 1 50) demo_prepared demo_serde_ok
    (fun k n a m => ex_intro _ _ eq_refl) eq_refl eq_refl eq_refl Hsp eq_refl (demo_dust_selected 1 50)) as H.
  replace (sweep (demo_shield_io 1 50) (demo_outputs 1 50))
    with ([mkShieldPlan ["tx-0"] [mkUtxo "0" 20000] 10000], @None error) in H by (vm_compute; reflexivity).
  destruct H as (r & e2 & Hr & -> & _ & _ & Hs & Hk & _).
  { split; [apply NoDup_singleton|]. intros t Ht. apply list_elem_of_singleton in Ht. subst t.
    split; [discriminate|reflexivity]. }
  exists e2. split; [exact Hr|]. split; [exact Hs|].
  destruct (Hk 0%nat _ "tx-0" eq_refl) as (entry & H & _). by exists entry.
Defined.

(** Funds that were shielded reported as an error.  With 201 outputs of
    which the last does not cover the fee of a transaction of its own, the
    first 200 are shielded in a transaction that is sent and accepted, and
    the call then fails with the message for a wallet whose transparent
    balance is too small. *)
Theorem shield_error_after_broadcast :
  exists e2, demo_shield (fun _ _ _ => Some (Ok tt)) 200 5000
    = (Err (ipc_err errors.INSUFFICIENT_FUNDS "insufficient transparent balance to cover shielding fee"), e2)
    /\ re_sends (te_retry e2) = ["https://a"]
    /\ map (fun ev => match ev with TransactionChangedEvent i => ti_value i | _ => "" end) (re_events (te_retry e2))
       = ["3990000"].
Proof. eexists. split; [vm_compute; reflexivity|]. split; vm_compute; reflexivity. Qed.

Lemma keeps_shield_batches to_vec_pretty from_slice aead_encrypt fl send nonce offset_ms io now now_ms w wdir dek
    url account_id on n batches acc :
  keeps (shield_batches to_vec_pretty from_slice aead_encrypt fl send nonce offset_ms io now now_ms w wdir dek url
           account_id on n batches acc).
Proof.
  assert (forall plan t acc, keeps (shield_tx to_vec_pretty from_slice aead_encrypt fl send nonce offset_ms io now
    now_ms w wdir dek url account_id on plan t acc)) as Htx.
  { intros plan t [primary errs]. unfold shield_tx. apply keeps_bind; [apply keeps_lift|]. intros b.
    apply keeps_bind; [apply keeps_broadcast_or_queue|]. intros failed.
    apply keeps_bind; [apply keeps_retry|]. intros _. apply keeps_bind; [apply keeps_get|]. intros e.
    apply keeps_bind; [destruct on; [apply keeps_retry|apply keeps_ret]|]. intros _. apply keeps_ret. }
  assert (forall plan l acc, keeps (shield_txs to_vec_pretty from_slice aead_encrypt fl send nonce offset_ms io now
    now_ms w wdir dek url account_id on plan l acc)) as Htxs.
  { intros plan l. induction l as [|t l IH]; intros a; [apply keeps_ret|]. by apply keeps_bind. }
  revert n acc. induction batches as [|b batches IH]; intros n acc; cbn [shield_batches]; [apply keeps_ret|].
  destruct (plan_batch io n b) as [planned|]; [|apply keeps_ret]. apply keeps_bind; [apply keeps_lift|].
  intros plan. apply keeps_bind; [|done]. destruct plan; [apply Htxs|apply keeps_ret].
Qed.

(** Shielding asks before it sends.  Whatever the wallet library, the
    network, the disk and the database do, no proposal or signing request is
    touched, and if anything is sent the wallet is backed up, the account
    holds its key and has transparent outputs. *)
Theorem shield_funds_guarded
    (to_vec_pretty : QueuedBroadcastMeta -> string) (from_slice : string -> option QueuedBroadcastMeta)
    (aead_encrypt : string -> string -> string -> string -> option string) (fl : Q -> Q)
    (send : nat -> string -> string -> option (result unit)) (nonce : string -> string)
    (offset_ms : string -> Q) (io : ShieldIo) (now now_ms : Z) (w : Uuid) (wdir dek url : string)
    (account_id : Z) (on : bool) (e : TxEnv) :
  let '(r, e') := shield_funds to_vec_pretty from_slice aead_encrypt fl send nonce offset_ms io now now_ms w wdir
                    dek url account_id on e in
  te_proposals e' = te_proposals e /\ te_pending e' = te_pending e
  /\ (is_ok r = true \/ re_sends (te_retry e') <> re_sends (te_retry e) ->
      may_spend w account_id (re_db (te_retry e))
      /\ exists inputs, transparent_inputs io account_id = Ok inputs).
Proof.
  unfold shield_funds. rewrite m_bind_eq. unfold m_context at 1.
  pose proof (on_db_frame db_stmt e) as Hdb. destruct (on_retry (on_db db_stmt) e) as [r1 e1].
  destruct Hdb as [-> ->]. cbn [fst snd].
  destruct (db_stmt (re_db (te_retry e))) as [[[]|err] db1] eqn:Edb; cbn [fst with_context];
    [|do 2 (split; [done|]); by intros []].
  set (e1 := mkTxEnv _ _ _). rewrite m_bind_eq.
  pose proof (on_db_frame (ensure_spend_allowed_conn w account_id) e1) as Hdb.
  destruct (on_retry (on_db (ensure_spend_allowed_conn w account_id)) e1) as [r2 e2]. destruct Hdb as [Hr2 He2].
  assert (te_proposals e2 = te_proposals e /\ te_pending e2 = te_pending e
    /\ re_sends (te_retry e2) = re_sends (te_retry e)) as (Hp & Hq & Hs) by (by subst e2).
  destruct r2 as [[]|err]; [|do 2 (split; [done|]); by intros []].
  symmetry in Hr2. apply ensure_spend_allowed_ok in Hr2.
  assert (may_spend w account_id (re_db (te_retry e))) as Hspend by (apply may_spend_stmt; by rewrite Edb).
  rewrite m_bind_eq. unfold m_lift at 1.
  destruct (transparent_inputs io account_id) as [inputs|err]; [|do 2 (split; [done|]); by intros []].
  match goal with |- context [@mbind (M TxEnv) ?i ?A ?B ?f ?m e2] => assert (keeps (@mbind _ i A B f m)) as Hk;
    [|specialize (Hk e2); set (out := @mbind _ i A B f m e2) in *] end.
  { apply keeps_bind; [apply keeps_shield_batches|]. intros [[[[t fee]|] errs]|];
      (apply keeps_ret || apply keeps_err). }
  destruct out as [r3 e3]. destruct Hk as [Hk1 Hk2]. cbn in Hk1, Hk2.
  split; [congruence|]. split; [congruence|]. intros _. split; [done|]. by exists inputs.
Qed.
