(* ===== verification/Addresses.v ===== *)
(** Receive addresses ([zbag-engine/src/address_service.rs]): the rotation of
    shielded addresses and the stable transparent one.  The answers of the
    wallet database are an argument of each call. *)
From S2P Require Import Prelude Text Domain AppDb Reauth Broadcast Servers BroadcastQueue Jobs Sends.
Open Scope Z_scope.

Module AddressType.
Inductive AddressType := ShieldedOnly | Transparent.
#[global] Instance AddressType_eq_dec : EqDecision AddressType.
Proof. solve_decision. Defined.
End AddressType.
Abbreviation AddressType := AddressType.AddressType.

Record AddressInfo := mkAddressInfo {
  ad_encoded : string;
  ad_address_type : AddressType;
  ad_diversifier_index : string;
}.

Inductive ReceiverRequirement := Require | Omit.

(** [UnifiedAddressRequest::custom]. *)
Record UnifiedAddressRequest := mkUnifiedAddressRequest {
  ur_orchard : ReceiverRequirement; ur_sapling : ReceiverRequirement; ur_p2pkh : ReceiverRequirement;
}.

(** What the wallet database answers: the accounts, the diversifier indices
    ([u128]) of the addresses of an account, the encoded address at an index,
    the transparent receivers with their address index before and after one is
    derived. *)
Record AddressIo := mkAddressIo {
  ao_decode : Network -> string -> option string;
  ao_accounts : string + list (string * (string + option AccountView));
  ao_list : string -> string + list Z;
  ao_derive : string -> Z -> UnifiedAddressRequest -> string + option string;
  ao_receivers : string -> string + list (string * option Z);
  ao_next_address : string -> string + unit;
  ao_receivers_after : string -> string + list (string * option Z);
}.

Section Address.
Context (io : AddressIo).

Definition decode_address (network : Network) (encoded : string) : result string :=
  ok_or (ao_decode io network encoded) (ipc_err errors.INVALID_RECIPIENT "invalid recipient").

Definition find_account_uuid (account_id : Z) : result string :=
  match ao_accounts io with
  | inl e => Err (Context "failed to list wallet accounts" (AnyhowMsg e))
  | inr accounts => find_account "failed to load wallet account" account_id accounts
  end.

Definition shielded_request (is_hardware_signer : bool) : UnifiedAddressRequest :=
  if is_hardware_signer then mkUnifiedAddressRequest Require Omit Omit
  else mkUnifiedAddressRequest Require Require Omit.

(** The greatest index in use; every index must fit a [u64]. *)
Fixpoint max_existing (best : option Z) (indices : list Z) : result (option Z) :=
  match indices with
  | [] => Ok best
  | di :: indices' =>
      if di <=? u64_max then max_existing (Some (match best with Some b => Z.max b di | None => di end)) indices'
      else Err (ipc_err errors.INTERNAL_ERROR "diversifier index out of range")
  end.

(** The [for _ in 0..1_000]. *)
Fixpoint search_address (tries : nat) (derive : Z -> string + option string) (candidate : Z)
    : result (Z * string) :=
  match tries with
  | O => Err (ipc_err errors.INTERNAL_ERROR "unable to derive receive address")
  | S tries' =>
      match derive candidate with
      | inl e => Err (Context "failed to derive receive address" (AnyhowMsg e))
      | inr (Some ua) => Ok (candidate, ua)
      | inr None =>
          if candidate + 1 <=? u64_max then search_address tries' derive (candidate + 1)
          else Err (ipc_err errors.INTERNAL_ERROR "diversifier index overflow")
      end
  end.

Definition ADDRESS_TRIES : nat := 1000.

(** The search and the update of the record. *)
Definition issue_address (wallet_id : Uuid) (account_id : Z) (account : string) (hardware : bool)
    (now_ms next_di : Z) : M AppDb AddressInfo :=
  '(candidate, ua) ← m_lift (search_address ADDRESS_TRIES
                               (fun di => ao_derive io account di (shielded_request hardware)) next_di);
  m_context "failed to update receive rotation state"
    (set_next_diversifier_index wallet_id account_id (u64_saturating_add candidate 1) now_ms) ;;
  mret (mkAddressInfo ua AddressType.ShieldedOnly (uint_to_string candidate)).

Definition shielded_address (wallet_id : Uuid) (account_id : Z) (account : string) (hardware : bool)
    (now_ms : Z) : M AppDb AddressInfo :=
  existing ← m_lift match ao_list io account with
                    | inl e => Err (Context "failed to list wallet addresses" (AnyhowMsg e))
                    | inr indices => max_existing None indices
                    end;
  stored_next ← m_context "failed to load receive rotation state"
                  (get_next_diversifier_index wallet_id account_id);
  let min_next := match existing with Some di => u64_saturating_add di 1 | None => 0 end in
  let next_di := default min_next stored_next in
  let next_di := if next_di <? min_next then min_next else next_di in
  issue_address wallet_id account_id account hardware now_ms next_di.

(** [min_by_key]: the first of the least. *)
Fixpoint min_receiver (best : string * option Z) (l : list (string * option Z)) : string * option Z :=
  let key r := default u32_max (snd r) in
  match l with
  | [] => best
  | r :: l' => min_receiver (if key r <? key best then r else best) l'
  end.

Definition transparent_address (account : string) : result AddressInfo :=
  let listed (r : string + list (string * option Z)) :=
    match r with
    | inl e => Err (Context "failed to list transparent receivers" (AnyhowMsg e))
    | inr l => Ok l
    end in
  receivers ← listed (ao_receivers io account);
  receivers ← (if bool_decide (receivers = []) then
                 match ao_next_address io account with
                 | inl e => Err (Context "failed to derive an address with transparent receiver" (AnyhowMsg e))
                 | inr _ => listed (ao_receivers_after io account)
                 end
               else Ok receivers);
  match receivers with
  | [] => Err (ipc_err errors.INTERNAL_ERROR "no transparent receiver available")
  | r :: l =>
      let '(addr, index) := min_receiver r l in
      Ok (mkAddressInfo addr AddressType.Transparent (uint_to_string (default 0 index)))
  end.

Definition get_receive_address (wallet_id : Uuid) (account_id : Z) (address_type : AddressType) (now_ms : Z)
    : M AppDb AddressInfo :=
  account ← m_lift (find_account_uuid account_id);
  meta ← get_account wallet_id account_id;
  let is_hardware_signer :=
    match meta with Some acc => bool_decide (ai_account_type acc = AccountType.HardwareSigner) | None => false end in
  match address_type with
  | AddressType.ShieldedOnly => shielded_address wallet_id account_id account is_hardware_signer now_ms
  | AddressType.Transparent => m_lift (transparent_address account)
  end.
End Address.

(** ** Rotation *)

(** The next index an account has on record. *)
Definition stored_index (db : AppDb) (wallet_id : Uuid) (account_id : Z) : option Z :=
  rr_diversifier_index <$> find_first (rotation_key wallet_id account_id) (adb_rotation db).

Lemma rotation_key_spec w a r :
  rotation_key w a r = true <-> rr_wallet_id r = w /\ rr_account_id r = a.
Proof.
  unfold rotation_key. rewrite andb_true_iff, bool_decide_eq_true, Z.eqb_eq. done.
Qed.

Lemma db_stmt_rotation db : adb_rotation (db_stmt db).2 = adb_rotation db.
Proof. unfold db_stmt. by repeat case_match. Qed.

(** Writing the index of [(w, a)] into a table. *)
Lemma find_first_rotation_update w a w' a' next at' l :
  rr_diversifier_index <$> find_first (rotation_key w' a')
    (if existsb (rotation_key w a) l
     then map (fun r => if rotation_key w a r then mkRotationRow (rr_wallet_id r) (rr_account_id r) next at' else r) l
     else (l ++ [mkRotationRow w a next at'])%list)
  = if bool_decide (w' = w /\ a' = a) then Some next
    else rr_diversifier_index <$> find_first (rotation_key w' a') l.
Proof.
  assert (forall r, rotation_key w' a' (mkRotationRow (rr_wallet_id r) (rr_account_id r) next at')
                    = rotation_key w' a' r) as Hkey by done.
  case_bool_decide as Hd.
  - destruct Hd as [-> ->]. induction l as [|r l IH]; simpl.
    + by rewrite (proj2 (rotation_key_spec w a _)).
    + destruct (rotation_key w a r) eqn:E; simpl.
      * by rewrite Hkey, E.
      * destruct (existsb (rotation_key w a) l); simpl; rewrite E; exact IH.
  - assert (forall r, rotation_key w a r = true -> rotation_key w' a' r = false) as Hne.
    { intros r [<- <-]%rotation_key_spec. destruct (rotation_key w' a' r) eqn:E; [|done].
      apply rotation_key_spec in E as [<- <-]. by destruct Hd. }
    induction l as [|r l IH]; simpl.
    + rewrite Hne; [done|]. by apply rotation_key_spec.
    + destruct (rotation_key w a r) eqn:E; simpl.
      * rewrite Hkey, (Hne r E).
        clear IH. induction l as [|r' l IH]; simpl; [done|].
        destruct (rotation_key w a r') eqn:E'; simpl.
        -- by rewrite Hkey, (Hne r' E').
        -- by destruct (rotation_key w' a' r').
      * destruct (existsb (rotation_key w a) l) eqn:Ex; simpl; destruct (rotation_key w' a' r); try done.
Qed.

Lemma set_next_spec w a next at' db :
  let '(r, db') := set_next_diversifier_index w a next at' db in
  match r with
  | Ok _ => next <= i64_max /\ forall w' a', stored_index db' w' a' =
              if bool_decide (w' = w /\ a' = a) then Some next else stored_index db w' a'
  | Err _ => adb_rotation db' = adb_rotation db
  end.
Proof.
  unfold set_next_diversifier_index, db_require. rewrite m_bind_eq.
  destruct (next <=? i64_max) eqn:En; [simpl|done]. apply Z.leb_le in En. rewrite m_bind_eq.
  pose proof (db_stmt_rotation db) as Hdb. destruct (db_stmt db) as [[[]|e] db1]; simpl in *; [|done].
  rewrite m_bind_eq. simpl. rewrite m_bind_eq. destruct (wallet_exists db1 w); simpl; [|done].
  unfold stored_index. rewrite <- Hdb. destruct (existsb (rotation_key w a) (adb_rotation db1)) eqn:Ex; simpl;
    (split; [done|]); intros w' a'; rewrite <- (find_first_rotation_update w a w' a' next at'), Ex; done.
Qed.

Lemma search_address_exact tries derive c i ua :
  search_address tries derive c = Ok (i, ua) <->
  c <= i < c + Z.of_nat tries /\ (i <= u64_max \/ i = c) /\ derive i = inr (Some ua)
  /\ forall j, c <= j < i -> derive j = inr None.
Proof.
  revert c. induction tries as [|tries IH]; intros c; simpl.
  - split; [done|]. intros [? _]. lia.
  - destruct (derive c) as [e|[ua'|]] eqn:E.
    + split; [done|]. intros (Hr & _ & Hd & Hj). destruct (decide (c = i)) as [->|]; [congruence|].
      specialize (Hj c ltac:(lia)). congruence.
    + split.
      * intros [= -> ->]. split_and!; [lia|lia|by right|done|intros; lia].
      * intros (Hr & _ & Hd & Hj). destruct (decide (c = i)) as [->|]; [congruence|].
        specialize (Hj c ltac:(lia)). congruence.
    + destruct (c + 1 <=? u64_max) eqn:Eu.
      * apply Z.leb_le in Eu. rewrite IH. split; intros (Hr & Hu & Hd & Hj).
        -- split_and!; [lia|lia|left; lia|done|]. intros j Hj'. destruct (decide (j = c)) as [->|]; [done|]. apply Hj. lia.
        -- assert (i <> c) by congruence. split_and!; [lia|lia|left; lia|done|]. intros j Hj'. apply Hj. lia.
      * apply Z.leb_gt in Eu. split; [done|]. intros (Hr & Hu & Hd & Hj). assert (i <> c) by congruence. lia.
Qed.

(** [info] is the address at [c], and [db'] is [db] with [c + 1] on record. *)
Definition issued_at (io : AddressIo) (w : Uuid) (a : Z) (account : string) (hw : bool) (db db' : AppDb)
    (info : AddressInfo) (c : Z) : Prop :=
  0 <= c /\ ad_address_type info = AddressType.ShieldedOnly /\ ad_diversifier_index info = uint_to_string c
  /\ ao_derive io account c (shielded_request hw) = inr (Some (ad_encoded info))
  /\ forall w' a', stored_index db' w' a' =
       if bool_decide (w' = w /\ a' = a) then Some (c + 1) else stored_index db w' a'.

Lemma issue_address_spec io w a account hw now_ms start db :
  0 <= start ->
  let '(r, db') := issue_address io w a account hw now_ms start db in
  match r with
  | Ok info => exists c, start <= c /\ issued_at io w a account hw db db' info c
      /\ forall j, start <= j < c -> ao_derive io account j (shielded_request hw) = inr None
  | Err _ => adb_rotation db' = adb_rotation db
  end.
Proof.
  intros Hs. unfold issue_address. rewrite m_bind_eq. unfold m_lift.
  destruct (search_address _ _ _) as [[c ua]|e] eqn:Es; [|done].
  apply search_address_exact in Es as (Hr & _ & Hd & Hj). rewrite m_bind_eq. unfold m_context.
  pose proof (set_next_spec w a (u64_saturating_add c 1) now_ms db) as Hset.
  destruct (set_next_diversifier_index w a _ now_ms db) as [[[]|e] db2]; simpl in *; [|done].
  destruct Hset as [Hle Hset]. exists c.
  assert (u64_saturating_add c 1 = c + 1) as Hc by (unfold u64_saturating_add, clampZ, i64_max, u64_max in *; lia).
  split_and!; [lia| |done]. unfold issued_at. split_and!; [lia|done|done|done|by rewrite <- Hc].
Qed.

(** What one shielded address does to the record. *)
Lemma shielded_address_spec io w a account hw now_ms db :
  let '(r, db') := shielded_address io w a account hw now_ms db in
  match r with
  | Ok info => exists c, from_option (fun n => n <= c) True (stored_index db w a)
      /\ issued_at io w a account hw db db' info c
  | Err _ => adb_rotation db' = adb_rotation db
  end.
Proof.
  unfold shielded_address. rewrite m_bind_eq. unfold m_lift at 1.
  destruct (match ao_list io account with inl e => _ | inr l => _ end) as [existing|e]; [|done].
  rewrite m_bind_eq. unfold m_context, get_next_diversifier_index. rewrite m_bind_eq.
  pose proof (db_stmt_rotation db) as Hdb. destruct (db_stmt db) as [[[]|e] db1]; simpl in *; [|done].
  set (min_next := match existing with Some di => _ | None => 0 end).
  assert (0 <= min_next) as Hmin by (unfold min_next, u64_saturating_add, clampZ; destruct existing; lia).
  unfold issued_at, stored_index. rewrite <- Hdb. rewrite !m_get_bind.
  destruct (find_first (rotation_key w a) (adb_rotation db1)) as [row|] eqn:Ef; simpl.
  - destruct (0 <=? rr_diversifier_index row) eqn:E0; [apply Z.leb_le in E0|done]. simpl.
    set (start := if _ <? _ then _ else _).
    assert (0 <= start /\ rr_diversifier_index row <= start) as [H0 Hle].
    { unfold start. destruct (Z.ltb_spec (rr_diversifier_index row) min_next); lia. }
    pose proof (issue_address_spec io w a account hw now_ms start db1 H0) as H.
    destruct (issue_address _ _ _ _ _ _ _ _) as [[info|e] db']; [|congruence].
    destruct H as (c & Hc & Hi & _). exists c. split; [lia|exact Hi].
  - rewrite Z.ltb_irrefl. pose proof (issue_address_spec io w a account hw now_ms min_next db1 Hmin) as H.
    destruct (issue_address _ _ _ _ _ _ _ _) as [[info|e] db']; [|congruence].
    destruct H as (c & Hc & Hi & _). exists c. split; [done|exact Hi].
Qed.

(** ** Histories *)

(** A call, with what the wallet database answers to it. *)
Record AddressCall := mkAddressCall {
  ac_io : AddressIo; ac_wallet_id : Uuid; ac_account_id : Z; ac_type : AddressType; ac_now_ms : Z;
}.

Definition address_call (c : AddressCall) : M AppDb AddressInfo :=
  get_receive_address (ac_io c) (ac_wallet_id c) (ac_account_id c) (ac_type c) (ac_now_ms c).

(** The addresses handed out by a history of calls, with their account. *)
Fixpoint issued (l : list AddressCall) (db : AppDb) : list (Uuid * Z * AddressInfo) :=
  match l with
  | [] => []
  | c :: l' =>
      let '(r, db') := address_call c db in
      match r with
      | Ok info => (ac_wallet_id c, ac_account_id c, info) :: issued l' db'
      | Err _ => issued l' db'
      end
  end.

Definition is_shielded (info : AddressInfo) : bool :=
  bool_decide (ad_address_type info = AddressType.ShieldedOnly).

(** One call: a shielded address is at an index not below the record, which
    moves past it; anything else leaves the record. *)
Lemma address_call_spec c db :
  let '(r, db') := address_call c db in
  (exists info i, r = Ok info /\ is_shielded info = true /\ 0 <= i
     /\ ad_diversifier_index info = uint_to_string i
     /\ from_option (fun n => n <= i) True (stored_index db (ac_wallet_id c) (ac_account_id c))
     /\ forall w a, stored_index db' w a =
          if bool_decide (w = ac_wallet_id c /\ a = ac_account_id c) then Some (i + 1) else stored_index db w a)
  \/ adb_rotation db' = adb_rotation db /\ (forall info, r = Ok info -> is_shielded info = false).
Proof.
  unfold address_call, get_receive_address. rewrite m_bind_eq. unfold m_lift at 1.
  destruct (find_account_uuid _ _) as [account|e]; [|by right]. rewrite m_bind_eq. unfold get_account.
  rewrite m_bind_eq. pose proof (db_stmt_rotation db) as Hdb.
  destruct (db_stmt db) as [[[]|e] db1]; simpl in Hdb; [|by right]. rewrite m_get_bind. unfold mret at 1, M_ret at 1. cbv beta iota zeta.
  set (hw := match _ with Some _ => _ | None => false end). destruct (ac_type c).
  - pose proof (shielded_address_spec (ac_io c) (ac_wallet_id c) (ac_account_id c) account hw (ac_now_ms c) db1) as H.
    destruct (shielded_address _ _ _ _ _ _ _) as [[info|e] db']; [|right; split; [congruence|done]].
    left. destruct H as (i & Hn & H0 & Ht & Hi & _ & Hs). exists info, i. unfold is_shielded, stored_index in *.
    rewrite Hdb in *. split_and!; try done. by apply bool_decide_true.
  - unfold m_lift. right. split; [done|]. intros info. unfold transparent_address.
    repeat (simpl; case_match; try done); intros; simplify_eq; done.
Qed.

(** Everything handed out later for [(w, a)] is at [n] or beyond. *)
Lemma issued_from l db w a n w' a' info :
  stored_index db w a = Some n -> (w', a', info) ∈ issued l db -> w' = w -> a' = a -> is_shielded info = true ->
  exists i, n <= i /\ ad_diversifier_index info = uint_to_string i.
Proof.
  intros Hn Hin -> ->. revert db n Hn Hin. induction l as [|c l IH]; intros db n Hn; simpl.
  - intros H. by apply not_elem_of_nil in H.
  - pose proof (address_call_spec c db) as Hc. destruct (address_call c db) as [r db'].
    destruct Hc as [(info' & i & -> & Hs & H0 & Hi & Hge & Hst)|[Hst Hr]].
    + intros [E|Hin]%elem_of_cons Hsh.
      * injection E as -> -> ->. exists i. rewrite Hn in Hge. done.
      * destruct (decide (w = ac_wallet_id c /\ a = ac_account_id c)) as [[-> ->]|Hne].
        -- rewrite Hn in Hge. simpl in Hge. specialize (Hst (ac_wallet_id c) (ac_account_id c)).
           rewrite bool_decide_true in Hst by done.
           destruct (IH db' (i + 1) Hst Hin Hsh) as (k & Hk & Hd). exists k. split; [lia|done].
        -- eapply (IH db'); [|done|done]. by rewrite Hst, bool_decide_false.
    + assert (stored_index db' w a = Some n) as Hn' by (unfold stored_index in *; by rewrite Hst).
      destruct r as [info'|e]; [|by apply IH].
      intros [E|Hin]%elem_of_cons Hsh; [|by eapply IH]. injection E as -> -> ->. by rewrite (Hr info' eq_refl) in Hsh.
Qed.

(** Receive addresses rotate: in any history of [get_receive_address]
    calls, over any wallets and accounts and whatever the wallet database
    answers, the shielded addresses handed out for one account have strictly
    increasing diversifier indices, so no address is handed out twice. *)
Theorem receive_addresses_rotate (l : list AddressCall) (db : AppDb) (i j : nat)
    (w : Uuid) (a : Z) (x y : AddressInfo) :
  (i < j)%nat -> issued l db !! i = Some (w, a, x) -> issued l db !! j = Some (w, a, y) ->
  is_shielded x = true -> is_shielded y = true ->
  exists m n, 0 <= m < n /\ ad_diversifier_index x = uint_to_string m /\ ad_diversifier_index y = uint_to_string n
  /\ ad_diversifier_index x <> ad_diversifier_index y.
Proof.
  revert i j db. induction l as [|c l IH]; intros i j db Hij; simpl; [done|].
  pose proof (address_call_spec c db) as Hc. destruct (address_call c db) as [r db'].
  destruct r as [info|e]; [|by apply IH].
  destruct i as [|i]; [|destruct j as [|j]; [lia|]; simpl; apply IH; lia].
  destruct j as [|j]; [lia|]. simpl. intros [= <- <- <-] Hy Hsx Hsy.
  destruct Hc as [(info' & m & [= <-] & Hs & H0 & Hi & Hge & Hst)|[Hst Hr]]; [|by rewrite (Hr info eq_refl) in Hsx].
  specialize (Hst (ac_wallet_id c) (ac_account_id c)). rewrite bool_decide_true in Hst by done.
  destruct (issued_from l db' _ _ _ _ _ y Hst (list_elem_of_lookup_2 _ _ _ Hy) eq_refl eq_refl Hsy) as (n & Hn & Hd).
  exists m, n. split_and!; [lia|lia|done|done|]. rewrite Hi, Hd. unfold uint_to_string. intros E%(inj pretty). lia.
Qed.

(** ** Witness *)

(** A wallet database where only the indices divisible by three have an
    address. *)
Definition demo_address_io : AddressIo := {|
  ao_decode _ _ := None;
  ao_accounts := inr [("uuid0", inr (Some (mkAccountView (Some "zbag-account-id:0") None)))];
  ao_list _ := inr [1];
  ao_derive _ i _ := inr (if i mod 3 =? 0 then Some ("u" +:+ uint_to_string i) else None);
  ao_receivers _ := inr [];
  ao_next_address _ := inr ();
  ao_receivers_after _ := inr [("t1", Some 0)];
|}.

Definition demo_address_db : AppDb :=
  mkAppDb [mkWalletRow "w" "Wallet" "/w" "Software" "Mainnet" false 0 None] [] [] [] [] [] [] None None [].

Definition demo_address_calls : list AddressCall :=
  [mkAddressCall demo_address_io "w" 0 AddressType.ShieldedOnly 5;
   mkAddressCall demo_address_io "w" 0 AddressType.Transparent 6;
   mkAddressCall demo_address_io "w" 0 AddressType.ShieldedOnly 7].

Lemma receive_addresses_rotate_witness :
  issued demo_address_calls demo_address_db
    = [("w", 0, mkAddressInfo "u3" AddressType.ShieldedOnly "3");
       ("w", 0, mkAddressInfo "t1" AddressType.Transparent "0");
       ("w", 0, mkAddressInfo "u6" AddressType.ShieldedOnly "6")]
  /\ exists m n, 0 <= m < n /\ "3" = uint_to_string m /\ "6" = uint_to_string n.
Proof.
  split; [reflexivity|].
  destruct (receive_addresses_rotate demo_address_calls demo_address_db 0 2 "w" 0
              (mkAddressInfo "u3" AddressType.ShieldedOnly "3") (mkAddressInfo "u6" AddressType.ShieldedOnly "6"))
    as (m & n & H & Hm & Hn & _); [lia|reflexivity|reflexivity|reflexivity|reflexivity|].
  exists m, n. split; [exact H|]. split; [exact Hm|exact Hn].
Defined.
