(* ===== verification/Amounts.v ===== *)
(** Amounts of the swap service ([swap_service.rs]): decimal strings to
    zatoshis and to the smallest units of an asset, on [u64] and [u128]. *)
From S2P Require Import Prelude Text Domain.
From Stdlib Require Import Ascii.
Open Scope Z_scope.

(** ** Zatoshis *)

Fixpoint zeros (n : nat) : string := match n with O => "" | S n' => String "0" (zeros n') end.

(** Appends ["0"] until the string has [n] bytes. *)
Definition pad_zeros (n : nat) (s : string) : string :=
  s +:+ zeros (n - String.length s).

(** [parse_zatoshis]: with a point, ZEC with up to eight decimals; without
    one, an integer taken as it is. *)
Definition parse_zatoshis (value : string) : option Z :=
  let value := trim value in
  if is_empty value then None
  else
    match split_once "."%char value with
    | Some (whole, frac) =>
        whole ← parse_uint u64_max whole;
        if (8 <? String.length frac)%nat then None
        else
          frac_val ← parse_uint u64_max (pad_zeros 8 frac);
          zat ← checked_mul u64_max whole 100000000;
          checked_add u64_max zat frac_val
    | None => parse_uint u64_max value
    end.

(** ** Smallest units *)

(** The fallback table of well-known assets. *)
Definition get_static_decimals_for_asset (asset_id : string) : option Z :=
  if bool_decide (asset_id = "nep141:zec.omft.near") then Some 8
  else if bool_decide (asset_id = "nep141:eth.omft.near")
          || bool_decide (asset_id = "nep141:base.omft.near") then Some 18
  else if bool_decide (asset_id = "nep141:sol.omft.near") then Some 9
  else if bool_decide (asset_id = "nep141:wrap.near") then Some 24
  else if contains asset_id "0xa0b86991c6218b36c1d19d4a2e9eb0ce3606eb48" then Some 6
  else if contains asset_id "0xdac17f958d2ee523a2206206994597c13d831ec7" then Some 6
  else if contains asset_id "0x833589fcd6edb6e08f4c7c32d4f71b54bda02913" then Some 6
  else if contains asset_id "5ce3bf3a31af18be40ba30f721101b4341690186" then Some 6
  else if contains asset_id "c800a4bd850783ccb82c2b2c7e84175443606352" then Some 6
  else if contains asset_id "17208628f84f5d6ad33f0da3bbbeb27ffcb398eac501a31bd6ad2011e36133a1"
  then Some 6
  else None.

(** The outcome of a conversion: [Overflow] is an unchecked multiplication
    that leaves [u128], a panic in a debug build and a wrong result in a
    release build. *)
Inductive Conversion :=
| Converted (units : string)
| Refused (e : string)
| Overflow.

(** [decimals] multiplications by ten, each checked. *)
Fixpoint scale (decimals : nat) (result : Z) : option Z :=
  match decimals with
  | O => Some result
  | S n => r ← checked_mul u128_max result 10; scale n r
  end.

(** The fractional part, added to the scaled whole part. *)
Definition add_fraction (frac_str : string) (decimals : nat) (result : Z) : Conversion + Z :=
  if is_empty frac_str then inr result
  else
    let frac_len := Nat.min (String.length frac_str) decimals in
    match parse_uint u128_max (take_string frac_len frac_str) with
    | None => inl (Refused "invalid fractional part")
    | Some frac_val =>
        let frac_multiplier := 10 ^ Z.of_nat (decimals - frac_len) in
        if (u128_max <? frac_multiplier) || (u128_max <? frac_val * frac_multiplier) then inl Overflow
        else
          match checked_add u128_max result (frac_val * frac_multiplier) with
          | None => inl (Refused "amount overflow")
          | Some result => inr result
          end
    end.

Definition convert_parts (whole_str frac_str : string) (decimals : nat) : Conversion :=
  if negb (all_chars is_ascii_digit whole_str) then Refused "invalid whole part"
  else
    match parse_uint u128_max whole_str with
    | None => Refused "invalid whole part"
    | Some whole =>
        if negb (is_empty frac_str) && negb (all_chars is_ascii_digit frac_str)
        then Refused "invalid fractional part"
        else
          match scale decimals whole with
          | None => Refused "amount overflow"
          | Some result =>
              match add_fraction frac_str decimals result with
              | inl c => c
              | inr result =>
                  if result =? 0 then Refused "amount must be greater than zero"
                  else Converted (uint_to_string result)
              end
          end
    end.

Definition convert_to_smallest_units (amount : string) (decimals : nat) : Conversion :=
  let amount := trim amount in
  if is_empty amount then Refused "empty amount"
  else
    match split "."%char amount with
    | [whole] => convert_parts whole "" decimals
    | [whole; frac] => convert_parts whole frac decimals
    | _ => Refused "invalid amount format"
    end.

(** ** The value of a digit string *)

Fixpoint dec_acc (acc : Z) (s : string) : Z :=
  match s with
  | EmptyString => acc
  | String c s' => dec_acc (acc * 10 + default 0 (digit c)) s'
  end.
Definition dec (s : string) : Z := dec_acc 0 s.

Abbreviation digits s := (all_chars is_ascii_digit s = true).

Lemma dec_acc_shift acc s : dec_acc acc s = acc * 10 ^ Z.of_nat (String.length s) + dec s.
Proof.
  unfold dec. revert acc. induction s as [|c s IH]; intros acc; simpl; [lia|].
  rewrite (IH (acc * 10 + _)), (IH (0 * 10 + _)).
  rewrite Nat2Z.inj_succ, Z.pow_succ_r by lia. lia.
Qed.

Lemma dec_acc_app acc a b : dec_acc acc (a +++ b) = dec_acc (dec_acc acc a) b.
Proof.
  revert acc. induction a as [|c a IH]; intros acc; rewrite ?string_app_cons; simpl; [done|]. apply IH.
Qed.

Lemma dec_app a b : dec (a +++ b) = dec a * 10 ^ Z.of_nat (String.length b) + dec b.
Proof. unfold dec. by rewrite dec_acc_app, dec_acc_shift. Qed.

Lemma is_digit_default c : is_ascii_digit c = true -> exists d, digit c = Some d /\ 0 <= d <= 9.
Proof.
  unfold is_ascii_digit. destruct (digit c) as [d|] eqn:E; [|done]. intros _. exists d.
  split; [done|]. by apply digit_range in E.
Qed.

Lemma dec_bounds s : digits s -> 0 <= dec s < 10 ^ Z.of_nat (String.length s).
Proof.
  induction s as [|c s IH]; simpl; [done|]. intros [Hc Hs]%andb_true_iff.
  destruct (is_digit_default c Hc) as (d & Hd & Hr). specialize (IH Hs).
  unfold dec. simpl. rewrite Hd. simpl. rewrite dec_acc_shift.
  rewrite Nat2Z.inj_succ, Z.pow_succ_r by lia.
  set (P := 10 ^ Z.of_nat (String.length s)) in *. fold (dec s) in *. nia.
Qed.

(** Parsing digits: the value, or an error when it does not fit. *)
Lemma parse_digits_value hi acc s :
  digits s -> 0 <= acc <= hi ->
  parse_digits hi acc s = if dec_acc acc s <=? hi then Some (dec_acc acc s) else None.
Proof.
  revert acc. induction s as [|c s IH]; intros acc; simpl.
  { intros _ H. by destruct (Z.leb_spec acc hi); [|lia]. }
  intros [Hc Hs]%andb_true_iff Hacc. destruct (is_digit_default c Hc) as (d & Hd & Hr).
  rewrite Hd. simpl. pose proof (dec_bounds s Hs) as Hb.
  assert (1 <= 10 ^ Z.of_nat (String.length s)) as HP by (apply (Z.pow_le_mono_r 10 0); lia).
  destruct (Z.leb_spec (acc * 10 + d) hi) as [Hle|Hgt].
  - unfold checked_mul, checked_add, checked.
    replace ((0 <=? acc * 10) && (acc * 10 <=? hi)) with true by lia. simpl.
    replace ((0 <=? acc * 10 + d) && (acc * 10 + d <=? hi)) with true by lia. simpl.
    apply IH; [done|lia].
  - destruct (Z.leb_spec (dec_acc (acc * 10 + d) s) hi) as [Hle2|_].
    { rewrite dec_acc_shift in Hle2. nia. }
    unfold checked_mul, checked_add, checked.
    destruct ((0 <=? acc * 10) && (acc * 10 <=? hi)); simpl; [|done].
    replace ((0 <=? acc * 10 + d) && (acc * 10 + d <=? hi)) with false by lia. done.
Qed.

Lemma parse_uint_value hi s :
  digits s -> s <> "" -> 0 <= hi -> parse_uint hi s = if dec s <=? hi then Some (dec s) else None.
Proof. intros Hs Hne Hhi. rewrite parse_uint_digits by done. apply parse_digits_value; [done|lia]. Qed.

Lemma zeros_digits n : digits (zeros n)
  /\ dec (zeros n) = 0
  /\ String.length (zeros n) = n.
Proof.
  induction n as [|n (IH1 & IH2 & IH3)]; [done|]. simpl. rewrite IH1, IH3. split; [done|].
  split; [|done]. unfold dec in *. simpl. done.
Qed.

Lemma pad_zeros_value n s :
  digits s -> (String.length s <= n)%nat ->
  digits (pad_zeros n s) /\ String.length (pad_zeros n s) = n
  /\ dec (pad_zeros n s) = dec s * 10 ^ Z.of_nat (n - String.length s).
Proof.
  intros Hs Hl. unfold pad_zeros. destruct (zeros_digits (n - String.length s)) as (H1 & H2 & H3).
  rewrite all_chars_app, Hs, H1, string_length_app, H3, dec_app, H2, H3.
  split; [done|]. split; lia.
Qed.

(** *** Splitting at the point *)

Definition amount_char (c : ascii) : bool := is_ascii_digit c || Ascii.eqb c ".".

Lemma digit_not_point c : is_ascii_digit c = true -> Ascii.eqb "." c = false.
Proof. intros H. destruct (Ascii.eqb_spec "." c) as [<-|]; [done|done]. Qed.

Lemma digits_amount s : digits s -> all_chars amount_char s = true.
Proof.
  induction s as [|c s IH]; simpl; [done|]. intros [Hc Hs]%andb_true_iff.
  rewrite IH by done. unfold amount_char. by rewrite Hc.
Qed.

Lemma trim_amount w f : digits w -> digits f -> trim (w +++ String "." f) = w +++ String "." f.
Proof.
  intros Hw Hf. apply (trim_solid amount_char); [done|done|].
  rewrite all_chars_app. simpl. by rewrite !digits_amount.
Qed.

Lemma split_once_point w f : digits w -> split_once "." (w +++ String "." f) = Some (w, f).
Proof.
  induction w as [|c w IH]; rewrite ?string_app_cons, ?string_app_nil_l; [done|].
  cbn [all_chars split_once split]. intros [Hc Hw]%andb_true_iff. rewrite digit_not_point by done. by rewrite IH.
Qed.

Lemma split_once_digits s : digits s -> split_once "." s = None.
Proof.
  induction s as [|c s IH]; [done|]. cbn [all_chars split_once split]. intros [Hc Hs]%andb_true_iff.
  rewrite digit_not_point by done. by rewrite IH.
Qed.

Lemma split_digits s : digits s -> split "." s = [s].
Proof.
  induction s as [|c s IH]; [done|]. cbn [all_chars split_once split]. intros [Hc Hs]%andb_true_iff.
  rewrite digit_not_point by done. by rewrite IH.
Qed.

Lemma split_point w f : digits w -> digits f -> split "." (w +++ String "." f) = [w; f].
Proof.
  intros Hw Hf. induction w as [|c w IH]; rewrite ?string_app_cons, ?string_app_nil_l.
  - simpl. by rewrite split_digits.
  - cbn [all_chars] in Hw. apply andb_true_iff in Hw as [Hc Hw]. cbn [split].
    rewrite digit_not_point by done. by rewrite IH.
Qed.

(** ** Zatoshis *)

(** [parse_zatoshis] on a ZEC amount with a point: the exact number of
    zatoshis when it fits [u64], nothing when it does not or has more than
    eight decimals.  Without a point the digits are taken as zatoshis
    already: ["2"] is two zatoshis while ["2.0"] is two ZEC. *)
Theorem parse_zatoshis_exact (w f : string) :
  all_chars is_ascii_digit w = true -> all_chars is_ascii_digit f = true -> w <> "" -> f <> "" ->
  parse_zatoshis (w +++ String "." f)
  = (if (8 <? String.length f)%nat then None
     else
       let zat := dec w * 100000000 + dec f * 10 ^ Z.of_nat (8 - String.length f) in
       if zat <=? u64_max then Some zat else None)
  /\ parse_zatoshis w = (if dec w <=? u64_max then Some (dec w) else None).
Proof.
  intros Hw Hf Hnw Hnf. unfold parse_zatoshis.
  rewrite trim_amount, (trim_digits w) by done. rewrite split_once_point, split_once_digits by done.
  assert (is_empty (w +++ String "." f) = false) as -> by (destruct w; done).
  assert (is_empty w = false) as -> by (destruct w; done).
  rewrite !(parse_uint_value u64_max w) by (done || (unfold u64_max; lia)). split; [|done].
  destruct (8 <? String.length f)%nat eqn:E8; [by destruct (dec w <=? u64_max)|].
  apply Nat.ltb_ge in E8. destruct (pad_zeros_value 8 f Hf E8) as (Hd & Hlen & Hv).
  assert (pad_zeros 8 f <> "") as Hne by (destruct (pad_zeros 8 f); done).
  rewrite parse_uint_value by (done || (unfold u64_max; lia)). rewrite Hv.
  pose proof (dec_bounds _ Hd) as HB. rewrite Hlen, Hv in HB.
  pose proof (dec_bounds w Hw) as HW. set (F := dec f * _) in *. simpl in HB. cbn zeta.
  unfold checked_mul, checked_add, checked, u64_max in *.
  destruct (dec w <=? _) eqn:E1; simpl; [|destruct (_ + F <=? _) eqn:E; [lia|done]].
  replace (F <=? 18446744073709551615) with true by lia. simpl.
  destruct ((0 <=? dec w * 100000000) && _) eqn:E2; simpl.
  - destruct (dec w * 100000000 + F <=? _) eqn:E3; simpl; [by replace (0 <=? _) with true by lia|].
    by rewrite andb_false_r.
  - destruct (dec w * 100000000 + F <=? _) eqn:E3; [lia|done].
Qed.

Lemma parse_zatoshis_exact_witness :
  parse_zatoshis "2.05" = Some 205000000 /\ parse_zatoshis "2" = Some 2.
Proof.
  destruct (parse_zatoshis_exact "2" "05" eq_refl eq_refl ltac:(discriminate) ltac:(discriminate))
    as [H1 H2].
  split; [exact H1 | exact H2].
Defined.

(** ** Smallest units *)

Lemma scale_value n x :
  0 <= x <= u128_max ->
  scale n x = if x * 10 ^ Z.of_nat n <=? u128_max then Some (x * 10 ^ Z.of_nat n) else None.
Proof.
  revert x. induction n as [|n IH]; intros x Hx; cbn [scale].
  - rewrite Z.mul_1_r. by replace (x <=? u128_max) with true by lia.
  - rewrite Nat2Z.inj_succ, Z.pow_succ_r by lia.
    assert (1 <= 10 ^ Z.of_nat n) as HP by (apply (Z.pow_le_mono_r 10 0); lia).
    set (P := 10 ^ Z.of_nat n) in *. unfold checked_mul, checked.
    destruct ((0 <=? x * 10) && (x * 10 <=? u128_max)) eqn:E; cbn [mbind option_bind].
    + rewrite IH by lia. by replace (x * 10 * P) with (x * (10 * P)) by lia.
    + destruct (x * (10 * P) <=? u128_max) eqn:E2; [nia|done].
Qed.

(** Keeping the first [n] digits divides by a power of ten. *)
Lemma dec_take n f :
  digits f -> (n <= String.length f)%nat ->
  digits (take_string n f) /\ String.length (take_string n f) = n
  /\ dec (take_string n f) = dec f / 10 ^ Z.of_nat (String.length f - n).
Proof.
  intros Hf Hn. pose proof (take_drop_string n f) as E.
  assert (String.length (take_string n f) = n) as Hl by (apply take_string_length; lia).
  assert (String.length (drop_string n f) = (String.length f - n)%nat) as Hr.
  { apply (f_equal String.length) in E. rewrite string_length_app in E. lia. }
  rewrite <- E in Hf. rewrite all_chars_app in Hf. apply andb_true_iff in Hf as [Ht Hd].
  split; [done|]. split; [done|]. rewrite <- Hr. rewrite <- E at 2. rewrite dec_app.
  pose proof (dec_bounds _ Hd) as HB.
  rewrite Z.div_add_l by (apply Z.pow_nonzero; lia). rewrite Z.div_small by done. lia.
Qed.

(** The units of amount [w.f], rounded down. *)
Definition units (w f : string) (decimals : nat) : Z :=
  (dec w * 10 ^ Z.of_nat (String.length f) + dec f) * 10 ^ Z.of_nat decimals
  / 10 ^ Z.of_nat (String.length f).

Lemma units_split w f d :
  digits f ->
  let k := Nat.min (String.length f) d in
  units w f d = dec w * 10 ^ Z.of_nat d + dec (take_string k f) * 10 ^ Z.of_nat (d - k).
Proof.
  intros Hf k. unfold units. set (L := String.length f) in *.
  assert (0 < 10 ^ Z.of_nat L) as HL by (apply Z.pow_pos_nonneg; lia).
  replace ((dec w * 10 ^ Z.of_nat L + dec f) * 10 ^ Z.of_nat d)
    with (dec w * 10 ^ Z.of_nat d * 10 ^ Z.of_nat L + dec f * 10 ^ Z.of_nat d) by lia.
  rewrite Z.div_add_l by lia. f_equal.
  destruct (dec_take k f Hf ltac:(lia)) as (_ & _ & ->).
  destruct (Nat.le_ge_cases L d) as [Hle|Hge].
  - replace k with L by lia. fold L. rewrite Nat.sub_diag, Z.div_1_r.
    replace (Z.of_nat d) with (Z.of_nat (d - L) + Z.of_nat L) at 1 by lia.
    rewrite Z.pow_add_r, Z.mul_assoc, Z.div_mul by lia. done.
  - replace k with d by lia. rewrite Nat.sub_diag, Z.mul_1_r. fold L.
    replace (Z.of_nat L) with (Z.of_nat (L - d) + Z.of_nat d) at 1 by lia.
    rewrite Z.pow_add_r by lia. by rewrite Z.div_mul_cancel_r by (apply Z.pow_nonzero; lia).
Qed.

(** Without an overflow for up to 38 decimals, since 10^38 fits [u128]. *)
Lemma add_fraction_value f d r :
  digits f -> (d <= 38)%nat -> (f <> "" -> (1 <= d)%nat) -> 0 <= r ->
  let k := Nat.min (String.length f) d in
  let v := r + dec (take_string k f) * 10 ^ Z.of_nat (d - k) in
  add_fraction f d r
  = if (v <=? u128_max) || is_empty f then inr v else inl (Refused "amount overflow").
Proof.
  intros Hf Hd Hd1 Hr k v. unfold add_fraction.
  destruct (is_empty f) eqn:Ef.
  { destruct f; [|done]. rewrite orb_true_r. f_equal. unfold v.
    change (dec (take_string k "")) with 0. lia. }
  assert (f <> "") as Hne by (intros ->; done). specialize (Hd1 Hne).
  assert (1 <= String.length f)%nat as Hf1 by (destruct f; [done|]; simpl; lia).
  assert (1 <= k)%nat as Hk1 by lia.
  fold k. destruct (dec_take k f Hf ltac:(lia)) as (Ht & Hlen & _).
  pose proof (dec_bounds _ Ht) as HB. rewrite Hlen in HB.
  assert (take_string k f <> "") as Hnt by (intros E; rewrite E in Hlen; simpl in Hlen; lia).
  rewrite parse_uint_value by (done || (unfold u128_max; lia)).
  set (F := dec (take_string k f)) in *.
  assert (10 ^ Z.of_nat k * 10 ^ Z.of_nat (d - k) = 10 ^ Z.of_nat d) as HP
    by (rewrite <- Z.pow_add_r by lia; f_equal; lia).
  assert (10 ^ Z.of_nat d <= 10 ^ 38) as H38 by (apply Z.pow_le_mono_r; lia).
  assert (10 ^ 38 <= u128_max) as HU by (unfold u128_max; lia).
  assert (1 <= 10 ^ Z.of_nat k) as H1 by (apply (Z.pow_le_mono_r 10 0); lia).
  assert (1 <= 10 ^ Z.of_nat (d - k)) as H2 by (apply (Z.pow_le_mono_r 10 0); lia).
  set (A := 10 ^ Z.of_nat k) in *. set (B := 10 ^ Z.of_nat (d - k)) in *.
  replace (F <=? u128_max) with true by nia. cbn zeta.
  replace ((u128_max <? B) || (u128_max <? F * B)) with false by nia.
  unfold checked_add, checked. fold v. rewrite orb_false_r.
  replace (0 <=? v) with true by (unfold v; nia). simpl. by destruct (v <=? u128_max).
Qed.

(** [convert_to_smallest_units] on amount [w.f] with up to 38 decimals:
    exactly the units of the amount, rounded down, when they are positive and
    fit [u128]; an error otherwise.  No conversion of such an asset panics or
    wraps, and the text that is sent parses back to the same number. *)
Theorem convert_to_smallest_units_exact (w f : string) (d : nat) :
  all_chars is_ascii_digit w = true -> all_chars is_ascii_digit f = true -> w <> "" ->
  (d <= 38)%nat -> (f <> "" -> (1 <= d)%nat) ->
  let u := units w f d in
  (0 < u <= u128_max ->
     convert_to_smallest_units (w +++ String "." f) d = Converted (uint_to_string u)
     /\ parse_uint u128_max (uint_to_string u) = Some u)
  /\ (u = 0 \/ u128_max < u ->
     exists e, convert_to_smallest_units (w +++ String "." f) d = Refused e).
Proof.
  intros Hw Hf Hne Hd Hd1 u. unfold convert_to_smallest_units.
  rewrite trim_amount by done.
  assert (is_empty (w +++ String "." f) = false) as -> by (destruct w; done).
  rewrite split_point by done. unfold convert_parts. rewrite Hw, Hf, andb_false_r. cbn [negb].
  rewrite parse_uint_value by (done || (unfold u128_max; lia)).
  pose proof (dec_bounds w Hw) as [HW _].
  assert (1 <= 10 ^ Z.of_nat d) as HD by (apply (Z.pow_le_mono_r 10 0); lia).
  set (k := Nat.min (String.length f) d). assert (k <= String.length f)%nat as Hk by lia.
  assert (u = dec w * 10 ^ Z.of_nat d + dec (take_string k f) * 10 ^ Z.of_nat (d - k)) as Eu
    by (by apply units_split).
  destruct (dec_take k f Hf Hk) as (Ht & _ & _). pose proof (dec_bounds _ Ht) as [HT _].
  assert (0 <= dec (take_string k f) * 10 ^ Z.of_nat (d - k)) as HF
    by (apply Z.mul_nonneg_nonneg; [lia|apply Z.pow_nonneg; lia]).
  destruct (dec w <=? u128_max) eqn:EW; [|split; [nia|eauto]].
  rewrite scale_value by lia.
  destruct (dec w * 10 ^ Z.of_nat d <=? u128_max) eqn:ES; [|split; [nia|eauto]].
  rewrite add_fraction_value by (done || lia). fold k. rewrite <- Eu.
  destruct ((u <=? u128_max) || is_empty f) eqn:EU.
  - destruct (u =? 0) eqn:E0; [split; [lia|eauto]|].
    split; [intros Hu; split; [done|]; apply parse_uint_to_string; lia|].
    intros [Hz|Hgt]; [lia|]. destruct f; [|simpl in EU; rewrite orb_false_r in EU; lia].
    change (dec (take_string k "")) with 0 in Eu. nia.
  - apply orb_false_iff in EU as [EU _]. split; [lia|eauto].
Qed.

Lemma convert_to_smallest_units_exact_witness :
  convert_to_smallest_units "1.5" 18 = Converted "1500000000000000000"
  /\ convert_to_smallest_units "0.000000019" 8 = Converted "1".
Proof.
  pose proof (convert_to_smallest_units_exact "1" "5" 18 eq_refl eq_refl ltac:(discriminate)
    ltac:(repeat constructor) ltac:(repeat constructor)) as [H1 _].
  pose proof (convert_to_smallest_units_exact "0" "000000019" 8 eq_refl eq_refl ltac:(discriminate)
    ltac:(repeat constructor) ltac:(repeat constructor)) as [H2 _].
  split.
  - refine (proj1 (H1 _)). vm_compute. split; [reflexivity|discriminate].
  - refine (proj1 (H2 _)). vm_compute. split; [reflexivity|discriminate].
Defined.

(** The edges of [convert_to_smallest_units].  An asset without decimals
    refuses any fraction, although excess decimals are meant to be
    truncated; and an asset announced with more than 38 decimals reaches an
    unchecked multiplication, since a zero whole part never overflows. *)
Theorem convert_edges (w f : string) :
  all_chars is_ascii_digit w = true -> all_chars is_ascii_digit f = true -> w <> "" -> f <> "" ->
  dec w <= u128_max ->
  convert_to_smallest_units (w +++ String "." f) 0 = Refused "invalid fractional part"
  /\ convert_to_smallest_units "0.1" 40 = Overflow.
Proof.
  intros Hw Hf Hnw Hnf HW. split; [|vm_compute; reflexivity].
  unfold convert_to_smallest_units. rewrite trim_amount by done.
  assert (is_empty (w +++ String "." f) = false) as -> by (destruct w; done).
  rewrite split_point by done. unfold convert_parts. rewrite Hw, Hf, andb_false_r. cbn [negb].
  rewrite parse_uint_value by (done || (unfold u128_max; lia)).
  replace (dec w <=? u128_max) with true by lia. cbn [scale]. unfold add_fraction.
  destruct f as [|c f]; [done|]. reflexivity.
Qed.

Lemma convert_edges_witness : convert_to_smallest_units "3.5" 0 = Refused "invalid fractional part".
Proof.
  refine (proj1 (convert_edges "3" "5" eq_refl eq_refl _ _ _)); vm_compute; discriminate.
Defined.
