(* ===== verification/Swaps.v ===== *)
(** Swaps ([swap_service.rs], [db/swap_meta.rs], and the status mapping of
    [near_intents.rs]): the swap table, quotes, starting a swap in either
    direction, refreshing and polling its status.

    The 1Click API, the wallet's transaction view and the sending of a
    deposit are parameters; each call reads the clock once. *)
From S2P Require Import Prelude Text Domain AppDb Amounts.
From Stdlib Require Import Ascii.
Open Scope Z_scope.

(** ** The swap table (swap_meta.rs) *)

Definition swap_type_debug (t : SwapType) : string :=
  match t with SwapType.ToZec => "ToZec" | SwapType.FromZec => "FromZec" end.

Definition parse_swap_type (value : string) : SwapType :=
  if bool_decide (value = "FromZec") then SwapType.FromZec else SwapType.ToZec.

Definition swap_state_debug (s : SwapState) : string :=
  match s with
  | SwapState.Draft => "Draft"
  | SwapState.AwaitingDeposit => "AwaitingDeposit"
  | SwapState.Pending => "Pending"
  | SwapState.Confirming => "Confirming"
  | SwapState.Completed => "Completed"
  | SwapState.Refunded => "Refunded"
  | SwapState.Failed => "Failed"
  end.

Definition parse_swap_state (value : string) : SwapState :=
  if bool_decide (value = "Draft") then SwapState.Draft
  else if bool_decide (value = "AwaitingDeposit") then SwapState.AwaitingDeposit
  else if bool_decide (value = "Pending") then SwapState.Pending
  else if bool_decide (value = "Confirming") then SwapState.Confirming
  else if bool_decide (value = "Completed") then SwapState.Completed
  else if bool_decide (value = "Refunded") then SwapState.Refunded
  else if bool_decide (value = "Failed") then SwapState.Failed
  else SwapState.Pending.

Definition row_of_swap (wallet_id : Uuid) (s : SwapInfo) : SwapRow :=
  mkSwapRow wallet_id (swap_type_debug (sw_swap_type s)) (swap_state_debug (sw_state s)) s.

(** [swap_info_from_list_row]: the enum columns are parsed, the others copied. *)
Definition swap_info_from_list_row (r : SwapRow) : SwapInfo :=
  let s := sw_columns r in
  mkSwapInfo (sw_id s) (sw_remote_id s) (parse_swap_type (sw_swap_type_text r)) (sw_input_asset s)
    (sw_input_amount s) (sw_output_asset s) (sw_output_amount s) (sw_deposit_address s)
    (sw_deposit_memo s) (sw_destination_address s) (sw_refund_address s)
    (parse_swap_state (sw_state_text r)) (sw_deadline s) (sw_last_error s) (sw_created_at s)
    (sw_updated_at s).

Definition swap_key (swap_id : Uuid) (r : SwapRow) : bool := bool_decide (sw_id (sw_columns r) = swap_id).

Definition insert_swap (wallet_id : Uuid) (swap : SwapInfo) : M AppDb unit :=
  db_stmt ;;
  db ← m_get;
  db_require (negb (existsb (swap_key (sw_id swap)) (adb_swaps db))) constraint_error ;;
  db_require (wallet_exists db wallet_id) constraint_error ;;
  m_put (set_swaps db (adb_swaps db ++ [row_of_swap wallet_id swap])%list).

Definition get_swap (swap_id : Uuid) : M AppDb (option (Uuid * SwapInfo)) :=
  db_stmt ;;
  db ← m_get;
  mret ((fun r => (sw_wallet_id r, swap_info_from_list_row r)) <$>
        find_first (swap_key swap_id) (adb_swaps db)).

(** [ORDER BY created_at DESC]. *)
Definition swap_order (a b : SwapRow) : bool := sw_created_at (sw_columns b) <=? sw_created_at (sw_columns a).

Definition list_swaps_for_wallet (wallet_id : Uuid) : M AppDb (list SwapInfo) :=
  db_stmt ;;
  db ← m_get;
  mret (map swap_info_from_list_row
    (isort swap_order (filter (fun r => sw_wallet_id r = wallet_id) (adb_swaps db)))).

(** The WHERE clause of [list_pollable_swaps_for_wallet]. *)
Definition pollable (now_ms : Z) (r : SwapRow) : bool :=
  let s := sw_columns r in
  bool_decide (is_Some (sw_deposit_address s))
  && (bool_decide (sw_state_text r = "Pending") || bool_decide (sw_state_text r = "Confirming")
      || ((bool_decide (sw_state_text r = "Draft") || bool_decide (sw_state_text r = "AwaitingDeposit"))
          && match sw_deadline s with None => true | Some d => now_ms <? d end)).

Definition list_pollable_swaps_for_wallet (now_ms : Z) (wallet_id : Uuid) : M AppDb (list SwapInfo) :=
  db_stmt ;;
  db ← m_get;
  mret (map swap_info_from_list_row
    (isort swap_order
      (filter (fun r => sw_wallet_id r = wallet_id /\ pollable now_ms r = true) (adb_swaps db)))).

(** Every column but the id and [created_at]. *)
Definition updated_row (wallet_id : Uuid) (swap : SwapInfo) (r : SwapRow) : SwapRow :=
  let c := sw_created_at (sw_columns r) in
  mkSwapRow wallet_id (swap_type_debug (sw_swap_type swap)) (swap_state_debug (sw_state swap))
    (mkSwapInfo (sw_id swap) (sw_remote_id swap) (sw_swap_type swap) (sw_input_asset swap)
       (sw_input_amount swap) (sw_output_asset swap) (sw_output_amount swap) (sw_deposit_address swap)
       (sw_deposit_memo swap) (sw_destination_address swap) (sw_refund_address swap) (sw_state swap)
       (sw_deadline swap) (sw_last_error swap) c (sw_updated_at swap)).

Definition update_swap (wallet_id : Uuid) (swap : SwapInfo) : M AppDb unit :=
  db_stmt ;;
  db ← m_get;
  db_require (negb (existsb (swap_key (sw_id swap)) (adb_swaps db)) || wallet_exists db wallet_id)
    constraint_error ;;
  m_put (set_swaps db (map (fun r =>
    if swap_key (sw_id swap) r then updated_row wallet_id swap r else r) (adb_swaps db))).

(** ** The remote side (near_intents.rs) *)

Inductive RemoteStatus :=
| PendingDeposit | KnownDepositTx | IncompleteDeposit | Processing | Success | RemoteRefunded
| RemoteFailed | UnknownStatus (s : string).

Definition map_remote_status_to_local_state (status : RemoteStatus) : SwapState :=
  match status with
  | PendingDeposit => SwapState.AwaitingDeposit
  | KnownDepositTx => SwapState.Pending
  | IncompleteDeposit => SwapState.Failed
  | Processing => SwapState.Pending
  | Success => SwapState.Confirming
  | RemoteRefunded => SwapState.Refunded
  | RemoteFailed => SwapState.Failed
  | UnknownStatus _ => SwapState.Pending
  end.

Inductive NearIntentsError :=
| RateLimited (retry_after : option Z)
| TorNotReady
| Transport (m : string)
| Http (status : Z) (m : string)
| InvalidResponse (m : string).

(** Its [Display] form. *)
Definition near_error_to_string (e : NearIntentsError) : string :=
  match e with
  | RateLimited _ => "rate limited"
  | TorNotReady => "Tor is enabled but not ready"
  | Transport m => "transport error: " +:+ m
  | Http status m => "http error: status=" +:+ uint_to_string status +:+ " " +:+ m
  | InvalidResponse m => "invalid response: " +:+ m
  end.

Record StatusResponse := mkStatusResponse { sr_status : RemoteStatus; sr_message : option string }.

Record StatusRequest := mkStatusRequest { sq_status_address : string; sq_status_memo : option string }.

Record AppFee := mkAppFee { fee_recipient : string; fee_bps : Z }.

Record QuoteRequest := mkQuoteRequest {
  qr_origin_asset : string; qr_destination_asset : string; qr_amount : string; qr_swap_type : string;
  qr_slippage_tolerance : Z; qr_quote_waiting_time_ms : option Z; qr_referral : option string;
  qr_app_fees : option (list AppFee); qr_deposit_type : string; qr_refund_to : string;
  qr_refund_type : string; qr_recipient : string; qr_recipient_type : string; qr_deadline : string;
  qr_dry : bool;
}.

Record QuoteResponse := mkQuoteResponse {
  qp_amount_in : string; qp_amount_in_formatted : string; qp_amount_in_usd : string; qp_min_amount_in : string;
  qp_amount_out : string; qp_amount_out_formatted : string; qp_amount_out_usd : string; qp_min_amount_out : string;
  qp_deadline_iso : option string; qp_deadline_ms : option Z; qp_time_when_inactive_iso : option string;
  qp_time_estimate_secs : Z;
  qp_deposit_address : option string; qp_deposit_memo : option string; qp_correlation_id : string;
}.

(** ** The service state *)

Definition TOKEN_DECIMALS_CACHE_TTL_MS : Z := 5 * 60 * 1000.
Definition NEAR_STATUS_TIMEOUT_SECS : Z := 15.

Record QuoteRecord := mkQuoteRecord { q_wallet_id : Uuid; q_intent : SwapIntent; q_quote : SwapQuote }.

(** [State]: quotes by id, the swaps being polled, the refreshes in flight,
    the token decimals and when they were fetched. *)
Record SwapSvc := mkSwapSvc {
  ss_quotes : gmap string QuoteRecord;
  ss_jobs : gset Uuid;
  ss_refresh_inflight : gset Uuid;
  ss_token_decimals : gmap string Z;
  ss_token_decimals_updated_ms : option Z;
}.

(** The service, the database, the events, the deposits sent (address and
    amount) and the deposits announced to the API (transaction and address). *)
Record SwapEnv := mkSwapEnv {
  se_svc : SwapSvc;
  se_db : AppDb;
  se_events : list Event;
  se_deposits : list (string * string);
  se_submitted : list (string * string);
}.

Definition set_quotes (s : SwapSvc) (q : gmap string QuoteRecord) : SwapSvc :=
  mkSwapSvc q (ss_jobs s) (ss_refresh_inflight s) (ss_token_decimals s) (ss_token_decimals_updated_ms s).
Definition set_jobs (s : SwapSvc) (j : gset Uuid) : SwapSvc :=
  mkSwapSvc (ss_quotes s) j (ss_refresh_inflight s) (ss_token_decimals s) (ss_token_decimals_updated_ms s).
Definition set_inflight (s : SwapSvc) (r : gset Uuid) : SwapSvc :=
  mkSwapSvc (ss_quotes s) (ss_jobs s) r (ss_token_decimals s) (ss_token_decimals_updated_ms s).

Definition in_svc {A} (m : M SwapSvc A) : M SwapEnv A :=
  m_zoom se_svc (fun s e => mkSwapEnv s (se_db e) (se_events e) (se_deposits e) (se_submitted e)) m.
Definition in_db {A} (m : M AppDb A) : M SwapEnv A :=
  m_zoom se_db (fun db e => mkSwapEnv (se_svc e) db (se_events e) (se_deposits e) (se_submitted e)) m.
Definition emit_swap (on : bool) (swap : SwapInfo) : M SwapEnv unit :=
  if on then m_modify (fun e =>
    mkSwapEnv (se_svc e) (se_db e) (se_events e ++ [SwapChangedEvent swap])%list (se_deposits e)
      (se_submitted e))
  else mret tt.

(** [open_app_db_connection]. *)
Definition open_conn : M SwapEnv unit := in_db db_stmt.

(** ** Quotes *)

Definition invalid_asset : error := ipc_err errors.INVALID_ASSET "invalid asset".

(** [get_supported_tokens]: the tokens with their decimals. *)
Definition resolve_asset_decimals (now_ms : Z) (tokens : NearIntentsError + list (string * Z))
    (asset_id : string) : M SwapSvc Z :=
  let asset_id := trim asset_id in
  if is_empty asset_id then m_err invalid_asset
  else
  match get_static_decimals_for_asset asset_id with
  | Some decimals => mret decimals
  | None =>
      s ← m_get;
      let cached_decimals := ss_token_decimals s !! asset_id in
      let cache_is_fresh :=
        match ss_token_decimals_updated_ms s with
        | Some updated_ms => i64_saturating_sub now_ms updated_ms <=? TOKEN_DECIMALS_CACHE_TTL_MS
        | None => false
        end in
      let unsupported := ipc_err errors.INVALID_ASSET ("unsupported asset: " +:+ asset_id) in
      if cache_is_fresh then
        match cached_decimals with
        | Some decimals => mret decimals
        | None => m_err unsupported
        end
      else
        match tokens with
        | inl err =>
            match cached_decimals with
            | Some decimals => mret decimals
            | None =>
                m_err (match err with
                       | TorNotReady => ipc_err errors.TOR_NOT_READY "Tor is enabled but not ready"
                       | _ => ipc_err errors.SWAP_FAILED
                                ("failed to fetch supported tokens: " +:+ near_error_to_string err)
                       end)
            end
        | inr tokens =>
            (* later entries of the list win, as in the loop of inserts *)
            let refreshed := foldl (fun m '(id, d) => <[id := d]> m) ∅ tokens in
            m_put (mkSwapSvc (ss_quotes s) (ss_jobs s) (ss_refresh_inflight s) refreshed (Some now_ms)) ;;
            match refreshed !! asset_id with
            | Some decimals => mret decimals
            | None => m_err unsupported
            end
        end
  end.

(** A trimmed, non-empty optional field. *)
Definition required (o : option string) (e : error) : result string :=
  match o with
  | Some s => if is_empty (trim s) then Err e else Ok (trim s)
  | None => Err e
  end.

(** The amount in smallest units; an overflow is the panic of a debug build. *)
Definition amount_units (amount : string) (decimals : Z) : result string :=
  match convert_to_smallest_units amount (Z.to_nat decimals) with
  | Converted u => Ok u
  | Refused e => Err (ipc_err errors.INVALID_REQUEST ("invalid amount: " +:+ e))
  | Overflow => Err (AnyhowMsg "attempt to multiply with overflow")
  end.

Definition APP_FEE_BPS : Z := 0.

Definition quote_of_response (intent : SwapIntent) (deadline_ms_fallback : Z) (r : QuoteResponse)
    : SwapQuote :=
  mkSwapQuote (in_input_asset intent) (qp_amount_in r) (qp_amount_in_formatted r)
    (in_output_asset intent) (qp_amount_out r) (qp_amount_out_formatted r) (qp_min_amount_out r)
    (match qp_deadline_ms r with
     | Some ms => if 0 <? ms then ms else deadline_ms_fallback
     | None => deadline_ms_fallback
     end)
    (qp_time_estimate_secs r) (qp_deposit_address r) (qp_deposit_memo r) (qp_correlation_id r)
    (if APP_FEE_BPS =? 0 then None else Some APP_FEE_BPS).

(** [to_rfc3339] is chrono's formatting of an instant. *)
Definition request_swap_quote (to_rfc3339 : Z -> string) (now_ms : Z) (tokens : NearIntentsError + list (string * Z))
    (get_quote : QuoteRequest -> NearIntentsError + QuoteResponse)
    (wallet_id : Uuid) (network : Network) (intent : SwapIntent) : M SwapSvc (string * SwapQuote) :=
  if bool_decide (network = Network.Testnet)
  then m_err (ipc_err errors.SWAP_UNSUPPORTED_NETWORK "swaps are not supported on Testnet")
  else if is_empty (trim (in_input_asset intent)) || is_empty (trim (in_output_asset intent))
  then m_err invalid_asset
  else
  '(amount_smallest, swap_type_str) ←
    (match in_swap_mode intent with
     | SwapMode.ExactInput =>
         if is_empty (trim (in_input_amount intent))
         then m_err (ipc_err errors.INVALID_REQUEST "missing input_amount for ExactInput mode")
         else
           decimals ← resolve_asset_decimals now_ms tokens (in_input_asset intent);
           amount ← m_lift (amount_units (in_input_amount intent) decimals);
           mret (amount, "EXACT_INPUT")
     | SwapMode.ExactOutput =>
         output_amount ← m_lift (required (in_output_amount intent)
           (ipc_err errors.INVALID_REQUEST "missing output_amount for ExactOutput/CrossPay mode"));
         decimals ← resolve_asset_decimals now_ms tokens (in_output_asset intent);
         amount ← m_lift (amount_units output_amount decimals);
         mret (amount, "EXACT_OUTPUT")
     end);
  recipient ← m_lift (required (in_destination_address intent)
    (ipc_err errors.INVALID_REQUEST "destination_address required"));
  refund_to ← m_lift (required (in_refund_address intent)
    (ipc_err errors.INVALID_REQUEST "refund_address required"));
  let deadline_ms := now_ms + 2 * 60 * 60 * 1000 in
  let app_fees := if APP_FEE_BPS =? 0 then None else Some [mkAppFee "zbag.near" APP_FEE_BPS] in
  let req := mkQuoteRequest (in_input_asset intent) (in_output_asset intent) amount_smallest
               swap_type_str 100 (Some 3000) (Some "zbag") app_fees "ORIGIN_CHAIN" refund_to
               "ORIGIN_CHAIN" recipient "DESTINATION_CHAIN" (to_rfc3339 deadline_ms) false in
  match get_quote req with
  | inl TorNotReady => m_err (ipc_err errors.TOR_NOT_READY "Tor is enabled but not ready")
  | inl e => m_err (ipc_err errors.SWAP_FAILED ("failed to fetch quote: " +:+ near_error_to_string e))
  | inr quote_res =>
      let quote := quote_of_response intent deadline_ms quote_res in
      let quote_id := qp_correlation_id quote_res in
      s ← m_get;
      let kept := filter (fun kv =>
        sq_deadline (q_quote kv.2) = 0 \/ now_ms < sq_deadline (q_quote kv.2)) (ss_quotes s) in
      m_put (set_quotes s (<[quote_id := mkQuoteRecord wallet_id intent quote]> kept)) ;;
      mret (quote_id, quote)
  end.

(** ** Starting a swap *)

(** [start_polling]; [spawned] is whether the runtime accepted the task. *)
Definition start_polling (spawned : bool) (swap_id : Uuid) : M SwapSvc bool :=
  s ← m_get;
  if bool_decide (swap_id ∈ ss_jobs s) then mret false
  else
    m_put (set_jobs s ({[swap_id]} ∪ ss_jobs s)) ;;
    if spawned then mret true
    else m_modify (fun s => set_jobs s (ss_jobs s ∖ {[swap_id]})) ;; mret false.

(** The record of a new swap, made from its quote. *)
Definition new_swap (id : Uuid) (record : QuoteRecord) (deposit_address : string) (state : SwapState)
    (now_ms : Z) : SwapInfo :=
  let quote := q_quote record in
  let intent := q_intent record in
  mkSwapInfo id (Some (sq_correlation_id quote)) (in_swap_type intent) (in_input_asset intent)
    (sq_input_amount_formatted quote) (in_output_asset intent) (Some (sq_output_amount_formatted quote))
    (Some deposit_address) (sq_deposit_memo quote) (in_destination_address intent)
    (in_refund_address intent) state (Some (sq_deadline quote)) None now_ms now_ms.

Definition with_state (swap : SwapInfo) (state : SwapState) (last_error : option string) (now_ms : Z)
    : SwapInfo :=
  mkSwapInfo (sw_id swap) (sw_remote_id swap) (sw_swap_type swap) (sw_input_asset swap)
    (sw_input_amount swap) (sw_output_asset swap) (sw_output_amount swap) (sw_deposit_address swap)
    (sw_deposit_memo swap) (sw_destination_address swap) (sw_refund_address swap) state
    (sw_deadline swap) last_error (sw_created_at swap) now_ms.

(** The lookup of [start_swap]: the quote must exist, belong to the wallet
    and not have expired; an expired one is dropped. *)
Definition take_quote (now_ms : Z) (wallet_id : Uuid) (quote_id : string) : M SwapSvc QuoteRecord :=
  s ← m_get;
  match ss_quotes s !! quote_id with
  | None => m_err (ipc_err errors.QUOTE_EXPIRED "quote not found")
  | Some record =>
      if negb (bool_decide (q_wallet_id record = wallet_id))
      then m_err (ipc_err errors.QUOTE_EXPIRED "quote not found")
      else if (0 <? sq_deadline (q_quote record)) && (sq_deadline (q_quote record) <=? now_ms)
      then m_put (set_quotes s (delete quote_id (ss_quotes s))) ;;
           m_err (ipc_err errors.QUOTE_EXPIRED "quote expired")
      else mret record
  end.

Section Start.
(** The wallet's send: proposal, confirmation and broadcast to an address of
    an amount in zatoshis, with a memo; the transaction id of a success. *)
Context (send_zec : Z -> string -> string -> option string -> string -> result string).

(** A deposit: the send is recorded whether or not it is reported as failed. *)
Definition send_deposit (account_id : Z) (deposit_address amount : string) (memo : option string)
    (reauth_token : string) : M SwapEnv string := fun e =>
  (send_zec account_id deposit_address amount memo reauth_token,
   mkSwapEnv (se_svc e) (se_db e) (se_events e)
     (se_deposits e ++ [(deposit_address, amount)])%list (se_submitted e)).

(** [submit_deposit] announces the transaction to the API; a failure is only
    logged. *)
Definition submit_deposit (tx_hash deposit_address : string) : M SwapEnv unit :=
  m_modify (fun e => mkSwapEnv (se_svc e) (se_db e) (se_events e) (se_deposits e)
                       (se_submitted e ++ [(tx_hash, deposit_address)])%list).

Definition start_swap_from_zec (now_ms : Z) (new_id : Uuid) (spawned : bool) (wallet_id : Uuid)
    (allow_transparent_interaction : bool) (reauth_token : option string) (on_swap_changed : bool)
    (record : QuoteRecord) : M SwapEnv SwapInfo :=
  if negb allow_transparent_interaction
  then m_err (ipc_err errors.PRIVACY_ACK_REQUIRED
                "swap-from-ZEC requires transparent interaction acknowledgement")
  else
  match reauth_token with
  | None => m_err (ipc_err errors.INVALID_REQUEST "reauth_token required")
  | Some reauth_token =>
      if is_empty (trim reauth_token)
      then m_err (ipc_err errors.INVALID_REQUEST "reauth_token required")
      else
      deposit_address ← m_lift (ok_or (sq_deposit_address (q_quote record))
        (ipc_err errors.SWAP_FAILED "quote missing deposit address"));
      open_conn ;;
      accounts ← m_context "failed to list accounts" (in_db (list_accounts wallet_id));
      account ← m_lift (ok_or
        (find_first (fun a => bool_decide (ai_account_type a = AccountType.Software)) accounts)
        (ipc_err errors.WATCH_ONLY_CANNOT_SPEND "no spend-capable account available"));
      let swap := new_swap new_id record deposit_address SwapState.Draft now_ms in
      m_context "failed to insert swap" (in_db (insert_swap wallet_id swap)) ;;
      emit_swap on_swap_changed swap ;;
      sent ← m_try (send_deposit (ai_id account) deposit_address (sq_input_amount (q_quote record))
                      (sw_deposit_memo swap) reauth_token);
      match sent with
      | Err err =>
          let swap := with_state swap SwapState.Failed (Some (error_to_string err)) now_ms in
          m_ignore (in_db (update_swap wallet_id swap)) ;;
          emit_swap on_swap_changed swap ;;
          m_err err
      | Ok txid =>
          submit_deposit txid deposit_address ;;
          let swap := with_state swap SwapState.Pending None now_ms in
          m_context "failed to update swap" (in_db (update_swap wallet_id swap)) ;;
          emit_swap on_swap_changed swap ;;
          in_svc (start_polling spawned (sw_id swap)) ;;
          mret swap
      end
  end.

Definition start_swap (now_ms : Z) (new_id : Uuid) (spawned : bool) (wallet_id : Uuid)
    (network : Network) (quote_id : string) (allow_transparent_interaction : bool)
    (reauth_token : option string) (on_swap_changed : bool) : M SwapEnv SwapInfo :=
  if bool_decide (network = Network.Testnet)
  then m_err (ipc_err errors.SWAP_UNSUPPORTED_NETWORK "swaps are not supported on Testnet")
  else
  record ← in_svc (take_quote now_ms wallet_id quote_id);
  if bool_decide (in_swap_type (q_intent record) = SwapType.FromZec)
  then start_swap_from_zec now_ms new_id spawned wallet_id allow_transparent_interaction reauth_token
         on_swap_changed record
  else
  deposit_address ← m_lift (ok_or (sq_deposit_address (q_quote record))
    (ipc_err errors.SWAP_FAILED "quote missing deposit address"));
  let swap := new_swap new_id record deposit_address SwapState.AwaitingDeposit now_ms in
  open_conn ;;
  m_context "failed to insert swap" (in_db (insert_swap wallet_id swap)) ;;
  emit_swap on_swap_changed swap ;;
  in_svc (start_polling spawned (sw_id swap)) ;;
  mret swap.
End Start.

(** ** Status *)

Definition swap_not_found : error := ipc_err errors.SWAP_FAILED "swap not found".

Definition load_owned_swap (wallet_id swap_id : Uuid) : M AppDb SwapInfo :=
  found ← m_context "failed to load swap" (get_swap swap_id);
  match found with
  | None => m_err swap_not_found
  | Some (owner_wallet_id, swap) =>
      if bool_decide (owner_wallet_id = wallet_id) then mret swap else m_err swap_not_found
  end.

Definition get_swap_status (wallet_id swap_id : Uuid) : M SwapEnv SwapInfo :=
  open_conn ;; in_db (load_owned_swap wallet_id swap_id).

Definition list_swaps (wallet_id : Uuid) : M SwapEnv (list SwapInfo) :=
  open_conn ;; m_context "failed to list swaps" (in_db (list_swaps_for_wallet wallet_id)).

(** A row of the wallet's transaction view; [None] where a column does not
    convert. *)
Record TxRow := mkTxRow {
  tr_txid : string;
  tr_mined_height : option Z;
  tr_fee_paid : option Z;
  tr_total_spent : option Z;
  tr_total_received : option Z;
  tr_is_shielding : option bool;
  tr_sent_note_count : option Z;
  tr_received_note_count : option Z;
  tr_block_time : option Z;
}.

Definition u64_of_i64 (x : Z) : Z := Z.max x 0.

(** Whether a mined transaction is the ZEC side of the swap. *)
Definition row_matches (swap : SwapInfo) (r : TxRow) : bool :=
  let expected :=
    match sw_swap_type swap with
    | SwapType.ToZec => sw_output_amount swap ≫= parse_zatoshis
    | SwapType.FromZec => parse_zatoshis (sw_input_amount swap)
    end in
  let min_block_time_s := Z.quot (i64_saturating_sub (sw_created_at swap) (15 * 60 * 1000)) 1000 in
  let is_expected amount := match expected with Some e => amount =? e | None => true end in
  match tr_is_shielding r, tr_sent_note_count r, tr_received_note_count r with
  | Some false, Some sent, Some received =>
      if match tr_block_time r with Some bt => bt <? min_block_time_s | None => false end then false
      else
        match sw_swap_type swap with
        | SwapType.ToZec =>
            if (0 <? sent) || (received <=? 0) then false
            else match tr_total_received r with
                 | Some total => is_expected (u64_of_i64 total)
                 | None => false
                 end
        | SwapType.FromZec =>
            if sent <=? 0 then false
            else match tr_total_spent r, tr_total_received r with
                 | Some spent, Some received =>
                     let fee := match tr_fee_paid r with Some f => u64_of_i64 f | None => 0 end in
                     is_expected (u64_saturating_sub
                       (u64_saturating_sub (u64_of_i64 spent) (u64_of_i64 received)) fee)
                 | _, _ => false
                 end
        end
  | _, _, _ => false
  end.

(** The query: mined transactions, newest first, at most 200. *)
Definition tx_order (a b : TxRow) : bool :=
  let ta := default 0 (tr_block_time a) in
  let tb := default 0 (tr_block_time b) in
  (tb <? ta) || ((ta =? tb) && String.leb (tr_txid b) (tr_txid a)).

Definition recent_mined (rows : list TxRow) : list TxRow :=
  take 200 (isort tx_order (filter (fun r => is_Some (tr_mined_height r)) rows)).

(** [wallet_rows]: the transaction view of the wallet, when it is active, has
    a context and its database opens. *)
Definition has_confirmed_zcash_tx (wallet_rows : option (list TxRow)) (swap : SwapInfo) : bool :=
  match wallet_rows with
  | None => false
  | Some rows => existsb (row_matches swap) (recent_mined rows)
  end.

Definition next_state_from_remote_status (wallet_rows : option (list TxRow)) (swap : SwapInfo)
    (remote_status : RemoteStatus) : SwapState :=
  let mapped := map_remote_status_to_local_state remote_status in
  if bool_decide (mapped = SwapState.Confirming) && has_confirmed_zcash_tx wallet_rows swap
  then SwapState.Completed else mapped.

Definition is_terminal_state (s : SwapState) : bool :=
  match s with
  | SwapState.Completed | SwapState.Refunded | SwapState.Failed => true
  | _ => false
  end.

(** The outcome of [get_status] under its time-out: [None] when it fires. *)
Definition status_with_timeout (r : option (NearIntentsError + StatusResponse))
    : NearIntentsError + StatusResponse :=
  match r with
  | Some res => res
  | None => inl (Transport ("timeout after " +:+ uint_to_string NEAR_STATUS_TIMEOUT_SECS +:+ "s"))
  end.

Definition try_acquire_refresh_inflight_guard (swap_id : Uuid) : M SwapSvc bool :=
  s ← m_get;
  if bool_decide (swap_id ∈ ss_refresh_inflight s) then mret false
  else m_put (set_inflight s ({[swap_id]} ∪ ss_refresh_inflight s)) ;; mret true.

(** [Drop] of the guard, run on every way out of the scope. *)
Definition with_refresh_guard {A} (swap_id : Uuid) (m : M SwapEnv A) : M SwapEnv A := fun e =>
  let '(r, e') := m e in
  (r, mkSwapEnv (set_inflight (se_svc e') (ss_refresh_inflight (se_svc e') ∖ {[swap_id]}))
        (se_db e') (se_events e') (se_deposits e') (se_submitted e')).

Section Status.
(** The answer of the API, the wallet view and whether the wallet is active
    and unlocked, at the time of the call. *)
Context (get_status : StatusRequest -> option (NearIntentsError + StatusResponse)) (wallet_rows : option (list TxRow))
        (active : bool).

Definition refresh_swap_status (now_ms : Z) (wallet_id swap_id : Uuid) (on_swap_changed : bool)
    : M SwapEnv SwapInfo :=
  open_conn ;;
  swap ← in_db (load_owned_swap wallet_id swap_id);
  if is_terminal_state (sw_state swap) then mret swap
  else match sw_deposit_address swap with
  | None => mret swap
  | Some deposit_address =>
      acquired ← in_svc (try_acquire_refresh_inflight_guard swap_id);
      if negb acquired then mret swap
      else with_refresh_guard swap_id
        (match status_with_timeout
                 (get_status (mkStatusRequest deposit_address (sw_deposit_memo swap))) with
         | inr st =>
             let next_state := next_state_from_remote_status wallet_rows swap (sr_status st) in
             let next_last_error := sr_message st in
             if negb (bool_decide (next_state = sw_state swap))
                || negb (bool_decide (next_last_error = sw_last_error swap))
             then
               let swap := with_state swap next_state next_last_error now_ms in
               m_context "failed to update swap" (in_db (update_swap wallet_id swap)) ;;
               emit_swap (on_swap_changed && active) swap ;;
               mret swap
             else mret swap
         | inl e =>
             let swap := with_state swap (sw_state swap) (Some (near_error_to_string e)) now_ms in
             m_context "failed to update swap" (in_db (update_swap wallet_id swap)) ;;
             emit_swap (on_swap_changed && active) swap ;;
             mret swap
         end)
  end.

(** [try_persist_and_emit_swap_change]: database errors are only logged. *)
Definition try_persist_and_emit_swap_change (wallet_id : Uuid) (swap : SwapInfo) (on_swap_changed : bool)
    : M SwapEnv unit :=
  m_ignore (open_conn ;; in_db (update_swap wallet_id swap)) ;;
  emit_swap (on_swap_changed && active) swap.

(** One turn of the polling loop: the swap as the task knows it and the
    back-off in seconds; [None] leaves the loop, and the guard removes the
    job.  [active_before] is the check before the sleep; nothing in the
    service signals the cancellation channel. *)
Definition poll_turn (active_before : bool) (now_ms : Z) (wallet_id : Uuid) (on_swap_changed : bool)
    (st : SwapInfo * Z) : M SwapEnv (option (SwapInfo * Z)) :=
  let '(swap, backoff) := st in
  let stop := in_svc (m_modify (fun s => set_jobs s (ss_jobs s ∖ {[sw_id swap]}))) ;; mret None in
  if negb active_before || negb active then stop
  else match sw_deposit_address swap with
  | None => stop
  | Some deposit_address =>
      match status_with_timeout
              (get_status (mkStatusRequest deposit_address (sw_deposit_memo swap))) with
      | inr r =>
          let backoff := 5 in
          let next_state := next_state_from_remote_status wallet_rows swap (sr_status r) in
          let next_last_error := sr_message r in
          swap' ←
            (if negb (bool_decide (next_state = sw_state swap))
                || negb (bool_decide (next_last_error = sw_last_error swap))
             then
               let swap := with_state swap next_state next_last_error now_ms in
               try_persist_and_emit_swap_change wallet_id swap on_swap_changed ;; mret swap
             else mret swap);
          if is_terminal_state (sw_state swap') then stop else mret (Some (swap', backoff))
      | inl (RateLimited retry_after) =>
          mret (Some (swap, Z.min (default (backoff * 2) retry_after) 60))
      | inl err =>
          let swap' := with_state swap (sw_state swap) (Some (near_error_to_string err)) now_ms in
          try_persist_and_emit_swap_change wallet_id swap' on_swap_changed ;;
          mret (Some (swap', Z.min (backoff * 2) 60))
      end
  end.
End Status.

(** The swaps that [resume_pending_swaps] hands to [start_polling], and how
    many of them it starts. *)
Definition resume_pending_swaps (now_ms : Z) (spawned : bool) (wallet_id : Uuid) : M SwapEnv Z :=
  open_conn ;;
  swaps ← m_context "failed to list pollable swaps"
            (in_db (list_pollable_swaps_for_wallet now_ms wallet_id));
  m_fold (fun n swap =>
            started ← in_svc (start_polling spawned (sw_id swap));
            mret (if started : bool then n + 1 else n)) 0 swaps.
