(* ===== verification/SwapSafety.v ===== *)
(** Theorems on swaps: the swap table, who may see a swap, what is on record
    when a deposit has been sent, refreshing, polling and resuming. *)
From S2P Require Import Prelude Text Domain AppDb Amounts Swaps.
From Stdlib Require Import Ascii.
Open Scope Z_scope.

(** ** The swap table *)

Lemma parse_swap_state_debug s : parse_swap_state (swap_state_debug s) = s.
Proof. by destruct s. Qed.

Lemma parse_swap_type_debug t : parse_swap_type (swap_type_debug t) = t.
Proof. by destruct t. Qed.

Lemma row_of_swap_read w s : swap_info_from_list_row (row_of_swap w s) = s.
Proof.
  unfold swap_info_from_list_row, row_of_swap. cbn.
  rewrite parse_swap_state_debug, parse_swap_type_debug. by destruct s.
Qed.

Lemma find_first_app {A} (p : A -> bool) l x :
  existsb p l = false -> p x = true -> find_first p (l ++ [x])%list = Some x.
Proof.
  induction l as [|y l IH]; simpl; [by intros _ ->|].
  intros [Hy Hl]%orb_false_iff Hx. rewrite Hy. auto.
Qed.

(** Running a statement: a scripted failure, or the tables untouched. *)
Lemma db_stmt_cases db :
  exists fs, (db_stmt db = (Ok tt, set_faults db fs) \/ db_stmt db = (Err sqlite_error, set_faults db fs)).
Proof.
  unfold db_stmt. destruct (adb_faults db) as [|f fs] eqn:E.
  - exists []. left. destruct db. simpl in E. by subst.
  - exists fs. destruct f; auto.
Qed.

Lemma db_stmt_quiet db : adb_faults db = [] -> db_stmt db = (Ok tt, db).
Proof. intros H. unfold db_stmt. by rewrite H. Qed.

Lemma insert_swap_cases w s db :
  match insert_swap w s db with
  | (Ok _, db') => existsb (swap_key (sw_id s)) (adb_swaps db) = false
      /\ adb_swaps db' = (adb_swaps db ++ [row_of_swap w s])%list
      /\ adb_wallets db' = adb_wallets db /\ wallet_exists db w = true
  | (Err _, db') => adb_swaps db' = adb_swaps db /\ adb_wallets db' = adb_wallets db
  end.
Proof.
  unfold insert_swap, mbind, M_bind, m_get, m_put, db_require.
  destruct (db_stmt_cases db) as (fs & [->| ->]); [|done]. cbn.
  destruct (existsb (swap_key (sw_id s)) (adb_swaps db)) eqn:Ek; cbn; [done|].
  unfold wallet_exists. cbn. by destruct (existsb _ (adb_wallets db)).
Qed.

Lemma update_swap_cases w s db :
  match update_swap w s db with
  | (Ok _, db') => adb_swaps db' = map (fun r =>
        if swap_key (sw_id s) r then updated_row w s r else r) (adb_swaps db)
  | (Err _, db') => adb_swaps db' = adb_swaps db
  end.
Proof.
  unfold update_swap, mbind, M_bind, m_get, m_put, db_require.
  destruct (db_stmt_cases db) as (fs & [->| ->]); [|done]. cbn.
  by destruct (negb _ || _).
Qed.

(** The swap table: a swap that was inserted is read back unchanged, by
    id and in the wallet's list, whatever its state and type; inserting the
    same id again is refused and changes no row. *)
Theorem swap_insert_then_get (w : Uuid) (s s2 : SwapInfo) (db db' : AppDb) :
  adb_faults db = [] -> insert_swap w s db = (Ok tt, db') ->
  get_swap (sw_id s) db' = (Ok (Some (w, s)), db')
  /\ (exists l, list_swaps_for_wallet w db' = (Ok l, db') /\ s ∈ l)
  /\ (sw_id s2 = sw_id s -> exists e, insert_swap w s2 db' = (Err e, db')).
Proof.
  intros Hf H. pose proof (insert_swap_cases w s db) as Hc. rewrite H in Hc.
  destruct Hc as (Hfresh & Hrows & Hw & Hex).
  assert (adb_faults db' = []) as Hf'.
  { unfold insert_swap, mbind, M_bind, m_get, m_put, db_require in H. rewrite db_stmt_quiet in H by done.
    destruct (negb _) in H; [|done]. destruct (wallet_exists _ _) in H; [|done]. by injection H as <-. }
  assert (swap_key (sw_id s) (row_of_swap w s) = true) as Hk by (by apply bool_decide_eq_true).
  split; [|split].
  - unfold get_swap, mbind, M_bind, m_get. rewrite db_stmt_quiet by done. cbn.
    rewrite Hrows, find_first_app by done. cbn. by rewrite row_of_swap_read.
  - unfold list_swaps_for_wallet, mbind, M_bind, m_get. rewrite db_stmt_quiet by done.
    eexists. split; [reflexivity|]. apply list_elem_of_fmap. exists (row_of_swap w s).
    rewrite row_of_swap_read, elem_of_isort, list_elem_of_filter, Hrows. split; [done|].
    split; [done|]. apply elem_of_app. right. by left.
  - intros Hid. unfold insert_swap, mbind, M_bind, m_get, db_require. rewrite db_stmt_quiet by done. cbn.
    rewrite Hid, Hrows, existsb_app. cbn. rewrite Hk, orb_true_r. cbn. eauto.
Qed.

(** A database with one wallet, and a quote for it. *)
Definition demo_swap_db : AppDb :=
  mkAppDb [mkWalletRow "w1" "Main" "/w" "Software" "Mainnet" false 1 None]
    [mkAccountRow "w1" 0 "Account" "Software" 1] [] [] [] [] [] None None [].
Definition demo_intent (ty : SwapType) : SwapIntent :=
  mkSwapIntent ty SwapMode.ExactInput "nep141:zec.omft.near" "1.5" "nep141:eth.omft.near" None
    (Some "0xabc") (Some "t1refund").
Definition demo_quote (ty : SwapType) : QuoteRecord :=
  mkQuoteRecord "w1" (demo_intent ty)
    (mkSwapQuote "nep141:zec.omft.near" "150000000" "1.5" "nep141:eth.omft.near" "1" "0.01" "1" 9000 60
       (Some "t1deposit") None "corr1" None).
Definition demo_swap : SwapInfo :=
  new_swap "s1" (demo_quote SwapType.FromZec) "t1deposit" SwapState.Draft 5000.

Lemma swap_insert_then_get_witness :
  exists db', get_swap "s1" db' = (Ok (Some ("w1", demo_swap)), db').
Proof.
  pose (db' := (insert_swap "w1" demo_swap demo_swap_db).2). exists db'.
  refine (proj1 (swap_insert_then_get "w1" demo_swap demo_swap demo_swap_db db' eq_refl _)).
  vm_compute. reflexivity.
Defined.

(** ** Ownership *)

(** No row of this id belongs to the wallet. *)
Definition foreign (w id : Uuid) (db : AppDb) : Prop :=
  forall r, r ∈ adb_swaps db -> sw_id (sw_columns r) = id -> sw_wallet_id r <> w.

Lemma load_foreign w id db :
  adb_faults db = [] -> foreign w id db -> load_owned_swap w id db = (Err swap_not_found, db).
Proof.
  intros Hf Hfor. unfold load_owned_swap, get_swap, mbind, M_bind, m_context, m_get.
  rewrite db_stmt_quiet by done. cbn.
  destruct (find_first _ _) as [r|] eqn:E; cbn; [|done].
  apply find_first_Some in E as [Hin Hk]. apply bool_decide_eq_true in Hk.
  rewrite bool_decide_eq_false_2 by (by apply Hfor). done.
Qed.

(** Swaps of another wallet are invisible.  For a swap id that is not one
    of the wallet's, reading and refreshing give the same answer whether the
    id does not exist or belongs to someone else, and a refresh changes
    nothing: neither the database, nor the refreshes in flight, nor an
    event. *)
Theorem foreign_swap_invisible (w id : Uuid) (e : SwapEnv)
    (get_status : StatusRequest -> option (NearIntentsError + StatusResponse)) (rows : option (list TxRow))
    (active on : bool) (now_ms : Z) :
  adb_faults (se_db e) = [] -> foreign w id (se_db e) ->
  get_swap_status w id e = (Err swap_not_found, e)
  /\ refresh_swap_status get_status rows active now_ms w id on e = (Err swap_not_found, e).
Proof.
  intros Hf Hfor.
  assert (in_db (load_owned_swap w id) e = (Err swap_not_found, e)) as HL.
  { unfold in_db, m_zoom. rewrite load_foreign by done. by destruct e. }
  assert (open_conn e = (Ok tt, e)) as HO.
  { unfold open_conn, in_db, m_zoom. rewrite db_stmt_quiet by done. by destruct e. }
  unfold get_swap_status, refresh_swap_status, mbind, M_bind. by rewrite HO, HL.
Qed.

Definition demo_swap_env (rows : list SwapRow) : SwapEnv :=
  mkSwapEnv (mkSwapSvc {["corr1" := demo_quote SwapType.FromZec]} ∅ ∅ ∅ None)
    (set_swaps demo_swap_db rows) [] [] [].

Lemma foreign_swap_invisible_witness :
  let e := demo_swap_env [row_of_swap "w2" demo_swap] in
  get_swap_status "w1" "s1" e = (Err swap_not_found, e)
  /\ refresh_swap_status (const None) None true 7000 "w1" "s1" true e = (Err swap_not_found, e).
Proof.
  intros e. apply (foreign_swap_invisible "w1" "s1" e (const None) None true true 7000); [reflexivity|].
  intros r Hr _. apply list_elem_of_In in Hr. destruct Hr as [<-|[]]. discriminate.
Defined.

(** ** Deposits *)

(** A row that a restarted process can follow up: it has the swap's id, the
    address the deposit went to and the id of the quote. *)
Definition on_record (id : Uuid) (addr : string) (record : QuoteRecord) (db : AppDb) : Prop :=
  exists r, r ∈ adb_swaps db /\ sw_id (sw_columns r) = id
    /\ sw_deposit_address (sw_columns r) = Some addr
    /\ sw_remote_id (sw_columns r) = Some (sq_correlation_id (q_quote record)).

(** Steps that touch neither the deposits nor the swap table. *)
Definition framed {A} (m : M SwapEnv A) : Prop := forall e,
  se_deposits (m e).2 = se_deposits e /\ adb_swaps (se_db (m e).2) = adb_swaps (se_db e).

Lemma framed_ret {A} (a : A) : framed (mret a).
Proof. done. Qed.
Lemma framed_err {A} x : framed (m_err x : M SwapEnv A).
Proof. done. Qed.
Lemma framed_lift {A} (r : result A) : framed (m_lift r).
Proof. done. Qed.
Lemma framed_bind {A B} (m : M SwapEnv A) (f : A -> M SwapEnv B) :
  framed m -> (forall a, framed (f a)) -> framed (m ≫= f).
Proof.
  intros Hm Hf e. unfold mbind, M_bind. specialize (Hm e). destruct (m e) as [[a|x] e1]; [|done].
  destruct Hm as [H1 H2]. destruct (Hf a e1) as [H3 H4]. cbn in *. by rewrite H3, H4.
Qed.
Lemma framed_context {A} c (m : M SwapEnv A) : framed m -> framed (m_context c m).
Proof. intros Hm e. unfold m_context. apply Hm. Qed.
Lemma framed_emit on s : framed (emit_swap on s).
Proof. by destruct on. Qed.
Lemma framed_svc {A} (m : M SwapSvc A) : framed (in_svc m).
Proof. intros e. unfold in_svc, m_zoom. by destruct (m (se_svc e)). Qed.
Lemma framed_db {A} (m : M AppDb A) :
  (forall db, adb_swaps (m db).2 = adb_swaps db) -> framed (in_db m).
Proof. intros Hm e. unfold in_db, m_zoom. specialize (Hm (se_db e)). by destruct (m (se_db e)). Qed.
Lemma framed_open : framed open_conn.
Proof. apply framed_db. intros db. destruct (db_stmt_cases db) as (fs & [-> | ->]); done. Qed.
Lemma framed_list_accounts w : framed (in_db (list_accounts w)).
Proof.
  apply framed_db. intros db. unfold list_accounts, mbind, M_bind.
  destruct (db_stmt_cases db) as (fs & [-> | ->]); done.
Qed.

Create HintDb swaps.
#[export] Hint Resolve framed_ret framed_err framed_lift framed_bind framed_context framed_emit framed_svc
  framed_open framed_list_accounts : swaps.

Lemma on_record_update id addr record w s db :
  on_record id addr record db -> sw_id s = id -> sw_deposit_address s = Some addr ->
  sw_remote_id s = Some (sq_correlation_id (q_quote record)) ->
  on_record id addr record (update_swap w s db).2.
Proof.
  intros (r & Hr & Hid & Ha & Hq) <- Hsa Hsq. pose proof (update_swap_cases w s db) as H.
  destruct (update_swap w s db) as [[u|x] db']; cbn; [|by exists r; rewrite H].
  exists (updated_row w s r). rewrite H. split; [|done].
  apply list_elem_of_fmap. exists r. unfold swap_key. by rewrite bool_decide_eq_true_2.
Qed.

Lemma on_record_swaps id addr record db db' :
  adb_swaps db' = adb_swaps db -> on_record id addr record db -> on_record id addr record db'.
Proof. unfold on_record. by intros ->. Qed.

(** The tail of [start_swap_from_zec], after the send. *)
Lemma after_deposit_keeps_record {A} id addr record w s (m : M SwapEnv A) c on e :
  on_record id addr record (se_db e) -> sw_id s = id -> sw_deposit_address s = Some addr ->
  sw_remote_id s = Some (sq_correlation_id (q_quote record)) -> framed m ->
  let run := (m_context c (in_db (update_swap w s)) ;; emit_swap on s ;; m) in
  let run' := (m_ignore (in_db (update_swap w s)) ;; emit_swap on s ;; m) in
  (se_deposits (run e).2 = se_deposits e /\ on_record id addr record (se_db (run e).2))
  /\ (se_deposits (run' e).2 = se_deposits e /\ on_record id addr record (se_db (run' e).2)).
Proof.
  intros Hr Hid Ha Hq Hm run run'.
  pose proof (on_record_update id addr record w s (se_db e) Hr Hid Ha Hq) as Hu.
  assert (framed (emit_swap on s ;; m)) as Hf by auto with swaps.
  unfold run, run'. rewrite !m_bind_eq. unfold m_context, m_ignore, in_db, m_zoom.
  destruct (update_swap w s (se_db e)) as [[u|x] db']; cbn in Hu |- *;
    destruct (Hf (mkSwapEnv (se_svc e) db' (se_events e) (se_deposits e) (se_submitted e))) as [Hd Hs]; cbn in Hd, Hs;
    pose proof (on_record_swaps id addr record _ _ Hs Hu) as Hfin; auto.
Qed.

Lemma take_quote_cases now_ms w qid e :
  match in_svc (take_quote now_ms w qid) e with
  | (Ok record, e') => e' = e /\ ss_quotes (se_svc e) !! qid = Some record /\ q_wallet_id record = w
      /\ (sq_deadline (q_quote record) <= 0 \/ now_ms < sq_deadline (q_quote record))
  | (Err _, _) => True
  end.
Proof.
  unfold in_svc, m_zoom, take_quote, mbind, M_bind, m_get.
  destruct (ss_quotes (se_svc e) !! qid) as [record|] eqn:E; cbn; [|done].
  destruct (bool_decide (q_wallet_id record = w)) eqn:Ew; cbn; [|done].
  destruct ((0 <? _) && _) eqn:Ed; cbn; [done|]. breflect.
  split; [by destruct e|]. split; [done|]. split; [done|]. apply andb_false_iff in Ed. lia.
Qed.

Lemma insert_env w swap e :
  let '(r, e') := in_db (insert_swap w swap) e in
  se_deposits e' = se_deposits e
  /\ match r with
     | Ok _ => adb_swaps (se_db e') = (adb_swaps (se_db e) ++ [row_of_swap w swap])%list
     | Err _ => True
     end.
Proof.
  unfold in_db, m_zoom. pose proof (insert_swap_cases w swap (se_db e)) as H.
  destruct (insert_swap w swap (se_db e)) as [[u|x] db']; cbn; naive_solver.
Qed.

Section Deposits.
Context (send_zec : Z -> string -> string -> option string -> string -> result string).

(** Nothing sent, or one deposit that is on record. *)
Definition deposit_outcome (new_id : Uuid) (record : QuoteRecord) (e e' : SwapEnv) : Prop :=
  se_deposits e' = se_deposits e
  \/ exists addr, se_deposits e' = (se_deposits e ++ [(addr, sq_input_amount (q_quote record))])%list
      /\ sq_deposit_address (q_quote record) = Some addr
      /\ on_record new_id addr record (se_db e').

Lemma from_zec_deposits now_ms new_id spawned w allow reauth on record e :
  let e' := (start_swap_from_zec send_zec now_ms new_id spawned w allow reauth on record e).2 in
  deposit_outcome new_id record e e' /\ (allow = false -> se_deposits e' = se_deposits e).
Proof using Type.
  unfold start_swap_from_zec. destruct allow; cbn [negb]; [split; [|done]|by split; [left|]].
  destruct reauth as [tok|]; [|by left]. destruct (is_empty (trim tok)); [by left|].
  destruct (sq_deposit_address (q_quote record)) as [addr|] eqn:Ea; [|by left].
  cbn [ok_or]. rewrite m_bind_eq. unfold m_lift at 1. rewrite m_bind_eq.
  pose proof (framed_open e) as Hopen. destruct (open_conn e) as [[u|x] e1]; [|left; apply Hopen].
  rewrite m_bind_eq. pose proof (framed_context "failed to list accounts" _ (framed_list_accounts w) e1) as Hlist.
  destruct (m_context _ (in_db (list_accounts w)) e1) as [[accounts|x] e2]; cbn in Hopen, Hlist.
  2:{ left. cbn. destruct Hopen, Hlist. congruence. }
  rewrite m_bind_eq. destruct (find_first _ accounts) as [account|].
  2:{ left. cbn. destruct Hopen, Hlist. congruence. }
  cbn [ok_or]. unfold m_lift at 1. rewrite m_bind_eq. unfold m_context at 1.
  set (swap := new_swap new_id record addr SwapState.Draft now_ms).
  pose proof (insert_env w swap e2) as Hins.
  destruct (in_db (insert_swap w swap) e2) as [[u2|x] e3]; destruct Hins as [Hd3 Hrows];
    cbn [fst snd with_context].
  2:{ left. cbn. destruct Hopen, Hlist. congruence. }
  assert (on_record new_id addr record (se_db e3)) as Hrec.
  { exists (row_of_swap w swap). rewrite Hrows. split; [apply elem_of_app; right; by left|done]. }
  right. exists addr. rewrite m_bind_eq.
  destruct (framed_emit on swap e3) as [Hd4 Hs4].
  assert (exists e4, emit_swap on swap e3 = (Ok tt, e4)) as [e4 E4]
    by (destruct on; eexists; reflexivity).
  rewrite E4 in Hd4, Hs4 |- *. cbn in Hd4, Hs4.
  rewrite m_bind_eq. unfold m_try, send_deposit.
  set (e5 := mkSwapEnv (se_svc e4) _ _ _ _).
  assert (se_deposits e5 = (se_deposits e ++ [(addr, sq_input_amount (q_quote record))])%list) as Hd5.
  { cbn. rewrite Hd4. destruct Hopen, Hlist. congruence. }
  assert (on_record new_id addr record (se_db e5)) as Hrec5 by (by eapply on_record_swaps).
  cbn [fst snd]. rewrite <- Hd5.
  destruct (send_zec _ _ _ _ _) as [txid|err].
  - rewrite m_bind_eq. unfold submit_deposit, m_modify. set (e6 := mkSwapEnv (se_svc e5) _ _ _ _).
    pose proof (after_deposit_keeps_record new_id addr record w
      (with_state swap SwapState.Pending None now_ms)
      (in_svc (start_polling spawned new_id) ;; mret (with_state swap SwapState.Pending None now_ms))
      "failed to update swap" on e6 Hrec5 eq_refl eq_refl eq_refl) as H.
    destruct H as [[Hd Hr] _]; [auto with swaps|]. cbn in Hd, Hr |- *. auto.
  - pose proof (after_deposit_keeps_record new_id addr record w
      (with_state swap SwapState.Failed (Some (error_to_string err)) now_ms)
      (m_err err : M SwapEnv SwapInfo) "failed to update swap" on e5 Hrec5 eq_refl eq_refl eq_refl) as H.
    destruct H as [_ [Hd Hr]]; [auto with swaps|]. cbn in Hd, Hr |- *. auto.
Qed.
End Deposits.

(** What is on record when ZEC leaves the wallet.  Whatever the database
    does, one call of [start_swap] sends at most one deposit, and only for an
    unexpired FromZec quote of this wallet, on Mainnet and with the
    acknowledgement; the deposit is the quoted amount in zatoshis to the
    quoted address, and when it has been sent the swap table holds a row
    with the swap's id, that address and the quote's id, whether the send
    succeeded or failed and even when the later updates fail. *)
Theorem start_swap_deposit_on_record
    (send_zec : Z -> string -> string -> option string -> string -> result string)
    (now_ms : Z) (new_id : Uuid) (spawned : bool) (w : Uuid) (network : Network) (quote_id : string)
    (allow : bool) (reauth : option string) (on : bool) (e : SwapEnv) :
  let e' := (start_swap send_zec now_ms new_id spawned w network quote_id allow reauth on e).2 in
  se_deposits e' = se_deposits e
  \/ exists record addr,
       se_deposits e' = (se_deposits e ++ [(addr, sq_input_amount (q_quote record))])%list
       /\ ss_quotes (se_svc e) !! quote_id = Some record /\ q_wallet_id record = w
       /\ (sq_deadline (q_quote record) <= 0 \/ now_ms < sq_deadline (q_quote record))
       /\ in_swap_type (q_intent record) = SwapType.FromZec
       /\ sq_deposit_address (q_quote record) = Some addr
       /\ network = Network.Mainnet /\ allow = true
       /\ on_record new_id addr record (se_db e').
Proof.
  cbn zeta. unfold start_swap. destruct (bool_decide (network = Network.Testnet)) eqn:En; [by left|].
  rewrite m_bind_eq. pose proof (take_quote_cases now_ms w quote_id e) as Hq.
  pose proof (framed_svc (take_quote now_ms w quote_id) e) as Hfr.
  destruct (in_svc (take_quote now_ms w quote_id) e) as [[record|x] e1]; [|left; apply Hfr].
  destruct Hq as (-> & Hl & Hw & Hdl).
  destruct (bool_decide (in_swap_type _ = SwapType.FromZec)) eqn:Et; breflect.
  - pose proof (from_zec_deposits send_zec now_ms new_id spawned w allow reauth on record e) as [Ho Ha].
    destruct Ho as [Ho|(addr & Hd & Haddr & Hrec)]; [by left|].
    right. exists record, addr. do 6 (split; [done|]). split; [by destruct network|].
    split; [|done]. destruct allow; [done|]. rewrite Ha in Hd by done.
    apply (f_equal length) in Hd. rewrite length_app in Hd. simpl in Hd. lia.
  - left. destruct (sq_deposit_address _) as [addr|]; [|done].
    rewrite m_bind_eq. cbn [ok_or]. unfold m_lift at 1. rewrite m_bind_eq.
    pose proof (framed_open e) as Hopen. destruct (open_conn e) as [[u|x] e1]; [|apply Hopen].
    cbn in Hopen. rewrite m_bind_eq. unfold m_context at 1.
    set (swap := new_swap _ _ _ _ _). pose proof (insert_env w swap e1) as Hins.
    destruct (in_db (insert_swap w swap) e1) as [[u2|x] e2]; destruct Hins as [Hd _];
      cbn [fst snd with_context]; [|cbn; destruct Hopen; congruence].
    assert (framed (emit_swap on swap ;; in_svc (start_polling spawned (sw_id swap)) ;; mret swap)) as Hf
      by auto with swaps.
    destruct (Hf e2) as [Hd2 _]. rewrite Hd2. destruct Hopen. congruence.
Qed.

(** A quote is not used up by starting its swap: with the same quote id,
    [start_swap] sends the deposit a second time, to the same address. *)
Theorem quote_can_be_started_twice :
  let start id := start_swap (fun _ _ _ _ _ => Ok "tx") 6000 id true "w1" Network.Mainnet "corr1" true
                    (Some "token") true in
  let e1 := (start "s1" (demo_swap_env [])).2 in
  let out := start "s2" e1 in
  (exists s, out.1 = Ok s)
  /\ se_deposits out.2 = [("t1deposit", "150000000"); ("t1deposit", "150000000")].
Proof. vm_compute. eauto. Qed.

(** ** Refreshing *)

Lemma load_owned_state w id e :
  let '(r, e') := in_db (load_owned_swap w id) e in
  adb_swaps (se_db e') = adb_swaps (se_db e) /\ se_svc e' = se_svc e /\ se_events e' = se_events e
  /\ match r with
     | Ok s => exists row, row ∈ adb_swaps (se_db e) /\ sw_wallet_id row = w
         /\ sw_id (sw_columns row) = id /\ s = swap_info_from_list_row row
         /\ find_first (swap_key id) (adb_swaps (se_db e)) = Some row
     | Err _ => True
     end.
Proof.
  unfold in_db, m_zoom, load_owned_swap, get_swap, m_context, mbind, M_bind, m_get,
    mret, M_ret.
  destruct (db_stmt_cases (se_db e)) as (fs & [-> | ->]); [|done]. cbn.
  destruct (find_first (swap_key id) (adb_swaps (se_db e))) as [row|] eqn:E; cbn; [|done].
  destruct (bool_decide (sw_wallet_id row = w)) eqn:Ew; cbn; breflect; [|done].
  do 3 (split; [done|]). exists row. apply find_first_Some in E as [Hin Hk].
  unfold swap_key in Hk. breflect. done.
Qed.

Lemma open_conn_frame e : se_svc (open_conn e).2 = se_svc e /\ se_events (open_conn e).2 = se_events e.
Proof. unfold open_conn, in_db, m_zoom. by destruct (db_stmt (se_db e)). Qed.

Definition terminal_row (id : Uuid) (db : AppDb) : Prop :=
  exists row, find_first (swap_key id) (adb_swaps db) = Some row
    /\ is_terminal_state (parse_swap_state (sw_state_text row)) = true.

Lemma guarded_inflight {A} id (m : M SwapEnv A) e :
  (forall e, ss_refresh_inflight (se_svc (m e).2) = ss_refresh_inflight (se_svc e)) ->
  id ∉ ss_refresh_inflight (se_svc e) ->
  let e1 := mkSwapEnv (set_inflight (se_svc e) ({[id]} ∪ ss_refresh_inflight (se_svc e))) (se_db e)
              (se_events e) (se_deposits e) (se_submitted e) in
  ss_refresh_inflight (se_svc (with_refresh_guard id m e1).2) = ss_refresh_inflight (se_svc e).
Proof.
  intros Hm Hn e1. unfold with_refresh_guard. specialize (Hm e1). destruct (m e1) as [r e2]. cbn in *.
  rewrite Hm. set_solver.
Qed.

Lemma acquire_env id e :
  in_svc (try_acquire_refresh_inflight_guard id) e =
  if bool_decide (id ∈ ss_refresh_inflight (se_svc e)) then (Ok false, e)
  else (Ok true,
        mkSwapEnv (set_inflight (se_svc e) ({[id]} ∪ ss_refresh_inflight (se_svc e))) (se_db e)
          (se_events e) (se_deposits e) (se_submitted e)).
Proof.
  unfold in_svc, m_zoom, try_acquire_refresh_inflight_guard, mbind, M_bind, m_get, mret, M_ret, m_put.
  destruct (bool_decide _); [by destruct e|done].
Qed.

(** Updating a row and emitting an event leave the service alone. *)
Lemma update_and_emit_inflight w s on c e :
  ss_refresh_inflight (se_svc
    ((m_context c (in_db (update_swap w s)) ;; emit_swap on s ;; mret s) e).2)
  = ss_refresh_inflight (se_svc e).
Proof.
  rewrite m_bind_eq. unfold m_context, in_db, m_zoom.
  destruct (update_swap w s (se_db e)) as [[u|x] db']; cbn; [|done]. by destruct on.
Qed.

(** Refreshing: whatever the answer of the API and the failures of the
    database, a swap in a terminal state is left as it is, with no event;
    and the mark of the refresh in flight is always removed, so that a failed
    refresh never blocks the next one. *)
Theorem refresh_terminal_and_guard
    (get_status : StatusRequest -> option (NearIntentsError + StatusResponse))
    (rows : option (list TxRow)) (active : bool) (now_ms : Z) (w id : Uuid) (on : bool) (e : SwapEnv) :
  let e' := (refresh_swap_status get_status rows active now_ms w id on e).2 in
  ss_refresh_inflight (se_svc e') = ss_refresh_inflight (se_svc e)
  /\ (terminal_row id (se_db e) ->
      adb_swaps (se_db e') = adb_swaps (se_db e) /\ se_events e' = se_events e).
Proof.
  cbn zeta. unfold refresh_swap_status. rewrite m_bind_eq.
  pose proof (open_conn_frame e) as [Hs1 He1]. pose proof (framed_open e) as [_ Hd1].
  destruct (open_conn e) as [[u|x] e1]; cbn in Hs1, He1, Hd1; [|cbn; by rewrite Hs1, He1, Hd1].
  rewrite m_bind_eq. pose proof (load_owned_state w id e1) as HL.
  destruct (in_db (load_owned_swap w id) e1) as [[swap|x] e2]; destruct HL as (Hd2 & Hs2 & He2 & HL).
  2:{ cbn. rewrite Hs2, Hs1, He2, He1, Hd2, Hd1. done. }
  destruct HL as (row & _ & _ & _ & -> & Hrow).
  destruct (is_terminal_state _) eqn:Et.
  { cbn. rewrite Hs2, Hs1, He2, He1, Hd2, Hd1. done. }
  assert (~ terminal_row id (se_db e)) as Hnt.
  { intros (row' & Hrow' & Ht'). rewrite <- Hd1, Hrow in Hrow'. simplify_eq. cbn in Et. congruence. }
  split; [|done]. rewrite <- Hs1, <- Hs2. destruct (sw_deposit_address _); [|done].
  rewrite m_bind_eq, acquire_env.
  destruct (bool_decide (id ∈ ss_refresh_inflight (se_svc e2))) eqn:Eb; cbn [negb]; [done|].
  breflect. rewrite guarded_inflight; [done| |done].
  intros e3. destruct (status_with_timeout _) as [err|st]; [apply update_and_emit_inflight|].
  case_match; [apply update_and_emit_inflight|done].
Qed.

(** ** Polling *)

(** The polling task works on its own copy of the swap: an answer that
    was in flight when a refresh completed the swap is stored over the
    terminal state, and if the wallet is then locked the row stays there. *)
Theorem poll_overwrites_terminal_state :
  let swap := with_state demo_swap SwapState.Pending None 5000 in
  let e := demo_swap_env [row_of_swap "w1" swap] in
  let rows := Some [mkTxRow "a1" (Some 2000000) (Some 10000) (Some 150010000) (Some 0) (Some false) (Some 1) (Some 0) None] in
  let e1 := (refresh_swap_status (const (Some (inr (mkStatusResponse Success None)))) rows true 6000 "w1" "s1" true e).2 in
  let '(r2, e2) := poll_turn (const (Some (inl (Transport "reset")))) rows true true 6100 "w1" true (swap, 5) e1 in
  (exists s, (get_swap_status "w1" "s1" e1).1 = Ok s /\ sw_state s = SwapState.Completed)
  /\ (exists s, (get_swap_status "w1" "s1" e2).1 = Ok s /\ sw_state s = SwapState.Pending)
  /\ exists s b, r2 = Ok (Some (s, b))
     /\ (poll_turn (const None) None true false 6200 "w1" true (s, b) e2).1 = Ok None.
Proof.
  cbn zeta. set (p := poll_turn _ _ _ _ _ _ _ _ _). vm_compute in p. subst p.
  split; [|split].
  - eexists. split; vm_compute; reflexivity.
  - eexists. split; vm_compute; reflexivity.
  - eexists _, _. split; [reflexivity|vm_compute; reflexivity].
Qed.

(** The back-off of the polling loop stays between 0 and 60 seconds, is
    reset to 5 by every answer, and is at least 5 as long as the server names
    no shorter delay.  A [Retry-After: 0] sets it to zero, where every
    further failure keeps it: the loop then polls without a pause. *)
Theorem poll_backoff_bounds
    (get_status : StatusRequest -> option (NearIntentsError + StatusResponse))
    (rows : option (list TxRow)) (active active_before : bool) (now_ms : Z) (w : Uuid) (on : bool)
    (swap : SwapInfo) (b : Z) (e e' : SwapEnv) (swap' : SwapInfo) (b' : Z) :
  0 <= b <= 60 -> (forall req r, get_status req = Some (inl (RateLimited (Some r))) -> 0 <= r) ->
  poll_turn get_status rows active active_before now_ms w on (swap, b) e = (Ok (Some (swap', b')), e') ->
  exists addr, sw_deposit_address swap = Some addr /\
  let status := get_status (mkStatusRequest addr (sw_deposit_memo swap)) in
  0 <= b' <= 60
  /\ (forall st, status_with_timeout status = inr st -> b' = 5)
  /\ (5 <= b -> (forall r, status = Some (inl (RateLimited (Some r))) -> 5 <= r) -> 5 <= b')
  /\ (b = 0 -> status = Some (inl (RateLimited None)) -> b' = 0)
  /\ sw_id swap' = sw_id swap.
Proof.
  intros Hb Hr. unfold poll_turn.
  destruct (negb active_before || negb active); [unfold mbind, M_bind; by destruct (in_svc _ e) as [[]]|].
  destruct (sw_deposit_address swap) as [addr|]; [|unfold mbind, M_bind; by destruct (in_svc _ e) as [[]]].
  intros Hrun. exists addr. split; [done|]. cbn zeta. revert Hrun.
  set (status := get_status _). specialize (Hr (mkStatusRequest addr (sw_deposit_memo swap))).
  fold status in Hr. clearbody status.
  assert (forall s, exists e2, (try_persist_and_emit_swap_change active w s on) e = (Ok tt, e2)) as Hp.
  { intros s. unfold try_persist_and_emit_swap_change. rewrite m_bind_eq. cbn.
    unfold emit_swap. destruct (on && active); eauto. }
  destruct (status_with_timeout status) as [err|st] eqn:Est.
  - assert (match err with RateLimited _ => status = Some (inl err) | _ => True end) as Hs.
    { destruct err; try done. destruct status as [[x|x]|]; simpl in Est; congruence. }
    destruct err as [ra| | | |].
    { subst status. intros [= <- <- <-]. destruct ra as [r|]; cbn.
      + specialize (Hr r eq_refl). repeat split; try lia; try done. intros _ H5. specialize (H5 r eq_refl). lia.
      + repeat split; try lia; done. }
    all: match goal with |- context [with_state ?s (sw_state ?s) ?m ?n] =>
           destruct (Hp (with_state s (sw_state s) m n)) as [e2 E2] end;
         rewrite m_bind_eq, E2; intros [= <- <- <-]; repeat split; try lia; try done;
         intros _ ->; done.
  - assert (forall r, status = Some (inl r) -> False) as Hno by (intros r ->; done).
    case_match; rewrite m_bind_eq.
    + destruct (Hp (with_state swap (next_state_from_remote_status rows swap (sr_status st))
                      (sr_message st) now_ms)) as [e2 E2].
      rewrite m_bind_eq, E2. cbn [mret M_ret]. unfold mret, M_ret.
      case_match; [unfold mbind, M_bind; by destruct (in_svc _ e2) as [[]]|].
      intros [= <- <- <-]. repeat split; try lia; try done. intros _ Hst. by destruct (Hno _ Hst).
    + unfold mret at 1, M_ret at 1.
      case_match; [unfold mbind, M_bind; by destruct (in_svc _ e) as [[]]|].
      intros [= <- <- <-]. repeat split; try lia; try done. intros _ Hst. by destruct (Hno _ Hst).
Qed.

Lemma poll_backoff_bounds_witness :
  exists e' swap' b', poll_turn (const (Some (inl (RateLimited (Some 0))))) None true true 6000 "w1" true
      (demo_swap, 5) (demo_swap_env []) = (Ok (Some (swap', b')), e') /\ 0 <= b' <= 60 /\ b' = 0.
Proof.
  do 3 eexists. split; [reflexivity|]. split; [|reflexivity].
  refine (let '(ex_intro _ _ (conj _ (conj H _))) :=
    poll_backoff_bounds (const (Some (inl (RateLimited (Some 0))))) None true true 6000 "w1" true
      demo_swap 5 (demo_swap_env []) _ _ _ _ _ eq_refl in H); [split; discriminate|].
  intros _ r [= <-]. discriminate.
Defined.

(** ** Resuming *)

Lemma start_polling_env id e :
  let '(r, e') := in_svc (start_polling true id) e in
  exists b : bool, r = Ok b /\ ss_jobs (se_svc e') = {[id]} ∪ ss_jobs (se_svc e)
    /\ se_db e' = se_db e /\ se_events e' = se_events e
    /\ Z.of_nat (size (ss_jobs (se_svc e'))) = Z.of_nat (size (ss_jobs (se_svc e))) + (if b then 1 else 0).
Proof.
  unfold in_svc, m_zoom, start_polling, mbind, M_bind, m_get, m_put, mret, M_ret.
  destruct (bool_decide (id ∈ ss_jobs (se_svc e))) eqn:E; breflect; cbn.
  - exists false. split; [done|]. split; [set_solver|]. do 2 (split; [done|]). lia.
  - exists true. split; [done|]. split; [done|]. do 2 (split; [done|]).
    rewrite size_union by set_solver. rewrite size_singleton. lia.
Qed.

Lemma resume_fold swaps n e :
  let '(r, e') := m_fold (fun n swap =>
      started ← in_svc (start_polling true (sw_id swap));
      mret (if started : bool then n + 1 else n)) n swaps e in
  ss_jobs (se_svc e') = ss_jobs (se_svc e) ∪ list_to_set (map sw_id swaps)
  /\ se_db e' = se_db e /\ se_events e' = se_events e
  /\ r = Ok (n + (Z.of_nat (size (ss_jobs (se_svc e'))) - Z.of_nat (size (ss_jobs (se_svc e))))).
Proof.
  revert n e. induction swaps as [|s l IH]; intros n e.
  { cbn. split; [set_solver|]. split; [done|]. split; [done|].
    unfold mret, M_ret. f_equal. f_equal. lia. }
  cbn [m_fold]. rewrite !m_bind_eq. pose proof (start_polling_env (sw_id s) e) as H.
  destruct (in_svc (start_polling true (sw_id s)) e) as [r e1].
  destruct H as (b & -> & Hj & Hd & He & Hsz). unfold mret at 1, M_ret at 1.
  specialize (IH (if b then n + 1 else n) e1). destruct (m_fold _ _ l e1) as [r2 e2].
  destruct IH as (Hj2 & Hd2 & He2 & ->).
  split; [rewrite Hj2, Hj; set_solver|]. split; [congruence|]. split; [congruence|].
  f_equal. destruct b; lia.
Qed.

(** After a restart [resume_pending_swaps] polls exactly what should be
    polled: the swaps of the wallet with a deposit address that are pending
    or confirming, or not yet deposited and before their deadline, in
    addition to those already polled; none twice, none in a terminal state,
    and the count is that of the pollers it started. *)
Theorem resume_pending_swaps_exact (now_ms : Z) (w : Uuid) (e : SwapEnv) :
  adb_faults (se_db e) = [] ->
  let '(r, e') := resume_pending_swaps now_ms true w e in
  (forall id, id ∈ ss_jobs (se_svc e') <->
     id ∈ ss_jobs (se_svc e) \/ exists row, row ∈ adb_swaps (se_db e) /\ sw_wallet_id row = w
       /\ sw_id (sw_columns row) = id /\ is_Some (sw_deposit_address (sw_columns row))
       /\ pollable now_ms row = true)
  /\ (forall row, pollable now_ms row = true ->
        is_terminal_state (parse_swap_state (sw_state_text row)) = false)
  /\ r = Ok (Z.of_nat (size (ss_jobs (se_svc e'))) - Z.of_nat (size (ss_jobs (se_svc e)))).
Proof.
  intros Hf. unfold resume_pending_swaps. rewrite m_bind_eq.
  assert (open_conn e = (Ok tt, e)) as ->.
  { unfold open_conn, in_db, m_zoom. rewrite db_stmt_quiet by done. by destruct e. }
  rewrite m_bind_eq. unfold m_context, in_db, m_zoom, list_pollable_swaps_for_wallet.
  unfold mbind at 1 2, M_bind at 1 2, m_get, mret at 1 2, M_ret at 1 2.
  unfold mbind, M_bind. rewrite db_stmt_quiet by done. cbn [fst snd with_context].
  set (rows := filter _ (adb_swaps (se_db e))).
  pose proof (resume_fold (map swap_info_from_list_row (isort swap_order rows)) 0
    (mkSwapEnv (se_svc e) (se_db e) (se_events e) (se_deposits e) (se_submitted e))) as H.
  unfold mbind, M_bind in H.
  destruct (m_fold _ 0 _ _) as [r e']. destruct H as (Hj & _ & _ & ->). cbn in Hj |- *.
  assert (forall row, pollable now_ms row = true -> is_Some (sw_deposit_address (sw_columns row))) as Hdep.
  { intros row Hp. unfold pollable in Hp. by apply andb_true_iff, proj1, bool_decide_eq_true in Hp. }
  split; [|split; [|done]].
  - intros id. rewrite Hj, elem_of_union, elem_of_list_to_set. apply or_iff_compat_l.
    rewrite list_elem_of_fmap. split.
    + intros (s & -> & Hs). apply list_elem_of_fmap in Hs as (row & -> & Hr).
      rewrite elem_of_isort in Hr. apply list_elem_of_filter in Hr as [[Hw Hp] Hin].
      exists row. cbn. auto 10.
    + intros (row & Hin & Hw & Hid & _ & Hp). exists (swap_info_from_list_row row).
      split; [done|]. apply list_elem_of_fmap. exists row. split; [done|].
      rewrite elem_of_isort. by apply list_elem_of_filter.
  - intros row Hp. unfold pollable in Hp. apply andb_true_iff, proj2 in Hp.
    unfold parse_swap_state. repeat (case_bool_decide; try done).
Qed.

Lemma resume_pending_swaps_exact_witness :
  "s1" ∈ ss_jobs (se_svc (resume_pending_swaps 6000 true "w1"
                            (demo_swap_env [row_of_swap "w1" demo_swap])).2).
Proof.
  pose proof (resume_pending_swaps_exact 6000 "w1" (demo_swap_env [row_of_swap "w1" demo_swap]) eq_refl) as H.
  destruct (resume_pending_swaps 6000 true "w1" _) as [r e']. destruct H as [H _].
  apply (proj2 (H "s1")). right. exists (row_of_swap "w1" demo_swap).
  split; [left|]. split; [reflexivity|]. split; [reflexivity|]. split; [eexists; reflexivity|reflexivity].
Defined.

(** ** Completion *)

Definition expected_zat (swap : SwapInfo) : option Z :=
  match sw_swap_type swap with
  | SwapType.ToZec => sw_output_amount swap ≫= parse_zatoshis
  | SwapType.FromZec => parse_zatoshis (sw_input_amount swap)
  end.

(** C22. A swap becomes [Completed] only when the provider reports success
    and one of the wallet's recent mined transactions is evidence for it: not
    a shielding, not older than a quarter of an hour before the swap, and
    moving exactly the expected amount in the expected direction.  Every
    other state is the one the provider reports. *)
Theorem completed_needs_evidence (rows : option (list TxRow)) (swap : SwapInfo) (status : RemoteStatus) :
  let next := next_state_from_remote_status rows swap status in
  (next <> SwapState.Completed -> next = map_remote_status_to_local_state status)
  /\ (next = SwapState.Completed <->
  status = Success /\ exists l r, rows = Some l /\ r ∈ recent_mined l /\ row_matches swap r = true
    /\ r ∈ l /\ is_Some (tr_mined_height r)
    /\ tr_is_shielding r = Some false
    /\ (forall bt, tr_block_time r = Some bt ->
          Z.quot (i64_saturating_sub (sw_created_at swap) 900000) 1000 <= bt)
    /\ (forall x, expected_zat swap = Some x ->
          match sw_swap_type swap with
          | SwapType.ToZec => exists t, tr_total_received r = Some t /\ Z.max t 0 = x
          | SwapType.FromZec => exists s t, tr_total_spent r = Some s /\ tr_total_received r = Some t
              /\ u64_saturating_sub (u64_saturating_sub (Z.max s 0) (Z.max t 0))
                   (match tr_fee_paid r with Some f => Z.max f 0 | None => 0 end) = x
          end)).
Proof.
  assert (forall r, row_matches swap r = true -> tr_is_shielding r = Some false
    /\ (forall bt, tr_block_time r = Some bt ->
          Z.quot (i64_saturating_sub (sw_created_at swap) 900000) 1000 <= bt)
    /\ (forall x, expected_zat swap = Some x ->
          match sw_swap_type swap with
          | SwapType.ToZec => exists t, tr_total_received r = Some t /\ Z.max t 0 = x
          | SwapType.FromZec => exists s t, tr_total_spent r = Some s /\ tr_total_received r = Some t
              /\ u64_saturating_sub (u64_saturating_sub (Z.max s 0) (Z.max t 0))
                   (match tr_fee_paid r with Some f => Z.max f 0 | None => 0 end) = x
          end)) as Hrow.
  { intros r. unfold row_matches, expected_zat, u64_of_i64. change (15 * 60 * 1000) with 900000.
    destruct (tr_is_shielding r) as [[]|], (tr_sent_note_count r) as [sent|],
      (tr_received_note_count r) as [recv|]; try done.
    case_match eqn:Ebt; [done|]. intros H. split; [done|]. split.
    { intros bt Eb. rewrite Eb in Ebt. breflect. lia. }
    intros x Hx. destruct (sw_swap_type swap); rewrite Hx in H; case_match; try done.
    - destruct (tr_total_received r) as [t|]; [|done]. breflect. eauto.
    - destruct (tr_total_spent r) as [s|], (tr_total_received r) as [t|]; try done. breflect. eauto 10. }
  assert (forall l r, r ∈ recent_mined l -> r ∈ l /\ is_Some (tr_mined_height r)) as Hmined.
  { intros l r Hin. apply elem_of_take in Hin as (i & Hi & _). apply list_elem_of_lookup_2 in Hi.
    rewrite elem_of_isort in Hi. apply list_elem_of_filter in Hi. tauto. }
  cbn zeta. unfold next_state_from_remote_status. split; [by destruct (_ && _)|]. split.
  - destruct status; cbn; try done. destruct (has_confirmed_zcash_tx rows swap) eqn:E; [|done].
    intros _. split; [done|]. unfold has_confirmed_zcash_tx in E. destruct rows as [l|]; [|done].
    apply existsb_exists in E as (r & Hin & Hr). exists l, r. apply list_elem_of_In in Hin.
    destruct (Hmined l r Hin), (Hrow r Hr) as (? & ? & ?).
    do 6 (split; [done|]). done.
  - intros (-> & l & r & -> & Hin & Hr & _). cbn. unfold has_confirmed_zcash_tx.
    assert (existsb (row_matches swap) (recent_mined l) = true) as ->; [|done].
    apply existsb_exists. exists r. by rewrite <- list_elem_of_In.
Qed.

(** ** Quotes *)

(** A quote obtained with [request_swap_quote] belongs to the wallet that
    asked, is for Mainnet, carries the amount in smallest units that the
    provider was asked for, and can be started until its deadline; a failed
    request leaves the quotes as they were. *)
Theorem requested_quote_can_be_started (to_rfc3339 : Z -> string) (now_ms now2 : Z) (tokens : NearIntentsError + list (string * Z))
    (get_quote : QuoteRequest -> NearIntentsError + QuoteResponse) (w : Uuid) (network : Network)
    (intent : SwapIntent) (s : SwapSvc) :
  let '(r, s') := request_swap_quote to_rfc3339 now_ms tokens get_quote w network intent s in
  match r with
  | Ok (quote_id, quote) =>
      network = Network.Mainnet
      /\ (exists req res, get_quote req = inr res /\ quote = quote_of_response intent (now_ms + 2 * 60 * 60 * 1000) res
            /\ quote_id = qp_correlation_id res /\ qr_dry req = false)
      /\ (sq_deadline quote <= 0 \/ now2 < sq_deadline quote ->
          take_quote now2 w quote_id s' = (Ok (mkQuoteRecord w intent quote), s'))
      /\ ss_jobs s' = ss_jobs s /\ ss_refresh_inflight s' = ss_refresh_inflight s
  | Err _ => ss_quotes s' = ss_quotes s /\ ss_jobs s' = ss_jobs s
  end.
Proof.
  unfold request_swap_quote. destruct (bool_decide (network = Network.Testnet)) eqn:En; [done|].
  destruct (is_empty _ || is_empty _); [done|]. rewrite m_bind_eq.
  assert (forall asset, let '(_, s1) := resolve_asset_decimals now_ms tokens asset s in
    ss_quotes s1 = ss_quotes s /\ ss_jobs s1 = ss_jobs s
    /\ ss_refresh_inflight s1 = ss_refresh_inflight s) as Hres.
  { intros asset. unfold resolve_asset_decimals, mbind, M_bind, m_get, m_put, mret, M_ret, m_err.
    repeat case_match; simplify_eq; done. }
  set (amount := match in_swap_mode intent with SwapMode.ExactInput => _ | SwapMode.ExactOutput => _ end).
  assert (let '(_, s1) := amount s in ss_quotes s1 = ss_quotes s /\ ss_jobs s1 = ss_jobs s
    /\ ss_refresh_inflight s1 = ss_refresh_inflight s) as Ham.
  { unfold amount. destruct (in_swap_mode intent).
    - destruct (is_empty _); [done|]. rewrite m_bind_eq. specialize (Hres (in_input_asset intent)).
      destruct (resolve_asset_decimals _ _ _ s) as [[d|] s1]; [|done].
      rewrite m_bind_eq. unfold m_lift. by destruct (amount_units _ d).
    - rewrite m_bind_eq. unfold m_lift at 1. destruct (required _ _) as [a|]; [|done].
      rewrite m_bind_eq. specialize (Hres (in_output_asset intent)).
      destruct (resolve_asset_decimals _ _ _ s) as [[d|] s1]; [|done].
      rewrite m_bind_eq. unfold m_lift. by destruct (amount_units _ d). }
  destruct (amount s) as [[[a ty]|x] s1]; destruct Ham as (Hq & Hj & Hi); [|done].
  rewrite m_bind_eq. unfold m_lift at 1. destruct (required (in_destination_address intent) _) as [dst|]; [|done].
  rewrite m_bind_eq. unfold m_lift at 1. destruct (required (in_refund_address intent) _) as [ref|]; [|done].
  cbn zeta. set (req := mkQuoteRequest _ _ _ _ _ _ _ _ _ _ _ _ _ _ _).
  destruct (get_quote req) as [[]|res] eqn:Eg; try done.
  unfold mbind, M_bind, m_get, m_put, mret, M_ret. cbn.
  split; [by destruct network; [|breflect]|]. split; [by exists req, res|]. split; [|done].
  intros Hdl. unfold take_quote, mbind, M_bind, m_get. cbn. rewrite lookup_insert_eq. cbn.
  rewrite bool_decide_eq_true_2 by done. cbn.
  assert ((0 <? sq_deadline (quote_of_response intent (now_ms + 2 * 60 * 60 * 1000) res))
    && (sq_deadline (quote_of_response intent (now_ms + 2 * 60 * 60 * 1000) res) <=? now2) = false) as Hb.
  { apply andb_false_iff. cbn in Hdl |- *. lia. }
  cbn in Hb |- *. by rewrite Hb.
Qed.
