(* ===== verification/Float64.v ===== *)
(** The [f64] arithmetic the progress estimates use: IEEE 754 binary64 as
    specified by the Standard Library's [SpecFloat], with the Rust
    conversions, [round], [ceil], [max] and saturating [as] casts. *)
From S2P Require Import Prelude.
From Stdlib Require Import SpecFloat.

Definition f64 : Type := spec_float.

Definition f64_add : f64 -> f64 -> f64 := SFadd 53 1024.
Definition f64_sub : f64 -> f64 -> f64 := SFsub 53 1024.
Definition f64_mul : f64 -> f64 -> f64 := SFmul 53 1024.
Definition f64_div : f64 -> f64 -> f64 := SFdiv 53 1024.
Definition f64_neg : f64 -> f64 := SFopp.
Definition f64_leb : f64 -> f64 -> bool := SFleb.
Definition f64_ltb : f64 -> f64 -> bool := SFltb.

(** [n as f64] of an integer, to nearest, ties to even. *)
Definition f64_of_Z (n : Z) : f64 := binary_normalize 53 1024 n 0 false.

(** The literal [n/d], correctly rounded. *)
Definition f64_lit (n d : Z) : f64 := f64_div (f64_of_Z n) (f64_of_Z d).

Definition f64_is_finite (x : f64) : bool :=
  match x with S754_zero _ | S754_finite _ _ _ => true | _ => false end.

Definition f64_is_nan (x : f64) : bool :=
  match x with S754_nan => true | _ => false end.

(** [a.max(b)]: the other operand when one is a NaN. *)
Definition f64_max (a b : f64) : f64 :=
  if f64_is_nan a then b else if f64_is_nan b then a else if f64_ltb a b then b else a.

(** [a.min(b)]. *)
Definition f64_min (a b : f64) : f64 :=
  if f64_is_nan a then b else if f64_is_nan b then a else if f64_ltb b a then b else a.

Definition f64_clamp (lo hi x : f64) : f64 :=
  if f64_ltb x lo then lo else if f64_ltb hi x then hi else x.

(** [x as uN]: towards zero, saturating, 0 for a NaN. *)
Definition f64_as_uint (hi : Z) (x : f64) : Z :=
  match x with
  | S754_nan | S754_zero _ | S754_infinity true => 0
  | S754_infinity false => hi
  | S754_finite true _ _ => 0
  | S754_finite false m e =>
      Z.min hi (if 0 <=? e then Zpos m * 2 ^ e else Zpos m / 2 ^ (- e))
  end.

(** An integral value with the sign of its argument. *)
Definition f64_integral (s : bool) (n : Z) : f64 :=
  if n =? 0 then S754_zero s else f64_of_Z (if s then - n else n).

(** [x.round()]: to the nearest integer, ties away from zero. *)
Definition f64_round (x : f64) : f64 :=
  match x with
  | S754_finite s m e =>
      if 0 <=? e then x else f64_integral s ((Zpos m + 2 ^ (- e - 1)) / 2 ^ (- e))
  | _ => x
  end.

Definition f64_ceil (x : f64) : f64 :=
  match x with
  | S754_finite s m e =>
      if 0 <=? e then x
      else f64_integral s (if s then Zpos m / 2 ^ (- e) else (Zpos m + 2 ^ (- e) - 1) / 2 ^ (- e))
  | _ => x
  end.

(** [Duration::as_secs_f64] of a number of nanoseconds. *)
Definition as_secs_f64 (nanos : Z) : f64 :=
  f64_add (f64_of_Z (nanos / 1000000000))
    (f64_div (f64_of_Z (nanos mod 1000000000)) (f64_of_Z 1000000000)).

Lemma f64_as_uint_bounds hi x : 0 <= hi -> 0 <= f64_as_uint hi x <= hi.
Proof.
  intros Hhi. destruct x as [?|[]| |[] m e]; simpl; try lia.
  case_match; breflect.
  - assert (0 <= 2 ^ e) by (apply Z.pow_nonneg; lia). nia.
  - pose proof (Z.div_pos (Zpos m) (2 ^ (- e)) ltac:(lia) ltac:(apply Z.pow_pos_nonneg; lia)). lia.
Qed.

Example f64_casts :
  f64_as_uint u64_max (f64_ceil (f64_mul (f64_lit 1 5) (f64_of_Z 11))) = 3
  /\ f64_as_uint u64_max (f64_round (f64_lit 5 2)) = 3
  /\ f64_as_uint u8_max (f64_mul (f64_clamp (f64_of_Z 0) (f64_of_Z 1) (f64_lit 999 1000))
                           (f64_of_Z 100)) = 99
  /\ as_secs_f64 1500000000 = f64_lit 3 2.
Proof. by vm_compute. Qed.
