(* ===== verification/SyncPipeline.v ===== *)
(** The download and scan pipeline of [sync_service.rs].

    One range of blocks is processed by two tasks.  The download task fetches
    batches, whose size the adaptive controller chooses, and puts them into a
    channel of [LOOKAHEAD_BATCHES] places; the scan loop takes them out,
    writes the blocks to the cache, scans them and reports its speed to the
    controller.  When the scan loop has ended it waits for the download task.
    [act] is one step of either task, [reachable] their interleavings.  The
    answers of the server, of the disk and of the clock are part of the
    action; the wallet database and the block index of [zcash_client_sqlite]
    are the parameter [ScanLib].

    Heights are [u32]; [BlockHeight + u32] is only used below the end of a
    range.  Durations are nanoseconds: the [f64] thresholds of the
    controller are exact at this resolution. *)
From S2P Require Import Prelude Text Domain Float64.
From Stdlib Require Import Ascii.
#[local] Open Scope list_scope.

(** ** Batch sizes *)

Definition BATCH_SIZE : Z := 250.
Definition BATCH_SIZE_SANDBLASTING : Z := 100.
Definition SANDBLASTING_RANGE : Z * Z := (1710000, 2050000).
Definition LOOKAHEAD_BATCHES : nat := 4.
Definition ADAPTIVE_BATCH_MIN_SIZE : Z := 125.
Definition ADAPTIVE_BATCH_MAX_SIZE : Z := 2000.
Definition ADAPTIVE_BATCH_FAST_SCAN : Z := 800000000.
Definition ADAPTIVE_BATCH_SLOW_SCAN : Z := 2000000000.
Definition ADAPTIVE_BATCH_GROWTH_NUMERATOR : Z := 3.
Definition ADAPTIVE_BATCH_GROWTH_DENOMINATOR : Z := 2.
Definition ADAPTIVE_BATCH_SHRINK_NUMERATOR : Z := 3.
Definition ADAPTIVE_BATCH_SHRINK_DENOMINATOR : Z := 4.

Definition effective_batch_size (height : Z) : Z :=
  if (SANDBLASTING_RANGE.1 <=? height) && (height <=? SANDBLASTING_RANGE.2)
  then BATCH_SIZE_SANDBLASTING else BATCH_SIZE.

Record ScanBatchActivity := mkScanBatchActivity {
  sa_scanned_blocks : Z;
  sa_spent_sapling : Z;
  sa_spent_orchard : Z;
  sa_received_sapling : Z;
  sa_received_orchard : Z;
}.

Definition touched_notes (a : ScanBatchActivity) : Z :=
  u32_saturating_add
    (u32_saturating_add (u32_saturating_add (sa_spent_sapling a) (sa_spent_orchard a))
       (sa_received_sapling a))
    (sa_received_orchard a).

Module AdaptiveBatchDecision.
Inductive AdaptiveBatchDecision := Grew | Shrunk.
End AdaptiveBatchDecision.
Abbreviation AdaptiveBatchDecision := AdaptiveBatchDecision.AdaptiveBatchDecision.

Record AdaptiveBatchAdjustment := mkAdaptiveBatchAdjustment {
  aa_previous : Z;
  aa_current : Z;
  aa_decision : AdaptiveBatchDecision;
}.

Record AdaptiveBatchController := mkAdaptiveBatchController {
  ac_min_size : Z;
  ac_max_size : Z;
  ac_current_size : Z;
}.

Definition controller_new (range_start : Z) : AdaptiveBatchController :=
  let base := effective_batch_size range_start in
  if base =? BATCH_SIZE_SANDBLASTING then mkAdaptiveBatchController base base base
  else mkAdaptiveBatchController (Z.min ADAPTIVE_BATCH_MIN_SIZE BATCH_SIZE)
         (Z.max ADAPTIVE_BATCH_MAX_SIZE BATCH_SIZE) base.

Definition next_download_size (c : AdaptiveBatchController) (height : Z) : Z :=
  if effective_batch_size height =? BATCH_SIZE_SANDBLASTING then BATCH_SIZE_SANDBLASTING
  else clampZ (ac_min_size c) (ac_max_size c) (ac_current_size c).

Definition u32_saturating_mul (a b : Z) : Z := clampZ 0 u32_max (a * b).

Definition record_scan_result (batch_start scan_duration : Z) (activity : ScanBatchActivity)
    (c : AdaptiveBatchController) : option AdaptiveBatchAdjustment * AdaptiveBatchController :=
  if sa_scanned_blocks activity =? 0 then (None, c)
  else if effective_batch_size batch_start =? BATCH_SIZE_SANDBLASTING then (None, c)
  else if scan_duration <=? 0 then (None, c)
  else
    let previous := ac_current_size c in
    let size :=
      if ADAPTIVE_BATCH_SLOW_SCAN <=? scan_duration then
        u32_saturating_mul previous ADAPTIVE_BATCH_SHRINK_NUMERATOR
          / ADAPTIVE_BATCH_SHRINK_DENOMINATOR
      else if (scan_duration <=? ADAPTIVE_BATCH_FAST_SCAN) && (touched_notes activity =? 0) then
        u32_saturating_mul previous ADAPTIVE_BATCH_GROWTH_NUMERATOR
          / ADAPTIVE_BATCH_GROWTH_DENOMINATOR
      else previous in
    let size := clampZ (ac_min_size c) (ac_max_size c) size in
    let c' := mkAdaptiveBatchController (ac_min_size c) (ac_max_size c) size in
    if size =? previous then (None, c')
    else (Some (mkAdaptiveBatchAdjustment previous size
                  (if previous <? size then AdaptiveBatchDecision.Grew
                   else AdaptiveBatchDecision.Shrunk)), c').

(** ** Downloading one batch *)

Record CompactBlock := mkCompactBlock {
  cb_height : Z;               (* u64 *)
  cb_hash : string;
  cb_time : Z;
  cb_vtx : list (nat * nat);   (* outputs and actions of each transaction *)
}.

(** One call of [get_block_range] and the stream it returns: the messages
    before its end, and whether it ended with an error. *)
Inductive RangeAnswer :=
| RangeFailed (e : error)
| RangeStream (blocks : list CompactBlock) (stream_error : option error).

(** The delay before a retry, in milliseconds, for the incremented [attempt]. *)
Definition retry_delay_ms (attempt : Z) : Z := Z.min (1000 * 2 ^ Z.min attempt 6) 60000.

(** [download_blocks_with_retry]: [answer n] answers the [n]-th call of
    [get_block_range].  The result is [None] when the fuel ends; the list
    holds the delays slept. *)
Fixpoint download_loop (fuel : nat) (answer : nat -> RangeAnswer) (max_retries attempt : Z)
    (calls : nat) : option (result (list CompactBlock)) * nat * list Z :=
  match fuel with
  | O => (None, calls, [])
  | S fuel =>
      match answer calls with
      | RangeStream blocks stream_error =>
          match stream_error with
          | Some err =>
              if attempt <? max_retries then
                if negb (bool_decide (blocks = [])) || (max_retries <=? attempt)
                then (Some (Ok blocks), S calls, [])
                else download_loop fuel answer max_retries (attempt + 1) (S calls)
              else (Some (Err err), S calls, [])
          | None =>
              if negb (bool_decide (blocks = [])) || (max_retries <=? attempt)
              then (Some (Ok blocks), S calls, [])
              else download_loop fuel answer max_retries (attempt + 1) (S calls)
          end
      | RangeFailed err =>
          if attempt <? max_retries then
            let '(r, n, delays) :=
              download_loop fuel answer max_retries (attempt + 1 + 1) (S calls) in
            (r, n, retry_delay_ms (attempt + 1) :: delays)
          else (Some (Err err), S calls, [])
      end
  end.

Definition download_blocks_with_retry (answer : nat -> RangeAnswer)
    (start end_exclusive max_retries : Z) : option (result (list CompactBlock)) * nat * list Z :=
  if end_exclusive <=? start then (Some (Ok []), O, [])
  else download_loop (S (Z.to_nat max_retries)) answer max_retries 0 O.

(** ** The block cache *)

Record BlockMeta := mkBlockMeta {
  bm_height : Z;
  bm_block_hash : string;
  bm_block_time : Z;
  bm_sapling_outputs_count : Z;
  bm_orchard_actions_count : Z;
}.

(** What [scan_cached_blocks] answers: the note counts of its summary, a
    continuity error at a height, or another error. *)
Inductive ScanCall :=
| ScanOk (spent_sapling spent_orchard received_sapling received_orchard : Z)
| ScanDiscontinuity (at_height : Z)
| ScanFailed (message : string).

(** [get_wallet_summary]: the scan and recovery ratios and the fully scanned
    height. *)
Record WalletSummary := mkWalletSummary {
  wsum_scan : Z * Z;
  wsum_recovery : option (Z * Z);
  wsum_fully_scanned_height : Z;
}.

(** The files of the cache directory, by name. *)
Abbreviation Files := (gmap string string).

(** The library below the scan: the wallet database [W], the block index [C]
    and the chain state [K] at a height. *)
Record ScanLib (W C K : Type) := mkScanLib {
  sl_block_file_name : BlockMeta -> string;              (* BlockMeta::block_file_path *)
  sl_encode : CompactBlock -> string;                    (* encode_to_vec *)
  sl_write_block_metadata : C -> list BlockMeta -> C;    (* an error is only logged *)
  sl_truncate_cache : C -> Z -> C;                       (* FsBlockDb::truncate_to_height *)
  sl_scan_cached_blocks : Files -> C -> W -> Z -> K -> nat -> ScanCall * W;
  sl_truncate_wallet : W -> Z -> option string * W;      (* WalletDb::truncate_to_height *)
  sl_wallet_summary : W -> option WalletSummary;
  sl_empty_chain_state : Z -> K;
}.
Arguments sl_block_file_name {_ _ _}.
Arguments sl_encode {_ _ _}.
Arguments sl_write_block_metadata {_ _ _}.
Arguments sl_truncate_cache {_ _ _}.
Arguments sl_scan_cached_blocks {_ _ _}.
Arguments sl_truncate_wallet {_ _ _}.
Arguments sl_wallet_summary {_ _ _}.
Arguments sl_empty_chain_state {_ _ _}.

Definition zero_hash : string := bytes (replicate 32 0%nat).

(** [iter().map(|tx| len as u32).sum()]. *)
Definition sum_u32 (l : list nat) : Z := foldr (fun n acc => (Z.of_nat n + acc) mod 2 ^ 32) 0 l.

Section Cache.
Context {W C K : Type} (lib : ScanLib W C K).

Definition block_meta (block : CompactBlock) : BlockMeta :=
  mkBlockMeta (cb_height block)
    (if (String.length (cb_hash block) =? 32)%nat then cb_hash block else zero_hash)
    (cb_time block) (sum_u32 (cb_vtx block).*1) (sum_u32 (cb_vtx block).*2).

(** [disk block] is the error of opening or writing the file, if any. *)
Definition write_block_to_cache (disk : CompactBlock -> option error) (block : CompactBlock)
    (files : Files) : result BlockMeta * Files :=
  if cb_height block <=? u32_max then
    let meta := block_meta block in
    match disk block with
    | Some e => (Err e, files)
    | None => (Ok meta, <[sl_block_file_name lib meta := sl_encode lib block]> files)
    end
  else (Err (AnyhowMsg ("block height " +:+ uint_to_string (cb_height block)
                        +:+ " exceeds u32::MAX")), files).

Fixpoint write_block_files (disk : CompactBlock -> option error) (blocks : list CompactBlock)
    (files : Files) : list BlockMeta * Files :=
  match blocks with
  | [] => ([], files)
  | block :: blocks' =>
      let '(r, files) := write_block_to_cache disk block files in
      let '(metas, files) := write_block_files disk blocks' files in
      (match r with Ok meta => meta :: metas | Err _ => metas end, files)
  end.

Definition write_blocks_to_cache (disk : CompactBlock -> option error) (blocks : list CompactBlock)
    (files : Files) (cache : C) : list BlockMeta * Files * C :=
  let '(metas, files) := write_block_files disk blocks files in
  (metas, files,
   if bool_decide (metas = []) then cache else sl_write_block_metadata lib cache metas).

(** [undeletable name]: removing the file fails. *)
Definition delete_cached_block_files_for_batch (undeletable : string -> bool)
    (metas : list BlockMeta) (files : Files) : Files :=
  foldl (fun files meta =>
           let name := sl_block_file_name lib meta in
           if undeletable name then files else delete name files) files metas.

Definition height_of_file_name (name : string) : option Z :=
  h ← head (split "-"%char name); parse_uint u32_max h.

Definition delete_cached_block_files (undeletable : string -> bool) (start end_ : Z)
    (files : Files) : Files :=
  filter (fun kv : string * string =>
            match height_of_file_name kv.1 with
            | Some height => (start <=? height) && (height <? end_) && negb (undeletable kv.1)
            | None => false
            end = false) files.

Definition calculate_progress_and_height (w : W) : Z * Z :=
  match sl_wallet_summary lib w with
  | Some s =>
      let numerator := (wsum_scan s).1 + default 0 (fst <$> wsum_recovery s) in
      let denominator := (wsum_scan s).2 + default 0 (snd <$> wsum_recovery s) in
      let pct :=
        if denominator =? 0 then 100
        else
          let ratio := f64_clamp (f64_of_Z 0) (f64_of_Z 1)
                         (f64_div (f64_of_Z numerator) (f64_of_Z denominator)) in
          f64_as_uint u8_max (f64_mul ratio (f64_of_Z 100)) in
      (pct, wsum_fully_scanned_height s)
  | None => (0, 0)
  end.
End Cache.

(** ** Scanning one batch *)

Module ScanOutcome.
Inductive ScanOutcome := Success | ReorgDetected (rewind_height : Z) | Error (message : string).
End ScanOutcome.
Abbreviation ScanOutcome := ScanOutcome.ScanOutcome.

(** What the scan works on: the cached files, the block index, the wallet. *)
Record Store (W C : Type) := mkStore { st_files : Files; st_cache : C; st_wallet : W }.
Arguments mkStore {_ _}.
Arguments st_files {_ _}.
Arguments st_cache {_ _}.
Arguments st_wallet {_ _}.

Definition try_u32 (n : Z) : Z := if n <=? u32_max then n else u32_max.

(** The answer of [get_tree_state] and [to_chain_state]. *)
Inductive TreeAnswer (K : Type) :=
| TreeFailed (message : string)
| TreeUnparsable (message : string)
| TreeState (state : K).
Arguments TreeFailed {_}.
Arguments TreeUnparsable {_}.
Arguments TreeState {_}.

Record DownloadedBatch := mkDownloadedBatch {
  db_range_start : Z;
  db_range_end : Z;
  db_blocks : list CompactBlock;
}.

Module DownloadResult.
Inductive DownloadResult :=
| Batch (batch : DownloadedBatch)
| RangeComplete
| Error (e : error)
| Cancelled.
End DownloadResult.
Abbreviation DownloadResult := DownloadResult.DownloadResult.

Module BalanceEmitTrigger.
Inductive BalanceEmitTrigger := SuccessfulScanBatch (scanned_blocks : Z) | ForcedMilestone.
End BalanceEmitTrigger.
Abbreviation BalanceEmitTrigger := BalanceEmitTrigger.BalanceEmitTrigger.

Section Scan.
Context {W C K : Type} (lib : ScanLib W C K).

Definition fetch_chain_state (answer : TreeAnswer K) (height : Z) : result K :=
  if height =? 0 then Ok (sl_empty_chain_state lib height)
  else
    match answer with
    | TreeFailed e => Err (AnyhowMsg ("failed to fetch tree state at height "
                                      +:+ uint_to_string height +:+ ": " +:+ e))
    | TreeUnparsable e => Err (AnyhowMsg ("failed to parse tree state at height "
                                          +:+ uint_to_string height +:+ ": " +:+ e))
    | TreeState k => Ok k
    end.

(** The call of [scan_cached_blocks] and the recovery from a reorganisation. *)
Definition scan_blocks (undeletable : string -> bool) (batch_start : Z) (chain_state : K)
    (limit : nat) (batch_end : Z) (s : Store W C) : ScanOutcome * ScanBatchActivity * Store W C :=
  let scanned := try_u32 (Z.of_nat limit) in
  let quiet := mkScanBatchActivity scanned 0 0 0 0 in
  match sl_scan_cached_blocks lib (st_files s) (st_cache s) (st_wallet s) batch_start chain_state
          limit with
  | (ScanOk ss so rs ro, w) =>
      (ScanOutcome.Success,
       mkScanBatchActivity scanned (try_u32 ss) (try_u32 so) (try_u32 rs) (try_u32 ro),
       mkStore (st_files s) (st_cache s) w)
  | (ScanDiscontinuity at_height, w) =>
      let rewind_height := u32_saturating_sub at_height 10 in
      match sl_truncate_wallet lib w rewind_height with
      | (Some e, w) =>
          (ScanOutcome.Error ("truncate failed: " +:+ e), quiet, mkStore (st_files s) (st_cache s) w)
      | (None, w) =>
          (ScanOutcome.ReorgDetected rewind_height, quiet,
           mkStore (delete_cached_block_files undeletable (rewind_height + 1) batch_end (st_files s))
             (sl_truncate_cache lib (st_cache s) rewind_height) w)
      end
  | (ScanFailed e, w) => (ScanOutcome.Error e, quiet, mkStore (st_files s) (st_cache s) w)
  end.

(** The closure of [scan_batch_blocking]: the outcome, the activity, the
    progress after the scan. *)
Definition scan_batch (undeletable : string -> bool) (batch_start : Z) (chain_state : K)
    (metas : list BlockMeta) (batch_end : Z) (s : Store W C)
    : ScanOutcome * ScanBatchActivity * (Z * Z) * Store W C :=
  let limit := length metas in
  let '(outcome, activity, s) :=
    if (0 <? limit)%nat then scan_blocks undeletable batch_start chain_state limit batch_end s
    else (ScanOutcome.Success, mkScanBatchActivity (try_u32 (Z.of_nat limit)) 0 0 0 0, s) in
  let s :=
    match outcome with
    | ScanOutcome.Success =>
        if (0 <? limit)%nat then
          mkStore (delete_cached_block_files_for_batch lib undeletable metas (st_files s))
            (sl_truncate_cache lib (st_cache s) (u32_saturating_sub batch_start 1)) (st_wallet s)
        else s
    | _ => s
    end in
  (outcome, activity, calculate_progress_and_height lib (st_wallet s), s).
End Scan.

(** ** The two tasks of one range *)

(** How the processing of a range ends: normally, on a reorganisation that
    was recovered from, with [range_error] or [range_cancelled] set, or with
    a jump out of the sync loops. *)
Inductive RangeEnd :=
| RangeDone
| RangeReorg (rewind_height : Z)
| RangeError
| RangeCancelled
| RangeAborted (sync_error : bool).

(** The download task: at the head of its loop, inside [batch_tx.send], or
    returned. *)
Inductive DownloadTask :=
| DlLoop
| DlSending (r : DownloadResult)
| DlDone.

(** The scan loop: before the loop, in it, waiting for the download task, or
    past it, with the receiver dropped. *)
Inductive ScanTask (K : Type) :=
| ScStart
| ScReceiving (range_chain_state : K) (is_first_batch_in_range : bool)
| ScWaiting (e : RangeEnd)
| ScLeft (e : RangeEnd).
Arguments ScStart {_}.
Arguments ScReceiving {_}.
Arguments ScWaiting {_}.
Arguments ScLeft {_}.

Record Pipe (W C K : Type) := mkPipe {
  pi_current : Z;
  pi_download : DownloadTask;
  pi_channel : list DownloadResult;
  pi_controller : AdaptiveBatchController;
  pi_scan : ScanTask K;
  pi_store : Store W C;
  pi_error_message : option string;            (* sync_error_message *)
  pi_updates : list SyncProgress;              (* what [update] was called with *)
  pi_triggers : list BalanceEmitTrigger;       (* what [maybe_emit] was called with *)
  pi_scanned : list (DownloadedBatch * nat);   (* batches scanned, blocks scanned in each *)
}.
Arguments mkPipe {_ _ _}.
Arguments pi_current {_ _ _}.
Arguments pi_download {_ _ _}.
Arguments pi_channel {_ _ _}.
Arguments pi_controller {_ _ _}.
Arguments pi_scan {_ _ _}.
Arguments pi_store {_ _ _}.
Arguments pi_error_message {_ _ _}.
Arguments pi_updates {_ _ _}.
Arguments pi_triggers {_ _ _}.
Arguments pi_scanned {_ _ _}.

(** What the environment answers while one batch is processed. *)
Record ScanEnv (K : Type) := mkScanEnv {
  se_cancelled : bool;                          (* the cancellation channel *)
  se_write_worker : bool;                       (* the cache worker returned *)
  se_disk : CompactBlock -> option error;
  se_tree : TreeAnswer K;
  se_scan_worker : bool;                        (* the scan worker returned *)
  se_undeletable : string -> bool;
  se_elapsed : Z;
}.
Arguments mkScanEnv {_}.
Arguments se_cancelled {_}.
Arguments se_write_worker {_}.
Arguments se_disk {_}.
Arguments se_tree {_}.
Arguments se_scan_worker {_}.
Arguments se_undeletable {_}.
Arguments se_elapsed {_}.

Inductive PipeAct (K : Type) :=
| DlFetch (cancelled : bool) (answer : nat -> RangeAnswer)
| DlSend
| ScPrepare (progress_worker : bool) (tree : TreeAnswer K)
| ScRecv (env : ScanEnv K)
| ScJoin (progress_worker : bool).
Arguments DlFetch {_}.
Arguments DlSend {_}.
Arguments ScPrepare {_}.
Arguments ScRecv {_}.
Arguments ScJoin {_}.

Definition plain_progress (phase : SyncPhase) (frontier tip percent : Z) : SyncProgress :=
  mkSyncProgress phase frontier tip percent None None None.
Definition default_progress : SyncProgress := plain_progress SyncPhase.Idle 0 0 0.
Definition worker_failed (chain_tip : Z) : SyncProgress :=
  mkSyncProgress SyncPhase.Error 0 chain_tip 0 None None (Some "Sync worker failed").

Section Pipeline.
Context {W C K : Type} (lib : ScanLib W C K).
(** The range, the wallet tip the scan reports and the chain tip. *)
Context (range_start range_end wallet_tip chain_tip : Z).
Implicit Types p : Pipe W C K.

Definition set_download (d : DownloadTask) p : Pipe W C K :=
  mkPipe (pi_current p) d (pi_channel p) (pi_controller p) (pi_scan p) (pi_store p)
    (pi_error_message p) (pi_updates p) (pi_triggers p) (pi_scanned p).
Definition set_current (h : Z) p : Pipe W C K :=
  mkPipe h (pi_download p) (pi_channel p) (pi_controller p) (pi_scan p) (pi_store p)
    (pi_error_message p) (pi_updates p) (pi_triggers p) (pi_scanned p).
Definition set_channel (ch : list DownloadResult) p : Pipe W C K :=
  mkPipe (pi_current p) (pi_download p) ch (pi_controller p) (pi_scan p) (pi_store p)
    (pi_error_message p) (pi_updates p) (pi_triggers p) (pi_scanned p).
Definition set_controller (c : AdaptiveBatchController) p : Pipe W C K :=
  mkPipe (pi_current p) (pi_download p) (pi_channel p) c (pi_scan p) (pi_store p)
    (pi_error_message p) (pi_updates p) (pi_triggers p) (pi_scanned p).
Definition set_scan (t : ScanTask K) p : Pipe W C K :=
  mkPipe (pi_current p) (pi_download p) (pi_channel p) (pi_controller p) t (pi_store p)
    (pi_error_message p) (pi_updates p) (pi_triggers p) (pi_scanned p).
Definition set_store (s : Store W C) p : Pipe W C K :=
  mkPipe (pi_current p) (pi_download p) (pi_channel p) (pi_controller p) (pi_scan p) s
    (pi_error_message p) (pi_updates p) (pi_triggers p) (pi_scanned p).
Definition set_message (m : string) p : Pipe W C K :=
  mkPipe (pi_current p) (pi_download p) (pi_channel p) (pi_controller p) (pi_scan p) (pi_store p)
    (Some m) (pi_updates p) (pi_triggers p) (pi_scanned p).
Definition push_update (u : SyncProgress) p : Pipe W C K :=
  mkPipe (pi_current p) (pi_download p) (pi_channel p) (pi_controller p) (pi_scan p) (pi_store p)
    (pi_error_message p) (pi_updates p ++ [u]) (pi_triggers p) (pi_scanned p).
Definition push_trigger (t : BalanceEmitTrigger) p : Pipe W C K :=
  mkPipe (pi_current p) (pi_download p) (pi_channel p) (pi_controller p) (pi_scan p) (pi_store p)
    (pi_error_message p) (pi_updates p) (pi_triggers p ++ [t]) (pi_scanned p).
Definition push_scanned (b : DownloadedBatch) (n : nat) p : Pipe W C K :=
  mkPipe (pi_current p) (pi_download p) (pi_channel p) (pi_controller p) (pi_scan p) (pi_store p)
    (pi_error_message p) (pi_updates p) (pi_triggers p) (pi_scanned p ++ [(b, n)]).

Definition pipe_start (s : Store W C) (message : option string) : Pipe W C K :=
  mkPipe range_start DlLoop [] (controller_new range_start) ScStart s message [] [] [].

(** One turn of the download loop, up to its [send]. *)
Definition download_turn (cancelled : bool) (answer : nat -> RangeAnswer) p : Pipe W C K :=
  let current := pi_current p in
  if current <? range_end then
    if cancelled then set_download (DlSending DownloadResult.Cancelled) p
    else
      let batch_size := next_download_size (pi_controller p) current in
      let batch_end := Z.min (current + batch_size) range_end in
      match download_blocks_with_retry answer current batch_end 5 with
      | (Some (Ok blocks), _, _) =>
          set_current batch_end
            (set_download
               (DlSending (DownloadResult.Batch (mkDownloadedBatch current batch_end blocks))) p)
      | (Some (Err e), _, _) => set_download (DlSending (DownloadResult.Error e)) p
      | (None, _, _) => p
      end
  else set_download (DlSending DownloadResult.RangeComplete) p.

(** [batch_tx.send]: an error once the receiver is dropped, otherwise it
    waits for a place in the channel. *)
Definition send_turn (r : DownloadResult) p : option (Pipe W C K) :=
  match pi_scan p with
  | ScLeft _ => Some (set_download DlDone p)
  | _ =>
      if (length (pi_channel p) <? LOOKAHEAD_BATCHES)%nat then
        Some (set_channel (pi_channel p ++ [r])
                (set_download (match r with DownloadResult.Batch _ => DlLoop | _ => DlDone end) p))
      else None
  end.

(** From the spawn of the download task to the scan loop. *)
Definition prepare_turn (progress_worker : bool) (tree : TreeAnswer K) p : Pipe W C K :=
  if progress_worker then
    let '(percent, fully_scanned) := calculate_progress_and_height lib (st_wallet (pi_store p)) in
    let initial_frontier := Z.max fully_scanned (u32_saturating_sub range_start 1) in
    let p := push_update (plain_progress SyncPhase.Downloading initial_frontier wallet_tip percent) p in
    match fetch_chain_state lib tree (u32_saturating_sub range_start 1) with
    | Ok k => set_scan (ScReceiving k true) p
    | Err _ => set_scan (ScLeft (RangeAborted true)) (set_message "Failed to fetch chain state" p)
    end
  else set_scan (ScLeft (RangeAborted false)) (push_update (worker_failed chain_tip) p).

(** The [Success] arm. *)
Definition after_scan (batch : DownloadedBatch) (elapsed : Z) (activity : ScanBatchActivity)
    (progress : Z * Z) (metas : list BlockMeta) p : Pipe W C K :=
  let '(_, controller) := record_scan_result (db_range_start batch) elapsed activity (pi_controller p) in
  push_scanned batch (length metas)
    (push_trigger (BalanceEmitTrigger.SuccessfulScanBatch (sa_scanned_blocks activity))
       (push_update (plain_progress SyncPhase.Scanning progress.2 wallet_tip progress.1)
          (set_controller controller p))).

(** The [Batch] arm of the scan loop. *)
Definition batch_turn (env : ScanEnv K) (k : K) (first : bool) (batch : DownloadedBatch) p
    : Pipe W C K :=
  if se_cancelled env then set_scan (ScWaiting RangeCancelled) p
  else if negb (se_write_worker env) then
    set_scan (ScLeft (RangeAborted false)) (push_update (worker_failed chain_tip) p)
  else
    let s := pi_store p in
    let '(metas, files, cache) :=
      write_blocks_to_cache lib (se_disk env) (db_blocks batch) (st_files s) (st_cache s) in
    let p := set_store (mkStore files cache (st_wallet s)) p in
    let chain_state :=
      if first then Ok k
      else fetch_chain_state lib (se_tree env) (u32_saturating_sub (db_range_start batch) 1) in
    match chain_state with
    | Err _ => set_scan (ScWaiting RangeError) (set_message "Failed to fetch chain state" p)
    | Ok chain_state =>
        if negb (se_scan_worker env) then
          set_scan (ScLeft (RangeAborted false)) (push_update (worker_failed chain_tip) p)
        else
          let '(outcome, activity, progress, s) :=
            scan_batch lib (se_undeletable env) (db_range_start batch) chain_state metas
              (db_range_end batch) (pi_store p) in
          let p := set_store s p in
          match outcome with
          | ScanOutcome.Success =>
              set_scan (ScReceiving k false)
                (after_scan batch (se_elapsed env) activity progress metas p)
          | ScanOutcome.ReorgDetected h => set_scan (ScWaiting (RangeReorg h)) p
          | ScanOutcome.Error e =>
              set_scan (ScWaiting RangeError) (set_message ("Failed to scan blocks: " +:+ e) p)
          end
    end.

(** One [batch_rx.recv] of the scan loop: it waits while the channel is empty
    and the download task may still send. *)
Definition recv_turn (env : ScanEnv K) (k : K) (first : bool) p : option (Pipe W C K) :=
  match pi_channel p with
  | [] => match pi_download p with
          | DlDone => Some (set_scan (ScWaiting RangeDone) p)
          | _ => None
          end
  | r :: ch =>
      let p := set_channel ch p in
      Some (match r with
            | DownloadResult.Batch batch => batch_turn env k first batch p
            | DownloadResult.RangeComplete => set_scan (ScWaiting RangeDone) p
            | DownloadResult.Error _ =>
                set_scan (ScWaiting RangeError) (set_message "Failed to download blocks" p)
            | DownloadResult.Cancelled => set_scan (ScWaiting RangeCancelled) p
            end)
  end.

(** After [download_handle.await]. *)
Definition join_turn (e : RangeEnd) (progress_worker : bool) p : Pipe W C K :=
  match e with
  | RangeCancelled =>
      set_scan (ScLeft e)
        (push_update default_progress (push_trigger BalanceEmitTrigger.ForcedMilestone p))
  | RangeDone | RangeReorg _ =>
      if progress_worker then
        let '(percent, fully_scanned) :=
          calculate_progress_and_height lib (st_wallet (pi_store p)) in
        set_scan (ScLeft e)
          (push_update (plain_progress SyncPhase.Scanning fully_scanned wallet_tip percent) p)
      else set_scan (ScLeft (RangeAborted false)) (push_update (worker_failed chain_tip) p)
  | RangeError | RangeAborted _ => set_scan (ScLeft e) p
  end.

(** A step of one of the tasks; [None] where the task cannot move. *)
Definition act (a : PipeAct K) p : option (Pipe W C K) :=
  match a with
  | DlFetch cancelled answer =>
      match pi_download p with DlLoop => Some (download_turn cancelled answer p) | _ => None end
  | DlSend => match pi_download p with DlSending r => send_turn r p | _ => None end
  | ScPrepare worker tree =>
      match pi_scan p with ScStart => Some (prepare_turn worker tree p) | _ => None end
  | ScRecv env =>
      match pi_scan p with ScReceiving k first => recv_turn env k first p | _ => None end
  | ScJoin worker =>
      match pi_scan p, pi_download p with
      | ScWaiting e, DlDone => Some (join_turn e worker p)
      | _, _ => None
      end
  end.

Inductive reachable (p0 : Pipe W C K) : Pipe W C K -> Prop :=
| reach_start : reachable p0 p0
| reach_step p a p' : reachable p0 p -> act a p = Some p' -> reachable p0 p'.

Fixpoint run (acts : list (PipeAct K)) p : option (Pipe W C K) :=
  match acts with
  | [] => Some p
  | a :: acts' => act a p ≫= run acts'
  end.

Lemma pipe_run_reachable acts p0 p : run acts p0 = Some p -> reachable p0 p.
Proof using Type.
  assert (forall q, reachable p0 q -> run acts q = Some p -> reachable p0 p) as Hgen.
  { induction acts as [|a acts IH]; intros q Hq E; simpl in E; [by simplify_eq|].
    apply bind_Some in E as (q' & E1 & E2). apply (IH q'); [|done]. by eapply reach_step. }
  apply Hgen, reach_start.
Qed.

(** Both tasks are over. *)
Definition finished p : Prop := pi_download p = DlDone /\ exists e, pi_scan p = ScLeft e.

(** No task can move, whatever the environment answers. *)
Definition stuck p : Prop := forall a, act a p = None.
End Pipeline.

(** ** Batch sizes stay in their bounds *)

(** A controller as [controller_new] makes it, with a size in its bounds. *)
Definition controller_ok (c : AdaptiveBatchController) : Prop :=
  (ac_min_size c = 100 /\ ac_max_size c = 100 \/ ac_min_size c = 125 /\ ac_max_size c = 2000)
  /\ ac_min_size c <= ac_current_size c <= ac_max_size c.

Lemma controller_new_ok h : controller_ok (controller_new h).
Proof.
  unfold controller_ok, controller_new, effective_batch_size.
  destruct (_ && _); cbv -[Z.le]; lia.
Qed.

Lemma record_scan_result_ok start d a c :
  controller_ok c -> controller_ok (record_scan_result start d a c).2.
Proof.
  intros [Hb Hc]. unfold record_scan_result.
  do 3 (case_match; [done|]). cbv zeta.
  assert (controller_ok (mkAdaptiveBatchController (ac_min_size c) (ac_max_size c)
    (clampZ (ac_min_size c) (ac_max_size c)
       (if ADAPTIVE_BATCH_SLOW_SCAN <=? d then
          u32_saturating_mul (ac_current_size c) ADAPTIVE_BATCH_SHRINK_NUMERATOR
            / ADAPTIVE_BATCH_SHRINK_DENOMINATOR
        else if (d <=? ADAPTIVE_BATCH_FAST_SCAN) && (touched_notes a =? 0) then
          u32_saturating_mul (ac_current_size c) ADAPTIVE_BATCH_GROWTH_NUMERATOR
            / ADAPTIVE_BATCH_GROWTH_DENOMINATOR
        else ac_current_size c)))) as Hok.
  { split; simpl; [done|]. apply clampZ_bounds. lia. }
  by destruct (clampZ _ _ _ =? _).
Qed.

Lemma next_download_size_bounds c h :
  controller_ok c -> 100 <= next_download_size c h <= 2000.
Proof.
  intros [Hb Hc]. unfold next_download_size. case_match; [unfold BATCH_SIZE_SANDBLASTING; lia|].
  rewrite clampZ_id; lia.
Qed.

(** ** Downloading one batch *)

Section Download.
Context (answer : nat -> RangeAnswer) (max_retries : Z).

(** The decisive answer of a download: the last one. *)
Definition decides (r : result (list CompactBlock)) (a : RangeAnswer) : Prop :=
  match r, a with
  | Ok blocks, RangeStream blocks' stream_error =>
      blocks = blocks' /\ (stream_error = None \/ blocks <> [])
  | Err e, RangeFailed e' => e = e'
  | Err e, RangeStream _ stream_error => stream_error = Some e
  | Ok _, RangeFailed _ => False
  end.

(** The answers before the decisive one: no connection, or no block. *)
Definition retried (a : RangeAnswer) : Prop :=
  match a with RangeFailed _ => True | RangeStream blocks _ => blocks = [] end.

(** What a run of the loop from [attempt] and [calls] gives: enough fuel, a
    bound on the calls and on the delays, and the answer that decided. *)
Definition download_facts (attempt : Z) (calls : nat)
    (out : option (result (list CompactBlock)) * nat * list Z) : Prop :=
  exists r n delays,
    out = (Some r, S n, delays)
    /\ (calls <= n)%nat /\ Z.of_nat (n - calls) <= Z.max 0 (max_retries - attempt)
    /\ decides r (answer n)
    /\ (forall i, (calls <= i < n)%nat -> retried (answer i))
    /\ 2 * Z.of_nat (length delays) <= Z.max 0 (max_retries - attempt) + 1
    /\ Forall (fun d => 2000 <= d <= 60000) delays.

Lemma download_facts_stop attempt calls r :
  decides r (answer calls) -> download_facts attempt calls (Some r, S calls, []).
Proof using Type.
  intros Hr. exists r, calls, []. split_and!; [done|lia|lia|done|lia|simpl; lia|done].
Qed.

Lemma download_facts_retry attempt calls step out :
  1 <= step -> attempt < max_retries -> retried (answer calls) ->
  download_facts (attempt + step) (S calls) out -> download_facts attempt calls out.
Proof using Type.
  intros Hs Hlt Ha (r & n & delays & -> & H1 & H2 & H3 & H4 & H5 & H6).
  exists r, n, delays. split_and!; [done|lia|lia|done| |lia|done].
  intros i Hi. destruct (decide (i = calls)) as [->|]; [done|]. apply H4. lia.
Qed.

Lemma retry_delay_ms_bounds attempt : 1 <= attempt -> 2000 <= retry_delay_ms attempt <= 60000.
Proof using Type.
  intros. unfold retry_delay_ms.
  pose proof (Z.pow_le_mono_r 2 1 (Z.min attempt 6) ltac:(lia) ltac:(lia)). lia.
Qed.

Lemma download_loop_facts fuel attempt calls :
  0 <= attempt -> max_retries - attempt < Z.of_nat fuel -> (0 < fuel)%nat ->
  download_facts attempt calls (download_loop fuel answer max_retries attempt calls).
Proof using Type.
  revert attempt calls. induction fuel as [|fuel IH]; intros attempt calls Ha Hf Hp; [lia|].
  assert (forall step, 1 <= step -> attempt < max_retries ->
    download_facts (attempt + step) (S calls)
      (download_loop fuel answer max_retries (attempt + step) (S calls))) as Hrec.
  { intros step Hs Hlt. apply IH; lia. }
  clear IH. simpl. destruct (answer calls) as [e|blocks se] eqn:Ea.
  - destruct (attempt <? max_retries) eqn:El; breflect.
    + replace (attempt + 1 + 1) with (attempt + 2) by lia.
      destruct (Hrec 2) as (r & n & delays & -> & H1 & H2 & H3 & H4 & H5 & H6); [lia..|].
      exists r, n, (retry_delay_ms (attempt + 1) :: delays).
      split_and!; [done|lia|lia|done| |simpl length; lia|].
      * intros i Hi. destruct (decide (i = calls)) as [->|]; [by rewrite Ea|]. apply H4. lia.
      * constructor; [apply retry_delay_ms_bounds; lia|done].
    + apply download_facts_stop. by rewrite Ea.
  - assert (blocks = [] -> attempt < max_retries -> download_facts attempt calls
      (download_loop fuel answer max_retries (attempt + 1) (S calls))) as Hgo.
    { intros -> Hlt. apply (download_facts_retry _ _ 1); [lia|done|by rewrite Ea|]. apply Hrec; lia. }
    destruct se as [err|]; [destruct (attempt <? max_retries) eqn:El|];
      [destruct (negb _ || _) eqn:En| |destruct (negb _ || _) eqn:En]; breflect; auto;
      apply download_facts_stop; rewrite Ea; simpl; auto.
    apply orb_true_iff in En as [En|En]; breflect; [auto|lia].
Qed.

(** When no connection can be made, [attempt] is counted twice per failure. *)
Lemma download_loop_offline fuel attempt calls :
  (forall i, exists e, answer i = RangeFailed e) ->
  0 <= attempt -> max_retries - attempt < Z.of_nat fuel -> (0 < fuel)%nat ->
  exists e delays,
    download_loop fuel answer max_retries attempt calls
    = (Some (Err e), (calls + S (Z.to_nat ((max_retries - attempt + 1) / 2)))%nat, delays).
Proof using Type.
  intros Hoff. revert attempt calls.
  induction fuel as [|fuel IH]; intros attempt calls Ha Hf Hp; [lia|]. simpl.
  destruct (Hoff calls) as [e ->]. destruct (attempt <? max_retries) eqn:El; breflect.
  - destruct (IH (attempt + 1 + 1) (S calls)) as (e' & ds & ->); [lia..|].
    assert ((max_retries - attempt + 1) / 2 = (max_retries - (attempt + 1 + 1) + 1) / 2 + 1) as ->
      by (rewrite <- Z.div_add by lia; f_equal; lia).
    pose proof (Z.div_pos (max_retries - (attempt + 1 + 1) + 1) 2 ltac:(lia) ltac:(lia)).
    exists e'. eexists. do 2 f_equal. lia.
  - assert ((max_retries - attempt + 1) / 2 < 1) by (apply Z.div_lt_upper_bound; lia).
    exists e. eexists. do 2 f_equal. lia.
Qed.
End Download.

(** A batch download of a non-empty range always returns, after at most
    [max_retries + 1] requests and with every delay between 2 and 60 seconds.
    Its result is that of the last request, and every earlier request gave no
    block.  Two consequences differ from the comments of the code: a
    stream that breaks after its first block counts as a success and its
    partial batch is returned, not retried from scratch; and while no
    connection can be made only about half of the retries take place. *)
Theorem download_blocks_with_retry_result (answer : nat -> RangeAnswer)
    (start end_exclusive max_retries : Z) :
  start < end_exclusive -> 0 <= max_retries ->
  let out := download_blocks_with_retry answer start end_exclusive max_retries in
  (exists r n delays,
     out = (Some r, S n, delays) /\ Z.of_nat n <= max_retries
     /\ decides r (answer n) /\ (forall i, (i < n)%nat -> retried (answer i))
     /\ 2 * Z.of_nat (length delays) <= max_retries + 1
     /\ Forall (fun d => 2000 <= d <= 60000) delays)
  /\ (forall blocks e, answer O = RangeStream blocks (Some e) -> blocks <> [] -> 0 < max_retries ->
        out = (Some (Ok blocks), 1%nat, []))
  /\ ((forall i, exists e, answer i = RangeFailed e) ->
        exists e delays, out = (Some (Err e), S (Z.to_nat ((max_retries + 1) / 2)), delays)).
Proof.
  intros Hr Hm. unfold download_blocks_with_retry. cbv zeta.
  destruct (end_exclusive <=? start) eqn:E; breflect; [lia|]. split_and!.
  - destruct (download_loop_facts answer max_retries (S (Z.to_nat max_retries)) 0 O)
      as (r & n & ds & -> & H1 & H2 & H3 & H4 & H5 & H6); [lia..|].
    exists r, n, ds. split_and!; [done|lia|done| |lia|done]. intros i Hi. apply H4. lia.
  - intros blocks e Ha Hb Hp. simpl. rewrite Ha.
    rewrite (proj2 (Z.ltb_lt 0 max_retries)) by lia. by rewrite bool_decide_false.
  - intros Hoff. destruct (download_loop_offline answer max_retries (S (Z.to_nat max_retries)) 0 O)
      as (e & ds & ->); [done|lia..|].
    exists e, ds. do 3 f_equal. by rewrite Z.sub_0_r.
Qed.

Definition demo_block (h : Z) : CompactBlock := mkCompactBlock h zero_hash 0 [].

(** A stream that breaks after one block of a range of ten. *)
Lemma download_blocks_with_retry_result_witness :
  download_blocks_with_retry
    (fun _ => RangeStream [demo_block 5] (Some (AnyhowMsg "reset"))) 5 15 5
  = (Some (Ok [demo_block 5]), 1%nat, []).
Proof.
  apply (download_blocks_with_retry_result
           (fun _ => RangeStream [demo_block 5] (Some (AnyhowMsg "reset"))) 5 15 5
           ltac:(lia) ltac:(lia) : _ /\ _ /\ _) with (e := AnyhowMsg "reset"); done.
Defined.

(** ** The pipeline invariant *)

(** The batches [l] cover the heights from [a] to [b] without gap or overlap,
    each with at least one and at most 2000 heights. *)
Fixpoint contiguous (a : Z) (l : list DownloadedBatch) (b : Z) : Prop :=
  match l with
  | [] => a = b
  | x :: l' =>
      db_range_start x = a /\ a < db_range_end x <= a + 2000 /\ contiguous (db_range_end x) l' b
  end.

Lemma contiguous_snoc a l x m :
  contiguous a l m -> db_range_start x = m -> m < db_range_end x <= m + 2000 ->
  contiguous a (l ++ [x]) (db_range_end x).
Proof.
  revert a. induction l as [|y l IH]; intros a; simpl.
  - intros -> -> Hx. done.
  - intros (H1 & H2 & H3) Hs Hx. split_and!; [done|lia|lia|]. by apply IH.
Qed.

Definition is_batch (r : DownloadResult) : bool :=
  match r with DownloadResult.Batch _ => true | _ => false end.

Section PipelineInvariant.
Context {W C K : Type} (lib : ScanLib W C K).
Context (range_start range_end wallet_tip chain_tip : Z).
Implicit Types p : Pipe W C K.

Abbreviation pipe_act := (act lib range_start range_end wallet_tip chain_tip).

(** The results that are on their way to the scan loop. *)
Definition pending p : list DownloadResult :=
  pi_channel p ++ match pi_download p with DlSending r => [r] | _ => [] end.

(** The scan loop will still receive. *)
Definition live (t : ScanTask K) : Prop :=
  match t with ScStart | ScReceiving _ _ => True | _ => False end.

(** While the scan loop is live: the batches scanned and pending cover what
    was downloaded, and a final result closes them. *)
Definition live_inv p : Prop :=
  exists bs tl,
    pending p = map DownloadResult.Batch bs ++ tl
    /\ contiguous range_start ((pi_scanned p).*1 ++ bs) (pi_current p)
    /\ (tl = [] /\ pi_download p <> DlDone
        \/ exists t, tl = [t] /\ is_batch t = false /\ pi_download p <> DlLoop
                     /\ (t = DownloadResult.RangeComplete -> range_end <= pi_current p)).

(** The scan loop has seen the whole range. *)
Definition done_inv p : Prop :=
  pi_download p = DlDone /\ range_end <= pi_current p
  /\ contiguous range_start (pi_scanned p).*1 (pi_current p).

Definition scan_inv p : Prop :=
  match pi_scan p with
  | ScStart | ScReceiving _ _ => live_inv p
  | ScWaiting RangeDone | ScLeft RangeDone => done_inv p
  | ScWaiting (RangeAborted _) => False
  | _ => exists rest, contiguous range_start ((pi_scanned p).*1 ++ rest) (pi_current p)
  end.

Record pipe_inv p : Prop := mkPipeInv {
  pin_controller : controller_ok (pi_controller p);
  pin_channel : (length (pi_channel p) <= LOOKAHEAD_BATCHES)%nat;
  pin_current : range_start <= pi_current p <= Z.max range_start range_end;
  pin_scan : scan_inv p;
}.

Lemma pipe_start_inv s msg : pipe_inv (pipe_start range_start s msg).
Proof using Type.
  constructor; simpl; [apply controller_new_ok|lia|lia|].
  exists [], []. split_and!; [done|done|by left].
Qed.

(** What one turn of the download loop does. *)
Lemma download_turn_cases cancelled answer p :
  controller_ok (pi_controller p) ->
  (exists t, is_batch t = false
     /\ (t = DownloadResult.RangeComplete -> range_end <= pi_current p)
     /\ download_turn range_end cancelled answer p = set_download (DlSending t) p)
  \/ (exists b, db_range_start b = pi_current p
        /\ pi_current p < db_range_end b <= Z.min (pi_current p + 2000) range_end
        /\ download_turn range_end cancelled answer p
           = set_current (db_range_end b) (set_download (DlSending (DownloadResult.Batch b)) p)).
Proof using Type.
  intros Hc. unfold download_turn. pose proof (next_download_size_bounds _ (pi_current p) Hc) as Hn.
  destruct (pi_current p <? range_end) eqn:El; breflect.
  2:{ left. exists DownloadResult.RangeComplete. done. }
  destruct cancelled; [left; by exists DownloadResult.Cancelled|].
  remember (Z.min (pi_current p + next_download_size (pi_controller p) (pi_current p)) range_end)
    as e eqn:Ee.
  destruct (download_loop_facts answer 5 6 0 0) as (r & n & ds & E & _); [lia..|].
  unfold download_blocks_with_retry. rewrite (proj2 (Z.leb_gt e (pi_current p))) by lia.
  change (S (Z.to_nat 5)) with 6%nat. rewrite E. destruct r as [blocks|err].
  - right. exists (mkDownloadedBatch (pi_current p) e blocks). split_and!; [done|simpl; lia..|done].
  - left. by exists (DownloadResult.Error err).
Qed.

Lemma contiguous_rest_snoc p b rest :
  contiguous range_start ((pi_scanned p).*1 ++ rest) (pi_current p) ->
  db_range_start b = pi_current p -> pi_current p < db_range_end b <= pi_current p + 2000 ->
  contiguous range_start ((pi_scanned p).*1 ++ (rest ++ [b])) (db_range_end b).
Proof using Type. intros H1 H2 H3. rewrite (assoc_L (++)). by eapply contiguous_snoc. Qed.

Lemma fetch_inv cancelled answer p :
  pi_download p = DlLoop -> pipe_inv p -> pipe_inv (download_turn range_end cancelled answer p).
Proof using Type.
  intros Hd [Hc Hch Hcur Hs]. unfold scan_inv in Hs.
  destruct (download_turn_cases cancelled answer p Hc) as [(t & Ht & Hrc & ->)|(b & Hb & He & ->)].
  - constructor; try done. unfold scan_inv; simpl. unfold live_inv, done_inv in *.
    unfold pending in *; simpl; rewrite Hd, ?app_nil_r in *.
    destruct (pi_scan p) as [|k f|[]|[]]; try done; try (by destruct Hs).
    all: destruct Hs as (bs & tl & E & Hco & [[-> _]|(t' & -> & _ & Hn & _)]); [|done].
    all: exists bs, [t]; rewrite app_nil_r in E; rewrite E; split_and!; [done|done|].
    all: right; exists t; done.
  - constructor; [done|done|simpl; lia|]. unfold scan_inv; simpl. unfold live_inv, done_inv in *.
    unfold pending in *; simpl; rewrite Hd, ?app_nil_r in *.
    assert (forall rest, contiguous range_start ((pi_scanned p).*1 ++ rest) (pi_current p) ->
      exists rest, contiguous range_start ((pi_scanned p).*1 ++ rest) (db_range_end b)) as Hrest.
    { intros rest Hr. exists (rest ++ [b]). apply contiguous_rest_snoc; [done|done|lia]. }
    destruct (pi_scan p) as [|k f|[]|[]]; try done; try (by destruct Hs); try (by destruct Hs; eauto).
    all: destruct Hs as (bs & tl & E & Hco & [[-> _]|(t' & -> & _ & Hn & _)]); [|done].
    all: exists (bs ++ [b]), []; rewrite app_nil_r in E; rewrite E, fmap_app, app_nil_r.
    all: split_and!; [done|apply contiguous_rest_snoc; [done|done|lia]|by left].
Qed.

(** The state of the download task after its [send]. *)
Lemma pending_send r p :
  pi_download p = DlSending r ->
  pending (set_channel (pi_channel p ++ [r])
             (set_download (match r with DownloadResult.Batch _ => DlLoop | _ => DlDone end) p))
  = pending p.
Proof using Type. intros Hd. unfold pending; simpl. rewrite Hd. destruct r; by rewrite app_nil_r. Qed.

Lemma send_live_inv r p :
  pi_download p = DlSending r -> live_inv p ->
  live_inv (set_channel (pi_channel p ++ [r])
              (set_download (match r with DownloadResult.Batch _ => DlLoop | _ => DlDone end) p)).
Proof using Type.
  intros Hd (bs & tl & E & Hco & Ht). exists bs, tl. rewrite pending_send by done. split_and!; [done..|].
  unfold pending in E. rewrite Hd in E; simpl.
  destruct Ht as [[-> _]|(t & -> & Hb & _ & Hrc)]; [left|right; exists t].
  - split; [done|]. rewrite app_nil_r in E.
    assert (r ∈ map DownloadResult.Batch bs) as Hr by (rewrite <- E; set_solver).
    apply list_elem_of_fmap in Hr as (b & -> & _). done.
  - apply app_inj_tail in E as [_ ->]. split_and!; [done|done|by destruct t|done].
Qed.

Lemma send_inv r p p' :
  pi_download p = DlSending r -> send_turn r p = Some p' -> pipe_inv p -> pipe_inv p'.
Proof using Type.
  intros Hd E [Hc Hch Hcur Hs]. unfold send_turn in E. unfold scan_inv in Hs.
  assert (forall e, pi_scan p = ScLeft e -> pipe_inv (set_download DlDone p)) as Hleft.
  { intros e He. constructor; try done. unfold scan_inv; simpl. rewrite He in *.
    destruct e; try done. by destruct Hs. }
  destruct (pi_scan p) as [|k f|e|e] eqn:Esc.
  4:{ injection E as <-. by eapply Hleft. }
  all: clear Hleft.
  all: destruct (length (pi_channel p) <? LOOKAHEAD_BATCHES)%nat eqn:El; [|done]; simplify_eq.
  all: apply Nat.ltb_lt in El.
  all: constructor; [done|simpl; rewrite length_app; simpl; lia|done|].
  all: unfold scan_inv; simpl; rewrite Esc.
  1,2: by apply send_live_inv.
  destruct e; try done. destruct Hs as [Hx _]. congruence.
Qed.
(** A batch that is handled leaves the download side alone; when it was
    scanned it is recorded and the loop goes on, otherwise the loop is over. *)
Lemma batch_turn_cases env k first batch p :
  let p' := batch_turn lib wallet_tip chain_tip env k first batch p in
  pi_current p' = pi_current p /\ pi_download p' = pi_download p /\ pi_channel p' = pi_channel p
  /\ (controller_ok (pi_controller p) -> controller_ok (pi_controller p'))
  /\ ((exists n, pi_scan p' = ScReceiving k false /\ pi_scanned p' = pi_scanned p ++ [(batch, n)])
      \/ pi_scanned p' = pi_scanned p
         /\ ((exists h, pi_scan p' = ScWaiting (RangeReorg h))
             \/ pi_scan p' = ScWaiting RangeError \/ pi_scan p' = ScWaiting RangeCancelled
             \/ pi_scan p' = ScLeft (RangeAborted false))).
Proof using Type.
  cbv zeta. unfold batch_turn. destruct (se_cancelled env); [naive_solver|].
  destruct (se_write_worker env); simpl; [|naive_solver].
  destruct (write_blocks_to_cache _ _ _ _ _) as [[metas files] cache].
  destruct (if first then _ else _) as [cs|]; [|naive_solver].
  destruct (se_scan_worker env); simpl; [|naive_solver].
  destruct (scan_batch _ _ _ _ _ _ _) as [[[outcome activity] progress] s].
  destruct outcome; [|naive_solver..]. unfold after_scan.
  pose proof (record_scan_result_ok (db_range_start batch) (se_elapsed env) activity
    (pi_controller p)) as Hrec. simpl in *.
  destruct (record_scan_result _ _ _ _) as [adj c']. simpl in *. naive_solver.
Qed.

Lemma recv_batch_inv env k first batch ch p :
  pi_scan p = ScReceiving k first -> pi_channel p = DownloadResult.Batch batch :: ch ->
  pipe_inv p ->
  pipe_inv (batch_turn lib wallet_tip chain_tip env k first batch (set_channel ch p)).
Proof using Type.
  intros Hsc Hch [Hc Hlen Hcur Hs]. unfold scan_inv in Hs. rewrite Hsc in Hs.
  destruct (batch_turn_cases env k first batch (set_channel ch p))
    as (E1 & E2 & E3 & E4 & E5). simpl in *.
  destruct Hs as (bs & tl & Ep & Hco & Ht). unfold pending in Ep. rewrite Hch in Ep.
  destruct bs as [|b bs].
  { exfalso. destruct Ht as [[-> _]|(t & -> & Hb & _)]; [done|].
    simpl in Ep. injection Ep as <- _. done. }
  simpl in Ep. injection Ep as <- Ep.
  constructor; [auto|rewrite E3; rewrite Hch in Hlen; simpl in Hlen; lia|by rewrite E1|].
  unfold scan_inv. destruct E5 as [(n & -> & Esn)|[Esn E5]].
  - exists bs, tl. unfold pending. rewrite E1, E2, E3, Esn, Ep, fmap_app. split_and!; [done| |done].
    by rewrite <- (assoc_L (++)).
  - assert (exists rest, contiguous range_start
      ((pi_scanned (batch_turn lib wallet_tip chain_tip env k first batch (set_channel ch p))).*1
       ++ rest) (pi_current (batch_turn lib wallet_tip chain_tip env k first batch
                               (set_channel ch p)))) as Hrest
      by (rewrite Esn, E1; eauto).
    destruct E5 as [[h ->]|[-> |[-> | ->]]]; done.
Qed.

Lemma recv_inv env k first p p' :
  pi_scan p = ScReceiving k first ->
  recv_turn lib wallet_tip chain_tip env k first p = Some p' -> pipe_inv p -> pipe_inv p'.
Proof using Type.
  intros Hsc E Hinv. unfold recv_turn in E. destruct (pi_channel p) as [|r ch] eqn:Hch.
  - destruct Hinv as [Hc Hlen Hcur Hs]. unfold scan_inv in Hs. rewrite Hsc in Hs.
    destruct (pi_download p) eqn:Hd; simplify_eq. exfalso.
    destruct Hs as (bs & tl & Ep & _ & [[_ Hn]|(t & -> & _)]); [done|].
    unfold pending in Ep. rewrite Hch, Hd in Ep. simpl in Ep.
    symmetry in Ep. apply app_eq_nil in Ep as [_ Ep]. done.
  - injection E as <-. destruct (is_batch r) eqn:Hb.
    { destruct r; try done. by apply recv_batch_inv. }
    destruct Hinv as [Hc Hlen Hcur Hs]. unfold scan_inv in Hs. rewrite Hsc in Hs.
    destruct Hs as (bs & tl & Ep & Hco & Ht). unfold pending in Ep. rewrite Hch in Ep.
    destruct bs as [|b bs]; [|simpl in Ep; injection Ep as -> _; done].
    destruct Ht as [[-> _]|(t & -> & _ & Hn & Hrc)]; [done|].
    simpl in Ep. injection Ep as -> Ep. apply app_eq_nil in Ep as [-> Ep].
    assert (pi_download p = DlDone) as Hd by (destruct (pi_download p); done).
    rewrite app_nil_r in Hco.
    destruct t; try done; constructor; simpl; try done; try lia; unfold scan_inv; simpl.
    1: split_and!; [done|by apply Hrc|done].
    all: exists []; by rewrite app_nil_r.
Qed.

Lemma act_inv a p p' : pipe_act a p = Some p' -> pipe_inv p -> pipe_inv p'.
Proof using Type.
  intros E Hinv. destruct a as [cancelled answer| |worker tree|env|worker]; simpl in E.
  - destruct (pi_download p) eqn:Hd; simplify_eq. by apply fetch_inv.
  - destruct (pi_download p) eqn:Hd; try done. by eapply send_inv.
  - destruct (pi_scan p) eqn:Hsc; simplify_eq. destruct Hinv as [Hc Hlen Hcur Hs].
    unfold scan_inv in Hs. rewrite Hsc in Hs.
    assert (exists rest, contiguous range_start ((pi_scanned p).*1 ++ rest) (pi_current p)) as Hr
      by (destruct Hs as (bs & ? & _ & ? & _); eauto).
    unfold prepare_turn. destruct worker; [|by constructor].
    destruct (calculate_progress_and_height _ _). destruct (fetch_chain_state _ _ _); by constructor.
  - destruct (pi_scan p) eqn:Hsc; try done. by eapply recv_inv.
  - destruct (pi_scan p) as [| |e|] eqn:Hsc; try done.
    destruct (pi_download p) eqn:Hd; simplify_eq. destruct Hinv as [Hc Hlen Hcur Hs].
    unfold scan_inv in Hs. rewrite Hsc in Hs. unfold join_turn.
    assert (e = RangeDone -> exists rest,
      contiguous range_start ((pi_scanned p).*1 ++ rest) (pi_current p)) as Hr.
    { intros ->. destruct Hs as (_ & _ & Hco). exists []. by rewrite app_nil_r. }
    destruct e, worker; try destruct (calculate_progress_and_height _ _); try done;
      constructor; simpl; try done; unfold scan_inv; simpl; auto.
Qed.

Lemma pipe_reachable_inv s msg p :
  reachable lib range_start range_end wallet_tip chain_tip (pipe_start range_start s msg) p ->
  pipe_inv p.
Proof using Type.
  induction 1 as [|p a p' _ IH E]; [apply pipe_start_inv|]. by eapply act_inv.
Qed.
(** ** Termination *)

Definition download_weight (d : DownloadTask) : Z :=
  match d with
  | DlLoop => 4
  | DlSending (DownloadResult.Batch _) => 6
  | DlSending _ => 3
  | DlDone => 0
  end.

Definition scan_weight (t : ScanTask K) : Z :=
  match t with ScStart => 3 | ScReceiving _ _ => 2 | ScWaiting _ => 1 | ScLeft _ => 0 end.

(** Every step makes this smaller. *)
Definition pipe_measure p : Z :=
  10 * (Z.max range_start range_end - pi_current p) + download_weight (pi_download p)
  + Z.of_nat (length (pi_channel p)) + scan_weight (pi_scan p).

Lemma pipe_measure_nonneg p : pipe_inv p -> 0 <= pipe_measure p.
Proof using Type.
  intros [_ _ Hc _]. unfold pipe_measure, download_weight, scan_weight. repeat case_match; lia.
Qed.

Lemma fetch_measure cancelled answer p :
  pi_download p = DlLoop -> pipe_inv p ->
  pipe_measure (download_turn range_end cancelled answer p) < pipe_measure p.
Proof using Type.
  intros Hd Hinv. unfold pipe_measure. rewrite Hd.
  destruct (download_turn_cases cancelled answer p (pin_controller _ Hinv))
    as [(t & Ht & _ & ->)|(b & _ & He & ->)]; simpl; [destruct t; try done; lia|lia].
Qed.

Lemma send_measure r p p' :
  pi_download p = DlSending r -> send_turn r p = Some p' -> pipe_measure p' < pipe_measure p.
Proof using Type.
  intros Hd E. unfold send_turn in E. unfold pipe_measure. rewrite Hd.
  destruct (pi_scan p) eqn:Hsc; [destruct (_ <? _)%nat; [|done]..|];
    injection E as <-; simpl; rewrite Hsc, ?length_app; destruct r; simpl; lia.
Qed.

Lemma recv_measure env k first p p' :
  pi_scan p = ScReceiving k first ->
  recv_turn lib wallet_tip chain_tip env k first p = Some p' -> pipe_measure p' < pipe_measure p.
Proof using Type.
  intros Hsc E. unfold recv_turn in E. unfold pipe_measure. rewrite Hsc.
  destruct (pi_channel p) as [|r ch] eqn:Hch.
  - destruct (pi_download p) eqn:Hd; simplify_eq. simpl. rewrite Hd, Hch. simpl. lia.
  - injection E as <-. destruct r as [batch| | |]; simpl; try lia.
    destruct (batch_turn_cases env k first batch (set_channel ch p)) as (-> & -> & -> & _ & Hc).
    simpl. destruct Hc as [(n & -> & _)|[_ [[h ->]|[-> |[-> | ->]]]]]; simpl; lia.
Qed.

Lemma act_measure a p p' :
  pipe_inv p -> pipe_act a p = Some p' -> pipe_measure p' < pipe_measure p.
Proof using Type.
  intros Hinv E. destruct a as [cancelled answer| |worker tree|env|worker]; simpl in E.
  - destruct (pi_download p) eqn:Hd; simplify_eq. by apply fetch_measure.
  - destruct (pi_download p) eqn:Hd; try done. by eapply send_measure.
  - destruct (pi_scan p) eqn:Hsc; simplify_eq. unfold prepare_turn, pipe_measure. rewrite Hsc.
    destruct worker; [destruct (calculate_progress_and_height _ _), (fetch_chain_state _ _ _)|];
      simpl; lia.
  - destruct (pi_scan p) eqn:Hsc; try done. by eapply recv_measure.
  - destruct (pi_scan p) as [| |e|] eqn:Hsc; try done.
    destruct (pi_download p) eqn:Hd; simplify_eq. unfold join_turn, pipe_measure. rewrite Hsc.
    destruct e, worker; try destruct (calculate_progress_and_height _ _); simpl; rewrite ?Hd; simpl;
      lia.
Qed.

Lemma run_facts acts p p' :
  pipe_inv p -> run lib range_start range_end wallet_tip chain_tip acts p = Some p' ->
  pipe_inv p' /\ Z.of_nat (length acts) + pipe_measure p' <= pipe_measure p.
Proof using Type.
  revert p. induction acts as [|a acts IH]; intros p Hinv E; simpl in E.
  { injection E as ->. simpl. split; [done|lia]. }
  apply bind_Some in E as (p1 & E1 & E2). pose proof (act_measure _ _ _ Hinv E1).
  apply act_inv in E1; [|done]. destruct (IH p1 E1 E2). simpl length. split; [done|lia].
Qed.

(** ** Where the pipeline stops *)

(** The scan loop waits for the download task, which waits for a place in a
    channel that nobody empties. *)
Definition deadlocked p : Prop :=
  length (pi_channel p) = LOOKAHEAD_BATCHES
  /\ (exists r, pi_download p = DlSending r)
  /\ exists e, pi_scan p = ScWaiting e /\ e <> RangeDone.

Lemma stuck_iff p :
  pipe_inv p ->
  stuck lib range_start range_end wallet_tip chain_tip p <-> finished p \/ deadlocked p.
Proof using Type.
  intros [_ Hlen _ Hs]. split.
  - intros Hst.
    pose proof (Hst (DlFetch false (fun _ => RangeFailed (AnyhowMsg "")))) as H1.
    pose proof (Hst DlSend) as H2. pose proof (Hst (ScPrepare true (TreeFailed ""))) as H3.
    pose proof (Hst (ScRecv (mkScanEnv true true (fun _ => None) (TreeFailed "") true
                               (fun _ => false) 0))) as H4.
    pose proof (Hst (ScJoin true)) as H5. clear Hst. unfold scan_inv in Hs. simpl in *.
    unfold send_turn, recv_turn in *.
    destruct (pi_scan p) as [|k f|e|e] eqn:Hsc; [done| | |].
    + destruct (pi_channel p) as [|r ch] eqn:Hch; [|done]. by destruct (pi_download p).
    + right. destruct (pi_download p) as [|r|] eqn:Hd; [done| |done].
      destruct (length (pi_channel p) <? LOOKAHEAD_BATCHES)%nat eqn:El; [done|].
      apply Nat.ltb_ge in El. split_and!; [lia|eauto|]. exists e. split; [done|]. intros ->.
      destruct Hs as [Hx _]. congruence.
    + left. destruct (pi_download p) eqn:Hd; [done..|]. split; eauto.
  - intros [[Hd [e Hsc]]|(Hl & [r Hd] & e & Hsc & _)] []; simpl; rewrite ?Hd, ?Hsc; try done.
    unfold send_turn. by rewrite Hsc, Hl.
Qed.
End PipelineInvariant.

(** C24. In every interleaving of the download task and the scan loop the
    channel never holds more than [LOOKAHEAD_BATCHES] results, requests stay
    between 100 and 2000 blocks, and the scanned batches are consecutive from
    the start of the range, none skipped and none scanned twice; when the
    scan loop ends normally they cover the whole range. *)
Theorem pipeline_covers_range {W C K} (lib : ScanLib W C K)
    (range_start range_end wallet_tip chain_tip : Z) (s : Store W C) (msg : option string)
    (p : Pipe W C K) :
  range_start <= range_end ->
  reachable lib range_start range_end wallet_tip chain_tip (pipe_start range_start s msg) p ->
  (length (pi_channel p) <= LOOKAHEAD_BATCHES)%nat
  /\ (forall h, 100 <= next_download_size (pi_controller p) h <= 2000)
  /\ (exists rest, contiguous range_start ((pi_scanned p).*1 ++ rest) (pi_current p))
  /\ (pi_scan p = ScWaiting RangeDone \/ pi_scan p = ScLeft RangeDone ->
        contiguous range_start (pi_scanned p).*1 range_end).
Proof.
  intros Hr [Hc Hl Hcur Hs]%pipe_reachable_inv. split_and!; [done| | |].
  - intros h. by apply next_download_size_bounds.
  - unfold scan_inv in Hs. destruct (pi_scan p) as [| |[]|[]]; try done.
    1,2: destruct Hs as (bs & ? & _ & ? & _); eauto.
    all: destruct Hs as (_ & _ & ?); exists []; by rewrite app_nil_r.
  - unfold scan_inv in Hs. intros [E|E]; rewrite E in Hs; destruct Hs as (_ & He & Hco).
    all: by replace range_end with (pi_current p) by lia.
Qed.

(** C25. Every run of the pipeline is finite, and it ends with both tasks
    over, or in a deadlock: the scan loop was left because of a failed scan, a
    failed tree state, a reorganisation or a cancellation, and waits for a
    download task that waits for the full channel.  A run in which the scan
    loop is not left early ends with both tasks over. *)
Theorem pipeline_ends_or_deadlocks {W C K} (lib : ScanLib W C K)
    (range_start range_end wallet_tip chain_tip : Z) (s : Store W C) (msg : option string)
    (acts : list (PipeAct K)) (p : Pipe W C K) :
  run lib range_start range_end wallet_tip chain_tip acts (pipe_start range_start s msg) = Some p ->
  Z.of_nat (length acts) <= 10 * Z.max 0 (range_end - range_start) + 7
  /\ (stuck lib range_start range_end wallet_tip chain_tip p <-> finished p \/ deadlocked p).
Proof.
  intros E. pose proof (pipe_start_inv (K := K) range_start range_end s msg) as Hinv.
  destruct (run_facts _ _ _ _ _ _ _ _ Hinv E) as [Hp Hm]. split; [|by apply stuck_iff].
  apply (pipe_measure_nonneg range_start range_end) in Hp.
  unfold pipe_measure in Hm at 2. simpl in Hm. lia.
Qed.

(** ** Concrete runs *)

Definition demo_lib (answer : ScanCall) : ScanLib nat unit unit :=
  mkScanLib nat unit unit (fun m => uint_to_string (bm_height m) +:+ "-compactblock")
    (fun b => uint_to_string (cb_height b)) (fun c _ => c) (fun c _ => c)
    (fun _ _ w _ _ limit => (answer, (w + limit)%nat)) (fun w _ => (None, w))
    (fun w => Some (mkWalletSummary (Z.of_nat w, 1000) None (Z.of_nat w))) (fun _ => tt).
Definition demo_env : ScanEnv unit :=
  mkScanEnv false true (fun _ => None) (TreeState tt) true (fun _ => false) 1000000000.
Definition demo_fetch : PipeAct unit :=
  DlFetch false (fun _ => RangeStream [demo_block 500] None).
Definition demo_store : Store nat unit := mkStore ∅ tt 0%nat.

(** Two batches of a range of 300 blocks, scanned to the end. *)
Definition demo_acts : list (PipeAct unit) :=
  [ScPrepare true (TreeState tt); demo_fetch; DlSend; ScRecv demo_env; demo_fetch; DlSend; demo_fetch;
   DlSend; ScRecv demo_env; ScRecv demo_env; ScJoin true].

Lemma pipeline_covers_range_witness :
  exists p, run (demo_lib (ScanOk 0 0 0 0)) 500 800 800 800 demo_acts
              (pipe_start 500 demo_store None) = Some p
    /\ contiguous 500 (pi_scanned p).*1 800.
Proof.
  destruct (run (demo_lib (ScanOk 0 0 0 0)) 500 800 800 800 demo_acts
              (pipe_start 500 demo_store None)) as [p|] eqn:E; [|by vm_compute in E].
  exists p. split; [done|].
  apply (pipeline_covers_range (demo_lib (ScanOk 0 0 0 0)) 500 800 800 800 demo_store None p).
  - lia.
  - by eapply pipe_run_reachable.
  - right. apply (f_equal (fmap pi_scan)) in E. vm_compute in E. by injection E.
Defined.

(** The first scan fails while the download task runs ahead. *)
Definition deadlock_acts : list (PipeAct unit) :=
  [ScPrepare true (TreeState tt); demo_fetch; DlSend; ScRecv demo_env; demo_fetch; DlSend; demo_fetch;
   DlSend; demo_fetch; DlSend; demo_fetch; DlSend; demo_fetch].

Lemma pipeline_ends_or_deadlocks_witness :
  exists p, run (demo_lib (ScanOk 0 0 0 0)) 500 800 800 800 demo_acts
              (pipe_start 500 demo_store None) = Some p
    /\ stuck (demo_lib (ScanOk 0 0 0 0)) 500 800 800 800 p /\ finished p.
Proof.
  destruct (run (demo_lib (ScanOk 0 0 0 0)) 500 800 800 800 demo_acts
              (pipe_start 500 demo_store None)) as [p|] eqn:E; [|by vm_compute in E].
  assert (finished p) as Hf.
  { apply (f_equal (fmap (fun p => (pi_download p, pi_scan p)))) in E. vm_compute in E.
    injection E as Ed Es. split; [done|]. by eexists. }
  exists p. split_and!; [done| |done].
  apply (pipeline_ends_or_deadlocks (demo_lib (ScanOk 0 0 0 0)) 500 800 800 800 demo_store None
           demo_acts p E). by left.
Defined.

(** The deadlock happens: on a long range, a scan that fails while the
    download task runs ahead leaves the pipeline in a state in which no task
    can move and which is not over.  The error message is set, but no
    progress record with the phase [Error] was reported and no retry is
    scheduled. *)
Theorem failed_scan_deadlocks :
  exists p,
    run (demo_lib (ScanFailed "database is locked")) 500 100000 100000 100000 deadlock_acts
      (pipe_start 500 demo_store None) = Some p
    /\ stuck (demo_lib (ScanFailed "database is locked")) 500 100000 100000 100000 p
    /\ (~ finished p)
    /\ pi_error_message p = Some "Failed to scan blocks: database is locked"
    /\ Forall (fun u => sp_phase u <> SyncPhase.Error) (pi_updates p).
Proof.
  destruct (run _ _ _ _ _ deadlock_acts _) as [p|] eqn:E; [|by vm_compute in E].
  exists p. assert (pipe_inv 500 100000 p) as Hinv.
  { eapply run_facts, E. apply pipe_start_inv. }
  apply (f_equal (fmap (fun p => (length (pi_channel p), pi_download p, pi_scan p,
    pi_error_message p, pi_updates p)))) in E. vm_compute in E. injection E as El Ed Es Em Eu.
  split_and!; [done| | |done|].
  - apply stuck_iff; [done|]. right. split_and!; [done|by eexists|by eexists].
  - intros [Hd _]. pose proof (eq_trans Ed Hd). done.
  - change (pi_updates p) with (match p with mkPipe _ _ _ _ _ _ _ u _ _ => u end).
    rewrite <- Eu. by repeat constructor.
Qed.
