(* ===== verification/SyncService.v ===== *)
(** The state of [SyncService] of [sync_service.rs]: the job table, the
    guard of blocking scans, the progress and its estimates ([with_eta]), the
    balance events and their throttle; and the world in which API calls, sync
    tasks and blocking scans interleave.

    Instants are nanoseconds; [f64] values are those of [Float64], with
    [f64::exp] as a parameter.  [JoinHandle::abort] drops a task at its next
    suspension point, so an aborted task may still take a step; it never
    stops a blocking scan, nor the download task that a sync has spawned: those
    are in Downloads.v.  The wallet manager's mutex is held around
    [start_sync], so starts do not overlap; [stop_sync] is called without it. *)
From S2P Require Import Prelude Text Domain Float64 SyncPipeline.
#[local] Open Scope list_scope.

(** ** State *)

Record SyncProgressEstimate := mkEstimate {
  es_start_height : option Z;
  es_start_instant : option Z;
  es_target_height : option Z;
  es_last_frontier_height : option Z;
  es_last_update_at : option Z;
  es_ewma_blocks_per_sec : option f64;
  es_last_percent : option Z;
  es_last_eta_seconds : option Z;
}.

Definition default_estimate : SyncProgressEstimate :=
  mkEstimate None None None None None None None None.

(** A sync job is known by its task: the sender of its cancellation channel
    and its [JoinHandle]. *)
Abbreviation SyncJob := nat (only parsing).

Record SyncState := mkSyncState {
  ss_jobs : gmap string SyncJob;
  ss_blocking_scans : gmap string nat;
  ss_progress : gmap string SyncProgress;
  ss_balances : gmap (string * Z) Balance;
  ss_started_at : gmap string Z;
  ss_progress_estimates : gmap string SyncProgressEstimate;
}.

Definition sync_new : SyncState := mkSyncState ∅ ∅ ∅ ∅ ∅ ∅.

Definition set_sync_jobs (f : gmap string SyncJob -> gmap string SyncJob) (s : SyncState) : SyncState :=
  mkSyncState (f (ss_jobs s)) (ss_blocking_scans s) (ss_progress s) (ss_balances s)
    (ss_started_at s) (ss_progress_estimates s).
Definition set_scans (f : gmap string nat -> gmap string nat) (s : SyncState) : SyncState :=
  mkSyncState (ss_jobs s) (f (ss_blocking_scans s)) (ss_progress s) (ss_balances s)
    (ss_started_at s) (ss_progress_estimates s).
Definition set_progress (f : gmap string SyncProgress -> gmap string SyncProgress) (s : SyncState)
    : SyncState :=
  mkSyncState (ss_jobs s) (ss_blocking_scans s) (f (ss_progress s)) (ss_balances s)
    (ss_started_at s) (ss_progress_estimates s).
Definition set_balances (f : gmap (string * Z) Balance -> gmap (string * Z) Balance) (s : SyncState)
    : SyncState :=
  mkSyncState (ss_jobs s) (ss_blocking_scans s) (ss_progress s) (f (ss_balances s))
    (ss_started_at s) (ss_progress_estimates s).
Definition set_started_at (f : gmap string Z -> gmap string Z) (s : SyncState) : SyncState :=
  mkSyncState (ss_jobs s) (ss_blocking_scans s) (ss_progress s) (ss_balances s)
    (f (ss_started_at s)) (ss_progress_estimates s).
Definition set_estimates
    (f : gmap string SyncProgressEstimate -> gmap string SyncProgressEstimate) (s : SyncState)
    : SyncState :=
  mkSyncState (ss_jobs s) (ss_blocking_scans s) (ss_progress s) (ss_balances s)
    (ss_started_at s) (f (ss_progress_estimates s)).

(** ** Blocking scans in flight *)

Definition scan_guard_acquire (wallet_id : string) : SyncState -> SyncState :=
  set_scans (fun m => <[wallet_id := S (default 0%nat (m !! wallet_id))]> m).

Definition scan_guard_drop (wallet_id : string) : SyncState -> SyncState :=
  set_scans (fun m =>
    match m !! wallet_id with
    | None => m
    | Some count =>
        let count := (count - 1)%nat in
        if (count =? 0)%nat then delete wallet_id m else <[wallet_id := count]> m
    end).

(** ** Progress estimates *)

Definition set_progress_percent (pct : Z) (p : SyncProgress) : SyncProgress :=
  mkSyncProgress (sp_phase p) (sp_scan_frontier_height p) (sp_wallet_tip_height p) pct
    (sp_eta_seconds p) (sp_retry_in_seconds p) (sp_error_message p).
Definition set_eta (eta : option Z) (p : SyncProgress) : SyncProgress :=
  mkSyncProgress (sp_phase p) (sp_scan_frontier_height p) (sp_wallet_tip_height p)
    (sp_progress_percent p) eta (sp_retry_in_seconds p) (sp_error_message p).

Definition duration_since (now t : Z) : Z := Z.max 0 (now - t).

(** The start of the session: the first frontier above 0. *)
Definition capture_start (now : Z) (p : SyncProgress) (e : SyncProgressEstimate)
    : SyncProgressEstimate :=
  match es_start_height e with
  | None =>
      if 0 <? sp_scan_frontier_height p then
        mkEstimate (Some (sp_scan_frontier_height p)) (Some now) (es_target_height e)
          (es_last_frontier_height e) (es_last_update_at e) (es_ewma_blocks_per_sec e)
          (es_last_percent e) (es_last_eta_seconds e)
      else e
  | Some _ => e
  end.

Definition track_target (p : SyncProgress) (e : SyncProgressEstimate) : SyncProgressEstimate :=
  if 0 <? sp_wallet_tip_height p then
    mkEstimate (es_start_height e) (es_start_instant e)
      (Some (Z.max (default 0 (es_target_height e)) (sp_wallet_tip_height p)))
      (es_last_frontier_height e) (es_last_update_at e) (es_ewma_blocks_per_sec e)
      (es_last_percent e) (es_last_eta_seconds e)
  else e.

Definition set_last_percent (pct : Z) (e : SyncProgressEstimate) : SyncProgressEstimate :=
  mkEstimate (es_start_height e) (es_start_instant e) (es_target_height e)
    (es_last_frontier_height e) (es_last_update_at e) (es_ewma_blocks_per_sec e)
    (Some pct) (es_last_eta_seconds e).
Definition set_last_eta (eta : option Z) (e : SyncProgressEstimate) : SyncProgressEstimate :=
  mkEstimate (es_start_height e) (es_start_instant e) (es_target_height e)
    (es_last_frontier_height e) (es_last_update_at e) (es_ewma_blocks_per_sec e)
    (es_last_percent e) eta.

(** The percentage of the heights of the session. *)
Definition height_percent (p : SyncProgress) (e : SyncProgressEstimate)
    : SyncProgress * SyncProgressEstimate :=
  match es_start_height e, es_target_height e with
  | Some start, Some target =>
      if (start <? target) && (start <=? sp_scan_frontier_height p) then
        let done := u32_saturating_sub (sp_scan_frontier_height p) start in
        let total := u32_saturating_sub target start in
        if total =? 0 then (p, e)
        else
          let pct := Z.min (clampZ 0 u64_max (done * 100) / total) 100 in
          let pct := if 100 <=? pct
                     then (if bool_decide (sp_phase p = SyncPhase.Idle) then 100 else 99)
                     else pct in
          let pct := match es_last_percent e with Some last => Z.max pct last | None => pct end in
          (set_progress_percent pct p, set_last_percent pct e)
      else (p, e)
  | _, _ => (p, e)
  end.

Section Estimates.
(** [f64::exp] of the platform. *)
Context (exp : f64 -> f64).

(** The exponentially weighted rate, over the time since the last update. *)
Definition update_ewma (now frontier last_height last_update_at : Z) (ewma : option f64)
    : option f64 :=
  let delta_h := u32_saturating_sub frontier last_height in
  let delta_t := as_secs_f64 (duration_since now last_update_at) in
  if f64_leb (f64_lit 1 20) delta_t then
    let inst_rate := f64_div (f64_of_Z delta_h) delta_t in
    let tau := f64_of_Z 20 in
    let alpha := f64_sub (f64_of_Z 1) (exp (f64_div (f64_neg delta_t) tau)) in
    Some (match ewma with
          | Some prev => f64_add prev (f64_mul alpha (f64_sub inst_rate prev))
          | None => inst_rate
          end)
  else ewma.

(** The average rate of the session. *)
Definition avg_rate (now frontier : Z) (e : SyncProgressEstimate) : option f64 :=
  match es_start_height e, es_start_instant e with
  | Some start_height, Some start_instant =>
      let done := f64_of_Z (u32_saturating_sub frontier start_height) in
      let elapsed := as_secs_f64 (duration_since now start_instant) in
      if f64_ltb (f64_of_Z 0) done && f64_ltb (f64_of_Z 0) elapsed
      then Some (f64_div done elapsed) else None
  | _, _ => None
  end.

Definition usable_rate (r : f64) : bool := f64_is_finite r && f64_ltb (f64_of_Z 0) r.

(** The rate behind the ETA: a blend of the two, or the one that is usable. *)
Definition eta_rate (ewma avg : option f64) : option f64 :=
  match ewma, avg with
  | Some ew, Some av =>
      if f64_is_finite ew && f64_is_finite av && f64_ltb (f64_of_Z 0) ew && f64_ltb (f64_of_Z 0) av
      then Some (f64_add (f64_mul (f64_lit 7 10) ew) (f64_mul (f64_lit 3 10) av))
      else if usable_rate ew then Some ew
      else if usable_rate av then Some av else None
  | Some ew, None => if usable_rate ew then Some ew else None
  | None, Some av => if usable_rate av then Some av else None
  | None, None => None
  end.

Definition MIN_DONE_BLOCKS : Z := 10000.
Definition MIN_ELAPSED_SECS : f64 := f64_of_Z 5.

Definition compute_eta (now frontier target : Z) (e : SyncProgressEstimate) (rate : option f64)
    : option Z :=
  r ← rate;
  start_height ← es_start_height e;
  start_instant ← es_start_instant e;
  let done := u32_saturating_sub frontier start_height in
  let elapsed := as_secs_f64 (duration_since now start_instant) in
  if (done <? MIN_DONE_BLOCKS) || f64_ltb elapsed MIN_ELAPSED_SECS then None
  else
    let eta := f64_round (f64_div (f64_of_Z (target - frontier)) r) in
    if f64_is_finite eta && f64_leb (f64_of_Z 0) eta then Some (f64_as_uint u64_max eta) else None.

(** How much the ETA may grow: 20% or 5 seconds per second, at least one. *)
Definition max_eta_increase (prev : Z) (delta_t : f64) : Z :=
  let a := f64_as_uint u64_max
             (f64_ceil (f64_mul (f64_mul (f64_of_Z prev) (f64_lit 1 5)) delta_t)) in
  let b := f64_as_uint u64_max (f64_ceil (f64_mul (f64_of_Z 5) delta_t)) in
  Z.max (Z.max a b) 1.

Definition clamp_eta (last computed : option Z) (delta_t : f64) : option Z :=
  match last, computed with
  | _, None => None
  | None, Some new_eta => Some new_eta
  | Some prev, Some new_eta =>
      Some (Z.min new_eta (u64_saturating_add prev (max_eta_increase prev delta_t)))
  end.

Definition set_frontier (now frontier : Z) (ewma : option f64) (e : SyncProgressEstimate)
    : SyncProgressEstimate :=
  mkEstimate (es_start_height e) (es_start_instant e) (es_target_height e) (Some frontier) (Some now)
    ewma (es_last_percent e) (es_last_eta_seconds e).

(** The estimator restarts at a frontier below the last one. *)
Definition restart_estimate (now frontier : Z) (e : SyncProgressEstimate) : SyncProgressEstimate :=
  mkEstimate (Some frontier) (Some now) (es_target_height e) (Some frontier) (Some now) None
    (es_last_percent e) None.

(** The elapsed time the ETA clamp uses, at least 0.05 seconds. *)
Definition clamp_delta (now : Z) (e : SyncProgressEstimate) : f64 :=
  f64_max (match es_last_update_at e with
           | Some t => as_secs_f64 (duration_since now t)
           | None => f64_of_Z 1
           end) (f64_lit 1 20).

(** The ETA once the frontier is recorded. *)
Definition finish_eta (now : Z) (delta_t_for_clamp : f64) (target : Z) (p : SyncProgress)
    (e : SyncProgressEstimate) : SyncProgress * SyncProgressEstimate :=
  let frontier := sp_scan_frontier_height p in
  let computed := compute_eta now frontier target e
                    (eta_rate (es_ewma_blocks_per_sec e) (avg_rate now frontier e)) in
  let eta := clamp_eta (es_last_eta_seconds e) computed delta_t_for_clamp in
  (set_eta eta p, set_last_eta eta e).

(** The estimates of the phases that move the frontier. *)
Definition estimate_eta (now : Z) (delta_t_for_clamp : f64) (p : SyncProgress)
    (e : SyncProgressEstimate) : SyncProgress * SyncProgressEstimate :=
  match es_target_height e with
  | None => (set_eta None p, e)
  | Some target =>
      let frontier := sp_scan_frontier_height p in
      if (target =? 0) || (frontier =? 0) || (target <=? frontier) then (set_eta None p, e)
      else
        match es_last_frontier_height e, es_last_update_at e with
        | Some last_height, Some last_update_at =>
            if frontier <? last_height then (set_eta None p, restart_estimate now frontier e)
            else
              finish_eta now delta_t_for_clamp target p
                (set_frontier now frontier
                   (update_ewma now frontier last_height last_update_at (es_ewma_blocks_per_sec e)) e)
        | _, _ =>
            finish_eta now delta_t_for_clamp target p
              (set_frontier now frontier (es_ewma_blocks_per_sec e) e)
        end
  end.

Definition caught_up (p : SyncProgress) : bool :=
  bool_decide (sp_phase p = SyncPhase.CatchingUp) && (0 <? sp_wallet_tip_height p)
  && (sp_wallet_tip_height p <=? sp_scan_frontier_height p).

Definition with_eta (now : Z) (wallet_id : string) (p : SyncProgress) (s : SyncState)
    : SyncProgress * SyncState :=
  match sp_phase p with
  | SyncPhase.Idle | SyncPhase.Offline | SyncPhase.Error =>
      (set_eta None p, set_estimates (delete wallet_id) s)
  | _ =>
      if caught_up p then
        (set_eta None (set_progress_percent 100 p), set_estimates (delete wallet_id) s)
      else
        match sp_phase p with
        | SyncPhase.Preparing | SyncPhase.Enhancing =>
            (set_eta None p, set_estimates (alter (set_last_eta None) wallet_id) s)
        | _ =>
            let e := default default_estimate (ss_progress_estimates s !! wallet_id) in
            let delta_t_for_clamp := clamp_delta now e in
            let e := track_target p (capture_start now p e) in
            let '(p, e) := height_percent p e in
            let '(p, e) := estimate_eta now delta_t_for_clamp p e in
            (p, set_estimates <[wallet_id := e]> s)
        end
  end.

Definition get_progress (now : Z) (wallet_id : string) (s : SyncState) : SyncProgress * SyncState :=
  let progress := default default_progress (ss_progress s !! wallet_id) in
  let '(progress, s) := with_eta now wallet_id progress s in
  (progress, set_progress <[wallet_id := progress]> s).

(** The closure [update] of the sync task: the progress that is stored and
    emitted. *)
Definition update_progress (now : Z) (wallet_id : string) (p : SyncProgress) (s : SyncState)
    : SyncProgress * SyncState :=
  let '(p, s) := with_eta now wallet_id p s in (p, set_progress <[wallet_id := p]> s).
End Estimates.

(** ** Balance events *)

Definition BALANCE_EMIT_MIN_INTERVAL : Z := 1500000000.
Definition BALANCE_EMIT_BLOCK_THRESHOLD : Z := 250.

Record BalanceEmitThrottle := mkThrottle {
  bt_last_emit_at : option Z;
  bt_scanned_blocks_since_emit : Z;
  bt_saw_successful_scan_batch : bool;
}.

Definition should_emit_after_successful_scan_batch (scanned_blocks now : Z) (t : BalanceEmitThrottle)
    : bool * BalanceEmitThrottle :=
  let since := u32_saturating_add (bt_scanned_blocks_since_emit t) scanned_blocks in
  if bt_saw_successful_scan_batch t then
    let time_gate :=
      match bt_last_emit_at t with
      | Some last => BALANCE_EMIT_MIN_INTERVAL <=? duration_since now last
      | None => true
      end in
    let block_gate := BALANCE_EMIT_BLOCK_THRESHOLD <=? since in
    (time_gate || block_gate, mkThrottle (bt_last_emit_at t) since true)
  else (true, mkThrottle (bt_last_emit_at t) since true).

Definition should_emit_and_update (trigger : BalanceEmitTrigger) (now : Z) (t : BalanceEmitThrottle)
    : bool * BalanceEmitThrottle :=
  match trigger with
  | BalanceEmitTrigger.ForcedMilestone => (true, t)
  | BalanceEmitTrigger.SuccessfulScanBatch n => should_emit_after_successful_scan_batch n now t
  end.

Definition record_emit (now : Z) (t : BalanceEmitThrottle) : BalanceEmitThrottle :=
  mkThrottle (Some now) 0 (bt_saw_successful_scan_batch t).

Definition start_new_auto_sync_iteration (t : BalanceEmitThrottle) : BalanceEmitThrottle :=
  mkThrottle (bt_last_emit_at t) 0 false.

#[global] Instance Balance_eq_dec : EqDecision Balance.
Proof. solve_decision. Defined.

Definition record_balance (wallet_id : string) (account_id : Z) (balance : Balance) (s : SyncState)
    : bool * SyncState :=
  if bool_decide (ss_balances s !! (wallet_id, account_id) = Some balance) then (false, s)
  else (true, set_balances <[(wallet_id, account_id) := balance]> s).

Fixpoint emit_balance_events (wallet_id : string) (balances : list (Z * Balance)) (s : SyncState)
    : list Event * SyncState :=
  match balances with
  | [] => ([], s)
  | (account_id, balance) :: balances' =>
      let '(changed, s) := record_balance wallet_id account_id balance s in
      let '(evs, s) := emit_balance_events wallet_id balances' s in
      (if changed then BalanceChangedEvent account_id balance :: evs else evs, s)
  end.

(** [BalanceEmitter::maybe_emit]: [db] tells whether the emitter holds an open
    connection; the environment says whether (re)opening works, what the
    balance worker returns ([None] when it fails), and the clock before and
    after. *)
Definition maybe_emit (handler : bool) (now later : Z) (open_ok : bool)
    (fetched : option (list (Z * Balance))) (reopen_ok : bool) (wallet_id : string)
    (trigger : BalanceEmitTrigger) (t : BalanceEmitThrottle) (db : bool) (s : SyncState)
    : list Event * BalanceEmitThrottle * bool * SyncState :=
  if negb handler then ([], t, db, s)
  else
    let '(emit, t) := should_emit_and_update trigger now t in
    if negb emit then ([], t, db, s)
    else if negb (db || open_ok) then ([], t, false, s)
    else
      match fetched with
      | Some balances =>
          let '(evs, s) := emit_balance_events wallet_id balances s in
          (evs, record_emit later t, true, s)
      | None => ([], t, reopen_ok, s)
      end.

(** ** The API *)

Section Api.
Context (exp : f64 -> f64).

Definition preparing : SyncProgress := plain_progress SyncPhase.Preparing 0 0 0.

Definition emit_progress (now : Z) (wallet_id : string) (handler : bool) (s : SyncState)
    : list Event * SyncState :=
  if handler then
    let '(progress, s) := get_progress exp now wallet_id s in ([SyncProgressEvent progress], s)
  else ([], s).

(** [start_sync] up to the resolution of the server. *)
Definition start_check (now : Z) (wallet_id : string) (handler : bool) (s : SyncState)
    : result (list Event) * SyncState :=
  if bool_decide (is_Some (ss_jobs s !! wallet_id))
     || bool_decide (is_Some (ss_blocking_scans s !! wallet_id))
  then (Err (ipc_err errors.SYNC_IN_PROGRESS "sync already in progress"), s)
  else
    let s := set_progress <[wallet_id := preparing]> (set_started_at <[wallet_id := now]> s) in
    let '(evs, s) := emit_progress now wallet_id handler s in (Ok evs, s).

(** The job that is cancelled and aborted, if any. *)
Definition stop_sync (now : Z) (wallet_id : string) (handler : bool) (s : SyncState)
    : option SyncJob * list Event * SyncState :=
  match ss_jobs s !! wallet_id with
  | None => (None, [], s)
  | Some job =>
      let s := set_sync_jobs (delete wallet_id) s in
      let s := set_progress <[wallet_id := default_progress]> s in
      let s := set_started_at (delete wallet_id) s in
      let s := set_estimates (delete wallet_id) s in
      let '(evs, s) := emit_progress now wallet_id handler s in
      (Some job, evs, s)
  end.

Definition running_wallet_ids (s : SyncState) : list string := (map_to_list (ss_jobs s)).*1.

(** The ways a sync task returns: cancelled while waiting for Tor, on an
    early failure, or after its loop. *)
Inductive TaskExitKind := ExitTor | ExitEarly | ExitLoop.

Definition task_cleanup (kind : TaskExitKind) (wallet_id : string) (s : SyncState) : SyncState :=
  let s := set_sync_jobs (delete wallet_id) s in
  match kind with
  | ExitTor => s
  | ExitEarly => set_started_at (delete wallet_id) s
  | ExitLoop => set_estimates (delete wallet_id) (set_started_at (delete wallet_id) s)
  end.

(** ** The world *)

Record SyncTask := mkTask {
  tk_wallet : string;
  tk_cancel : bool;      (* the value of the cancellation channel *)
  tk_aborted : bool;
  tk_running : bool;
  tk_scanning : bool;    (* a blocking scan of this task is in flight *)
}.

(** Where a [start_sync] call is after it spawned its task. *)
Inductive StartStage := Spawned | Observed (finished : bool) | Inserted.

Record SyncWorld := mkWorld {
  wo_state : SyncState;
  wo_tasks : gmap nat SyncTask;
  wo_next : nat;
  wo_starting : option (string * nat * StartStage);
  wo_events : list Event;
  wo_replies : list (result unit);
}.

Definition world0 : SyncWorld := mkWorld sync_new ∅ 0 None [] [].

Inductive WorldAct :=
| ApiStart (now : Z) (wallet_id : string) (handler : bool) (resolved : result string)
| ApiObserve
| ApiInsert
| ApiRemove
| ApiStop (now : Z) (wallet_id : string) (handler : bool)
| ApiProgress (now : Z) (wallet_id : string)
| TaskUpdate (t : nat) (now : Z) (p : SyncProgress)
| TaskScan (t : nat)
| ScanDone (t : nat)
| TaskExit (t : nat) (kind : TaskExitKind)
| TaskDrop (t : nat).

(** The step of [start_sync] until its task is spawned, and the rest of it. *)
Definition start_step (now : Z) (wallet_id : string) (handler : bool) (resolved : result string)
    (w : SyncWorld) : SyncWorld :=
  match start_check now wallet_id handler (wo_state w) with
  | (Err e, s) =>
      mkWorld s (wo_tasks w) (wo_next w) None (wo_events w) (wo_replies w ++ [Err e])
  | (Ok evs, s) =>
      match with_context "failed to resolve active lightwalletd endpoint" resolved with
      | Err e =>
          mkWorld s (wo_tasks w) (wo_next w) None (wo_events w ++ evs) (wo_replies w ++ [Err e])
      | Ok _ =>
          mkWorld s (<[wo_next w := mkTask wallet_id false false true false]> (wo_tasks w))
            (S (wo_next w)) (Some (wallet_id, wo_next w, Spawned)) (wo_events w ++ evs)
            (wo_replies w)
      end
  end.

Definition with_sync_state (f : SyncState -> SyncState) (w : SyncWorld) : SyncWorld :=
  mkWorld (f (wo_state w)) (wo_tasks w) (wo_next w) (wo_starting w) (wo_events w) (wo_replies w).
Definition with_task (t : nat) (f : SyncTask -> SyncTask) (w : SyncWorld) : SyncWorld :=
  mkWorld (wo_state w) (alter f t (wo_tasks w)) (wo_next w) (wo_starting w) (wo_events w)
    (wo_replies w).
Definition with_starting (st : option (string * nat * StartStage)) (w : SyncWorld) : SyncWorld :=
  mkWorld (wo_state w) (wo_tasks w) (wo_next w) st (wo_events w) (wo_replies w).
Definition reply (r : result unit) (w : SyncWorld) : SyncWorld :=
  mkWorld (wo_state w) (wo_tasks w) (wo_next w) (wo_starting w) (wo_events w) (wo_replies w ++ [r]).
Definition push_events (evs : list Event) (w : SyncWorld) : SyncWorld :=
  mkWorld (wo_state w) (wo_tasks w) (wo_next w) (wo_starting w) (wo_events w ++ evs) (wo_replies w).

Definition abort_task (tk : SyncTask) : SyncTask :=
  mkTask (tk_wallet tk) true true (tk_running tk) (tk_scanning tk).
Definition end_task (tk : SyncTask) : SyncTask :=
  mkTask (tk_wallet tk) (tk_cancel tk) (tk_aborted tk) false (tk_scanning tk).
Definition set_scanning (b : bool) (tk : SyncTask) : SyncTask :=
  mkTask (tk_wallet tk) (tk_cancel tk) (tk_aborted tk) (tk_running tk) b.

Definition stop_step (now : Z) (wallet_id : string) (handler : bool) (w : SyncWorld) : SyncWorld :=
  let '(job, evs, s) := stop_sync now wallet_id handler (wo_state w) in
  reply (Ok tt) (push_events evs
    (match job with Some t => with_task t abort_task | None => fun w => w end
       (with_sync_state (fun _ => s) w))).

(** A running task that is not waiting for its blocking scan. *)
Definition can_step (t : nat) (w : SyncWorld) : option SyncTask :=
  tk ← wo_tasks w !! t;
  if tk_running tk && negb (tk_scanning tk) then Some tk else None.

Definition world_act (a : WorldAct) (w : SyncWorld) : option SyncWorld :=
  match a with
  | ApiStart now wid handler resolved =>
      match wo_starting w with
      | None => Some (start_step now wid handler resolved w)
      | Some _ => None
      end
  | ApiObserve =>
      match wo_starting w with
      | Some (wid, t, Spawned) =>
          Some (with_starting
                  (Some (wid, t, Observed (match wo_tasks w !! t with
                                           | Some tk => negb (tk_running tk)
                                           | None => true
                                           end))) w)
      | _ => None
      end
  | ApiInsert =>
      match wo_starting w with
      | Some (wid, t, Observed finished) =>
          let w := with_sync_state (set_sync_jobs <[wid := t]>) w in
          Some (if finished then with_starting (Some (wid, t, Inserted)) w
                else reply (Ok tt) (with_starting None w))
      | _ => None
      end
  | ApiRemove =>
      match wo_starting w with
      | Some (wid, t, Inserted) =>
          Some (reply (Ok tt) (with_starting None (with_sync_state (set_sync_jobs (delete wid)) w)))
      | _ => None
      end
  | ApiStop now wid handler => Some (stop_step now wid handler w)
  | ApiProgress now wid =>
      Some (with_sync_state (fun s => (get_progress exp now wid s).2) w)
  | TaskUpdate t now p =>
      tk ← can_step t w;
      let '(p, s) := update_progress exp now (tk_wallet tk) p (wo_state w) in
      Some (push_events [SyncProgressEvent p] (with_sync_state (fun _ => s) w))
  | TaskScan t =>
      tk ← can_step t w;
      Some (with_task t (set_scanning true) (with_sync_state (scan_guard_acquire (tk_wallet tk)) w))
  | ScanDone t =>
      tk ← wo_tasks w !! t;
      if tk_scanning tk then
        Some (with_task t (set_scanning false) (with_sync_state (scan_guard_drop (tk_wallet tk)) w))
      else None
  | TaskExit t kind =>
      tk ← can_step t w;
      Some (with_task t end_task (with_sync_state (task_cleanup kind (tk_wallet tk)) w))
  | TaskDrop t =>
      tk ← wo_tasks w !! t;
      if tk_running tk && tk_aborted tk then Some (with_task t end_task w) else None
  end.

Fixpoint world_run (acts : list WorldAct) (w : SyncWorld) : option SyncWorld :=
  match acts with
  | [] => Some w
  | a :: acts' => world_act a w ≫= world_run acts'
  end.

(** The task of a step that the task itself takes is not aborted. *)
Definition prompt (a : WorldAct) (w : SyncWorld) : bool :=
  match a with
  | TaskUpdate t _ _ | TaskScan t | TaskExit t _ =>
      match wo_tasks w !! t with Some tk => negb (tk_aborted tk) | None => true end
  | _ => true
  end.

(** A run in which no task takes a step after it was aborted. *)
Fixpoint prompt_run (acts : list WorldAct) (w : SyncWorld) : bool :=
  match acts with
  | [] => true
  | a :: acts' =>
      prompt a w && match world_act a w with Some w' => prompt_run acts' w' | None => true end
  end.
End Api.

(** ** Progress only moves forward and the ETA grows slowly *)

Definition percent_ok (e : SyncProgressEstimate) : Prop :=
  forall l, es_last_percent e = Some l -> 0 <= l <= 99.

Definition estimates_ok (s : SyncState) : Prop :=
  forall wid e, ss_progress_estimates s !! wid = Some e -> percent_ok e.

Lemma height_percent_cases p e :
  percent_ok e -> sp_phase p <> SyncPhase.Idle ->
  height_percent p e = (p, e)
  \/ exists pct, height_percent p e = (set_progress_percent pct p, set_last_percent pct e)
       /\ 0 <= pct <= 99 /\ (forall l, es_last_percent e = Some l -> l <= pct).
Proof.
  intros Hok Hph. unfold height_percent.
  destruct (es_start_height e) as [start|]; [|by left].
  destruct (es_target_height e) as [target|]; [|by left].
  destruct (_ && _) eqn:Eg; [|by left]. breflect.
  destruct (u32_saturating_sub target start =? 0) eqn:Et; [by left|]. right. eexists. split; [done|].
  rewrite bool_decide_false by done. breflect.
  assert (0 <= clampZ 0 u64_max (u32_saturating_sub (sp_scan_frontier_height p) start * 100)
               / u32_saturating_sub target start) as Hd.
  { apply Z.div_pos; width_lia. }
  remember (clampZ 0 u64_max _ / _) as q eqn:Eq. clear Eq.
  split.
  - destruct (100 <=? Z.min q 100) eqn:E1; breflect;
      destruct (es_last_percent e) as [l|] eqn:E2; try specialize (Hok l E2); lia.
  - intros l ->. lia.
Qed.

Lemma estimate_eta_cases exp now d p e :
  exists eta e', estimate_eta exp now d p e = (set_eta eta p, e')
    /\ es_last_percent e' = es_last_percent e
    /\ (forall n, eta = Some n -> es_last_eta_seconds e' = Some n
          /\ forall m, es_last_eta_seconds e = Some m -> n <= u64_saturating_add m (max_eta_increase m d)).
Proof.
  assert (forall target e1, es_last_percent e1 = es_last_percent e ->
    es_last_eta_seconds e1 = es_last_eta_seconds e ->
    exists eta e', finish_eta now d target p e1 = (set_eta eta p, e')
      /\ es_last_percent e' = es_last_percent e
      /\ (forall n, eta = Some n -> es_last_eta_seconds e' = Some n
          /\ forall m, es_last_eta_seconds e = Some m ->
               n <= u64_saturating_add m (max_eta_increase m d))) as Hfin.
  { intros target e1 Hp He. unfold finish_eta. eexists _, _. split; [done|]. split; [done|].
    intros n Hn. split; [done|]. intros m Hm. rewrite He, Hm in Hn. simpl in Hn.
    destruct (compute_eta _ _ _ _ _); [|done]. injection Hn as <-. lia. }
  unfold estimate_eta. destruct (es_target_height e) as [target|];
    [|eexists _, _; split; [done|]; split; [done|]; done].
  destruct (_ || _); [eexists _, _; split; [done|]; split; [done|]; done|].
  destruct (es_last_frontier_height e) as [lh|]; [|by apply Hfin].
  destruct (es_last_update_at e) as [lu|]; [|by apply Hfin].
  destruct (_ <? lh); [eexists _, _; split; [done|]; split; [done|]; done|]. by apply Hfin.
Qed.

(** The estimates of a wallet that [with_eta] leaves, and its progress. *)
Definition eta_facts (now : Z) (wid : string) (p : SyncProgress) (s : SyncState)
    (out : SyncProgress * SyncState) : Prop :=
  let '(p', s') := out in
  estimates_ok s'
  /\ p' = set_eta (sp_eta_seconds p') (set_progress_percent (sp_progress_percent p') p)
  /\ (exists f, s' = set_estimates f s /\ forall m wid', wid' <> wid -> f m !! wid' = m !! wid')
  /\ (sp_progress_percent p' = sp_progress_percent p
      \/ sp_progress_percent p' = 100 /\ caught_up p = true
      \/ exists e', ss_progress_estimates s' !! wid = Some e'
                    /\ es_last_percent e' = Some (sp_progress_percent p'))
  /\ (forall e l, ss_progress_estimates s !! wid = Some e -> es_last_percent e = Some l ->
        ss_progress_estimates s' !! wid = None
        \/ exists e' l', ss_progress_estimates s' !! wid = Some e' /\ es_last_percent e' = Some l'
                         /\ l <= l' <= 99)
  /\ (forall n, sp_eta_seconds p' = Some n ->
        (exists e', ss_progress_estimates s' !! wid = Some e' /\ es_last_eta_seconds e' = Some n)
        /\ forall e m, ss_progress_estimates s !! wid = Some e -> es_last_eta_seconds e = Some m ->
             n <= u64_saturating_add m (max_eta_increase m (clamp_delta now e))).

Lemma eta_facts_reset now wid p s pct :
  estimates_ok s -> pct = sp_progress_percent p \/ pct = 100 /\ caught_up p = true ->
  eta_facts now wid p s
    (set_eta None (set_progress_percent pct p), set_estimates (delete wid) s).
Proof.
  intros Hok Hpct. split_and!; simpl; [|by destruct p| |naive_solver| |done].
  - intros wid' e. simpl. rewrite lookup_delete_Some. intros [_ H]. by eapply Hok.
  - eexists. split; [done|]. intros m wid' Hne. by rewrite lookup_delete_ne.
  - intros e l _ _. left. apply lookup_delete_eq.
Qed.

Lemma eta_facts_keep now wid p s :
  estimates_ok s ->
  eta_facts now wid p s (set_eta None p, set_estimates (alter (set_last_eta None) wid) s).
Proof.
  intros Hok. split_and!; simpl; [|by destruct p| |by left| |done].
  - intros wid' e. simpl. rewrite lookup_alter_Some. intros [(-> & e0 & H & ->)|[_ H]].
    + intros l Hl. by eapply (Hok _ _ H).
    + by eapply Hok.
  - eexists. split; [done|]. intros m wid' Hne. by rewrite lookup_alter_ne.
  - intros e l He Hl. right. exists (set_last_eta None e), l. rewrite lookup_alter_eq, He.
    split_and!; [done|done|lia|]. by eapply (Hok _ _ He).
Qed.

Lemma eta_facts_estimate exp now wid p s :
  estimates_ok s -> sp_phase p <> SyncPhase.Idle ->
  let e := default default_estimate (ss_progress_estimates s !! wid) in
  let pe := height_percent p (track_target p (capture_start now p e)) in
  let pe' := estimate_eta exp now (clamp_delta now e) pe.1 pe.2 in
  eta_facts now wid p s (pe'.1, set_estimates <[wid := pe'.2]> s).
Proof.
  intros Hok Hph e. cbv zeta.
  assert (percent_ok e) as Hpe.
  { unfold e. destruct (ss_progress_estimates s !! wid) eqn:E; simpl; [by eapply Hok|done]. }
  remember (track_target p (capture_start now p e)) as e1 eqn:Ee1.
  assert (es_last_percent e1 = es_last_percent e /\ es_last_eta_seconds e1 = es_last_eta_seconds e)
    as [Hl1 He1].
  { subst e1. unfold track_target, capture_start. by repeat case_match. }
  clear Ee1. assert (percent_ok e1) as Hp1 by (intros l; rewrite Hl1; apply Hpe).
  assert (exists pct e2, height_percent p e1 = (set_progress_percent pct p, e2)
    /\ es_last_eta_seconds e2 = es_last_eta_seconds e /\ percent_ok e2
    /\ (pct = sp_progress_percent p \/ es_last_percent e2 = Some pct)
    /\ forall l, es_last_percent e = Some l -> exists l', es_last_percent e2 = Some l' /\ l <= l' <= 99)
    as (pct & e2 & -> & He2 & Hp2 & Hpct & Hmono).
  { destruct (height_percent_cases p e1 Hp1 Hph) as [-> |(pct & -> & Hb & Hm)].
    - exists (sp_progress_percent p), e1. split_and!; [by destruct p|done|done|by left|].
      intros l Hl. exists l. rewrite Hl1. split; [done|]. specialize (Hpe l Hl). lia.
    - exists pct, (set_last_percent pct e1). split_and!; [done|done| |by right|].
      + intros l [= <-]. lia.
      + intros l Hl. exists pct. rewrite Hl1 in Hm. specialize (Hm l Hl). split; [done|lia]. }
  simpl. destruct (estimate_eta_cases exp now (clamp_delta now e) (set_progress_percent pct p) e2)
    as (eta & e3 & -> & Hl3 & Heta). simpl.
  assert (percent_ok e3) as Hp3 by (intros l; rewrite Hl3; apply Hp2).
  split_and!; simpl.
  - intros wid' e'. simpl. rewrite lookup_insert_Some. intros [[_ <-]|[_ H]]; [done|]. by eapply Hok.
  - by destruct p.
  - eexists. split; [done|]. intros m wid' Hne. by rewrite lookup_insert_ne.
  - destruct Hpct as [-> |Hpct]; [by left|]. right; right. exists e3. rewrite lookup_insert_eq.
    split; [done|congruence].
  - intros e' l He' Hl. right. unfold e in Hmono. rewrite He' in Hmono. simpl in Hmono.
    destruct (Hmono l Hl) as (l' & H1 & H2). exists e3, l'. rewrite lookup_insert_eq, Hl3. done.
  - intros n Hn. destruct (Heta n Hn) as [H1 H2]. split.
    + exists e3. by rewrite lookup_insert_eq.
    + intros e' m He' Hm. unfold e in *. rewrite He' in *. simpl in *. apply H2. congruence.
Qed.

(** A progress update keeps every estimate in range and touches only the
    estimates of its wallet, the percentage and the ETA.  The recorded
    percentage of a session never decreases and stays below 100, the shown
    one is the recorded one, the caller's, or 100 when the wallet has caught
    up; the ETA of a session never grows by more than [max_eta_increase]
    between two updates; an idle, offline, failed or caught-up wallet has no
    ETA and no estimates. *)
Theorem with_eta_estimates exp now wid p s :
  estimates_ok s ->
  eta_facts now wid p s (with_eta exp now wid p s)
  /\ (sp_phase p ∈ [SyncPhase.Idle; SyncPhase.Offline; SyncPhase.Error] \/ caught_up p = true ->
        sp_eta_seconds (with_eta exp now wid p s).1 = None
        /\ ss_progress_estimates (with_eta exp now wid p s).2 !! wid = None).
Proof.
  intros Hok. split.
  - unfold with_eta.
    pose proof (eta_facts_reset now wid p s (sp_progress_percent p) Hok ltac:(by left)) as Hreset.
    replace (set_progress_percent (sp_progress_percent p) p) with p in Hreset by by destruct p.
    pose proof (eta_facts_keep now wid p s Hok) as Hkeep.
    pose proof (eta_facts_estimate exp now wid p s Hok) as Hest. cbv zeta in Hest.
    destruct (caught_up p) eqn:Ec.
    { pose proof (eta_facts_reset now wid p s 100 Hok ltac:(by right)). by destruct (sp_phase p). }
    destruct (height_percent p _) as [p1 e1]. simpl in Hest.
    destruct (estimate_eta _ _ _ _ _) as [p2 e2]. simpl in Hest.
    destruct (sp_phase p) eqn:Eph; auto; apply Hest; done.
  - unfold with_eta. intros [Hph|Hc].
    + rewrite !elem_of_cons, elem_of_nil in Hph.
      destruct Hph as [-> |[-> |[-> |[]]]]; simpl; by rewrite lookup_delete_eq.
    + rewrite Hc. destruct (sp_phase p); simpl; by rewrite lookup_delete_eq.
Qed.

Definition demo_exp (x : f64) : f64 := f64_lit 9 10.
Definition demo_progress : SyncProgress := plain_progress SyncPhase.Scanning 100000 200000 1.
Definition demo_estimates : SyncState :=
  set_estimates
    (fun _ => {["w" := mkEstimate (Some 1000) (Some 0) (Some 200000) (Some 90000) (Some 9000000000)
                         (Some (f64_of_Z 5000)) (Some 44) (Some 3)]}) sync_new.

(** Ten seconds into a session: 49%, and the ETA of 3 seconds may only grow
    to 8. *)
Lemma with_eta_estimates_witness :
  eta_facts 10000000000 "w" demo_progress demo_estimates
    (with_eta demo_exp 10000000000 "w" demo_progress demo_estimates)
  /\ sp_progress_percent (with_eta demo_exp 10000000000 "w" demo_progress demo_estimates).1 = 49
  /\ sp_eta_seconds (with_eta demo_exp 10000000000 "w" demo_progress demo_estimates).1 = Some 8.
Proof.
  split; [|by vm_compute].
  apply (with_eta_estimates demo_exp 10000000000 "w" demo_progress demo_estimates).
  intros wid e He l Hl. simpl in He. apply lookup_singleton_Some in He as [_ <-].
  injection Hl as <-. lia.
Defined.

(** ** At most one scan per wallet *)

(** The tasks of a wallet with a blocking scan in flight. *)
Definition scanning_tasks (wid : string) (tasks : gmap nat SyncTask) : gmap nat SyncTask :=
  filter (fun kv : nat * SyncTask => tk_scanning kv.2 = true /\ tk_wallet kv.2 = wid) tasks.

Definition in_flight (wid : string) (w : SyncWorld) : nat := size (scanning_tasks wid (wo_tasks w)).

(** A task that runs and was not aborted. *)
Definition live_task (t : nat) (wid : string) (w : SyncWorld) : Prop :=
  exists tk, wo_tasks w !! t = Some tk /\ tk_running tk = true /\ tk_aborted tk = false
             /\ tk_wallet tk = wid.

(** The entry of [blocking_scans] for [n] scans. *)
Definition guard_entry (n : nat) : option nat := match n with O => None | S _ => Some n end.

Record world_inv (w : SyncWorld) : Prop := mkWorldInv {
  wi_scans : forall wid, ss_blocking_scans (wo_state w) !! wid = guard_entry (in_flight wid w);
  wi_next : forall t tk, wo_tasks w !! t = Some tk -> (t < wo_next w)%nat;
}.

Lemma scanning_tasks_insert wid t tk tasks :
  scanning_tasks wid (<[t := tk]> tasks)
  = if bool_decide (tk_scanning tk = true /\ tk_wallet tk = wid)
    then <[t := tk]> (scanning_tasks wid tasks) else delete t (scanning_tasks wid tasks).
Proof.
  unfold scanning_tasks. case_bool_decide.
  - by apply map_filter_insert_True.
  - rewrite map_filter_insert_False by done. apply map_filter_delete.
Qed.

Lemma lookup_scanning_tasks wid t tasks tk :
  scanning_tasks wid tasks !! t = Some tk
  <-> tasks !! t = Some tk /\ tk_scanning tk = true /\ tk_wallet tk = wid.
Proof. unfold scanning_tasks. apply map_lookup_filter_Some. Qed.

(** Changing a task that keeps its scan and its wallet keeps the count. *)
Lemma size_scanning_keep wid t tk tk' tasks :
  tasks !! t = Some tk -> tk_scanning tk' = tk_scanning tk -> tk_wallet tk' = tk_wallet tk ->
  size (scanning_tasks wid (<[t := tk']> tasks)) = size (scanning_tasks wid tasks).
Proof.
  intros Ht Hs Hw. rewrite scanning_tasks_insert, Hs, Hw. case_bool_decide as Hb.
  - apply map_size_insert_Some. exists tk. by apply lookup_scanning_tasks.
  - rewrite map_size_delete_None; [done|]. apply eq_None_not_Some. intros [tk0 H0].
    apply lookup_scanning_tasks in H0 as [H0 H1]. congruence.
Qed.

Lemma size_scanning_begin wid t tk tasks :
  tasks !! t = Some tk -> tk_scanning tk = false ->
  size (scanning_tasks wid (<[t := set_scanning true tk]> tasks))
  = (size (scanning_tasks wid tasks) + if bool_decide (tk_wallet tk = wid) then 1 else 0)%nat.
Proof.
  intros Ht Hs.
  assert (scanning_tasks wid tasks !! t = None) as Hn.
  { apply eq_None_not_Some. intros [tk0 H0]. apply lookup_scanning_tasks in H0 as [H0 H1].
    assert (tk0 = tk) as -> by congruence. destruct H1. congruence. }
  rewrite scanning_tasks_insert. simpl. repeat case_bool_decide; try (exfalso; naive_solver).
  - rewrite map_size_insert_None by done. lia.
  - rewrite map_size_delete_None by done. lia.
Qed.

Lemma size_scanning_end wid t tk tasks :
  tasks !! t = Some tk -> tk_scanning tk = true ->
  (size (scanning_tasks wid (<[t := set_scanning false tk]> tasks))
   + (if bool_decide (tk_wallet tk = wid) then 1 else 0))%nat = size (scanning_tasks wid tasks).
Proof.
  intros Ht Hs. rewrite scanning_tasks_insert.
  rewrite (bool_decide_false (tk_scanning (set_scanning false tk) = true /\ _)) by (by intros [? _]).
  case_bool_decide as Hw.
  - assert (scanning_tasks wid tasks !! t = Some tk) as Hl by by apply lookup_scanning_tasks.
    rewrite map_size_delete_Some by by eexists.
    assert (size (scanning_tasks wid tasks) <> 0%nat); [|lia].
    intros E. apply map_size_empty_inv in E. by rewrite E in Hl.
  - rewrite map_size_delete_None; [lia|]. apply eq_None_not_Some. intros [tk0 H0].
    apply lookup_scanning_tasks in H0 as (H0 & H1 & H2). congruence.
Qed.

(** A task with a scan in flight, or live. *)
Definition active (tk : SyncTask) : bool :=
  tk_scanning tk || (tk_running tk && negb (tk_aborted tk)).

Record excl_inv (w : SyncWorld) : Prop := mkExclInv {
  xi_unique : forall t t' tk tk',
    wo_tasks w !! t = Some tk -> wo_tasks w !! t' = Some tk' -> active tk = true ->
    active tk' = true -> tk_wallet tk = tk_wallet tk' -> t = t';
  xi_registered : forall t wid, live_task t wid w ->
    ss_jobs (wo_state w) !! wid = Some t \/ exists st, wo_starting w = Some (wid, t, st);
  xi_starting : forall wid t st, wo_starting w = Some (wid, t, st) ->
    (exists tk, wo_tasks w !! t = Some tk /\ tk_wallet tk = wid
                /\ (st = Observed true \/ st = Inserted -> tk_running tk = false))
    /\ (ss_jobs (wo_state w) !! wid = None
        \/ st = Inserted /\ ss_jobs (wo_state w) !! wid = Some t);
}.

(** How a step may change a task. *)
Definition task_le (tk tk' : SyncTask) : Prop :=
  tk_wallet tk' = tk_wallet tk /\ (active tk' = true -> active tk = true)
  /\ (tk_running tk' = true -> tk_running tk = true)
  /\ (tk_aborted tk = true -> tk_aborted tk' = true).

Definition tasks_le (tasks tasks' : gmap nat SyncTask) : Prop :=
  forall t, match tasks' !! t with
            | Some tk' => exists tk, tasks !! t = Some tk /\ task_le tk tk'
            | None => tasks !! t = None
            end.

Lemma tasks_le_refl tasks : tasks_le tasks tasks.
Proof. intros t. destruct (tasks !! t) as [tk|]; [|done]. by exists tk. Qed.

Lemma tasks_le_alter tasks t f :
  (forall tk, tasks !! t = Some tk -> task_le tk (f tk)) -> tasks_le tasks (alter f t tasks).
Proof.
  intros Hf t'. destruct (decide (t = t')) as [<-|Hne].
  - rewrite lookup_alter_eq. destruct (tasks !! t) as [tk|] eqn:E; [|done]. simpl.
    exists tk. auto.
  - rewrite lookup_alter_ne by done. apply tasks_le_refl.
Qed.

Lemma live_task_le w w' t wid :
  tasks_le (wo_tasks w) (wo_tasks w') -> live_task t wid w' -> live_task t wid w.
Proof.
  intros Hle (tk' & Ht & Hr & Ha & Hw). specialize (Hle t). rewrite Ht in Hle.
  destruct Hle as (tk & Htk & Hwk & _ & Hrun & Hab). exists tk. split_and!; [done|auto| |congruence].
  destruct (tk_aborted tk); [|done]. rewrite Hab in Ha; done.
Qed.

Lemma live_unique w t t' wid : excl_inv w -> live_task t wid w -> live_task t' wid w -> t = t'.
Proof.
  intros Hx (tk & Ht & Hr & Ha & Hw) (tk' & Ht' & Hr' & Ha' & Hw').
  apply (xi_unique _ Hx t t' tk tk'); unfold active; [done..| | |congruence].
  - rewrite Hr, Ha. apply orb_true_r.
  - rewrite Hr', Ha'. apply orb_true_r.
Qed.

(** A step that only shrinks the tasks and keeps the call in progress: the
    registered jobs may lose an entry that no live task needs. *)
Lemma excl_inv_shrink w w' :
  excl_inv w -> tasks_le (wo_tasks w) (wo_tasks w') -> wo_starting w' = wo_starting w ->
  (forall wid, ss_jobs (wo_state w') !! wid = ss_jobs (wo_state w) !! wid
     \/ ss_jobs (wo_state w') !! wid = None
        /\ forall t, ss_jobs (wo_state w) !! wid = Some t -> ~ live_task t wid w') ->
  excl_inv w'.
Proof.
  intros Hx Hle Hst Hjobs. constructor.
  - intros t t' tk tk' Ht Ht' Ha Ha' Hw. pose proof (Hle t) as H1. pose proof (Hle t') as H2.
    rewrite Ht in H1. rewrite Ht' in H2. destruct H1 as (tk1 & E1 & W1 & A1 & _).
    destruct H2 as (tk2 & E2 & W2 & A2 & _).
    apply (xi_unique _ Hx t t' tk1 tk2); [done..|auto|auto|congruence].
  - intros t wid Hl. rewrite Hst. pose proof (live_task_le _ _ _ _ Hle Hl) as Hl0.
    destruct (xi_registered _ Hx _ _ Hl0) as [Hj|Hj]; [|by right]. left.
    destruct (Hjobs wid) as [-> |[_ Hn]]; [done|]. by destruct (Hn t Hj).
  - intros wid t st Hs. rewrite Hst in Hs. destruct (xi_starting _ Hx _ _ _ Hs) as [(tk & Ht & Hw & Hr) Hj].
    split.
    + specialize (Hle t). destruct (wo_tasks w' !! t) as [tk'|]; [|congruence].
      destruct Hle as (tk0 & E0 & W0 & _ & R0 & _). assert (tk0 = tk) as -> by congruence.
      exists tk'. split_and!; [done|congruence|]. intros H. specialize (Hr H).
      destruct (tk_running tk'); [|done]. rewrite R0 in Hr; done.
    + destruct (Hjobs wid) as [-> |[H _]]; [done|by left].
Qed.

(** Progress updates leave the jobs and the scans alone. *)
Lemma with_eta_frame exp now wid p s :
  exists f, (with_eta exp now wid p s).2 = set_estimates f s.
Proof.
  unfold with_eta. destruct (caught_up p).
  { destruct (sp_phase p); by eexists. }
  destruct (height_percent _ _) as [p1 e1], (estimate_eta _ _ _ _ _) as [p2 e2].
  destruct (sp_phase p); by eexists.
Qed.

Lemma update_progress_frame exp now wid p s :
  ss_jobs (update_progress exp now wid p s).2 = ss_jobs s
  /\ ss_blocking_scans (update_progress exp now wid p s).2 = ss_blocking_scans s.
Proof.
  unfold update_progress. destruct (with_eta_frame exp now wid p s) as [f Hf].
  destruct (with_eta _ _ _ _ _) as [p' s']. simpl in *. by rewrite Hf.
Qed.

Lemma get_progress_frame exp now wid s :
  ss_jobs (get_progress exp now wid s).2 = ss_jobs s
  /\ ss_blocking_scans (get_progress exp now wid s).2 = ss_blocking_scans s.
Proof. apply update_progress_frame. Qed.

Lemma emit_progress_frame exp now wid h s :
  ss_jobs (emit_progress exp now wid h s).2 = ss_jobs s
  /\ ss_blocking_scans (emit_progress exp now wid h s).2 = ss_blocking_scans s.
Proof.
  unfold emit_progress. destruct h; [|done]. pose proof (get_progress_frame exp now wid s) as H.
  by destruct (get_progress _ _ _ _).
Qed.

Section Exclusion.
Context (exp : f64 -> f64).

Lemma world_inv_frame w w' :
  world_inv w -> ss_blocking_scans (wo_state w') = ss_blocking_scans (wo_state w) ->
  (wo_next w <= wo_next w')%nat ->
  (forall t tk, wo_tasks w' !! t = Some tk -> (t < wo_next w')%nat) ->
  (forall wid, in_flight wid w' = in_flight wid w) -> world_inv w'.
Proof using Type.
  intros [Hs Hn] Es Hle Hn' Hf. constructor; [|done]. intros wid. by rewrite Es, Hf.
Qed.

(** A change of one task that leaves its scan alone. *)
Lemma world_inv_task w s t f :
  world_inv w -> ss_blocking_scans s = ss_blocking_scans (wo_state w) ->
  (forall tk, tk_scanning (f tk) = tk_scanning tk /\ tk_wallet (f tk) = tk_wallet tk) ->
  forall st evs rs, world_inv (mkWorld s (alter f t (wo_tasks w)) (wo_next w) st evs rs).
Proof using Type.
  intros Hinv Es Hf st evs rs. apply (world_inv_frame w); [done|done|done| |]; simpl.
  - intros t' tk. rewrite lookup_alter_Some.
    intros [(-> & tk0 & H0 & _)|[_ H0]]; by eapply (wi_next _ Hinv).
  - intros wid. unfold in_flight. simpl. destruct (wo_tasks w !! t) as [tk|] eqn:Et.
    + rewrite (alter_lookup_Some _ _ _ _ Et). destruct (Hf tk).
      by apply (size_scanning_keep _ _ tk).
    + by rewrite alter_id by (intros; congruence).
Qed.

Lemma world_inv_quiet w s :
  world_inv w -> ss_blocking_scans s = ss_blocking_scans (wo_state w) ->
  forall st evs rs, world_inv (mkWorld s (wo_tasks w) (wo_next w) st evs rs).
Proof using Type.
  intros Hinv Es st evs rs. apply (world_inv_frame w); [done|done|done| |done].
  apply (wi_next _ Hinv).
Qed.

Lemma start_check_cases now wid h s :
  ((start_check exp now wid h s).1 = Err (ipc_err errors.SYNC_IN_PROGRESS "sync already in progress")
    /\ (start_check exp now wid h s).2 = s
    /\ (is_Some (ss_jobs s !! wid) \/ is_Some (ss_blocking_scans s !! wid)))
  \/ (exists evs, (start_check exp now wid h s).1 = Ok evs
        /\ ss_jobs (start_check exp now wid h s).2 = ss_jobs s
        /\ ss_blocking_scans (start_check exp now wid h s).2 = ss_blocking_scans s
        /\ ss_jobs s !! wid = None /\ ss_blocking_scans s !! wid = None).
Proof using Type.
  unfold start_check. destruct (_ || _) eqn:E.
  - left. apply orb_true_iff in E. split_and!; [done..|]. destruct E; breflect; auto.
  - right. breflect.
    pose proof (emit_progress_frame exp now wid h
      (set_progress <[wid:=preparing]> (set_started_at <[wid:=now]> s))) as [H1 H2].
    destruct (emit_progress _ _ _ _ _) as [evs s']. simpl in *. exists evs.
    split_and!; [done|done|done|by apply eq_None_not_Some..].
Qed.

Lemma start_step_inv now wid h resolved w :
  world_inv w -> world_inv (start_step exp now wid h resolved w).
Proof using Type.
  intros Hinv. unfold start_step.
  destruct (start_check_cases now wid h (wo_state w)) as [(E1 & E2 & _)|(evs & E1 & E2 & E3 & _)];
    destruct (start_check _ _ _ _ _) as [r s]; simpl in *; subst r.
  - apply world_inv_quiet; congruence.
  - destruct resolved as [url|e]; simpl; [|by apply world_inv_quiet].
    assert (wo_tasks w !! wo_next w = None) as Hnone.
    { apply eq_None_not_Some. intros [tk Ht]. apply (wi_next _ Hinv) in Ht. lia. }
    apply (world_inv_frame w); simpl; [done|done|lia| |].
    + intros t tk. rewrite lookup_insert_Some. intros [[<- _]|[_ Ht]]; [lia|].
      apply (wi_next _ Hinv) in Ht. lia.
    + intros wid'. unfold in_flight; simpl. rewrite scanning_tasks_insert.
      rewrite bool_decide_false by (by intros [? _]). rewrite delete_id; [done|].
      apply eq_None_not_Some. intros [tk Ht]. apply lookup_scanning_tasks in Ht as [Ht _]. congruence.
Qed.

Lemma stop_sync_cases now wid h s :
  let out := stop_sync exp now wid h s in
  out.1.1 = ss_jobs s !! wid /\ ss_jobs out.2 = delete wid (ss_jobs s)
  /\ ss_blocking_scans out.2 = ss_blocking_scans s.
Proof using Type.
  cbv zeta. unfold stop_sync. destruct (ss_jobs s !! wid) as [t|] eqn:E.
  - pose proof (emit_progress_frame exp now wid h (set_estimates (delete wid)
      (set_started_at (delete wid) (set_progress <[wid:=default_progress]> (set_sync_jobs (delete wid) s)))))
      as [H1 H2].
    destruct (emit_progress _ _ _ _ _) as [evs s']. simpl in *. split_and!; congruence.
  - simpl. split_and!; [done|by rewrite delete_id|done].
Qed.

Lemma scan_begin_inv t tk w :
  world_inv w -> wo_tasks w !! t = Some tk -> tk_scanning tk = false ->
  world_inv (with_task t (set_scanning true) (with_sync_state (scan_guard_acquire (tk_wallet tk)) w)).
Proof using Type.
  intros [Hs Hn] Ht Hf. constructor; simpl.
  - intros wid. unfold in_flight; simpl. rewrite (alter_lookup_Some _ _ _ _ Ht).
    rewrite size_scanning_begin by done. case_bool_decide as Hw.
    + subst wid. rewrite lookup_insert_eq, Hs. unfold in_flight.
      replace (_ + 1)%nat with (S (size (scanning_tasks (tk_wallet tk) (wo_tasks w)))) by lia.
      by destruct (size _).
    + rewrite lookup_insert_ne by done. rewrite Nat.add_0_r. apply Hs.
  - intros t' tk'. rewrite lookup_alter_Some. intros [(-> & tk0 & H0 & _)|[_ H0]]; by eapply Hn.
Qed.

Lemma scan_end_inv t tk w :
  world_inv w -> wo_tasks w !! t = Some tk -> tk_scanning tk = true ->
  world_inv (with_task t (set_scanning false) (with_sync_state (scan_guard_drop (tk_wallet tk)) w)).
Proof using Type.
  intros [Hs Hn] Ht Hf. constructor; simpl.
  - intros wid. unfold in_flight; simpl. rewrite (alter_lookup_Some _ _ _ _ Ht).
    pose proof (size_scanning_end wid t tk (wo_tasks w) Ht Hf) as Hsz.
    rewrite (Hs (tk_wallet tk)). unfold in_flight. case_bool_decide as Hw.
    + subst wid. remember (size (scanning_tasks (tk_wallet tk) (wo_tasks w))) as n eqn:En.
      destruct n as [|n]; [lia|]. simpl. rewrite Nat.sub_0_r.
      replace (size _) with n by lia. destruct n as [|n]; simpl; [by rewrite lookup_delete_eq|].
      by rewrite lookup_insert_eq.
    + replace (size (scanning_tasks wid (<[t:=set_scanning false tk]> (wo_tasks w))))
        with (in_flight wid w) by (unfold in_flight; lia).
      rewrite <- Hs.
      destruct (size (scanning_tasks (tk_wallet tk) (wo_tasks w))) as [|n]; [done|]. simpl.
      rewrite Nat.sub_0_r.
      case_match; [by rewrite lookup_delete_ne|by rewrite lookup_insert_ne].
  - intros t' tk'. rewrite lookup_alter_Some. intros [(-> & tk0 & H0 & _)|[_ H0]]; by eapply Hn.
Qed.

Lemma task_cleanup_frame kind wid s :
  ss_jobs (task_cleanup kind wid s) = delete wid (ss_jobs s)
  /\ ss_blocking_scans (task_cleanup kind wid s) = ss_blocking_scans s.
Proof using Type. by destruct kind. Qed.

Lemma can_step_Some t w tk :
  can_step t w = Some tk ->
  wo_tasks w !! t = Some tk /\ tk_running tk = true /\ tk_scanning tk = false.
Proof using Type.
  unfold can_step. intros (tk' & Ht & E)%bind_Some. destruct (_ && _) eqn:Eb; [|done].
  injection E as ->. breflect. done.
Qed.

Lemma world_act_inv a w w' : world_inv w -> world_act exp a w = Some w' -> world_inv w'.
Proof using Type.
  intros Hinv E. destruct a as [now wid h resolved| | | |now wid h|now wid|t now p|t|t|t kind|t];
    simpl in E.
  - destruct (wo_starting w); [done|]. injection E as <-. by apply start_step_inv.
  - destruct (wo_starting w) as [[[wid t] [| |]]|]; simplify_eq. by apply world_inv_quiet.
  - destruct (wo_starting w) as [[[wid t] [|finished|]]|]; try done. injection E as <-.
    destruct finished; by apply (world_inv_quiet w (set_sync_jobs <[wid:=t]> (wo_state w))).
  - destruct (wo_starting w) as [[[wid t] [| |]]|]; try done. injection E as <-.
    by apply (world_inv_quiet w (set_sync_jobs (delete wid) (wo_state w))).
  - injection E as <-. unfold stop_step.
    destruct (stop_sync_cases now wid h (wo_state w)) as (_ & _ & H).
    destruct (stop_sync _ _ _ _ _) as [[[t|] evs] s]; simpl in H.
    + apply (world_inv_task w s t); [done|done|]. by intros [].
    + by apply (world_inv_quiet w s).
  - injection E as <-. apply world_inv_quiet; [done|]. apply get_progress_frame.
  - apply bind_Some in E as (tk & [Ht _]%can_step_Some & E).
    pose proof (update_progress_frame exp now (tk_wallet tk) p (wo_state w)) as [_ H].
    destruct (update_progress _ _ _ _ _) as [p' s]. injection E as <-. by apply (world_inv_quiet w s).
  - apply bind_Some in E as (tk & (Ht & _ & Hs)%can_step_Some & E). injection E as <-.
    by apply scan_begin_inv.
  - apply bind_Some in E as (tk & Ht & E). destruct (tk_scanning tk) eqn:Hs; simplify_eq.
    by apply scan_end_inv.
  - apply bind_Some in E as (tk & (Ht & _)%can_step_Some & E). injection E as <-.
    apply (world_inv_task w); [done|apply task_cleanup_frame|by intros []].
  - apply bind_Some in E as (tk & Ht & E). destruct (_ && _); simplify_eq.
    apply (world_inv_task w); [done|done|by intros []].
Qed.

(** The exclusion is kept by a start: nothing of the wallet is active. *)
Lemma start_step_excl now wid h resolved w :
  world_inv w -> excl_inv w -> wo_starting w = None ->
  excl_inv (start_step exp now wid h resolved w).
Proof using Type.
  intros Hinv Hx Hst. unfold start_step.
  assert (forall s evs rs, ss_jobs s = ss_jobs (wo_state w) ->
    excl_inv (mkWorld s (wo_tasks w) (wo_next w) None evs rs)) as Hsame.
  { intros s evs rs Hj. apply (excl_inv_shrink w); [done|apply tasks_le_refl|done|].
    intros wid'. left. simpl. by rewrite Hj. }
  destruct (start_check_cases now wid h (wo_state w))
    as [(E1 & E2 & _)|(evs & E1 & E2 & E3 & Hj & Hs)];
    destruct (start_check _ _ _ _ _) as [r s]; simpl in *; subst r; [apply Hsame; congruence|].
  destruct resolved as [url|e]; simpl; [|by apply Hsame]. clear Hsame.
  assert (forall t tk, wo_tasks w !! t = Some tk -> tk_wallet tk = wid -> active tk = false) as Hno.
  { intros t tk Ht Hw. unfold active. apply orb_false_iff. split.
    - destruct (tk_scanning tk) eqn:E; [|done].
      assert (scanning_tasks wid (wo_tasks w) !! t = Some tk) as Hl
        by by apply lookup_scanning_tasks.
      rewrite (wi_scans _ Hinv) in Hs. unfold in_flight in Hs. destruct (size _) eqn:Ez; [|done].
      apply map_size_empty_inv in Ez. by rewrite Ez in Hl.
    - destruct (tk_running tk) eqn:Er, (tk_aborted tk) eqn:Ea; try done. exfalso.
      destruct (xi_registered _ Hx t wid) as [H|[st H]]; [by exists tk|congruence..]. }
  constructor; simpl.
  - intros t t' tk tk' Ht Ht' Ha Ha' Hw. rewrite lookup_insert_Some in Ht, Ht'.
    destruct Ht as [[<- <-]|[_ Ht]], Ht' as [[<- <-]|[_ Ht']]; simpl in *; [done| | |].
    + rewrite (Hno t' tk') in Ha'; done.
    + rewrite (Hno t tk) in Ha; done.
    + by eapply (xi_unique _ Hx).
  - intros t wid' (tk & Ht & Hr & Ha & Hw). simpl in Ht. rewrite lookup_insert_Some in Ht.
    destruct Ht as [[<- <-]|[_ Ht]]; [right; simpl in Hw; subst; eauto|]. left. rewrite E2.
    destruct (xi_registered _ Hx t wid') as [H|[st H]]; [by exists tk|done|congruence].
  - intros wid' t st [= <- <- <-]. split; [|left; congruence].
    eexists. rewrite lookup_insert_eq. split_and!; [done|done|by intros []].
Qed.

Lemma insert_excl wid t finished w w' :
  excl_inv w -> wo_starting w = Some (wid, t, Observed finished) ->
  world_act exp ApiInsert w = Some w' -> excl_inv w'.
Proof using Type.
  intros Hx Hst E. simpl in E. rewrite Hst in E. injection E as <-.
  destruct (xi_starting _ Hx _ _ _ Hst) as [(tk & Ht & Hw & Hr) Hj].
  destruct Hj as [Hj|[? _]]; [|done].
  assert (forall s st evs rs, ss_jobs s = <[wid:=t]> (ss_jobs (wo_state w)) ->
    st = None \/ finished = true /\ st = Some (wid, t, Inserted) ->
    excl_inv (mkWorld s (wo_tasks w) (wo_next w) st evs rs)) as Hgen.
  { intros s st evs rs Hs Hs'. constructor; simpl; [apply (xi_unique _ Hx)| |].
    - intros t0 wid0 Hl. change (live_task t0 wid0 w) in Hl. left. rewrite Hs.
      destruct (xi_registered _ Hx t0 wid0 Hl) as [H|[st0 H]].
      + rewrite lookup_insert_ne; [done|]. intros <-. congruence.
      + rewrite Hst in H. injection H as <- <- _. apply lookup_insert_eq.
    - intros wid0 t0 st0 ->. destruct Hs' as [?|[Hf [= <- <- <-]]]; [done|]. subst finished. split.
      + exists tk. split_and!; [done|done|]. intros _. apply Hr. by left.
      + right. split; [done|]. rewrite Hs. apply lookup_insert_eq. }
  destruct finished; apply Hgen; auto.
Qed.

Lemma remove_excl wid t w w' :
  excl_inv w -> wo_starting w = Some (wid, t, Inserted) ->
  world_act exp ApiRemove w = Some w' -> excl_inv w'.
Proof using Type.
  intros Hx Hst E. simpl in E. rewrite Hst in E. injection E as <-.
  destruct (xi_starting _ Hx _ _ _ Hst) as [(tk & Ht & Hw & Hr) Hj].
  specialize (Hr ltac:(by right)).
  assert (forall wid0, ~ live_task t wid0 w) as Hdead.
  { intros wid0 (tk0 & H1 & H2 & _). congruence. }
  constructor; simpl; [apply (xi_unique _ Hx)| |done].
  intros t0 wid0 Hl. change (live_task t0 wid0 w) in Hl. left.
  destruct (xi_registered _ Hx t0 wid0 Hl) as [H|[st0 H]].
  - rewrite lookup_delete_ne; [done|]. intros <-. destruct Hj as [Hj|[_ Hj]]; [congruence|].
    rewrite Hj in H. injection H as <-. by destruct (Hdead wid).
  - rewrite Hst in H. injection H as <- <- _. by destruct (Hdead wid).
Qed.

(** Steps that change no job and only shrink the tasks. *)
Lemma excl_inv_tasks w w' :
  excl_inv w -> tasks_le (wo_tasks w) (wo_tasks w') -> wo_starting w' = wo_starting w ->
  ss_jobs (wo_state w') = ss_jobs (wo_state w) -> excl_inv w'.
Proof using Type.
  intros Hx Hle Hst Hj. apply (excl_inv_shrink w); [done..|]. intros wid. left. by rewrite Hj.
Qed.

Lemma task_le_abort tk : task_le tk (abort_task tk).
Proof using Type.
  unfold task_le, active. destruct tk as [wid c a r sc]; simpl. destruct sc, r; simpl; split_and!; auto.
  all: by destruct a.
Qed.

Lemma task_le_end tk : task_le tk (end_task tk).
Proof using Type.
  unfold task_le, active. destruct tk as [wid c a r sc]; simpl. destruct sc; simpl; split_and!; auto;
    done.
Qed.

Lemma stop_excl now wid h w : excl_inv w -> excl_inv (stop_step exp now wid h w).
Proof using Type.
  intros Hx. unfold stop_step. destruct (stop_sync_cases now wid h (wo_state w)) as (E1 & E2 & _).
  destruct (stop_sync _ _ _ _ _) as [[job evs] s]. simpl in *. subst job.
  destruct (ss_jobs (wo_state w) !! wid) as [t|] eqn:Ej.
  - apply (excl_inv_shrink w); simpl; [done| |done|].
    + apply tasks_le_alter. intros. apply task_le_abort.
    + intros wid'. rewrite E2. destruct (decide (wid = wid')) as [<-|Hne].
      * right. split; [apply lookup_delete_eq|]. intros t' Ht' (tk & Htk & _ & Ha & _).
        assert (t' = t) as -> by congruence. simpl in Htk.
        rewrite lookup_alter_eq in Htk. destruct (wo_tasks w !! t); [|done].
        injection Htk as <-. done.
      * left. by rewrite lookup_delete_ne.
  - apply (excl_inv_tasks w); simpl; [done|apply tasks_le_refl|done|]. by rewrite E2, delete_id.
Qed.

Lemma exit_excl t kind tk w :
  excl_inv w -> wo_tasks w !! t = Some tk -> tk_running tk = true -> tk_aborted tk = false ->
  excl_inv (with_task t end_task (with_sync_state (task_cleanup kind (tk_wallet tk)) w)).
Proof using Type.
  intros Hx Ht Hr Ha.
  assert (tasks_le (wo_tasks w) (alter end_task t (wo_tasks w))) as Hle
    by (apply tasks_le_alter; intros; apply task_le_end).
  apply (excl_inv_shrink w); simpl; [done|done|done|].
  intros wid. destruct (task_cleanup_frame kind (tk_wallet tk) (wo_state w)) as [-> _].
  destruct (decide (tk_wallet tk = wid)) as [<-|Hne]; [right|left; by rewrite lookup_delete_ne].
  split; [apply lookup_delete_eq|]. intros t' _ Hl.
  assert (t' = t) as ->.
  { apply (live_unique w t' t (tk_wallet tk)); [done|by eapply live_task_le in Hl|by exists tk]. }
  destruct Hl as (tk' & Htk & Hr' & _). simpl in Htk. rewrite lookup_alter_eq, Ht in Htk.
  injection Htk as <-. done.
Qed.

Lemma world_act_excl a w w' :
  world_inv w -> excl_inv w -> prompt a w = true -> world_act exp a w = Some w' -> excl_inv w'.
Proof using Type.
  intros Hinv Hx Hp E. destruct a as [now wid h resolved| | | |now wid h|now wid|t now p|t|t|t kind|t];
    simpl in E, Hp.
  - destruct (wo_starting w) eqn:Hst; [done|]. injection E as <-. by apply start_step_excl.
  - destruct (wo_starting w) as [[[wid t] [| |]]|] eqn:Hst; try done. injection E as <-.
    destruct (xi_starting _ Hx _ _ _ Hst) as [(tk & Ht & Hw & _) Hj]. rewrite Ht.
    constructor; simpl; [apply (xi_unique _ Hx)| |].
    + intros t0 wid0 Hl. change (live_task t0 wid0 w) in Hl.
      destruct (xi_registered _ Hx _ _ Hl) as [H|[st H]]; [by left|right]. rewrite Hst in H.
      injection H as <- <- _. eauto.
    + intros wid0 t0 st0 [= <- <- <-]. split; [|destruct Hj as [Hj|[? _]]; [by left|done]].
      exists tk. split_and!; [done|done|]. intros [[= H]|H]; [|done]. by destruct (tk_running tk).
  - destruct (wo_starting w) as [[[wid t] [|f|]]|] eqn:Hst; try done.
    apply (insert_excl wid t f w w' Hx Hst). simpl. by rewrite Hst.
  - destruct (wo_starting w) as [[[wid t] [|f|]]|] eqn:Hst; try done.
    apply (remove_excl wid t w w' Hx Hst). simpl. by rewrite Hst.
  - injection E as <-. by apply stop_excl.
  - injection E as <-. apply (excl_inv_tasks w); [done|apply tasks_le_refl|done|].
    apply get_progress_frame.
  - apply bind_Some in E as (tk & _ & E).
    pose proof (update_progress_frame exp now (tk_wallet tk) p (wo_state w)) as [H _].
    destruct (update_progress _ _ _ _ _) as [p' s]. injection E as <-.
    apply (excl_inv_tasks w); [done|apply tasks_le_refl|done|done].
  - apply bind_Some in E as (tk & (Ht & Hr & Hs)%can_step_Some & E). injection E as <-.
    rewrite Ht in Hp. apply negb_true_iff in Hp.
    apply (excl_inv_tasks w); [done| |done|done]. apply tasks_le_alter. intros tk0 Ht0.
    simpl in Ht0. assert (tk0 = tk) as -> by congruence. unfold task_le, active. simpl.
    rewrite Hs, Hr, Hp. done.
  - apply bind_Some in E as (tk & Ht & E). destruct (tk_scanning tk) eqn:Hs; [|done].
    injection E as <-. apply (excl_inv_tasks w); [done| |done|done]. apply tasks_le_alter.
    intros tk0 Ht0. simpl in Ht0. assert (tk0 = tk) as -> by congruence.
    unfold task_le, active. simpl. by rewrite Hs.
  - apply bind_Some in E as (tk & (Ht & Hr & Hs)%can_step_Some & E). injection E as <-.
    rewrite Ht in Hp. apply negb_true_iff in Hp. by apply exit_excl.
  - apply bind_Some in E as (tk & Ht & E). destruct (_ && _); [|done]. injection E as <-.
    apply (excl_inv_tasks w); [done| |done|done]. apply tasks_le_alter. intros. apply task_le_end.
Qed.

Lemma world0_inv : world_inv world0 /\ excl_inv world0.
Proof using Type.
  split; constructor; simpl; try done.
  intros t wid (tk & Ht & _). done.
Qed.

Lemma world_run_inv acts w w' :
  world_inv w -> world_run exp acts w = Some w' ->
  world_inv w' /\ (excl_inv w -> prompt_run exp acts w = true -> excl_inv w').
Proof using Type.
  revert w. induction acts as [|a acts IH]; intros w Hinv E; cbn [world_run prompt_run] in *.
  { by injection E as <-. }
  apply bind_Some in E as (w1 & E1 & E2). rewrite E1.
  pose proof (world_act_inv _ _ _ Hinv E1) as Hinv1. destruct (IH w1 Hinv1 E2) as [H1 H2].
  split; [done|]. intros Hx Hp. breflect. apply H2; [|done].
  by apply (world_act_excl a w).
Qed.
End Exclusion.

(** C26. In every interleaving of API calls, sync tasks and blocking scans,
    the guard count of a wallet is the number of its scans in flight, and a
    start is refused exactly while a job is registered or a scan is in
    flight.  If no task takes a step after its abort, then at most one
    scan of a wallet is ever in flight, and at most one live task serves it. *)
Theorem sync_scans_exclusive exp (acts : list WorldAct) (w : SyncWorld) :
  world_run exp acts world0 = Some w ->
  (forall wid, default 0%nat (ss_blocking_scans (wo_state w) !! wid) = in_flight wid w)
  /\ (forall now wid h,
        (exists e, (start_check exp now wid h (wo_state w)).1 = Err e)
        <-> is_Some (ss_jobs (wo_state w) !! wid) \/ (0 < in_flight wid w)%nat)
  /\ (prompt_run exp acts world0 = true ->
        (forall wid, (in_flight wid w <= 1)%nat)
        /\ forall wid t t', live_task t wid w -> live_task t' wid w -> t = t').
Proof.
  intros E. destruct world0_inv as [Hi0 Hx0].
  destruct (world_run_inv _ _ _ _ Hi0 E) as [Hinv Hx]. split_and!.
  - intros wid. rewrite (wi_scans _ Hinv). by destruct (in_flight wid w).
  - intros now wid h.
    assert (is_Some (ss_blocking_scans (wo_state w) !! wid) <-> (0 < in_flight wid w)%nat) as Hs.
    { rewrite (wi_scans _ Hinv). destruct (in_flight wid w); simpl; split; intros H;
        [by destruct H|lia|lia|by eexists]. }
    destruct (start_check_cases exp now wid h (wo_state w))
      as [(E1 & _ & H)|(evs & E1 & _ & _ & H1 & H2)]; rewrite E1; split.
    + intros _. rewrite <- Hs. done.
    + by eexists.
    + by intros [].
    + rewrite <- Hs, H1, H2. intros [[? ?]|[? ?]]; done.
  - intros Hp. specialize (Hx Hx0 Hp). split; [|intros; by eapply live_unique].
    intros wid. apply map_size_le_1. intros t t' tk tk' Ht Ht'.
    apply lookup_scanning_tasks in Ht as (Ht & Hs & Hw), Ht' as (Ht' & Hs' & Hw').
    apply (xi_unique _ Hx t t' tk tk'); [done|done|unfold active..|congruence].
    + by rewrite Hs.
    + by rewrite Hs'.
Qed.

(** A scan that outlives its task blocks the next start. *)
Lemma sync_scans_exclusive_witness :
  let acts := [ApiStart 0 "w" true (Ok "https://zec.rocks:443"); ApiObserve; ApiInsert; TaskScan 0;
               ApiStop 5 "w" true; TaskDrop 0; ApiStart 9 "w" true (Ok "https://zec.rocks:443")] in
  exists w, world_run demo_exp acts world0 = Some w
    /\ in_flight "w" w = 1%nat
    /\ (forall t t', live_task t "w" w -> live_task t' "w" w -> t = t')
    /\ wo_replies w = [Ok tt; Ok tt;
                       Err (ipc_err errors.SYNC_IN_PROGRESS "sync already in progress")].
Proof.
  cbv zeta. eexists. split; [vm_compute; reflexivity|]. split; [by vm_compute|]. split; [|done].
  eapply (proj2 (proj2 (proj2 (sync_scans_exclusive demo_exp
    [ApiStart 0 "w" true (Ok "https://zec.rocks:443"); ApiObserve; ApiInsert; TaskScan 0;
     ApiStop 5 "w" true; TaskDrop 0; ApiStart 9 "w" true (Ok "https://zec.rocks:443")] _
    ltac:(vm_compute; reflexivity))) ltac:(by vm_compute))).
Defined.

Lemma no_live_task w wid :
  bool_decide (map_Forall (fun _ tk => tk_running tk = false) (wo_tasks w)) = true ->
  forall t, ~ live_task t wid w.
Proof.
  intros H%bool_decide_eq_true_1 t (tk & Ht & Hr & _). rewrite (H t tk Ht) in Hr. done.
Qed.

(** Races of the registration of a sync.  A task that ends between
    the observation of its handle and the insertion of its job leaves a
    registered job without a task, so that starts are refused with nothing
    running.  A stop that falls into the same window answers [Ok] and the sync
    goes on.  A task that reaches its clean-up after it was aborted removes
    the job of its successor, so that a third start gives the wallet two live
    tasks, of which one can no longer be stopped.  And a start whose server
    cannot be resolved leaves the wallet in the phase [Preparing], which a
    stop does not reset. *)
Theorem sync_registration_races exp :
  let url := Ok "https://zec.rocks:443" in
  (exists w,
     world_run exp [ApiStart 0 "w" false url; ApiObserve; TaskExit 0 ExitEarly; ApiInsert;
                    ApiStart 1 "w" false url] world0 = Some w
     /\ (forall t, ~ live_task t "w" w) /\ in_flight "w" w = 0%nat
     /\ wo_replies w = [Ok tt; Err (ipc_err errors.SYNC_IN_PROGRESS "sync already in progress")])
  /\ (exists w,
        world_run exp [ApiStart 0 "w" false url; ApiStop 1 "w" false; ApiObserve; ApiInsert] world0
        = Some w
        /\ live_task 0 "w" w /\ wo_replies w = [Ok tt; Ok tt])
  /\ (exists w,
        world_run exp
          [ApiStart 0 "w" false url; ApiObserve; ApiInsert; ApiStop 1 "w" false;
           ApiStart 2 "w" false url; ApiObserve; ApiInsert; TaskExit 0 ExitLoop;
           ApiStart 3 "w" false url; ApiObserve; ApiInsert] world0 = Some w
        /\ live_task 1 "w" w /\ live_task 2 "w" w
        /\ ss_jobs (wo_state w) !! "w" = Some 2%nat)
  /\ (exists w,
        world_run exp [ApiStart 0 "w" false (Err (AnyhowMsg "no server")); ApiStop 1 "w" false] world0
        = Some w
        /\ (forall t, ~ live_task t "w" w) /\ ss_progress (wo_state w) !! "w" = Some preparing).
Proof.
  cbv zeta. split_and!.
  - eexists. split; [vm_compute; reflexivity|]. split_and!; [|by vm_compute|done].
    apply no_live_task. by vm_compute.
  - eexists. split; [vm_compute; reflexivity|]. split; [|done]. eexists. by split_and!.
  - eexists. split; [vm_compute; reflexivity|]. split_and!; [| |done]; eexists; by split_and!.
  - eexists. split; [vm_compute; reflexivity|]. split; [|by vm_compute].
    apply no_live_task. by vm_compute.
Qed.
