(* ===== verification/Memos.v ===== *)
(** Memo enhancement ([sync_service.rs]): compact blocks carry no memos, so
    after a pass of the scan the full transactions of received notes without
    one are fetched and decrypted, four at a time.

    The tables of the wallet database that the SQL of this code reads and
    writes are lists of rows.  The order in which SQLite returns a [UNION] is
    a parameter.  Parsing and decryption of a transaction belong to the
    wallet library.  The enhancement tasks run concurrently with the loop
    that spawns them: [enh_act] is one step of either. *)
From S2P Require Import Prelude Text Domain Float64 SyncPipeline.
#[local] Open Scope list_scope.

(** ** The tables *)

(** A row of [sapling_received_notes] or [orchard_received_notes]; the index
    is [output_index] or [action_index]. *)
Record ReceivedNote := mkReceivedNote {
  rn_transaction_id : Z;
  rn_index : Z;
  rn_memo : option string;
}.

(** [transactions]: [id_tx] and [txid]. *)
Record MemoDb := mkMemoDb {
  md_transactions : list (Z * string);
  md_sapling : list ReceivedNote;
  md_orchard : list ReceivedNote;
}.

Definition lacks_memo (id_tx : Z) (n : ReceivedNote) : bool :=
  bool_decide (rn_transaction_id n = id_tx) && bool_decide (rn_memo n = None).

(** The transactions joined with notes whose memo is null. *)
Definition lacking (notes : list ReceivedNote) (txs : list (Z * string)) : list string :=
  map snd (filter (fun t => existsb (lacks_memo t.1) notes = true) txs).

Definition ENHANCEMENT_BATCH_SIZE : nat := 100.
Definition ENHANCEMENT_CONCURRENCY : nat := 4.

Section Queries.
(** The order of the rows of a [UNION]; the rows that cannot be read. *)
Context (order : list string -> list string) (unreadable : string -> bool).

Definition txids_needing_memo (db : MemoDb) : list string :=
  order (remove_dups (lacking (md_sapling db) (md_transactions db)
                      ++ lacking (md_orchard db) (md_transactions db))).

Definition count_txids_needing_memo_enhancement (open : result unit) (db : MemoDb) : result Z :=
  open ;;
  let count := Z.of_nat (length (txids_needing_memo db)) in
  if count <=? u32_max then Ok count else Err (AnyhowMsg "integer out of range").

Definition txid_row_ok (txid : string) : bool :=
  negb (unreadable txid) && (String.length txid =? 32)%nat.

Definition get_txids_needing_memo_enhancement_batch (open : result unit) (offset limit : nat)
    (db : MemoDb) : result (list string) :=
  open ;;
  Ok (filter (fun t => txid_row_ok t = true) (take limit (drop offset (txids_needing_memo db)))).
End Queries.

(** ** One transaction *)

Record RawTransaction := mkRawTransaction { raw_height : Z; raw_data : string }.

(** [memo IS NULL] keeps a memo that is already there. *)
Definition set_memo (id_tx index : Z) (memo : string) (n : ReceivedNote) : ReceivedNote :=
  if lacks_memo id_tx n && bool_decide (rn_index n = index)
  then mkReceivedNote (rn_transaction_id n) (rn_index n) (Some memo) else n.

(** The [UPDATE] statement for one output. *)
Definition update_memo (txid : string) (txs : list (Z * string)) (notes : list ReceivedNote)
    (output : Z * string) : list ReceivedNote :=
  match find_first (fun t => bool_decide (t.2 = txid)) txs with
  | Some (id_tx, _) => map (set_memo id_tx output.1 output.2) notes
  | None => notes
  end.

Section Enhance.
Context {Tx : Type}.
(** [Transaction::read] under the branch of a height, and
    [decrypt_transaction]: the index and the memo of each output of the two
    pools that the viewing keys decrypt. *)
Context (tx_read : Z -> string -> string + Tx)
        (tx_decrypt : Z -> Tx -> list (Z * string) * list (Z * string)).

Definition mined_height (height : Z) : result Z :=
  if height =? 0 then Err (AnyhowMsg "cannot enhance mempool transaction (not yet mined)")
  else if height =? u64_max then Err (AnyhowMsg "transaction is on a fork")
  else if height <=? u32_max then Ok height
  else Err (Context "block height exceeds u32::MAX" (AnyhowMsg "out of range integral type conversion attempted")).

(** What can fail besides: opening the database, reading the viewing keys,
    and the statements of the transaction with its commit, of which the first
    failure rolls everything back. *)
Record EnhanceIo := mkEnhanceIo {
  ei_raw : result RawTransaction;       (* client.get_transaction *)
  ei_worker : result unit;              (* the blocking task *)
  ei_open : result unit;
  ei_ufvks : result unit;
  ei_statements : result unit;
}.

Definition enhance_transaction_memo_blocking (io : EnhanceIo) (txid : string) (raw : RawTransaction)
    (db : MemoDb) : result unit * MemoDb :=
  let decrypted :=
    height ← mined_height (raw_height raw);
    tx ← anyhow_context "failed to parse transaction" (tx_read height (raw_data raw));
    ei_open io ;;
    ei_ufvks io ;;
    Ok (tx_decrypt height tx) in
  match decrypted with
  | Err e => (Err e, db)
  | Ok (sapling, orchard) =>
      match ei_statements io with
      | Err e => (Err e, db)
      | Ok _ =>
          (Ok tt,
           mkMemoDb (md_transactions db)
             (foldl (update_memo txid (md_transactions db)) (md_sapling db) sapling)
             (foldl (update_memo txid (md_transactions db)) (md_orchard db) orchard))
      end
  end.

Definition enhance_transaction_memo (io : EnhanceIo) (txid : string) (db : MemoDb)
    : result unit * MemoDb :=
  match ei_raw io with
  | Err e => (Err e, db)
  | Ok raw =>
      match with_context "spawn_blocking panicked" (ei_worker io) with
      | Err e => (Err e, db)
      | Ok _ => enhance_transaction_memo_blocking io txid raw db
      end
  end.

(** ** The phase *)

(** Maps the progress to the range 99 to 100. *)
Definition enhancement_progress (enhanced total : Z) : Z :=
  if total =? 0 then 100
  else f64_as_uint u8_max
         (f64_min (f64_add (f64_of_Z 99) (f64_div (f64_of_Z enhanced) (f64_of_Z total))) (f64_of_Z 100)).

(** Where the loop is: about to fetch a batch, at the head of the loop over
    its transactions, waiting for a place in the [JoinSet], draining it, or
    past it. *)
Inductive EnhPc := EnFetch | EnNext | EnFull (txid : string) | EnDrain | EnDone.

Record Enh := mkEnh {
  en_pc : EnhPc;
  en_db : MemoDb;
  en_offset : nat;
  en_enhanced : Z;
  en_batch : list string;                (* what is left of the batch *)
  en_running : list (string * bool);     (* the JoinSet; true when the task is over *)
  en_updates : list SyncProgress;
}.

Inductive EnhAct :=
| EaFetch (cancelled : bool) (open : result unit)
| EaNext (cancelled : bool)
| EaSpawn
| EaJoin (k : nat)
| EaTask (k : nat) (io : EnhanceIo)
| EaEnd.

Context (order : list string -> list string) (unreadable : string -> bool).
Context (chain_tip total_to_enhance : Z).

Definition enhancing (enhanced : Z) : SyncProgress :=
  plain_progress SyncPhase.Enhancing chain_tip chain_tip (enhancement_progress enhanced total_to_enhance).

Definition enh_start (db : MemoDb) : Enh := mkEnh EnFetch db 0 0 [] [] [].

Definition enh_goto (pc : EnhPc) (s : Enh) : Enh :=
  mkEnh pc (en_db s) (en_offset s) (en_enhanced s) (en_batch s) (en_running s) (en_updates s).

(** From the cancellation check to the start of the loop over the batch. *)
Definition fetch_turn (cancelled : bool) (open : result unit) (s : Enh) : Enh :=
  if cancelled then enh_goto EnDrain s
  else
    match get_txids_needing_memo_enhancement_batch order unreadable open (en_offset s)
            ENHANCEMENT_BATCH_SIZE (en_db s) with
    | Err _ | Ok [] => enh_goto EnDrain s
    | Ok txids_batch =>
        mkEnh EnNext (en_db s) (en_offset s + length txids_batch) (en_enhanced s) txids_batch
          (en_running s) (en_updates s ++ [enhancing (en_enhanced s)])
    end.

Definition next_turn (cancelled : bool) (s : Enh) : Enh :=
  match en_batch s with
  | [] => enh_goto EnFetch s
  | txid :: batch =>
      if cancelled then enh_goto EnDrain s
      else mkEnh (EnFull txid) (en_db s) (en_offset s) (en_enhanced s) batch (en_running s) (en_updates s)
  end.

Definition spawn_turn (txid : string) (s : Enh) : option Enh :=
  if (length (en_running s) <? ENHANCEMENT_CONCURRENCY)%nat then
    Some (mkEnh EnNext (en_db s) (en_offset s) (en_enhanced s) (en_batch s)
            (en_running s ++ [(txid, false)]) (en_updates s))
  else None.

(** [join_next]: one of the tasks that are over. *)
Definition join_task (k : nat) (s : Enh) : option Enh :=
  match en_running s !! k with
  | Some (_, true) =>
      Some (mkEnh (en_pc s) (en_db s) (en_offset s) (en_enhanced s + 1) (en_batch s)
              (delete k (en_running s)) (en_updates s))
  | _ => None
  end.

(** A task carries out its transaction; a failure is only logged. *)
Definition task_turn (k : nat) (io : EnhanceIo) (s : Enh) : option Enh :=
  match en_running s !! k with
  | Some (txid, false) =>
      Some (mkEnh (en_pc s) (enhance_transaction_memo io txid (en_db s)).2 (en_offset s) (en_enhanced s)
              (en_batch s) (<[k := (txid, true)]> (en_running s)) (en_updates s))
  | _ => None
  end.

Definition enh_act (a : EnhAct) (s : Enh) : option Enh :=
  match a, en_pc s with
  | EaFetch cancelled open, EnFetch => Some (fetch_turn cancelled open s)
  | EaNext cancelled, EnNext => Some (next_turn cancelled s)
  | EaSpawn, EnFull txid => spawn_turn txid s
  | EaJoin k, EnFull _ =>
      if (ENHANCEMENT_CONCURRENCY <=? length (en_running s))%nat then join_task k s else None
  | EaJoin k, EnDrain => join_task k s
  | EaEnd, EnDrain => match en_running s with [] => Some (enh_goto EnDone s) | _ => None end
  | EaTask k io, _ => task_turn k io s
  | _, _ => None
  end.

Fixpoint enh_run (acts : list EnhAct) (s : Enh) : option Enh :=
  match acts with
  | [] => Some s
  | a :: acts' => enh_act a s ≫= enh_run acts'
  end.
End Enhance.
