(* ===== verification/MemoSafety.v ===== *)
(** Correctness of memo enhancement: a memo is written once and comes from
    the transaction that was fetched, a pass ends, and what it leaves over. *)
From S2P Require Import Prelude Text Domain Float64 SyncPipeline Memos.
#[local] Open Scope list_scope.

(** ** Memos are written once *)

Section WriteOnce.
Context {Tx : Type} (tx_read : Z -> string -> string + Tx)
        (tx_decrypt : Z -> Tx -> list (Z * string) * list (Z * string)).

(** A task: the txid it was spawned for and what it was answered. *)
Abbreviation EnhTask := (string * EnhanceIo)%type.

(** What the bytes that the server sent for a task hold: the index and the
    memo of an output of one of the pools. *)
Definition fetched_memo (pool : list (Z * string) * list (Z * string) -> list (Z * string))
    (io : EnhanceIo) (index : Z) (memo : string) : Prop :=
  exists raw height tx, ei_raw io = Ok raw /\ mined_height (raw_height raw) = Ok height
    /\ tx_read height (raw_data raw) = inr tx /\ (index, memo) ∈ pool (tx_decrypt height tx).

(** The stored transaction of a txid. *)
Definition stored_transaction (txs : list (Z * string)) (txid : string) (id_tx : Z) : Prop :=
  find_first (fun t => bool_decide (t.2 = txid)) txs = Some (id_tx, txid).

(** A note before and after some tasks: only a null memo changes, to one that
    a task for the transaction of the note was sent, for its index and pool. *)
Definition note_step (tasks : list EnhTask) pool (txs : list (Z * string)) (n n' : ReceivedNote) : Prop :=
  rn_transaction_id n' = rn_transaction_id n /\ rn_index n' = rn_index n
  /\ (rn_memo n' = rn_memo n
      \/ rn_memo n = None
         /\ exists memo txid io, rn_memo n' = Some memo /\ (txid, io) ∈ tasks
            /\ stored_transaction txs txid (rn_transaction_id n) /\ fetched_memo pool io (rn_index n) memo).

Definition notes_step tasks pool txs : list ReceivedNote -> list ReceivedNote -> Prop :=
  Forall2 (note_step tasks pool txs).

Definition memos_step (tasks : list EnhTask) (db db' : MemoDb) : Prop :=
  md_transactions db' = md_transactions db
  /\ notes_step tasks fst (md_transactions db) (md_sapling db) (md_sapling db')
  /\ notes_step tasks snd (md_transactions db) (md_orchard db) (md_orchard db').

#[local] Instance note_step_preorder tasks pool txs : PreOrder (note_step tasks pool txs).
Proof using Type.
  split; [by intros n; split_and!; [| |left]|].
  intros n1 n2 n3 (Ht1 & Hi1 & Hm1) (Ht2 & Hi2 & Hm2).
  split; [congruence|]. split; [congruence|].
  rewrite Ht1, Hi1 in Hm2. destruct Hm1 as [E1|(E1 & memo & t & io & Hm & Hrest)].
  - rewrite E1 in Hm2. exact Hm2.
  - right. split; [done|]. destruct Hm2 as [E2|[E2 _]]; [|congruence].
    exists memo, t, io. split; [congruence|done].
Qed.

#[local] Instance notes_step_preorder tasks pool txs : PreOrder (notes_step tasks pool txs).
Proof using Type. unfold notes_step. apply _. Qed.

#[local] Instance memos_step_preorder tasks : PreOrder (memos_step tasks).
Proof using Type.
  split.
  - intros db. split; [done|]. by split; reflexivity.
  - intros d1 d2 d3 (T1 & S1 & O1) (T2 & S2 & O2). rewrite T1 in S2, O2, T2.
    split; [congruence|]. split; etransitivity; eauto.
Qed.

Lemma notes_step_more tasks tasks' pool txs notes notes' :
  tasks ⊆ tasks' -> notes_step tasks pool txs notes notes' -> notes_step tasks' pool txs notes notes'.
Proof using Type.
  intros Hsub Hst. eapply Forall2_impl; [exact Hst|]. intros n n' (H1 & H2 & [H3|(H3 & memo & t & io & Hm & Hin & Hrest)]).
  - split_and!; [done|done|by left].
  - split_and!; [done|done|]. right. split; [done|]. exists memo, t, io. split_and!; [done|by apply Hsub|apply Hrest..].
Qed.

Lemma memos_step_more tasks tasks' db db' : tasks ⊆ tasks' -> memos_step tasks db db' -> memos_step tasks' db db'.
Proof using Type. intros Hsub (Ht & Hs & Ho). split_and!; [done|by eapply notes_step_more..]. Qed.

Lemma update_memo_step tasks pool txs txid io notes output :
  (txid, io) ∈ tasks -> fetched_memo pool io output.1 output.2 ->
  notes_step tasks pool txs notes (update_memo txid txs notes output).
Proof using Type.
  intros Hin Ho. unfold update_memo.
  destruct (find_first _ txs) as [[id t]|] eqn:Ef; [|reflexivity].
  pose proof Ef as [_ Ht]%find_first_Some. breflect. simpl in Ht. subst t.
  apply Forall2_fmap_r, Forall_Forall2_diag, Forall_forall. intros n _.
  change (note_step tasks pool txs n (set_memo id output.1 output.2 n)). unfold set_memo, lacks_memo.
  destruct (bool_decide (rn_transaction_id n = id)) eqn:E1; [|reflexivity].
  destruct (bool_decide (rn_memo n = None)) eqn:E2; [|reflexivity].
  destruct (bool_decide (rn_index n = output.1)) eqn:E3; [|reflexivity].
  breflect. subst id. split; [done|]. split; [done|]. right. split; [done|]. simpl.
  exists output.2, txid, io. by rewrite E3.
Qed.

Lemma update_memos_step tasks pool txs txid io outputs notes :
  (txid, io) ∈ tasks -> (forall o, o ∈ outputs -> fetched_memo pool io o.1 o.2) ->
  notes_step tasks pool txs notes (foldl (update_memo txid txs) notes outputs).
Proof using Type.
  intros Hin. revert notes. induction outputs as [|o outputs IH]; intros notes Ho; [reflexivity|].
  simpl. etransitivity; [eapply update_memo_step; [exact Hin|apply Ho; left]|].
  apply IH. intros x Hx. apply Ho. by right.
Qed.

Lemma enhance_step io txid db :
  memos_step [(txid, io)] db (enhance_transaction_memo tx_read tx_decrypt io txid db).2.
Proof using Type.
  unfold enhance_transaction_memo. destruct (ei_raw io) as [raw|] eqn:Eraw; [|reflexivity].
  destruct (with_context _ _); [|reflexivity]. unfold enhance_transaction_memo_blocking.
  destruct (mined_height (raw_height raw)) as [h|] eqn:Eh; [|reflexivity]. simpl.
  destruct (tx_read h (raw_data raw)) as [|tx] eqn:Er; [reflexivity|]. simpl.
  destruct (ei_open io); [|reflexivity]. destruct (ei_ufvks io); [|reflexivity]. simpl.
  destruct (tx_decrypt h tx) as [sap orch] eqn:Ed.
  destruct (ei_statements io); [|reflexivity]. split; [done|]. simpl.
  split; (apply (update_memos_step _ _ _ _ io); [left|]); intros [index memo] Ho;
    exists raw, h, tx; rewrite Ed; done.
Qed.

(** *** What a task leaves without a memo *)

Definition has_memo (id_tx index : Z) (notes : list ReceivedNote) : Prop := forall n,
  n ∈ notes -> rn_transaction_id n = id_tx -> rn_index n = index -> rn_memo n <> None.

Lemma has_memo_step tasks pool txs notes notes' id_tx index :
  notes_step tasks pool txs notes notes' -> has_memo id_tx index notes -> has_memo id_tx index notes'.
Proof using Type.
  intros Hst Hm n' Hn Hid Hix. apply list_elem_of_lookup_1 in Hn as [k Hk].
  destruct (Forall2_lookup_r _ _ _ _ _ Hst Hk) as (n & Hk2 & (H1 & H2 & H3)).
  assert (rn_memo n <> None) as Hn by (apply Hm; [by eapply list_elem_of_lookup_2|congruence..]).
  destruct H3 as [H3|(H3 & _)]; congruence.
Qed.

Lemma update_memos_write (tasks : list EnhTask) pool txs txid io id_tx outputs notes index memo :
  (txid, io) ∈ tasks -> (forall o, o ∈ outputs -> fetched_memo pool io o.1 o.2) ->
  stored_transaction txs txid id_tx -> (index, memo) ∈ outputs ->
  has_memo id_tx index (foldl (update_memo txid txs) notes outputs).
Proof using Type.
  intros Hin Hf Hst. revert notes. induction outputs as [|o outputs IH]; intros notes Ho.
  { by apply elem_of_nil in Ho. }
  assert (forall x, x ∈ outputs -> fetched_memo pool io x.1 x.2) as Hf' by (intros x Hx; apply Hf; by right).
  simpl. apply elem_of_cons in Ho as [<-|Ho]; [|by apply IH].
  eapply has_memo_step; [by apply (update_memos_step tasks pool txs txid io)|].
  unfold update_memo, stored_transaction in *. rewrite Hst.
  intros n (n0 & -> & _)%list_elem_of_fmap. unfold set_memo, lacks_memo. simpl.
  destruct (bool_decide (rn_transaction_id n0 = id_tx) && _ && _) eqn:E; [by intros|]. intros Hid Hix Hm. apply not_true_iff_false in E. apply E.
  by rewrite !bool_decide_eq_true_2.
Qed.

(** A task whose transaction arrives and whose statements are carried out:
    what it decrypted. *)
Definition served (io : EnhanceIo) (outputs : list (Z * string) * list (Z * string)) : Prop :=
  exists raw height tx, ei_raw io = Ok raw /\ ei_worker io = Ok tt /\ mined_height (raw_height raw) = Ok height
    /\ tx_read height (raw_data raw) = inr tx /\ ei_open io = Ok tt /\ ei_ufvks io = Ok tt
    /\ ei_statements io = Ok tt /\ outputs = tx_decrypt height tx.

Definition outputs_stored (txid : string) (outputs : list (Z * string) * list (Z * string)) (db : MemoDb) : Prop :=
  forall id_tx, stored_transaction (md_transactions db) txid id_tx ->
    (forall index memo, (index, memo) ∈ outputs.1 -> has_memo id_tx index (md_sapling db))
    /\ (forall index memo, (index, memo) ∈ outputs.2 -> has_memo id_tx index (md_orchard db)).

Lemma outputs_stored_step tasks txid outputs db db' :
  memos_step tasks db db' -> outputs_stored txid outputs db -> outputs_stored txid outputs db'.
Proof using Type.
  intros (Ht & Hs & Ho) Hst id_tx. rewrite Ht. intros Hid. destruct (Hst id_tx Hid) as [H1 H2].
  split; intros index memo Hin; (eapply has_memo_step; [eassumption|eauto]).
Qed.

Lemma enhance_served io txid db outputs :
  served io outputs -> outputs_stored txid outputs (enhance_transaction_memo tx_read tx_decrypt io txid db).2.
Proof using Type.
  intros (raw & h & tx & E1 & E2 & E3 & E4 & E5 & E6 & E7 & ->).
  unfold enhance_transaction_memo, enhance_transaction_memo_blocking. rewrite E1, E2. simpl.
  rewrite E3. simpl. rewrite E4. simpl. rewrite E5, E6. simpl. rewrite E7.
  destruct (tx_decrypt h tx) as [sap orch] eqn:Ed. intros id_tx Hid. simpl in *.
  split; intros index memo Hin.
  1: eapply (update_memos_write [(txid, io)] fst _ _ io); [left| |done|done].
  2: eapply (update_memos_write [(txid, io)] snd _ _ io); [left| |done|done].
  all: intros [x y] Hx; exists raw, h, tx; by rewrite Ed.
Qed.

Context (order : list string -> list string) (unreadable : string -> bool) (chain_tip total : Z).
Let act := enh_act tx_read tx_decrypt order unreadable chain_tip total.
Let run := enh_run tx_read tx_decrypt order unreadable chain_tip total.

(** The tasks that a run of the phase carries out. *)
Definition task_of (a : EnhAct) (s : Enh) : list EnhTask :=
  match a with
  | EaTask k io => match en_running s !! k with Some (txid, false) => [(txid, io)] | _ => [] end
  | _ => []
  end.
Fixpoint tasks_of (acts : list EnhAct) (s : Enh) : list EnhTask :=
  match acts with
  | [] => []
  | a :: acts' => task_of a s ++ match act a s with Some s' => tasks_of acts' s' | None => [] end
  end.

Lemma enh_act_db a s s' :
  act a s = Some s' ->
  task_of a s = [] /\ en_db s' = en_db s
  \/ exists txid io, task_of a s = [(txid, io)]
     /\ en_db s' = (enhance_transaction_memo tx_read tx_decrypt io txid (en_db s)).2.
Proof using Type.
  unfold act, enh_act, fetch_turn, next_turn, spawn_turn, join_task, task_turn, enh_goto, task_of.
  destruct a as [c o|c| |k|k io|], (en_pc s); intros H; try discriminate H;
    repeat case_match; simplify_eq/=; auto; right; eauto 10.
Qed.

Lemma enh_act_step a s s' : act a s = Some s' -> memos_step (task_of a s) (en_db s) (en_db s').
Proof using Type.
  intros [[_ ->]|(t & io & -> & ->)]%enh_act_db; [reflexivity|apply enhance_step].
Qed.

Lemma memos_run_step acts s s' : run acts s = Some s' -> memos_step (tasks_of acts s) (en_db s) (en_db s').
Proof using Type.
  revert s. induction acts as [|a acts IH]; intros s; simpl.
  - intros [= ->]. reflexivity.
  - intros (s1 & Ha & Hr)%bind_Some. fold act in Ha. rewrite Ha. etransitivity.
    + eapply memos_step_more; [|eapply enh_act_step, Ha]. set_solver.
    + eapply memos_step_more; [|apply IH, Hr]. set_solver.
Qed.

Lemma served_run acts s s' txid io outputs :
  run acts s = Some s' -> (txid, io) ∈ tasks_of acts s -> served io outputs -> outputs_stored txid outputs (en_db s').
Proof using Type.
  revert s. induction acts as [|a acts IH]; intros s; simpl; [by intros _ H%elem_of_nil|].
  intros (s1 & Ha & Hr)%bind_Some. fold act in Ha. rewrite Ha. intros [Hin|Hin]%elem_of_app Hs; [|by apply (IH s1)].
  eapply outputs_stored_step; [by eapply memos_run_step|].
  destruct (enh_act_db a s s1 Ha) as [[E _]|(t & io' & E & ->)]; rewrite E in Hin.
  - by apply elem_of_nil in Hin.
  - apply list_elem_of_singleton in Hin as [= <- <-]. by apply enhance_served.
Qed.

(** C33. Memos are written once.  Over every interleaving of the enhancement
    loop and its tasks, whatever the server and the database answer, no note
    appears or disappears and a memo that is there is never changed.  A memo
    that is written is one that the bytes a task was sent hold, read at the
    height the server named, for the index and the pool of the note, and the
    txid of that task is that of the note's own stored transaction.  Once a
    task has had its bytes and its statements carried out, every output it
    decrypted has a memo.  (The bytes are not compared with the txid: see
    [memo_of_another_transaction].) *)
Theorem memos_written_once (acts : list EnhAct) (s s' : Enh) :
  run acts s = Some s' ->
  memos_step (tasks_of acts s) (en_db s) (en_db s')
  /\ forall txid io outputs, (txid, io) ∈ tasks_of acts s -> served io outputs ->
       outputs_stored txid outputs (en_db s').
Proof using Type. intros Hr. split; [by apply memos_run_step|]. intros txid io outputs. by apply served_run. Qed.
End WriteOnce.

(** ** A pass ends *)

Lemma lacking_elem notes txs t :
  t ∈ lacking notes txs <->
  exists id n, (id, t) ∈ txs /\ n ∈ notes /\ rn_transaction_id n = id /\ rn_memo n = None.
Proof.
  unfold lacking. rewrite list_elem_of_fmap. split.
  - intros ([id t'] & -> & [He Hin]%list_elem_of_filter). apply existsb_exists in He as (n & Hn & Hl).
    apply list_elem_of_In in Hn. unfold lacks_memo in Hl. apply andb_prop in Hl as [H1 H2]. breflect. eauto 10.
  - intros (id & n & Hin & Hn & Hid & Hm). exists (id, t). split; [done|]. apply list_elem_of_filter.
    split; [|done]. apply existsb_exists. exists n. rewrite <- list_elem_of_In. split; [done|].
    unfold lacks_memo. by rewrite !bool_decide_eq_true_2.
Qed.

Section Passes.
Context {Tx : Type} (tx_read : Z -> string -> string + Tx)
        (tx_decrypt : Z -> Tx -> list (Z * string) * list (Z * string)).
Context (order : list string -> list string) (order_perm : forall l, order l ≡ₚ l)
        (unreadable : string -> bool) (chain_tip total : Z).
Let act := enh_act tx_read tx_decrypt order unreadable chain_tip total.
Let run := enh_run tx_read tx_decrypt order unreadable chain_tip total.
Let needing := txids_needing_memo order.

Lemma needing_NoDup db : NoDup (needing db).
Proof using order_perm. unfold needing, txids_needing_memo. rewrite order_perm. apply NoDup_remove_dups. Qed.

Lemma needing_elem db t :
  t ∈ needing db <-> t ∈ lacking (md_sapling db) (md_transactions db)
                     \/ t ∈ lacking (md_orchard db) (md_transactions db).
Proof using order_perm.
  unfold needing, txids_needing_memo. by rewrite order_perm, elem_of_remove_dups, elem_of_app.
Qed.

(** Enhancement only ever takes transactions off the list. *)
Lemma needing_shrinks tasks db db' : memos_step tx_read tx_decrypt tasks db db' -> needing db' ⊆ needing db.
Proof using order_perm.
  intros (Ht & Hs & Ho) t. rewrite !needing_elem, !lacking_elem, Ht.
  assert (forall pool notes notes' id, notes_step tx_read tx_decrypt tasks pool (md_transactions db) notes notes' ->
    (exists n, n ∈ notes' /\ rn_transaction_id n = id /\ rn_memo n = None) ->
    exists n, n ∈ notes /\ rn_transaction_id n = id /\ rn_memo n = None) as Hback.
  { intros pool notes notes' id Hst (n' & Hn & Hid & Hm).
    apply list_elem_of_lookup_1 in Hn as [k Hk].
    destruct (Forall2_lookup_r _ _ _ _ _ Hst Hk) as (n & Hk2 & (H1 & _ & H2)).
    exists n. split; [by eapply list_elem_of_lookup_2|]. split; [congruence|].
    destruct H2 as [H2|[H2 _]]; congruence. }
  intros [(id & n' & Hin & Hn & Hid & Hm)|(id & n' & Hin & Hn & Hid & Hm)]; [left|right].
  - destruct (Hback _ _ _ id Hs) as (n & ? & ? & ?); eauto 10.
  - destruct (Hback _ _ _ id Ho) as (n & ? & ? & ?); eauto 10.
Qed.

Lemma needing_length tasks db db' : memos_step tx_read tx_decrypt tasks db db' -> (length (needing db') <= length (needing db))%nat.
Proof using order_perm.
  intros H. apply submseteq_length, NoDup_submseteq; [apply needing_NoDup|]. by eapply needing_shrinks.
Qed.

Definition task_weight (x : string * bool) : nat := if x.2 then 1 else 2.

Definition pc_weight (pc : EnhPc) : nat :=
  match pc with EnFetch => 2 | EnNext => 3 | EnFull _ => 6 | EnDrain => 1 | EnDone => 0 end.

Definition enh_measure (n : nat) (s : Enh) : nat :=
  6 * (n - en_offset s) + 4 * length (en_batch s) + sum_list_with task_weight (en_running s)
  + pc_weight (en_pc s).

Record enh_inv (n : nat) (s : Enh) : Prop := {
  ei_running : (length (en_running s) <= ENHANCEMENT_CONCURRENCY)%nat;
  ei_offset : (en_offset s <= n)%nat;
  ei_needing : (length (needing (en_db s)) <= n)%nat;
  ei_batch : en_pc s = EnFetch -> en_batch s = [];
}.

Lemma batch_length open offset db batch :
  get_txids_needing_memo_enhancement_batch order unreadable open offset ENHANCEMENT_BATCH_SIZE db = Ok batch ->
  (length batch <= length (needing db) - offset)%nat.
Proof using Type.
  unfold get_txids_needing_memo_enhancement_batch. destruct open as [u|e]; [|done]. intros [= <-].
  etrans; [apply length_filter|]. rewrite length_take, length_drop. fold needing. lia.
Qed.

Lemma sum_weight_delete k x l :
  l !! k = Some x -> sum_list_with task_weight l = (task_weight x + sum_list_with task_weight (delete k l))%nat.
Proof using Type.
  revert k. induction l as [|y l IH]; intros [|k] H; simplify_eq/=; [done|]. rewrite (IH k H). unfold delete. lia.
Qed.

Lemma sum_weight_insert k x y l :
  l !! k = Some x ->
  (sum_list_with task_weight (<[k := y]> l) + task_weight x = sum_list_with task_weight l + task_weight y)%nat.
Proof using Type.
  revert k. induction l as [|z l IH]; intros [|k] H; simplify_eq/=; [lia|]. specialize (IH k H).
  change (list_insert k y l) with (<[k := y]> l) in *. lia.
Qed.

Lemma join_inv n k s s' :
  enh_inv n s -> en_pc s <> EnFetch -> join_task k s = Some s' ->
  enh_inv n s' /\ (enh_measure n s' < enh_measure n s)%nat.
Proof using Type.
  intros [Hr Ho Hn Hb] Hpc. unfold join_task. destruct (en_running s !! k) as [[t []]|] eqn:Ek; [|done..].
  intros [= <-]. split.
  - split; simpl; [|done..]. rewrite length_delete by done. lia.
  - unfold enh_measure. simpl. rewrite (sum_weight_delete _ _ _ Ek). unfold task_weight at 2. simpl. lia.
Qed.

Lemma task_inv n k io s s' :
  enh_inv n s -> task_turn tx_read tx_decrypt k io s = Some s' ->
  enh_inv n s' /\ (enh_measure n s' < enh_measure n s)%nat.
Proof using order_perm.
  intros [Hr Ho Hn Hb]. unfold task_turn. destruct (en_running s !! k) as [[t []]|] eqn:Ek; [done| |done].
  intros [= <-]. split.
  - split; simpl; [by rewrite length_insert|done| |done].
    pose proof (needing_length _ _ _ (enhance_step tx_read tx_decrypt io t (en_db s))). lia.
  - unfold enh_measure. simpl. pose proof (sum_weight_insert _ _ (t, true) _ Ek) as Hw.
    unfold task_weight at 2 4 in Hw. simpl in Hw. lia.
Qed.

Lemma enh_act_inv n a s s' :
  enh_inv n s -> act a s = Some s' -> enh_inv n s' /\ (enh_measure n s' < enh_measure n s)%nat.
Proof using order_perm.
  intros Hinv Ha. pose proof Hinv as [Hr Ho Hn Hb]. pose proof (enh_act_step _ _ _ _ _ _ _ _ _ Ha) as Hst.
  apply needing_length in Hst. revert Ha.
  assert (forall s1, s' = s1 -> (length (en_running s1) <= ENHANCEMENT_CONCURRENCY)%nat ->
    (en_offset s1 <= n)%nat -> (en_pc s1 = EnFetch -> en_batch s1 = []) ->
    (enh_measure n s1 < enh_measure n s)%nat -> enh_inv n s' /\ (enh_measure n s' < enh_measure n s)%nat) as Hdone.
  { intros s1 <- H1 H2 H3 H4. split; [split; [done|done|lia|done]|done]. }
  unfold act, enh_act. destruct a as [c o|c| |k|k io|], (en_pc s) eqn:Epc; intros Ha; try discriminate Ha.
  all: try solve [eapply task_inv; [exact Hinv|exact Ha]].
  - injection Ha as <-. eapply Hdone; [reflexivity| | | |]; clear Hdone; unfold fetch_turn; destruct c;
      try (destruct (get_txids_needing_memo_enhancement_batch _ _ _ _ _ _) as [[|t b]|e] eqn:Eg; [| |]);
      simpl; try done; try (apply batch_length in Eg; simpl in Eg);
      unfold enh_measure, enh_goto; simpl; rewrite ?Epc, ?(Hb eq_refl); simpl; lia.
  - injection Ha as <-. eapply Hdone; [reflexivity| | | |]; clear Hdone; unfold next_turn;
      destruct (en_batch s) as [|t b] eqn:Eb; try destruct c; simpl; try done;
      unfold enh_measure, enh_goto; simpl; rewrite ?Epc, ?Eb; simpl; lia.
  - unfold spawn_turn in Ha. case_match eqn:El; [|done]. apply Nat.ltb_lt in El. injection Ha as <-.
    eapply Hdone; [reflexivity| | | |]; simpl; try done.
    + rewrite length_app. simpl. lia.
    + unfold enh_measure. simpl. rewrite Epc, sum_list_with_app. simpl. lia.
  - case_match; [|done]. eapply join_inv; [exact Hinv|by rewrite Epc|done].
  - eapply join_inv; [exact Hinv|by rewrite Epc|done].
  - destruct (en_running s) eqn:Er; [|done]. injection Ha as <-.
    eapply Hdone; [reflexivity| | | |]; simpl; rewrite ?Er; try done; simpl; try lia.
    unfold enh_measure, enh_goto. simpl. rewrite Epc. simpl. lia.
Qed.

Lemma enh_start_inv db : enh_inv (length (needing db)) (enh_start db).
Proof using Type. split; simpl; unfold ENHANCEMENT_CONCURRENCY; [lia..|done]. Qed.

Lemma enh_run_inv n acts s s' :
  enh_inv n s -> run acts s = Some s' ->
  enh_inv n s' /\ (length acts + enh_measure n s' <= enh_measure n s)%nat.
Proof using order_perm.
  revert s. induction acts as [|a acts IH]; intros s Hs; simpl.
  - intros [= ->]. split; [done|lia].
  - intros (s1 & Ha & Hr)%bind_Some. destruct (enh_act_inv n a s s1 Hs Ha) as [H1 H2].
    destruct (IH s1 H1 Hr) as [H3 H4]. split; [done|lia].
Qed.

(** A pass of the enhancement ends, whatever the order of its steps and the
    answers: it has at most six steps per transaction without a memo and two
    more, and never more than four transactions in flight. *)
Theorem enhancement_pass_ends (db : MemoDb) (acts : list EnhAct) (s : Enh) :
  run acts (enh_start db) = Some s ->
  (length acts <= 6 * length (needing db) + 2)%nat
  /\ (length (en_running s) <= ENHANCEMENT_CONCURRENCY)%nat
  /\ (en_offset s <= length (needing db))%nat.
Proof using order_perm.
  intros Hr. destruct (enh_run_inv _ _ _ _ (enh_start_inv db) Hr) as [[H1 H2 _ _] H3].
  split; [|done]. unfold enh_measure at 2 in H3. simpl in H3. lia.
Qed.

(** ** What a pass leaves over *)

Lemma filter_all {A} (P : A -> Prop) `{forall x, Decision (P x)} (l : list A) :
  (forall x, x ∈ l -> P x) -> filter P l = l.
Proof using Type.
  induction l as [|x l IH]; intros Hl; [done|]. rewrite filter_cons_True by (apply Hl; left).
  f_equal. apply IH. intros y Hy. apply Hl. by right.
Qed.

(** A pass in which nothing fails: no cancellation, no failed query, and
    every task leaves its transaction with all its memos. *)
Fixpoint undisturbed (acts : list EnhAct) (s : Enh) : Prop :=
  match acts with
  | [] => True
  | a :: acts' =>
      match a with
      | EaFetch cancelled open => cancelled = false /\ open = Ok tt
      | EaNext cancelled => cancelled = false
      | EaTask k io =>
          forall txid, en_running s !! k = Some (txid, false) ->
            txid ∉ needing (enhance_transaction_memo tx_read tx_decrypt io txid (en_db s)).2
      | _ => True
      end
      /\ match act a s with Some s' => undisturbed acts' s' | None => True end
  end.

Fixpoint undisturbed_check (acts : list EnhAct) (s : Enh) : bool :=
  match acts with
  | [] => true
  | a :: acts' =>
      match a with
      | EaFetch cancelled open => negb cancelled && bool_decide (open = Ok tt)
      | EaNext cancelled => negb cancelled
      | EaTask k io =>
          match en_running s !! k with
          | Some (txid, false) =>
              bool_decide (txid ∉ needing (enhance_transaction_memo tx_read tx_decrypt io txid (en_db s)).2)
          | _ => true
          end
      | _ => true
      end
      && match act a s with Some s' => undisturbed_check acts' s' | None => true end
  end.

Lemma undisturbed_checked acts s : undisturbed_check acts s = true -> undisturbed acts s.
Proof using Type.
  revert s. induction acts as [|a acts IH]; intros s; [done|]. cbn [undisturbed undisturbed_check].
  intros [Ha Hr]%andb_prop. split.
  - destruct a as [c o|c| |k|k io|]; try done.
    + apply andb_prop in Ha as [H1 H2]. breflect. by destruct c.
    + by destruct c.
    + intros txid Hk. rewrite Hk in Ha. by breflect.
  - destruct (act a s); [by apply IH|done].
Qed.

(** Where the transactions of a page are. *)
Definition accounted (page : list string) (s : Enh) : Prop := forall t, t ∈ page ->
  t ∈ en_batch s \/ en_pc s = EnFull t \/ (t, false) ∈ en_running s \/ t ∉ needing (en_db s).

Definition drained (s : Enh) : Prop :=
  (en_pc s = EnFetch \/ en_pc s = EnDrain \/ en_pc s = EnDone -> en_batch s = [])
  /\ (en_pc s = EnDone -> en_running s = []).

Lemma accounted_task page k io s s' :
  task_turn tx_read tx_decrypt k io s = Some s' ->
  (forall txid, en_running s !! k = Some (txid, false) ->
     txid ∉ needing (enhance_transaction_memo tx_read tx_decrypt io txid (en_db s)).2) ->
  (forall t, t ∉ needing (en_db s) -> t ∉ needing (en_db s')) -> accounted page s -> accounted page s'.
Proof using Type.
  unfold task_turn. destruct (en_running s !! k) as [[x []]|] eqn:Ek; [done| |done].
  intros [= <-] Hok Hgone Hacc t Ht. simpl in *. destruct (Hacc t Ht) as [H|[H|[H|H]]]; auto.
  destruct (decide (t = x)) as [->|Hne]; [by right; right; right; apply Hok|].
  right; right; left. apply list_elem_of_lookup_1 in H as [j Hj]. apply (list_elem_of_lookup_2 _ j).
  rewrite list_lookup_insert_ne; [done|]. intros ->. congruence.
Qed.

Lemma accounted_join page k s s' : join_task k s = Some s' -> accounted page s -> accounted page s'.
Proof using Type.
  unfold join_task. destruct (en_running s !! k) as [[x []]|] eqn:Ek; [|done..].
  intros [= <-] Hacc t Ht. simpl. destruct (Hacc t Ht) as [H|[H|[H|H]]]; auto.
  right; right; left. apply list_elem_of_lookup_1 in H as [j Hj].
  destruct (decide (j < k)%nat) as [Hlt|Hge].
  - apply (list_elem_of_lookup_2 _ j). by rewrite list_lookup_delete_lt.
  - assert (j <> k) by (intros ->; congruence). apply (list_elem_of_lookup_2 _ (j - 1)).
    rewrite list_lookup_delete_ge by lia. by replace (S (j - 1)) with j by lia.
Qed.

Lemma undisturbed_act page a s s' acts :
  undisturbed (a :: acts) s -> act a s = Some s' ->
  accounted page s -> drained s -> accounted page s' /\ drained s' /\ undisturbed acts s'.
Proof using order_perm.
  cbn [undisturbed]. intros [Hok Hrest] Ha Hacc [Hd1 Hd2]. rewrite Ha in Hrest.
  pose proof (enh_act_step _ _ _ _ _ _ _ _ _ Ha) as Hst. apply needing_shrinks in Hst.
  assert (forall t, t ∉ needing (en_db s) -> t ∉ needing (en_db s')) as Hgone by (intros t Ht Hin; by apply Ht, Hst).
  cut (accounted page s' /\ drained s'); [intros [? ?]; auto|]. clear Hrest. revert Ha. unfold act, enh_act.
  destruct a as [c o|c| |k|k io|].
  - destruct (en_pc s) eqn:Epc; try done. intros [= <-]. destruct Hok as [-> ->].
    specialize (Hd1 ltac:(auto)). unfold fetch_turn.
    destruct (get_txids_needing_memo_enhancement_batch _ _ _ _ _ _) as [[|x b]|e].
    all: split; [intros t Ht; destruct (Hacc t Ht) as [H|[H|H]]; simpl;
      [rewrite Hd1 in H; by apply elem_of_nil in H|congruence|auto]|split; simpl; naive_solver].
  - destruct (en_pc s) eqn:Epc; try done. intros [= <-]. subst c. unfold next_turn.
    destruct (en_batch s) as [|x b] eqn:Eb.
    + split; [|split; simpl; naive_solver].
      intros t Ht. destruct (Hacc t Ht) as [H|[H|H]]; simpl; [by rewrite Eb in H; apply elem_of_nil in H|congruence|auto].
    + split; [|split; simpl; naive_solver]. intros t Ht.
      destruct (Hacc t Ht) as [H|[H|H]]; simpl; [|congruence|auto].
      rewrite Eb in H. apply elem_of_cons in H as [->|H]; auto.
  - destruct (en_pc s) eqn:Epc; try done. unfold spawn_turn. case_match; [|done]. intros [= <-].
    split; [|split; simpl; naive_solver]. intros t Ht.
    destruct (Hacc t Ht) as [H1|[H1|[H1|H1]]]; simpl; [auto| | |auto].
    + right; right; left. apply elem_of_app. right. rewrite Epc in H1. injection H1 as ->. left.
    + right; right; left. apply elem_of_app. by left.
  - intros Hj. assert (join_task k s = Some s' /\ (en_pc s = EnDrain \/ exists t, en_pc s = EnFull t)) as [Hj' Hpc].
    { destruct (en_pc s); try done; [case_match; [|done]|]; eauto. }
    split; [by eapply accounted_join|]. unfold join_task in Hj'.
    destruct (en_running s !! k) as [[x []]|]; [|done..]. injection Hj' as <-.
    split; simpl; destruct Hpc as [E|[x' E]]; rewrite E in *; naive_solver.
  - intros Ht. assert (task_turn tx_read tx_decrypt k io s = Some s') as Ht' by (by destruct (en_pc s)).
    split; [by eapply accounted_task|]. unfold task_turn in Ht'.
    destruct (en_running s !! k) as [[x []]|] eqn:Ek; [done| |done]. injection Ht' as <-.
    split; simpl; [done|]. intros Hpc. by rewrite (Hd2 Hpc) in Ek.
  - destruct (en_pc s) eqn:Epc; try done. destruct (en_running s) eqn:Er; [|done]. intros [= <-].
    split; [|split; simpl; naive_solver]. intros t Ht.
    destruct (Hacc t Ht) as [H|[H|[H|H]]]; simpl; [auto|congruence| |auto].
    rewrite Er in H. by apply elem_of_nil in H.
Qed.

Lemma undisturbed_run page acts s s' :
  run acts s = Some s' -> undisturbed acts s -> accounted page s -> drained s -> accounted page s' /\ drained s'.
Proof using order_perm.
  revert s. induction acts as [|a acts IH]; intros s; simpl; [by intros [= ->]|].
  intros (s1 & Ha & Hr)%bind_Some Hu Hacc Hd.
  destruct (undisturbed_act page a s s1 acts Hu Ha Hacc Hd) as (H1 & H2 & H3). by apply (IH s1).
Qed.

(** C34. Enhancement completes over the passes.  A pass in which nothing fails
    serves every transaction of its first page, so that it leaves at most
    [n - 100] of [n] transactions without a memo; since the phase is entered
    again after every poll, the memos of [n] transactions are there after
    [n / 100] passes, rounded up.  (A pass need not serve more than its first
    page: see [enhancement_skips_transactions].) *)
Theorem enhancement_pass_progress (db : MemoDb) (acts : list EnhAct) (s : Enh) :
  (forall t, t ∈ needing db -> txid_row_ok unreadable t = true) ->
  run acts (enh_start db) = Some s -> undisturbed acts (enh_start db) -> en_pc s = EnDone ->
  (length (needing (en_db s)) <= length (needing db) - ENHANCEMENT_BATCH_SIZE)%nat
  /\ forall t, t ∈ take ENHANCEMENT_BATCH_SIZE (needing db) -> t ∉ needing (en_db s).
Proof using order_perm.
  intros Hrow Hr Hu Hpc. set (page := take ENHANCEMENT_BATCH_SIZE (needing db)).
  assert (filter (fun t => txid_row_ok unreadable t = true) page = page) as Hpage.
  { apply filter_all. intros t (j & Hj & _)%elem_of_take. by eapply Hrow, list_elem_of_lookup_2. }
  assert (accounted page s /\ drained s) as [Hacc [Hd1 Hd2]].
  { destruct acts as [|a acts]; [injection Hr as <-; discriminate Hpc|].
    simpl in Hr. apply bind_Some in Hr as (s1 & Ha & Hr). destruct Hu as [Hok Hu].
    change (act a (enh_start db) = Some s1) in Ha. rewrite Ha in Hu.
    destruct a as [c o|c| |k|k io|]; try discriminate Ha. destruct Hok as [-> ->].
    unfold act, enh_act, fetch_turn, get_txids_needing_memo_enhancement_batch in Ha. simpl in Ha.
    rewrite drop_0 in Ha. fold needing in Ha. fold page in Ha. rewrite Hpage in Ha.
    apply (undisturbed_run page acts s1 s Hr Hu); destruct page as [|t b] eqn:Ep; injection Ha as <-.
    - intros t Ht. by apply elem_of_nil in Ht.
    - intros x Hx. by left.
    - split; naive_solver.
    - split; naive_solver. }
  assert (forall t, t ∈ page -> t ∉ needing (en_db s)) as Hgone.
  { intros t Ht. destruct (Hacc t Ht) as [H|[H|[H|H]]]; [| | |done].
    - rewrite Hd1 in H by auto. by apply elem_of_nil in H.
    - congruence.
    - rewrite Hd2 in H by done. by apply elem_of_nil in H. }
  split; [|exact Hgone].
  rewrite <- length_drop. apply submseteq_length, NoDup_submseteq; [apply needing_NoDup|].
  intros t Ht. pose proof (memos_run_step _ _ _ _ _ _ _ _ _ Hr) as Hst.
  apply needing_shrinks in Hst. pose proof (Hst t Ht) as Hin. simpl in Hin.
  rewrite <- (take_drop ENHANCEMENT_BATCH_SIZE (needing db)) in Hin. fold page in Hin.
  apply elem_of_app in Hin as [Hin|Hin]; [by destruct (Hgone t Hin)|done].
Qed.
End Passes.

(** ** Concrete passes *)

(** [n] transactions with one note each; a fetched transaction is its txid,
    which decrypts to a memo for the output 0. *)
Definition demo_txid (i : nat) : string :=
  let d := uint_to_string (1000 + Z.of_nat i) in "0000000000000000000000000000" +:+ d.

Definition demo_memo_db (n : nat) : MemoDb :=
  mkMemoDb (map (fun i => (Z.of_nat i, demo_txid i)) (seq 0 n)) []
    (map (fun i => mkReceivedNote (Z.of_nat i) 0 None) (seq 0 n)).

Definition demo_read (_ : Z) (data : string) : string + string := inr data.
Definition demo_decrypt (_ : Z) (tx : string) : list (Z * string) * list (Z * string) :=
  ([], [(0, "memo of " +:+ tx)]).

Definition demo_enh_run : list EnhAct -> Enh -> option Enh :=
  enh_run demo_read demo_decrypt (fun l => l) (fun _ => false) 1000 150.

Definition demo_task (i : nat) : EnhAct :=
  EaTask 0 (mkEnhanceIo (Ok (mkRawTransaction 500 (demo_txid i))) (Ok tt) (Ok tt) (Ok tt) (Ok tt)).

(** The steps of a page of [k] transactions from the [i]-th one on, the
    oldest task always first; at most four at once. *)
Definition demo_page (i k : nat) : list EnhAct :=
  EaFetch false (Ok tt)
  :: concat (map (fun j => [EaNext false; EaSpawn]) (seq 0 (Nat.min 4 k)))
  ++ concat (map (fun j => [EaNext false; demo_task (i + j); EaJoin 0; EaSpawn]) (seq 0 (k - 4)))
  ++ [EaNext false].

Definition demo_drain (i k : nat) : list EnhAct :=
  concat (map (fun j => [demo_task (i + j); EaJoin 0]) (seq 0 k)) ++ [EaEnd].

Definition demo_pass (n : nat) : list EnhAct :=
  let k := Nat.min 100 n in
  demo_page 0 k ++ [EaFetch false (Ok tt)] ++ demo_drain (k - Nat.min 4 k) (Nat.min 4 k).

(** Paging over a list that shrinks: of 150 transactions a pass without any
    failure serves the first 100 and then asks for those from the 100th on
    of the 54 that still lack a memo, so that 50 are left for a later pass. *)
Theorem enhancement_skips_transactions :
  exists s, demo_enh_run (demo_pass 150) (enh_start (demo_memo_db 150)) = Some s
    /\ en_pc s = EnDone /\ en_enhanced s = 100
    /\ length (txids_needing_memo (fun l => l) (en_db s)) = 50%nat.
Proof. eexists. split; [vm_compute; reflexivity|]. split; [reflexivity|]. split; vm_compute; reflexivity. Qed.

(** The transaction that is fetched is not compared with the txid it was
    fetched for: the memo of another transaction is stored. *)
Theorem memo_of_another_transaction :
  exists s, demo_enh_run [EaFetch false (Ok tt); EaNext false; EaSpawn; demo_task 7] (enh_start (demo_memo_db 1))
            = Some s
    /\ md_orchard (en_db s) = [mkReceivedNote 0 0 (Some ("memo of " +:+ demo_txid 7))].
Proof. eexists. split; vm_compute; reflexivity. Qed.

Lemma memos_written_once_witness :
  exists s, demo_enh_run (demo_pass 2) (enh_start (demo_memo_db 2)) = Some s
    /\ outputs_stored (demo_txid 1) ([], [(0, "memo of " +:+ demo_txid 1)]) (en_db s).
Proof.
  eexists. split; [vm_compute; reflexivity|].
  match goal with |- outputs_stored _ _ (en_db ?s) => set (s0 := s) end.
  destruct (memos_written_once demo_read demo_decrypt (fun l => l) (fun _ => false) 1000 150 (demo_pass 2)
    (enh_start (demo_memo_db 2)) s0) as [_ H]; [vm_compute; reflexivity|].
  apply (H (demo_txid 1) (mkEnhanceIo (Ok (mkRawTransaction 500 (demo_txid 1))) (Ok tt) (Ok tt) (Ok tt) (Ok tt))).
  - vm_compute. right. left.
  - by exists (mkRawTransaction 500 (demo_txid 1)), 500, (demo_txid 1).
Defined.

Lemma enhancement_pass_progress_witness :
  exists s, demo_enh_run (demo_pass 5) (enh_start (demo_memo_db 5)) = Some s
    /\ length (txids_needing_memo (fun l => l) (en_db s)) = 0%nat.
Proof.
  eexists. split; [vm_compute; reflexivity|].
  match goal with |- length (_ (en_db ?s)) = _ => set (s0 := s) end.
  destruct (enhancement_pass_progress demo_read demo_decrypt (fun l => l) (fun l => reflexivity l)
    (fun _ => false) 1000 150 (demo_memo_db 5) (demo_pass 5) s0) as [H _].
  - intros t Ht. vm_compute in Ht. repeat (apply elem_of_cons in Ht as [->|Ht]; [reflexivity|]).
    by apply elem_of_nil in Ht.
  - vm_compute. reflexivity.
  - apply undisturbed_checked. vm_compute. reflexivity.
  - reflexivity.
  - apply Nat.le_0_r. exact H.
Defined.
