(* ===== verification/SyncLoop.v ===== *)
(** The sync task ([SyncService::start_sync] of [sync_service.rs]) from its
    spawn to its end: waiting for Tor, opening the databases, the backfill of
    birthday tree sizes, and the loop that polls the chain tip, scans the
    suggested ranges ([SyncPipeline]) and fetches memos ([Memos]).

    The task is sequential; [loop_act] is its step, with what the environment
    answers as arguments: every reading of the cancellation channel, whether
    each blocking worker returned, the answers of the server.  What it passes
    to [update] and to [sleep], in order, is [lp_out]; what it passes to
    [maybe_emit] is [lp_triggers]. *)
From S2P Require Import Prelude Text Domain Float64 SyncPipeline SyncService Memos.
#[local] Open Scope list_scope.

(** In seconds. *)
Definition POLL_INTERVAL : Z := 20.
Definition MAX_POLL_BACKOFF : Z := 5 * 60.

(** [ScanRange]: its block range, and whether its priority is [Ignored]. *)
Record ScanRange := mkScanRange { sr_start : Z; sr_end : Z; sr_ignored : bool }.

(** The wallet library around the scan: [WalletDb] and the tables of
    birthdays and memos. *)
Record LoopLib (W K : Type) := mkLoopLib {
  ll_update_chain_tip : W -> Z -> option string * W;
  ll_suggest_scan_ranges : W -> string + list ScanRange;
  ll_chain_height : W -> option Z;
  ll_birthdays : W -> string + list Z;                        (* without tree sizes *)
  ll_set_tree_sizes : W -> Z -> Z * Z -> option string * W;   (* the UPDATE of accounts *)
  ll_tree_sizes : K -> Z * Z;
  ll_memo_db : W -> MemoDb;
  ll_set_memo_db : W -> MemoDb -> W;
}.
Arguments ll_update_chain_tip {_ _}.
Arguments ll_suggest_scan_ranges {_ _}.
Arguments ll_chain_height {_ _}.
Arguments ll_birthdays {_ _}.
Arguments ll_set_tree_sizes {_ _}.
Arguments ll_tree_sizes {_ _}.
Arguments ll_memo_db {_ _}.
Arguments ll_set_memo_db {_ _}.

Inductive LoopOut := Update (p : SyncProgress) | Sleep (secs : Z).

(** A call of [maybe_emit], or [start_new_auto_sync_iteration]. *)
Inductive LoopTrigger := Emit (t : BalanceEmitTrigger) | NewIteration.

(** Where the task is. *)
Inductive LoopPc (W C K : Type) :=
| LpTor                                        (* waiting for Tor *)
| LpPrepare
| LpCacheDir
| LpBlockDb
| LpWalletDb
| LpBackfill
| LpHead                                       (* 'auto_sync *)
| LpTip
| LpUpdateTip (chain_tip : Z)
| LpPass (chain_tip : Z) (message : option string)        (* 'sync_loop *)
| LpRanges (chain_tip : Z) (ranges : list ScanRange) (message : option string)
| LpRange (chain_tip wallet_tip : Z) (range : ScanRange) (ranges : list ScanRange) (pipe : Pipe W C K)
| LpFailed (chain_tip : Z) (message : option string)      (* sync_error *)
| LpCount (chain_tip : Z)                                 (* sync_complete *)
| LpEnhance (chain_tip total : Z) (enh : Enh)
| LpCaughtUp (chain_tip : Z)
| LpSleep
| LpCleanup
| LpExit (kind : TaskExitKind).
Arguments LpTor {_ _ _}.
Arguments LpPrepare {_ _ _}.
Arguments LpCacheDir {_ _ _}.
Arguments LpBlockDb {_ _ _}.
Arguments LpWalletDb {_ _ _}.
Arguments LpBackfill {_ _ _}.
Arguments LpHead {_ _ _}.
Arguments LpTip {_ _ _}.
Arguments LpUpdateTip {_ _ _}.
Arguments LpPass {_ _ _}.
Arguments LpRanges {_ _ _}.
Arguments LpRange {_ _ _}.
Arguments LpFailed {_ _ _}.
Arguments LpCount {_ _ _}.
Arguments LpEnhance {_ _ _}.
Arguments LpCaughtUp {_ _ _}.
Arguments LpSleep {_ _ _}.
Arguments LpCleanup {_ _ _}.
Arguments LpExit {_ _ _}.

Record Loop (W C K : Type) := mkLoop {
  lp_pc : LoopPc W C K;
  lp_store : Store W C;
  lp_backoff : Z;
  lp_out : list LoopOut;
  lp_triggers : list LoopTrigger;
}.
Arguments mkLoop {_ _ _}.
Arguments lp_pc {_ _ _}.
Arguments lp_store {_ _ _}.
Arguments lp_backoff {_ _ _}.
Arguments lp_out {_ _ _}.
Arguments lp_triggers {_ _ _}.

(** The answers of a backfill: whether the query worker and the update
    workers return, and the tree states. *)
Record BackfillIo (K : Type) := mkBackfillIo {
  bf_query_worker : bool;
  bf_tree : Z -> TreeAnswer K;
  bf_update_worker : Z -> bool;
}.
Arguments bf_query_worker {_}.
Arguments bf_tree {_}.
Arguments bf_update_worker {_}.

Inductive LoopAct (K : Type) :=
| LaTor (cancelled : bool) (tor : option TorState)
| LaPrepare (cancelled : bool)
| LaOpen (ok : bool)
| LaBackfill (io : BackfillIo K)
| LaHead (cancelled : bool)
| LaTip (tip : option Z) (progress_worker : bool)
| LaUpdateTip (worker progress_worker : bool)
| LaPass (cancelled worker : bool)
| LaRange (cancelled progress_worker : bool)
| LaPipe (a : PipeAct K)
| LaFailed (progress_worker : bool)
| LaCount (counted : result unit)
| LaEnhance (a : EnhAct)
| LaCleanup (removed : bool)
| LaGoOn.
Arguments LaTor {_}.
Arguments LaPrepare {_}.
Arguments LaOpen {_}.
Arguments LaBackfill {_}.
Arguments LaHead {_}.
Arguments LaTip {_}.
Arguments LaUpdateTip {_}.
Arguments LaPass {_}.
Arguments LaRange {_}.
Arguments LaPipe {_}.
Arguments LaFailed {_}.
Arguments LaCount {_}.
Arguments LaEnhance {_}.
Arguments LaCleanup {_}.
Arguments LaGoOn {_}.

Section Loop.
Context {W C K Tx : Type} (lib : ScanLib W C K) (ll : LoopLib W K).
Context (tx_read : Z -> string -> string + Tx)
        (tx_decrypt : Z -> Tx -> list (Z * string) * list (Z * string))
        (order : list string -> list string) (unreadable : string -> bool).
Implicit Types l : Loop W C K.

Definition goto (pc : LoopPc W C K) l : Loop W C K :=
  mkLoop pc (lp_store l) (lp_backoff l) (lp_out l) (lp_triggers l).
Definition with_wallet (w : W) l : Loop W C K :=
  mkLoop (lp_pc l) (mkStore (st_files (lp_store l)) (st_cache (lp_store l)) w) (lp_backoff l)
    (lp_out l) (lp_triggers l).
Definition with_backoff (secs : Z) l : Loop W C K :=
  mkLoop (lp_pc l) (lp_store l) secs (lp_out l) (lp_triggers l).
Definition out (o : LoopOut) l : Loop W C K :=
  mkLoop (lp_pc l) (lp_store l) (lp_backoff l) (lp_out l ++ [o]) (lp_triggers l).
Definition trigger (t : LoopTrigger) l : Loop W C K :=
  mkLoop (lp_pc l) (lp_store l) (lp_backoff l) (lp_out l) (lp_triggers l ++ [t]).

Definition update (p : SyncProgress) : Loop W C K -> Loop W C K := out (Update p).
Definition forced : Loop W C K -> Loop W C K := trigger (Emit BalanceEmitTrigger.ForcedMilestone).

Definition loop_start (s : Store W C) : Loop W C K := mkLoop LpTor s POLL_INTERVAL [] [].

(** The progress of a wallet on its blocking worker: the percentage, the
    fully scanned height, and the chain height. *)
Definition get_progress_blocking (w : W) : Z * Z * option Z :=
  (calculate_progress_and_height lib w, ll_chain_height ll w).

(** A cancellation that is noticed: the balances, then the idle progress. *)
Definition cancelled_at (pc : LoopPc W C K) l : Loop W C K :=
  goto pc (update default_progress (forced l)).

(** A worker that did not return ends the loop. *)
Definition worker_lost (chain_tip : Z) l : Loop W C K := goto LpCleanup (update (worker_failed chain_tip) l).

(** The sleep of the back-off, which doubles. *)
Definition back_off l : Loop W C K :=
  goto LpHead (with_backoff (Z.min (2 * lp_backoff l) MAX_POLL_BACKOFF) (out (Sleep (lp_backoff l)) l)).

Definition retry_progress (phase : SyncPhase) (frontier tip percent secs : Z) (message : option string)
    : SyncProgress :=
  mkSyncProgress phase frontier tip percent None (Some secs) message.

(** *** Before the loop *)

Definition tor_turn (cancelled : bool) (tor : option TorState) l : Loop W C K :=
  match tor with
  | None => goto LpPrepare l
  | Some st =>
      if cancelled then goto (LpExit ExitTor) (forced l)
      else if negb (tor_enabled st) then goto LpPrepare l
      else match tor_status st with
           | TorStatus.On | TorStatus.Error => goto LpPrepare l
           | TorStatus.Off | TorStatus.Connecting => out (Sleep 1) l
           end
  end.

Definition loop_prepare_turn (cancelled : bool) l : Loop W C K :=
  let l := update preparing l in
  if cancelled then cancelled_at (LpExit ExitEarly) l else goto LpCacheDir l.

(** The cache directory, its index and the wallet database. *)
Definition open_turn (ok : bool) (next : LoopPc W C K) l : Loop W C K :=
  if ok then goto next l else cancelled_at (LpExit ExitEarly) l.

(** [None] when a worker does not return. *)
Fixpoint backfill_heights (io : BackfillIo K) (heights : list Z) (w : W) : option (result unit) * W :=
  match heights with
  | [] => (Some (Ok tt), w)
  | birthday_height :: heights' =>
      match fetch_chain_state lib (bf_tree io birthday_height) (u32_saturating_sub birthday_height 1) with
      | Err e => (Some (Err e), w)
      | Ok k =>
          if bf_update_worker io birthday_height then
            match ll_set_tree_sizes ll w birthday_height (ll_tree_sizes ll k) with
            | (None, w) => backfill_heights io heights' w
            | (Some e, w) =>
                (Some (Err (Context "failed to update account birthday tree sizes" (AnyhowMsg e))), w)
            end
          else (None, w)
      end
  end.

Definition backfill_birthday_tree_sizes (io : BackfillIo K) (w : W) : option (result unit) * W :=
  if bf_query_worker io then
    match ll_birthdays ll w with
    | inl e => (Some (Err (AnyhowMsg e)), w)
    | inr heights => backfill_heights io heights w
    end
  else (None, w).

Definition backfill_turn (io : BackfillIo K) l : Loop W C K :=
  match backfill_birthday_tree_sizes io (st_wallet (lp_store l)) with
  | (None, w) => goto (LpExit ExitEarly) (forced (update (worker_failed 0) (with_wallet w l)))
  | (Some _, w) => goto LpHead (with_wallet w l)
  end.

(** *** The chain tip *)

Definition head_turn (cancelled : bool) l : Loop W C K :=
  let l := trigger NewIteration l in
  if cancelled then cancelled_at LpCleanup l else goto LpTip l.

Definition tip_turn (tip : option Z) (progress_worker : bool) l : Loop W C K :=
  match tip with
  | Some height => goto (LpUpdateTip height) (with_backoff POLL_INTERVAL l)
  | None =>
      if progress_worker then
        let '(progress_percent, fully_scanned, chain_height) := get_progress_blocking (st_wallet (lp_store l)) in
        back_off (update (retry_progress SyncPhase.Offline fully_scanned (default 0 chain_height)
                            progress_percent (lp_backoff l) None) l)
      else worker_lost 0 l
  end.

Definition update_tip_turn (chain_tip : Z) (worker progress_worker : bool) l : Loop W C K :=
  if worker then
    match ll_update_chain_tip ll (st_wallet (lp_store l)) chain_tip with
    | (None, w) => goto (LpPass chain_tip None) (with_wallet w l)
    | (Some _, w) =>
        let l := with_wallet w l in
        if progress_worker then
          let '(progress_percent, fully_scanned, _) := get_progress_blocking w in
          back_off (update (retry_progress SyncPhase.Error fully_scanned chain_tip progress_percent
                              (lp_backoff l) (Some "Failed to update wallet chain tip")) l)
        else worker_lost chain_tip l
    end
  else worker_lost chain_tip l.

(** *** One pass to the tip *)

Definition pass_turn (chain_tip : Z) (message : option string) (cancelled worker : bool) l : Loop W C K :=
  if cancelled then cancelled_at LpCleanup l
  else if worker then
    match ll_suggest_scan_ranges ll (st_wallet (lp_store l)) with
    | inl _ => goto (LpFailed chain_tip (Some "Failed to determine scan ranges")) l
    | inr [] => goto (LpCount chain_tip) l
    | inr ranges => goto (LpRanges chain_tip ranges message) l
    end
  else worker_lost chain_tip l.

Definition range_turn (chain_tip : Z) (ranges : list ScanRange) (message : option string)
    (cancelled progress_worker : bool) l : Loop W C K :=
  match ranges with
  | [] => goto (LpPass chain_tip message) l
  | range :: ranges' =>
      if cancelled then cancelled_at LpCleanup l
      else if sr_ignored range then goto (LpRanges chain_tip ranges' message) l
      else if progress_worker then
        let wallet_tip := default (sr_start range) (ll_chain_height ll (st_wallet (lp_store l))) in
        goto (LpRange chain_tip wallet_tip range ranges' (pipe_start (sr_start range) (lp_store l) message)) l
      else worker_lost chain_tip l
  end.

(** The pipeline left its range: what it updated and triggered, and where
    the loop goes on. *)
Definition range_left (chain_tip : Z) (ranges : list ScanRange) (e : RangeEnd) (pipe : Pipe W C K) l
    : Loop W C K :=
  mkLoop (match e with
          | RangeDone | RangeReorg _ => LpRanges chain_tip ranges (pi_error_message pipe)
          | RangeError | RangeAborted true => LpFailed chain_tip (pi_error_message pipe)
          | RangeCancelled | RangeAborted false => LpCleanup
          end)
    (pi_store pipe) (lp_backoff l) (lp_out l ++ map Update (pi_updates pipe))
    (lp_triggers l ++ map Emit (pi_triggers pipe)).

Definition failed_turn (chain_tip : Z) (message : option string) (progress_worker : bool) l : Loop W C K :=
  if progress_worker then
    let '(progress_percent, fully_scanned, _) := get_progress_blocking (st_wallet (lp_store l)) in
    back_off (forced (update (retry_progress SyncPhase.Error fully_scanned chain_tip progress_percent
                                (lp_backoff l) message) l))
  else worker_lost chain_tip l.

(** *** Memos *)

Definition count_turn (chain_tip : Z) (counted : result unit) l : Loop W C K :=
  let total := match count_txids_needing_memo_enhancement order counted
                       (ll_memo_db ll (st_wallet (lp_store l))) with
               | Ok count => count
               | Err _ => 0
               end in
  let l := update (enhancing chain_tip total 0) (forced l) in
  if 0 <? total then goto (LpEnhance chain_tip total (enh_start (ll_memo_db ll (st_wallet (lp_store l))))) l
  else goto (LpCaughtUp chain_tip) l.

Definition enhanced_turn (chain_tip : Z) (enh : Enh) l : Loop W C K :=
  let l := with_wallet (ll_set_memo_db ll (st_wallet (lp_store l)) (en_db enh)) l in
  mkLoop (LpCaughtUp chain_tip) (lp_store l) (lp_backoff l) (lp_out l ++ map Update (en_updates enh))
    (lp_triggers l).

Definition caught_up_turn (chain_tip : Z) l : Loop W C K :=
  goto LpSleep (forced (update (plain_progress SyncPhase.CatchingUp chain_tip chain_tip 100) l)).

(** The block files at the end; a failure is only logged. *)
Definition remove_cache_dir (removed : bool) l : Loop W C K :=
  if removed then
    mkLoop (lp_pc l) (mkStore ∅ (st_cache (lp_store l)) (st_wallet (lp_store l))) (lp_backoff l)
      (lp_out l) (lp_triggers l)
  else l.

(** A step of the task; [None] where it is at another point, or waits. *)
Definition loop_act (a : LoopAct K) l : option (Loop W C K) :=
  match lp_pc l, a with
  | LpTor, LaTor cancelled tor => Some (tor_turn cancelled tor l)
  | LpPrepare, LaPrepare cancelled => Some (loop_prepare_turn cancelled l)
  | LpCacheDir, LaOpen ok => Some (open_turn ok LpBlockDb l)
  | LpBlockDb, LaOpen ok => Some (open_turn ok LpWalletDb l)
  | LpWalletDb, LaOpen ok => Some (open_turn ok LpBackfill l)
  | LpBackfill, LaBackfill io => Some (backfill_turn io l)
  | LpHead, LaHead cancelled => Some (head_turn cancelled l)
  | LpTip, LaTip tip worker => Some (tip_turn tip worker l)
  | LpUpdateTip tip, LaUpdateTip worker worker' => Some (update_tip_turn tip worker worker' l)
  | LpPass tip msg, LaPass cancelled worker => Some (pass_turn tip msg cancelled worker l)
  | LpRanges tip ranges msg, LaRange cancelled worker => Some (range_turn tip ranges msg cancelled worker l)
  | LpRange tip wallet_tip range ranges pipe, LaPipe a =>
      pipe ← act lib (sr_start range) (sr_end range) wallet_tip tip a pipe;
      Some (goto (LpRange tip wallet_tip range ranges pipe) l)
  | LpRange tip wallet_tip range ranges pipe, LaGoOn =>
      match pi_scan pipe with ScLeft e => Some (range_left tip ranges e pipe l) | _ => None end
  | LpFailed tip msg, LaFailed worker => Some (failed_turn tip msg worker l)
  | LpCount tip, LaCount counted => Some (count_turn tip counted l)
  | LpEnhance tip total enh, LaEnhance a =>
      enh ← enh_act tx_read tx_decrypt order unreadable tip total a enh;
      Some (goto (LpEnhance tip total enh) l)
  | LpEnhance tip total enh, LaGoOn =>
      match en_pc enh with EnDone => Some (enhanced_turn tip enh l) | _ => None end
  | LpCaughtUp tip, LaGoOn => Some (caught_up_turn tip l)
  | LpSleep, LaGoOn => Some (goto LpHead (out (Sleep POLL_INTERVAL) l))
  | LpCleanup, LaCleanup removed => Some (goto (LpExit ExitLoop) (remove_cache_dir removed l))
  | _, _ => None
  end.

Inductive loop_reachable (l0 : Loop W C K) : Loop W C K -> Prop :=
| loop_reach_start : loop_reachable l0 l0
| loop_reach_step l a l' : loop_reachable l0 l -> loop_act a l = Some l' -> loop_reachable l0 l'.

Fixpoint loop_run (acts : list (LoopAct K)) l : option (Loop W C K) :=
  match acts with
  | [] => Some l
  | a :: acts' => loop_act a l ≫= loop_run acts'
  end.
End Loop.
