(* ===== verification/SyncLoopSafety.v ===== *)
(** Correctness of the sync task: what it announces before it sleeps, what
    progress it leaves behind, and when it reports the wallet as caught up. *)
From S2P Require Import Prelude Text Domain Float64 SyncPipeline SyncService Memos MemoSafety SyncLoop.
#[local] Open Scope list_scope.

(** ** The updates of a range *)

Definition unannounced (p : SyncProgress) : Prop := sp_retry_in_seconds p = None.

Section PipeUpdates.
Context {W C K : Type} (lib : ScanLib W C K) (range_start range_end wallet_tip chain_tip : Z).

Record pipe_says (p : Pipe W C K) : Prop := {
  ps_quiet : Forall unannounced (pi_updates p);
  ps_left : match pi_scan p with
            | ScLeft RangeCancelled => last (pi_updates p) = Some default_progress
            | ScLeft (RangeAborted false) => last (pi_updates p) = Some (worker_failed chain_tip)
            | ScWaiting (RangeAborted _) => False
            | _ => True
            end;
}.

Lemma says_push u (p : Pipe W C K) : unannounced u -> Forall unannounced (pi_updates p) ->
  Forall unannounced (pi_updates (push_update u p)).
Proof using Type. intros Hu Hp. apply Forall_app. split; [done|]. by constructor. Qed.

(** What a turn of the download task changes has no part in it. *)
Lemma says_frame (p p' : Pipe W C K) :
  pi_updates p' = pi_updates p -> pi_scan p' = pi_scan p -> pipe_says p -> pipe_says p'.
Proof using Type. intros Hu Hs [H1 H2]. split; [by rewrite Hu|]. by rewrite Hs, Hu. Qed.

Lemma batch_turn_says env k first batch p :
  pipe_says p -> pipe_says (batch_turn lib wallet_tip chain_tip env k first batch p).
Proof using Type.
  intros [Hq _]. unfold batch_turn.
  destruct (se_cancelled env); [by split|].
  destruct (negb (se_write_worker env)); [split; [by apply says_push|apply last_snoc]|].
  destruct (write_blocks_to_cache _ _ _ _ _) as [[metas files] cache]. cbn zeta.
  destruct (if first then _ else _) as [cs|e]; [|by split].
  destruct (negb (se_scan_worker env)); [split; [by apply says_push|apply last_snoc]|].
  destruct (scan_batch _ _ _ _ _ _ _) as [[[outcome activity] progress] s].
  destruct outcome; [|by split..]. unfold after_scan. destruct (record_scan_result _ _ _ _) as [adj ctl].
  split; [|done]. by apply (says_push _ (set_controller ctl (set_store s _))).
Qed.

Lemma join_turn_says e worker p :
  pi_scan p = ScWaiting e -> pipe_says p ->
  pipe_says (join_turn lib wallet_tip chain_tip e worker p).
Proof using Type.
  intros Hs [Hq Hl]. rewrite Hs in Hl. unfold join_turn. destruct e as [|h| | |b]; try done.
  1,2: destruct worker; [destruct (calculate_progress_and_height _ _)|];
    (split; [by apply says_push|]); [done|apply last_snoc].
  split; [by apply (says_push _ (push_trigger _ p))|apply last_snoc].
Qed.

Lemma act_says a p p' :
  pipe_says p -> act lib range_start range_end wallet_tip chain_tip a p = Some p' -> pipe_says p'.
Proof using Type.
  intros Hp. unfold act. destruct a as [c answer| |worker tree|env|worker].
  - destruct (pi_download p); try done. intros [= <-]. unfold download_turn.
    repeat case_match; simplify_eq; try done; by apply (says_frame p).
  - destruct (pi_download p); try done. unfold send_turn.
    repeat case_match; intros; simplify_eq; try done; by apply (says_frame p).
  - destruct (pi_scan p) eqn:Es; try done. intros [= <-]. destruct Hp as [Hq _]. unfold prepare_turn.
    destruct worker; [|split; [by apply says_push|apply last_snoc]].
    destruct (calculate_progress_and_height _ _) as [pct fs]. cbn zeta.
    destruct (fetch_chain_state _ _ _); (split; [by apply says_push|done]).
  - destruct (pi_scan p) eqn:Es; try done. unfold recv_turn. destruct Hp as [Hq Hl].
    destruct (pi_channel p) as [|r ch].
    + destruct (pi_download p); try done. intros [= <-]. by split.
    + intros [= <-]. destruct r; [|by split..]. apply batch_turn_says. split; [done|]. simpl. by rewrite Es.
  - destruct (pi_scan p) eqn:Es, (pi_download p); try done. intros [= <-]. by apply join_turn_says.
Qed.

Lemma reachable_says s msg p :
  reachable lib range_start range_end wallet_tip chain_tip (pipe_start range_start s msg) p -> pipe_says p.
Proof using Type.
  induction 1 as [|p a p' _ IH Ha]; [by split; constructor|]. by eapply act_says.
Qed.
End PipeUpdates.

Lemma enh_act_says {Tx} (tx_read : Z -> string -> string + Tx) tx_decrypt order unreadable tip total a s s' :
  enh_act tx_read tx_decrypt order unreadable tip total a s = Some s' ->
  Forall unannounced (en_updates s) -> Forall unannounced (en_updates s').
Proof.
  unfold enh_act, fetch_turn, next_turn, spawn_turn, join_task, task_turn, enh_goto.
  destruct a as [c o|c| |k|k io|], (en_pc s); intros H Hu; try discriminate H;
    repeat case_match; simplify_eq/=; try done; apply Forall_app; (split; [done|by constructor]).
Qed.

(** ** What the task announces *)

(** Every update that says when the task will retry is followed by a sleep
    of just that length: 20 seconds after an error, up to five minutes while
    the server cannot be reached. *)
Definition announced (o : list LoopOut) : Prop := forall i p r,
  o !! i = Some (Update p) -> sp_retry_in_seconds p = Some r ->
  o !! S i = Some (Sleep r)
  /\ (sp_phase p = SyncPhase.Error /\ r = POLL_INTERVAL
      \/ sp_phase p = SyncPhase.Offline /\ POLL_INTERVAL <= r <= MAX_POLL_BACKOFF).

Lemma announced_quiet o us : announced o -> Forall unannounced us -> announced (o ++ map Update us).
Proof.
  intros Ho Hu i p r Hi Hr. apply lookup_app_Some in Hi as [Hi|[_ Hi]].
  - destruct (Ho i p r Hi Hr) as [H1 H2]. split; [|done]. by apply lookup_app_l_Some.
  - apply list_lookup_fmap_Some in Hi as (u & Hu1 & Hu2). simplify_eq. rewrite Forall_lookup in Hu.
    specialize (Hu _ _ ltac:(eassumption)). unfold unannounced in Hu. congruence.
Qed.

Lemma announced_update o p : announced o -> unannounced p -> announced (o ++ [Update p]).
Proof. intros Ho Hp. apply (announced_quiet o [p]); [done|by constructor]. Qed.

Lemma announced_sleep o secs : announced o -> announced (o ++ [Sleep secs]).
Proof.
  intros Ho i p r Hi Hr. apply lookup_app_Some in Hi as [Hi|[_ Hi]].
  - destruct (Ho i p r Hi Hr) as [H1 H2]. split; [|done]. by apply lookup_app_l_Some.
  - by apply list_lookup_singleton_Some in Hi as [_ ?].
Qed.

Lemma announced_retry o p r :
  announced o -> sp_retry_in_seconds p = Some r ->
  (sp_phase p = SyncPhase.Error /\ r = POLL_INTERVAL
   \/ sp_phase p = SyncPhase.Offline /\ POLL_INTERVAL <= r <= MAX_POLL_BACKOFF) ->
  announced ((o ++ [Update p]) ++ [Sleep r]).
Proof.
  intros Ho Hp Hphase i q s Hi Hs. rewrite <- app_assoc in *. apply lookup_app_Some in Hi as [Hi|[Hlen Hi]].
  - destruct (Ho i q s Hi Hs) as [H1 H2]. split; [|done]. by apply lookup_app_l_Some.
  - destruct (i - length o)%nat as [|[|k]] eqn:Ek; simplify_eq/=. split; [|done].
    rewrite lookup_app_r by lia. by replace (S i - length o)%nat with 1%nat by lia.
Qed.

Section Task.
Context {W C K Tx : Type} (lib : ScanLib W C K) (ll : LoopLib W K).
Context (tx_read : Z -> string -> string + Tx)
        (tx_decrypt : Z -> Tx -> list (Z * string) * list (Z * string))
        (order : list string -> list string) (unreadable : string -> bool).
Let step := loop_act lib ll tx_read tx_decrypt order unreadable.
Implicit Types l : Loop W C K.

(** After the chain tip was read the back-off is that of the first failure. *)
Definition backoff_reset (pc : LoopPc W C K) : Prop :=
  match pc with
  | LpUpdateTip _ | LpPass _ _ | LpRanges _ _ _ | LpRange _ _ _ _ _ | LpFailed _ _ => True
  | _ => False
  end.

(** What holds at the points inside a pass, of its range, and at the end. *)
Definition pc_inv l : Prop :=
  match lp_pc l with
  | LpRange tip wallet_tip range _ pipe =>
      exists s msg, reachable lib (sr_start range) (sr_end range) wallet_tip tip
                      (pipe_start (sr_start range) s msg) pipe
  | LpCount _ => ll_suggest_scan_ranges ll (st_wallet (lp_store l)) = inr []
  | LpEnhance _ _ enh => Forall unannounced (en_updates enh)
  | LpCleanup | LpExit ExitEarly | LpExit ExitLoop =>
      exists p, last (lp_out l) = Some (Update p) /\ (p = default_progress \/ exists tip, p = worker_failed tip)
  | LpTor | LpExit ExitTor => Forall (fun o => o = Sleep 1) (lp_out l)
  | _ => True
  end.

Record loop_inv l : Prop := {
  li_backoff : POLL_INTERVAL <= lp_backoff l <= MAX_POLL_BACKOFF;
  li_reset : backoff_reset (lp_pc l) -> lp_backoff l = POLL_INTERVAL;
  li_out : announced (lp_out l);
  li_pc : pc_inv l;
}.

Lemma back_off_inv (pre : Loop W C K -> Loop W C K) p l :
  loop_inv l -> (forall l, lp_out (pre l) = lp_out l) -> (forall l, lp_backoff (pre l) = lp_backoff l) ->
  sp_retry_in_seconds p = Some (lp_backoff l) ->
  (sp_phase p = SyncPhase.Error /\ backoff_reset (lp_pc l) \/ sp_phase p = SyncPhase.Offline) ->
  loop_inv (back_off (pre (update p l))).
Proof using Type.
  intros [Hb Hr Ho _] Hpo Hpb Hp Hphase. split; simpl; rewrite ?Hpo, ?Hpb; simpl.
  - unfold POLL_INTERVAL, MAX_POLL_BACKOFF in *. lia.
  - done.
  - apply announced_retry; [done|done|]. destruct Hphase as [[? ?]|?]; auto.
  - done.
Qed.

Lemma cancelled_inv pc l :
  loop_inv l -> pc = LpCleanup \/ pc = LpExit ExitEarly -> loop_inv (cancelled_at pc l).
Proof using Type.
  intros [Hb Hr Ho _] Hpc. split; simpl; [done|by destruct Hpc; subst pc|by apply announced_update|].
  unfold pc_inv. simpl. destruct Hpc; subst pc; (eexists; split; [apply last_snoc|by left]).
Qed.

Lemma worker_lost_inv tip l : loop_inv l -> loop_inv (worker_lost tip l).
Proof using Type.
  intros [Hb Hr Ho _]. split; simpl; [done|done|by apply announced_update|].
  unfold pc_inv. simpl. eexists. split; [apply last_snoc|eauto].
Qed.

(** A move to a point that asks for nothing but the back-off. *)
Lemma goto_inv pc l :
  loop_inv l -> (backoff_reset pc -> lp_backoff l = POLL_INTERVAL) -> pc_inv (goto pc l) ->
  loop_inv (goto pc l).
Proof using Type. intros [Hb Hr Ho _] Hreset Hpc. by split. Qed.

Lemma update_inv p l : loop_inv l -> unannounced p -> pc_inv (update p l) -> loop_inv (update p l).
Proof using Type. intros [Hb Hr Ho _] Hp Hpc. split; [done|done|by apply announced_update|done]. Qed.

Lemma trigger_inv t l : loop_inv l -> loop_inv (trigger t l).
Proof using Type. by intros [Hb Hr Ho Hpc]. Qed.

(** The points of the loop without a condition of their own. *)
Definition plain_pc (pc : LoopPc W C K) : Prop :=
  match pc with
  | LpTor | LpRange _ _ _ _ _ | LpCount _ | LpEnhance _ _ _ | LpCleanup | LpExit _ => False
  | _ => True
  end.

Lemma goto_plain pc l :
  loop_inv l -> plain_pc pc -> (backoff_reset pc -> lp_backoff l = POLL_INTERVAL) -> loop_inv (goto pc l).
Proof using Type. intros Hl Hpc Hr. apply goto_inv; [done|done|]. by destruct pc. Qed.

(** Nothing but the wallet changes. *)
Lemma with_wallet_inv w l : loop_inv l -> plain_pc (lp_pc l) -> loop_inv (with_wallet w l).
Proof using Type. intros [Hb Hr Ho Hpc] Hp. split; [done..|]. unfold pc_inv in *. simpl. by destruct (lp_pc l). Qed.

Lemma before_loop_inv a l l' :
  loop_inv l -> step a l = Some l' ->
  match lp_pc l with LpTor | LpPrepare | LpCacheDir | LpBlockDb | LpWalletDb | LpBackfill => loop_inv l' | _ => True end.
Proof using Type.
  intros Hl. pose proof Hl as [Hb Hr Ho Hpc]. unfold step, loop_act, pc_inv in *.
  destruct (lp_pc l) eqn:Epc; try done; destruct a; try done; intros [= <-].
  - unfold tor_turn. destruct tor as [st|]; [|by apply goto_plain].
    destruct cancelled; [by split|]. destruct (negb _); [by apply goto_plain|].
    assert (loop_inv (out (Sleep 1) l)) as Hsleep.
    { split; simpl; [done|by rewrite Epc|by apply announced_sleep|].
      unfold pc_inv. simpl. rewrite Epc. apply Forall_app. split; [done|by constructor]. }
    by destruct (tor_status st); [| |apply goto_plain|apply goto_plain].
  - unfold loop_prepare_turn. assert (loop_inv (update preparing l)) as Hu.
    { apply update_inv; [done|done|]. unfold pc_inv. simpl. by rewrite Epc. }
    destruct cancelled; [apply cancelled_inv; auto|by apply goto_plain].
  - unfold open_turn. destruct ok; [by apply goto_plain|apply cancelled_inv; auto].
  - unfold open_turn. destruct ok; [by apply goto_plain|apply cancelled_inv; auto].
  - unfold open_turn. destruct ok; [by apply goto_plain|apply cancelled_inv; auto].
  - unfold backfill_turn. destruct (backfill_birthday_tree_sizes _ _ _ _) as [[r|] w].
    + apply goto_plain; [|done|done]. apply with_wallet_inv; [done|by rewrite Epc].
    + split; simpl; [done|done|by apply announced_update|]. unfold pc_inv. simpl.
      eexists. split; [apply last_snoc|eauto].
Qed.

Lemma tip_inv a l l' :
  loop_inv l -> step a l = Some l' ->
  match lp_pc l with LpHead | LpTip | LpUpdateTip _ | LpPass _ _ | LpFailed _ _ => loop_inv l' | _ => True end.
Proof using Type.
  intros Hl. pose proof Hl as [Hb Hr Ho Hpc]. unfold step, loop_act, pc_inv in *.
  destruct (lp_pc l) eqn:Epc; try done; destruct a; try done; intros [= <-].
  - unfold head_turn. apply (trigger_inv NewIteration) in Hl.
    destruct cancelled; [apply cancelled_inv; auto|by apply goto_plain].
  - unfold tip_turn. destruct tip as [h|].
    + split; simpl; [unfold POLL_INTERVAL, MAX_POLL_BACKOFF; lia|done|done|done].
    + destruct progress_worker; [|by apply worker_lost_inv].
      destruct (get_progress_blocking _ _ _) as [[pct fs] ch]. apply (back_off_inv (fun l => l)); auto.
  - unfold update_tip_turn. destruct worker; [|by apply worker_lost_inv].
    destruct (ll_update_chain_tip _ _ _) as [[e|] w].
    all: assert (loop_inv (with_wallet w l)) as Hw by (apply with_wallet_inv; [done|by rewrite Epc]).
    + destruct progress_worker; [|by apply worker_lost_inv].
      destruct (get_progress_blocking _ _ _) as [[pct fs] ch]. apply (back_off_inv (fun l => l)); auto.
      left. simpl. by rewrite Epc.
    + apply goto_plain; [done|done|]. intros _. by apply Hr.
  - unfold pass_turn. destruct cancelled; [apply cancelled_inv; auto|].
    destruct worker; [|by apply worker_lost_inv].
    destruct (ll_suggest_scan_ranges _ _) as [e|[|r rs]] eqn:Es.
    + apply goto_plain; [done|done|]. intros _. by apply Hr.
    + by apply goto_inv.
    + apply goto_plain; [done|done|]. intros _. by apply Hr.
  - unfold failed_turn. destruct progress_worker; [|by apply worker_lost_inv].
    destruct (get_progress_blocking _ _ _) as [[pct fs] ch]. apply (back_off_inv forced); auto.
    left. simpl. by rewrite Epc.
Qed.

Lemma range_left_inv tip wallet_tip range ranges e pipe l :
  loop_inv l -> lp_pc l = LpRange tip wallet_tip range ranges pipe -> pi_scan pipe = ScLeft e ->
  loop_inv (range_left tip ranges e pipe l).
Proof using Type.
  intros [Hb Hr Ho Hpc] Epc Es. unfold pc_inv in Hpc. rewrite Epc in Hpc, Hr. destruct Hpc as (s & msg & Hreach).
  destruct (reachable_says _ _ _ _ _ _ _ _ Hreach) as [Hq Hl]. rewrite Es in Hl.
  split; simpl; [done|by intros _; apply Hr|by apply announced_quiet|].
  assert (forall u, last (pi_updates pipe) = Some u ->
    last (lp_out l ++ map Update (pi_updates pipe)) = Some (Update u)) as Hlast.
  { intros u Hu. rewrite last_app. change (map Update) with (fmap (M := list) Update). by rewrite fmap_last, Hu. }
  unfold pc_inv. simpl. destruct e as [|h| | |[]]; try done; (eexists; split; [by apply Hlast|eauto]).
Qed.

Lemma pass_inv a l l' :
  loop_inv l -> step a l = Some l' ->
  match lp_pc l with
  | LpRanges _ _ _ | LpRange _ _ _ _ _ | LpCount _ | LpEnhance _ _ _ | LpCaughtUp _ | LpSleep | LpCleanup =>
      loop_inv l'
  | _ => True
  end.
Proof using Type.
  intros Hl. pose proof Hl as [Hb Hr Ho Hpc]. unfold step, loop_act.
  destruct (lp_pc l) eqn:Epc; try done; destruct a; try done.
  - intros [= <-]. unfold range_turn. specialize (Hr I). destruct ranges as [|r rs]; [by apply goto_plain|].
    destruct cancelled; [apply cancelled_inv; auto|]. destruct (sr_ignored r); [by apply goto_plain|].
    destruct progress_worker; [|by apply worker_lost_inv]. apply goto_inv; [done|done|].
    unfold pc_inv. simpl. eexists _, _. apply reach_start.
  - intros (pipe' & Ha & [= <-])%bind_Some. unfold pc_inv in Hpc. rewrite Epc in Hpc.
    destruct Hpc as (s & msg & Hreach). apply goto_inv; [done|by intros _; apply Hr|].
    unfold pc_inv. simpl. exists s, msg. by eapply reach_step.
  - destruct (pi_scan pipe) eqn:Es; try done. intros [= <-]. by eapply range_left_inv.
  - intros [= <-]. unfold count_turn. cbv zeta.
    match goal with |- context [enhancing _ ?t 0] => set (total := t) end.
    assert (loop_inv (update (enhancing chain_tip total 0) (forced l))) as Hu.
    { apply update_inv; [by apply trigger_inv|done|]. unfold pc_inv in *. simpl. rewrite Epc in *. done. }
    destruct (0 <? total); [apply goto_inv; [done|done|constructor]|by apply goto_plain].
  - intros (enh' & Ha & [= <-])%bind_Some. unfold pc_inv in Hpc. rewrite Epc in Hpc.
    apply goto_inv; [done|done|]. unfold pc_inv. simpl. by eapply enh_act_says.
  - destruct (en_pc enh); try done. intros [= <-]. unfold pc_inv in Hpc. rewrite Epc in Hpc.
    split; simpl; [done|done|by apply announced_quiet|done].
  - intros [= <-]. unfold caught_up_turn. apply goto_plain; [|done|done]. apply trigger_inv, update_inv; [done|done|].
    unfold pc_inv. simpl. by rewrite Epc.
  - intros [= <-]. split; simpl; [done|done|by apply announced_sleep|done].
  - intros [= <-]. unfold pc_inv in Hpc. rewrite Epc in Hpc. by destruct removed.
Qed.

Lemma step_inv a l l' : loop_inv l -> step a l = Some l' -> loop_inv l'.
Proof using Type.
  intros Hl Ha. pose proof (before_loop_inv a l l' Hl Ha) as H1. pose proof (tip_inv a l l' Hl Ha) as H2.
  pose proof (pass_inv a l l' Hl Ha) as H3. destruct (lp_pc l) eqn:Epc; try done.
  unfold step, loop_act in Ha. rewrite Epc in Ha. by destruct a.
Qed.

Lemma loop_reachable_inv s l :
  loop_reachable lib ll tx_read tx_decrypt order unreadable (loop_start s) l -> loop_inv l.
Proof using Type.
  induction 1 as [|l a l' _ IH Ha]; [|by eapply step_inv].
  split; simpl; [unfold POLL_INTERVAL, MAX_POLL_BACKOFF; lia|done|by intros i p r Hi|constructor].
Qed.

Lemma loop_run_reachable acts l0 l l' :
  loop_reachable lib ll tx_read tx_decrypt order unreadable l0 l ->
  loop_run lib ll tx_read tx_decrypt order unreadable acts l = Some l' ->
  loop_reachable lib ll tx_read tx_decrypt order unreadable l0 l'.
Proof using Type.
  revert l. induction acts as [|a acts IH]; intros l Hl; simpl; [by intros [= <-]|].
  intros (l1 & Ha & Hr)%bind_Some. apply (IH l1); [|done]. by eapply loop_reach_step.
Qed.

(** *** What a point of the loop was reached from *)

(** The wallet suggests no more ranges. *)
Definition scanned_up w : Prop := ll_suggest_scan_ranges ll w = inr [].

(** A run of the enhancement phase on the notes of a wallet. *)
Definition enhances tip total w (enh : Enh) : Prop := exists acts,
  enh_run tx_read tx_decrypt order unreadable tip total acts (enh_start (ll_memo_db ll w)) = Some enh.

Section History.
Context (reached : Loop W C K -> Prop) (reached_step : forall a l l', reached l -> step a l = Some l' -> reached l').

(** The wallet suggested these ranges, after some others, at the start of the pass. *)
Definition suggested tip (ranges : list ScanRange) : Prop := exists l0 msg before,
  reached l0 /\ lp_pc l0 = LpPass tip msg
  /\ ll_suggest_scan_ranges ll (st_wallet (lp_store l0)) = inr (before ++ ranges).

(** A pass that got to the memos: the wallet suggested no more ranges, and
    nothing has been stored since. *)
Definition counted tip (st : Store W C) : Prop := exists l0,
  reached l0 /\ lp_pc l0 = LpCount tip /\ lp_store l0 = st /\ scanned_up (st_wallet st).

Definition came_from l : Prop :=
  match lp_pc l with
  | LpRanges tip ranges _ => suggested tip ranges
  | LpRange tip wallet_tip range ranges pipe =>
      suggested tip (range :: ranges) /\ sr_ignored range = false
      /\ wallet_tip = default (sr_start range) (ll_chain_height ll (st_wallet (lp_store l)))
      /\ exists msg, reachable lib (sr_start range) (sr_end range) wallet_tip tip
                       (pipe_start (sr_start range) (lp_store l) msg) pipe
  | LpCount tip => counted tip (lp_store l)
  | LpEnhance tip total enh => counted tip (lp_store l) /\ enhances tip total (st_wallet (lp_store l)) enh
  | LpCaughtUp tip =>
      exists st, counted tip st
        /\ (lp_store l = st
            \/ exists total enh, enhances tip total (st_wallet st) enh /\ en_pc enh = EnDone
               /\ lp_store l = mkStore (st_files st) (st_cache st) (ll_set_memo_db ll (st_wallet st) (en_db enh)))
  | _ => True
  end.

(** The points of the loop that ask for nothing. *)
Definition free_pc (pc : LoopPc W C K) : Prop :=
  match pc with
  | LpRanges _ _ _ | LpRange _ _ _ _ _ | LpCount _ | LpEnhance _ _ _ | LpCaughtUp _ => False
  | _ => True
  end.

Lemma free_came_from l : free_pc (lp_pc l) -> came_from l.
Proof using Type. unfold came_from. by destruct (lp_pc l). Qed.

Lemma back_off_free l : free_pc (lp_pc (back_off l)).
Proof using Type. done. Qed.

Lemma before_ranges_came_from a l l' :
  step a l = Some l' ->
  match lp_pc l with
  | LpPass _ _ | LpRanges _ _ _ | LpRange _ _ _ _ _ | LpCount _ | LpEnhance _ _ _ => True
  | _ => free_pc (lp_pc l')
  end.
Proof using Type.
  unfold step, loop_act. destruct (lp_pc l) eqn:Epc; try done; destruct a; try done; intros [= <-].
  - unfold tor_turn. repeat case_match; simpl; try done; by rewrite Epc.
  - unfold loop_prepare_turn. by case_match.
  - unfold open_turn. by case_match.
  - unfold open_turn. by case_match.
  - unfold open_turn. by case_match.
  - unfold backfill_turn. by repeat case_match.
  - unfold head_turn. by case_match.
  - unfold tip_turn. repeat case_match; try done; apply back_off_free.
  - unfold update_tip_turn. repeat case_match; try done; apply back_off_free.
  - unfold failed_turn. repeat case_match; try done; apply back_off_free.
  - done.
  - done.
  - unfold remove_cache_dir. by case_match.
Qed.

Lemma range_came_from tip ranges msg cancelled worker l :
  suggested tip ranges -> came_from (range_turn ll tip ranges msg cancelled worker l).
Proof using Type.
  intros Hs. unfold range_turn. destruct ranges as [|r rs]; [done|]. destruct cancelled; [done|].
  assert (suggested tip rs) as Hrs.
  { destruct Hs as (l0 & m & before & H0 & Hpc & Hsug). exists l0, m, (before ++ [r]). rewrite <- app_assoc. done. }
  destruct (sr_ignored r) eqn:Ei; [done|]. destruct worker; [|done].
  unfold came_from. simpl. split; [done|]. split; [done|]. split; [done|]. eexists. apply reach_start.
Qed.

Lemma left_came_from tip ranges e pipe l : suggested tip ranges -> came_from (range_left tip ranges e pipe l).
Proof using Type. intros Hs. unfold came_from. simpl. by destruct e as [| | | |[]]. Qed.

Lemma pass_came_from tip msg cancelled worker l :
  reached l -> lp_pc l = LpPass tip msg -> reached (pass_turn ll tip msg cancelled worker l) ->
  came_from (pass_turn ll tip msg cancelled worker l).
Proof using Type.
  intros Hl Hpc Hl'. unfold pass_turn in *. destruct cancelled; [done|]. destruct worker; [|done].
  destruct (ll_suggest_scan_ranges ll (st_wallet (lp_store l))) as [e|[|r rs]] eqn:Es; [done| |].
  - unfold came_from. simpl. eexists. split; [exact Hl'|]. by split_and!.
  - unfold came_from. simpl. exists l, msg, []. by rewrite Es.
Qed.

Lemma count_came_from tip c l : counted tip (lp_store l) -> came_from (count_turn ll order tip c l).
Proof using Type.
  intros Hc. unfold count_turn. cbv zeta. case_match; unfold came_from; simpl.
  - split; [done|]. by exists [].
  - exists (lp_store l). split; [done|]. by left.
Qed.

Lemma enh_run_snoc tip total acts a s s1 s2 :
  enh_run tx_read tx_decrypt order unreadable tip total acts s = Some s1 ->
  enh_act tx_read tx_decrypt order unreadable tip total a s1 = Some s2 ->
  enh_run tx_read tx_decrypt order unreadable tip total (acts ++ [a]) s = Some s2.
Proof using Type.
  revert s. induction acts as [|b acts IH]; intros s; simpl.
  - intros [= ->] ->. done.
  - intros (s3 & -> & H)%bind_Some Ha. simpl. by apply IH.
Qed.

Lemma step_came_from a l l' : reached l -> came_from l -> step a l = Some l' -> came_from l'.
Proof using reached_step.
  intros Hl Hc Ha. pose proof (reached_step a l l' Hl Ha) as Hl'. pose proof (before_ranges_came_from a l l' Ha) as Hf.
  unfold step, loop_act in Ha. unfold came_from in Hc.
  destruct (lp_pc l) eqn:Epc; try (by apply free_came_from); destruct a; try done.
  - injection Ha as <-. by apply pass_came_from.
  - injection Ha as <-. by apply range_came_from.
  - apply bind_Some in Ha as (pipe' & Ha & [= <-]). destruct Hc as (Hs & Hi & Hw & msg & Hr).
    unfold came_from. simpl. split_and!; [done|done|done|]. exists msg. by eapply reach_step.
  - destruct (pi_scan pipe); try done. injection Ha as <-. destruct Hc as ((l0 & m & before & H0 & Hpc & Hsug) & _).
    apply left_came_from. exists l0, m, (before ++ [range]). by rewrite <- app_assoc.
  - injection Ha as <-. by apply count_came_from.
  - apply bind_Some in Ha as (enh' & Ha & [= <-]). destruct Hc as [Hc (acts & Hr)].
    unfold came_from. simpl. split; [done|]. exists (acts ++ [a]). by eapply enh_run_snoc.
  - destruct (en_pc enh) eqn:Ee; try done. injection Ha as <-. destruct Hc as [Hc Hr].
    unfold came_from. simpl. exists (lp_store l). split; [done|]. right. by exists total, enh.
Qed.
End History.

(** *** Offline *)

Definition out_sleeps (o : list LoopOut) : list Z :=
  omap (fun x => match x with Sleep secs => Some secs | Update _ => None end) o.

(** The wait after [i] failures in a row. *)
Definition offline_wait (i : nat) : Z := Z.min MAX_POLL_BACKOFF (POLL_INTERVAL * 2 ^ Z.of_nat i).

(** [k] iterations that are not cancelled and in which the server is not reached. *)
Definition offline_acts (k : nat) : list (LoopAct K) :=
  concat (replicate k [LaHead false; LaTip None true]).

Lemma offline_wait_S i : offline_wait (S i) = Z.min (2 * offline_wait i) MAX_POLL_BACKOFF.
Proof using Type.
  unfold offline_wait, POLL_INTERVAL, MAX_POLL_BACKOFF. rewrite Nat2Z.inj_succ, Z.pow_succ_r by lia. lia.
Qed.

Lemma offline_turn l l' :
  lp_pc l = LpHead ->
  loop_run lib ll tx_read tx_decrypt order unreadable [LaHead false; LaTip None true] l = Some l' ->
  lp_pc l' = LpHead /\ lp_store l' = lp_store l
  /\ lp_backoff l' = Z.min (2 * lp_backoff l) MAX_POLL_BACKOFF
  /\ out_sleeps (lp_out l') = out_sleeps (lp_out l) ++ [lp_backoff l].
Proof using Type.
  intros Hpc (l1 & H1 & (l2 & H2 & [= <-])%bind_Some)%bind_Some. unfold loop_act in H1. rewrite Hpc in H1.
  injection H1 as <-. unfold loop_act, tip_turn in H2. simpl in H2.
  destruct (ll_chain_height _ _), (calculate_progress_and_height _ _) as [pct fs]; injection H2 as <-; simpl; split_and!; try done;
    unfold out_sleeps; by rewrite !omap_app, <- app_assoc.
Qed.

Lemma loop_run_app acts acts' l :
  loop_run lib ll tx_read tx_decrypt order unreadable (acts ++ acts') l =
  loop_run lib ll tx_read tx_decrypt order unreadable acts l
    ≫= loop_run lib ll tx_read tx_decrypt order unreadable acts'.
Proof using Type.
  revert l. induction acts as [|a acts IH]; intros l; simpl; [done|].
  by destruct (loop_act _ _ _ _ _ _ a l) as [l1|]; simpl.
Qed.

Lemma offline_turn_runs l :
  lp_pc l = LpHead ->
  is_Some (loop_run lib ll tx_read tx_decrypt order unreadable [LaHead false; LaTip None true] l).
Proof using Type.
  intros Hpc. simpl. unfold loop_act. rewrite Hpc. simpl. by eexists.
Qed.

Lemma offline_run i k l :
  lp_pc l = LpHead -> lp_backoff l = offline_wait i ->
  exists l', loop_run lib ll tx_read tx_decrypt order unreadable (offline_acts k) l = Some l'
    /\ lp_pc l' = LpHead /\ lp_store l' = lp_store l /\ lp_backoff l' = offline_wait (i + k)
    /\ out_sleeps (lp_out l') = out_sleeps (lp_out l) ++ map offline_wait (seq i k).
Proof using Type.
  revert i l. induction k as [|k IH]; intros i l Hpc Hb.
  - exists l. simpl. rewrite Nat.add_0_r, app_nil_r. done.
  - destruct (offline_turn_runs l Hpc) as [l1 H1].
    destruct (offline_turn l l1 Hpc H1) as (Hpc1 & Hs1 & Hb1 & Ho1).
    destruct (IH (S i) l1 Hpc1) as (l' & Hr & Hpc' & Hs' & Hb' & Ho').
    { by rewrite Hb1, Hb, offline_wait_S. }
    exists l'. split_and!; [|done|by rewrite Hs'|by rewrite Hb', Nat.add_succ_r|].
    + unfold offline_acts. simpl concat. change (?x :: ?y :: ?t) with ([x; y] ++ t).
      by rewrite loop_run_app, H1.
    + rewrite Ho', Ho1, Hb, <- app_assoc. done.
Qed.
End Task.

Section Theorems.
Context {W C K Tx : Type} (lib : ScanLib W C K) (ll : LoopLib W K).
Context (tx_read : Z -> string -> string + Tx)
        (tx_decrypt : Z -> Tx -> list (Z * string) * list (Z * string))
        (order : list string -> list string) (unreadable : string -> bool).
Let reached := loop_reachable (C := C) lib ll tx_read tx_decrypt order unreadable.
Implicit Types l : Loop W C K.

(** C32. Whatever the server, the databases and the blocking workers answer,
    and wherever the task is cancelled: every progress update that names a
    time to the next retry is followed at once by a sleep of exactly that
    time; it is 20 seconds after an error, and between 20 seconds and five
    minutes while the server cannot be reached. *)
Theorem sync_retries_announced (s : Store W C) l :
  reached (loop_start s) l ->
  announced (lp_out l) /\ POLL_INTERVAL <= lp_backoff l <= MAX_POLL_BACKOFF.
Proof using Type. intros [Hb _ Ho _]%loop_reachable_inv. done. Qed.

Lemma reached_came_from s l : reached (loop_start s) l -> came_from lib ll tx_read tx_decrypt order unreadable
  (reached (loop_start s)) l.
Proof using Type.
  induction 1 as [|l a l' Hl IH Ha]; [done|]. eapply step_came_from; [|exact Hl|exact IH|exact Ha].
  intros b l1 l2 H1 H2. by eapply loop_reach_step.
Qed.

(** C31. Where the sync task is, and how it got there, whatever the server,
    the databases and the workers answer and wherever it is cancelled.  When
    it is over, the last progress it reported is the idle one or the one of a
    lost worker, so that no wallet is left showing a scan that no longer runs
    (a task cancelled while it waits for Tor has reported nothing).  A range
    in the pipeline is one that the wallet suggested at the start of the pass,
    not an ignored one, and the pipeline began at its first block with what
    the loop had stored.  The memos are counted and fetched, and the wallet is
    reported as caught up, only in a pass for which the wallet suggested no
    more ranges, with nothing stored since but the memos of the enhancement
    phase run to its end. *)
Theorem sync_task_end_state (s : Store W C) l :
  reached (loop_start s) l ->
  match lp_pc l with
  | LpExit ExitTor => Forall (fun o => o = Sleep 1) (lp_out l)
  | LpExit _ =>
      exists p, last (lp_out l) = Some (Update p)
        /\ (p = default_progress \/ exists tip, p = worker_failed tip)
  | LpRange tip wallet_tip range ranges pipe =>
      suggested ll (reached (loop_start s)) tip (range :: ranges) /\ sr_ignored range = false
      /\ wallet_tip = default (sr_start range) (ll_chain_height ll (st_wallet (lp_store l)))
      /\ exists msg, reachable lib (sr_start range) (sr_end range) wallet_tip tip
                       (pipe_start (sr_start range) (lp_store l) msg) pipe
  | LpCount tip => counted ll (reached (loop_start s)) tip (lp_store l)
  | LpEnhance tip total enh =>
      counted ll (reached (loop_start s)) tip (lp_store l)
      /\ enhances ll tx_read tx_decrypt order unreadable tip total (st_wallet (lp_store l)) enh
  | LpCaughtUp tip =>
      exists st, counted ll (reached (loop_start s)) tip st
        /\ (lp_store l = st
            \/ exists total enh,
                 enhances ll tx_read tx_decrypt order unreadable tip total (st_wallet st) enh /\ en_pc enh = EnDone
                 /\ lp_store l = mkStore (st_files st) (st_cache st) (ll_set_memo_db ll (st_wallet st) (en_db enh)))
  | _ => True
  end.
Proof using Type.
  intros Hl. pose proof (reached_came_from s l Hl) as Hc. unfold came_from in Hc.
  apply loop_reachable_inv in Hl as [_ _ _ Hpc]. unfold pc_inv in Hpc. by destruct (lp_pc l).
Qed.

(** From an iteration of the loop that starts with the first back-off,
    [k] polls in a row that do not reach the server wait 20, 40, 80, 160 and
    then 300 seconds each, and leave the wallet and the block cache as they
    were. *)
Theorem offline_backoff_doubles (k : nat) l :
  lp_pc l = LpHead -> lp_backoff l = POLL_INTERVAL ->
  exists l', loop_run lib ll tx_read tx_decrypt order unreadable (offline_acts k) l = Some l'
    /\ lp_pc l' = LpHead /\ lp_store l' = lp_store l
    /\ out_sleeps (lp_out l') = out_sleeps (lp_out l) ++ map offline_wait (seq 0 k).
Proof using Type.
  intros Hpc Hb. destruct (offline_run lib ll tx_read tx_decrypt order unreadable 0 k l Hpc) as (l' & ? & ? & ? & _ & ?);
    [by rewrite Hb|]. eauto.
Qed.
End Theorems.

(** ** Concrete runs *)

(** A wallet that counts the batches it scanned, and asks for blocks 500 to
    800 until it has scanned one. *)
Definition demo_loop_lib : LoopLib nat unit :=
  mkLoopLib nat unit (fun w _ => (None, w))
    (fun w => if (w =? 0)%nat then inr [mkScanRange 500 800 false] else inr [])
    (fun _ => Some 800) (fun _ => inr []) (fun w _ _ => (None, w)) (fun _ => (0, 0))
    (fun _ => mkMemoDb [] [] []) (fun w _ => w).

Definition demo_loop_run : list (LoopAct unit) -> Loop nat unit unit -> option (Loop nat unit unit) :=
  loop_run (demo_lib (ScanOk 0 0 0 0)) demo_loop_lib demo_read demo_decrypt (fun l => l) (fun _ => false).

(** Up to the loop, past an unreachable server, to a scanned range. *)
Definition demo_loop_open : list (LoopAct unit) :=
  [LaTor false None; LaPrepare false; LaOpen true; LaOpen true; LaOpen true;
   LaBackfill (mkBackfillIo unit true (fun _ => TreeState tt) (fun _ => true))].
Definition demo_loop_scan : list (LoopAct unit) :=
  demo_loop_open ++ [LaHead false; LaTip None true; LaHead false; LaTip (Some 800) true;
    LaUpdateTip true true; LaPass false true; LaRange false true] ++ map LaPipe demo_acts.

(** ... and on to the next poll, which is cancelled. *)
Definition demo_loop_end : list (LoopAct unit) :=
  demo_loop_scan ++ [LaGoOn; LaRange false true; LaPass false true; LaCount (Ok tt); LaGoOn; LaGoOn;
    LaHead true; LaCleanup true].

Definition loop_reached (acts : list (LoopAct unit)) : option (Loop nat unit unit) :=
  demo_loop_run acts (loop_start demo_store).

Lemma demo_reachable acts l :
  loop_reached acts = Some l ->
  loop_reachable (demo_lib (ScanOk 0 0 0 0)) demo_loop_lib demo_read demo_decrypt (fun l => l) (fun _ => false)
    (loop_start demo_store) l.
Proof. apply loop_run_reachable. constructor. Qed.

Lemma sync_retries_announced_witness :
  exists l, loop_reached demo_loop_end = Some l /\ announced (lp_out l) /\ out_sleeps (lp_out l) = [20; 20].
Proof.
  destruct (loop_reached demo_loop_end) as [l|] eqn:E; [|vm_compute in E; discriminate E].
  exists l. split; [reflexivity|]. split.
  - apply (sync_retries_announced (demo_lib (ScanOk 0 0 0 0)) demo_loop_lib demo_read demo_decrypt (fun l => l)
      (fun _ => false) demo_store l). by apply (demo_reachable demo_loop_end).
  - vm_compute in E. injection E as <-. reflexivity.
Defined.

Lemma sync_task_end_state_witness :
  (exists l, loop_reached demo_loop_end = Some l /\ lp_pc l = LpExit ExitLoop
     /\ exists p, last (lp_out l) = Some (Update p)
        /\ (p = default_progress \/ exists tip, p = worker_failed tip))
  /\ (exists l range pipe ranges, loop_reached demo_loop_scan = Some l
     /\ lp_pc l = LpRange 800 800 range ranges pipe /\ sr_ignored range = false
     /\ exists msg, reachable (demo_lib (ScanOk 0 0 0 0)) 500 800 800 800 (pipe_start 500 (lp_store l) msg) pipe)
  /\ exists l, loop_reached (demo_loop_scan ++ [LaGoOn; LaRange false true; LaPass false true; LaCount (Ok tt)])
                = Some l /\ lp_pc l = LpCaughtUp 800 /\ exists w, scanned_up demo_loop_lib w.
Proof.
  split; [|split].
  - destruct (loop_reached demo_loop_end) as [l|] eqn:E; [|vm_compute in E; discriminate E].
    pose proof (sync_task_end_state (demo_lib (ScanOk 0 0 0 0)) demo_loop_lib demo_read demo_decrypt (fun l => l)
      (fun _ => false) demo_store l (demo_reachable _ _ E)) as H.
    assert (lp_pc l = LpExit ExitLoop) as Hpc by (vm_compute in E; by injection E as <-).
    rewrite Hpc in H. eauto.
  - destruct (loop_reached demo_loop_scan) as [l|] eqn:E; [|vm_compute in E; discriminate E].
    pose proof (sync_task_end_state (demo_lib (ScanOk 0 0 0 0)) demo_loop_lib demo_read demo_decrypt (fun l => l)
      (fun _ => false) demo_store l (demo_reachable _ _ E)) as H.
    assert (exists range ranges pipe, lp_pc l = LpRange 800 800 range ranges pipe
      /\ sr_start range = 500 /\ sr_end range = 800)
      as (range & ranges & pipe & Hpc & Hs & He).
    { vm_compute in E. injection E as <-. eexists _, _, _. split_and!; reflexivity. }
    rewrite Hpc, Hs, He in H. destruct H as (_ & Hi & _ & Hr). exists l, range, pipe, ranges. by split_and!.
  - destruct (loop_reached (demo_loop_scan ++ [LaGoOn; LaRange false true; LaPass false true; LaCount (Ok tt)]))
      as [l|] eqn:E; [|vm_compute in E; discriminate E].
    pose proof (sync_task_end_state (demo_lib (ScanOk 0 0 0 0)) demo_loop_lib demo_read demo_decrypt (fun l => l)
      (fun _ => false) demo_store l (demo_reachable _ _ E)) as H.
    assert (lp_pc l = LpCaughtUp 800) as Hpc by (vm_compute in E; by injection E as <-).
    rewrite Hpc in H. destruct H as (st & (l0 & _ & _ & _ & Hw) & _). exists l. split; [done|]. split; [done|].
    by exists (st_wallet st).
Defined.

Lemma offline_backoff_doubles_witness :
  exists l l', loop_reached demo_loop_open = Some l /\ demo_loop_run (offline_acts 7) l = Some l'
    /\ out_sleeps (lp_out l') = [20; 40; 80; 160; 300; 300; 300].
Proof.
  destruct (loop_reached demo_loop_open) as [l|] eqn:E; [|vm_compute in E; discriminate E].
  assert (lp_pc l = LpHead /\ lp_backoff l = POLL_INTERVAL /\ out_sleeps (lp_out l) = []) as (H1 & H2 & H3)
    by (vm_compute in E; by injection E as <-).
  destruct (offline_backoff_doubles (demo_lib (ScanOk 0 0 0 0)) demo_loop_lib demo_read demo_decrypt (fun l => l)
    (fun _ => false) 7 l H1 H2) as (l' & Hr & _ & _ & Ho).
  exists l, l'. split_and!; [done|done|]. by rewrite Ho, H3.
Defined.
