(* ===== verification/WalletManager.v ===== *)
(** The wallet manager ([wallet_manager.rs]): the life cycle of wallets
    (creating, restoring, loading, unlocking, locking, logging out), the
    backup challenge, the wallet status, and the preparation and execution
    of the operations that spend.

    [WalletLib] is the wallet library and SQLCipher: a wallet database is
    the contents of the file [wallet.sqlite], on which the library's calls
    are functions.  A connection is the path of its file.  Clocks, random
    draws and fresh identifiers are arguments.  The [TxService] that the
    source passes to each call, with its queue, the application database and
    the events, is the field [wm_tx]. *)
From S2P Require Import Prelude Text Domain AppDb Reauth Broadcast Servers BroadcastQueue Birthday Jobs.
From S2P Require Import Sends Shielding Encryption KeyStore Addresses.
From Stdlib Require Import QArith.
Open Scope Z_scope.

(** ** The wallet library *)

(** [AccountPurpose::Spending { derivation }]. *)
Definition Derivation : Type := option (string * Z).

Class WalletLib := {
  (** bip39: [Mnemonic::from_entropy], [parse_in_normalized] in English and
      [to_seed_normalized] with an empty passphrase; a mnemonic is its words. *)
  mnemonic_from_entropy : string -> string + list string;
  mnemonic_parse : string -> option (list string);
  mnemonic_to_seed : list string -> string;
  (** The Sapling activation height, [AccountId::try_from],
      [UnifiedSpendingKey::from_seed], [UnifiedFullViewingKey::decode],
      [hex::decode]. *)
  sapling_activation : Network -> Z;
  zip32_account_ok : Z -> bool;
  spending_key_from_seed : Network -> string -> Z -> string + string;
  ufvk_decode : Network -> string -> string + string;
  hex_decode : string -> string + string;
  (** [Connection::open], [PRAGMA key] and the first read: whether to create
      the file, the key, the file before; the file after. *)
  sql_open : bool -> string -> option string -> result unit * option string;
  (** [rusqlite::vtab::array::load_module]. *)
  sql_load_array : string + unit;
  (** [init_wallet_db], [create_account], [import_account_ufvk] and
      [update_chain_tip] on the contents of a database. *)
  db_init : string -> (string + unit) * string;
  db_create_account : string -> string -> Z -> string -> (string + unit) * string;
  db_import_ufvk : string -> string -> Z -> Derivation -> string -> string -> (string + unit) * string;
  db_update_chain_tip : Z -> string -> (string + unit) * string;
  (** [SELECT COUNT( * ) FROM sqlite_master]. *)
  db_check : string -> string + unit;
  (** [get_account_ids] and [get_account]. *)
  db_accounts : string -> string + list (string + option AccountView);
  (** [get_wallet_summary]: the unshielded total of each account. *)
  db_unshielded : string -> string + option (list Z);
}.

Section WalletManager.
Context `{C : Crypto} `{KS : KeyStore} `{WL : WalletLib}.
Context (wallets_root : string) (from_slice : string -> option QueuedBroadcastMeta)
        (url_parse : string -> Url + ParseError) (debug : bool) (env_var : option string).

(** ** State *)

Record ActiveWallet := mkActiveWallet {
  aw_wallet : WalletInfo;
  aw_wallet_dir : string;
  aw_lock_status : WalletLockStatus;
  aw_dek : option string;
  aw_wallet_db : option Path;
}.

Record BackupChallengeState := mkBackupChallengeState {
  bc_challenge_id : string;
  bc_indices : list Z;
  bc_expires_at : Z;
  bc_failed_attempts : Z;
}.

Record BackupChallenge := mkBackupChallenge {
  ch_challenge_id : string; ch_indices : list Z; ch_expires_at : Z;
}.

Record WM := mkWM {
  wm_tx : TxEnv;
  wm_active : option ActiveWallet;
  wm_reauth : Tokens;
  wm_jobs : World;
  wm_backup_challenges : gmap Uuid BackupChallengeState;
  wm_cached_balances : gmap (Uuid * Z) Balance;
  wm_cached_sync_status : gmap Uuid SyncStatus;
  wm_sync_stop_requested : gset Uuid;
  wm_last_emitted_status : gmap Uuid WalletStatus;
  wm_on_wallet_status : bool;
  wm_force_validate_fail : bool;
}.

Definition wm_set_tx (t : TxEnv) (s : WM) : WM :=
  mkWM t (wm_active s) (wm_reauth s) (wm_jobs s) (wm_backup_challenges s) (wm_cached_balances s)
    (wm_cached_sync_status s) (wm_sync_stop_requested s) (wm_last_emitted_status s)
    (wm_on_wallet_status s) (wm_force_validate_fail s).
Definition wm_set_active (a : option ActiveWallet) (s : WM) : WM :=
  mkWM (wm_tx s) a (wm_reauth s) (wm_jobs s) (wm_backup_challenges s) (wm_cached_balances s)
    (wm_cached_sync_status s) (wm_sync_stop_requested s) (wm_last_emitted_status s)
    (wm_on_wallet_status s) (wm_force_validate_fail s).
Definition wm_set_reauth (t : Tokens) (s : WM) : WM :=
  mkWM (wm_tx s) (wm_active s) t (wm_jobs s) (wm_backup_challenges s) (wm_cached_balances s)
    (wm_cached_sync_status s) (wm_sync_stop_requested s) (wm_last_emitted_status s)
    (wm_on_wallet_status s) (wm_force_validate_fail s).
Definition wm_set_jobs (j : World) (s : WM) : WM :=
  mkWM (wm_tx s) (wm_active s) (wm_reauth s) j (wm_backup_challenges s) (wm_cached_balances s)
    (wm_cached_sync_status s) (wm_sync_stop_requested s) (wm_last_emitted_status s)
    (wm_on_wallet_status s) (wm_force_validate_fail s).
Definition wm_set_challenges (c : gmap Uuid BackupChallengeState) (s : WM) : WM :=
  mkWM (wm_tx s) (wm_active s) (wm_reauth s) (wm_jobs s) c (wm_cached_balances s)
    (wm_cached_sync_status s) (wm_sync_stop_requested s) (wm_last_emitted_status s)
    (wm_on_wallet_status s) (wm_force_validate_fail s).
(** The four caches of observations and of the last status. *)
Definition wm_set_caches (b : gmap (Uuid * Z) Balance) (y : gmap Uuid SyncStatus) (r : gset Uuid)
    (l : gmap Uuid WalletStatus) (s : WM) : WM :=
  mkWM (wm_tx s) (wm_active s) (wm_reauth s) (wm_jobs s) (wm_backup_challenges s) b y r l
    (wm_on_wallet_status s) (wm_force_validate_fail s).

Definition wm_queue (s : WM) : QueueState := re_queue (te_retry (wm_tx s)).
Definition wm_db (s : WM) : AppDb := re_db (te_retry (wm_tx s)).
Definition wm_events (s : WM) : list Event := re_events (te_retry (wm_tx s)).

Definition on_tx {A} (m : M TxEnv A) : M WM A := m_zoom wm_tx wm_set_tx m.
Definition on_disk {A} (m : M QueueState A) : M WM A := on_tx (on_retry (on_queue m)).
Definition on_app_db {A} (m : M AppDb A) : M WM A := on_tx (on_retry (on_db m)).
Definition on_reauth {A} (m : M Tokens A) : M WM A := m_zoom wm_reauth wm_set_reauth m.

(** ** Errors *)

Definition wallet_locked : error := ipc_err errors.WALLET_LOCKED "wallet locked".
Definition wallet_not_found : error := ipc_err errors.WALLET_NOT_FOUND "wallet not found".
Definition invalid_password : error :=
  ipc_err errors.INVALID_WALLET_PASSWORD "invalid wallet password".

(** ** The active wallet *)

Definition is_unlocked (a : ActiveWallet) : bool :=
  bool_decide (aw_lock_status a = WalletLockStatus.Unlocked).

Definition require_unlocked_wallet_snapshot (wallet_id : Uuid) (s : WM) : result (WalletInfo * string) :=
  match wm_active s with
  | None => Err wallet_locked
  | Some active =>
      if negb (bool_decide (wi_id (aw_wallet active) = wallet_id)) then Err wallet_not_found
      else if negb (is_unlocked active) then Err wallet_locked
      else match aw_dek active with
           | None => Err wallet_locked
           | Some dek => Ok (aw_wallet active, dek)
           end
  end.

Definition require_unlocked_wallet_db (wallet_id : Uuid) (s : WM) : result (WalletInfo * Path) :=
  match wm_active s with
  | None => Err wallet_locked
  | Some active =>
      if negb (bool_decide (wi_id (aw_wallet active) = wallet_id)) then Err wallet_not_found
      else if negb (is_unlocked active) then Err wallet_locked
      else match aw_wallet_db active with
           | None => Err wallet_locked
           | Some conn => Ok (aw_wallet active, conn)
           end
  end.

Definition require_active_unlocked_wallet_db (s : WM) : result (WalletInfo * Path) :=
  match wm_active s with
  | None => Err wallet_locked
  | Some active =>
      if negb (is_unlocked active) then Err wallet_locked
      else match aw_wallet_db active with
           | None => Err wallet_locked
           | Some conn => Ok (aw_wallet active, conn)
           end
  end.

Definition unlocked_wallet_dek (wallet_id : Uuid) (s : WM) : result string :=
  '(_, dek) ← require_unlocked_wallet_snapshot wallet_id s; Ok dek.

Definition active_wallet_info (s : WM) : option WalletInfo := aw_wallet <$> wm_active s.

Definition is_active_wallet_unlocked (wallet_id : Uuid) (s : WM) : bool :=
  match wm_active s with
  | None => false
  | Some active => bool_decide (wi_id (aw_wallet active) = wallet_id) && is_unlocked active
  end.

Definition watch_only (wallet_id : Uuid) (s : WM) : bool :=
  match wm_active s with
  | Some active => bool_decide (wi_id (aw_wallet active) = wallet_id)
                   && bool_decide (wi_wallet_type (aw_wallet active) = WalletType.WatchOnly)
  | None => false
  end.

(** ** The wallet database file *)

Definition wallet_db_path (wallet_dir : string) : Path := (wallet_dir, "wallet.sqlite").
Definition wallet_db_snapshot_path (wallet_db_path : Path) : Path :=
  (wallet_db_path.1, wallet_db_path.2 +:+ ".pre_migration").

(** What the library writes; its directory exists. *)
Definition write_db (p : Path) (contents : option string) : M QueueState unit :=
  m_modify (fun q => match contents with
                     | Some c => q_set_disk q (alter (<[p.2 := c]>) p.1 (q_disk q))
                     | None => q
                     end).

(** [open_sqlcipher_db] (db/mod.rs). *)
Definition open_sqlcipher_db (p : Path) (dek : string) (create_if_missing load_array : bool)
    : M QueueState unit :=
  q ← m_get;
  let '(r, file) := sql_open create_if_missing dek (file_at q p) in
  write_db p file ;;
  m_lift r ;;
  if load_array then m_lift (anyhow_context "failed to load sqlite array module" sql_load_array)
  else mret tt.

(** A call of the library on the database of a connection. *)
Definition with_db (context : string) (p : Path) (f : string -> (string + unit) * string)
    : M QueueState unit :=
  q ← m_get;
  contents ← m_lift (ok_or (file_at q p) (AnyhowMsg "disk I/O error"));
  let '(r, contents') := f contents in
  write_db p (Some contents') ;;
  m_lift (anyhow_context context r).

Definition open_sqlcipher_connection (p : Path) (dek : string) (create_if_missing : bool)
    : M QueueState unit :=
  open_sqlcipher_db p dek create_if_missing false ;;
  m_context ("failed to set permissions on wallet db: " +:+ p.2) fs_call.

Definition validate_wallet_db (force_fail : bool) (p : Path) : M QueueState unit :=
  q ← m_get;
  contents ← m_lift (ok_or (file_at q p) (AnyhowMsg "disk I/O error"));
  m_lift (anyhow_context "wallet db validation query failed" (db_check contents)) ;;
  if force_fail then m_err (AnyhowMsg "wallet db validation forced failure") else mret tt.

(** [std::fs::copy]. *)
Definition fs_copy (src dst : Path) : M QueueState unit :=
  fs_call ;;
  q ← m_get;
  contents ← m_lift (ok_or (file_at q src) io_error);
  m_put (q_set_disk q (alter (<[dst.2 := contents]>) dst.1 (q_disk q))).

(** The closure [migrate_result]. *)
Definition migrate (force_fail : bool) (p : Path) (dek : string) (create_if_missing : bool)
    : M QueueState unit :=
  open_sqlcipher_connection p dek create_if_missing ;;
  m_lift (anyhow_context "failed to load sqlite array module" sql_load_array) ;;
  with_db "wallet db migration failed" p db_init ;;
  validate_wallet_db force_fail p.

Definition open_wallet_db_with_dek (force_fail : bool) (wallet_dir dek : string)
    (create_if_missing : bool) : M QueueState Path :=
  q ← m_get;
  (if create_if_missing || bool_decide (is_Some (q_disk q !! wallet_dir))
   then m_context ("failed to ensure wallet directory permissions: " +:+ wallet_dir)
          (create_dir_all_secure wallet_dir)
   else mret tt) ;;
  let db_path := wallet_db_path wallet_dir in
  let snapshot := wallet_db_snapshot_path db_path in
  q ← m_get;
  let existed := bool_decide (is_Some (file_at q db_path)) in
  (if existed then
     m_context ("failed to create pre-migration snapshot: " +:+ db_path.2 +:+ " -> " +:+ snapshot.2)
       (fs_copy db_path snapshot) ;;
     m_context ("failed to set permissions on pre-migration snapshot: " +:+ snapshot.2) fs_call
   else mret tt) ;;
  result ← m_try (migrate force_fail db_path dek create_if_missing);
  match result with
  | Ok _ =>
      (if existed then m_ignore (fs_remove_file snapshot) else mret tt) ;; mret db_path
  | Err err =>
      if existed then
        restored ← m_try (m_context ("failed to restore pre-migration snapshot: " +:+ snapshot.2
                                     +:+ " -> " +:+ db_path.2) (fs_copy snapshot db_path));
        (if is_ok restored then m_ignore fs_call else mret tt) ;;
        m_ignore (fs_remove_file snapshot) ;;
        match restored with
        | Ok _ => m_err err
        | Err restore_err =>
            m_err (AnyhowMsg (error_to_string err +:+ bytes [10%nat] +:+ error_to_string restore_err))
        end
      else m_err err
  end.

(** ** Status *)

Definition sum_saturating (l : list Z) : Z := foldl u64_saturating_add 0 l.

(** The loop over the [HashMap], in some order. *)
Definition cached_transparent_total_zat (wallet_id : Uuid) (s : WM) : option Z :=
  let own := filter (fun kv => kv.1.1 = wallet_id) (map_to_list (wm_cached_balances s)) in
  if bool_decide (own = []) then None
  else Some (sum_saturating
         (map (fun kv => default 0 (parse_uint u64_max (bal_transparent_total kv.2))) own)).

Definition transparent_total_from_wallet_db (wallet_id : Uuid) (s : WM) : result Z :=
  match require_unlocked_wallet_db wallet_id s with
  | Err _ => Ok 0
  | Ok (_, conn) =>
      contents ← ok_or (file_at (wm_queue s) conn) (AnyhowMsg "disk I/O error");
      summary ← anyhow_context "failed to compute wallet summary" (db_unshielded contents);
      Ok (match summary with None => 0 | Some totals => sum_saturating totals end)
  end.

Definition compute_wallet_status (wallet_id : Uuid) : M WM WalletStatus :=
  found ← on_app_db (get_wallet wallet_id);
  '(wallet, _) ← m_lift (ok_or found wallet_not_found);
  s ← m_get;
  let lock_status :=
    match wm_active s with
    | Some active => if bool_decide (wi_id (aw_wallet active) = wallet_id) then aw_lock_status active
                     else WalletLockStatus.Locked
    | None => WalletLockStatus.Locked
    end in
  required ← on_app_db (get_backup_required (wi_id wallet));
  let backup_required := default true required in
  s ← m_get;
  let transparent_total_zat :=
    match cached_transparent_total_zat wallet_id s with
    | Some v => v
    | None => match transparent_total_from_wallet_db wallet_id s with Ok v => v | Err _ => 0 end
    end in
  mret (mkWalletStatus lock_status
          (if backup_required then BackupAction.Required else BackupAction.Complete)
          (default SyncStatus.Synced (wm_cached_sync_status s !! wallet_id))
          (if 0 <? transparent_total_zat then ShieldAction.Available (uint_to_string transparent_total_zat)
           else ShieldAction.None_)
          (if backup_required || (0 <? transparent_total_zat) then PrivacyPosture.NeedsAction
           else PrivacyPosture.Optimal)).

Definition maybe_emit_wallet_status (wallet_id : Uuid) : M WM unit :=
  r ← m_try (compute_wallet_status wallet_id);
  match r with
  | Err _ => mret tt
  | Ok status =>
      s ← m_get;
      if bool_decide (wm_last_emitted_status s !! wallet_id = Some status) then mret tt else
      m_put (wm_set_caches (wm_cached_balances s) (wm_cached_sync_status s) (wm_sync_stop_requested s)
               (<[wallet_id := status]> (wm_last_emitted_status s)) s) ;;
      if wm_on_wallet_status s then on_tx (on_retry (emit (WalletStatusEvent status))) else mret tt
  end.

Definition set_wallet_status_handler (s : WM) : WM :=
  mkWM (wm_tx s) (wm_active s) (wm_reauth s) (wm_jobs s) (wm_backup_challenges s) (wm_cached_balances s)
    (wm_cached_sync_status s) (wm_sync_stop_requested s) (wm_last_emitted_status s) true
    (wm_force_validate_fail s).

Definition POLL_INTERVAL_secs : Z := 20.

(** The cached status of a progress report, and whether it ends a requested stop. *)
Definition status_of_progress (p : SyncProgress) : SyncStatus * bool :=
  match sp_phase p with
  | SyncPhase.Idle => (SyncStatus.Synced, true)
  | SyncPhase.Offline => (SyncStatus.Offline (default POLL_INTERVAL_secs (sp_retry_in_seconds p)), false)
  | SyncPhase.CatchingUp =>
      if (0 <? sp_wallet_tip_height p) && (sp_wallet_tip_height p <=? sp_scan_frontier_height p)
      then (SyncStatus.Synced, true)
      else (SyncStatus.Syncing (sp_progress_percent p), false)
  | SyncPhase.Error =>
      (SyncStatus.Error (default "Sync failed due to local error" (sp_error_message p)), false)
  | _ => (SyncStatus.Syncing (sp_progress_percent p), false)
  end.

Definition observe_sync_progress (wallet_id : Uuid) (progress : SyncProgress) : M WM unit :=
  m_modify (fun s =>
    let '(next, stopped) := status_of_progress progress in
    wm_set_caches (wm_cached_balances s) (<[wallet_id := next]> (wm_cached_sync_status s))
      (if stopped then wm_sync_stop_requested s ∖ {[wallet_id]} else wm_sync_stop_requested s)
      (wm_last_emitted_status s) s) ;;
  maybe_emit_wallet_status wallet_id.

Definition observe_sync_stop_requested (wallet_id : Uuid) : M WM unit :=
  m_modify (fun s => wm_set_caches (wm_cached_balances s) (wm_cached_sync_status s)
                       ({[wallet_id]} ∪ wm_sync_stop_requested s) (wm_last_emitted_status s) s).

Definition observe_balance_changed (wallet_id : Uuid) (account_id : Z) (balance : Balance) : M WM unit :=
  m_modify (fun s => wm_set_caches (<[(wallet_id, account_id) := balance]> (wm_cached_balances s))
                       (wm_cached_sync_status s) (wm_sync_stop_requested s)
                       (wm_last_emitted_status s) s) ;;
  maybe_emit_wallet_status wallet_id.

(** ** The backup challenge *)

(** The draws of [issue_backup_challenge]: the shuffled pool, the id, the clock. *)
Record ChallengeDraw := mkChallengeDraw { cd_pool : list Z; cd_id : string; cd_now_ms : Z }.

Definition CHALLENGE_TTL_MS : Z := 10 * 60 * 1000.

Definition issue_backup_challenge (d : ChallengeDraw) (wallet_id : Uuid) : M WM BackupChallenge :=
  found ← on_app_db (get_wallet wallet_id);
  m_lift (ok_or found wallet_not_found) ;;
  let indices := isort Z.leb (take 4 (cd_pool d)) in
  let expires_at := cd_now_ms d + CHALLENGE_TTL_MS in
  m_modify (fun s => wm_set_challenges
    (<[wallet_id := mkBackupChallengeState (cd_id d) indices expires_at 0]> (wm_backup_challenges s)) s) ;;
  mret (mkBackupChallenge (cd_id d) indices expires_at).

Definition no_backup_needed : error :=
  ipc_err errors.WATCH_ONLY_NO_BACKUP "no backup required for watch-only wallet".

Definition get_backup_challenge (d : ChallengeDraw) (wallet_id : Uuid) : M WM BackupChallenge :=
  s ← m_get;
  if watch_only wallet_id s then m_err no_backup_needed else issue_backup_challenge d wallet_id.

Definition decrypt_mnemonic (wallet_id : Uuid) (network : Network) (dek : string) : M WM string :=
  stored ← m_context "failed to read encrypted mnemonic"
             (on_disk (load_encrypted_mnemonic wallet_id network));
  b ← m_lift (ok_or stored (ipc_err errors.INTERNAL_ERROR "mnemonic not found"));
  plaintext ← m_lift (with_context "failed to decrypt mnemonic"
                        (decrypt_mnemonic_bytes wallet_id network dek b));
  if utf8_valid plaintext then mret plaintext
  else m_err (ipc_err errors.INTERNAL_ERROR "mnemonic plaintext is not valid UTF-8").

(** One challenged index: the answer matches up to white space and ASCII case. *)
Definition word_matches (words : list string) (answers : gmap Z string) (index : Z) : bool :=
  match (if 1 <=? index then words !! Z.to_nat (index - 1) else None), answers !! index with
  | Some expected, Some actual => eq_ignore_ascii_case (trim actual) expected
  | _, _ => false
  end.

Definition challenge_invalid : error :=
  ipc_err errors.BACKUP_CHALLENGE_INVALID "backup challenge invalid".
Definition too_many_attempts : error :=
  ipc_err errors.BACKUP_CHALLENGE_TOO_MANY_ATTEMPTS "too many failed attempts".

Definition drop_challenge (wallet_id : Uuid) : M WM unit :=
  m_modify (fun s => wm_set_challenges (delete wallet_id (wm_backup_challenges s)) s).

Definition verify_backup (now_ms : Z) (wallet_id : Uuid) (challenge_id : string)
    (word_challenges : gmap Z string) : M WM unit :=
  s ← m_get;
  if watch_only wallet_id s then m_err no_backup_needed else
  state ← m_lift (ok_or (wm_backup_challenges s !! wallet_id) challenge_invalid);
  if negb (bool_decide (bc_challenge_id state = challenge_id)) then m_err challenge_invalid
  else if bc_expires_at state <? now_ms
  then drop_challenge wallet_id ;;
       m_err (ipc_err errors.BACKUP_CHALLENGE_EXPIRED "backup challenge expired")
  else if 5 <=? bc_failed_attempts state
  then drop_challenge wallet_id ;; m_err too_many_attempts
  else
  '(wallet, dek) ← m_lift (require_unlocked_wallet_snapshot wallet_id s);
  phrase ← m_context "failed to decrypt mnemonic"
             (decrypt_mnemonic (wi_id wallet) (wi_network wallet) dek);
  let words := split_whitespace phrase in
  if negb (Nat.eqb (length words) 24)
  then m_err (ipc_err errors.INTERNAL_ERROR "invalid stored mnemonic")
  else if forallb (word_matches words word_challenges) (bc_indices state)
  then on_app_db (mark_backup_complete wallet_id now_ms "challenge") ;;
       drop_challenge wallet_id ;;
       maybe_emit_wallet_status wallet_id
  else
  s ← m_get;
  state ← m_lift (ok_or (wm_backup_challenges s !! wallet_id) challenge_invalid);
  let attempts := Z.min u8_max (bc_failed_attempts state + 1) in
  if 5 <=? attempts then drop_challenge wallet_id ;; m_err too_many_attempts
  else
  m_modify (fun s => wm_set_challenges
    (<[wallet_id := mkBackupChallengeState (bc_challenge_id state) (bc_indices state)
                      (bc_expires_at state) attempts]> (wm_backup_challenges s)) s) ;;
  m_err challenge_invalid.

(** ** Life cycle *)

(** The random draws, clocks and fresh ids of a call that creates a wallet. *)
Record Draws := mkDraws {
  dr_now_ms : Z;
  dr_now : Z;                 (* the clock of the queue scan *)
  dr_uuid : Uuid;
  dr_entropy : string;
  dr_dek : string;
  dr_salt_b64 : string;
  dr_nonce : string;
  dr_mnemonic_nonce : string;
  dr_challenge : ChallengeDraw;
}.

Definition scan_active (now : Z) (wallet_id : Uuid) (dir : string) : M WM unit :=
  m_context "failed to scan queued broadcasts"
    (on_disk (scan_queued_broadcasts from_slice now wallet_id dir)).

Definition set_active (a : option ActiveWallet) : M WM unit := m_modify (wm_set_active a).

Definition list_wallets_api : M WM (list WalletInfo) := on_app_db list_wallets.

(** The row of a wallet, whose directory must be the one of its network. *)
Definition find_wallet (wallet_id : Uuid) : M WM (WalletInfo * string) :=
  found ← on_app_db (get_wallet wallet_id);
  '(wallet, directory_path) ← m_lift (ok_or found wallet_not_found);
  if negb (bool_decide (directory_path = wallet_dir wallets_root (wi_id wallet) (wi_network wallet)))
  then m_err (ipc_err errors.INVALID_REQUEST "wallet directory does not match network")
  else mret (wallet, directory_path).

Definition load_wallet (now now_ms : Z) (wallet_id : Uuid) : M WM (WalletInfo * WalletLockStatus) :=
  '(wallet, dir) ← find_wallet wallet_id;
  on_app_db (update_last_opened_at wallet_id now_ms) ;;
  s ← m_get;
  match wm_active s with
  | Some active =>
      if bool_decide (wi_id (aw_wallet active) = wallet_id) && is_unlocked active
         && bool_decide (is_Some (aw_dek active)) && bool_decide (is_Some (aw_wallet_db active))
      then
        set_active (Some (mkActiveWallet wallet (aw_wallet_dir active) (aw_lock_status active)
                            (aw_dek active) (aw_wallet_db active))) ;;
        mret (wallet, WalletLockStatus.Unlocked)
      else
        set_active (Some (mkActiveWallet wallet dir WalletLockStatus.Locked None None)) ;;
        scan_active now (wi_id wallet) dir ;;
        maybe_emit_wallet_status (wi_id wallet) ;;
        mret (wallet, WalletLockStatus.Locked)
  | None =>
      set_active (Some (mkActiveWallet wallet dir WalletLockStatus.Locked None None)) ;;
      scan_active now (wi_id wallet) dir ;;
      maybe_emit_wallet_status (wi_id wallet) ;;
      mret (wallet, WalletLockStatus.Locked)
  end.

(** The checks that the three creations begin with. *)
Definition check_new_wallet (name password : string) : result unit :=
  if is_empty (trim name) then Err (ipc_err errors.INVALID_REQUEST "wallet name must not be empty")
  else if (50 <? chars_count name)%nat
  then Err (ipc_err errors.INVALID_REQUEST "wallet name must be at most 50 characters")
  else if is_empty password then Err (ipc_err errors.INVALID_REQUEST "password required")
  else Ok tt.

Definition new_wallet_info (d : Draws) (name : string) (ty : WalletType) (network : Network) : WalletInfo :=
  mkWalletInfo (dr_uuid d) name ty network false (dr_now_ms d) None.

(** From the directory to the wrapped key: [backup] is the statement on the
    backup status. *)
Definition register_wallet (d : Draws) (wallet : WalletInfo) (password : string)
    (backup : M AppDb unit) : M WM string :=
  let dir := wallet_dir wallets_root (wi_id wallet) (wi_network wallet) in
  m_context ("failed to create wallet directory: " +:+ dir) (on_disk (create_dir_all dir)) ;;
  on_app_db (insert_wallet wallet dir) ;;
  on_app_db backup ;;
  let kdf := default_kdf_params (dr_salt_b64 d) in
  let aead := default_aead_params (dr_nonce d) in
  wrapped ← m_lift (wrap_dek (wi_id wallet) (wi_network wallet) password kdf aead (dr_dek d));
  on_app_db (insert_wallet_encryption (wi_id wallet) (mkWalletEncryptionMeta kdf aead wrapped)) ;;
  mret dir.

(** [AccountBirthday::from_parts] of the chain state one block below: its height. *)
Definition account_birthday (birthday_height : Z) : Z := u32_saturating_sub birthday_height 1 + 1.

(** A fresh encrypted database with one account at [birthday]. *)
Definition init_database (dir dek : string) (add_account : Z -> string -> (string + unit) * string)
    (account_context : string) (birthday_height : Z) : M WM Path :=
  let birthday := account_birthday birthday_height in
  s ← m_get;
  conn ← m_context "failed to initialize encrypted wallet db"
           (on_disk (open_wallet_db_with_dek (wm_force_validate_fail s) dir dek true));
  on_disk (with_db account_context conn (add_account birthday)) ;;
  on_disk (with_db "failed to set initial chain tip" conn (db_update_chain_tip birthday)) ;;
  mret conn.

Definition insert_account (d : Draws) (wallet_id : Uuid) (account : AccountInfo) : M WM unit :=
  m_context "failed to insert account metadata"
    (on_app_db (upsert_account wallet_id account (dr_now_ms d))).

(** The new wallet becomes the active one. *)
Definition activate (d : Draws) (wallet : WalletInfo) (dir dek : string) (conn : Path) : M WM unit :=
  set_active (Some (mkActiveWallet wallet dir WalletLockStatus.Unlocked (Some dek) (Some conn))) ;;
  scan_active (dr_now d) (wi_id wallet) dir ;;
  maybe_emit_wallet_status (wi_id wallet).

(** [birthday_height.unwrap_or(sapling).max(sapling)]. *)
Definition birthday_or_sapling (network : Network) (birthday_height : option Z) : Z :=
  Z.max (default (sapling_activation network) birthday_height) (sapling_activation network).

Record CreateWalletResult := mkCreateWalletResult {
  cw_wallet : WalletInfo; cw_seed_phrase : list string; cw_backup_challenge : BackupChallenge;
}.

Definition create_wallet (d : Draws) (name : string) (network : Network) (password : string)
    (birthday_height : option Z) : M WM CreateWalletResult :=
  m_lift (check_new_wallet name password) ;;
  seed_phrase ← m_lift (match mnemonic_from_entropy (dr_entropy d) with
                        | inr m => Ok m
                        | inl e => Err (ipc_err errors.INTERNAL_ERROR
                                          ("failed to generate mnemonic: " +:+ e))
                        end);
  if negb (Nat.eqb (length seed_phrase) 24)
  then m_err (ipc_err errors.INTERNAL_ERROR "mnemonic must be 24 words") else
  let seed := mnemonic_to_seed seed_phrase in
  let wallet := new_wallet_info d name WalletType.Software network in
  dir ← register_wallet d wallet password (set_backup_required (wi_id wallet) true);
  conn ← init_database dir (dr_dek d) (fun b => db_create_account name seed b)
           "failed to create wallet account" (birthday_or_sapling network birthday_height);
  encrypted ← m_lift (with_context "failed to encrypt mnemonic"
    (encrypt_mnemonic (dr_mnemonic_nonce d) (wi_id wallet) network (dr_dek d) (join " " seed_phrase)));
  m_context "failed to store encrypted mnemonic"
    (on_disk (store_encrypted_mnemonic (wi_id wallet) network encrypted)) ;;
  insert_account d (wi_id wallet) (mkAccountInfo 0 name AccountType.Software) ;;
  backup_challenge ← issue_backup_challenge (dr_challenge d) (wi_id wallet);
  activate d wallet dir (dr_dek d) conn ;;
  mret (mkCreateWalletResult wallet seed_phrase backup_challenge).

Definition restore_wallet (d : Draws) (name : string) (network : Network)
    (password seed_phrase : string) (birthday_date_ms : option Z) : M WM (WalletInfo * Z) :=
  m_lift (check_new_wallet name password) ;;
  mnemonic ← m_lift (ok_or (mnemonic_parse (trim seed_phrase))
                       (ipc_err errors.INVALID_SEED_PHRASE "invalid seed phrase"));
  if negb (Nat.eqb (length mnemonic) 24)
  then m_err (ipc_err errors.INVALID_SEED_PHRASE "seed phrase must be 24 words") else
  let birthday_height := birthday_or_sapling network (estimate_birthday_height network <$> birthday_date_ms) in
  let wallet := new_wallet_info d name WalletType.Software network in
  dir ← register_wallet d wallet password
          (mark_backup_complete (wi_id wallet) (dr_now_ms d) "restore_seed_phrase");
  encrypted ← m_lift (with_context "failed to encrypt mnemonic"
    (encrypt_mnemonic (dr_mnemonic_nonce d) (wi_id wallet) network (dr_dek d) (join " " mnemonic)));
  conn ← init_database dir (dr_dek d) (fun b => db_create_account name (mnemonic_to_seed mnemonic) b)
           "failed to create wallet account" birthday_height;
  m_context "failed to store encrypted mnemonic"
    (on_disk (store_encrypted_mnemonic (wi_id wallet) network encrypted)) ;;
  insert_account d (wi_id wallet) (mkAccountInfo 0 name AccountType.Software) ;;
  activate d wallet dir (dr_dek d) conn ;;
  mret (wallet, birthday_height).

(** [zbag_keystone::ufvk::parse_ufvk]: mainnet is tried first. *)
Definition parse_ufvk (encoding : string) : string + (Network * string) :=
  match ufvk_decode Network.Mainnet encoding with
  | inr ufvk => inr (Network.Mainnet, ufvk)
  | inl _ =>
      match ufvk_decode Network.Testnet encoding with
      | inr ufvk => inr (Network.Testnet, ufvk)
      | inl err => inl err
      end
  end.

Definition parse_ufvk_for (network : Network) (ufvk : string) : result string :=
  match parse_ufvk ufvk with
  | inl e => Err (ipc_err errors.INVALID_UFVK e)
  | inr (net, parsed) =>
      if bool_decide (net = network) then Ok parsed
      else Err (ipc_err errors.INVALID_UFVK "UFVK network mismatch")
  end.

Definition account_purpose (seed_fingerprint : option string) (zip32_account_index : option Z)
    : result Derivation :=
  match seed_fingerprint, zip32_account_index with
  | Some fp_hex, Some idx =>
      match hex_decode fp_hex with
      | inl e => Err (ipc_err errors.INVALID_REQUEST ("invalid seed_fingerprint hex: " +:+ e))
      | inr fp_bytes =>
          if negb (Nat.eqb (String.length fp_bytes) 32)
          then Err (ipc_err errors.INVALID_REQUEST "seed_fingerprint must be 32 bytes")
          else if zip32_account_ok idx then Ok (Some (fp_bytes, idx))
          else Err (ipc_err errors.INVALID_REQUEST "invalid zip32_account_index")
      end
  | _, _ => Ok None
  end.

Definition create_keystone_wallet (d : Draws) (name : string) (network : Network)
    (password ufvk : string) (birthday_height : option Z) (seed_fingerprint : option string)
    (zip32_account_index : option Z) : M WM (WalletInfo * AccountInfo) :=
  m_lift (check_new_wallet name password) ;;
  parsed ← m_lift (parse_ufvk_for network ufvk);
  let wallet := new_wallet_info d name WalletType.WatchOnly network in
  dir ← register_wallet d wallet password
          (mark_backup_complete (wi_id wallet) (dr_now_ms d) "keystone_only");
  s ← m_get;
  conn ← m_context "failed to initialize encrypted wallet db"
           (on_disk (open_wallet_db_with_dek (wm_force_validate_fail s) dir (dr_dek d) true));
  let birthday := account_birthday (birthday_or_sapling network birthday_height) in
  purpose ← m_lift (account_purpose seed_fingerprint zip32_account_index);
  on_disk (with_db "failed to import UFVK into wallet db" conn
    (db_import_ufvk name parsed birthday purpose (key_source_for_account_id 0))) ;;
  on_disk (with_db "failed to set initial chain tip" conn (db_update_chain_tip birthday)) ;;
  let account := mkAccountInfo 0 name AccountType.HardwareSigner in
  insert_account d (wi_id wallet) account ;;
  activate d wallet dir (dr_dek d) conn ;;
  mret (wallet, account).

(** The stored parameters of a wallet, opened with a password. *)
Definition open_key (wallet : WalletInfo) (wallet_id : Uuid) (password : string) : M WM string :=
  found ← on_app_db (get_wallet_encryption wallet_id);
  meta ← m_lift (ok_or found
           (ipc_err errors.INTERNAL_ERROR "wallet encryption metadata not found"));
  m_lift (match unwrap_dek wallet_id (wi_network wallet) password (em_kdf meta) (em_aead meta)
                  (em_wrapped_dek_b64 meta) with
          | Ok dek => Ok dek
          | Err _ => Err invalid_password
          end).

(** The rest of [unlock_wallet], once the password has opened the key. *)
Definition finish_unlock (now : Z) (wallet_id : Uuid) (wallet : WalletInfo) (dir dek : string)
    : M WM WalletLockStatus :=
  s ← m_get;
  conn ← m_context "failed to open wallet db"
           (on_disk (open_wallet_db_with_dek (wm_force_validate_fail s) dir dek false));
  on_app_db (set_remember_unlock_enabled wallet_id false) ;;
  m_ignore (on_disk (delete_keychain_unlock_material wallet_id (wi_network wallet))) ;;
  set_active (Some (mkActiveWallet wallet dir WalletLockStatus.Unlocked (Some dek) (Some conn))) ;;
  scan_active now (wi_id wallet) dir ;;
  maybe_emit_wallet_status (wi_id wallet) ;;
  mret WalletLockStatus.Unlocked.

Definition unlock_wallet (now : Z) (wallet_id : Uuid) (password : string) : M WM WalletLockStatus :=
  '(wallet, dir) ← find_wallet wallet_id;
  dek ← open_key wallet wallet_id password;
  finish_unlock now wallet_id wallet dir dek.

Definition lock_wallet (wallet_id : Uuid) : M WM WalletLockStatus :=
  s ← m_get;
  match wm_active s with
  | None => mret WalletLockStatus.Locked
  | Some active =>
      if negb (bool_decide (wi_id (aw_wallet active) = wallet_id)) then mret (aw_lock_status active)
      else
        set_active (Some (mkActiveWallet (aw_wallet active) (aw_wallet_dir active)
                            WalletLockStatus.Locked None None)) ;;
        maybe_emit_wallet_status wallet_id ;;
        mret WalletLockStatus.Locked
  end.

Definition logout_wallet (wallet_id : Uuid) : M WM unit :=
  s ← m_get;
  match wm_active s with
  | None => m_err (ipc_err errors.WALLET_NOT_FOUND "no active wallet")
  | Some active =>
      if negb (bool_decide (wi_id (aw_wallet active) = wallet_id))
      then m_err (ipc_err errors.WALLET_NOT_FOUND "wallet not active")
      else
        m_put (wm_set_active None
          (wm_set_jobs (clear_finished_jobs (wm_jobs s) wallet_id)
          (wm_set_tx (clear_proposals_for_wallet wallet_id (wm_tx s))
          (wm_set_challenges (delete wallet_id (wm_backup_challenges s))
          (wm_set_caches (filter (fun kv => kv.1.1 <> wallet_id) (wm_cached_balances s))
             (delete wallet_id (wm_cached_sync_status s))
             (wm_sync_stop_requested s ∖ {[wallet_id]})
             (delete wallet_id (wm_last_emitted_status s)) s)))))
  end.

(** [token]: the fresh token of [ReauthManager::issue], [now] its clock. *)
Definition reauth_wallet (now : Z) (token : string) (wallet_id : Uuid) (password : string)
    (purpose : ReauthPurpose) : M WM (string * Z) :=
  if is_empty password then m_err (ipc_err errors.INVALID_REQUEST "password required") else
  found ← on_app_db (get_wallet wallet_id);
  '(wallet, _) ← m_lift (ok_or found wallet_not_found);
  open_key wallet wallet_id password ;;
  on_reauth (fun tokens => let '(out, tokens') := issue now token wallet_id purpose tokens in (Ok out, tokens')).

Definition view_seed_phrase (now : Z) (wallet_id : Uuid) (reauth_token : string) : M WM (list string) :=
  s ← m_get;
  if watch_only wallet_id s
  then m_err (ipc_err errors.WATCH_ONLY_NO_SEED "cannot view seed phrase for watch-only wallet") else
  on_reauth (consume_reauth_token now wallet_id reauth_token ReauthPurpose.ViewSeedPhrase) ;;
  s ← m_get;
  '(wallet, dek) ← m_lift (require_unlocked_wallet_snapshot wallet_id s);
  phrase ← m_context "failed to decrypt mnemonic"
             (decrypt_mnemonic (wi_id wallet) (wi_network wallet) dek);
  mret (split_whitespace phrase).

Definition derive_unified_spending_key (wallet_id : Uuid) (account_id : Z) : M WM string :=
  s ← m_get;
  '(wallet, dek) ← m_lift (require_unlocked_wallet_snapshot wallet_id s);
  phrase ← m_context "failed to decrypt mnemonic"
             (decrypt_mnemonic (wi_id wallet) (wi_network wallet) dek);
  mnemonic ← m_lift (ok_or (mnemonic_parse (trim phrase))
                       (ipc_err errors.INTERNAL_ERROR "invalid stored mnemonic"));
  if negb (zip32_account_ok account_id)
  then m_err (ipc_err errors.INVALID_REQUEST "invalid account_id")
  else m_lift (match spending_key_from_seed (wi_network wallet) (mnemonic_to_seed mnemonic) account_id with
               | inr k => Ok k
               | inl e => Err (ipc_err errors.INTERNAL_ERROR ("failed to derive spending key: " +:+ e))
               end).

(** ** Accounts *)

(** The accounts of a database, those that [get_account] does not find left out. *)
Fixpoint load_accounts (l : list (string + option AccountView)) : result (list AccountView) :=
  match l with
  | [] => Ok []
  | inl e :: _ => Err (Context "failed to load wallet account" (AnyhowMsg e))
  | inr None :: l' => load_accounts l'
  | inr (Some a) :: l' => rest ← load_accounts l'; Ok (a :: rest)
  end.

Definition accounts_of (conn : Path) (s : WM) : result (list AccountView) :=
  contents ← ok_or (file_at (wm_queue s) conn) (AnyhowMsg "disk I/O error");
  ids ← anyhow_context "failed to list wallet accounts" (db_accounts contents);
  load_accounts ids.

(** The tag of an account, or the index it was derived at when it has none. *)
Definition account_index (a : AccountView) : option Z :=
  match av_key_source a ≫= parse_account_id_from_key_source with
  | Some account_id => Some account_id
  | None => av_account_index a
  end.

(** [Vec::dedup]. *)
Fixpoint dedup (l : list Z) : list Z :=
  match l with
  | x :: (y :: _) as l' => if x =? y then dedup l' else x :: dedup l'
  | _ => l
  end.

Definition list_wallet_db_account_ids (wallet_id : Uuid) : M WM (list Z) :=
  s ← m_get;
  '(_, conn) ← m_lift (require_unlocked_wallet_db wallet_id s);
  accounts ← m_lift (accounts_of conn s);
  mret (dedup (isort Z.leb (omap account_index accounts))).

(** Both the tag and the derivation index of every account are taken. *)
Definition used_account_ids (accounts : list AccountView) : list Z :=
  flat_map (fun a => (option_list (av_key_source a ≫= parse_account_id_from_key_source)
                      ++ option_list (av_account_index a))%list) accounts.

Definition next_account_id (accounts : list AccountView) : Z :=
  u32_saturating_add (foldr Z.max 0 (used_account_ids accounts)) 1.

Definition import_ufvk (now_ms : Z) (wallet_id : Uuid) (ufvk name : string)
    (seed_fingerprint : option string) (zip32_account_index : option Z) : M WM AccountInfo :=
  let name := trim name in
  if is_empty name then m_err (ipc_err errors.INVALID_REQUEST "account name required") else
  s ← m_get;
  '(wallet, conn) ← m_lift (require_unlocked_wallet_db wallet_id s);
  parsed ← m_lift (parse_ufvk_for (wi_network wallet) ufvk);
  accounts ← m_lift (accounts_of conn s);
  let id := next_account_id accounts in
  let birthday := account_birthday (sapling_activation (wi_network wallet)) in
  purpose ← m_lift (account_purpose seed_fingerprint zip32_account_index);
  on_disk (with_db "failed to import UFVK into wallet db" conn
    (db_import_ufvk name parsed birthday purpose (key_source_for_account_id id))) ;;
  let account := mkAccountInfo id name AccountType.HardwareSigner in
  m_context "failed to insert account metadata"
    (on_app_db (upsert_account wallet_id account now_ms)) ;;
  mret account.

(** ** Preparing and executing spends *)

Record TxOperationContext := mkTxOperationContext {
  oc_wallet_id : Uuid; oc_network : Network; oc_wallet_dir : string; oc_dek : string;
  oc_grpc_url : string;
}.

Definition resolve_endpoint (network : Network) : M WM string :=
  m_context "failed to resolve active lightwalletd endpoint"
    (on_app_db (resolve_grpc_url url_parse debug network env_var)).

Definition get_tx_operation_context : M WM TxOperationContext :=
  s ← m_get;
  match wm_active s with
  | None => m_err wallet_locked
  | Some active =>
      if negb (is_unlocked active) then m_err wallet_locked else
      match aw_dek active with
      | None => m_err wallet_locked
      | Some dek =>
          let wallet := aw_wallet active in
          grpc_url ← resolve_endpoint (wi_network wallet);
          mret (mkTxOperationContext (wi_id wallet) (wi_network wallet) (aw_wallet_dir active) dek grpc_url)
      end
  end.

Definition open_wallet_db_for_tx (ctx : TxOperationContext) : M QueueState unit :=
  open_sqlcipher_db (wallet_db_path (oc_wallet_dir ctx)) (oc_dek ctx) false true.

Definition consume_token (now : Z) (wallet_id : Uuid) (token : string) : M WM unit :=
  on_reauth (consume_reauth_token now wallet_id token ReauthPurpose.Spend).

Definition active_or_locked (s : WM) : result ActiveWallet := ok_or (wm_active s) wallet_locked.

Definition is_watch_only_wallet (s : WM) : bool :=
  match wm_active s with
  | Some a => bool_decide (wi_wallet_type (aw_wallet a) = WalletType.WatchOnly)
  | None => false
  end.

Definition prepare_confirm_send (now : Z) (proposal_id reauth_token : string)
    : M WM (TxOperationContext * string) :=
  s ← m_get;
  active ← m_lift (active_or_locked s);
  if is_watch_only_wallet s
  then m_err (ipc_err errors.WATCH_ONLY_CANNOT_SPEND
                "cannot confirm send for watch-only wallet; use hardware signing flow") else
  let wallet_id := wi_id (aw_wallet active) in
  account_id ← on_tx (validate_proposal_for_wallet now proposal_id wallet_id);
  spending_key ← derive_unified_spending_key wallet_id account_id;
  consume_token now wallet_id reauth_token ;;
  ctx ← get_tx_operation_context;
  mret (ctx, spending_key).

Definition prepare_shield_funds (now : Z) (account_id : Z) (reauth_token : string)
    : M WM (TxOperationContext * string) :=
  s ← m_get;
  active ← m_lift (active_or_locked s);
  if is_watch_only_wallet s
  then m_err (ipc_err errors.WATCH_ONLY_CANNOT_SHIELD "shielding not supported for watch-only wallet") else
  let wallet_id := wi_id (aw_wallet active) in
  consume_token now wallet_id reauth_token ;;
  spending_key ← derive_unified_spending_key wallet_id account_id;
  ctx ← get_tx_operation_context;
  mret (ctx, spending_key).

Record ConfirmSendTask := mkConfirmSendTask {
  ct_ctx : TxOperationContext; ct_proposal_id : string; ct_account_id : Z;
  ct_summary : TransactionSummary; ct_expires_at : Z; ct_proposal : Proposal; ct_spending_key : string;
}.

Record ShieldFundsTask := mkShieldFundsTask {
  sf_ctx : TxOperationContext; sf_account_id : Z; sf_consolidate : bool; sf_spending_key : string;
}.

Record FinalizeSigningTask := mkFinalizeSigningTask {
  ft_ctx : TxOperationContext; ft_signing_request_id : string; ft_signed_payload : string;
  ft_pczt_with_proofs : string; ft_expires_at : Z;
}.

(** [open_app_db_connection] and [open_wallet_db_for_tx], before shared state is removed. *)
Definition preflight (what : string) (ctx : TxOperationContext) : M WM unit :=
  m_context ("failed to open app db for " +:+ what +:+ " preflight") (on_app_db db_stmt) ;;
  m_context ("failed to open wallet db for " +:+ what +:+ " preflight")
    (on_disk (open_wallet_db_for_tx ctx)).

Definition prepare_confirm_send_task (now : Z) (proposal_id reauth_token : string) : M WM ConfirmSendTask :=
  '(ctx, spending_key) ← prepare_confirm_send now proposal_id reauth_token;
  preflight "confirm send" ctx ;;
  '(account_id, summary, expires_at, proposal) ←
    on_tx (take_proposal_for_execution now proposal_id (oc_wallet_id ctx));
  mret (mkConfirmSendTask ctx proposal_id account_id summary expires_at proposal spending_key).

Definition prepare_shield_funds_task (now : Z) (account_id : Z) (consolidate : bool) (reauth_token : string)
    : M WM ShieldFundsTask :=
  '(ctx, spending_key) ← prepare_shield_funds now account_id reauth_token;
  mret (mkShieldFundsTask ctx account_id consolidate spending_key).

Definition prepare_finalize_signing_task (now : Z) (signing_request_id signed_payload reauth_token : string)
    : M WM FinalizeSigningTask :=
  s ← m_get;
  active ← m_lift (active_or_locked s);
  let wallet_id := wi_id (aw_wallet active) in
  consume_token now wallet_id reauth_token ;;
  ctx ← get_tx_operation_context;
  preflight "finalize signing" ctx ;;
  '(pczt_with_proofs, expires_at) ←
    on_tx (take_pending_signing_request_for_execution now signing_request_id wallet_id);
  mret (mkFinalizeSigningTask ctx signing_request_id signed_payload pczt_with_proofs expires_at).

(** A task runs in a [TxService] of its own: it shares the disk, the
    database and the network with the manager, not the proposals, the
    signing requests or the index of the queue. *)
Definition in_fresh_service {A} (m : M TxEnv A) : M TxEnv A := fun e =>
  let r := te_retry e in
  let q := re_queue r in
  let fresh := mkTxEnv ∅ ∅ (mkRetryEnv (q_set_mem q ∅) (re_db r) (re_events r) (re_sends r)) in
  let '(out, e') := m fresh in
  let r' := te_retry e' in
  (out, mkTxEnv (te_proposals e) (te_pending e)
          (mkRetryEnv (q_set_mem (re_queue r') (q_mem q)) (re_db r') (re_events r') (re_sends r'))).

(** serde, the gRPC sends and the draws of one execution, as in [Sends]. *)
Context (to_vec_pretty : QueuedBroadcastMeta -> string) (fl : Q -> Q)
        (send : nat -> string -> string -> option (result unit))
        (nonce : string -> string) (offset_ms : string -> Q).

Definition execute_prepared_confirm_send_task (io : SendIo) (now now_ms : Z) (task : ConfirmSendTask)
    (on_tx_changed : bool) : M TxEnv string :=
  let ctx := ct_ctx task in
  on_retry (on_queue (open_wallet_db_for_tx ctx)) ;;
  in_fresh_service (
    m_modify (import_proposal_for_execution (ct_proposal_id task) (oc_wallet_id ctx) (ct_account_id task)
                (ct_summary task) (ct_expires_at task) (ct_proposal task)) ;;
    confirm_send to_vec_pretty from_slice aead_encrypt fl send nonce offset_ms io now now_ms
      (oc_wallet_id ctx) (oc_wallet_dir ctx) (oc_dek ctx) (oc_grpc_url ctx) (ct_proposal_id task)
      on_tx_changed).

Definition execute_prepared_finalize_signing_task (io : SendIo) (now : Z) (task : FinalizeSigningTask)
    : M TxEnv string :=
  let ctx := ft_ctx task in
  m_context "failed to open app db for finalize signing" (on_retry (on_db db_stmt)) ;;
  on_retry (on_queue (open_wallet_db_for_tx ctx)) ;;
  in_fresh_service (
    m_modify (import_pending_signing_request_for_execution (ft_signing_request_id task)
                (oc_wallet_id ctx) (ft_pczt_with_proofs task) (ft_expires_at task)) ;;
    Sends.finalize_signing to_vec_pretty from_slice aead_encrypt fl send nonce offset_ms io now
      (oc_wallet_id ctx) (oc_wallet_dir ctx) (oc_dek ctx) (oc_grpc_url ctx)
      (ft_signing_request_id task) (ft_signed_payload task)).

Definition execute_prepared_shield_funds_task (io : ShieldIo) (now now_ms : Z) (task : ShieldFundsTask)
    (on_tx_changed : bool) : M TxEnv (option ShieldFundsResponse) :=
  let ctx := sf_ctx task in
  on_retry (on_queue (open_wallet_db_for_tx ctx)) ;;
  in_fresh_service (
    shield_funds to_vec_pretty from_slice aead_encrypt fl send nonce offset_ms io now now_ms
      (oc_wallet_id ctx) (oc_wallet_dir ctx) (oc_dek ctx) (oc_grpc_url ctx) (sf_account_id task)
      on_tx_changed).

(** *** Direct calls *)

Definition wm_get_receive_address (io : AddressIo) (account_id : Z) (address_type : AddressType) (now_ms : Z)
    : M WM AddressInfo :=
  s ← m_get;
  '(wallet, _) ← m_lift (require_active_unlocked_wallet_db s);
  on_app_db (get_receive_address io (wi_id wallet) account_id address_type now_ms).

Definition wm_get_balance (io : SendIo) (account_id : Z) : M WM Balance :=
  s ← m_get;
  m_lift (require_active_unlocked_wallet_db s) ;;
  m_lift (get_balance io account_id).

Definition wm_prepare_send (max_money : Z) (io : SendIo) (now : Z) (proposal_id : string) (account_id : Z)
    (recipient amount_zat : string) (memo : option string) (allow_transparent_recipient : bool)
    : M WM PrepareSendResponse :=
  s ← m_get;
  '(wallet, _) ← m_lift (require_active_unlocked_wallet_db s);
  on_tx (prepare_send max_money io now proposal_id (wi_id wallet) account_id recipient amount_zat memo
           allow_transparent_recipient).

Definition wm_build_signing_request (max_money : Z) (io : SendIo) (now : Z) (signing_request_id : string)
    (account_id : Z) (recipient amount_zat : string) (memo : option string)
    (allow_transparent_recipient : bool) : M WM SigningRequest :=
  s ← m_get;
  '(wallet, _) ← m_lift (require_active_unlocked_wallet_db s);
  on_tx (build_signing_request max_money io now signing_request_id (wi_id wallet) account_id recipient
           amount_zat memo allow_transparent_recipient).

Definition wm_finalize_signing (io : SendIo) (now : Z) (signing_request_id signed_payload reauth_token : string)
    : M WM string :=
  s ← m_get;
  active ← m_lift (active_or_locked s);
  let wallet := aw_wallet active in
  dek ← m_lift (unlocked_wallet_dek (wi_id wallet) s);
  consume_token now (wi_id wallet) reauth_token ;;
  grpc_url ← resolve_endpoint (wi_network wallet);
  s ← m_get;
  m_lift (require_active_unlocked_wallet_db s) ;;
  on_tx (Sends.finalize_signing to_vec_pretty from_slice aead_encrypt fl send nonce offset_ms io now
           (wi_id wallet) (aw_wallet_dir active) dek grpc_url signing_request_id signed_payload).

Definition wm_list_transactions (txid_display : string -> string) (memo_rows : string -> list string)
    (memo_parse : string -> option Memo) (io : SendIo) (rows : string -> list ViewRow)
    (chain_height : option Z) (now now_ms : Z) (account_id : Z) (limit offset : nat)
    : M WM (list TransactionInfo * Z) :=
  s ← m_get;
  active ← m_lift (active_or_locked s);
  '(wallet, _) ← m_lift (require_active_unlocked_wallet_db s);
  on_tx (list_transactions from_slice txid_display memo_rows memo_parse io rows chain_height now now_ms
           (wi_id wallet) (aw_wallet_dir active) account_id limit offset).

(** *** Retrying a queued broadcast *)

Record RetryBroadcastTask := mkRetryBroadcastTask {
  rt_txid : string;
  rt_user_intent_confirmed : bool;
  rt_wallet_id : Uuid;
  rt_wallet_network : Network;
  rt_wallet_dir : string;
  rt_wallet_db_path : Path;
  rt_wallet_dek : string;
  rt_grpc_url : string;
}.

Definition build_retry_broadcast_task (txid : string) (user_intent_confirmed : bool)
    : M WM RetryBroadcastTask :=
  s ← m_get;
  active ← m_lift (active_or_locked s);
  if negb (is_unlocked active) then m_err wallet_locked else
  let wallet := aw_wallet active in
  dek ← m_lift (unlocked_wallet_dek (wi_id wallet) s);
  grpc_url ← resolve_endpoint (wi_network wallet);
  mret (mkRetryBroadcastTask txid user_intent_confirmed (wi_id wallet) (wi_network wallet)
          (aw_wallet_dir active) (wallet_db_path (aw_wallet_dir active)) dek grpc_url).

Definition prepare_retry_broadcast_task (now : Z) (txid reauth_token : string) : M WM RetryBroadcastTask :=
  s ← m_get;
  active ← m_lift (active_or_locked s);
  consume_token now (wi_id (aw_wallet active)) reauth_token ;;
  build_retry_broadcast_task txid true.

Definition prepare_next_queued_broadcast_retry_task (now1 now2 : Z) : M WM (option RetryBroadcastTask) :=
  s ← m_get;
  match wm_active s with
  | None => mret None
  | Some active =>
      if negb (is_unlocked active) then mret None else
      let wallet_id := wi_id (aw_wallet active) in
      let dir := aw_wallet_dir active in
      on_disk (scan_queued_broadcasts from_slice now1 wallet_id dir) ;;
      due ← on_disk (list_due_retry_txids from_slice now2 wallet_id dir);
      match due with
      | [] => mret None
      | txid :: _ => task ← build_retry_broadcast_task txid false; mret (Some task)
      end
  end.

Definition ensure_retry_task_wallet_state (task : RetryBroadcastTask) (s : WM) : result unit :=
  match wm_active s with
  | None => Err wallet_locked
  | Some active =>
      if is_unlocked active
         && bool_decide (wi_id (aw_wallet active) = rt_wallet_id task)
         && bool_decide (wi_network (aw_wallet active) = rt_wallet_network task)
         && bool_decide (aw_wallet_dir active = rt_wallet_dir task)
         && bool_decide (is_Some (aw_dek active)) && bool_decide (is_Some (aw_wallet_db active))
      then Ok tt else Err wallet_locked
  end.

Definition ensure_retry_task_user_intent (task : RetryBroadcastTask) : result unit :=
  if rt_user_intent_confirmed task then Ok tt
  else Err (ipc_err errors.REAUTH_REQUIRED "retry broadcast requires explicit reauth").

Definition validate_retry_broadcast_task (task : RetryBroadcastTask) (s : WM) : result unit :=
  ensure_retry_task_wallet_state task s ≫= fun _ => ensure_retry_task_user_intent task.

(** What [TxService::retry_broadcast] asks of its surroundings. *)
Record RetryIo := mkRetryIo {
  ri_hex_ok : string -> bool;
  ri_sender : string -> result (option Z);
  ri_history : result (list TransactionInfo);
  ri_probe_ok : string -> bool;
  ri_now1 : Z; ri_now2 : Z; ri_now3 : Z;
  ri_offset : Q;
}.

Definition execute_retry_broadcast_task_unchecked (io : RetryIo) (task : RetryBroadcastTask)
    (on_tx_changed on_failover : bool) : M TxEnv string :=
  m_context "failed to open app db for retry broadcast" (on_retry (on_db db_stmt)) ;;
  m_context ("failed to open wallet db for retry broadcast: " +:+ (rt_wallet_db_path task).2)
    (on_retry (on_queue (open_sqlcipher_db (rt_wallet_db_path task) (rt_wallet_dek task) false true))) ;;
  in_fresh_service (on_retry (
    retry_broadcast to_vec_pretty from_slice aead_decrypt fl send url_parse debug (ri_probe_ok io)
      (ri_hex_ok io) (ri_sender io) (ri_history io) (ri_now1 io) (ri_now2 io) (ri_now3 io) (ri_offset io)
      (rt_wallet_id task) (rt_wallet_network task) (rt_wallet_dir task) (rt_wallet_dek task)
      (rt_grpc_url task) (rt_txid task) on_tx_changed on_failover 2)).

Definition execute_prepared_retry_broadcast_task (io : RetryIo) (task : RetryBroadcastTask)
    (on_tx_changed on_failover : bool) : M TxEnv string :=
  m_lift (ensure_retry_task_user_intent task) ;;
  execute_retry_broadcast_task_unchecked io task on_tx_changed on_failover.

Definition execute_retry_broadcast_task (io : RetryIo) (task : RetryBroadcastTask)
    (on_tx_changed on_failover : bool) : M WM string :=
  s ← m_get;
  m_lift (validate_retry_broadcast_task task s) ;;
  on_tx (execute_prepared_retry_broadcast_task io task on_tx_changed on_failover).

Definition wm_retry_broadcast (io : RetryIo) (now : Z) (txid reauth_token : string)
    (on_tx_changed on_failover : bool) : M WM string :=
  task ← prepare_retry_broadcast_task now txid reauth_token;
  execute_retry_broadcast_task io task on_tx_changed on_failover.

Definition process_queued_broadcast_retries (io : RetryIo) (now1 now2 : Z)
    (on_tx_changed on_failover : bool) : M WM nat :=
  found ← prepare_next_queued_broadcast_retry_task now1 now2;
  match found with
  | None => mret 0%nat
  | Some t =>
      let task := mkRetryBroadcastTask (rt_txid t) true (rt_wallet_id t) (rt_wallet_network t)
                    (rt_wallet_dir t) (rt_wallet_db_path t) (rt_wallet_dek t) (rt_grpc_url t) in
      r ← m_try (execute_retry_broadcast_task io task on_tx_changed on_failover);
      mret (if is_ok r then 1%nat else 0%nat)
  end.

(** ** Background jobs *)

(** [JobService::start_send_job] and [start_shield_job]: the job is spawned,
    then registered; [Jobs] lets the task run in between. *)
Definition spawn_job (job_id : string) (ctx : JobContext) (io : JobIo) (w : World) : World :=
  let w := start_job w job_id ctx io in default w (register_job w job_id).

(** A job works on its proposal; [io_of] is what it will see of the
    libraries with this proposal and key. *)
Definition start_send_job (io_of : Proposal -> string -> string -> JobIo) (now : Z)
    (job_id proposal_id reauth_token : string) (on_progress on_tx_changed : bool) : M WM string :=
  s ← m_get;
  active ← m_lift (active_or_locked s);
  if is_watch_only_wallet s
  then m_err (ipc_err errors.WATCH_ONLY_CANNOT_SPEND
                "cannot send from watch-only wallet; use hardware signing flow") else
  let wallet := aw_wallet active in
  dek ← m_lift (unlocked_wallet_dek (wi_id wallet) s);
  account_id ← on_tx (validate_proposal_for_wallet now proposal_id (wi_id wallet));
  spending_key ← derive_unified_spending_key (wi_id wallet) account_id;
  consume_token now (wi_id wallet) reauth_token ;;
  grpc_url ← resolve_endpoint (wi_network wallet);
  taken ← on_tx (fun e => let '(p, e') := take_proposal proposal_id e in (Ok p, e'));
  proposal ← m_lift (ok_or taken
    (ipc_err errors.PROPOSAL_NOT_FOUND "proposal not found or expired"));
  m_modify (fun s => wm_set_jobs (spawn_job job_id
    (mkJobContext JobType.Send (wi_id wallet) (aw_wallet_dir active) dek account_id on_progress on_tx_changed)
    (io_of proposal spending_key grpc_url) (wm_jobs s)) s) ;;
  mret job_id.

Definition start_shield_job (io_of : bool -> string -> string -> JobIo) (now : Z) (job_id : string)
    (account_id : Z) (consolidate : bool) (reauth_token : string) (on_progress on_tx_changed : bool)
    : M WM string :=
  s ← m_get;
  active ← m_lift (active_or_locked s);
  if is_watch_only_wallet s
  then m_err (ipc_err errors.WATCH_ONLY_CANNOT_SHIELD "shielding not supported for watch-only wallet") else
  let wallet := aw_wallet active in
  dek ← m_lift (unlocked_wallet_dek (wi_id wallet) s);
  consume_token now (wi_id wallet) reauth_token ;;
  spending_key ← derive_unified_spending_key (wi_id wallet) account_id;
  grpc_url ← resolve_endpoint (wi_network wallet);
  m_modify (fun s => wm_set_jobs (spawn_job job_id
    (mkJobContext JobType.Shield (wi_id wallet) (aw_wallet_dir active) dek account_id on_progress on_tx_changed)
    (io_of consolidate spending_key grpc_url) (wm_jobs s)) s) ;;
  maybe_emit_wallet_status (wi_id wallet) ;;
  mret job_id.

Definition wm_cancel_job (job_id : string) : M WM bool := fun s =>
  let '(cancelled, w) := cancel_job (wm_jobs s) job_id in (Ok cancelled, wm_set_jobs w s).

Definition get_job_status (job_id : string) (s : WM) : result JobProgress :=
  ok_or (get_progress (wm_jobs s) job_id) (ipc_err errors.JOB_NOT_FOUND "job not found").

Definition wm_list_jobs (s : WM) : list JobProgress :=
  match wm_active s with
  | None => []
  | Some active => list_jobs (wm_jobs s) (wi_id (aw_wallet active))
  end.
End WalletManager.

(** ** The birthday of a new wallet *)

Definition NEW_WALLET_BIRTHDAY_MARGIN : Z := 100.

(** [tip]: the answer of [get_latest_block]. *)
Definition fetch_birthday_height_for_new_wallet (tip : string + Z) : option Z :=
  match tip with
  | inr tip_height => Some (u32_saturating_sub tip_height NEW_WALLET_BIRTHDAY_MARGIN)
  | inl _ => None
  end.
