(* ===== verification/WalletFrames.v ===== *)
(** What the operations of the wallet manager leave alone, by the rules of
    [m_pres]: statements of the database only add encryption parameters
    ([enc_grows]), and every operation outside the life cycle of wallets
    keeps the active wallet ([keeps]). *)
From S2P Require Import Prelude Text Domain AppDb Reauth Broadcast Servers BroadcastQueue Jobs.
From S2P Require Import Sends Shielding Encryption KeyStore WalletManager.
From Stdlib Require Import QArith.
Open Scope Z_scope.

(** ** What the statements of the database preserve *)

(** Encryption parameters are only ever added, a wallet keeps its type,
    network and directory, and the swaps are left alone. *)
Record enc_grows (db db' : AppDb) : Prop := {
  eg_encryption : exists l, adb_encryption db' = (adb_encryption db ++ l)%list;
  eg_wallets w r : find_first (wallet_id_is w) (adb_wallets db) = Some r ->
    exists r', find_first (wallet_id_is w) (adb_wallets db') = Some r'
      /\ wr_network r' = wr_network r /\ wr_wallet_type r' = wr_wallet_type r
      /\ wr_directory_path r' = wr_directory_path r;
  eg_swaps : adb_swaps db' = adb_swaps db;
}.

#[global] Instance enc_grows_preorder : PreOrder enc_grows.
Proof.
  split; [intros db; split; [exists []; by rewrite app_nil_r|eauto 10|done]|].
  intros a b c [[l1 H1] G1 S1] [[l2 H2] G2 S2].
  split; [exists (l1 ++ l2)%list; by rewrite H2, H1, app_assoc| |congruence].
  intros w r (r1 & E1 & ? & ? & ?)%G1. destruct (G2 w r1 E1) as (r2 & E2 & ? & ? & ?).
  exists r2. repeat split; [done|congruence..].
Qed.

Lemma enc_same db db' :
  adb_encryption db' = adb_encryption db -> adb_wallets db' = adb_wallets db -> adb_swaps db' = adb_swaps db ->
  enc_grows db db'.
Proof. intros H Hw Hs. split; [exists []; by rewrite app_nil_r| |done]. intros w r Hr. rewrite Hw. eauto 10. Qed.

Lemma find_first_app_l {A} (p : A -> bool) l l' x :
  find_first p l = Some x -> find_first p (l ++ l') = Some x.
Proof. induction l; simpl; [done|]. case_match; auto. Qed.

Lemma find_first_map {A} (p : A -> bool) f l :
  (forall x, p (f x) = p x) -> find_first p (map f l) = f <$> find_first p l.
Proof. intros Hf. induction l; simpl; [done|]. rewrite Hf. by case_match. Qed.

(** Follows a statement that leaves the two tables alone. *)
Ltac stmt_same :=
  intros db; apply enc_same;
  unfold db_require, mbind, M_bind, m_get, m_put, m_modify, m_err, m_lift, mret, M_ret;
  repeat (db_step; match goal with H : _ = Ok tt \/ _ = Err _ |- _ => destruct H as [-> | ->] end);
  repeat case_match; simplify_eq/=; congruence.

Lemma db_stmt_grows : m_pres enc_grows db_stmt.
Proof. intros db. db_step. by apply enc_same. Qed.
#[export] Hint Resolve db_stmt_grows : zbag.

Lemma get_wallet_grows w : m_pres enc_grows (get_wallet w).
Proof. unfold get_wallet. stmt_same. Qed.
Lemma list_wallets_grows : m_pres enc_grows list_wallets.
Proof. unfold list_wallets. stmt_same. Qed.
Lemma insert_wallet_grows w dir : m_pres enc_grows (insert_wallet w dir).
Proof.
  intros db. unfold insert_wallet, db_require, mbind, M_bind, m_get, m_put, m_err, mret, M_ret.
  db_step. destruct Hr as [-> | ->]; [|by apply enc_same]. destruct (negb _); [|by apply enc_same].
  split; simpl; [exists []; by rewrite app_nil_r| |done]. intros w' r Hr. rewrite Hwal.
  exists r. split; [by apply find_first_app_l|done].
Qed.

Lemma update_wallet_row_grows w f :
  (forall r, wr_id (f r) = wr_id r /\ wr_network (f r) = wr_network r
     /\ wr_wallet_type (f r) = wr_wallet_type r /\ wr_directory_path (f r) = wr_directory_path r) ->
  m_pres enc_grows (update_wallet_row w f).
Proof.
  intros Hf db. unfold update_wallet_row, mbind, M_bind, m_modify.
  db_step. destruct Hr as [-> | ->]; [|by apply enc_same].
  split; simpl; [exists []; by rewrite app_nil_r| |done]. intros w' r Hr.
  rewrite find_first_map, Hwal, Hr.
  - simpl. eexists. split; [done|]. destruct (wallet_id_is w r); [|done].
    destruct (Hf r) as (_ & ? & ? & ?). done.
  - intros x. unfold wallet_id_is at 2. destruct (bool_decide (wr_id x = w)) eqn:E.
    + unfold wallet_id_is. by destruct (Hf x) as [-> _].
    + done.
Qed.

Lemma update_last_opened_at_grows w t : m_pres enc_grows (update_last_opened_at w t).
Proof. apply update_wallet_row_grows. done. Qed.
Lemma set_remember_unlock_enabled_grows w b : m_pres enc_grows (set_remember_unlock_enabled w b).
Proof. apply update_wallet_row_grows. done. Qed.
Lemma upsert_account_grows w a t : m_pres enc_grows (upsert_account w a t).
Proof. unfold upsert_account. stmt_same. Qed.
Lemma upsert_backup_grows w r f : m_pres enc_grows (upsert_backup w r f).
Proof. unfold upsert_backup. stmt_same. Qed.
Lemma get_backup_required_grows w : m_pres enc_grows (get_backup_required w).
Proof. unfold get_backup_required. stmt_same. Qed.
Lemma get_account_type_text_grows w a : m_pres enc_grows (get_account_type_text w a).
Proof. unfold get_account_type_text. stmt_same. Qed.
Lemma list_servers_grows : m_pres enc_grows list_servers.
Proof. unfold list_servers. stmt_same. Qed.
Lemma get_wallet_encryption_grows w : m_pres enc_grows (get_wallet_encryption w).
Proof. unfold get_wallet_encryption. stmt_same. Qed.
Lemma update_last_success_at_grows i t : m_pres enc_grows (update_last_success_at i t).
Proof. unfold update_last_success_at. stmt_same. Qed.

Lemma set_default_server_grows i : m_pres enc_grows (set_default_server i).
Proof.
  intros db. apply enc_same; unfold set_default_server, mbind, M_bind, m_get, m_modify, m_err;
    db_step; (destruct Hr as [-> | ->]; [|done]); (destruct (find_first _ _) as [row|]; [|done]);
    repeat (db_step; match goal with H : _ = Ok tt \/ _ = Err _ |- _ => destruct H as [-> | ->] end);
    simpl in *; congruence.
Qed.

Lemma insert_wallet_encryption_grows w m : m_pres enc_grows (insert_wallet_encryption w m).
Proof.
  intros db. unfold insert_wallet_encryption, mbind, M_bind, m_get, m_put, db_require, m_err, mret, M_ret.
  db_step. destruct Hr as [-> | ->]; [|by apply enc_same].
  destruct (wallet_exists _ _); [|by apply enc_same].
  destruct (negb _); [|by apply enc_same].
  split; simpl; [exists [row_of_encryption w m]; by rewrite Henc| |done]. rewrite Hwal. eauto 10.
Qed.

#[export] Hint Resolve get_wallet_grows list_wallets_grows insert_wallet_grows update_last_opened_at_grows
  set_remember_unlock_enabled_grows
  upsert_account_grows upsert_backup_grows get_backup_required_grows get_account_type_text_grows
  list_servers_grows get_wallet_encryption_grows update_last_success_at_grows set_default_server_grows
  insert_wallet_encryption_grows : zbag.

Lemma resolve_grpc_url_grows url_parse debug n env : m_pres enc_grows (resolve_grpc_url url_parse debug n env).
Proof. unfold resolve_grpc_url, resolve_grpc_url_with_dev_override. m_pres_auto. Qed.

Lemma try_failover_server_grows url_parse debug probe now n u r :
  m_pres enc_grows (try_failover_server url_parse debug probe now n u r).
Proof. unfold try_failover_server. m_pres_auto. Qed.

Lemma ensure_spend_allowed_grows w a : m_pres enc_grows (ensure_spend_allowed_conn w a).
Proof. unfold ensure_spend_allowed_conn. m_pres_auto. Qed.

Lemma ensure_backup_complete_grows w : m_pres enc_grows (ensure_backup_complete w).
Proof. unfold ensure_backup_complete. m_pres_auto. Qed.
#[export] Hint Resolve resolve_grpc_url_grows try_failover_server_grows ensure_spend_allowed_grows
  ensure_backup_complete_grows : zbag.

(** ** ... and the services around it *)

Definition retry_grows (e e' : RetryEnv) : Prop := enc_grows (re_db e) (re_db e').
Definition tx_grows (e e' : TxEnv) : Prop := retry_grows (te_retry e) (te_retry e').

#[global] Instance retry_grows_preorder : PreOrder retry_grows.
Proof. unfold retry_grows. split; [intros e; reflexivity|intros a b c ? ?; by etransitivity]. Qed.
#[global] Instance tx_grows_preorder : PreOrder tx_grows.
Proof. unfold tx_grows. split; [intros e; reflexivity|intros a b c ? ?; by etransitivity]. Qed.

Lemma on_queue_grows {A} (m : M QueueState A) : m_pres retry_grows (on_queue m).
Proof. intros e. unfold on_queue, m_zoom. destruct (m _). unfold retry_grows. simpl. reflexivity. Qed.
Lemma on_db_grows {A} (m : M AppDb A) : m_pres enc_grows m -> m_pres retry_grows (on_db m).
Proof. intros Hm. eapply m_pres_zoom; [|exact Hm]. done. Qed.
Lemma emit_grows ev : m_pres retry_grows (emit ev).
Proof. intros e. unfold retry_grows. simpl. reflexivity. Qed.
Lemma send_transaction_bytes_grows send u b : m_pres retry_grows (send_transaction_bytes send u b).
Proof. intros e. unfold send_transaction_bytes, retry_grows. repeat case_match; simpl; reflexivity. Qed.
Lemma on_retry_grows {A} (m : M RetryEnv A) : m_pres retry_grows m -> m_pres tx_grows (on_retry m).
Proof. intros Hm. eapply m_pres_zoom; [|exact Hm]. done. Qed.
#[export] Hint Resolve on_queue_grows on_db_grows emit_grows send_transaction_bytes_grows on_retry_grows : zbag.

Section TxService.
Context (to_vec_pretty : QueuedBroadcastMeta -> string)
        (from_slice : string -> option QueuedBroadcastMeta)
        (aead_enc aead_dec : string -> string -> string -> string -> option string) (fl : Q -> Q)
        (send : nat -> string -> string -> option (result unit))
        (nonce : string -> string) (offset_ms : string -> Q)
        (url_parse : string -> Url + ParseError) (debug : bool).

(** An operation on the proposals and signing requests only. *)
Lemma tables_grows {A} (m : M TxEnv A) : (forall e, te_retry (m e).2 = te_retry e) -> m_pres tx_grows m.
Proof using Type. intros Hm e. unfold tx_grows. rewrite Hm. reflexivity. Qed.

Ltac by_tables :=
  apply tables_grows; intros [p q r];
  unfold mbind, M_bind, m_get, m_put, m_modify, m_lift, m_err, mret, M_ret; cbv beta iota;
  repeat case_match; simplify_eq/=; done.

Lemma validate_proposal_grows now i w : m_pres tx_grows (validate_proposal_for_wallet now i w).
Proof using Type. unfold validate_proposal_for_wallet. by_tables. Qed.

Lemma take_proposal_for_execution_grows now i w : m_pres tx_grows (take_proposal_for_execution now i w).
Proof using Type.
  unfold take_proposal_for_execution. apply m_pres_bind; [apply _|apply validate_proposal_grows|intros ?]. by_tables.
Qed.

Lemma take_pending_grows now i w : m_pres tx_grows (take_pending_signing_request_for_execution now i w).
Proof using Type. unfold take_pending_signing_request_for_execution. by_tables. Qed.

Lemma broadcast_or_queue_grows now w d k u t b :
  m_pres tx_grows (broadcast_or_queue to_vec_pretty aead_enc fl send nonce offset_ms now w d k u t b).
Proof using Type. unfold broadcast_or_queue. m_pres_auto. Qed.

Lemma broadcast_all_grows io now w d k u txids errs :
  m_pres tx_grows (broadcast_all to_vec_pretty aead_enc fl send nonce offset_ms io now w d k u txids errs).
Proof using Type.
  revert errs. induction txids as [|t txids IH]; intros errs; cbn [broadcast_all]; [m_pres_auto|].
  pose proof broadcast_or_queue_grows. m_pres_auto.
Qed.

Lemma shield_txs_grows io now now_ms w d k u a on plan txids acc :
  m_pres tx_grows (shield_txs to_vec_pretty from_slice aead_enc fl send nonce offset_ms io now now_ms w d k u a on
    plan txids acc).
Proof using Type.
  pose proof broadcast_or_queue_grows as Hb.
  revert acc. induction txids as [|t txids IH]; intros acc; cbn [shield_txs]; [m_pres_auto|].
  apply m_pres_bind; [apply _| |intros acc'; apply IH]. unfold shield_tx. destruct acc as [pr errs]. m_pres_auto.
Qed.

Lemma shield_batches_grows io now now_ms w d k u a on n batches acc :
  m_pres tx_grows (shield_batches to_vec_pretty from_slice aead_enc fl send nonce offset_ms io now now_ms w d k u a on
    n batches acc).
Proof using Type.
  pose proof shield_txs_grows as Ht.
  revert n acc. induction batches as [|b batches IH]; intros n acc; cbn [shield_batches]; [m_pres_auto|].
  destruct (plan_batch io n b) as [planned|]; m_pres_auto.
Qed.

Lemma shield_funds_grows io now now_ms w d k u a on :
  m_pres tx_grows (shield_funds to_vec_pretty from_slice aead_enc fl send nonce offset_ms io now now_ms w d k u a on).
Proof using Type. pose proof shield_batches_grows. unfold shield_funds. m_pres_auto. Qed.

Lemma m_modify_tables f : (forall e, te_retry (f e) = te_retry e) -> m_pres tx_grows (m_modify f).
Proof using Type. intros Hf. apply tables_grows. intros e. apply Hf. Qed.

Lemma confirm_send_grows io now now_ms w d k u i on :
  m_pres tx_grows (confirm_send to_vec_pretty from_slice aead_enc fl send nonce offset_ms io now now_ms w d k u i on).
Proof using Type.
  unfold confirm_send. pose proof broadcast_all_grows as Hall. pose proof validate_proposal_grows as Hv.
  apply m_pres_bind; [apply _|apply Hv|intros _].
  apply m_pres_bind; [apply _|m_pres_auto|intros _].
  apply (m_pres_get_put _ (fun e => ok_or (te_proposals e !! i) proposal_not_found)
    (fun e _ => set_proposals (delete i (te_proposals e)) e)); [intros e _; unfold tx_grows; simpl; reflexivity|].
  intros _ r. m_pres_auto.
Qed.

Lemma finalize_signing_grows io now w d k u i p :
  m_pres tx_grows (Sends.finalize_signing to_vec_pretty from_slice aead_enc fl send nonce offset_ms io now w d k u i p).
Proof using Type.
  unfold Sends.finalize_signing. pose proof take_pending_grows. pose proof broadcast_or_queue_grows. m_pres_auto.
Qed.

Lemma prepare_send_grows mm io now i w a r z m al : m_pres tx_grows (prepare_send mm io now i w a r z m al).
Proof using Type.
  unfold prepare_send. m_pres_auto. apply m_modify_tables. done.
Qed.

Lemma build_signing_request_grows mm io now i w a r z m al :
  m_pres tx_grows (build_signing_request mm io now i w a r z m al).
Proof using Type. unfold build_signing_request. m_pres_auto. apply m_modify_tables. done. Qed.

Lemma view_transactions_grows td mr mp now w d a ch rows :
  m_pres tx_grows (view_transactions td mr mp now w d a ch rows).
Proof using Type.
  induction rows as [|r rows IH]; cbn [view_transactions]; [m_pres_auto|].
  apply m_pres_bind; [apply _| |intros ?; m_pres_auto]. unfold view_transaction. m_pres_auto.
Qed.

Lemma list_transactions_grows td mr mp io rows ch now now_ms w d a l o :
  m_pres tx_grows (list_transactions from_slice td mr mp io rows ch now now_ms w d a l o).
Proof using Type. unfold list_transactions. pose proof view_transactions_grows. m_pres_auto. Qed.

Lemma retry_loop_grows probe fuel now off n onf d t b st :
  m_pres retry_grows (retry_loop to_vec_pretty from_slice fl send url_parse debug probe fuel now off n onf d t b st).
Proof using Type.
  revert st. induction fuel as [|fuel IH]; intros st; cbn [retry_loop]; [m_pres_auto|].
  apply m_pres_bind; [apply _| |intros ?; m_pres_auto]. unfold retry_step. destruct st as [[u c] k]. m_pres_auto.
Qed.

Lemma retry_broadcast_grows probe hex sender hist n1 n2 n3 off w n d k u t ot onf fuel :
  m_pres retry_grows (retry_broadcast to_vec_pretty from_slice aead_dec fl send url_parse debug probe hex
    sender hist n1 n2 n3 off w n d k u t ot onf fuel).
Proof using Type. unfold retry_broadcast. pose proof retry_loop_grows. m_pres_auto. Qed.

Lemma in_fresh_service_grows {A} (m : M TxEnv A) : m_pres tx_grows m -> m_pres tx_grows (in_fresh_service m).
Proof using Type.
  intros Hm e. unfold in_fresh_service.
  match goal with |- context [m ?x] => specialize (Hm x); destruct (m x) as [out e'] end. exact Hm.
Qed.
End TxService.
#[export] Hint Resolve validate_proposal_grows take_proposal_for_execution_grows take_pending_grows
  confirm_send_grows finalize_signing_grows prepare_send_grows build_signing_request_grows
  list_transactions_grows retry_broadcast_grows in_fresh_service_grows m_modify_tables : zbag.

(** ** The manager *)

Definition wm_grows (s s' : WM) : Prop := tx_grows (wm_tx s) (wm_tx s').

(** The active wallet is untouched, and encryption parameters only added. *)
Definition keeps (s s' : WM) : Prop := wm_active s' = wm_active s /\ wm_grows s s'.

#[global] Instance keeps_preorder : PreOrder keeps.
Proof.
  unfold keeps, wm_grows. split.
  - intros s. split; [done|reflexivity].
  - intros a b c [H1 G1] [H2 G2]. split; [congruence|by etransitivity].
Qed.

Lemma on_tx_keeps {A} (m : M TxEnv A) : m_pres tx_grows m -> m_pres keeps (on_tx m).
Proof. intros Hm. eapply m_pres_zoom; [|exact Hm]. by intros s t Ht. Qed.
Lemma on_disk_keeps {A} (m : M QueueState A) : m_pres keeps (on_disk m).
Proof. apply on_tx_keeps. auto with zbag. Qed.
Lemma on_app_db_keeps {A} (m : M AppDb A) : m_pres enc_grows m -> m_pres keeps (on_app_db m).
Proof. intros Hm. apply on_tx_keeps. auto with zbag. Qed.
Lemma on_reauth_keeps {A} (m : M Tokens A) : m_pres keeps (on_reauth m).
Proof. intros s. unfold on_reauth, m_zoom. destruct (m _). split; [done|]. unfold wm_grows. reflexivity. Qed.
Lemma m_modify_keeps f : (forall s, wm_active (f s) = wm_active s /\ wm_tx (f s) = wm_tx s) ->
  m_pres keeps (m_modify f).
Proof. intros Hf s. destruct (Hf s) as [Ha Ht]. split; [done|]. unfold wm_grows. simpl. rewrite Ht. reflexivity. Qed.
#[export] Hint Resolve on_tx_keeps on_disk_keeps on_app_db_keeps on_reauth_keeps : zbag.

Section Calls.
Context `{C : Crypto} `{KS : KeyStore} `{WL : WalletLib}.
Context (wallets_root : string) (from_slice : string -> option QueuedBroadcastMeta)
        (url_parse : string -> Url + ParseError) (debug : bool) (env_var : option string)
        (to_vec_pretty : QueuedBroadcastMeta -> string) (fl : Q -> Q)
        (send : nat -> string -> string -> option (result unit))
        (nonce : string -> string) (offset_ms : string -> Q).

Lemma compute_wallet_status_keeps w : m_pres keeps (compute_wallet_status w).
Proof using Type. unfold compute_wallet_status. m_pres_auto. Qed.

Lemma maybe_emit_wallet_status_keeps w : m_pres keeps (maybe_emit_wallet_status w).
Proof using Type.
  unfold maybe_emit_wallet_status. pose proof compute_wallet_status_keeps.
  apply m_pres_bind; [apply _|m_pres_auto|intros [status|e]; [|m_pres_auto]].
  intros s. rewrite m_bind_eq. simpl. case_match; [reflexivity|]. rewrite m_bind_eq. simpl.
  transitivity (wm_set_caches (wm_cached_balances s) (wm_cached_sync_status s) (wm_sync_stop_requested s)
                  (<[w:=status]> (wm_last_emitted_status s)) s);
    [split; [done|unfold wm_grows; simpl; reflexivity]|].
  case_match; [|reflexivity]. apply on_tx_keeps. auto with zbag.
Qed.
Hint Resolve maybe_emit_wallet_status_keeps : zbag.

Lemma set_caches_keeps b y r l :
  m_pres keeps (m_modify (fun s => wm_set_caches (b s) (y s) (r s) (l s) s)).
Proof using Type. by apply m_modify_keeps. Qed.

Lemma set_challenges_keeps f : m_pres keeps (m_modify (fun s => wm_set_challenges (f s) s)).
Proof using Type. by apply m_modify_keeps. Qed.
Hint Resolve set_caches_keeps set_challenges_keeps : zbag.

Lemma observe_sync_progress_keeps w p : m_pres keeps (observe_sync_progress w p).
Proof using Type.
  unfold observe_sync_progress. destruct (status_of_progress p). m_pres_auto.
Qed.

Lemma issue_backup_challenge_keeps d w : m_pres keeps (issue_backup_challenge d w).
Proof using Type. unfold issue_backup_challenge. m_pres_auto. Qed.
Hint Resolve issue_backup_challenge_keeps : zbag.

Lemma get_backup_challenge_keeps d w : m_pres keeps (get_backup_challenge d w).
Proof using Type. unfold get_backup_challenge. m_pres_auto. Qed.

Lemma decrypt_mnemonic_keeps w n k : m_pres keeps (decrypt_mnemonic w n k).
Proof using Type. unfold decrypt_mnemonic. m_pres_auto. Qed.
Hint Resolve decrypt_mnemonic_keeps : zbag.

Lemma drop_challenge_keeps w : m_pres keeps (drop_challenge w).
Proof using Type. unfold drop_challenge. m_pres_auto. Qed.
Hint Resolve drop_challenge_keeps : zbag.

Lemma verify_backup_keeps now w i a : m_pres keeps (verify_backup now w i a).
Proof using Type. unfold verify_backup, mark_backup_complete. m_pres_auto. Qed.

(** *** Reading keys and preparing spends *)

Lemma find_wallet_keeps w : m_pres keeps (find_wallet wallets_root w).
Proof using Type. unfold find_wallet. m_pres_auto. Qed.
Lemma open_key_keeps i w p : m_pres keeps (open_key i w p).
Proof using Type. unfold open_key. m_pres_auto. Qed.
Lemma scan_active_keeps now w d : m_pres keeps (scan_active from_slice now w d).
Proof using Type. unfold scan_active. m_pres_auto. Qed.
Lemma resolve_endpoint_keeps n : m_pres keeps (resolve_endpoint url_parse debug env_var n).
Proof using Type. unfold resolve_endpoint. m_pres_auto. Qed.
Hint Resolve find_wallet_keeps open_key_keeps scan_active_keeps resolve_endpoint_keeps : zbag.

Lemma reauth_wallet_keeps now t w p pu : m_pres keeps (reauth_wallet now t w p pu).
Proof using Type. unfold reauth_wallet. m_pres_auto. Qed.
Lemma view_seed_phrase_keeps now w t : m_pres keeps (view_seed_phrase now w t).
Proof using Type. unfold view_seed_phrase. m_pres_auto. Qed.
Lemma derive_unified_spending_key_keeps w a : m_pres keeps (derive_unified_spending_key w a).
Proof using Type. unfold derive_unified_spending_key. m_pres_auto. Qed.
Lemma consume_token_keeps now w t : m_pres keeps (consume_token now w t).
Proof using Type. unfold consume_token. m_pres_auto. Qed.
Lemma get_tx_operation_context_keeps : m_pres keeps (get_tx_operation_context url_parse debug env_var).
Proof using Type. unfold get_tx_operation_context. m_pres_auto. Qed.
Lemma preflight_keeps w c : m_pres keeps (preflight w c).
Proof using Type. unfold preflight. m_pres_auto. Qed.
Hint Resolve derive_unified_spending_key_keeps consume_token_keeps get_tx_operation_context_keeps
  preflight_keeps : zbag.

Lemma prepare_confirm_send_keeps now p t : m_pres keeps (prepare_confirm_send url_parse debug env_var now p t).
Proof using Type. unfold prepare_confirm_send. m_pres_auto. Qed.
Lemma prepare_shield_funds_keeps now a t : m_pres keeps (prepare_shield_funds url_parse debug env_var now a t).
Proof using Type. unfold prepare_shield_funds. m_pres_auto. Qed.
Hint Resolve prepare_confirm_send_keeps prepare_shield_funds_keeps : zbag.

Lemma prepare_confirm_send_task_keeps now p t :
  m_pres keeps (prepare_confirm_send_task url_parse debug env_var now p t).
Proof using Type. unfold prepare_confirm_send_task. m_pres_auto. Qed.
Lemma prepare_shield_funds_task_keeps now a c t :
  m_pres keeps (prepare_shield_funds_task url_parse debug env_var now a c t).
Proof using Type. unfold prepare_shield_funds_task. m_pres_auto. Qed.
Lemma prepare_finalize_signing_task_keeps now i p t :
  m_pres keeps (prepare_finalize_signing_task url_parse debug env_var now i p t).
Proof using Type. unfold prepare_finalize_signing_task. m_pres_auto. Qed.

Lemma execute_confirm_grows io now now_ms t on :
  m_pres tx_grows (execute_prepared_confirm_send_task from_slice to_vec_pretty fl send nonce offset_ms io now now_ms t on).
Proof using Type. unfold execute_prepared_confirm_send_task. m_pres_auto. apply in_fresh_service_grows. m_pres_auto. Qed.
Lemma execute_finalize_grows io now t :
  m_pres tx_grows (execute_prepared_finalize_signing_task from_slice to_vec_pretty fl send nonce offset_ms io now t).
Proof using Type. unfold execute_prepared_finalize_signing_task. m_pres_auto. apply in_fresh_service_grows. m_pres_auto. Qed.
Lemma execute_shield_grows io now now_ms t on :
  m_pres tx_grows (execute_prepared_shield_funds_task from_slice to_vec_pretty fl send nonce offset_ms io now now_ms t on).
Proof using Type.
  unfold execute_prepared_shield_funds_task. m_pres_auto. apply in_fresh_service_grows, shield_funds_grows.
Qed.
Hint Resolve execute_confirm_grows execute_finalize_grows execute_shield_grows : zbag.

Lemma import_ufvk_keeps now w u nm f z : m_pres keeps (import_ufvk now w u nm f z).
Proof using Type. unfold import_ufvk. m_pres_auto. Qed.

Lemma wm_finalize_signing_keeps io now i p t :
  m_pres keeps (wm_finalize_signing from_slice url_parse debug env_var to_vec_pretty fl send nonce offset_ms io now i p t).
Proof using Type. unfold wm_finalize_signing. m_pres_auto. Qed.

Lemma build_retry_task_keeps t b : m_pres keeps (build_retry_broadcast_task url_parse debug env_var t b).
Proof using Type. unfold build_retry_broadcast_task. m_pres_auto. Qed.
Hint Resolve build_retry_task_keeps : zbag.
Lemma prepare_retry_task_keeps now t k : m_pres keeps (prepare_retry_broadcast_task url_parse debug env_var now t k).
Proof using Type. unfold prepare_retry_broadcast_task. m_pres_auto. Qed.
Lemma prepare_next_keeps n1 n2 :
  m_pres keeps (prepare_next_queued_broadcast_retry_task from_slice url_parse debug env_var n1 n2).
Proof using Type. unfold prepare_next_queued_broadcast_retry_task. m_pres_auto. Qed.

Lemma execute_retry_grows io t a b :
  m_pres tx_grows (execute_prepared_retry_broadcast_task from_slice url_parse debug to_vec_pretty fl send io t a b).
Proof using Type.
  unfold execute_prepared_retry_broadcast_task, execute_retry_broadcast_task_unchecked. m_pres_auto.
Qed.
Hint Resolve prepare_retry_task_keeps prepare_next_keeps execute_retry_grows : zbag.

Lemma execute_retry_keeps io t a b :
  m_pres keeps (execute_retry_broadcast_task from_slice url_parse debug to_vec_pretty fl send io t a b).
Proof using Type. unfold execute_retry_broadcast_task. m_pres_auto. Qed.
Hint Resolve execute_retry_keeps : zbag.

Lemma wm_retry_broadcast_keeps io now t k a b :
  m_pres keeps (wm_retry_broadcast from_slice url_parse debug env_var to_vec_pretty fl send io now t k a b).
Proof using Type. unfold wm_retry_broadcast. m_pres_auto. Qed.
Lemma process_retries_keeps io n1 n2 a b :
  m_pres keeps (process_queued_broadcast_retries from_slice url_parse debug env_var to_vec_pretty fl send io n1 n2 a b).
Proof using Type. unfold process_queued_broadcast_retries. m_pres_auto. Qed.

Lemma set_jobs_keeps f : m_pres keeps (m_modify (fun s => wm_set_jobs (f s) s)).
Proof using Type. by apply m_modify_keeps. Qed.
Lemma take_proposal_grows i : m_pres tx_grows (fun e => let '(p, e') := take_proposal i e in (Ok p, e')).
Proof using Type. intros e. simpl. unfold tx_grows. simpl. reflexivity. Qed.
Hint Resolve set_jobs_keeps take_proposal_grows : zbag.

Lemma start_send_job_keeps io now j p t a b :
  m_pres keeps (start_send_job url_parse debug env_var io now j p t a b).
Proof using Type. unfold start_send_job. m_pres_auto. Qed.
Lemma start_shield_job_keeps io now j ac co t a b :
  m_pres keeps (start_shield_job url_parse debug env_var io now j ac co t a b).
Proof using Type. unfold start_shield_job. m_pres_auto. Qed.
Lemma wm_cancel_job_keeps j : m_pres keeps (wm_cancel_job j).
Proof using Type.
  intros s. unfold wm_cancel_job. destruct (cancel_job _ _). split; [done|]. unfold wm_grows. simpl. reflexivity.
Qed.
Hint Resolve verify_backup_keeps observe_sync_progress_keeps get_backup_challenge_keeps reauth_wallet_keeps
  view_seed_phrase_keeps prepare_confirm_send_task_keeps prepare_shield_funds_task_keeps
  prepare_finalize_signing_task_keeps import_ufvk_keeps wm_finalize_signing_keeps wm_retry_broadcast_keeps
  process_retries_keeps start_send_job_keeps start_shield_job_keeps wm_cancel_job_keeps : zbag.
End Calls.

#[export] Hint Resolve compute_wallet_status_keeps maybe_emit_wallet_status_keeps set_caches_keeps set_challenges_keeps
  observe_sync_progress_keeps issue_backup_challenge_keeps get_backup_challenge_keeps decrypt_mnemonic_keeps
  drop_challenge_keeps verify_backup_keeps find_wallet_keeps open_key_keeps
  scan_active_keeps resolve_endpoint_keeps reauth_wallet_keeps view_seed_phrase_keeps
  derive_unified_spending_key_keeps consume_token_keeps get_tx_operation_context_keeps preflight_keeps
  prepare_confirm_send_keeps prepare_shield_funds_keeps prepare_confirm_send_task_keeps prepare_shield_funds_task_keeps
  prepare_finalize_signing_task_keeps execute_confirm_grows execute_finalize_grows execute_shield_grows import_ufvk_keeps
  wm_finalize_signing_keeps build_retry_task_keeps prepare_retry_task_keeps prepare_next_keeps
  execute_retry_grows execute_retry_keeps wm_retry_broadcast_keeps process_retries_keeps
  set_jobs_keeps take_proposal_grows start_send_job_keeps start_shield_job_keeps
  wm_cancel_job_keeps : zbag.
