(* ===== verification/WalletDemo.v ===== *)
(** An instance of the wallet library on which the manager runs: the wallet
    database is its key followed by a log of what was done to it, a database
    opens with that key only, and a viewing key is tagged with its network.
    The witnesses of the manager's theorems run on it. *)
From S2P Require Import Prelude Text Domain AppDb Reauth Broadcast Servers BroadcastQueue Jobs.
From S2P Require Import Sends Shielding Encryption KeyStore WalletManager.
From Stdlib Require Import QArith.
Open Scope Z_scope.

Definition demo_words : list string :=
  ["legal"; "winner"; "thank"; "year"; "wave"; "sausage"; "worth"; "useful"; "legal"; "winner"; "thank";
   "year"; "wave"; "sausage"; "worth"; "useful"; "legal"; "winner"; "thank"; "year"; "wave"; "sausage";
   "worth"; "title"].

Definition demo_log (line contents : string) : (string + unit) * string := (inr tt, contents +:+ line).

(** The key is the first 32 bytes of the file. *)
Definition demo_sql_open (create : bool) (dek : string) (file : option string)
    : result unit * option string :=
  match file with
  | Some c => (if bool_decide (take_string 32 c = dek) then Ok tt
               else Err (AnyhowMsg "file is not a database"), None)
  | None => if create then (Ok tt, Some dek) else (Err (AnyhowMsg "unable to open database file"), None)
  end.

Definition demo_tagged (n : Network) (s : string) : string + string :=
  match strip_prefix s (match n with Network.Mainnet => "uview1" | Network.Testnet => "uviewtest1" end) with
  | Some rest => inr rest
  | None => inl "unexpected prefix"
  end.

#[global] Instance demo_wallet_lib : WalletLib := {|
  mnemonic_from_entropy _ := inr demo_words;
  mnemonic_parse s := Some (split_whitespace s);
  mnemonic_to_seed words := join "" words;
  sapling_activation n := match n with Network.Mainnet => 419200 | Network.Testnet => 280000 end;
  zip32_account_ok i := i <? 2147483648;
  spending_key_from_seed _ seed i := inr (seed +:+ uint_to_string i);
  ufvk_decode := demo_tagged;
  hex_decode s := inr s;
  sql_open := demo_sql_open;
  sql_load_array := inr tt;
  db_init := demo_log "";
  db_create_account name _ b := demo_log (";account " +:+ name +:+ "@" +:+ uint_to_string b);
  db_import_ufvk name _ b _ _ := demo_log (";import " +:+ name +:+ "@" +:+ uint_to_string b);
  db_update_chain_tip h := demo_log (";tip " +:+ uint_to_string h);
  db_check _ := inr tt;
  db_accounts _ := inr [];
  db_unshielded _ := inr None;
|}.

Definition demo_key_store : KeyStore := KeyStoreKeychain (fun _ => inr None) "/wallets".

Definition demo_parse (s : string) : Url + ParseError :=
  inl (mkUrl "https" "" None (Some (Domain s)) None None None).

(** No wallet yet, nothing on disk. *)
Definition demo_start : WM :=
  let q := mkQueueState ∅ [] ∅ in
  let db := mkAppDb [] [] [] [] [] [] [] None None [] in
  mkWM (mkTxEnv ∅ ∅ (mkRetryEnv q db [] [])) None ∅ (new_service q) ∅ ∅ ∅ ∅ ∅ true false.

Definition demo_challenge : ChallengeDraw := mkChallengeDraw [7; 3; 24; 12; 1; 2] "challenge-1" 1000.

Definition demo_draws : Draws :=
  mkDraws 1000 1 "w1" "entropy" demo_dek "saltsaltsalt" demo_nonce demo_nonce demo_challenge.
