(* ===== verification/WalletDisk.v ===== *)
(** The wallet database on disk: opening one migrates it behind a snapshot,
    which makes the migration all or nothing as long as the disk works. *)
From S2P Require Import Prelude Text Domain AppDb BroadcastQueue Sends Encryption KeyStore WalletManager WalletDemo.
Open Scope Z_scope.

(** ** Files *)

Definition put_file (q : QueueState) (p : Path) (c : string) : QueueState :=
  q_set_disk q (alter (<[p.2 := c]>) p.1 (q_disk q)).
Definition drop_file (q : QueueState) (p : Path) : QueueState :=
  q_set_disk q (alter (delete p.2) p.1 (q_disk q)).
Definition has_dir (q : QueueState) (d : string) : Prop := is_Some (q_disk q !! d).

Lemma has_dir_put q p c d : has_dir (put_file q p c) d <-> has_dir q d.
Proof.
  unfold has_dir, put_file. simpl. destruct (decide (d = p.1)) as [->|].
  - rewrite lookup_alter_eq. apply fmap_is_Some.
  - by rewrite lookup_alter_ne.
Qed.

Lemma has_dir_drop q p d : has_dir (drop_file q p) d <-> has_dir q d.
Proof.
  unfold has_dir, drop_file. simpl. destruct (decide (d = p.1)) as [->|].
  - rewrite lookup_alter_eq. apply fmap_is_Some.
  - by rewrite lookup_alter_ne.
Qed.

Lemma file_at_dir q p c : file_at q p = Some c -> has_dir q p.1.
Proof. unfold file_at, has_dir. by destruct (q_disk q !! p.1). Qed.

Lemma file_at_put q p c : has_dir q p.1 -> file_at (put_file q p c) p = Some c.
Proof.
  intros [x Hx]. unfold file_at, put_file. simpl. rewrite lookup_alter_eq, Hx. simpl. apply lookup_insert_eq.
Qed.

Lemma file_at_put_ne q p p' c : p' <> p -> file_at (put_file q p c) p' = file_at q p'.
Proof.
  intros Hne. unfold file_at, put_file. simpl. destruct (decide (p'.1 = p.1)) as [Hd|Hd].
  - rewrite Hd, lookup_alter_eq. destruct (q_disk q !! p.1); [simpl|done].
    rewrite lookup_insert_ne; [done|]. destruct p, p'; naive_solver.
  - by rewrite lookup_alter_ne.
Qed.

Lemma file_at_drop q p : file_at (drop_file q p) p = None.
Proof.
  unfold file_at, drop_file. simpl. rewrite lookup_alter_eq. destruct (q_disk q !! p.1); [simpl|done].
  apply lookup_delete_eq.
Qed.

Lemma file_at_drop_ne q p p' : p' <> p -> file_at (drop_file q p) p' = file_at q p'.
Proof.
  intros Hne. unfold file_at, drop_file. simpl. destruct (decide (p'.1 = p.1)) as [Hd|Hd].
  - rewrite Hd, lookup_alter_eq. destruct (q_disk q !! p.1); [simpl|done].
    rewrite lookup_delete_ne; [done|]. destruct p, p'; naive_solver.
  - by rewrite lookup_alter_ne.
Qed.

(** The rest of the faults, after a call that worked. *)
Definition next_faults (q : QueueState) : QueueState := mkQueueState (q_disk q) (tail (q_faults q)) (q_mem q).

(** The next call works. *)
Definition works (q : QueueState) : Prop := head (q_faults q) <> Some true.

Lemma fs_call_works q : works q -> fs_call q = (Ok tt, next_faults q).
Proof. unfold works, fs_call, next_faults. destruct q as [d [|[] l] m]; naive_solver. Qed.

Lemma fs_call_fails q : head (q_faults q) = Some true -> fs_call q = (Err io_error, next_faults q).
Proof. unfold fs_call, next_faults. destruct q as [d [|[] l] m]; naive_solver. Qed.

Lemma file_at_next q p : file_at (next_faults q) p = file_at q p.
Proof. done. Qed.

Lemma quiet_works q : q_faults q = [] -> works q /\ next_faults q = q.
Proof. intros H. unfold works, next_faults. destruct q; simpl in *. by subst. Qed.

Lemma create_dir_works q d :
  works q -> has_dir q d -> create_dir_all_secure d q = (Ok tt, next_faults q).
Proof.
  intros Hw [x Hd]. unfold create_dir_all_secure. rewrite m_bind_eq, fs_call_works by done.
  rewrite m_get_bind. simpl. by rewrite Hd.
Qed.

Lemma fs_copy_works q src dst c :
  works q -> file_at q src = Some c -> fs_copy src dst q = (Ok tt, put_file (next_faults q) dst c).
Proof.
  intros Hw Hf. unfold fs_copy. rewrite m_bind_eq, fs_call_works by done. rewrite m_get_bind, m_bind_eq.
  by rewrite file_at_next, Hf.
Qed.

Lemma fs_copy_fails q src dst : head (q_faults q) = Some true -> fs_copy src dst q = (Err io_error, next_faults q).
Proof. intros H. unfold fs_copy. by rewrite m_bind_eq, fs_call_fails. Qed.

Lemma fs_remove_works q p c :
  works q -> file_at q p = Some c -> fs_remove_file p q = (Ok tt, drop_file (next_faults q) p).
Proof.
  intros Hw Hf. unfold fs_remove_file. rewrite m_bind_eq, fs_call_works by done.
  rewrite m_get_bind, file_at_next, Hf. done.
Qed.

(** ** Migration *)

Section Migration.
Context `{WL : WalletLib}.

(** The migration as one step on the contents of the database: the new
    contents when every part of it succeeds. *)
Definition migrated (force_fail create : bool) (dek contents : string) : option string :=
  let '(opened, file) := sql_open create dek (Some contents) in
  match opened, sql_load_array with
  | Ok _, inr _ =>
      let '(r, contents') := db_init (default contents file) in
      match r, db_check contents', force_fail with
      | inr _, inr _, false => Some contents'
      | _, _, _ => None
      end
  | _, _ => None
  end.

Lemma write_db_run p f q :
  write_db p f q = (Ok tt, match f with Some c => put_file q p c | None => q end).
Proof using Type. by destruct f. Qed.

Lemma m_context_Ok {St A} c (m : M St A) s a s' : m s = (Ok a, s') -> m_context c m s = (Ok a, s').
Proof using Type. unfold m_context. intros H. by rewrite H. Qed.

(** *** Frames: what may change, whatever fails *)

Definition only (p : Path) (p' : Path) : Prop := p' = p.

Lemma put_file_touches p c q : touches (only p) q (put_file q p c).
Proof using Type.
  split; [done|..|done].
  - intros p' Hp'. by apply file_at_put_ne.
  - intros d. apply has_dir_put.
Qed.

Lemma drop_file_touches p q : touches (only p) q (drop_file q p).
Proof using Type.
  split; [done|..|done].
  - intros p' Hp'. by apply file_at_drop_ne.
  - intros d. apply has_dir_drop.
Qed.

Lemma write_db_touches p f : m_pres (touches (only p)) (write_db p f).
Proof using Type. intros q. rewrite write_db_run. destruct f; [apply put_file_touches|reflexivity]. Qed.

Lemma fs_copy_touches src dst : m_pres (touches (only dst)) (fs_copy src dst).
Proof using Type.
  unfold fs_copy. apply m_pres_bind; [apply _|apply fs_call_touches|intros _].
  apply m_pres_get_bind. intros q. destruct (file_at q src) as [c|]; [|reflexivity].
  apply (put_file_touches dst c q).
Qed.

Lemma fs_remove_file_touches p : m_pres (touches (only p)) (fs_remove_file p).
Proof using Type.
  unfold fs_remove_file. apply m_pres_bind; [apply _|apply fs_call_touches|intros _].
  apply m_pres_get_bind. intros q. destruct (file_at q p) as [c|]; [|reflexivity].
  apply (drop_file_touches p q).
Qed.

Lemma create_dir_touches P d : m_pres (touches P) (create_dir_all_secure d).
Proof using Type.
  intros q. pose proof (create_dir_all_secure_spec d q) as H. destruct (create_dir_all_secure d q) as [r q'].
  destruct H as [H _]. eapply touches_weaken; [|exact H]. done.
Qed.

#[local] Hint Resolve fs_call_touches write_db_touches fs_copy_touches fs_remove_file_touches
  create_dir_touches : zbag.

Lemma open_sqlcipher_db_touches p dek create arr : m_pres (touches (only p)) (open_sqlcipher_db p dek create arr).
Proof using Type. unfold open_sqlcipher_db. m_pres_auto. Qed.

Lemma with_db_touches ctx p f : m_pres (touches (only p)) (with_db ctx p f).
Proof using Type. unfold with_db. m_pres_auto. Qed.

#[local] Hint Resolve open_sqlcipher_db_touches with_db_touches : zbag.

Lemma migrate_touches ff p dek create : m_pres (touches (only p)) (migrate ff p dek create).
Proof using Type. unfold migrate, open_sqlcipher_connection, validate_wallet_db. m_pres_auto. Qed.

Definition db_files (dir : string) (p : Path) : Prop :=
  p = wallet_db_path dir \/ p = wallet_db_snapshot_path (wallet_db_path dir).

Lemma open_wallet_db_touches ff dir dek create :
  m_pres (touches (db_files dir)) (open_wallet_db_with_dek ff dir dek create).
Proof using Type.
  assert (forall A (m : M QueueState A) p, db_files dir p -> m_pres (touches (only p)) m ->
    m_pres (touches (db_files dir)) m) as Hw.
  { intros A m p Hp. apply m_pres_weaken. intros q q'. apply touches_weaken. by intros ? ->. }
  assert (db_files dir (wallet_db_path dir)) as H1 by by left.
  assert (db_files dir (wallet_db_snapshot_path (wallet_db_path dir))) as H2 by by right.
  unfold open_wallet_db_with_dek.
  m_pres_auto; solve [eapply Hw; [exact H1|eauto using migrate_touches with zbag]
                     |eapply Hw; [exact H2|eauto with zbag]].
Qed.

(** *** On a disk that works *)

Lemma fs_call_quiet q : q_faults q = [] -> fs_call q = (Ok tt, q).
Proof using Type. intros H. destruct (quiet_works q H) as [Hw Hn]. by rewrite fs_call_works, Hn. Qed.

Lemma open_sqlcipher_db_quiet p dek create q c :
  q_faults q = [] -> file_at q p = Some c ->
  exists q1, open_sqlcipher_db p dek create false q = ((sql_open create dek (Some c)).1, q1)
    /\ q_faults q1 = [] /\ file_at q1 p = Some (default c (sql_open create dek (Some c)).2).
Proof using Type.
  intros Hq Hf. unfold open_sqlcipher_db. rewrite m_get_bind, Hf.
  destruct (sql_open create dek (Some c)) as [r f]. rewrite m_bind_eq, write_db_run, m_bind_eq.
  eexists. split; [by destruct r as [[]|]|]. split; [by destruct f|].
  destruct f; [|done]. apply file_at_put. by eapply file_at_dir.
Qed.

Lemma with_db_quiet ctx p f q c :
  file_at q p = Some c ->
  with_db ctx p f q = (anyhow_context ctx (f c).1, put_file q p (f c).2).
Proof using Type.
  intros Hf. unfold with_db. rewrite m_get_bind, m_bind_eq, Hf. simpl.
  destruct (f c) as [r c']. done.
Qed.

Lemma migrate_quiet ff p dek create q c :
  q_faults q = [] -> file_at q p = Some c ->
  let '(r, q') := migrate ff p dek create q in
  is_Some (file_at q' p)
  /\ match migrated ff create dek c with
     | Some x => r = Ok tt /\ file_at q' p = Some x
     | None => is_ok r = false
     end.
Proof using Type.
  intros Hq Hf. unfold migrate, migrated, open_sqlcipher_connection.
  destruct (open_sqlcipher_db_quiet p dek create q c Hq Hf) as (q1 & E1 & Hq1 & Hf1).
  rewrite !m_bind_eq, E1. destruct (sql_open create dek (Some c)) as [[u|e] f]; simpl in *; [|eauto].
  rewrite (fs_call_quiet q1) by done. simpl.
  rewrite m_bind_eq. unfold m_lift. destruct sql_load_array as [e|[]]; simpl; [eauto|].
  rewrite m_bind_eq, (with_db_quiet _ _ _ _ _ Hf1). destruct (db_init _) as [[e|[]] c'] eqn:Ei; simpl.
  { rewrite file_at_put by by eapply file_at_dir. eauto. }
  unfold validate_wallet_db. rewrite m_get_bind, m_bind_eq, file_at_put by by eapply file_at_dir.
  simpl. rewrite m_bind_eq. unfold m_lift. destruct (db_check c') as [e|[]]; simpl.
  - rewrite file_at_put by by eapply file_at_dir. eauto.
  - destruct ff; simpl; rewrite file_at_put by (by eapply file_at_dir); eauto.
Qed.

Lemma snapshot_ne p : wallet_db_snapshot_path p <> p.
Proof using Type.
  destruct p as [d f]. intros [= H]. apply (f_equal String.length) in H. rewrite string_length_app in H.
  simpl in H. lia.
Qed.

(** *** The theorems *)

(** Before the migration, when its three calls work: the directory, the
    snapshot and its permissions. *)
Lemma snapshot_taken ff dir dek create q c :
  works q -> works (next_faults q) -> works (next_faults (next_faults q)) ->
  file_at q (wallet_db_path dir) = Some c ->
  let db := wallet_db_path dir in
  let snapshot := wallet_db_snapshot_path db in
  let q1 := next_faults (put_file (next_faults (next_faults q)) snapshot c) in
  open_wallet_db_with_dek ff dir dek create q =
  let '(r, q2) := migrate ff db dek create q1 in
  match r with
  | Ok _ => (m_ignore (fs_remove_file snapshot) ;; mret db) q2
  | Err err =>
      (restored ← m_try (m_context ("failed to restore pre-migration snapshot: " +:+ snapshot.2
                                     +:+ " -> " +:+ db.2) (fs_copy snapshot db));
       (if is_ok restored then m_ignore fs_call else mret tt) ;;
       m_ignore (fs_remove_file snapshot) ;;
       match restored with
       | Ok _ => m_err err
       | Err restore_err =>
           m_err (AnyhowMsg (error_to_string err +:+ bytes [10%nat] +:+ error_to_string restore_err))
       end) q2
  end.
Proof using Type.
  intros Hw Hw1 Hw2 Hf db snapshot q1. pose proof (file_at_dir _ _ _ Hf) as Hdir. simpl in Hdir.
  unfold open_wallet_db_with_dek. rewrite m_get_bind.
  rewrite (bool_decide_eq_true_2 _ Hdir), orb_true_r.
  rewrite m_bind_eq, (m_context_Ok _ _ _ _ _ (create_dir_works q dir Hw Hdir)).
  cbv beta iota. rewrite m_get_bind, file_at_next. fold db snapshot.
  rewrite (bool_decide_eq_true_2 (is_Some (file_at q db))) by (unfold db; rewrite Hf; eauto).
  rewrite m_bind_eq, m_bind_eq, (m_context_Ok _ _ _ _ _ (fs_copy_works _ db snapshot c Hw1 Hf)).
  cbv beta iota. rewrite (m_context_Ok _ _ _ _ _ (fs_call_works (put_file _ snapshot c) Hw2)). fold q1.
  cbv beta iota. rewrite m_bind_eq. unfold m_try at 1.
  destruct (migrate ff db dek create q1) as [[u|e] q2]; reflexivity.
Qed.

(** Opening an existing database on a disk that works. *)
Lemma open_wallet_db_existing ff dir dek create q c :
  let db := wallet_db_path dir in
  let snapshot := wallet_db_snapshot_path db in
  q_faults q = [] -> file_at q db = Some c ->
  let '(r, q') := open_wallet_db_with_dek ff dir dek create q in
  file_at q' snapshot = None
  /\ match migrated ff create dek c with
     | Some c' => r = Ok db /\ file_at q' db = Some c'
     | None => is_ok r = false /\ file_at q' db = Some c
     end.
Proof using Type.
  intros db snapshot Hq Hf. destruct (open_wallet_db_with_dek ff dir dek create q) as [r q'] eqn:E. destruct (quiet_works q Hq) as [Hw Hn].
  pose proof (snapshot_taken ff dir dek create q c) as Hs. rewrite !Hn in Hs.
  rewrite (Hs Hw Hw Hw Hf) in E. fold db snapshot in E. clear Hs Hw Hn.
  destruct (quiet_works (put_file q snapshot c) Hq) as [_ Hn]. rewrite Hn in E. clear Hn.
  set (q1 := put_file q snapshot c) in *.
  assert (file_at q1 snapshot = Some c) as Hs1 by (apply file_at_put; exact (file_at_dir _ _ _ Hf)).
  assert (file_at q1 db = Some c) as Hf1
    by (unfold q1; rewrite file_at_put_ne; [done|apply not_eq_sym, snapshot_ne]).
  pose proof (migrate_touches ff db dek create q1) as Ht.
  pose proof (migrate_quiet ff db dek create q1 c Hq Hf1) as Hm.
  destruct (migrate ff db dek create q1) as [r1 q2]. destruct Hm as [[x Hx] Hm].
  destruct Ht as [_ Hfiles _ Hquiet]. simpl in *. specialize (Hquiet Hq).
  rewrite <- (Hfiles snapshot (snapshot_ne db)) in Hs1.
  destruct (quiet_works q2 Hquiet) as [Hw2 Hn2].
  assert (forall q, q_faults q = [] -> file_at q snapshot = Some c ->
    fs_remove_file snapshot q = (Ok tt, drop_file q snapshot)) as Hrm.
  { intros q3 H3 H4. destruct (quiet_works q3 H3) as [Hw Hn]. by rewrite (fs_remove_works _ _ c), Hn. }
  destruct (migrated ff create dek c) as [c'|]; [destruct Hm as [-> Hc']|]; [|destruct r1 as [u|err]; [done|]].
  - revert E. rewrite m_bind_eq. unfold m_ignore. rewrite Hrm by done. intros [= <- <-].
    rewrite file_at_drop, file_at_drop_ne by (apply not_eq_sym, snapshot_ne). done.
  - revert E. rewrite m_bind_eq. unfold m_try, m_context. rewrite (fs_copy_works q2 snapshot db c Hw2 Hs1), Hn2.
    simpl. set (q3 := put_file q2 db c). rewrite m_bind_eq. unfold m_ignore. rewrite (fs_call_quiet q3) by done.
    simpl snd. rewrite m_bind_eq. simpl snd.
    rewrite (Hrm q3); [|done|unfold q3; rewrite file_at_put_ne; [done|apply snapshot_ne]].
    intros [= <- <-]. rewrite file_at_drop, file_at_drop_ne by (apply not_eq_sym, snapshot_ne).
    split; [done|]. split; [done|]. apply file_at_put. by eapply file_at_dir.
Qed.

(** A migration that succeeds, whatever the disk does. *)
Lemma migrate_Ok ff p dek create q c u q' :
  file_at q p = Some c -> migrate ff p dek create q = (Ok u, q') ->
  exists c', migrated ff create dek c = Some c' /\ file_at q' p = Some c'.
Proof using Type.
  intros Hf. unfold migrate, migrated, open_sqlcipher_connection, open_sqlcipher_db.
  rewrite m_bind_eq, m_bind_eq, m_get_bind, Hf. destruct (sql_open create dek (Some c)) as [o f].
  rewrite m_bind_eq, write_db_run, m_bind_eq. unfold m_lift. destruct o as [[]|e]; [|done]. simpl.
  set (q1 := match f with Some x => put_file q p x | None => q end).
  assert (file_at q1 p = Some (default c f)) as Hf1.
  { unfold q1. destruct f; [|done]. apply file_at_put. by eapply file_at_dir. }
  unfold m_context. destruct (fs_call q1) as [r q2] eqn:E2.
  assert (file_at q2 p = Some (default c f)) as Hf2.
  { pose proof (fs_call_touches (only p) q1) as Ht. rewrite E2 in Ht. rewrite <- Hf1. unfold fs_call in E2.
    by repeat case_match; simplify_eq/=. }
  destruct r as [u1|e]; simpl; [|done]. rewrite m_bind_eq. destruct sql_load_array as [e|[]]; simpl; [done|].
  rewrite m_bind_eq, (with_db_quiet _ _ _ _ _ Hf2). destruct (db_init _) as [[e|[]] c'] eqn:Ei; simpl; [done|].
  unfold validate_wallet_db. rewrite m_get_bind, m_bind_eq, file_at_put by by eapply file_at_dir.
  simpl. rewrite m_bind_eq. destruct (db_check c') as [e|[]]; simpl; [done|].
  destruct ff; simpl; [done|]. intros [= <- <-]. eexists. split; [done|]. apply file_at_put. by eapply file_at_dir.
Qed.

(** The answer says that the database could not be put back. *)
Definition restore_failed (dir : string) (e : error) : Prop :=
  let db := wallet_db_path dir in
  let snapshot := wallet_db_snapshot_path db in
  exists err, e = AnyhowMsg (err +:+ bytes [10%nat] +:+ ("failed to restore pre-migration snapshot: "
                             +:+ snapshot.2 +:+ " -> " +:+ db.2)).

(** What opening an existing database leaves in it. *)
Definition db_outcome (ff create : bool) (dir dek c : string) (r : result Path) (after : option string) : Prop :=
  match r with
  | Ok p => p = wallet_db_path dir /\ exists c', migrated ff create dek c = Some c' /\ after = Some c'
  | Err e => after = Some c \/ restore_failed dir e
  end.

Lemma works_dec q : {works q} + {head (q_faults q) = Some true}.
Proof using Type. unfold works. destruct (q_faults q) as [|[] l]; simpl; auto. Qed.

Lemma ignored_keeps {A} (m : M QueueState A) p p' q :
  m_pres (touches (only p)) m -> p' <> p -> file_at (m_ignore m q).2 p' = file_at q p'.
Proof using Type. intros Hm Hp. specialize (Hm q). unfold m_ignore. simpl. by apply Hm. Qed.

Lemma open_wallet_db_any_faults ff dir dek create q c :
  let db := wallet_db_path dir in
  file_at q db = Some c ->
  let '(r, q') := open_wallet_db_with_dek ff dir dek create q in
  db_outcome ff create dir dek c r (file_at q' db).
Proof using Type.
  intros db Hf. set (snapshot := wallet_db_snapshot_path db).
  destruct (open_wallet_db_with_dek ff dir dek create q) as [r q'] eqn:E. revert E.
  pose proof (file_at_dir _ _ _ Hf) as Hdir. simpl in Hdir.
  destruct (works_dec q) as [Hw|Hw].
  2:{ unfold open_wallet_db_with_dek. rewrite m_get_bind, (bool_decide_eq_true_2 _ Hdir), orb_true_r, m_bind_eq.
      unfold m_context, create_dir_all_secure. rewrite m_bind_eq, (fs_call_fails q Hw). intros [= <- <-]. by left. }
  destruct (works_dec (next_faults q)) as [Hw1|Hw1].
  2:{ unfold open_wallet_db_with_dek. rewrite m_get_bind, (bool_decide_eq_true_2 _ Hdir), orb_true_r, m_bind_eq.
      rewrite (m_context_Ok _ _ _ _ _ (create_dir_works q dir Hw Hdir)). cbv beta iota.
      rewrite m_get_bind, file_at_next. fold db snapshot.
      rewrite (bool_decide_eq_true_2 (is_Some (file_at q db))) by (rewrite Hf; eauto).
      rewrite m_bind_eq, m_bind_eq. unfold m_context at 1. rewrite (fs_copy_fails _ _ _ Hw1). intros [= <- <-]. by left. }
  destruct (works_dec (next_faults (next_faults q))) as [Hw2|Hw2].
  2:{ unfold open_wallet_db_with_dek. rewrite m_get_bind, (bool_decide_eq_true_2 _ Hdir), orb_true_r, m_bind_eq.
      rewrite (m_context_Ok _ _ _ _ _ (create_dir_works q dir Hw Hdir)). cbv beta iota.
      rewrite m_get_bind, file_at_next. fold db snapshot.
      rewrite (bool_decide_eq_true_2 (is_Some (file_at q db))) by (rewrite Hf; eauto).
      rewrite m_bind_eq, m_bind_eq, (m_context_Ok _ _ _ _ _ (fs_copy_works _ db snapshot c Hw1 Hf)). cbv beta iota.
      unfold m_context at 1. rewrite (fs_call_fails (put_file _ snapshot c) Hw2). intros [= <- <-]. left.
      rewrite file_at_next, file_at_put_ne; [done|apply not_eq_sym, snapshot_ne]. }
  rewrite (snapshot_taken ff dir dek create q c Hw Hw1 Hw2 Hf). fold db snapshot. set (q1 := next_faults _).
  assert (file_at q1 db = Some c) as Hf1
    by (unfold q1; rewrite file_at_next, file_at_put_ne; [done|apply not_eq_sym, snapshot_ne]).
  assert (file_at q1 snapshot = Some c) as Hs1
    by (unfold q1; rewrite file_at_next, file_at_put; [done|exact Hdir]).
  destruct (migrate ff db dek create q1) as [[u|e] q2] eqn:E2.
  - destruct (migrate_Ok _ _ _ _ _ _ _ _ Hf1 E2) as (c' & Hm & Hc'). rewrite m_bind_eq.
    pose proof (ignored_keeps (fs_remove_file snapshot) snapshot db q2 (fs_remove_file_touches snapshot)
      (not_eq_sym (snapshot_ne db))) as Hk.
    unfold m_ignore in *. simpl in *. intros [= <- <-]. split; [done|]. exists c'. by rewrite Hk.
  - pose proof (migrate_touches ff db dek create q1) as Ht. rewrite E2 in Ht. destruct Ht as [_ Hfiles _ _].
    simpl in Hfiles. rewrite <- (Hfiles snapshot (snapshot_ne db)) in Hs1. rewrite m_bind_eq. unfold m_try, m_context.
    destruct (works_dec q2) as [Hw3|Hw3].
    + rewrite (fs_copy_works q2 snapshot db c Hw3 Hs1). simpl. rewrite m_bind_eq. unfold m_ignore at 1. simpl.
      set (q3 := (fs_call _).2).
      assert (file_at q3 db = Some c) as Hf3.
      { unfold q3. set (qq := put_file _ _ _). assert (file_at qq db = Some c) as <-
          by (apply file_at_put; destruct (migrate_touches ff db dek create q1) as [_ _ Hd _];
              rewrite E2 in Hd; apply Hd; exact (file_at_dir _ _ _ Hf1)).
        unfold fs_call. by repeat case_match. }
      rewrite m_bind_eq. pose proof (ignored_keeps (fs_remove_file snapshot) snapshot db q3
        (fs_remove_file_touches snapshot) (not_eq_sym (snapshot_ne db))) as Hk.
      unfold m_ignore in *. simpl in *. intros [= <- <-]. left. by rewrite Hk.
    + rewrite (fs_copy_fails q2 _ _ Hw3). simpl. rewrite m_bind_eq. simpl. rewrite m_bind_eq. simpl.
      intros [= <- <-]. right. by eexists.
Qed.

(** C16. The migration of a wallet database is all or nothing.  Whatever the
    disk and the library do, only the database and its snapshot can change;
    when opening an existing database succeeds, its contents are the old ones
    opened with the key, migrated and validated; when it fails, they are byte
    for byte the old ones, unless the error says that the snapshot could not
    be put back.  On a disk that works it succeeds exactly when opening,
    migrating and validating do, it puts the old contents back otherwise, and
    no snapshot is left behind.  (failed_restore_loses_database shows the
    other case.) *)
Theorem migration_all_or_nothing (ff create : bool) (dir dek : string) (q : QueueState) :
  let db := wallet_db_path dir in
  let snapshot := wallet_db_snapshot_path db in
  let '(r, q') := open_wallet_db_with_dek ff dir dek create q in
  (forall p, p <> db -> p <> snapshot -> file_at q' p = file_at q p)
  /\ (forall c, file_at q db = Some c ->
        match r with
        | Ok p => p = db /\ exists c', migrated ff create dek c = Some c' /\ file_at q' db = Some c'
        | Err e => file_at q' db = Some c \/ restore_failed dir e
        end)
  /\ forall c, q_faults q = [] -> file_at q db = Some c ->
       file_at q' snapshot = None
       /\ match migrated ff create dek c with
          | Some c' => r = Ok db /\ file_at q' db = Some c'
          | None => is_ok r = false /\ file_at q' db = Some c
          end.
Proof using Type.
  intros db snapshot. destruct (open_wallet_db_with_dek ff dir dek create q) as [r q'] eqn:E. split; [|split].
  - intros p H1 H2. pose proof (open_wallet_db_touches ff dir dek create q) as H. rewrite E in H.
    apply H. unfold db_files. fold db snapshot. naive_solver.
  - intros c Hf. pose proof (open_wallet_db_any_faults ff dir dek create q c Hf) as H. by rewrite E in H.
  - intros c Hq Hf. pose proof (open_wallet_db_existing ff dir dek create q c Hq Hf) as H. by rewrite E in H.
Qed.

(** A migration that opens the database and then fails inside the library. *)
Lemma migrate_fails ff p dek create q c c1 e c' :
  works q -> file_at q p = Some c -> sql_open create dek (Some c) = (Ok tt, c1) -> sql_load_array = inr tt ->
  db_init (default c c1) = (inl e, c') ->
  exists err q', migrate ff p dek create q = (Err err, q')
    /\ q_faults q' = tail (q_faults q) /\ file_at q' p = Some c'.
Proof using Type.
  intros Hw Hf Ho Ha Hi. unfold migrate, open_sqlcipher_connection, open_sqlcipher_db.
  rewrite m_bind_eq, m_bind_eq, m_get_bind, Hf, Ho, m_bind_eq, write_db_run, m_bind_eq. simpl.
  set (q1 := match c1 with Some x => put_file q p x | None => q end).
  assert (file_at q1 p = Some (default c c1) /\ works q1 /\ q_faults q1 = q_faults q) as (Hf1 & Hw1 & Hq1).
  { unfold q1. destruct c1; [|done]. split; [|done]. apply file_at_put. by eapply file_at_dir. }
  rewrite (fs_call_works q1 Hw1). simpl. rewrite m_bind_eq. unfold m_lift. rewrite Ha. simpl.
  rewrite m_bind_eq, (with_db_quiet _ _ _ (next_faults q1) (default c c1)), Hi by done. simpl.
  eexists _, _. split; [done|]. simpl. rewrite Hq1. split; [done|]. apply file_at_put.
  by apply (file_at_dir (next_faults q1) _ (default c c1)).
Qed.

(** A snapshot does not outlive a restore that failed.  When the
    migration fails half way, having changed the file, and the copy back
    fails too (a full disk does both), the snapshot is removed all the
    same: the half-migrated file is all that is left, although the snapshot
    held the wallet's last good database. *)
Theorem failed_restore_loses_database (ff create : bool) (dir dek e c c' : string) (c1 : option string)
    (q : QueueState) (faults : list bool) :
  let db := wallet_db_path dir in
  let snapshot := wallet_db_snapshot_path db in
  file_at q db = Some c ->
  sql_open create dek (Some c) = (Ok tt, c1) -> sql_load_array = inr tt ->
  db_init (default c c1) = (inl e, c') ->
  q_faults q = false :: false :: false :: false :: true :: false :: faults ->
  let '(r, q') := open_wallet_db_with_dek ff dir dek create q in
  is_ok r = false /\ file_at q' snapshot = None /\ file_at q' db = Some c'.
Proof using Type.
  intros db snapshot Hf Ho Ha Hi Hq.
  rewrite (snapshot_taken ff dir dek create q c); [|unfold works, next_faults; simpl; by rewrite Hq..|done].
  fold db snapshot. set (q1 := next_faults _).
  assert (q_faults q1 = false :: true :: false :: faults) as Hq1 by (simpl; by rewrite Hq).
  assert (file_at q1 db = Some c) as Hf1
    by (unfold q1; rewrite file_at_next, file_at_put_ne; [done|apply not_eq_sym, snapshot_ne]).
  assert (file_at q1 snapshot = Some c) as Hs1
    by (unfold q1; rewrite file_at_next, file_at_put; [done|exact (file_at_dir _ _ _ Hf)]).
  destruct (migrate_fails ff db dek create q1 c c1 e c') as (err & q2 & E2 & Hq2 & Hf2); try done.
  { unfold works. by rewrite Hq1. }
  pose proof (migrate_touches ff db dek create q1) as Ht. rewrite E2 in Ht |- *. destruct Ht as [_ Hfiles _ _].
  rewrite <- (Hfiles snapshot (snapshot_ne db)) in Hs1. clear Hfiles. rewrite Hq1 in Hq2. simpl in Hq2, Hs1.
  rewrite m_bind_eq. unfold m_try, m_context. rewrite (fs_copy_fails q2) by by rewrite Hq2. simpl fst. simpl snd.
  cbv beta iota. simpl is_ok. cbv iota. rewrite m_ret_bind, m_bind_eq. unfold m_ignore.
  rewrite (fs_remove_works (next_faults q2) snapshot c); [|by unfold works; simpl; rewrite Hq2|done].
  simpl. split; [done|]. split; [apply file_at_drop|].
  rewrite file_at_drop_ne by (apply not_eq_sym, snapshot_ne). done.
Qed.
End Migration.

(** ** Witnesses *)

(** A wallet directory with a database of [demo_dek]; the next calls fail as listed. *)
Definition demo_disk (faults : list bool) : QueueState :=
  mkQueueState {["/w" := {["wallet.sqlite" := demo_dek +:+ ";old"]}]} faults ∅.

(** A library whose migration writes and then fails. *)
Definition demo_failing_lib : WalletLib :=
  let lib := demo_wallet_lib in
  {| mnemonic_from_entropy := @mnemonic_from_entropy lib; mnemonic_parse := @mnemonic_parse lib;
     mnemonic_to_seed := @mnemonic_to_seed lib; sapling_activation := @sapling_activation lib;
     zip32_account_ok := @zip32_account_ok lib; spending_key_from_seed := @spending_key_from_seed lib;
     ufvk_decode := @ufvk_decode lib; hex_decode := @hex_decode lib; sql_open := @sql_open lib;
     sql_load_array := @sql_load_array lib;
     db_init c := (inl "disk full", c +:+ ";half");
     db_create_account := @db_create_account lib; db_import_ufvk := @db_import_ufvk lib;
     db_update_chain_tip := @db_update_chain_tip lib; db_check := @db_check lib;
     db_accounts := @db_accounts lib; db_unshielded := @db_unshielded lib |}.

Lemma migration_all_or_nothing_witness :
  let '(r, q') := open_wallet_db_with_dek (WL := demo_failing_lib) false "/w" demo_dek false (demo_disk []) in
  is_ok r = false /\ file_at q' ("/w", "wallet.sqlite") = Some (demo_dek +:+ ";old").
Proof.
  pose proof (migration_all_or_nothing (WL := demo_failing_lib) false false "/w" demo_dek (demo_disk [])) as H.
  cbv zeta in H. destruct (open_wallet_db_with_dek _ _ _ _ _) as [r q'].
  destruct H as [_ [_ H]]. exact (proj2 (H (demo_dek +:+ ";old") eq_refl eq_refl)).
Defined.

Lemma failed_restore_loses_database_witness :
  let '(r, q') := open_wallet_db_with_dek (WL := demo_failing_lib) false "/w" demo_dek false
                    (demo_disk [false; false; false; false; true; false]) in
  is_ok r = false /\ file_at q' ("/w", "wallet.sqlite.pre_migration") = None
  /\ file_at q' ("/w", "wallet.sqlite") = Some (demo_dek +:+ ";old;half").
Proof.
  exact (failed_restore_loses_database (WL := demo_failing_lib) false false "/w" demo_dek "disk full"
    (demo_dek +:+ ";old") (demo_dek +:+ ";old;half") None
    (demo_disk [false; false; false; false; true; false]) [] eq_refl eq_refl eq_refl eq_refl eq_refl).
Defined.
