(* ===== verification/WalletSafety.v ===== *)
(** Correctness of the wallet manager: the session (which wallet is active,
    and whether its key is in memory), the backup challenge, the status, the
    guards of spending and the migration of the wallet database.

    [Call] lists the calls of the API that change the manager; [run_call]
    runs one, so that the invariants are over all histories of calls,
    whatever the database and the disk do. *)
From S2P Require Import Prelude Text Domain AppDb Reauth Broadcast Servers BroadcastQueue Jobs.
From S2P Require Import Sends Shielding Encryption KeyStore WalletManager WalletFrames WalletDemo.
From Stdlib Require Import QArith.
Open Scope Z_scope.

(** ** Calls *)

Inductive Call :=
| CLoad (now now_ms : Z) (w : Uuid)
| CCreate (d : Draws) (name : string) (n : Network) (password : string) (birthday : option Z)
| CRestore (d : Draws) (name : string) (n : Network)
    (password seed_phrase : string) (date_ms : option Z)
| CKeystone (d : Draws) (name : string) (n : Network) (password ufvk : string) (birthday : option Z)
    (fingerprint : option string) (index : option Z)
| CUnlock (now : Z) (w : Uuid) (password : string)
| CLock (w : Uuid)
| CLogout (w : Uuid)
| CReauth (now : Z) (token : string) (w : Uuid) (password : string) (purpose : ReauthPurpose)
| CViewSeed (now : Z) (w : Uuid) (token : string)
| CChallenge (d : ChallengeDraw) (w : Uuid)
| CVerify (now_ms : Z) (w : Uuid) (challenge_id : string) (answers : gmap Z string)
| CProgress (w : Uuid) (p : SyncProgress)
| CStop (w : Uuid)
| CBalance (w : Uuid) (account : Z) (b : Balance)
| CImport (now_ms : Z) (w : Uuid) (ufvk name : string) (fingerprint : option string) (index : option Z)
| CPrepareSend (max_money : Z) (io : SendIo) (now : Z) (id : string) (account : Z)
    (recipient amount : string) (memo : option string) (allow : bool)
| CBuildSigning (max_money : Z) (io : SendIo) (now : Z) (id : string) (account : Z)
    (recipient amount : string) (memo : option string) (allow : bool)
| CFinalize (io : SendIo) (now : Z) (id payload token : string)
| CPrepareConfirmTask (now : Z) (id token : string)
| CPrepareShieldTask (now account : Z) (consolidate : bool) (token : string)
| CPrepareFinalizeTask (now : Z) (id payload token : string)
| CExecuteConfirm (io : SendIo) (now now_ms : Z) (task : ConfirmSendTask) (on : bool)
| CExecuteFinalize (io : SendIo) (now : Z) (task : FinalizeSigningTask)
| CExecuteShield (io : ShieldIo) (now now_ms : Z) (task : ShieldFundsTask) (on : bool)
| CRetry (io : RetryIo) (now : Z) (txid token : string) (on_tx on_failover : bool)
| CProcessRetries (io : RetryIo) (now1 now2 : Z) (on_tx on_failover : bool)
| CList (txid_display : string -> string) (memo_rows : string -> list string)
    (memo_parse : string -> option Memo) (io : SendIo) (rows : string -> list ViewRow)
    (chain_height : option Z) (now now_ms account : Z) (limit offset : nat)
| CStartSend (io_of : Proposal -> string -> string -> JobIo) (now : Z) (job id token : string)
    (on_progress on_tx : bool)
| CStartShield (io_of : bool -> string -> string -> JobIo) (now : Z) (job : string) (account : Z)
    (consolidate : bool) (token : string) (on_progress on_tx : bool)
| CCancel (job : string).

Section Session.
Context `{C : Crypto} `{KS : KeyStore} `{WL : WalletLib}.
Context (wallets_root : string) (from_slice : string -> option QueuedBroadcastMeta)
        (url_parse : string -> Url + ParseError) (debug : bool) (env_var : option string)
        (to_vec_pretty : QueuedBroadcastMeta -> string) (fl : Q -> Q)
        (send : nat -> string -> string -> option (result unit))
        (nonce : string -> string) (offset_ms : string -> Q).

Definition void {A} (m : M WM A) : M WM unit := m ≫= fun _ => mret tt.

Definition run_call (c : Call) : M WM unit :=
  match c with
  | CLoad now now_ms w => void (load_wallet wallets_root from_slice now now_ms w)
  | CCreate d name n pw b => void (create_wallet wallets_root from_slice d name n pw b)
  | CRestore d name n pw seed b => void (restore_wallet wallets_root from_slice d name n pw seed b)
  | CKeystone d name n pw u b f i => void (create_keystone_wallet wallets_root from_slice d name n pw u b f i)
  | CUnlock now w pw => void (unlock_wallet wallets_root from_slice now w pw)
  | CLock w => void (lock_wallet w)
  | CLogout w => logout_wallet w
  | CReauth now t w pw p => void (reauth_wallet now t w pw p)
  | CViewSeed now w t => void (view_seed_phrase now w t)
  | CChallenge d w => void (get_backup_challenge d w)
  | CVerify now w i a => verify_backup now w i a
  | CProgress w p => observe_sync_progress w p
  | CStop w => observe_sync_stop_requested w
  | CBalance w a b => observe_balance_changed w a b
  | CImport now w u name f i => void (import_ufvk now w u name f i)
  | CPrepareSend mm io now id a r z m al => void (wm_prepare_send mm io now id a r z m al)
  | CBuildSigning mm io now id a r z m al => void (wm_build_signing_request mm io now id a r z m al)
  | CFinalize io now id p t =>
      void (wm_finalize_signing from_slice url_parse debug env_var to_vec_pretty fl send nonce offset_ms io now id p t)
  | CPrepareConfirmTask now id t => void (prepare_confirm_send_task url_parse debug env_var now id t)
  | CPrepareShieldTask now a c t => void (prepare_shield_funds_task url_parse debug env_var now a c t)
  | CPrepareFinalizeTask now id p t => void (prepare_finalize_signing_task url_parse debug env_var now id p t)
  | CExecuteConfirm io now now_ms t on => void (on_tx
      (execute_prepared_confirm_send_task from_slice to_vec_pretty fl send nonce offset_ms io now now_ms t on))
  | CExecuteFinalize io now t => void (on_tx
      (execute_prepared_finalize_signing_task from_slice to_vec_pretty fl send nonce offset_ms io now t))
  | CExecuteShield io now now_ms t on => void (on_tx
      (execute_prepared_shield_funds_task from_slice to_vec_pretty fl send nonce offset_ms io now now_ms t on))
  | CRetry io now txid t a b =>
      void (wm_retry_broadcast from_slice url_parse debug env_var to_vec_pretty fl send io now txid t a b)
  | CProcessRetries io n1 n2 a b =>
      void (process_queued_broadcast_retries from_slice url_parse debug env_var to_vec_pretty fl send io n1 n2 a b)
  | CList td mr mp io rows ch now now_ms a l o =>
      void (wm_list_transactions from_slice td mr mp io rows ch now now_ms a l o)
  | CStartSend io now j id t a b => void (start_send_job url_parse debug env_var io now j id t a b)
  | CStartShield io now j ac co t a b => void (start_shield_job url_parse debug env_var io now j ac co t a b)
  | CCancel j => void (wm_cancel_job j)
  end.

(** A history: a failed call leaves the state it stopped in. *)
Definition run_calls (cs : list Call) (s : WM) : WM := foldl (fun s c => (run_call c s).2) s cs.

(** The calls of the life cycle. *)
Definition lifecycle (c : Call) : bool :=
  match c with
  | CLoad _ _ _ | CCreate _ _ _ _ _ | CRestore _ _ _ _ _ _ | CKeystone _ _ _ _ _ _ _ _
  | CUnlock _ _ _ | CLock _ | CLogout _ => true
  | _ => false
  end.

Lemma void_keeps {A} (m : M WM A) : m_pres keeps m -> m_pres keeps (void m).
Proof using Type. intros Hm. unfold void. m_pres_auto. Qed.

Lemma other_calls_keep c : lifecycle c = false -> m_pres keeps (run_call c).
Proof using Type.
  intros Hc. destruct c; try done; simpl; try apply void_keeps; try solve [eauto with zbag].
  - unfold observe_balance_changed. m_pres_auto.
  - unfold wm_prepare_send. m_pres_auto.
  - unfold wm_build_signing_request. m_pres_auto.
  - unfold wm_list_transactions. m_pres_auto.
Qed.

(** ** Sessions *)

(** The data key is the one that the stored parameters open to. *)
Definition stored_key (db : AppDb) (w : WalletInfo) (dek : string) : Prop :=
  exists meta password,
    find_first (encryption_key (wi_id w)) (adb_encryption db) ≫= encryption_of_row = Some meta
    /\ unwrap_dek (wi_id w) (wi_network w) password (em_kdf meta) (em_aead meta)
         (em_wrapped_dek_b64 meta) = Ok dek.

(** The wallet has a row with its network and directory. *)
Definition stored_wallet (db : AppDb) (w : WalletInfo) : Prop :=
  exists r, find_first (wallet_id_is (wi_id w)) (adb_wallets db) = Some r
    /\ parse_network_column (wr_network r) = wi_network w
    /\ parse_wallet_type_column (wr_wallet_type r) = wi_wallet_type w
    /\ wr_directory_path r = wallet_dir wallets_root (wi_id w) (wi_network w).

Definition active_ok (db : AppDb) (a : ActiveWallet) : Prop :=
  stored_wallet db (aw_wallet a)
  /\ aw_wallet_dir a = wallet_dir wallets_root (wi_id (aw_wallet a)) (wi_network (aw_wallet a))
  /\ match aw_lock_status a with
     | WalletLockStatus.Locked => aw_dek a = None /\ aw_wallet_db a = None
     | WalletLockStatus.Unlocked =>
         exists dek, aw_dek a = Some dek /\ String.length dek = 32%nat
           /\ aw_wallet_db a = Some (wallet_db_path (aw_wallet_dir a))
           /\ stored_key db (aw_wallet a) dek
     end.

Definition session_ok (s : WM) : Prop :=
  match wm_active s with None => True | Some a => active_ok (wm_db s) a end.

Definition inv_step (s s' : WM) : Prop := session_ok s -> session_ok s'.
#[local] Instance inv_step_preorder : PreOrder inv_step.
Proof using Type. unfold inv_step. split; [intros s; done|intros a b c ? ? ?; auto]. Qed.

Lemma stored_key_grows db db' w dek : enc_grows db db' -> stored_key db w dek -> stored_key db' w dek.
Proof using Type.
  intros [[l Hl] _] (meta & pw & Hm & Hu). exists meta, pw. split; [|done].
  destruct (find_first _ (adb_encryption db)) as [r|] eqn:E; [|done].
  by rewrite Hl, (find_first_app_l _ _ _ r).
Qed.

Lemma stored_wallet_grows db db' w : enc_grows db db' -> stored_wallet db w -> stored_wallet db' w.
Proof using Type.
  intros [_ Hw] (r & Hr & Hn & Ht & Hd). destruct (Hw _ _ Hr) as (r' & Hr' & Hn' & Ht' & Hd').
  exists r'. split; [done|]. rewrite Hn', Ht', Hd'. done.
Qed.

Lemma active_ok_grows db db' a : enc_grows db db' -> active_ok db a -> active_ok db' a.
Proof using Type.
  intros Hg (Hw & Hd & Ha). split; [by eapply stored_wallet_grows|]. split; [done|].
  destruct (aw_lock_status a); [done|]. destruct Ha as (dek & H1 & H2 & H3 & H4).
  exists dek. repeat split; try done. by eapply stored_key_grows.
Qed.

Lemma keeps_inv s s' : keeps s s' -> inv_step s s'.
Proof using Type.
  intros [Ha Hg]. unfold inv_step, session_ok. rewrite Ha. destruct (wm_active s) as [a|]; [|done].
  by apply active_ok_grows.
Qed.

(** The stored parameters of the wallet open to [k] with this password. *)
Definition password_opens (db : AppDb) (w : Uuid) (password k : string) : Prop :=
  exists r meta, find_first (wallet_id_is w) (adb_wallets db) = Some r
    /\ find_first (encryption_key w) (adb_encryption db) ≫= encryption_of_row = Some meta
    /\ unwrap_dek w (parse_network_column (wr_network r)) password (em_kdf meta) (em_aead meta)
         (em_wrapped_dek_b64 meta) = Ok k.

Lemma password_opens_grows db db' w pw k :
  enc_grows db db' -> password_opens db w pw k -> password_opens db' w pw k.
Proof using Type.
  intros [[l Hl] Hw] (r & meta & Hr & Hm & Hu). destruct (Hw _ _ Hr) as (r' & Hr' & Hn & _).
  exists r', meta. split; [done|]. rewrite Hn. split; [|done].
  destruct (find_first _ (adb_encryption db)) as [e|] eqn:E; [|done]. by rewrite Hl, (find_first_app_l _ _ _ e).
Qed.

(** The stored key is [dek] wrapped under this password with these parameters. *)
Definition key_sealed (db : AppDb) (w : Uuid) (n : Network) (password : string) (kdf : WalletKdfParams)
    (aead : WalletAeadParams) (dek : string) : Prop :=
  exists meta, find_first (encryption_key w) (adb_encryption db) ≫= encryption_of_row = Some meta
    /\ em_kdf meta = kdf /\ em_aead meta = aead
    /\ wrap_dek w n password kdf aead dek = Ok (em_wrapped_dek_b64 meta).

Lemma key_sealed_grows db db' w n pw kdf aead k :
  enc_grows db db' -> key_sealed db w n pw kdf aead k -> key_sealed db' w n pw kdf aead k.
Proof using Type.
  intros [[l Hl] _] (meta & Hm & H). exists meta. split; [|done].
  destruct (find_first _ (adb_encryption db)) as [e|] eqn:E; [|done]. by rewrite Hl, (find_first_app_l _ _ _ e).
Qed.

(** *** While a registered wallet is being made active *)

Definition registered (w : WalletInfo) (dek : string) (s : WM) : Prop :=
  stored_wallet (wm_db s) w /\ stored_key (wm_db s) w dek /\ String.length dek = 32%nat.

Lemma registered_keeps w dek s s' : keeps s s' -> registered w dek s -> registered w dek s'.
Proof using Type.
  intros [_ Hg] (H1 & H2 & H3). split; [by eapply stored_wallet_grows|]. split; [by eapply stored_key_grows|done].
Qed.

(** Steps that keep [Q], and the invariant as long as [Q] holds. *)
Definition under (Q : WM -> Prop) (s s' : WM) : Prop := Q s -> Q s' /\ inv_step s s'.
#[local] Instance under_preorder Q : PreOrder (under Q).
Proof using Type.
  split; [intros s Hs; split; [done|reflexivity]|]. intros a b c Hab Hbc HQ. destruct (Hab HQ) as [Hb H1], (Hbc Hb) as [Hc H2].
  split; [done|]. by transitivity b.
Qed.

Definition stable (Q : WM -> Prop) : Prop := forall s s', keeps s s' -> Q s -> Q s'.

Lemma keeps_under Q {A} (m : M WM A) : stable Q -> m_pres keeps m -> m_pres (under Q) m.
Proof using Type.
  intros HQ Hm. eapply m_pres_weaken; [|exact Hm]. intros s s' Hk Hs. split; [by eapply HQ|by apply keeps_inv].
Qed.

Lemma registered_stable w dek : stable (registered w dek).
Proof using Type. intros s s'. apply registered_keeps. Qed.

Lemma set_active_under Q a :
  (forall s, Q s -> Q (wm_set_active (Some a) s)) -> (forall s, Q s -> active_ok (wm_db s) a) ->
  m_pres (under Q) (set_active (Some a)).
Proof using Type. intros HQ Ha s Hs. split; [by apply HQ|]. intros _. exact (Ha s Hs). Qed.

Lemma activate_under d w dek conn :
  let dir := wallet_dir wallets_root (wi_id w) (wi_network w) in
  conn = wallet_db_path dir -> m_pres (under (registered w dek)) (activate from_slice d w dir dek conn).
Proof using Type.
  intros dir ->. unfold activate. pose proof (registered_stable w dek) as Hst.
  apply m_pres_bind; [apply _| |intros _].
  - apply set_active_under; [done|]. intros s (Hw & Hk & Hl). split; [done|]. split; [done|].
    simpl. eauto 10.
  - apply keeps_under; [done|]. m_pres_auto.
Qed.

(** *** Registration *)

Lemma on_app_db_run {A} (m : M AppDb A) s r s' :
  on_app_db m s = (r, s') -> exists db', m (wm_db s) = (r, db') /\ wm_db s' = db'.
Proof using Type.
  unfold on_app_db, on_tx, on_retry, on_db, m_zoom, wm_db. destruct (m _) as [r' db'].
  intros [= <- <-]. eauto.
Qed.

Lemma insert_wallet_Ok w dir db db' :
  insert_wallet w dir db = (Ok tt, db') ->
  find_first (wallet_id_is (wi_id w)) (adb_wallets db') = Some (row_of_wallet w dir).
Proof using Type.
  unfold insert_wallet, db_require, mbind, M_bind, m_get, m_put, m_err, mret, M_ret. db_step.
  destruct Hr as [-> | ->]; [|done]. destruct (wallet_exists db0 (wi_id w)) eqn:E; simpl; [done|].
  intros [= <-]. simpl. apply find_first_unique.
  - apply elem_of_app. right. by left.
  - unfold wallet_id_is. by apply bool_decide_eq_true.
  - intros y [Hy|Hy%list_elem_of_singleton]%elem_of_app Hp; [exfalso|done].
    apply not_true_iff_false in E. apply E. unfold wallet_exists. apply existsb_exists.
    exists y. split; [by apply list_elem_of_In|done].
Qed.

Lemma insert_encryption_Ok w meta db db' :
  insert_wallet_encryption w meta db = (Ok tt, db') ->
  find_first (encryption_key w) (adb_encryption db') = Some (row_of_encryption w meta).
Proof using Type.
  unfold insert_wallet_encryption, db_require, mbind, M_bind, m_get, m_put, m_err, mret, M_ret. db_step.
  destruct Hr as [-> | ->]; [|done]. destruct (wallet_exists db0 w); simpl; [|done].
  destruct (existsb (encryption_key w) _) eqn:E; simpl; [done|].
  intros [= <-]. simpl. apply find_first_unique.
  - apply elem_of_app. right. by left.
  - unfold encryption_key. by apply bool_decide_eq_true.
  - intros y [Hy|Hy%list_elem_of_singleton]%elem_of_app Hp; [exfalso|done].
    apply not_true_iff_false in E. apply E. apply existsb_exists.
    exists y. split; [by apply list_elem_of_In|done].
Qed.

Lemma register_wallet_keeps d w pw backup :
  m_pres enc_grows backup -> m_pres keeps (register_wallet wallets_root d w pw backup).
Proof using Type. intros Hb. unfold register_wallet. m_pres_auto. Qed.

Context `{L : !CryptoLaws C}.

(** A registration that succeeds leaves the wallet and its wrapped key in the
    database. *)
Lemma register_wallet_Ok d w pw backup s dir s' :
  m_pres enc_grows backup -> String.length (dr_dek d) = 32%nat ->
  register_wallet wallets_root d w pw backup s = (Ok dir, s') ->
  dir = wallet_dir wallets_root (wi_id w) (wi_network w) /\ registered w (dr_dek d) s'
  /\ password_opens (wm_db s') (wi_id w) pw (dr_dek d)
  /\ key_sealed (wm_db s') (wi_id w) (wi_network w) pw (default_kdf_params (dr_salt_b64 d))
       (default_aead_params (dr_nonce d)) (dr_dek d).
Proof using L.
  intros Hb Hk. unfold register_wallet.
  rewrite m_bind_eq. destruct (m_context _ _ s) as [[[]|] s1]; [|done].
  rewrite m_bind_eq. destruct (on_app_db (insert_wallet _ _) s1) as [[[]|] s2] eqn:E2; [|done].
  rewrite m_bind_eq. destruct (on_app_db backup s2) as [[[]|] s3] eqn:E3; [|done].
  rewrite m_bind_eq. simpl m_lift. cbv beta zeta.
  destruct (wrap_dek _ _ _ _ _ _) as [wrapped|] eqn:Ew; simpl; [|done].
  rewrite m_bind_eq. destruct (on_app_db (insert_wallet_encryption _ _) s3) as [[[]|] s4] eqn:E4; [|done].
  simpl. intros [= <- <-]. split; [done|].
  apply on_app_db_run in E2 as (db2 & E2%insert_wallet_Ok & <-).
  apply on_app_db_run in E3 as (db3 & E3 & <-).
  apply on_app_db_run in E4 as (db4 & E4 & <-).
  pose proof (insert_encryption_Ok _ _ _ _ E4) as Henc.
  pose proof (insert_wallet_encryption_grows (wi_id w) (mkWalletEncryptionMeta
    (default_kdf_params (dr_salt_b64 d)) (default_aead_params (dr_nonce d)) wrapped) (wm_db s3)) as G4.
  rewrite E4 in G4. pose proof (Hb (wm_db s2)) as G3. rewrite E3 in G3. simpl in *.
  assert (stored_wallet (wm_db s4) w) as Hw.
  { eapply stored_wallet_grows; [exact G4|]. eapply stored_wallet_grows; [exact G3|].
    eexists. split; [exact E2|]. simpl. rewrite parse_network_debug. by destruct (wi_wallet_type w). }
  assert (unwrap_dek (wi_id w) (wi_network w) pw (default_kdf_params (dr_salt_b64 d))
            (default_aead_params (dr_nonce d)) wrapped = Ok (dr_dek d)) as Hu by by apply unwrap_wrap.
  split; [split; [done|]; split; [|done]|split].
  - eexists _, pw. rewrite Henc. split; [done|]. exact Hu.
  - destruct Hw as (r & Hr & Hn & _). exists r. eexists. rewrite Henc, Hn. split; [done|]. split; [done|]. exact Hu.
  - eexists. rewrite Henc. split; [done|]. split; [done|]. split; [done|]. exact Ew.
Qed.

(** *** The database file *)

Lemma open_wallet_db_path ff dir dek create q p q' :
  open_wallet_db_with_dek ff dir dek create q = (Ok p, q') -> p = wallet_db_path dir.
Proof using Type.
  unfold open_wallet_db_with_dek. m_run. m_run; [|done]. m_run. m_run; [|done]. m_run; [|done].
  destruct a1 as [[]|err].
  - m_run; [|done]. by intros [= <- _].
  - m_if; [|by intros ?%m_err_Ok]. do 3 (m_run; [|done]).
    destruct a1; by intros ?%m_err_Ok.
Qed.

Lemma on_disk_run {A} (m : M QueueState A) s r s' :
  on_disk m s = (r, s') -> exists q', m (wm_queue s) = (r, q') /\ wm_queue s' = q'.
Proof using Type.
  unfold on_disk, on_tx, on_retry, on_queue, m_zoom, wm_queue. destruct (m _) as [r' q'].
  intros [= <- <-]. eauto.
Qed.

Lemma open_database_path c ff dir dek create s p s' :
  m_context c (on_disk (open_wallet_db_with_dek ff dir dek create)) s = (Ok p, s') -> p = wallet_db_path dir.
Proof using Type.
  unfold m_context. destruct (on_disk _ s) as [[x|] s1] eqn:E; [|done]. intros [= <- <-].
  apply on_disk_run in E as (q' & E & _). by apply open_wallet_db_path in E.
Qed.

Lemma init_database_path dir dek f c b s p s' :
  init_database dir dek f c b s = (Ok p, s') -> p = wallet_db_path dir.
Proof using Type.
  unfold init_database. m_run. m_run; [|done]. apply open_database_path in E as ->.
  do 2 (m_run; [|done]). by intros [= <- _].
Qed.

Lemma init_database_keeps dir dek f c b : m_pres keeps (init_database dir dek f c b).
Proof using Type. unfold init_database. m_pres_auto. Qed.
Hint Resolve init_database_keeps register_wallet_keeps : zbag.

(** *** The calls of the life cycle *)

Lemma set_backup_required_grows w b : m_pres enc_grows (set_backup_required w b).
Proof using Type. apply upsert_backup_grows. Qed.
Lemma mark_backup_complete_grows w t m : m_pres enc_grows (mark_backup_complete w t m).
Proof using Type. apply upsert_backup_grows. Qed.
Hint Resolve set_backup_required_grows mark_backup_complete_grows : zbag.

Lemma insert_account_keeps d w a : m_pres keeps (insert_account d w a).
Proof using Type. unfold insert_account. m_pres_auto. Qed.
Hint Resolve insert_account_keeps : zbag.

(** What follows a registration and the opening of the database. *)
Lemma registered_then {A} d w pw backup (k : string -> M WM A) :
  m_pres enc_grows backup -> String.length (dr_dek d) = 32%nat ->
  m_pres (under (registered w (dr_dek d))) (k (wallet_dir wallets_root (wi_id w) (wi_network w))) ->
  m_pres inv_step (register_wallet wallets_root d w pw backup ≫= k).
Proof using L.
  intros Hb Hk Hf.
  apply (m_pres_bind_post _ _ _ (fun dir s => dir = wallet_dir wallets_root (wi_id w) (wi_network w)
    /\ registered w (dr_dek d) s)).
  - eapply m_pres_weaken; [apply keeps_inv|]. eauto with zbag.
  - intros s dir s' E. by destruct (register_wallet_Ok _ _ _ _ _ _ _ Hb Hk E) as (? & ? & _).
  - intros dir s [-> HQ]. by apply Hf.
Qed.

Lemma opened_then {A} w dek (m : M WM Path) (k : Path -> M WM A) :
  let dir := wallet_dir wallets_root (wi_id w) (wi_network w) in
  m_pres keeps m -> (forall s p s', m s = (Ok p, s') -> p = wallet_db_path dir) ->
  m_pres (under (registered w dek)) (k (wallet_db_path dir)) ->
  m_pres (under (registered w dek)) (m ≫= k).
Proof using Type.
  intros dir Hm Hp Hk.
  apply (m_pres_bind_post _ _ _ (fun p _ => p = wallet_db_path dir)).
  - apply keeps_under; [apply registered_stable|done].
  - eauto.
  - intros p s ->. apply Hk.
Qed.

(** Steps that keep everything, then the rest. *)
Ltac keep_steps :=
  repeat (apply m_pres_bind; [apply _|apply keeps_under; [apply registered_stable|]; m_pres_auto; fail|intros ?]).

Lemma create_wallet_inv d name n pw b :
  String.length (dr_dek d) = 32%nat -> m_pres inv_step (create_wallet wallets_root from_slice d name n pw b).
Proof using L.
  intros Hk. unfold create_wallet.
  apply m_pres_bind; [apply _|apply m_pres_lift; apply _|intros _].
  apply m_pres_bind; [apply _|apply m_pres_lift; apply _|intros words].
  destruct (negb _); [apply m_pres_err; apply _|]. cbv zeta.
  apply registered_then; [auto with zbag|done|].
  apply opened_then; [auto with zbag|apply init_database_path|]. keep_steps.
  apply m_pres_bind; [apply _|by apply activate_under|intros _]. apply m_pres_ret. apply _.
Qed.

Lemma restore_wallet_inv d name n pw seed b :
  String.length (dr_dek d) = 32%nat ->
  m_pres inv_step (restore_wallet wallets_root from_slice d name n pw seed b).
Proof using L.
  intros Hk. unfold restore_wallet.
  apply m_pres_bind; [apply _|apply m_pres_lift; apply _|intros _].
  apply m_pres_bind; [apply _|apply m_pres_lift; apply _|intros words].
  destruct (negb _); [apply m_pres_err; apply _|]. cbv zeta.
  apply registered_then; [auto with zbag|done|].
  apply m_pres_bind; [apply _|apply m_pres_lift; apply _|intros enc].
  apply opened_then; [auto with zbag|apply init_database_path|]. keep_steps.
  apply m_pres_bind; [apply _|by apply activate_under|intros _]. apply m_pres_ret. apply _.
Qed.

Lemma create_keystone_wallet_inv d name n pw u b f i :
  String.length (dr_dek d) = 32%nat ->
  m_pres inv_step (create_keystone_wallet wallets_root from_slice d name n pw u b f i).
Proof using L.
  intros Hk. unfold create_keystone_wallet.
  apply m_pres_bind; [apply _|apply m_pres_lift; apply _|intros _].
  apply m_pres_bind; [apply _|apply m_pres_lift; apply _|intros parsed]. cbv zeta.
  apply registered_then; [auto with zbag|done|].
  apply m_pres_bind; [apply _|apply m_pres_get; apply _|intros s0].
  apply opened_then; [m_pres_auto|apply open_database_path|]. keep_steps.
  apply m_pres_bind; [apply _|by apply activate_under|intros _]. apply m_pres_ret. apply _.
Qed.

Lemma get_wallet_Ok w db wal dir db' :
  get_wallet w db = (Ok (Some (wal, dir)), db') ->
  exists r, find_first (wallet_id_is w) (adb_wallets db') = Some r /\ wal = wallet_of_row r
    /\ dir = wr_directory_path r /\ wi_id wal = w.
Proof using Type.
  unfold get_wallet, mbind, M_bind, m_get, mret, M_ret. db_step. destruct Hr as [-> | ->]; [|done].
  destruct (find_first _ _) as [r|] eqn:E; [|done]. intros [= <- <- <-]. exists r.
  apply find_first_Some in E as Hr. destruct Hr as [_ Hid]. apply bool_decide_eq_true in Hid. done.
Qed.

Lemma find_wallet_Ok w s wal dir s' :
  find_wallet wallets_root w s = (Ok (wal, dir), s') ->
  wi_id wal = w /\ dir = wallet_dir wallets_root (wi_id wal) (wi_network wal) /\ stored_wallet (wm_db s') wal.
Proof using Type.
  unfold find_wallet. m_run; [|done]. m_run; [|done]. destruct a0 as [wal0 dir0].
  unfold m_lift in E0. destruct a as [[wal1 dir1]|]; [|done]. simpl in E0. simplify_eq.
  m_if; [by intros ?%m_err_Ok|]. apply negb_false_iff, bool_decide_eq_true in Eb.
  intros H. assert (wal0 = wal /\ dir0 = dir /\ s1 = s') as (-> & -> & ->) by by injection H.
  apply on_app_db_run in E as (db' & E & Hdb). apply get_wallet_Ok in E as (r & Hr & Hw & Hd & Hid).
  split; [done|]. split; [done|]. rewrite Hdb. exists r. rewrite Hw at 1. rewrite Hid in *. subst wal. simpl in *.
  repeat split; try done; congruence.
Qed.

Lemma open_key_Ok wal w pw s dek s' :
  open_key wal w pw s = (Ok dek, s') -> wi_id wal = w -> stored_key (wm_db s') wal dek /\ String.length dek = 32%nat.
Proof using Type.
  intros H Hw. revert H. unfold open_key. m_run; [|done]. m_run; [|done].
  unfold m_lift in *. destruct a as [meta|]; [|done]. simpl in E0. simplify_eq.
  destruct (unwrap_dek _ _ _ _ _ _) as [k|] eqn:Eu; [|done]. intros [= <- <-].
  split; [|by eapply unwrap_dek_length]. eexists _, pw. split; [|exact Eu].
  apply on_app_db_run in E as (db' & E & Hdb). rewrite Hdb. revert E.
  unfold get_wallet_encryption, mbind, M_bind, m_get, mret, M_ret. db_step. destruct Hr as [-> | ->]; [|done].
  by intros [= <- <-].
Qed.

(** A wallet that was found stays so. *)
Lemma stored_wallet_stable wal : stable (fun s => stored_wallet (wm_db s) wal).
Proof using Type. intros s s' [_ Hg]. by apply stored_wallet_grows. Qed.

Lemma locked_ok db wal :
  stored_wallet db wal ->
  active_ok db (mkActiveWallet wal (wallet_dir wallets_root (wi_id wal) (wi_network wal))
                  WalletLockStatus.Locked None None).
Proof using Type. by intros Hw. Qed.

Lemma load_wallet_inv now now_ms w : m_pres inv_step (load_wallet wallets_root from_slice now now_ms w).
Proof using Type.
  unfold load_wallet.
  apply (m_pres_bind_post _ _ _ (fun '(wal, dir) s => wi_id wal = w
    /\ dir = wallet_dir wallets_root (wi_id wal) (wi_network wal) /\ stored_wallet (wm_db s) wal)).
  { eapply m_pres_weaken; [apply keeps_inv|]. eauto with zbag. }
  { intros s [wal dir] s' E. by apply find_wallet_Ok in E. }
  intros [wal dir] s (Hid & -> & HQ).
  match goal with |- inv_step ?s (?m ?s).2 => assert (m_pres (under (fun s => stored_wallet (wm_db s) wal)) m)
    as Hm; [|apply Hm, HQ] end. clear s HQ.
  pose proof (stored_wallet_stable wal) as Hst.
  assert (m_pres (under (fun s => stored_wallet (wm_db s) wal))
    (set_active (Some (mkActiveWallet wal (wallet_dir wallets_root (wi_id wal) (wi_network wal))
       WalletLockStatus.Locked None None)) ≫= fun _ => scan_active from_slice now (wi_id wal)
         (wallet_dir wallets_root (wi_id wal) (wi_network wal)) ≫= fun _ =>
       maybe_emit_wallet_status (wi_id wal) ≫= fun _ => mret (wal, WalletLockStatus.Locked))) as Hlock.
  { apply m_pres_bind; [apply _|apply set_active_under; [done|intros s Hs; by apply locked_ok]|intros _].
    apply keeps_under; [done|]. m_pres_auto. }
  apply m_pres_bind; [apply _|apply keeps_under; [done|m_pres_auto]|intros _].
  intros s HQ. rewrite m_get_bind. destruct (wm_active s) as [act|] eqn:Ea; [|by apply Hlock].
  destruct (_ && _) eqn:Eb; [|by apply Hlock]. split; [done|].
  unfold inv_step, session_ok. rewrite Ea. intros (Hw & Hd & Hl). cbn.
  apply andb_true_iff in Eb as [Eb _]. apply andb_true_iff in Eb as [Eb _].
  apply andb_true_iff in Eb as [Eid Eu]. unfold is_unlocked in Eu.
  apply bool_decide_eq_true in Eid, Eu. rewrite Eu in Hl.
  assert (wi_network (aw_wallet act) = wi_network wal) as Hn.
  { destruct Hw as (r & Hr & Hn & _), HQ as (r' & Hr' & Hn' & _).
    assert (r = r') as -> by (rewrite Eid, <- Hid in Hr; congruence). congruence. }
  split; [done|]. simpl. rewrite Eu. split; [by rewrite Hd, Eid, Hn, <- Hid|].
  destruct Hl as (dek & ? & ? & ? & (meta & pw & Hk)). exists dek. repeat split; try done.
  exists meta, pw. by rewrite Eid, Hn, <- Hid in Hk.
Qed.

Lemma unlock_wallet_inv now w pw : m_pres inv_step (unlock_wallet wallets_root from_slice now w pw).
Proof using Type.
  unfold unlock_wallet.
  apply (m_pres_bind_post _ _ _ (fun '(wal, dir) s => wi_id wal = w
    /\ dir = wallet_dir wallets_root (wi_id wal) (wi_network wal) /\ stored_wallet (wm_db s) wal)).
  { eapply m_pres_weaken; [apply keeps_inv|]. eauto with zbag. }
  { intros s [wal dir] s' E. by apply find_wallet_Ok in E. }
  intros [wal dir] s (Hid & -> & HQ). rewrite m_bind_eq.
  destruct (open_key wal w pw s) as [[dek|e] s1] eqn:Ek.
  2:{ simpl. apply keeps_inv. pose proof (open_key_keeps wal w pw s) as H. by rewrite Ek in H. }
  pose proof (open_key_keeps wal w pw s) as Hk1. rewrite Ek in Hk1. simpl in Hk1.
  apply open_key_Ok in Ek as [Hkey Hlen]; [|done].
  assert (registered wal dek s1) as Hreg.
  { split; [by eapply stored_wallet_stable|]. done. }
  transitivity s1; [by apply keeps_inv|].
  match goal with |- inv_step ?s (?m ?s).2 => assert (m_pres (under (registered wal dek)) m)
    as Hm; [|apply Hm, Hreg] end. clear.
  pose proof (registered_stable wal dek) as Hst. unfold finish_unlock.
  apply m_pres_bind; [apply _|apply m_pres_get; apply _|intros s0].
  apply opened_then; [m_pres_auto|apply open_database_path|]. keep_steps.
  apply m_pres_bind; [apply _| |intros _].
  - apply set_active_under; [done|]. intros s (Hw & Hk & Hl). split; [done|]. split; [done|]. simpl. eauto 10.
  - apply keeps_under; [done|]. m_pres_auto.
Qed.

Lemma lock_wallet_inv w : m_pres inv_step (lock_wallet w).
Proof using Type.
  intros s. unfold lock_wallet. rewrite m_get_bind. destruct (wm_active s) as [a|] eqn:Ea; [|reflexivity].
  destruct (negb _); [reflexivity|]. unfold set_active. rewrite m_modify_bind.
  match goal with |- inv_step s (?m ?s1).2 => transitivity s1; [|apply keeps_inv;
    assert (m_pres keeps m) as Hm by m_pres_auto; apply Hm] end.
  unfold inv_step, session_ok. rewrite Ea. intros (Hw & Hd & _). split; done.
Qed.

Lemma logout_wallet_inv w : m_pres inv_step (logout_wallet w).
Proof using Type.
  intros s. unfold logout_wallet. rewrite m_get_bind. destruct (wm_active s) as [a|] eqn:Ea; [|reflexivity].
  destruct (negb _); [reflexivity|]. unfold inv_step. done.
Qed.

(** The random key of a new wallet has 32 bytes. *)
Definition call_ok (c : Call) : Prop :=
  match c with
  | CCreate d _ _ _ _ | CRestore d _ _ _ _ _ | CKeystone d _ _ _ _ _ _ _ => String.length (dr_dek d) = 32%nat
  | _ => True
  end.

Lemma void_inv {A} (m : M WM A) : m_pres inv_step m -> m_pres inv_step (void m).
Proof using Type. intros Hm. unfold void. apply m_pres_bind; [apply _|done|intros ?]. apply m_pres_ret. apply _. Qed.

Lemma run_call_inv c : call_ok c -> m_pres inv_step (run_call c).
Proof using L.
  intros Hc. destruct (lifecycle c) eqn:El.
  2:{ eapply m_pres_weaken; [apply keeps_inv|]. by apply other_calls_keep. }
  destruct c; try done; simpl; try apply void_inv.
  - apply load_wallet_inv.
  - by apply create_wallet_inv.
  - by apply restore_wallet_inv.
  - by apply create_keystone_wallet_inv.
  - apply unlock_wallet_inv.
  - apply lock_wallet_inv.
  - apply logout_wallet_inv.
Qed.

(** ** The abstract session *)

Inductive SessionState :=
| NoWallet
| LockedWallet (w : Uuid)
| UnlockedWallet (w : Uuid) (dek : string).

Definition session_of_active (o : option ActiveWallet) : SessionState :=
  match o with
  | None => NoWallet
  | Some a =>
      match aw_lock_status a, aw_dek a with
      | WalletLockStatus.Unlocked, Some dek => UnlockedWallet (wi_id (aw_wallet a)) dek
      | _, _ => LockedWallet (wi_id (aw_wallet a))
      end
  end.

Definition session_of (s : WM) : SessionState := session_of_active (wm_active s).

Definition session_wallet (x : SessionState) : option Uuid :=
  match x with NoWallet => None | LockedWallet w | UnlockedWallet w _ => Some w end.

(** The session machine that users rely on; [k] is the key that the password
    of an unlock opens. *)
Definition session_next (c : Call) (k : string) (x : SessionState) : SessionState :=
  match c with
  | CLoad _ _ w =>
      match x with
      | UnlockedWallet w' _ => if bool_decide (w' = w) then x else LockedWallet w
      | _ => LockedWallet w
      end
  | CUnlock _ w _ => UnlockedWallet w k
  | CCreate d _ _ _ _ | CRestore d _ _ _ _ _ | CKeystone d _ _ _ _ _ _ _ =>
      UnlockedWallet (dr_uuid d) (dr_dek d)
  | CLock w => if bool_decide (session_wallet x = Some w) then LockedWallet w else x
  | CLogout w => if bool_decide (session_wallet x = Some w) then NoWallet else x
  | _ => x
  end.

(** Steps that keep the session or move it to [x]. *)
Definition moves (x : SessionState) (s s' : WM) : Prop :=
  session_of s' = session_of s \/ session_of s' = x.
#[local] Instance moves_preorder x : PreOrder (moves x).
Proof using Type. unfold moves. split; [intros s; by left|]. intros a b c [H1|H1] [H2|H2]; rewrite ?H2; auto. Qed.

(** [m] ends, when it succeeds, in the session [x]. *)
Definition ends_in {A} (x : SessionState) (m : M WM A) : Prop :=
  forall s a s', m s = (Ok a, s') -> session_of s' = x.

Lemma keeps_session s s' : keeps s s' -> session_of s' = session_of s.
Proof using Type. intros [Ha _]. unfold session_of. by rewrite Ha. Qed.

Lemma keeps_moves x {A} (m : M WM A) : m_pres keeps m -> m_pres (moves x) m.
Proof using Type. apply m_pres_weaken. intros s s' Hk. left. by apply keeps_session. Qed.

Lemma ends_in_bind {A B} x (m : M WM A) (f : A -> M WM B) :
  (forall a, ends_in x (f a)) -> ends_in x (m ≫= f).
Proof using Type. intros Hf s b s'. m_run; [|done]. apply Hf. Qed.

Lemma ends_in_pair {A B C'} x (m : M WM (A * B)) (f : A -> B -> M WM C') :
  (forall a b, ends_in x (f a b)) -> ends_in x (m ≫= fun '(a, b) => f a b).
Proof using Type. intros Hf. apply ends_in_bind. by intros [a b]. Qed.

Lemma ends_in_err {A} x e : ends_in x (m_err e : M WM A).
Proof using Type. by intros s a s' ?%m_err_Ok. Qed.

Lemma ends_in_set {B} a (f : unit -> M WM B) :
  (forall u, m_pres keeps (f u)) -> ends_in (session_of_active (Some a)) (set_active (Some a) ≫= f).
Proof using Type.
  intros Hf s b s' H. unfold set_active in H. rewrite m_modify_bind in H.
  pose proof (keeps_session _ _ (Hf tt (wm_set_active (Some a) s))) as Hs. rewrite H in Hs. exact Hs.
Qed.

Lemma set_active_moves {B} a (f : unit -> M WM B) :
  (forall u, m_pres keeps (f u)) -> m_pres (moves (session_of_active (Some a))) (set_active (Some a) ≫= f).
Proof using Type.
  intros Hf. apply m_pres_bind; [apply _| |intros u; apply keeps_moves, Hf]. intros s. by right.
Qed.

Lemma activate_moves d w dir dek conn :
  m_pres (moves (UnlockedWallet (wi_id w) dek)) (activate from_slice d w dir dek conn).
Proof using Type.
  unfold activate. apply (set_active_moves (mkActiveWallet w dir WalletLockStatus.Unlocked (Some dek) (Some conn))).
  intros u. m_pres_auto.
Qed.

Lemma activate_ends d w dir dek conn :
  ends_in (UnlockedWallet (wi_id w) dek) (activate from_slice d w dir dek conn).
Proof using Type.
  unfold activate. apply (ends_in_set (mkActiveWallet w dir WalletLockStatus.Unlocked (Some dek) (Some conn))).
  intros u. m_pres_auto.
Qed.

(** Follows the code of a creation up to its activation. *)
Ltac moves_auto :=
  repeat match goal with
  | |- m_pres (moves _) (activate _ _ _ _ _ _) => apply activate_moves
  | |- m_pres (moves _) (mret _) => apply m_pres_ret; apply _
  | |- m_pres (moves _) (_ ≫= _) =>
      apply m_pres_bind; [apply _|first [apply activate_moves | apply keeps_moves; m_pres_auto; fail]|intros ?]
  | |- m_pres (moves _) (if ?x then _ else _) => destruct x
  | |- m_pres (moves _) (m_err _) => apply m_pres_err; apply _
  | |- m_pres (moves _) (let _ := _ in _) => cbv zeta
  end.

Lemma ends_in_last {A B} x (m : M WM A) (b : A -> B) : ends_in x m -> ends_in x (m ≫= fun a => mret (b a)).
Proof using Type. intros Hm s v s'. m_run; [|done]. simpl. intros [= _ <-]. by eapply Hm. Qed.

Ltac ends_auto :=
  repeat match goal with
  | |- ends_in _ (activate _ _ _ _ _ _ ≫= _) => apply ends_in_last, activate_ends
  | |- ends_in _ (_ ≫= _) => apply ends_in_bind; intros ?
  | |- ends_in _ (if ?x then _ else _) => destruct x
  | |- ends_in _ (m_err _) => apply ends_in_err
  | |- ends_in _ (let _ := _ in _) => cbv zeta
  end.

Lemma creations_move c :
  match c with
  | CCreate d _ _ _ _ | CRestore d _ _ _ _ _ | CKeystone d _ _ _ _ _ _ _ =>
      m_pres (moves (UnlockedWallet (dr_uuid d) (dr_dek d))) (run_call c)
      /\ ends_in (UnlockedWallet (dr_uuid d) (dr_dek d)) (run_call c)
  | _ => True
  end.
Proof using Type.
  destruct c; try done; simpl; unfold void.
  - split; [apply m_pres_bind; [apply _| |intros ?; apply m_pres_ret; apply _]|apply ends_in_last];
      unfold create_wallet; [moves_auto|ends_auto].
  - split; [apply m_pres_bind; [apply _| |intros ?; apply m_pres_ret; apply _]|apply ends_in_last];
      unfold restore_wallet; [moves_auto|ends_auto].
  - split; [apply m_pres_bind; [apply _| |intros ?; apply m_pres_ret; apply _]|apply ends_in_last];
      unfold create_keystone_wallet; [moves_auto|ends_auto].
Qed.

(** What the abstract machine allows a call to do. *)
Definition refines {A} (c : Call) (k : string) (m : M WM A) (s : WM) : Prop :=
  moves (session_next c k (session_of s)) s (m s).2
  /\ (is_ok (m s).1 = true -> session_of (m s).2 = session_next c k (session_of s)).

Lemma refines_void {A} c k (m : M WM A) s : refines c k m s -> refines c k (void m) s.
Proof using Type.
  unfold refines, void. rewrite m_bind_eq. destruct (m s) as [[a|e] s']; done.
Qed.

(** A first step that keeps the session. *)
Lemma refines_bind {A B} c k (m : M WM A) (f : A -> M WM B) s :
  m_pres keeps m ->
  (forall a s', m s = (Ok a, s') -> keeps s s' -> refines c k (f a) s') -> refines c k (m ≫= f) s.
Proof using Type.
  intros Hm Hf. specialize (Hm s). unfold refines. rewrite m_bind_eq.
  destruct (m s) as [[a|e] s1] eqn:E; simpl in *.
  - destruct (Hf a s1 eq_refl Hm) as [H1 H2]. rewrite (keeps_session _ _ Hm) in H1, H2.
    unfold moves in *. by rewrite (keeps_session _ _ Hm) in H1.
  - split; [|done]. left. by apply keeps_session.
Qed.

Lemma refines_ends {A} c k (m : M WM A) s x :
  session_next c k (session_of s) = x -> m_pres (moves x) m -> ends_in x m -> refines c k m s.
Proof using Type.
  intros <- Hm He. split; [apply Hm|]. specialize (He s). destruct (m s) as [[a|e] s']; [|done].
  intros _. by apply (He a).
Qed.

Lemma session_ok_keeps s s' : keeps s s' -> session_ok s -> session_ok s'.
Proof using Type. apply keeps_inv. Qed.

Lemma load_wallet_refines now now_ms w k s :
  session_ok s -> refines (CLoad now now_ms w) k (load_wallet wallets_root from_slice now now_ms w) s.
Proof using Type.
  intros Hok. unfold load_wallet. apply refines_bind; [auto with zbag|].
  intros [wal dir] s1 E1 K1. apply find_wallet_Ok in E1 as (Hid & _ & _).
  apply refines_bind; [auto with zbag|]. intros _ s2 _ K2.
  pose proof (session_ok_keeps _ _ K2 (session_ok_keeps _ _ K1 Hok)) as Hok2. clear K1 K2 Hok s s1.
  assert (forall x : WalletLockStatus, session_next (CLoad now now_ms w) k (session_of s2) = LockedWallet w ->
    refines (CLoad now now_ms w) k (set_active (Some (mkActiveWallet wal dir WalletLockStatus.Locked None None))
      ≫= fun _ => scan_active from_slice now (wi_id wal) dir ≫= fun _ => maybe_emit_wallet_status (wi_id wal)
      ≫= fun _ => mret (wal, x)) s2) as Hlock.
  { intros x Hx. eapply refines_ends; [exact Hx|..]; subst w;
      [apply (set_active_moves (mkActiveWallet wal dir WalletLockStatus.Locked None None))
      |apply (ends_in_set (mkActiveWallet wal dir WalletLockStatus.Locked None None))]; intros u; m_pres_auto. }
  unfold refines. rewrite m_get_bind.
  unfold session_ok in Hok2. destruct (wm_active s2) as [act|] eqn:Ea;
    [|apply Hlock; unfold session_of; by rewrite Ea].
  destruct Hok2 as (_ & _ & Hl). destruct (_ && _) eqn:Eb.
  - apply andb_true_iff in Eb as [Eb _]. apply andb_true_iff in Eb as [Eb _].
    apply andb_true_iff in Eb as [Eid Eu]. apply bool_decide_eq_true in Eid, Eu. rewrite Eu in Hl.
    destruct Hl as (dek & Hd & _). unfold set_active. rewrite m_modify_bind. unfold moves, session_of. simpl.
    rewrite Ea. simpl. rewrite Eu, Hd. rewrite bool_decide_eq_true_2 by done. rewrite Hid, Eid. auto.
  - apply Hlock. unfold session_of. rewrite Ea. simpl.
    destruct (aw_lock_status act) eqn:Eu; [done|]. destruct Hl as (dek & Hd & _ & Hdb & _). rewrite Hd.
    apply bool_decide_eq_false_2 || rewrite bool_decide_eq_false_2; [done|]. intros Hw. revert Eb.
    unfold is_unlocked. rewrite Eu, Hd, Hdb. rewrite !bool_decide_eq_true_2; done || eauto.
Qed.

Lemma wm_db_grows s s' : keeps s s' -> enc_grows (wm_db s) (wm_db s').
Proof using Type. by intros [_ Hg]. Qed.

Lemma open_key_opens wal w pw s dek s' :
  open_key wal w pw s = (Ok dek, s') -> wi_id wal = w -> stored_wallet (wm_db s) wal ->
  password_opens (wm_db s') w pw dek.
Proof using Type.
  intros H Hw Hst. pose proof (open_key_keeps wal w pw s) as Hk. rewrite H in Hk.
  apply (stored_wallet_grows _ _ _ (wm_db_grows _ _ Hk)) in Hst as (r & Hr & Hn & _). clear Hk.
  revert H. unfold open_key. m_run; [|done]. m_run; [|done].
  unfold m_lift in *. destruct a as [meta|]; [|done]. simpl in E0. simplify_eq.
  destruct (unwrap_dek _ _ _ _ _ _) as [k|] eqn:Eu; [|done]. intros [= <- <-].
  exists r, a0. split; [done|]. rewrite Hn. split; [|done].
  apply on_app_db_run in E as (db' & E & Hdb). rewrite Hdb. revert E.
  unfold get_wallet_encryption, mbind, M_bind, m_get, mret, M_ret. db_step. destruct Hr0 as [-> | ->]; [|done].
  by intros [= <- <-].
Qed.

Lemma finish_unlock_refines now w pw wal dir dek s :
  wi_id wal = w -> refines (CUnlock now w pw) dek (finish_unlock from_slice now w wal dir dek) s.
Proof using Type.
  intros Hid. unfold finish_unlock. apply refines_bind; [m_pres_auto|intros s0 s1 _ _].
  apply refines_bind; [m_pres_auto|]. intros conn s2 _ _.
  do 2 (apply refines_bind; [m_pres_auto; fail|intros ? ? _ _]).
  eapply refines_ends; [reflexivity|..]; simpl; rewrite <- Hid;
    [apply (set_active_moves (mkActiveWallet wal dir WalletLockStatus.Unlocked (Some dek) (Some conn)))
    |apply (ends_in_set (mkActiveWallet wal dir WalletLockStatus.Unlocked (Some dek) (Some conn)))];
    intros u; m_pres_auto.
Qed.

#[local] Instance wm_grows_preorder : PreOrder wm_grows.
Proof using Type. unfold wm_grows. split; [intros ?; reflexivity|intros ? ? ? ? ?; by etransitivity]. Qed.

Lemma finish_unlock_grows now w wal dir dek : m_pres wm_grows (finish_unlock from_slice now w wal dir dek).
Proof using Type.
  assert (forall A (m : M WM A), m_pres keeps m -> m_pres wm_grows m) as Hk
    by (intros A m; apply m_pres_weaken; by intros ? ? [_ ?]).
  unfold finish_unlock.
  repeat (apply m_pres_bind;
    [apply _|first [apply Hk; m_pres_auto; fail | intros x; unfold wm_grows; simpl; reflexivity]|intros ?]).
  apply m_pres_ret. apply _.
Qed.

Lemma unlock_wallet_refines now w pw s :
  let m := unlock_wallet wallets_root from_slice now w pw in
  (exists k, password_opens (wm_db (m s).2) w pw k /\ refines (CUnlock now w pw) k m s)
  \/ (is_ok (m s).1 = false /\ session_of (m s).2 = session_of s).
Proof using Type.
  intros m. pose proof (find_wallet_keeps wallets_root w s) as K1.
  destruct (find_wallet wallets_root w s) as [[[wal dir]|e] s1] eqn:E1; simpl in K1.
  2:{ right. unfold m, unlock_wallet. rewrite m_bind_eq, E1. split; [done|]. by apply keeps_session. }
  pose proof (find_wallet_Ok _ _ _ _ _ E1) as (Hid & _ & Hst).
  pose proof (open_key_keeps wal w pw s1) as K2.
  destruct (open_key wal w pw s1) as [[dek|e] s2] eqn:E2; simpl in K2.
  2:{ right. unfold m, unlock_wallet. rewrite m_bind_eq, E1, m_bind_eq, E2. split; [done|].
      simpl. rewrite (keeps_session _ _ K2). by apply keeps_session. }
  assert (m s = finish_unlock from_slice now w wal dir dek s2) as Hrun
    by (unfold m, unlock_wallet; by rewrite m_bind_eq, E1, m_bind_eq, E2).
  left. exists dek. pose proof (open_key_opens _ _ _ _ _ _ E2 Hid Hst) as Hop.
  pose proof (finish_unlock_refines now w pw wal dir dek s2 Hid) as [H1 H2].
  unfold refines, moves. rewrite Hrun. unfold moves in H1.
  rewrite (keeps_session _ _ K2), (keeps_session _ _ K1) in H1, H2. split; [|done].
  eapply password_opens_grows; [exact (finish_unlock_grows now w wal dir dek s2)|done].
Qed.

Lemma session_wallet_of s :
  session_wallet (session_of s) = (fun a => wi_id (aw_wallet a)) <$> wm_active s.
Proof using Type.
  unfold session_of, session_of_active. destruct (wm_active s) as [a|]; [|done].
  destruct (aw_lock_status a); [done|]. by destruct (aw_dek a).
Qed.

Lemma lock_wallet_refines w k s : refines (CLock w) k (lock_wallet w) s.
Proof using Type.
  unfold refines, lock_wallet. rewrite m_get_bind.
  unfold session_next. rewrite session_wallet_of. destruct (wm_active s) as [a|] eqn:Ea; simpl; [|by split; [left|]].
  destruct (bool_decide (wi_id (aw_wallet a) = w)) eqn:Ew; breflect; simpl.
  - rewrite bool_decide_eq_true_2 by congruence. unfold set_active. rewrite m_modify_bind.
    match goal with |- moves _ _ (?m ?s1).2 /\ _ => assert (m_pres keeps m) as Hm by m_pres_auto;
      pose proof (keeps_session _ _ (Hm s1)) as Hs end.
    unfold moves. rewrite Hs. unfold session_of. simpl. rewrite Ew. auto.
  - rewrite bool_decide_eq_false_2 by congruence. by split; [left|].
Qed.

Lemma logout_wallet_refines w k s : refines (CLogout w) k (logout_wallet w) s.
Proof using Type.
  unfold refines, logout_wallet. rewrite m_get_bind.
  unfold session_next. rewrite session_wallet_of. destruct (wm_active s) as [a|] eqn:Ea; simpl; [|by split; [left|]].
  destruct (bool_decide (wi_id (aw_wallet a) = w)) eqn:Ew; breflect; simpl.
  - rewrite bool_decide_eq_true_2 by congruence. split; [by right|done].
  - rewrite bool_decide_eq_false_2 by congruence. by split; [left|].
Qed.

Lemma run_call_refines c s :
  session_ok s ->
  let '(r, s') := run_call c s in
  exists k,
    (forall now w pw, c = CUnlock now w pw -> (r = Ok tt \/ session_of s' <> session_of s) ->
       password_opens (wm_db s') w pw k)
    /\ moves (session_next c k (session_of s)) s s'
    /\ (r = Ok tt -> session_of s' = session_next c k (session_of s)).
Proof using Type.
  intros Hok.
  assert (forall k, refines c k (run_call c) s -> (forall now w pw, c <> CUnlock now w pw) ->
    let '(r, s') := run_call c s in
    exists k, (forall now w pw, c = CUnlock now w pw -> (r = Ok tt \/ session_of s' <> session_of s) ->
       password_opens (wm_db s') w pw k)
    /\ moves (session_next c k (session_of s)) s s'
    /\ (r = Ok tt -> session_of s' = session_next c k (session_of s))) as Hdone.
  { unfold refines. intros k [H1 H2] Hc. destruct (run_call c s) as [r s']. exists k.
    split; [naive_solver|]. split; [done|]. intros ->. by apply H2. }
  destruct (lifecycle c) eqn:El.
  2:{ apply (Hdone ""); [|by intros ? ? ? ->]. pose proof (other_calls_keep c El s) as Hk.
      apply keeps_session in Hk. destruct c; try done; split; try (left; exact Hk); intros _; exact Hk. }
  pose proof (creations_move c) as Hcr.
  destruct c; try done; try (apply (Hdone ""); [|by intros]).
  - apply refines_void. by apply load_wallet_refines.
  - destruct Hcr as [Hm He]. by eapply refines_ends; [|exact Hm|exact He].
  - destruct Hcr as [Hm He]. by eapply refines_ends; [|exact Hm|exact He].
  - destruct Hcr as [Hm He]. by eapply refines_ends; [|exact Hm|exact He].
  - simpl run_call. pose proof (unlock_wallet_refines now w password s) as [(k & Hop & Href)|[He Hs]].
    + apply refines_void in Href as [H1 H2]. unfold void in *. rewrite m_bind_eq in H1, H2. rewrite m_bind_eq.
      destruct (unlock_wallet _ _ _ _ _ s) as [[x|e] s']; simpl in *; exists k;
        (split; [by intros ? ? ? [= <- <- <-] _|]); (split; [done|]); [auto|done].
    + unfold void. rewrite m_bind_eq. destruct (unlock_wallet _ _ _ _ _ s) as [[x|e] s']; [done|]. simpl in *.
      exists "". split; [naive_solver|]. split; [by left|done].
  - apply refines_void, lock_wallet_refines.
  - apply logout_wallet_refines.
Qed.

(** C15. The type of a session.  Over every history of calls, whatever fails
    in the database or on disk, the active wallet is well formed: its row,
    network and directory agree; a locked wallet holds neither key nor
    connection; an unlocked one holds a key of 32 bytes, which the stored
    parameters of that wallet open to with some password, and the
    connection to its own database.  Hence the checks of the operations
    that need the key and of those that need the database agree with the
    lock status that is shown. *)
Theorem session_well_typed (cs : list Call) (s : WM) :
  session_ok s -> Forall call_ok cs ->
  let s' := run_calls cs s in
  session_ok s'
  /\ forall w, (is_active_wallet_unlocked w s' = true <-> is_ok (require_unlocked_wallet_snapshot w s') = true)
      /\ (is_active_wallet_unlocked w s' = true <-> is_ok (require_unlocked_wallet_db w s') = true).
Proof using L.
  intros Hs Hcs. assert (session_ok (run_calls cs s)) as Hok.
  { revert s Hs. induction Hcs as [|c cs Hc _ IH]; intros s Hs; [done|]. apply IH. by apply run_call_inv. }
  split; [done|]. intros w. generalize (run_calls cs s) Hok. clear. intros s Hok.
  unfold is_active_wallet_unlocked, require_unlocked_wallet_snapshot, require_unlocked_wallet_db, is_unlocked.
  unfold session_ok in Hok. destruct (wm_active s) as [a|]; [|done]. destruct Hok as (_ & _ & Hl).
  destruct (bool_decide (wi_id (aw_wallet a) = w)); simpl; [|done].
  destruct (aw_lock_status a); simpl; [done|]. destruct Hl as (dek & -> & _ & -> & _). done.
Qed.

(** C6. The manager refines the session machine.  Every call moves the
    session (no wallet, a locked wallet, an unlocked wallet with its key)
    as the abstract machine [session_next] says when it succeeds, and when
    it fails either leaves the session alone or has made that same move
    before failing.  In particular only loading, creating, unlocking,
    locking and logging out change the session, a wallet becomes unlocked
    by its creation or by a password that opens its stored key, and
    locking or logging out another wallet does nothing. *)
Theorem session_refines_machine (c : Call) (s : WM) :
  session_ok s ->
  let '(r, s') := run_call c s in
  exists k,
    (forall now w password, c = CUnlock now w password ->
       (r = Ok tt \/ session_of s' <> session_of s) -> password_opens (wm_db s') w password k)
    /\ (session_of s' = session_of s \/ session_of s' = session_next c k (session_of s))
    /\ (r = Ok tt -> session_of s' = session_next c k (session_of s)).
Proof using Type. apply run_call_refines. Qed.
End Session.

(** ** Witnesses *)

Definition demo_call : Call -> M WM unit :=
  run_call (KS := demo_key_store) "/wallets" (fun _ => None) demo_parse false None (fun _ => "") (fun x => x)
    (fun _ _ _ => None) (fun s => s) (fun _ => 0%Q).

(** A wallet is created, locked, not opened with a wrong password, then opened. *)
Definition demo_history : list Call :=
  [CCreate demo_draws "Main" Network.Mainnet "pw" None; CLock "w1"; CUnlock 2 "w1" "wrong"; CUnlock 3 "w1" "pw"].

Lemma session_well_typed_witness :
  let s := run_calls (KS := demo_key_store) "/wallets" (fun _ => None) demo_parse false None (fun _ => "")
             (fun x => x) (fun _ _ _ => None) (fun s => s) (fun _ => 0%Q) demo_history demo_start in
  session_ok "/wallets" s /\ is_active_wallet_unlocked "w1" s = true.
Proof.
  refine (conj (proj1 (session_well_typed (KS := demo_key_store) "/wallets" (fun _ => None) demo_parse false
    None (fun _ => "") (fun x => x) (fun _ _ _ => None) (fun s => s) (fun _ => 0%Q) demo_history demo_start
    I _)) _).
  - repeat constructor.
  - by vm_compute.
Defined.

Lemma session_refines_machine_witness :
  let s := (demo_call (CCreate demo_draws "Main" Network.Mainnet "pw" None) demo_start).2 in
  let '(r, s') := demo_call (CLock "w1") s in
  session_of s = UnlockedWallet "w1" demo_dek /\ (r = Ok tt -> session_of s' = LockedWallet "w1").
Proof.
  set (s := (demo_call _ demo_start).2).
  assert (session_ok "/wallets" s) as Hs.
  { refine (run_call_inv (KS := demo_key_store) "/wallets" (fun _ => None) demo_parse false None (fun _ => "")
      (fun x => x) (fun _ _ _ => None) (fun s => s) (fun _ => 0%Q)
      (CCreate demo_draws "Main" Network.Mainnet "pw" None) eq_refl demo_start I). }
  assert (session_of s = UnlockedWallet "w1" demo_dek) as Hu by by vm_compute.
  pose proof (session_refines_machine (KS := demo_key_store) "/wallets" (fun _ => None) demo_parse false None
    (fun _ => "") (fun x => x) (fun _ _ _ => None) (fun s => s) (fun _ => 0%Q) (CLock "w1") s Hs) as H.
  unfold demo_call. destruct (run_call _ _ _ _ _ _ _ _ _ _ _ s) as [r s'].
  destruct H as (k & _ & _ & H). split; [exact Hu|]. intros Hr. rewrite (H Hr), Hu. reflexivity.
Defined.
