(* ===== verification/WalletGuards.v ===== *)
(** What the manager asks for before it spends: the calls that send, or that
    hand out what is needed to send, accept an unused token of the active
    wallet and consume it. *)
From S2P Require Import Prelude Text Domain AppDb Reauth Broadcast Servers BroadcastQueue Jobs.
From S2P Require Import Sends Shielding Encryption KeyStore WalletManager WalletFrames WalletDemo WalletSafety.
From Stdlib Require Import QArith.
Open Scope Z_scope.

(** ** Frames *)

Definition sent (s : WM) : list string := re_sends (te_retry (wm_tx s)).
Definition tasks (s : WM) : gset string := dom (w_tasks (wm_jobs s)).

(** No token is touched. *)
Definition same_tokens (s s' : WM) : Prop := wm_reauth s' = wm_reauth s.

(** The active wallet, the tokens and the tasks are untouched, and nothing is sent. *)
Record idle (s s' : WM) : Prop := {
  id_active : wm_active s' = wm_active s;
  id_reauth : wm_reauth s' = wm_reauth s;
  id_tasks : tasks s' = tasks s;
  id_sent : sent s' = sent s;
}.

(** Nothing is sent and no task added. *)
Record unsent (s s' : WM) : Prop := { us_tasks : tasks s' ⊆ tasks s; us_sent : sent s' = sent s }.

(** Nothing is sent and the tasks are the same. *)
Record still (s s' : WM) : Prop := { st_tasks : tasks s' = tasks s; st_sent : sent s' = sent s }.

#[global] Instance still_preorder : PreOrder still.
Proof. split; [by intros s|]. intros a b c [] []. split; congruence. Qed.
#[global] Instance same_tokens_preorder : PreOrder same_tokens.
Proof. unfold same_tokens. split; [done|]. intros a b c ? ?. congruence. Qed.
#[global] Instance idle_preorder : PreOrder idle.
Proof. split; [by intros s|]. intros a b c [] []. split; congruence. Qed.
#[global] Instance unsent_preorder : PreOrder unsent.
Proof. split; [by intros s|]. intros a b c [] []. split; [set_solver|congruence]. Qed.

Definition tx_unsent (e e' : TxEnv) : Prop := re_sends (te_retry e') = re_sends (te_retry e).
Definition retry_unsent (e e' : RetryEnv) : Prop := re_sends e' = re_sends e.
#[global] Instance tx_unsent_preorder : PreOrder tx_unsent.
Proof. unfold tx_unsent. split; [done|]. intros a b c ? ?. congruence. Qed.
#[global] Instance retry_unsent_preorder : PreOrder retry_unsent.
Proof. unfold retry_unsent. split; [done|]. intros a b c ? ?. congruence. Qed.

Lemma on_queue_unsent {A} (m : M QueueState A) : m_pres retry_unsent (on_queue m).
Proof. intros e. unfold on_queue, m_zoom. by destruct (m _). Qed.
Lemma on_db_unsent {A} (m : M AppDb A) : m_pres retry_unsent (on_db m).
Proof. intros e. unfold on_db, m_zoom. by destruct (m _). Qed.
Lemma emit_unsent ev : m_pres retry_unsent (emit ev).
Proof. by intros e. Qed.
Lemma on_retry_unsent {A} (m : M RetryEnv A) : m_pres retry_unsent m -> m_pres tx_unsent (on_retry m).
Proof. intros Hm. eapply m_pres_zoom; [|exact Hm]. done. Qed.
#[export] Hint Resolve on_queue_unsent on_db_unsent emit_unsent on_retry_unsent : zbag.

(** An operation on the tables of proposals and signing requests. *)
Ltac unsent_tables :=
  intros [p q r]; unfold tx_unsent, mbind, M_bind, m_get, m_put, m_modify, m_lift, m_err, mret, M_ret;
  cbv beta iota; repeat case_match; simplify_eq/=; done.

Lemma validate_proposal_unsent now i w : m_pres tx_unsent (validate_proposal_for_wallet now i w).
Proof. unfold validate_proposal_for_wallet. unsent_tables. Qed.
#[export] Hint Resolve validate_proposal_unsent : zbag.
Lemma take_proposal_for_execution_unsent now i w : m_pres tx_unsent (take_proposal_for_execution now i w).
Proof.
  unfold take_proposal_for_execution. apply m_pres_bind; [apply _|apply validate_proposal_unsent|intros ?].
  unsent_tables.
Qed.
Lemma take_pending_unsent now i w : m_pres tx_unsent (take_pending_signing_request_for_execution now i w).
Proof. unfold take_pending_signing_request_for_execution. unsent_tables. Qed.
Lemma take_proposal_unsent i : m_pres tx_unsent (fun e => let '(p, e') := take_proposal i e in (Ok p, e')).
Proof. by intros e. Qed.
Lemma m_modify_unsent f : (forall e, te_retry (f e) = te_retry e) -> m_pres tx_unsent (m_modify f).
Proof. intros Hf e. unfold tx_unsent. simpl. by rewrite Hf. Qed.
#[export] Hint Resolve take_proposal_for_execution_unsent take_pending_unsent take_proposal_unsent
  m_modify_unsent : zbag.

Lemma prepare_send_unsent mm io now i w a r z m al : m_pres tx_unsent (prepare_send mm io now i w a r z m al).
Proof. unfold prepare_send. m_pres_auto. Qed.
Lemma build_signing_request_unsent mm io now i w a r z m al :
  m_pres tx_unsent (build_signing_request mm io now i w a r z m al).
Proof. unfold build_signing_request. m_pres_auto. Qed.
Lemma view_transactions_unsent td mr mp now w d a ch rows :
  m_pres tx_unsent (view_transactions td mr mp now w d a ch rows).
Proof.
  induction rows as [|r rows IH]; cbn [view_transactions]; [m_pres_auto|].
  apply m_pres_bind; [apply _| |intros ?; m_pres_auto]. unfold view_transaction. m_pres_auto.
Qed.
Lemma list_transactions_unsent from_slice td mr mp io rows ch now now_ms w d a l o :
  m_pres tx_unsent (list_transactions from_slice td mr mp io rows ch now now_ms w d a l o).
Proof. unfold list_transactions. pose proof view_transactions_unsent. m_pres_auto. Qed.
#[export] Hint Resolve prepare_send_unsent build_signing_request_unsent list_transactions_unsent : zbag.

Lemma on_tx_tokens {A} (m : M TxEnv A) : m_pres same_tokens (on_tx m).
Proof. intros s. unfold on_tx, m_zoom. by destruct (m _). Qed.
Lemma on_tx_idle {A} (m : M TxEnv A) : m_pres tx_unsent m -> m_pres idle (on_tx m).
Proof. intros Hm. eapply m_pres_zoom; [|exact Hm]. by intros s t Ht. Qed.
Lemma on_disk_idle {A} (m : M QueueState A) : m_pres idle (on_disk m).
Proof. apply on_tx_idle. auto with zbag. Qed.
Lemma on_app_db_idle {A} (m : M AppDb A) : m_pres idle (on_app_db m).
Proof. apply on_tx_idle. auto with zbag. Qed.
Lemma idle_unsent s s' : idle s s' -> unsent s s'.
Proof. intros [_ _ Ht ?]. split; [by rewrite Ht|done]. Qed.
Lemma pres_idle_unsent {A} (m : M WM A) : m_pres idle m -> m_pres unsent m.
Proof. apply m_pres_weaken, idle_unsent. Qed.
Lemma pres_idle_tokens {A} (m : M WM A) : m_pres idle m -> m_pres same_tokens m.
Proof. apply m_pres_weaken. by intros s s' []. Qed.
Lemma pres_idle_still {A} (m : M WM A) : m_pres idle m -> m_pres still m.
Proof. apply m_pres_weaken. by intros s s' []. Qed.
Lemma on_reauth_still {A} (m : M Tokens A) : m_pres still (on_reauth m).
Proof. intros s. unfold on_reauth, m_zoom. by destruct (m _). Qed.
Lemma consume_token_still now w t : m_pres still (consume_token now w t).
Proof. apply on_reauth_still. Qed.
#[export] Hint Resolve on_reauth_still consume_token_still : zbag.
#[export] Hint Resolve pres_idle_still | 5 : zbag.
#[export] Hint Resolve on_tx_tokens on_tx_idle on_disk_idle on_app_db_idle : zbag.
#[export] Hint Resolve pres_idle_unsent | 5 : zbag.
#[export] Hint Resolve pres_idle_tokens | 5 : zbag.

Section Guards.
Context `{C : Crypto} `{KS : KeyStore} `{WL : WalletLib}.
Context (wallets_root : string) (from_slice : string -> option QueuedBroadcastMeta)
        (url_parse : string -> Url + ParseError) (debug : bool) (env_var : option string)
        (to_vec_pretty : QueuedBroadcastMeta -> string) (fl : Q -> Q)
        (send : nat -> string -> string -> option (result unit))
        (nonce : string -> string) (offset_ms : string -> Q).

(** *** The manager's operations *)

Lemma set_challenges_idle f : m_pres idle (m_modify (fun s => wm_set_challenges (f s) s)).
Proof using Type. by intros s. Qed.
Lemma set_caches_idle b y r l : m_pres idle (m_modify (fun s => wm_set_caches (b s) (y s) (r s) (l s) s)).
Proof using Type. by intros s. Qed.
Hint Resolve set_challenges_idle set_caches_idle : zbag.

Lemma compute_wallet_status_idle w : m_pres idle (compute_wallet_status w).
Proof using Type. unfold compute_wallet_status. m_pres_auto. Qed.

Lemma maybe_emit_idle w : m_pres idle (maybe_emit_wallet_status w).
Proof using Type.
  unfold maybe_emit_wallet_status. pose proof compute_wallet_status_idle.
  apply m_pres_bind; [apply _|m_pres_auto|intros [status|e]; [|m_pres_auto]].
  intros s. rewrite m_bind_eq. simpl. case_match; [reflexivity|]. rewrite m_bind_eq. simpl.
  etransitivity; [|case_match; [apply on_tx_idle; auto with zbag|reflexivity]]. done.
Qed.
Hint Resolve maybe_emit_idle : zbag.

Lemma decrypt_mnemonic_idle w n k : m_pres idle (decrypt_mnemonic w n k).
Proof using Type. unfold decrypt_mnemonic. m_pres_auto. Qed.
Hint Resolve decrypt_mnemonic_idle : zbag.
Lemma derive_key_idle w a : m_pres idle (derive_unified_spending_key w a).
Proof using Type. unfold derive_unified_spending_key. m_pres_auto. Qed.
Lemma resolve_endpoint_idle n : m_pres idle (resolve_endpoint url_parse debug env_var n).
Proof using Type. unfold resolve_endpoint. m_pres_auto. Qed.
Hint Resolve derive_key_idle resolve_endpoint_idle : zbag.
Lemma operation_context_idle : m_pres idle (get_tx_operation_context url_parse debug env_var).
Proof using Type. unfold get_tx_operation_context. m_pres_auto. Qed.
Lemma preflight_idle w c : m_pres idle (preflight w c).
Proof using Type. unfold preflight. m_pres_auto. Qed.
Lemma build_retry_task_idle t b : m_pres idle (build_retry_broadcast_task url_parse debug env_var t b).
Proof using Type. unfold build_retry_broadcast_task. m_pres_auto. Qed.
Hint Resolve operation_context_idle preflight_idle build_retry_task_idle : zbag.

(** ** Accepting a token *)

(** The token is one of the wallet's, for spending, and is consumed. *)
Definition accepted (now : Z) (token : string) (a : ActiveWallet) (s s' : WM) : Prop :=
  exists record, wm_reauth s !! token = Some record
    /\ tk_wallet_id record = wi_id (aw_wallet a) /\ tk_purpose record = ReauthPurpose.Spend
    /\ tk_used record = false /\ now <= tk_expires_at record
    /\ exists record', wm_reauth s' !! token = Some record' /\ tk_used record' = true.

(** An operation that fails idly or accepts the token. *)
Definition needs_token {A} (now : Z) (token : string) (a : ActiveWallet) (m : M WM A) : Prop :=
  forall s, wm_active s = Some a ->
    (idle s (m s).2 /\ is_ok (m s).1 = false) \/ accepted now token a s (m s).2.

Lemma needs_token_bind {A B} now t a (m : M WM A) (f : A -> M WM B) :
  m_pres idle m -> (forall x, needs_token now t a (f x)) -> needs_token now t a (m ≫= f).
Proof using Type.
  intros Hm Hf s Ha. specialize (Hm s). rewrite m_bind_eq. destruct (m s) as [[x|e] s1]; simpl in *; [|by left].
  destruct (Hf x s1) as [[Hi Hr]|Hacc]; [by rewrite (id_active _ _ Hm)|left|right].
  - split; [by etransitivity|done].
  - unfold accepted in *. by rewrite (id_reauth _ _ Hm) in Hacc.
Qed.

Lemma needs_token_get {B} now t a (f : WM -> M WM B) :
  (forall s, wm_active s = Some a -> needs_token now t a (f s)) -> needs_token now t a (m_get ≫= f).
Proof using Type. intros Hf s Ha. rewrite m_get_bind. by apply Hf. Qed.

Lemma needs_token_err {A} now t a e : needs_token now t a (m_err e : M WM A).
Proof using Type. intros s _. left. split; [reflexivity|done]. Qed.

(** The token is consumed, and what follows does not touch tokens. *)
Lemma needs_token_consume {B} now t a (f : unit -> M WM B) :
  m_pres same_tokens (f tt) -> needs_token now t a (consume_token now (wi_id (aw_wallet a)) t ≫= f).
Proof using Type.
  intros Hf s Ha. rewrite m_bind_eq. unfold consume_token, on_reauth, m_zoom, consume_reauth_token, validate_and_consume.
  destruct (wm_reauth s !! t) as [rec|] eqn:Er; simpl.
  2:{ left. by destruct s. }
  destruct (tk_used rec) eqn:Eu; simpl; [left; by destruct s|].
  destruct (bool_decide (tk_wallet_id rec = wi_id (aw_wallet a))) eqn:Ew; simpl; [|left; by destruct s].
  destruct (bool_decide (tk_purpose rec = ReauthPurpose.Spend)) eqn:Ep; simpl; [|left; by destruct s].
  destruct (tk_expires_at rec <? now) eqn:Ex; simpl; [left; by destruct s|]. right. breflect.
  match goal with |- context [f tt ?x] => specialize (Hf x) end.
  exists rec. rewrite Hf. simpl. rewrite lookup_insert_eq. eauto 10.
Qed.

(** ** The calls that spend *)

(** The clock and the token of a call that sends, or that hands out what is
    needed to send. *)
Definition spend_token (c : Call) : option (Z * string) :=
  match c with
  | CFinalize _ now _ _ t | CPrepareConfirmTask now _ t | CPrepareShieldTask now _ _ t
  | CPrepareFinalizeTask now _ _ t | CRetry _ now _ t _ _ | CStartSend _ now _ _ t _ _
  | CStartShield _ now _ _ _ t _ _ => Some (now, t)
  | _ => None
  end.

(** The calls that sign with the seed. *)
Definition signs_with_seed (c : Call) : bool :=
  match c with
  | CPrepareConfirmTask _ _ _ | CPrepareShieldTask _ _ _ _ | CStartSend _ _ _ _ _ _ _
  | CStartShield _ _ _ _ _ _ _ _ => true
  | _ => false
  end.

(** The calls that carry out a prepared task or an automatic retry. *)
Definition runs_task (c : Call) : bool :=
  match c with CExecuteConfirm _ _ _ _ _ | CExecuteFinalize _ _ _ | CExecuteShield _ _ _ _ _
  | CProcessRetries _ _ _ _ _ => true | _ => false end.

Let call := run_call wallets_root from_slice url_parse debug env_var to_vec_pretty fl send nonce offset_ms.

Lemma needs_token_void {A} now t a (m : M WM A) : needs_token now t a m -> needs_token now t a (void m).
Proof using Type.
  intros Hm s Ha. specialize (Hm s Ha). unfold void. rewrite m_bind_eq.
  destruct (m s) as [[x|e] s1]; simpl in *; naive_solver.
Qed.

(** A call that starts by reading the active wallet. *)
Lemma needs_token_active {B} now t a (f : WM -> ActiveWallet -> M WM B) :
  (forall s, wm_active s = Some a -> needs_token now t a (f s a)) ->
  needs_token now t a (s ← m_get; active ← m_lift (active_or_locked s); f s active).
Proof using Type.
  intros Hf. apply needs_token_get. intros s Ha s1 Ha1. rewrite m_bind_eq. unfold m_lift, active_or_locked.
  rewrite Ha. simpl. by apply Hf.
Qed.

Lemma needs_token_seq {A B} now t a (m : M WM A) (f : A -> M WM B) :
  needs_token now t a m -> (forall x, m_pres same_tokens (f x)) -> needs_token now t a (m ≫= f).
Proof using Type.
  intros Hm Hf s Ha. specialize (Hm s Ha). rewrite m_bind_eq. destruct (m s) as [[x|e] s1]; simpl in *; [|done].
  destruct Hm as [[_ ?]|(rec & ? & ? & ? & ? & ? & Hr)]; [done|]. right. exists rec. repeat split; try done.
  by rewrite (Hf x s1).
Qed.

Ltac token_step :=
  match goal with
  | |- needs_token _ _ _ (if ?b then _ else _) => destruct b
  | |- needs_token _ _ _ (let '(_, _) := ?x in _) => destruct x
  | |- needs_token _ _ _ (m_err _) => apply needs_token_err
  | |- needs_token _ _ ?a (consume_token _ (wi_id (aw_wallet ?a)) _ ≫= _) => apply needs_token_consume
  | |- needs_token _ _ _ (m_get ≫= (fun s => m_lift (active_or_locked s) ≫= _)) =>
      apply needs_token_active; intros ? ?
  | |- needs_token _ _ _ (m_get ≫= _) => apply needs_token_get; intros ? ?
  | |- needs_token _ _ _ (_ ≫= _) => apply needs_token_bind; [m_pres_auto; fail|intros ?]
  end.
Ltac token_auto := repeat token_step; try (m_pres_auto; fail).

Lemma set_jobs_tokens f : m_pres same_tokens (m_modify (fun s => wm_set_jobs (f s) s)).
Proof using Type. by intros s. Qed.
Hint Resolve set_jobs_tokens : zbag.

Lemma prepare_confirm_needs_token now p t a :
  needs_token now t a (prepare_confirm_send url_parse debug env_var now p t).
Proof using Type. unfold prepare_confirm_send. token_auto. Qed.

Lemma prepare_shield_needs_token now n t a :
  needs_token now t a (prepare_shield_funds url_parse debug env_var now n t).
Proof using Type. unfold prepare_shield_funds. token_auto. Qed.

Lemma prepare_retry_needs_token now txid t a :
  needs_token now t a (prepare_retry_broadcast_task url_parse debug env_var now txid t).
Proof using Type. unfold prepare_retry_broadcast_task. token_auto. Qed.

Lemma spend_needs_token c now t a : spend_token c = Some (now, t) -> needs_token now t a (call c).
Proof using Type.
  destruct c; try done; intros [= -> ->]; simpl; apply needs_token_void.
  - unfold wm_finalize_signing. token_auto.
  - unfold prepare_confirm_send_task. apply needs_token_seq; [apply prepare_confirm_needs_token|].
    intros []. m_pres_auto.
  - unfold prepare_shield_funds_task. apply needs_token_seq; [apply prepare_shield_needs_token|].
    intros []. m_pres_auto.
  - unfold prepare_finalize_signing_task. token_auto.
  - unfold wm_retry_broadcast. apply needs_token_seq; [apply prepare_retry_needs_token|].
    intros ?. unfold execute_retry_broadcast_task. m_pres_auto.
  - unfold start_send_job. token_auto.
  - unfold start_shield_job. token_auto.
Qed.

(** ** Only an unlocked wallet spends *)

(** The wallet is unlocked, or the operation fails with nothing sent or started. *)
Definition needs_unlocked {A} (a : ActiveWallet) (m : M WM A) : Prop :=
  forall s, wm_active s = Some a -> is_unlocked a = true \/ (is_ok (m s).1 = false /\ still s (m s).2).

Lemma needs_unlocked_l {A B} a (m : M WM A) (f : A -> M WM B) :
  needs_unlocked a m -> needs_unlocked a (m ≫= f).
Proof using Type.
  intros Hm s Ha. specialize (Hm s Ha). rewrite m_bind_eq.
  destruct Hm as [|[Hr Hs]]; [by left|]. right. by destruct (m s) as [[x|e] s1].
Qed.

Lemma needs_unlocked_r {A B} a (m : M WM A) (f : A -> M WM B) :
  m_pres keeps m -> m_pres still m -> (forall x, needs_unlocked a (f x)) -> needs_unlocked a (m ≫= f).
Proof using Type.
  intros Hm Hst Hf s Ha. specialize (Hm s). specialize (Hst s). rewrite m_bind_eq.
  destruct (m s) as [[x|e] s1]; simpl in *; [|by right].
  destruct (Hf x s1) as [|[Hr Hs]]; [destruct Hm as [Hact _]; congruence|by left|right].
  split; [done|by etransitivity].
Qed.

Lemma needs_unlocked_get {B} a (f : WM -> M WM B) :
  (forall s, wm_active s = Some a -> needs_unlocked a (f s)) -> needs_unlocked a (m_get ≫= f).
Proof using Type. intros Hf s Ha. rewrite m_get_bind. by apply Hf. Qed.

Lemma needs_unlocked_active {B} a (f : WM -> ActiveWallet -> M WM B) :
  (forall s, wm_active s = Some a -> needs_unlocked a (f s a)) ->
  needs_unlocked a (s ← m_get; active ← m_lift (active_or_locked s); f s active).
Proof using Type.
  intros Hf. apply needs_unlocked_get. intros s Ha s1 Ha1. rewrite m_bind_eq. unfold m_lift, active_or_locked.
  rewrite Ha. simpl. by apply Hf.
Qed.

Lemma snapshot_unlocked s w a x : wm_active s = Some a ->
  require_unlocked_wallet_snapshot w s = Ok x -> is_unlocked a = true.
Proof using Type.
  unfold require_unlocked_wallet_snapshot. intros ->. destruct (negb (bool_decide _)); [done|].
  by destruct (is_unlocked a).
Qed.

Lemma lift_unlocked {A} a (r : result A) :
  (forall x, r = Ok x -> is_unlocked a = true) -> needs_unlocked a (m_lift r).
Proof using Type. intros Hr s _. destruct r as [x|e]; [left; by eapply Hr|by right]. Qed.

Lemma dek_unlocked a s w : wm_active s = Some a -> needs_unlocked a (m_lift (unlocked_wallet_dek w s)).
Proof using Type.
  intros Ha. apply lift_unlocked. intros x. unfold unlocked_wallet_dek.
  destruct (require_unlocked_wallet_snapshot w s) eqn:E; [|done]. intros _. by eapply snapshot_unlocked.
Qed.

Lemma derive_key_unlocked a w n : needs_unlocked a (derive_unified_spending_key w n).
Proof using Type.
  unfold derive_unified_spending_key. apply needs_unlocked_get. intros s Ha. apply needs_unlocked_l.
  apply lift_unlocked. intros x. by apply snapshot_unlocked.
Qed.

Lemma operation_context_unlocked a : needs_unlocked a (get_tx_operation_context url_parse debug env_var).
Proof using Type.
  unfold get_tx_operation_context. apply needs_unlocked_get. intros s -> s1 _.
  destruct (is_unlocked a); [by left|by right].
Qed.

Lemma needs_unlocked_void {A} a (m : M WM A) : needs_unlocked a m -> needs_unlocked a (void m).
Proof using Type. apply needs_unlocked_l. Qed.

Lemma needs_unlocked_if {A} a (b : bool) (m m' : M WM A) :
  needs_unlocked a m -> needs_unlocked a m' -> needs_unlocked a (if b then m else m').
Proof using Type. by destruct b. Qed.

Lemma needs_unlocked_err {A} a e : needs_unlocked a (m_err e : M WM A).
Proof using Type. by intros s _; right. Qed.

Hint Resolve dek_unlocked derive_key_unlocked operation_context_unlocked needs_unlocked_err : zbag.

Ltac unlocked_step :=
  match goal with
  | |- needs_unlocked _ (if _ then _ else _) => apply needs_unlocked_if
  | |- needs_unlocked _ (m_get ≫= (fun s => m_lift (active_or_locked s) ≫= _)) =>
      apply needs_unlocked_active; intros ? ?
  | |- needs_unlocked _ (m_get ≫= _) => apply needs_unlocked_get; intros ? ?
  | |- needs_unlocked _ (_ ≫= _) => apply needs_unlocked_l; solve [eauto with zbag]
  | |- needs_unlocked _ (_ ≫= _) => apply needs_unlocked_r; [m_pres_auto; fail|m_pres_auto; fail|intros ?]
  | |- _ => solve [eauto with zbag]
  end.
Ltac unlocked_auto := repeat unlocked_step.

Lemma build_retry_task_unlocked a t b : needs_unlocked a (build_retry_broadcast_task url_parse debug env_var t b).
Proof using Type. unfold build_retry_broadcast_task. unlocked_auto. Qed.
Hint Resolve build_retry_task_unlocked : zbag.

Lemma spend_needs_unlocked c x a : spend_token c = Some x -> needs_unlocked a (call c).
Proof using Type.
  destruct c; try done; intros _; simpl; apply needs_unlocked_void.
  - unfold wm_finalize_signing. unlocked_auto.
  - unfold prepare_confirm_send_task. apply needs_unlocked_l. unfold prepare_confirm_send. unlocked_auto.
  - unfold prepare_shield_funds_task. apply needs_unlocked_l. unfold prepare_shield_funds. unlocked_auto.
  - unfold prepare_finalize_signing_task. unlocked_auto.
  - unfold wm_retry_broadcast. apply needs_unlocked_l. unfold prepare_retry_broadcast_task. unlocked_auto.
  - unfold start_send_job. unlocked_auto.
  - unfold start_shield_job. unlocked_auto.
Qed.

(** A call that signs with the seed refuses a watch-only wallet. *)
Lemma watch_only_cannot_sign c s a :
  signs_with_seed c = true -> wm_active s = Some a -> wi_wallet_type (aw_wallet a) = WalletType.WatchOnly ->
  is_ok (call c s).1 = false /\ (call c s).2 = s.
Proof using Type.
  intros Hc Ha Hw.
  assert (is_watch_only_wallet s = true) as Hwo
    by (unfold is_watch_only_wallet; rewrite Ha; by apply bool_decide_eq_true).
  set (refused := fun A (m : M WM A) => is_ok (m s).1 = false /\ (m s).2 = s).
  assert (forall A (f : WM -> ActiveWallet -> M WM A) e,
    refused _ (s ← m_get; active ← m_lift (active_or_locked s);
      if is_watch_only_wallet s then m_err e else f s active)) as Hg.
  { intros A f e. unfold refused. rewrite m_get_bind, m_bind_eq. unfold m_lift, active_or_locked.
    rewrite Ha. simpl. by rewrite Hwo. }
  assert (forall A B (m : M WM A) (f : A -> M WM B), refused _ m -> refused _ (m ≫= f)) as Hb.
  { intros A B m f Hm. unfold refused in *. rewrite m_bind_eq. by destruct (m s) as [[x|e] s1], Hm. }
  change (refused _ (call c)). destruct c; try done; simpl; unfold void; apply Hb.
  - unfold prepare_confirm_send_task. apply Hb, Hg.
  - unfold prepare_shield_funds_task. apply Hb, Hg.
  - apply Hg.
  - apply Hg.
Qed.

(** Without an active wallet none of them does anything. *)
Lemma no_wallet_cannot_spend c x s :
  spend_token c = Some x -> wm_active s = None -> idle s (call c s).2 /\ is_ok (call c s).1 = false.
Proof using Type.
  intros Hc Ha.
  assert (forall A (f : WM -> ActiveWallet -> M WM A),
    let m := s ← m_get; active ← m_lift (active_or_locked s); f s active in
    idle s (m s).2 /\ is_ok (m s).1 = false) as Hg.
  { intros A f. cbv zeta. rewrite m_get_bind, m_bind_eq. unfold m_lift, active_or_locked. by rewrite Ha. }
  assert (forall A B (m : M WM A) (f : A -> M WM B), idle s (m s).2 /\ is_ok (m s).1 = false ->
    idle s ((m ≫= f) s).2 /\ is_ok ((m ≫= f) s).1 = false) as Hb.
  { intros A B m f [Hi Hm]. rewrite m_bind_eq. by destruct (m s) as [[y|e] s1]. }
  destruct c; try done; simpl; unfold void; apply Hb; try apply Hg.
  - unfold prepare_confirm_send_task. apply Hb, Hg.
  - unfold prepare_shield_funds_task. apply Hb, Hg.
  - unfold wm_retry_broadcast. apply Hb, Hg.
Qed.

(** ** Nothing else sends *)

Lemma on_reauth_unsent {A} (m : M Tokens A) : m_pres unsent (on_reauth m).
Proof using Type. intros s. unfold on_reauth, m_zoom. by destruct (m _). Qed.
Lemma set_active_unsent a : m_pres unsent (set_active a).
Proof using Type. by intros s. Qed.
Hint Resolve on_reauth_unsent set_active_unsent : zbag.

Lemma issue_backup_challenge_unsent d w : m_pres unsent (issue_backup_challenge d w).
Proof using Type. unfold issue_backup_challenge. m_pres_auto. Qed.
Lemma register_wallet_unsent d w pw b : m_pres unsent (register_wallet wallets_root d w pw b).
Proof using Type. unfold register_wallet. m_pres_auto. Qed.
Lemma init_database_unsent dir k f c b : m_pres unsent (init_database dir k f c b).
Proof using Type. unfold init_database. m_pres_auto. Qed.
Lemma insert_account_unsent d w a : m_pres unsent (insert_account d w a).
Proof using Type. unfold insert_account. m_pres_auto. Qed.
Lemma activate_unsent d w dir k c : m_pres unsent (activate from_slice d w dir k c).
Proof using Type. unfold activate, scan_active. m_pres_auto. Qed.
Lemma find_wallet_unsent w : m_pres unsent (find_wallet wallets_root w).
Proof using Type. unfold find_wallet. m_pres_auto. Qed.
Lemma open_key_unsent i w p : m_pres unsent (open_key i w p).
Proof using Type. unfold open_key. m_pres_auto. Qed.
Lemma drop_challenge_unsent w : m_pres unsent (drop_challenge w).
Proof using Type. unfold drop_challenge. m_pres_auto. Qed.
Hint Resolve issue_backup_challenge_unsent register_wallet_unsent init_database_unsent insert_account_unsent
  activate_unsent find_wallet_unsent open_key_unsent drop_challenge_unsent : zbag.

Lemma logout_wallet_unsent w : m_pres unsent (logout_wallet w).
Proof using Type.
  intros s. unfold logout_wallet. rewrite m_get_bind. destruct (wm_active s) as [a|]; [|reflexivity].
  by destruct (negb _).
Qed.

Lemma wm_cancel_job_unsent j : m_pres unsent (wm_cancel_job j).
Proof using Type.
  intros s. unfold wm_cancel_job, cancel_job.
  split; [|by repeat case_match; simplify_eq/=]. unfold tasks.
  repeat case_match; simplify_eq/=; rewrite ?dom_alter_L; set_solver.
Qed.
Hint Resolve logout_wallet_unsent wm_cancel_job_unsent : zbag.

Lemma void_unsent {A} (m : M WM A) : m_pres unsent m -> m_pres unsent (void m).
Proof using Type. intros Hm. unfold void. m_pres_auto. Qed.

Lemma others_unsent c : spend_token c = None -> runs_task c = false -> m_pres unsent (call c).
Proof using Type.
  intros Hc Hr. destruct c; try done; simpl; try apply void_unsent; try solve [eauto with zbag].
  - unfold load_wallet, scan_active. m_pres_auto.
  - unfold create_wallet. m_pres_auto.
  - unfold restore_wallet. m_pres_auto.
  - unfold create_keystone_wallet. m_pres_auto.
  - unfold unlock_wallet, finish_unlock, scan_active. m_pres_auto.
  - unfold lock_wallet. m_pres_auto.
  - unfold reauth_wallet. m_pres_auto.
  - unfold view_seed_phrase. m_pres_auto.
  - unfold get_backup_challenge. m_pres_auto.
  - unfold verify_backup. m_pres_auto.
  - unfold observe_sync_progress. destruct (status_of_progress p). m_pres_auto.
  - unfold observe_balance_changed. m_pres_auto.
  - unfold import_ufvk. m_pres_auto.
  - unfold wm_prepare_send. m_pres_auto.
  - unfold wm_build_signing_request. m_pres_auto.
  - unfold wm_list_transactions. m_pres_auto.
Qed.

(** C2. Spending is authorised.  A call that sends a transaction, starts a
    job or hands out a prepared task - whatever it answers in the end - does
    so only while the active wallet is unlocked, when the presented token is
    recorded for that wallet and for spending, unused and not expired, and
    then the token is consumed; with the seed it signs only for a wallet that
    has one.  No other call of the manager sends anything or starts a task,
    except those that carry out a prepared task and the automatic retry of
    a transaction sent before. *)
Theorem spending_is_authorised (c : Call) (s : WM) :
  let '(r, s') := run_call wallets_root from_slice url_parse debug env_var to_vec_pretty fl send nonce
                    offset_ms c s in
  match spend_token c with
  | Some (now, token) =>
      (r = Ok tt \/ sent s' <> sent s \/ tasks s' <> tasks s) ->
      exists a, wm_active s = Some a /\ accepted now token a s s' /\ is_unlocked a = true
        /\ (signs_with_seed c = true -> wi_wallet_type (aw_wallet a) = WalletType.Software)
  | None => runs_task c = false -> sent s' = sent s /\ tasks s' ⊆ tasks s
  end.
Proof using Type.
  fold call. destruct (call c s) as [r s'] eqn:E. destruct (spend_token c) as [[now t]|] eqn:Et.
  - intros Hdone. destruct (wm_active s) as [a|] eqn:Ea.
    + exists a. split; [done|]. pose proof (spend_needs_token c now t a Et s Ea) as Hn. rewrite E in Hn.
      split; [destruct Hn as [[[] Hr]|Hn]; [|done]; destruct Hdone as [-> |[?|?]]; done|]. split.
      * pose proof (spend_needs_unlocked c _ a Et s Ea) as Hu. rewrite E in Hu.
        destruct Hu as [|[Hr []]]; [done|]. destruct Hdone as [-> |[?|?]]; done.
      * intros Hs. pose proof (watch_only_cannot_sign c s a Hs Ea) as Hw. rewrite E in Hw.
        destruct (wi_wallet_type (aw_wallet a)); [done|]. destruct (Hw eq_refl) as [Hr Hs']. simpl in *. subst s'.
        destruct Hdone as [-> |[?|?]]; done.
    + destruct (no_wallet_cannot_spend c _ s Et Ea) as [[] Hr]. rewrite E in *. simpl in *.
      destruct Hdone as [-> |[?|?]]; done.
  - intros Hr. pose proof (others_unsent c Et Hr s) as [H1 H2]. rewrite E in *. done.
Qed.
End Guards.
