(* ===== verification/WalletBackup.v ===== *)
(** The backup challenge: what a verified backup shows, and how many guesses
    a challenge allows. *)
From S2P Require Import Prelude Text Domain AppDb Reauth Broadcast Servers BroadcastQueue Jobs.
From S2P Require Import Sends Shielding Encryption KeyStore WalletManager WalletFrames WalletDemo WalletSafety.
From Stdlib Require Import QArith.
Open Scope Z_scope.

Section Backup.
Context `{C : Crypto} `{KS : KeyStore} `{WL : WalletLib}.
Context (wallets_root : string) (from_slice : string -> option QueuedBroadcastMeta)
        (url_parse : string -> Url + ParseError) (debug : bool) (env_var : option string)
        (to_vec_pretty : QueuedBroadcastMeta -> string) (fl : Q -> Q)
        (send : nat -> string -> string -> option (result unit))
        (nonce : string -> string) (offset_ms : string -> Q).

(** ** One verification *)

(** The challenge and the words that the answers are compared with, when
    the call gets that far. *)
Definition compared (now_ms : Z) (w : Uuid) (challenge_id : string) (s : WM)
    : option (BackupChallengeState * list string) :=
  if watch_only w s then None else
  state ← wm_backup_challenges s !! w;
  if negb (bool_decide (bc_challenge_id state = challenge_id)) then None
  else if bc_expires_at state <? now_ms then None
  else if 5 <=? bc_failed_attempts state then None
  else match require_unlocked_wallet_snapshot w s with
       | Ok (wallet, dek) =>
           match (m_context "failed to decrypt mnemonic"
                    (decrypt_mnemonic (wi_id wallet) (wi_network wallet) dek) s).1 with
           | Ok phrase => let words := split_whitespace phrase in
                          if Nat.eqb (length words) 24 then Some (state, words) else None
           | Err _ => None
           end
       | Err _ => None
       end.

Definition one_more_failure (st : BackupChallengeState) : BackupChallengeState :=
  mkBackupChallengeState (bc_challenge_id st) (bc_indices st) (bc_expires_at st) (bc_failed_attempts st + 1).

(** *** What leaves the challenges alone *)

Definition same_challenges (s s' : WM) : Prop := wm_backup_challenges s' = wm_backup_challenges s.
#[local] Instance same_challenges_preorder : PreOrder same_challenges.
Proof using Type. unfold same_challenges. split; [done|]. intros a b c ? ?. congruence. Qed.

Lemma on_tx_challenges {A} (m : M TxEnv A) : m_pres same_challenges (on_tx m).
Proof using Type. intros s. unfold on_tx, m_zoom. by destruct (m _). Qed.
Lemma on_disk_challenges {A} (m : M QueueState A) : m_pres same_challenges (on_disk m).
Proof using Type. apply on_tx_challenges. Qed.
Lemma on_app_db_challenges {A} (m : M AppDb A) : m_pres same_challenges (on_app_db m).
Proof using Type. apply on_tx_challenges. Qed.
Lemma on_reauth_challenges {A} (m : M Tokens A) : m_pres same_challenges (on_reauth m).
Proof using Type. intros s. unfold on_reauth, m_zoom. by destruct (m _). Qed.
Lemma set_active_challenges a : m_pres same_challenges (set_active a).
Proof using Type. by intros s. Qed.
Lemma set_caches_challenges b y r l :
  m_pres same_challenges (m_modify (fun s => wm_set_caches (b s) (y s) (r s) (l s) s)).
Proof using Type. by intros s. Qed.
Lemma set_jobs_challenges f : m_pres same_challenges (m_modify (fun s => wm_set_jobs (f s) s)).
Proof using Type. by intros s. Qed.
Hint Resolve on_tx_challenges on_disk_challenges on_app_db_challenges on_reauth_challenges set_active_challenges
  set_caches_challenges set_jobs_challenges : zbag.

Lemma compute_wallet_status_challenges w : m_pres same_challenges (compute_wallet_status w).
Proof using Type. unfold compute_wallet_status. m_pres_auto. Qed.

Lemma maybe_emit_challenges w : m_pres same_challenges (maybe_emit_wallet_status w).
Proof using Type.
  unfold maybe_emit_wallet_status. pose proof compute_wallet_status_challenges.
  apply m_pres_bind; [apply _|m_pres_auto|intros [status|e]; [|m_pres_auto]].
  intros s. rewrite m_bind_eq. simpl. case_match; [reflexivity|]. rewrite m_bind_eq. simpl.
  etransitivity; [|case_match; [apply on_tx_challenges|reflexivity]]. done.
Qed.

Lemma decrypt_mnemonic_challenges w n k : m_pres same_challenges (decrypt_mnemonic w n k).
Proof using Type. unfold decrypt_mnemonic. m_pres_auto. Qed.
Hint Resolve maybe_emit_challenges decrypt_mnemonic_challenges : zbag.

Definition backup_done (w : Uuid) (db : AppDb) : Prop :=
  exists row, find_first (backup_key w) (adb_backup db) = Some row /\ br_backup_required row = false
    /\ br_verification_method row = Some "challenge".

Lemma mark_backup_complete_Ok w now db db' :
  mark_backup_complete w now "challenge" db = (Ok tt, db') -> backup_done w db'.
Proof using Type.
  unfold mark_backup_complete, upsert_backup, db_require, mbind, M_bind, m_get, m_put, m_err, mret, M_ret.
  db_step. destruct Hr as [-> | ->]; [|done]. destruct (wallet_exists _ _); [|done].
  destruct (existsb (backup_key w) (adb_backup db0)) eqn:E; intros [= <-]; unfold backup_done; simpl.
  - clear Hbak. revert E. induction (adb_backup db0) as [|x l IH]; simpl; [done|].
    destruct (backup_key w x) eqn:Ek; simpl; [|rewrite Ek; exact IH].
    intros _. unfold backup_key in *. simpl. rewrite Ek. eauto.
  - exists (mkBackupRow w false (Some now) (Some "challenge")). split; [|done].
    clear Hbak. revert E. induction (adb_backup db0) as [|x l IH]; simpl.
    + intros _. unfold backup_key. simpl. by rewrite bool_decide_eq_true_2.
    + destruct (backup_key w x); [done|]. exact IH.
Qed.

Definition same_backup (s s' : WM) : Prop := adb_backup (wm_db s') = adb_backup (wm_db s).
#[local] Instance same_backup_preorder : PreOrder same_backup.
Proof using Type. unfold same_backup. split; [done|]. intros a b c ? ?. congruence. Qed.

Lemma on_app_db_backup {A} (m : M AppDb A) :
  (forall db, adb_backup (m db).2 = adb_backup db) -> m_pres same_backup (on_app_db m).
Proof using Type.
  intros Hm s. unfold on_app_db, on_tx, on_retry, on_db, m_zoom, same_backup, wm_db.
  specialize (Hm (re_db (te_retry (wm_tx s)))). by destruct (m _).
Qed.

Lemma maybe_emit_backup w : m_pres same_backup (maybe_emit_wallet_status w).
Proof using Type.
  assert (m_pres same_backup (compute_wallet_status w)) as Hc.
  { unfold compute_wallet_status. m_pres_auto; apply on_app_db_backup; intros db;
      unfold get_wallet, get_backup_required, mbind, M_bind, m_get, mret, M_ret; db_step;
      destruct Hr as [-> | ->]; simpl; congruence. }
  unfold maybe_emit_wallet_status.
  apply m_pres_bind; [apply _|m_pres_auto|intros [status|e]; [|m_pres_auto]].
  intros s. rewrite m_bind_eq. simpl. case_match; [reflexivity|]. rewrite m_bind_eq. simpl.
  by case_match.
Qed.

Lemma maybe_emit_ok w s : (maybe_emit_wallet_status w s).1 = Ok tt.
Proof using Type.
  unfold maybe_emit_wallet_status. rewrite m_bind_eq. unfold m_try.
  destruct (compute_wallet_status w s) as [[status|e] s1]; [|done].
  unfold mbind, M_bind. simpl. repeat case_match; try done; by simplify_eq/=.
Qed.

Ltac early := unfold drop_challenge; simpl; split; [done|auto].

(** Every branch of [verify_backup]. *)
Lemma verify_backup_run now w id answers s :
  let '(r, s') := verify_backup now w id answers s in
  match compared now w id s with
  | None => is_ok r = false
      /\ (wm_backup_challenges s' = wm_backup_challenges s
          \/ wm_backup_challenges s' = delete w (wm_backup_challenges s))
  | Some (st, words) =>
      if forallb (word_matches words answers) (bc_indices st)
      then (r = Ok tt /\ wm_backup_challenges s' = delete w (wm_backup_challenges s)
            /\ backup_done w (wm_db s'))
           \/ (is_ok r = false /\ wm_backup_challenges s' = wm_backup_challenges s)
      else is_ok r = false /\ wm_backup_challenges s' =
           if 5 <=? bc_failed_attempts st + 1 then delete w (wm_backup_challenges s)
           else <[w := one_more_failure st]> (wm_backup_challenges s)
  end.
Proof using Type.
  unfold verify_backup, compared. rewrite m_get_bind. destruct (watch_only w s); [early|].
  rewrite m_bind_eq. unfold m_lift at 1. destruct (wm_backup_challenges s !! w) as [st|] eqn:Est; simpl; [|early].
  destruct (negb (bool_decide (bc_challenge_id st = id))); [early|].
  destruct (bc_expires_at st <? now); [early|]. destruct (5 <=? bc_failed_attempts st) eqn:Ea; [early|].
  rewrite m_bind_eq. unfold m_lift at 1. destruct (require_unlocked_wallet_snapshot w s) as [[wal dek]|e]; simpl; [|early].
  rewrite m_bind_eq.
  pose proof (decrypt_mnemonic_challenges (wi_id wal) (wi_network wal) dek s) as Hch. unfold m_context.
  destruct (decrypt_mnemonic _ _ _ s) as [[phrase|e] s1]; simpl in *; [|early].
  destruct (Nat.eqb _ 24); simpl; [|early].
  destruct (forallb _ _).
  - rewrite m_bind_eq. pose proof (on_app_db_challenges (mark_backup_complete w now "challenge") s1) as Hc2.
    destruct (on_app_db _ s1) as [[[]|e] s2] eqn:E2; simpl in *; [|right; split; [done|congruence]].
    rewrite m_bind_eq. simpl.
    match goal with |- context [maybe_emit_wallet_status w ?x] =>
      pose proof (maybe_emit_challenges w x) as Hc3; pose proof (maybe_emit_backup w x) as Hb3;
      assert ((maybe_emit_wallet_status w x).1 = Ok tt) as Hok by apply maybe_emit_ok;
      destruct (maybe_emit_wallet_status w x) as [r s3] end.
    unfold same_challenges in *. simpl in *. subst r. left. split; [done|]. split; [congruence|].
    apply on_app_db_run in E2 as (db' & E2 & Hdb). apply mark_backup_complete_Ok in E2.
    unfold backup_done. unfold same_backup in Hb3. rewrite Hb3. simpl in *. unfold wm_db in *. simpl. by rewrite Hdb.
  - rewrite m_get_bind, m_bind_eq. unfold same_challenges in Hch. unfold m_lift at 1. rewrite Hch, Est. simpl.
    rewrite Z.min_r by (unfold u8_max; lia). destruct (5 <=? bc_failed_attempts st + 1); simpl; by rewrite Hch.
Qed.

(** ** Histories *)

(** The calls that issue a challenge for a wallet. *)
Definition issues (w : Uuid) (c : Call) : bool :=
  match c with
  | CCreate d _ _ _ _ => bool_decide (dr_uuid d = w)
  | CChallenge _ w' => bool_decide (w' = w)
  | _ => false
  end.

(** The answers were compared with the words, and are wrong. *)
Definition wrong_guess (w : Uuid) (c : Call) (s : WM) : bool :=
  match c with
  | CVerify now w' id answers =>
      bool_decide (w' = w)
      && match compared now w id s with
         | Some (st, words) => negb (forallb (word_matches words answers) (bc_indices st))
         | None => false
         end
  | _ => false
  end.

(** How many guesses the challenge of a wallet still allows. *)
Definition guesses_left (w : Uuid) (s : WM) : Z :=
  match wm_backup_challenges s !! w with
  | Some st => Z.max 0 (5 - bc_failed_attempts st)
  | None => 0
  end.

Let call := run_call wallets_root from_slice url_parse debug env_var to_vec_pretty fl send nonce offset_ms.

Fixpoint wrong_guesses (w : Uuid) (cs : list Call) (s : WM) : Z :=
  match cs with
  | [] => 0
  | c :: cs' => (if wrong_guess w c s then 1 else 0) + wrong_guesses w cs' (call c s).2
  end.

(** The challenge of [w] is kept or dropped. *)
Definition challenge_shrinks (w : Uuid) (s s' : WM) : Prop :=
  wm_backup_challenges s' !! w = wm_backup_challenges s !! w \/ wm_backup_challenges s' !! w = None.
#[local] Instance challenge_shrinks_preorder w : PreOrder (challenge_shrinks w).
Proof using Type.
  unfold challenge_shrinks. split; [intros s; by left|]. intros a b c [H1|H1] [H2|H2]; rewrite ?H2; auto.
Qed.

Lemma same_shrinks w {A} (m : M WM A) : m_pres same_challenges m -> m_pres (challenge_shrinks w) m.
Proof using Type. apply m_pres_weaken. intros s s' Hs. left. by rewrite Hs. Qed.

Lemma issue_other_shrinks w d w' : w' <> w -> m_pres (challenge_shrinks w) (issue_backup_challenge d w').
Proof using Type.
  intros Hne. unfold issue_backup_challenge.
  do 2 (apply m_pres_bind; [apply _|apply same_shrinks; m_pres_auto|intros ?]).
  apply m_pres_bind; [apply _| |intros ?; apply same_shrinks; m_pres_auto].
  intros s. left. simpl. by rewrite lookup_insert_ne.
Qed.

Lemma logout_shrinks w w' : m_pres (challenge_shrinks w) (logout_wallet w').
Proof using Type.
  intros s. unfold logout_wallet. rewrite m_get_bind. destruct (wm_active s) as [a|]; [|by left].
  destruct (negb _); [by left|]. unfold challenge_shrinks. simpl.
  destruct (decide (w' = w)) as [->|]; [rewrite lookup_delete_eq; auto|rewrite lookup_delete_ne by done; auto].
Qed.

Lemma void_shrinks w {A} (m : M WM A) : m_pres (challenge_shrinks w) m -> m_pres (challenge_shrinks w) (void m).
Proof using Type. intros Hm. unfold void. apply m_pres_bind; [apply _|done|intros ?]. apply m_pres_ret. apply _. Qed.

Ltac frame_auto :=
  repeat first
    [ m_pres_step
    | progress unfold derive_unified_spending_key, consume_token, resolve_endpoint, get_tx_operation_context,
        preflight, build_retry_broadcast_task, prepare_retry_broadcast_task, execute_retry_broadcast_task,
        prepare_next_queued_broadcast_retry_task, prepare_confirm_send, prepare_shield_funds, find_wallet,
        open_key, finish_unlock, scan_active, register_wallet, init_database, insert_account, activate,
        drop_challenge ].

(** No other call touches the challenges. *)
Lemma others_challenges c :
  match c with CCreate _ _ _ _ _ | CLogout _ | CChallenge _ _ | CVerify _ _ _ _ => True
  | _ => m_pres same_challenges (call c) end.
Proof using Type.
  destruct c; try done; simpl; unfold void; try solve [m_pres_auto].
  - unfold load_wallet. frame_auto.
  - unfold restore_wallet. frame_auto.
  - unfold create_keystone_wallet. frame_auto.
  - unfold unlock_wallet. frame_auto.
  - unfold lock_wallet. frame_auto.
  - unfold reauth_wallet. frame_auto.
  - unfold view_seed_phrase. frame_auto.
  - unfold observe_sync_progress. destruct (status_of_progress p). frame_auto.
  - unfold observe_balance_changed. frame_auto.
  - unfold import_ufvk. frame_auto.
  - unfold wm_prepare_send. frame_auto.
  - unfold wm_build_signing_request. frame_auto.
  - unfold wm_finalize_signing. frame_auto.
  - unfold prepare_confirm_send_task. frame_auto.
  - unfold prepare_shield_funds_task. frame_auto.
  - unfold prepare_finalize_signing_task. frame_auto.
  - unfold wm_retry_broadcast. frame_auto.
  - unfold process_queued_broadcast_retries. frame_auto.
  - unfold wm_list_transactions. frame_auto.
  - unfold start_send_job. frame_auto.
  - unfold start_shield_job. frame_auto.
  - apply m_pres_bind; [apply _| |intros ?; m_pres_auto]. intros s. unfold wm_cancel_job.
    by destruct (cancel_job _ _).
Qed.

Lemma create_shrinks w d name n pw b :
  dr_uuid d <> w -> m_pres (challenge_shrinks w) (create_wallet wallets_root from_slice d name n pw b).
Proof using Type.
  intros Hne. unfold create_wallet.
  assert (m_pres (challenge_shrinks w) (issue_backup_challenge (dr_challenge d) (dr_uuid d))) as Hi
    by by apply issue_other_shrinks.
  assert (forall A (m : M WM A), m_pres same_challenges m -> m_pres (challenge_shrinks w) m) as Hs
    by (intros A m; apply same_shrinks).
  repeat first
    [ exact Hi
    | apply m_pres_bind; [apply _|first [exact Hi|apply Hs; frame_auto; fail]|intros ?]
    | match goal with |- m_pres _ (if ?b then _ else _) => destruct b end
    | apply Hs; frame_auto; fail ].
Qed.

(** A call takes a guess off the challenge when its answers are wrong, and
    none adds to it. *)
Lemma call_guesses w c s :
  issues w c = false -> (if wrong_guess w c s then 1 else 0) + guesses_left w (call c s).2 <= guesses_left w s.
Proof using Type.
  intros Hi.
  assert (m_pres (challenge_shrinks w) (call c) -> wrong_guess w c s = false ->
    (if wrong_guess w c s then 1 else 0) + guesses_left w (call c s).2 <= guesses_left w s) as Hshrink.
  { intros Hm ->. specialize (Hm s). unfold guesses_left. destruct Hm as [-> | ->]; repeat case_match; lia. }
  pose proof (others_challenges c) as Ho.
  destruct c; try (apply Hshrink; [by apply same_shrinks|done]).
  - apply Hshrink; [|done]. apply void_shrinks, create_shrinks. simpl in Hi. by apply bool_decide_eq_false in Hi.
  - apply Hshrink; [|done]. apply logout_shrinks.
  - apply Hshrink; [|done]. apply void_shrinks. unfold get_backup_challenge.
    apply m_pres_bind; [apply _|apply same_shrinks; m_pres_auto|intros ?].
    destruct (watch_only _ _); [apply same_shrinks; m_pres_auto|].
    apply issue_other_shrinks. simpl in Hi. by apply bool_decide_eq_false in Hi.
  - clear Hshrink Ho. simpl. pose proof (verify_backup_run now_ms w0 challenge_id answers s) as Hv.
    destruct (verify_backup now_ms w0 challenge_id answers s) as [r s']. simpl.
    destruct (bool_decide (w0 = w)) eqn:Ew; breflect; simpl.
    + subst w0. unfold guesses_left.
      destruct (compared now_ms w challenge_id s) as [[st words]|] eqn:Ec; simpl.
      * assert (wm_backup_challenges s !! w = Some st /\ bc_failed_attempts st < 5) as [Hst Hlt].
        { revert Ec. unfold compared. destruct (watch_only w s); [done|].
          destruct (wm_backup_challenges s !! w) as [st'|]; simpl; [|done].
          destruct (negb _); [done|]. destruct (_ <? now_ms); [done|].
          destruct (5 <=? bc_failed_attempts st') eqn:E5; [done|].
          destruct (require_unlocked_wallet_snapshot w s) as [[wal dek]|]; [|done]. simpl.
          destruct (with_context _ _); [|done]. destruct (Nat.eqb _ 24); [|done].
          intros [= <- _]. split; [done|lia]. }
        rewrite Hst. destruct (forallb _ _); simpl.
        { destruct Hv as [(_ & -> & _)|[_ ->]]; rewrite ?lookup_delete_eq, ?Hst; lia. }
        destruct Hv as [_ ->]. destruct (5 <=? _) eqn:E5; breflect;
          rewrite ?lookup_delete_eq, ?lookup_insert_eq; simpl; lia.
      * destruct Hv as [_ [-> | ->]]; rewrite ?lookup_delete_eq; repeat case_match; lia.
    + assert (wm_backup_challenges s' !! w = wm_backup_challenges s !! w) as Hsame.
      { destruct (compared _ _ _ _) as [[st words]|].
        - destruct (forallb _ _); [destruct Hv as [(_ & -> & _)|[_ ->]]|destruct Hv as [_ ->]; destruct (5 <=? _)];
            by rewrite ?lookup_delete_ne, ?lookup_insert_ne.
        - destruct Hv as [_ [-> | ->]]; by rewrite ?lookup_delete_ne. }
      unfold guesses_left. rewrite Hsame. lia.
Qed.

Lemma history_guesses w cs s :
  Forall (fun c => issues w c = false) cs ->
  wrong_guesses w cs s
  + guesses_left w (run_calls wallets_root from_slice url_parse debug env_var to_vec_pretty fl send nonce
      offset_ms cs s) <= guesses_left w s.
Proof using Type.
  intros Hcs. revert s. induction Hcs as [|c cs Hc _ IH]; intros s; simpl; [lia|].
  specialize (IH (call c s).2). pose proof (call_guesses w c s Hc). simpl in *. unfold call in *. lia.
Qed.

Lemma no_guess_left w s : guesses_left w s <= 0 -> forall now id, compared now w id s = None.
Proof using Type.
  unfold guesses_left, compared. intros Hg now id. destruct (watch_only w s); [done|].
  destruct (wm_backup_challenges s !! w) as [st|]; [simpl|done]. destruct (negb _); [done|].
  destruct (_ <? now); [done|]. by rewrite (proj2 (Z.leb_le 5 (bc_failed_attempts st))) by lia.
Qed.

(** C39. A challenge allows five wrong guesses.  Over every history of calls
    that issues no new challenge for the wallet, at most five sets of
    answers are compared with its words and found wrong, whatever fails in
    between; after the fifth no answer is compared any more. *)
Theorem backup_guesses_bounded (w : Uuid) (d : ChallengeDraw) (ch : BackupChallenge) (cs : list Call) (s0 s : WM) :
  issue_backup_challenge d w s0 = (Ok ch, s) -> Forall (fun c => issues w c = false) cs ->
  let s' := run_calls wallets_root from_slice url_parse debug env_var to_vec_pretty fl send nonce
              offset_ms cs s in
  wrong_guesses w cs s <= 5
  /\ (wrong_guesses w cs s = 5 -> forall now id, compared now w id s' = None).
Proof using Type.
  intros Hi Hcs s'. pose proof (history_guesses w cs s Hcs) as H. fold s' in H.
  assert (guesses_left w s = 5) as H5.
  { revert Hi. unfold issue_backup_challenge. m_run; [|done]. m_run; [|done]. m_run.
    intros [= _ <-]. unfold guesses_left. simpl. by rewrite lookup_insert_eq. }
  assert (0 <= guesses_left w s') by (unfold guesses_left; case_match; lia).
  split; [lia|]. intros Hw. apply no_guess_left. lia.
Qed.

Context `{S : !KeyStoreSpec KS}.

(** The words that are compared are those of the stored mnemonic. *)
Lemma decrypt_mnemonic_Ok w n k s phrase s' :
  decrypt_mnemonic w n k s = (Ok phrase, s') ->
  exists stored, ks_view (wm_queue s) w n = Some stored /\ decrypt_mnemonic_bytes w n k stored = Ok phrase.
Proof using Type.
  unfold decrypt_mnemonic. rewrite m_bind_eq. unfold m_context.
  destruct (on_disk (load_encrypted_mnemonic w n) s) as [r s1] eqn:E. apply on_disk_run in E as (q' & E & _).
  pose proof (ks_load w n (wm_queue s)) as Hl. rewrite E in Hl. destruct Hl as (_ & _ & _ & Hl). simpl.
  destruct r as [v|]; simpl; [|done]. specialize (Hl v eq_refl). subst v. rewrite m_bind_eq. unfold m_lift.
  destruct (ks_view (wm_queue s) w n) as [b|]; simpl; [|done]. rewrite m_bind_eq. simpl.
  destruct (decrypt_mnemonic_bytes w n k b) as [x|] eqn:Ed; simpl; [|done].
  destruct (utf8_valid x); [|done]. intros [= <- _]. eauto.
Qed.

(** An answer to one index: the word at that place, up to white space around
    it and ASCII case. *)
Definition answers_word (words : list string) (answers : gmap Z string) (index : Z) : Prop :=
  exists word answer, 1 <= index /\ words !! Z.to_nat (index - 1) = Some word /\ answers !! index = Some answer
    /\ eq_ignore_ascii_case (trim answer) word = true.

Lemma word_matches_iff words answers i : word_matches words answers i = true <-> answers_word words answers i.
Proof using Type.
  unfold word_matches, answers_word. destruct (1 <=? i) eqn:E; breflect.
  - destruct (words !! _) as [word|]; [|naive_solver]. destruct (answers !! i) as [answer|]; naive_solver.
  - split; [done|]. intros (? & ? & ? & _). lia.
Qed.

(** A verified backup knows the words.  When [verify_backup] succeeds, the
    wallet was unlocked, its challenge of that id was not expired and had
    fewer than five failures, the stored mnemonic decrypts under the
    wallet's key to 24 words, and every word that was asked for was
    answered; afterwards the challenge is gone and the backup is recorded
    as complete.  Otherwise the challenge was refused, dropped or has one
    more failure, never reset. *)
Theorem verified_backup_knows_words (now : Z) (w : Uuid) (id : string) (answers : gmap Z string) (s : WM) :
  let '(r, s') := verify_backup now w id answers s in
  (r = Ok tt ->
     exists st wallet dek stored phrase,
       wm_backup_challenges s !! w = Some st /\ bc_challenge_id st = id
       /\ now <= bc_expires_at st /\ bc_failed_attempts st < 5
       /\ require_unlocked_wallet_snapshot w s = Ok (wallet, dek)
       /\ ks_view (wm_queue s) (wi_id wallet) (wi_network wallet) = Some stored
       /\ decrypt_mnemonic_bytes (wi_id wallet) (wi_network wallet) dek stored = Ok phrase
       /\ length (split_whitespace phrase) = 24%nat
       /\ Forall (answers_word (split_whitespace phrase) answers) (bc_indices st)
       /\ wm_backup_challenges s' !! w = None /\ backup_done w (wm_db s'))
  /\ (r <> Ok tt ->
      wm_backup_challenges s' = wm_backup_challenges s
      \/ wm_backup_challenges s' = delete w (wm_backup_challenges s)
      \/ exists st, wm_backup_challenges s !! w = Some st /\ bc_failed_attempts st < 4
          /\ wm_backup_challenges s' = <[w := one_more_failure st]> (wm_backup_challenges s)).
Proof using Type.
  pose proof (verify_backup_run now w id answers s) as Hv.
  destruct (verify_backup now w id answers s) as [r s'].
  destruct (compared now w id s) as [[st words]|] eqn:Ec;
    [|destruct Hv as [Hr Hch]; split; [by intros ->|naive_solver]].
  revert Ec. unfold compared. destruct (watch_only w s); [done|].
  destruct (wm_backup_challenges s !! w) as [st'|] eqn:Est; simpl; [|done].
  destruct (negb _) eqn:Eid; [done|]. destruct (_ <? now) eqn:Ex; [done|].
  destruct (5 <=? bc_failed_attempts st') eqn:E5; [done|].
  destruct (require_unlocked_wallet_snapshot w s) as [[wal dek]|] eqn:Er; [|done]. simpl.
  destruct (decrypt_mnemonic (wi_id wal) (wi_network wal) dek s) as [[phrase|] s1] eqn:Ed; simpl; [|done].
  destruct (Nat.eqb _ 24) eqn:E24; [|done]. intros [= <- <-]. breflect. apply Nat.eqb_eq in E24.
  apply decrypt_mnemonic_Ok in Ed as (stored & Hks & Hdec).
  destruct (forallb _ _) eqn:Ef.
  - destruct Hv as [(-> & -> & Hb)|[Hr ->]]; [|split; [by intros ->|auto]]. split; [intros _|done].
    exists st', wal, dek, stored, phrase. rewrite lookup_delete_eq. repeat split; try done; [lia..|].
    apply Forall_forall. intros i Hi. apply word_matches_iff. rewrite forallb_forall in Ef.
    apply Ef. by apply list_elem_of_In.
  - destruct Hv as [Hr Hch]. split; [by intros ->|]. intros _. rewrite Hch.
    destruct (5 <=? bc_failed_attempts st' + 1) eqn:E6; [auto|]. right; right. exists st'. repeat split; try done. lia.
Qed.
End Backup.

(** ** Witness *)

Definition demo_created : WM := (demo_call (CCreate demo_draws "Main" Network.Mainnet "pw" None) demo_start).2.

Definition demo_guess : Call := CVerify 2000 "w1" "challenge-1" {[1 := "legal"; 3 := "wrong"; 7 := "worth"; 12 := "year"]}.

(** Four wrong answers are counted against a new challenge. *)
Lemma backup_guesses_bounded_witness :
  exists ch s, issue_backup_challenge demo_challenge "w1" demo_created = (Ok ch, s)
    /\ wrong_guesses (KS := demo_key_store) "/wallets" (fun _ => None) demo_parse false None (fun _ => "")
         (fun x => x) (fun _ _ _ => None) (fun s => s) (fun _ => 0%Q) "w1" (repeat demo_guess 4) s = 4
    /\ wrong_guesses (KS := demo_key_store) "/wallets" (fun _ => None) demo_parse false None (fun _ => "")
         (fun x => x) (fun _ _ _ => None) (fun s => s) (fun _ => 0%Q) "w1" (repeat demo_guess 8) s <= 5.
Proof.
  destruct (issue_backup_challenge demo_challenge "w1" demo_created) as [[ch|e] s] eqn:E;
    [|vm_compute in E; discriminate E].
  exists ch, s. split; [done|]. split.
  - vm_compute in E. injection E as <- <-. by vm_compute.
  - refine (proj1 (backup_guesses_bounded (KS := demo_key_store) "/wallets" (fun _ => None) demo_parse false None
      (fun _ => "") (fun x => x) (fun _ _ _ => None) (fun s => s) (fun _ => 0%Q) "w1" demo_challenge ch
      (repeat demo_guess 8) demo_created s E _)).
    repeat constructor.
Defined.
