(* ===== verification/WalletRoundtrip.v ===== *)
(** A wallet outlives the process: what [create_wallet] leaves on disk and in
    the database is enough, with the password, to open the wallet again and
    to show its seed phrase. *)
From S2P Require Import Prelude Text Domain AppDb Reauth Broadcast Servers BroadcastQueue Jobs.
From S2P Require Import Sends Shielding Encryption KeyStore WalletManager WalletFrames WalletDemo WalletDisk WalletSafety WalletBackup.
Open Scope Z_scope.

(** ** What the wallet library promises *)

Class WalletLibLaws (WL : WalletLib) := {
  (** The contents are a database that this key opens. *)
  keyed : string -> string -> Prop;
  sql_create dek : String.length dek = 32%nat -> exists c, sql_open true dek None = (Ok tt, Some c) /\ keyed dek c;
  sql_reopen create dek c : keyed dek c ->
    exists f, sql_open create dek (Some c) = (Ok tt, f) /\ keyed dek (default c f);
  load_array_ok : sql_load_array = inr tt;
  db_init_ok dek c : keyed dek c -> exists c', db_init c = (inr tt, c') /\ keyed dek c';
  db_check_ok dek c : keyed dek c -> db_check c = inr tt;
  create_account_ok name seed birthday dek c : keyed dek c ->
    exists c', db_create_account name seed birthday c = (inr tt, c') /\ keyed dek c';
  chain_tip_ok height dek c : keyed dek c ->
    exists c', db_update_chain_tip height c = (inr tt, c') /\ keyed dek c';
  (** 32 bytes of entropy are 24 words of the English list. *)
  entropy_words e : String.length e = 32%nat ->
    exists words, mnemonic_from_entropy e = inr words /\ length words = 24%nat
      /\ forallb plain_word words = true /\ Z.of_nat (String.length (join " " words)) <= u32_max;
}.

(** ** Scanning leaves the wallet's files alone *)

(** Files outside [P] and directories stay, and a disk that works goes on working. *)
Record leaves (P : Path -> Prop) (q q' : QueueState) : Prop := {
  lv_files p : ~ P p -> file_at q' p = file_at q p;
  lv_dirs d : has_dir q d -> has_dir q' d;
  lv_faults : q_faults q = [] -> q_faults q' = [];
}.

#[global] Instance leaves_preorder P : PreOrder (leaves P).
Proof.
  split; [by split|]. intros q1 q2 q3 [] []. split; [|naive_solver..].
  intros p Hp. rewrite lv_files1, lv_files0; done.
Qed.

Lemma touches_leaves P q q' : touches P q q' -> leaves P q q'.
Proof. intros []. by split. Qed.

Lemma leaves_weaken (P Q : Path -> Prop) q q' : (forall p, P p -> Q p) -> leaves P q q' -> leaves Q q q'.
Proof. intros HPQ [Hf ? ?]. split; [|done|done]. intros p Hp. apply Hf. naive_solver. Qed.

(** The files of the queue. *)
Definition queue_file (p : Path) : Prop := exists stem, p.2 = stem +:+ ".json" \/ p.2 = stem +:+ ".bin".

Lemma remove_leaves p : queue_file p -> m_pres (leaves queue_file) (fs_remove_file p).
Proof.
  intros Hp. eapply m_pres_weaken; [|apply (fs_remove_file_touches p)]. intros q q' Ht.
  eapply leaves_weaken; [|by apply touches_leaves]. by intros p' ->.
Qed.

Lemma fs_call_leaves P : m_pres (leaves P) fs_call.
Proof. eapply m_pres_weaken; [apply touches_leaves|]. apply fs_call_touches. Qed.

Lemma fs_read_leaves P p : m_pres (leaves P) (fs_read p).
Proof. pose proof (fs_call_leaves P). unfold fs_read. m_pres_auto. Qed.

Lemma scan_entry_leaves from_slice qd now now_ms entries name :
  m_pres (leaves queue_file) (scan_entry from_slice qd now now_ms entries name).
Proof.
  unfold scan_entry. destruct (file_parts name) as [txid [ext|]] eqn:Ep; [|m_pres_auto].
  destruct (decide (ext = "json")) as [->|Hne].
  2:{ repeat (case_match; simplify_eq; try (m_pres_auto; fail)). }
  assert (queue_file (qd, name)) as Hn.
  { exists txid. left. simpl. by apply file_parts_json_inv. }
  assert (queue_file (queued_broadcast_bin_path qd txid)) as Hb by (exists txid; by right).
  pose proof remove_leaves. pose proof fs_read_leaves. m_pres_auto.
Qed.

Lemma set_mem_leaves P q m : leaves P q (q_set_mem q m).
Proof. by split. Qed.

Lemma scan_leaves from_slice now w dir :
  m_pres (leaves queue_file) (scan_queued_broadcasts from_slice now w dir).
Proof.
  unfold scan_queued_broadcasts. apply m_pres_get_bind. intros q.
  destruct (q_disk q !! _) as [files|]; [|apply set_mem_leaves].
  match goal with |- leaves _ q (?m q).2 => assert (m_pres (leaves queue_file) m) as Hm; [|apply Hm] end.
  unfold scan_dir_entry. pose proof fs_call_leaves. pose proof scan_entry_leaves. m_pres_auto. intros q1. apply set_mem_leaves.
Qed.

Lemma scan_quiet from_slice now w dir q :
  0 <= now -> now / 1000000 <= i64_max -> q_faults q = [] ->
  is_ok (scan_queued_broadcasts from_slice now w dir q).1 = true.
Proof.
  intros H0 H1 Hq. destruct (q_disk q !! queued_broadcasts_dir dir) as [files|] eqn:Ed.
  - destruct (scan_exact from_slice now (now / 1000000) w dir q files Hq) as (q' & entries & -> & _); [|done|done].
    unfold to_unix_ms. by rewrite (proj2 (Z.ltb_ge now 0)), (proj2 (Z.leb_le _ _)) by lia.
  - unfold scan_queued_broadcasts. rewrite m_get_bind. by rewrite Ed.
Qed.

(** Neither the database nor a mnemonic is a file of the queue. *)
Lemma not_queue_file p : p.2 = "mnemonic.enc" \/ p.2 = "wallet.sqlite" -> ~ queue_file p.
Proof.
  intros Hp (stem & [H|H]); destruct Hp as [Hp|Hp]; rewrite Hp in H; apply (f_equal String.rev) in H;
    rewrite string_rev_app in H; by repeat rewrite string_app_cons in H.
Qed.

Lemma m_ret_run {St A} (a : A) (s : St) : (mret a : M St A) s = (Ok a, s).
Proof. reflexivity. Qed.

(** ** Wallets at rest *)

Definition quiet (s : WM) : Prop := q_faults (wm_queue s) = [] /\ adb_faults (wm_db s) = [].

Section Rest.
Context `{C : Crypto} `{KS : KeyStore} `{WL : WalletLib}.
Context `{L : !CryptoLaws C} `{S : !KeyStoreSpec KS} `{WLL : !WalletLibLaws WL}.
Context (wallets_root : string) (from_slice : string -> option QueuedBroadcastMeta).
Context (w : Uuid) (n : Network) (password dek : string) (words : list string)
        (kdf : WalletKdfParams) (aead : WalletAeadParams).

Let dir := wallet_dir wallets_root w n.
Let db_file := wallet_db_path dir.

(** The row of a software wallet and its wrapped key. *)
Definition row_kept (s : WM) : Prop :=
  (exists r, find_first (wallet_id_is w) (adb_wallets (wm_db s)) = Some r
     /\ parse_network_column (wr_network r) = n
     /\ parse_wallet_type_column (wr_wallet_type r) = WalletType.Software /\ wr_directory_path r = dir)
  /\ password_opens (wm_db s) w password dek
  /\ key_sealed (wm_db s) w n password kdf aead dek.

Definition file_kept (s : WM) : Prop := exists c, file_at (wm_queue s) db_file = Some c /\ keyed dek c.

Definition seed_kept (s : WM) : Prop :=
  exists stored, ks_view (wm_queue s) w n = Some stored
    /\ decrypt_mnemonic_bytes w n dek stored = Ok (join " " words).

Record at_rest (s : WM) : Prop := {
  ar_quiet : quiet s;
  ar_valid : wm_force_validate_fail s = false;
  ar_row : row_kept s;
  ar_file : file_kept s;
  ar_seed : seed_kept s;
}.

(** Before the seed is stored. *)
Definition at_rest_but_seed (s : WM) : Prop :=
  quiet s /\ wm_force_validate_fail s = false /\ row_kept s /\ file_kept s.

(** What a step must leave alone for a wallet at rest to stay so. *)
Record carry (s s' : WM) : Prop := {
  ca_quiet : quiet s -> quiet s';
  ca_valid : wm_force_validate_fail s' = wm_force_validate_fail s;
  ca_grows : wm_grows s s';
  ca_file : file_at (wm_queue s') db_file = file_at (wm_queue s) db_file;
  ca_seed : ks_view (wm_queue s') w n = ks_view (wm_queue s) w n;
}.

#[local] Instance carry_preorder : PreOrder carry.
Proof using Type.
  split; [intros s; split; try done; unfold wm_grows; reflexivity|].
  intros a b c [] []. split; [auto|congruence| |congruence|congruence].
  unfold wm_grows, tx_grows, retry_grows in *. by etransitivity.
Qed.

Lemma row_kept_grows s s' : wm_grows s s' -> row_kept s -> row_kept s'.
Proof using Type.
  intros Hg [(r & Hr & Hn & Ht & Hd) [Hp Hk]].
  split; [|split; [by eapply password_opens_grows|by eapply key_sealed_grows]].
  destruct (eg_wallets _ _ Hg w r Hr) as (r' & Hr' & H1 & H2 & H3). exists r'.
  by rewrite H1, H2, H3.
Qed.

Lemma carry_at_rest s s' : carry s s' -> at_rest s -> at_rest s'.
Proof using Type.
  intros [] []. split; [auto|congruence|by eapply row_kept_grows|..].
  - unfold file_kept. by rewrite ca_file0.
  - unfold seed_kept. by rewrite ca_seed0.
Qed.

(** *** Steps *)

Lemma on_app_db_carry {A} (m : M AppDb A) :
  m_pres enc_grows m -> (forall db, adb_faults db = [] -> adb_faults (m db).2 = []) -> m_pres carry (on_app_db m).
Proof using Type.
  intros Hg Hf s. specialize (Hg (wm_db s)). specialize (Hf (wm_db s)).
  unfold on_app_db, on_tx, on_retry, on_db, m_zoom. fold (wm_db s). destruct (m (wm_db s)) as [r db'].
  split; [|done|exact Hg|done|done]. intros [Hq Hd]. split; [done|]. by apply Hf.
Qed.

Lemma on_disk_carry {A} (m : M QueueState A) P :
  m_pres (leaves P) m -> (forall p, P p -> p.2 <> "mnemonic.enc" /\ p <> db_file) -> m_pres carry (on_disk m).
Proof using Type.
  intros Hm HP s. specialize (Hm (wm_queue s)). unfold on_disk, on_tx, on_retry, on_queue, m_zoom.
  fold (wm_queue s). destruct (m (wm_queue s)) as [r q']. destruct Hm as [Hf _ Hq].
  split; [|done|unfold wm_grows, tx_grows, retry_grows; simpl; reflexivity|..].
  - intros [H1 H2]. split; [by apply Hq|done].
  - apply Hf. intros Hp. by destruct (HP _ Hp).
  - apply ks_view_ext. intros p Hp. apply Hf. intros HPp. by destruct (HP _ HPp).
Qed.

Lemma scan_active_carry now : m_pres carry (scan_active from_slice now w dir).
Proof using Type.
  unfold scan_active. apply m_pres_context. eapply on_disk_carry; [apply scan_leaves|].
  intros p Hp. split; intros He; eapply not_queue_file; [|exact Hp| |exact Hp]; [by left|right]. by rewrite He.
Qed.

Lemma emit_carry ev : m_pres carry (on_tx (on_retry (emit ev))).
Proof using Type. intros s. split; try done. unfold wm_grows, tx_grows, retry_grows. simpl. reflexivity. Qed.

(** A statement on a database that works. *)
Ltac quiet_stmt :=
  unfold get_wallet, get_backup_required, get_wallet_encryption, set_remember_unlock_enabled, update_wallet_row,
    upsert_account, upsert_backup, db_require, mbind, M_bind, m_get, m_put, m_modify, m_err, mret, M_ret;
  let H := fresh in intros ? H;
  db_step; match goal with Hf : _ -> _ /\ _ |- _ => destruct (Hf H) as [-> ->] end;
  repeat case_match; simplify_eq/=; done.

Lemma get_wallet_faults v db : adb_faults db = [] -> adb_faults (get_wallet v db).2 = [].
Proof using Type. revert db. quiet_stmt. Qed.
Lemma get_backup_required_faults v db : adb_faults db = [] -> adb_faults (get_backup_required v db).2 = [].
Proof using Type. revert db. quiet_stmt. Qed.
Lemma set_remember_faults v b db : adb_faults db = [] -> adb_faults (set_remember_unlock_enabled v b db).2 = [].
Proof using Type. revert db. quiet_stmt. Qed.
Lemma upsert_account_faults v a t db : adb_faults db = [] -> adb_faults (upsert_account v a t db).2 = [].
Proof using Type. revert db. quiet_stmt. Qed.
Hint Resolve get_wallet_faults get_backup_required_faults set_remember_faults upsert_account_faults
  on_app_db_carry scan_active_carry emit_carry : zbag.

Lemma maybe_emit_carry v : m_pres carry (maybe_emit_wallet_status v).
Proof using Type.
  assert (m_pres carry (compute_wallet_status v)) as Hc.
  { unfold compute_wallet_status. m_pres_auto. }
  unfold maybe_emit_wallet_status.
  apply m_pres_bind; [apply _|m_pres_auto|intros [status|e]; [|m_pres_auto]].
  intros s. rewrite m_bind_eq. simpl. case_match; [reflexivity|]. rewrite m_bind_eq. simpl.
  etransitivity; [|case_match; [apply emit_carry|reflexivity]].
  split; try done. unfold wm_grows. simpl. reflexivity.
Qed.
Hint Resolve maybe_emit_carry : zbag.

Lemma on_app_db_read {A} (m : M AppDb A) s a : m (wm_db s) = (Ok a, wm_db s) -> on_app_db m s = (Ok a, s).
Proof using Type.
  unfold on_app_db, on_tx, on_retry, on_db, m_zoom, wm_db. intros ->.
  by destruct s as [[? ? []] ? ? ? ? ? ? ? ? ? ?].
Qed.

Lemma find_wallet_rest s :
  quiet s -> row_kept s ->
  exists r, find_wallet wallets_root w s = (Ok (wallet_of_row r, dir), s)
    /\ find_first (wallet_id_is w) (adb_wallets (wm_db s)) = Some r
    /\ wr_id r = w /\ parse_network_column (wr_network r) = n
    /\ parse_wallet_type_column (wr_wallet_type r) = WalletType.Software.
Proof using Type.
  intros [_ Hq] [(r & Hr & Hn & Ht & Hd) _]. exists r.
  assert (wr_id r = w) as Hid by (apply find_first_Some in Hr as [_ Hw]; by apply bool_decide_eq_true in Hw).
  split; [|done]. unfold find_wallet.
  rewrite m_bind_eq, (on_app_db_read _ s (Some (wallet_of_row r, dir))).
  - simpl. rewrite m_bind_eq. simpl. rewrite Hid, Hn. by rewrite bool_decide_eq_true_2.
  - unfold get_wallet, mbind, M_bind, m_get, mret, M_ret. unfold db_stmt. rewrite Hq. simpl.
    rewrite Hr. simpl. by rewrite Hd.
Qed.

Lemma open_key_rest s wal :
  quiet s -> row_kept s -> wi_network wal = n -> open_key wal w password s = (Ok dek, s).
Proof using Type.
  intros [_ Hq] [(r & Hr & Hn & _) [(r' & meta & Hr' & Hm & Hu) _]] Hw. simplify_eq.
  unfold open_key. rewrite m_bind_eq, (on_app_db_read _ s (Some meta)).
  - simpl. rewrite m_bind_eq. simpl. unfold m_lift. rewrite Hw. by rewrite Hu.
  - unfold get_wallet_encryption, mbind, M_bind, m_get, mret, M_ret, db_stmt. rewrite Hq. simpl.
    unfold mbind in Hm. by rewrite Hm.
Qed.

(** A step that succeeds, keeps the wallet at rest and the active wallet. *)
Lemma step_rest {A} (m : M WM A) s :
  at_rest s -> m_pres carry m -> m_pres keeps m -> is_ok (m s).1 = true ->
  exists a s', m s = (Ok a, s') /\ at_rest s' /\ wm_active s' = wm_active s.
Proof using Type.
  intros Hs Hc Hk Hok. specialize (Hc s). specialize (Hk s). destruct (m s) as [[a|e] s']; [|done].
  exists a, s'. split; [done|]. split; [by eapply carry_at_rest|]. by destruct Hk.
Qed.

Lemma migrated_keyed create c :
  keyed dek c -> exists c', migrated false create dek c = Some c' /\ keyed dek c'.
Proof using Type.
  intros Hk. unfold migrated. destruct (sql_reopen create dek c Hk) as (f & -> & Hf). rewrite load_array_ok.
  destruct (db_init_ok dek _ Hf) as (c' & -> & Hc'). rewrite (db_check_ok dek c' Hc'). eauto.
Qed.

Lemma db_files_not_seed p : db_files dir p -> p.2 <> "mnemonic.enc".
Proof using Type. by intros [-> | ->]. Qed.

(** The state of the manager with another disk. *)
Lemma on_disk_eq {A} (m : M QueueState A) s :
  on_disk m s = ((m (wm_queue s)).1, (on_disk m s).2) /\ wm_queue (on_disk m s).2 = (m (wm_queue s)).2
  /\ wm_db (on_disk m s).2 = wm_db s /\ wm_force_validate_fail (on_disk m s).2 = wm_force_validate_fail s
  /\ wm_active (on_disk m s).2 = wm_active s.
Proof using Type.
  unfold on_disk, on_tx, on_retry, on_queue, m_zoom, wm_queue. by destruct (m _) as [r q'].
Qed.

Lemma open_db_rest ctx create s :
  at_rest s ->
  exists s', m_context ctx (on_disk (open_wallet_db_with_dek (wm_force_validate_fail s) dir dek create)) s
             = (Ok db_file, s') /\ at_rest s' /\ wm_active s' = wm_active s.
Proof using Type.
  intros [[Hq Hd] Hv Hr (c & Hf & Hk) Hs]. rewrite Hv.
  destruct (migrated_keyed create c Hk) as (c' & Hm & Hk').
  pose proof (open_wallet_db_existing false dir dek create (wm_queue s) c Hq Hf) as Ho.
  pose proof (open_wallet_db_touches false dir dek create (wm_queue s)) as Ht.
  destruct (on_disk_eq (open_wallet_db_with_dek false dir dek create) s) as (E & E1 & E2 & E3 & E4).
  destruct (open_wallet_db_with_dek false dir dek create (wm_queue s)) as [r q']. rewrite Hm in Ho.
  destruct Ho as (_ & -> & Hf'). simpl in *. eexists. rewrite (m_context_Ok _ _ _ _ _ E).
  split; [done|]. split; [|done]. destruct Ht as [_ Hfiles _ Hquiet]. split.
  - split; [rewrite E1; by apply Hquiet|by rewrite E2].
  - congruence.
  - unfold row_kept. by rewrite E2.
  - exists c'. rewrite E1. by split.
  - unfold seed_kept. rewrite E1. erewrite ks_view_ext; [exact Hs|].
    intros p Hp. apply Hfiles. intros Hb. by apply db_files_not_seed in Hb.
Qed.

Lemma forget_carry : m_pres carry (m_ignore (on_disk (delete_keychain_unlock_material w n))).
Proof using Type.
  apply m_pres_ignore. intros s. pose proof (ks_forget w n (wm_queue s)) as Hf.
  destruct (on_disk_eq (delete_keychain_unlock_material w n) s) as (E & E1 & E2 & E3 & E4).
  destruct (delete_keychain_unlock_material w n (wm_queue s)) as [r q']. destruct Hf as [Ht Hview]. simpl in *.
  destruct Ht as [_ Hfiles _ Hquiet]. split.
  - intros [H1 H2]. split; [rewrite E1; by apply Hquiet|by rewrite E2].
  - congruence.
  - unfold wm_grows, tx_grows, retry_grows. fold (wm_db s). unfold wm_db in E2. rewrite E2. reflexivity.
  - rewrite E1. apply Hfiles. unfold key_file. simpl. by intros [?|?].
  - rewrite E1. apply Hview.
Qed.

Definition active_as (a : ActiveWallet) : Prop :=
  wi_id (aw_wallet a) = w /\ wi_network (aw_wallet a) = n
  /\ wi_wallet_type (aw_wallet a) = WalletType.Software
  /\ aw_lock_status a = WalletLockStatus.Unlocked /\ aw_dek a = Some dek.

Definition clock_ok (now : Z) : Prop := 0 <= now /\ now / 1000000 <= i64_max.

Lemma scan_active_rest now s : clock_ok now -> at_rest s ->
  exists s', scan_active from_slice now w dir s = (Ok tt, s') /\ at_rest s' /\ wm_active s' = wm_active s.
Proof using Type.
  intros [H0 H1] Hs. destruct (step_rest (scan_active from_slice now w dir) s) as ([] & s' & H); [done|..|eauto].
  - apply scan_active_carry.
  - apply scan_active_keeps.
  - unfold scan_active, m_context. destruct (on_disk_eq (scan_queued_broadcasts from_slice now w dir) s) as (-> & _).
    simpl. pose proof (scan_quiet from_slice now w dir (wm_queue s) H0 H1 (proj1 (ar_quiet _ Hs))) as Hok.
    by destruct (scan_queued_broadcasts _ _ _ _ _) as [[]].
Qed.

Lemma emit_rest s : at_rest s ->
  exists s', maybe_emit_wallet_status w s = (Ok tt, s') /\ at_rest s' /\ wm_active s' = wm_active s.
Proof using Type.
  intros Hs. destruct (step_rest (maybe_emit_wallet_status w) s) as ([] & s' & H); [done|..|eauto].
  - apply maybe_emit_carry.
  - apply maybe_emit_wallet_status_keeps.
  - by rewrite maybe_emit_ok.
Qed.

Lemma unlock_rest now s : clock_ok now -> at_rest s ->
  exists s' a, unlock_wallet wallets_root from_slice now w password s = (Ok WalletLockStatus.Unlocked, s')
    /\ at_rest s' /\ wm_active s' = Some a /\ active_as a.
Proof using Type.
  intros Hnow Hs. pose proof Hs as [Hq _ Hr _ _].
  destruct (find_wallet_rest s Hq Hr) as (r & E1 & _ & Hid & Hn & Ht).
  unfold unlock_wallet. rewrite m_bind_eq, E1. cbv beta iota.
  rewrite m_bind_eq, (open_key_rest s (wallet_of_row r) Hq Hr Hn). cbv beta iota.
  unfold finish_unlock. rewrite m_get_bind.
  destruct (open_db_rest "failed to open wallet db" false s Hs) as (s1 & E2 & H1 & _).
  rewrite m_bind_eq, E2. cbv beta iota. simpl wi_network. rewrite Hn.
  destruct (step_rest (on_app_db (set_remember_unlock_enabled w false)) s1) as ([] & s2 & E3 & H2 & _); [done|..].
  { apply on_app_db_carry; auto with zbag. }
  { auto with zbag. }
  { destruct H1 as [[_ Hd] _ _ _ _]. unfold on_app_db, on_tx, on_retry, on_db, m_zoom. fold (wm_db s1).
    unfold set_remember_unlock_enabled, update_wallet_row. rewrite m_bind_eq. unfold db_stmt. by rewrite Hd. }
  rewrite m_bind_eq, E3. cbv beta iota.
  destruct (step_rest (m_ignore (on_disk (delete_keychain_unlock_material w n))) s2) as ([] & s3 & E4 & H3 & _);
    [done|apply forget_carry|m_pres_auto|by unfold m_ignore|].
  rewrite m_bind_eq, E4. cbv beta iota. unfold set_active. rewrite m_modify_bind.
  set (a := mkActiveWallet _ _ _ _ _).
  assert (at_rest (wm_set_active (Some a) s3)) as H4 by by destruct H3.
  simpl wi_id. rewrite Hid.
  destruct (scan_active_rest now _ Hnow H4) as (s5 & E5 & H5 & A5). rewrite m_bind_eq, E5. cbv beta iota.
  destruct (emit_rest s5 H5) as (s6 & E6 & H6 & A6). rewrite m_bind_eq, E6. cbv beta iota.
  exists s6, a. split; [done|]. split; [done|]. split; [by rewrite A6, A5|]. by unfold active_as.
Qed.

Lemma update_last_opened_quiet t s :
  at_rest s ->
  exists s', on_app_db (update_last_opened_at w t) s = (Ok tt, s') /\ at_rest s' /\ wm_active s' = wm_active s.
Proof using Type.
  intros Hs. destruct (step_rest (on_app_db (update_last_opened_at w t)) s) as ([] & s' & H); [done|..|eauto].
  - apply on_app_db_carry; [auto with zbag|]. intros db Hd.
    unfold update_last_opened_at, update_wallet_row, db_stmt, mbind, M_bind, m_modify. by rewrite Hd.
  - apply on_app_db_keeps. auto with zbag.
  - destruct Hs as [[_ Hd] _ _ _ _]. unfold on_app_db, on_tx, on_retry, on_db, m_zoom. fold (wm_db s).
    unfold update_last_opened_at, update_wallet_row, db_stmt, mbind, M_bind, m_modify. by rewrite Hd.
Qed.

(** Opening the wallet: it is the active one, and locked. *)
Lemma load_rest now now_ms s :
  clock_ok now -> at_rest s -> wm_active s = None ->
  exists wal s' a, load_wallet wallets_root from_slice now now_ms w s = (Ok (wal, WalletLockStatus.Locked), s')
    /\ at_rest s' /\ wi_id wal = w /\ wi_network wal = n /\ wi_wallet_type wal = WalletType.Software
    /\ wm_active s' = Some a /\ aw_wallet a = wal /\ aw_lock_status a = WalletLockStatus.Locked.
Proof using Type.
  intros Hc Hs Ha. pose proof Hs as [Hq _ Hr _ _].
  destruct (find_wallet_rest s Hq Hr) as (r & E1 & _ & Hid & Hn & Hty).
  unfold load_wallet. rewrite m_bind_eq, E1. cbv beta iota.
  destruct (update_last_opened_quiet now_ms s Hs) as (s1 & E2 & H1 & A1). rewrite m_bind_eq, E2. cbv beta iota.
  rewrite m_get_bind, A1, Ha. unfold set_active. rewrite m_modify_bind. set (a := mkActiveWallet _ _ _ _ _).
  assert (at_rest (wm_set_active (Some a) s1)) as H2 by by destruct H1. simpl wi_id. rewrite Hid.
  destruct (scan_active_rest now _ Hc H2) as (s3 & E3 & H3 & A3).
  rewrite m_bind_eq, E3. cbv beta iota.
  destruct (emit_rest s3 H3) as (s4 & E4 & H4 & A4). rewrite m_bind_eq, E4.
  cbv beta iota. exists (wallet_of_row r), s4, a. split; [done|]. split; [done|]. split; [done|]. split; [done|].
  split; [done|]. split; [by rewrite A4, A3|done].
Qed.

Lemma reauth_rest now token s a : password <> "" -> at_rest s -> wm_active s = Some a ->
  exists s', reauth_wallet now token w password ReauthPurpose.ViewSeedPhrase s
             = (Ok (token, now + REAUTH_TTL), s')
    /\ at_rest s' /\ wm_active s' = Some a
    /\ wm_reauth s' !! token = Some (mkTokenRecord w ReauthPurpose.ViewSeedPhrase (now + REAUTH_TTL) false).
Proof using Type.
  intros Hpw Hs Ha. pose proof Hs as [Hq _ Hr _ _].
  destruct (find_wallet_rest s Hq Hr) as (r & E1 & Hrow & Hid & Hn & _).
  unfold reauth_wallet. destruct (is_empty password) eqn:Ee; [by destruct password|].
  rewrite m_bind_eq, (on_app_db_read _ s (Some (wallet_of_row r, wr_directory_path r))).
  2:{ unfold get_wallet, mbind, M_bind, m_get, mret, M_ret, db_stmt. destruct Hq as [_ ->]. simpl. by rewrite Hrow. }
  cbv beta iota. rewrite m_bind_eq. unfold m_lift. simpl ok_or. cbv beta iota.
  rewrite m_bind_eq, (open_key_rest s (wallet_of_row r) Hq Hr Hn). cbv beta iota.
  eexists. split; [done|]. split; [by destruct Hs|]. split; [done|]. simpl. apply lookup_insert_eq.
Qed.

Hypothesis Hplain : forallb plain_word words = true.

Lemma view_seed_rest now token t0 s a :
  at_rest s -> wm_active s = Some a -> active_as a -> now <= t0 ->
  wm_reauth s !! token = Some (mkTokenRecord w ReauthPurpose.ViewSeedPhrase t0 false) ->
  (view_seed_phrase now w token s).1 = Ok words.
Proof using Hplain.
  intros Hs Ha (Hid & Hn & Hty & Hl & Hk) Hnow Htok. unfold view_seed_phrase. rewrite m_get_bind.
  assert (watch_only w s = false) as Hwo.
  { unfold watch_only. rewrite Ha, Hty. by rewrite andb_comm. }
  rewrite Hwo, m_bind_eq. unfold on_reauth, m_zoom, consume_reauth_token, validate_and_consume.
  rewrite Htok. simpl. rewrite !bool_decide_eq_true_2 by done. simpl.
  rewrite (proj2 (Z.ltb_ge t0 now)) by lia. rewrite m_get_bind.
  set (s1 := wm_set_reauth _ s). assert (at_rest s1) as H1 by by destruct Hs.
  rewrite m_bind_eq. unfold m_lift at 1, require_unlocked_wallet_snapshot. simpl. rewrite Ha.
  rewrite bool_decide_eq_true_2 by done. unfold is_unlocked. rewrite Hl, Hk. simpl.
  rewrite m_bind_eq, Hid, Hn. unfold m_context, decrypt_mnemonic.
  destruct H1 as [[Hq _] _ _ _ (stored & Hv & Hd)]. rewrite m_bind_eq.
  pose proof (ks_load w n (wm_queue s1)) as Hload.
  destruct (on_disk_eq (load_encrypted_mnemonic w n) s1) as (E & _).
  destruct (load_encrypted_mnemonic w n (wm_queue s1)) as [r q']. destruct Hload as (_ & _ & Hload & _).
  rewrite (m_context_Ok _ _ _ _ _ (eq_trans E (f_equal (fun x => (x, _)) (Hload Hq)))). cbv beta iota.
  rewrite Hv, m_bind_eq. unfold m_lift. simpl ok_or. cbv beta iota. rewrite m_bind_eq, Hd.
  simpl with_context. cbv beta iota. rewrite utf8_valid_ascii by by apply join_ascii. simpl. by rewrite split_whitespace_join.
Qed.

(** *** Creating *)

Lemma on_app_db_eq {A} (m : M AppDb A) s :
  on_app_db m s = ((m (wm_db s)).1, (on_app_db m s).2) /\ wm_db (on_app_db m s).2 = (m (wm_db s)).2
  /\ wm_queue (on_app_db m s).2 = wm_queue s
  /\ wm_force_validate_fail (on_app_db m s).2 = wm_force_validate_fail s.
Proof using Type.
  unfold on_app_db, on_tx, on_retry, on_db, m_zoom, wm_db. by destruct (m _) as [r db'].
Qed.

Lemma insert_wallet_quiet wal db :
  adb_faults db = [] -> wallet_exists db (wi_id wal) = false ->
  insert_wallet wal dir db = (Ok tt, set_wallets db (adb_wallets db ++ [row_of_wallet wal dir])).
Proof using Type.
  intros Hq He. unfold insert_wallet, db_require, mbind, M_bind, m_get, db_stmt. rewrite Hq. simpl. by rewrite He.
Qed.

Lemma wallet_exists_last wal l : existsb (fun x => bool_decide (wr_id x = wi_id wal)) (l ++ [row_of_wallet wal dir]) = true.
Proof using Type.
  rewrite existsb_app. apply orb_true_iff. right. simpl. rewrite bool_decide_eq_true_2 by done. done.
Qed.

(** The statement on the backup status of a wallet that exists. *)
Definition plain_backup (b : M AppDb unit) : Prop := forall db,
  adb_faults db = [] -> wallet_exists db w = true ->
  exists l, b db = (Ok tt, set_backup db l).

Lemma upsert_backup_plain fresh upd : plain_backup (upsert_backup w fresh upd).
Proof using Type.
  intros db Hq He. unfold upsert_backup, db_require, mbind, M_bind, m_get, db_stmt. rewrite Hq. simpl.
  rewrite He. simpl. destruct (existsb (backup_key w) (adb_backup db)); eexists; reflexivity.
Qed.

Record fresh_wallet (s : WM) : Prop := {
  fr_quiet : quiet s;
  fr_valid : wm_force_validate_fail s = false;
  fr_row : wallet_exists (wm_db s) w = false;
  fr_key : existsb (encryption_key w) (adb_encryption (wm_db s)) = false;
  fr_file : file_at (wm_queue s) db_file = None;
}.

Variable d : Draws.
Hypotheses (Huuid : dr_uuid d = w) (Hdek : dr_dek d = dek) (Hdlen : String.length dek = 32%nat)
  (Hkdf : validate_kdf_params (default_kdf_params (dr_salt_b64 d)) = Ok tt)
  (Haead : validate_aead_params (default_aead_params (dr_nonce d)) = Ok tt)
  (Hpwlen : Z.of_nat (String.length password) <= u32_max)
  (Hkdf_of : kdf = default_kdf_params (dr_salt_b64 d)) (Haead_of : aead = default_aead_params (dr_nonce d)).

Lemma register_rest wal b s :
  wi_id wal = w -> wi_network wal = n -> wi_wallet_type wal = WalletType.Software ->
  plain_backup b -> m_pres enc_grows b -> fresh_wallet s ->
  exists s', register_wallet wallets_root d wal password b s = (Ok dir, s')
    /\ quiet s' /\ wm_force_validate_fail s' = false /\ row_kept s'
    /\ has_dir (wm_queue s') dir /\ file_at (wm_queue s') db_file = None.
Proof using L Huuid Hdek Hdlen Hkdf Haead Hpwlen Hkdf_of Haead_of.
  intros Hid Hn Hty Hb Hbg [[Hq Hd] Hv Hrow Hkey Hfile].
  assert (exists s', register_wallet wallets_root d wal password b s = (Ok dir, s')
    /\ quiet s' /\ wm_force_validate_fail s' = false
    /\ has_dir (wm_queue s') dir /\ file_at (wm_queue s') db_file = None) as (s' & E & H1 & H2 & H3 & H4).
  { unfold register_wallet. rewrite Hid, Hn. fold dir. rewrite create_dir_all_same.
    pose proof (create_dir_all_secure_spec dir (wm_queue s)) as Hc.
    destruct (on_disk_eq (create_dir_all_secure dir) s) as (E1 & Q1 & D1 & V1 & _).
    destruct (create_dir_all_secure dir (wm_queue s)) as [r q1]. destruct Hc as ([_ Hfiles _ Hquiet] & Hdir & Hok).
    specialize (Hok Hq). subst r. simpl in *. specialize (Hdir eq_refl). specialize (Hquiet Hq).
    set (s1 := (on_disk (create_dir_all_secure dir) s).2) in *.
    rewrite m_bind_eq, (m_context_Ok _ _ _ _ _ E1). cbv beta iota.
    destruct (on_app_db_eq (insert_wallet wal dir) s1) as (E2 & D2 & Q2 & V2).
    rewrite insert_wallet_quiet in E2, D2; [|by rewrite D1|by rewrite D1, Hid|by rewrite D1|by rewrite D1, Hid].
    set (s2 := (on_app_db (insert_wallet wal dir) s1).2) in *. simpl in E2, D2.
    rewrite m_bind_eq, E2. cbv beta iota.
    destruct (Hb (wm_db s2)) as [l Hl]; [rewrite D2; simpl; by rewrite D1|
      rewrite D2; unfold wallet_exists; simpl; rewrite <- Hid; apply wallet_exists_last|].
    destruct (on_app_db_eq b s2) as (E3 & D3 & Q3 & V3). rewrite Hl in E3, D3. set (s3 := (on_app_db b s2).2) in *.
    simpl in E3, D3. rewrite m_bind_eq, E3. cbv beta iota.
    destruct (wrap_dek_ok w n password (default_kdf_params (dr_salt_b64 d)) (default_aead_params (dr_nonce d))
      (dr_dek d)) as (wrapped & Hw & _); [done|by rewrite Hdek|done|done|].
    rewrite m_bind_eq. unfold m_lift. rewrite Hw. cbv beta iota.
    match goal with |- context [insert_wallet_encryption w ?m] => set (meta := m) end.
    destruct (on_app_db_eq (insert_wallet_encryption w meta) s3) as (E4 & D4 & Q4 & V4).
    assert (insert_wallet_encryption w meta (wm_db s3) = (Ok tt, set_encryption (wm_db s3)
      (adb_encryption (wm_db s3) ++ [row_of_encryption w meta]))) as Hins.
    { unfold insert_wallet_encryption, db_require, mbind, M_bind, m_get, db_stmt.
      rewrite D3, D2. simpl. rewrite D1, Hd. unfold wallet_exists. simpl.
      rewrite <- Hid, wallet_exists_last. simpl. rewrite Hid, Hkey. done. }
    rewrite Hins in E4, D4. rewrite m_bind_eq, E4. cbv beta iota. eexists. split; [done|]. simpl in D4.
    split; [split|].
    - by rewrite Q4, Q3, Q2, Q1.
    - rewrite D4. simpl. rewrite D3. simpl. rewrite D2. simpl. by rewrite D1.
    - rewrite V4, V3, V2, V1. split; [done|]. rewrite Q4, Q3, Q2, Q1. split; [done|].
      rewrite Hfiles by (by intros []). done. }
  exists s'. split; [done|]. split; [done|]. split; [done|]. split; [|done].
  assert (String.length (dr_dek d) = 32%nat) as Hl by by rewrite Hdek.
  destruct (register_wallet_Ok wallets_root d wal password b s dir s' Hbg Hl E)
    as (_ & ((r & Hr & Hrn & Hrt & Hrd) & _) & Hp & Hk).
  rewrite Hid, Hn, Hty in *. rewrite Hdek in Hp, Hk. rewrite <- Hkdf_of, <- Haead_of in Hk. split; [|done]. eauto 10.
Qed.

(** A new database. *)
Lemma open_wallet_db_fresh q :
  q_faults q = [] -> has_dir q dir -> file_at q db_file = None ->
  exists c q', open_wallet_db_with_dek false dir dek true q = (Ok db_file, q')
    /\ file_at q' db_file = Some c /\ keyed dek c.
Proof using WLL Hdlen.
  intros Hq Hdir Hf. destruct (quiet_works q Hq) as [Hw Hn].
  unfold open_wallet_db_with_dek. rewrite m_get_bind. simpl orb. cbv iota.
  rewrite m_bind_eq, (m_context_Ok _ _ _ _ _ (create_dir_works q dir Hw Hdir)), Hn. cbv beta iota.
  rewrite m_get_bind. fold db_file. rewrite (bool_decide_eq_false_2 (is_Some (file_at q db_file)))
    by (rewrite Hf; by intros []).
  rewrite m_ret_bind, m_bind_eq. unfold m_try.
  assert (exists c q', migrate false db_file dek true q = (Ok tt, q') /\ file_at q' db_file = Some c /\ keyed dek c)
    as (c & q' & -> & H).
  { unfold migrate, open_sqlcipher_connection, open_sqlcipher_db.
    destruct (sql_create dek Hdlen) as (c0 & Hc & Hk). rewrite m_bind_eq, m_bind_eq, m_get_bind, Hf, Hc.
    rewrite m_bind_eq, write_db_run, m_bind_eq. simpl.
    set (q1 := put_file q db_file c0). assert (file_at q1 db_file = Some c0) as Hf1 by by apply file_at_put.
    rewrite (fs_call_quiet q1 Hq). simpl. rewrite m_bind_eq. unfold m_lift. rewrite load_array_ok. simpl.
    destruct (db_init_ok dek c0 Hk) as (c1 & Hi & Hk1).
    rewrite m_bind_eq, (with_db_quiet _ _ _ _ _ Hf1), Hi. simpl.
    assert (file_at (put_file q1 db_file c1) db_file = Some c1) as Hf2 by (apply file_at_put; by eapply file_at_dir).
    unfold validate_wallet_db. rewrite m_get_bind, m_bind_eq, Hf2. simpl. rewrite m_bind_eq. unfold m_lift.
    rewrite (db_check_ok dek c1 Hk1). simpl. eauto 10. }
  eexists c, q'. split; [|done]. reflexivity.
Qed.

Lemma with_db_rest ctx f s :
  at_rest_but_seed s -> (forall c, keyed dek c -> exists c', f c = (inr tt, c') /\ keyed dek c') ->
  exists s', on_disk (with_db ctx db_file f) s = (Ok tt, s') /\ at_rest_but_seed s'.
Proof using Type.
  intros ([Hq Hd] & Hv & Hr & (c & Hf & Hk)) Hs. destruct (Hs c Hk) as (c' & Hc & Hk').
  destruct (on_disk_eq (with_db ctx db_file f) s) as (E & Q & D & V & _).
  rewrite (with_db_quiet _ _ _ _ _ Hf), Hc in E, Q. simpl in E, Q. eexists. split; [exact E|].
  split; [split; [by rewrite Q|by rewrite D]|]. split; [congruence|]. split; [unfold row_kept; by rewrite D|].
  exists c'. rewrite Q. split; [|done]. apply file_at_put. by eapply file_at_dir.
Qed.

Lemma init_database_rest name seed h s :
  quiet s -> wm_force_validate_fail s = false -> row_kept s ->
  has_dir (wm_queue s) dir -> file_at (wm_queue s) db_file = None ->
  exists s', init_database dir dek (fun b => db_create_account name seed b) "failed to create wallet account" h s
             = (Ok db_file, s') /\ at_rest_but_seed s'.
Proof using WLL Hdlen.
  intros [Hq Hd] Hv Hr Hdir Hf. unfold init_database. rewrite m_get_bind, Hv.
  destruct (open_wallet_db_fresh (wm_queue s) Hq Hdir Hf) as (c & q1 & Ho & Hf1 & Hk1).
  destruct (on_disk_eq (open_wallet_db_with_dek false dir dek true) s) as (E & Q & D & V & _).
  pose proof (open_wallet_db_touches false dir dek true (wm_queue s)) as [_ _ _ Hquiet].
  rewrite Ho in E, Q, Hquiet. simpl in E, Q, Hquiet. set (s1 := (on_disk _ s).2) in *.
  rewrite m_bind_eq, (m_context_Ok _ _ _ _ _ E). cbv beta iota.
  assert (at_rest_but_seed s1) as H1.
  { split; [split; [rewrite Q; by apply Hquiet|by rewrite D]|]. split; [congruence|].
    split; [unfold row_kept; by rewrite D|]. exists c. by rewrite Q. }
  destruct (with_db_rest "failed to create wallet account" (db_create_account name seed (account_birthday h)) s1 H1)
    as (s2 & E2 & H2); [intros; by apply create_account_ok|].
  rewrite m_bind_eq, E2. cbv beta iota.
  destruct (with_db_rest "failed to set initial chain tip" (db_update_chain_tip (account_birthday h)) s2 H2)
    as (s3 & E3 & H3); [intros; by apply chain_tip_ok|].
  rewrite m_bind_eq, E3. cbv beta iota. eexists. by split.
Qed.

Lemma store_seed_rest ctx b s :
  at_rest_but_seed s -> decrypt_mnemonic_bytes w n dek b = Ok (join " " words) ->
  exists s', m_context ctx (on_disk (store_encrypted_mnemonic w n b)) s = (Ok tt, s') /\ at_rest s'.
Proof using Type.
  intros ([Hq Hd] & Hv & Hr & (c & Hf & Hk)) Hb. pose proof (ks_store w n b (wm_queue s)) as Hst.
  destruct (on_disk_eq (store_encrypted_mnemonic w n b) s) as (E & Q & D & V & _).
  destruct (store_encrypted_mnemonic w n b (wm_queue s)) as [r q'].
  destruct Hst as ([_ Hfiles _ Hquiet] & Hok & _ & Hview & _). specialize (Hok Hq). subst r. simpl in *.
  eexists. rewrite (m_context_Ok _ _ _ _ _ E). split; [done|]. split.
  - split; [rewrite Q; by apply Hquiet|by rewrite D].
  - congruence.
  - unfold row_kept. by rewrite D.
  - exists c. rewrite Q. split; [|done]. rewrite Hfiles; [done|]. unfold key_file. simpl. by intros [?|?].
  - exists b. rewrite Q. by rewrite Hview.
Qed.

Hypotheses (Hclock : clock_ok (dr_now d)) (Hmn : String.length (dr_mnemonic_nonce d) = 24%nat)
  (Hwords : mnemonic_from_entropy (dr_entropy d) = inr words) (H24 : length words = 24%nat)
  (Hphrase : Z.of_nat (String.length (join " " words)) <= u32_max).

Lemma create_rest name birthday s :
  check_new_wallet name password = Ok tt -> fresh_wallet s ->
  exists res s', create_wallet wallets_root from_slice d name n password birthday s = (Ok res, s')
    /\ cw_seed_phrase res = words /\ at_rest s'
    /\ exists a, wm_active s' = Some a /\ active_as a.
Proof using All.
  intros Hcheck Hfresh. unfold create_wallet. rewrite m_bind_eq. unfold m_lift at 1. rewrite Hcheck. cbv beta iota.
  rewrite m_bind_eq. unfold m_lift at 1. rewrite Hwords. cbv beta iota. rewrite H24. change (negb (24 =? 24)%nat) with false. cbv iota.
  set (wal := new_wallet_info d name WalletType.Software n).
  assert (wi_id wal = w) as Hid by exact Huuid. rewrite Hid, Hdek.
  destruct (register_rest wal (set_backup_required w true) s Hid eq_refl eq_refl) as (s1 & E1 & H1 & V1 & R1 & D1 & F1);
    [apply upsert_backup_plain|apply upsert_backup_grows|done|].
  rewrite m_bind_eq, E1. cbv beta iota.
  destruct (init_database_rest name (mnemonic_to_seed words) (birthday_or_sapling n birthday) s1 H1 V1 R1 D1 F1)
    as (s2 & E2 & H2). rewrite m_bind_eq, E2. cbv beta iota.
  destruct (encrypt_decrypt_mnemonic w n dek (dr_mnemonic_nonce d) (join " " words) Hdlen Hmn Hphrase)
    as (b & Hb & Hdec).
  rewrite m_bind_eq. unfold m_lift at 1. rewrite Hb. simpl with_context. cbv beta iota.
  destruct (store_seed_rest "failed to store encrypted mnemonic" b s2 H2 Hdec) as (s3 & E3 & H3).
  rewrite m_bind_eq, E3. cbv beta iota.
  destruct (step_rest (insert_account d w (mkAccountInfo 0 name AccountType.Software)) s3) as ([] & s4 & E4 & H4 & _);
    [done|unfold insert_account; m_pres_auto|unfold insert_account; m_pres_auto|..].
  { unfold insert_account, m_context.
    destruct (on_app_db_eq (upsert_account w (mkAccountInfo 0 name AccountType.Software) (dr_now_ms d)) s3)
      as (-> & _). simpl. pose proof H3 as [[_ Hd] _ [(r & Hr & _) _] _ _].
    unfold upsert_account, db_require, mbind, M_bind, m_get, db_stmt. rewrite Hd.
    assert (wallet_exists (wm_db s3) w = true) as ->.
    { apply find_first_Some in Hr as [Hin Hw]. unfold wallet_exists. apply existsb_exists. exists r.
      split; [by apply list_elem_of_In|exact Hw]. }
    simpl. by destruct (existsb _ _). }
  rewrite m_bind_eq, E4. cbv beta iota. unfold issue_backup_challenge.
  pose proof H4 as [Hq4 _ Hr4 _ _]. destruct (find_wallet_rest s4 Hq4 Hr4) as (r & _ & Hr & _).
  rewrite m_bind_eq, m_bind_eq, (on_app_db_read _ s4 (Some (wallet_of_row r, wr_directory_path r))).
  2:{ unfold get_wallet, mbind, M_bind, m_get, mret, M_ret, db_stmt. destruct Hq4 as [_ ->]. simpl. by rewrite Hr. }
  cbv beta iota. rewrite m_bind_eq. unfold m_lift. simpl ok_or. cbv beta iota. rewrite m_modify_bind. cbv beta iota.
  unfold activate, set_active.
  match goal with |- context [wm_set_challenges ?c s4] => set (s5 := wm_set_challenges c s4) end.
  assert (at_rest s5) as H5 by by destruct H4.
  rewrite m_ret_run. cbv beta iota. rewrite m_bind_eq, m_modify_bind. set (a := mkActiveWallet _ _ _ _ _).
  assert (at_rest (wm_set_active (Some a) s5)) as H6 by by destruct H5.
  rewrite Hid. destruct (scan_active_rest (dr_now d) _ Hclock H6) as (s7 & E7 & H7 & A7).
  rewrite m_bind_eq, E7. cbv beta iota. destruct (emit_rest s7 H7) as (s8 & E8 & H8 & A8). rewrite E8. cbv beta iota.
  eexists _, s8. split; [reflexivity|]. split; [done|]. split; [done|]. exists a.
  split; [by rewrite A8, A7|]. by repeat split.
Qed.
End Rest.

(** ** The theorem *)

(** A new process: only the disk and the database are left. *)
Definition restart (s : WM) : WM :=
  mkWM (mkTxEnv ∅ ∅ (mkRetryEnv (q_set_mem (wm_queue s) ∅) (wm_db s) [] [])) None ∅
    (new_service (wm_queue s)) ∅ ∅ ∅ ∅ ∅ (wm_on_wallet_status s) (wm_force_validate_fail s).

(** What the generators return: 32 bytes of entropy and key, 24 of nonce,
    a salt of at least 8, a clock within range. *)
Record draws_ok `{C : Crypto} (d : Draws) : Prop := {
  do_entropy : String.length (dr_entropy d) = 32%nat;
  do_dek : String.length (dr_dek d) = 32%nat;
  do_nonce : String.length (dr_nonce d) = 24%nat;
  do_mnemonic_nonce : String.length (dr_mnemonic_nonce d) = 24%nat;
  do_salt : exists salt, salt_decode (dr_salt_b64 d) = inr salt /\ (8 <= String.length salt)%nat;
  do_clock : clock_ok (dr_now d);
}.

Section Survives.
Context `{C : Crypto} `{KS : KeyStore} `{WL : WalletLib}.
Context `{L : !CryptoLaws C} `{S : !KeyStoreSpec KS} `{WLL : !WalletLibLaws WL}.
Context (wallets_root : string) (from_slice : string -> option QueuedBroadcastMeta).

Lemma restart_at_rest w n password dek words kdf aead s :
  at_rest wallets_root w n password dek words kdf aead s ->
  at_rest wallets_root w n password dek words kdf aead (restart s).
Proof using Type.
  intros [[Hq Hd] Hv Hr Hf (b & Hb & Hdec)]. split; try done. exists b. split; [|done].
  rewrite <- Hb. by apply ks_view_ext.
Qed.

(** Whatever key Argon2id derives from [pw], the cipher rejects with it the
    data key encrypted under the key derived from [password]. *)
Definition cipher_rejects (d : Draws) (n : Network) (password pw : string) : Prop :=
  forall salt kek kek' c,
    salt_decode (dr_salt_b64 d) = inr salt ->
    argon2id (KDF_MEMORY_MIB * 1024) KDF_ITERATIONS KDF_PARALLELISM password salt = inr kek ->
    argon2id (KDF_MEMORY_MIB * 1024) KDF_ITERATIONS KDF_PARALLELISM pw salt = inr kek' ->
    let aad := aead_aad (dr_uuid d) n (default_aead_params (dr_nonce d)) in
    aead_encrypt kek (dr_nonce d) aad (dr_dek d) = Some c -> aead_decrypt kek' (dr_nonce d) aad c = None.

Lemma default_kek_inr password salt_b64 salt kek :
  derive_kek password (default_kdf_params salt_b64) salt = Ok kek ->
  argon2id (KDF_MEMORY_MIB * 1024) KDF_ITERATIONS KDF_PARALLELISM password salt = inr kek.
Proof using Type.
  unfold derive_kek. rewrite result_bind_Ok. intros (m & Hm & H). apply ok_or_Ok in Hm.
  apply result_bind_Ok in H as (? & _ & H). apply anyhow_of_Ok in H.
  assert (m = KDF_MEMORY_MIB * 1024) as -> by (vm_compute in Hm; by injection Hm as <-). exact H.
Qed.

Lemma wrong_password d w n password words pw now s :
  w = dr_uuid d -> String.length (dr_dek d) = 32%nat -> String.length (dr_nonce d) = 24%nat ->
  cipher_rejects d n password pw ->
  at_rest wallets_root w n password (dr_dek d) words (default_kdf_params (dr_salt_b64 d))
    (default_aead_params (dr_nonce d)) s ->
  unlock_wallet wallets_root from_slice now w pw s = (Err invalid_password, s).
Proof using L.
  intros -> Hd Hno Hrej [Hq _ Hr _ _].
  destruct (find_wallet_rest wallets_root (dr_uuid d) n password (dr_dek d) _ _ s Hq Hr)
    as (r & E1 & Hrow & Hid & Hn & _).
  destruct Hr as [_ [_ (meta & Hm & Hk & Ha & Hw)]]. destruct Hq as [_ Hq].
  unfold unlock_wallet. rewrite m_bind_eq, E1. cbv beta iota. rewrite m_bind_eq. unfold open_key.
  rewrite m_bind_eq, (on_app_db_read _ s (Some meta)).
  2:{ unfold get_wallet_encryption, mbind, M_bind, m_get, mret, M_ret, db_stmt. rewrite Hq. simpl.
      unfold mbind in Hm. by rewrite Hm. }
  cbv beta iota. rewrite m_bind_eq. unfold m_lift. simpl ok_or. cbv beta iota. simpl wi_network. rewrite Hn, Hk, Ha.
  destruct (unwrap_rejected (dr_uuid d) n password pw _ _ _ _ Hd Hw) as [e ->]; [|done].
  intros salt nonce kek kek' c Hs Hnc Hkek Hkek' Hc.
  apply validate_kdf_salt_Ok in Hs as (_ & Hs & _). apply validate_aead_nonce_Ok in Hnc as (_ & Hnc & _).
  assert (nonce = dr_nonce d) as ->.
  { simpl in Hnc. rewrite <- Hno in Hnc. rewrite b64_roundtrip in Hnc by (by rewrite Hno). by injection Hnc. }
  apply default_kek_inr in Hkek, Hkek'. by eapply Hrej.
Qed.

(** C1. A wallet survives the process.  On a disk and a database that work,
    creating a wallet with a valid name and password and a fresh id succeeds
    and shows 24 words.  After a restart, which keeps only the disk and the
    database, opening it finds it locked; every password whose Argon2id key
    the cipher rejects is refused and changes nothing; the password it was
    made with unlocks it with the same key; and, once the password is given
    again, the seed phrase shown is the one shown at creation. *)
Theorem wallet_survives_restart (d : Draws) (name : string) (n : Network) (password : string)
    (birthday : option Z) (opened now_ms now t0 t1 : Z) (token : string) (s : WM) :
  draws_ok d -> check_new_wallet name password = Ok tt -> Z.of_nat (String.length password) <= u32_max ->
  fresh_wallet wallets_root (dr_uuid d) n s -> clock_ok opened -> clock_ok now -> t1 <= t0 + REAUTH_TTL ->
  let w := dr_uuid d in
  exists res s1, create_wallet wallets_root from_slice d name n password birthday s = (Ok res, s1)
    /\ length (cw_seed_phrase res) = 24%nat
    /\ exists wal s2, load_wallet wallets_root from_slice opened now_ms w (restart s1)
                      = (Ok (wal, WalletLockStatus.Locked), s2)
    /\ wi_id wal = w /\ wi_network wal = n /\ wi_wallet_type wal = WalletType.Software
    /\ session_of s2 = LockedWallet w
    /\ (forall pw, cipher_rejects d n password pw ->
         unlock_wallet wallets_root from_slice now w pw s2 = (Err invalid_password, s2))
    /\ exists s3, unlock_wallet wallets_root from_slice now w password s2 = (Ok WalletLockStatus.Unlocked, s3)
       /\ session_of s3 = UnlockedWallet w (dr_dek d)
       /\ exists s4, reauth_wallet t0 token w password ReauthPurpose.ViewSeedPhrase s3
                     = (Ok (token, t0 + REAUTH_TTL), s4)
          /\ (view_seed_phrase t1 w token s4).1 = Ok (cw_seed_phrase res).
Proof using All.
  intros [He Hd Hno Hmn (salt & Hs & Hsl) Hc] Hcheck Hpw Hfresh Hopened Hnow Ht w.
  destruct (entropy_words (dr_entropy d) He) as (words & Hw & H24 & Hplain & Hlen).
  destruct (create_rest wallets_root from_slice w n password (dr_dek d) words _ _ Hplain d eq_refl eq_refl Hd
    (default_kdf_valid _ _ Hs Hsl) (default_aead_valid _ Hno) Hpw eq_refl eq_refl Hc Hmn Hw H24 Hlen name birthday
    s Hcheck Hfresh) as (res & s1 & E1 & Hseed & H1 & _).
  exists res, s1. split; [done|]. split; [congruence|]. apply restart_at_rest in H1.
  destruct (load_rest wallets_root from_slice w n password (dr_dek d) words _ _ opened now_ms (restart s1)
    Hopened H1 eq_refl) as (wal & s2 & a0 & E0 & H0 & Hid0 & Hn0 & Hty0 & Ha0 & Haw & Hl0).
  exists wal, s2. do 4 (split; [done|]).
  split; [unfold session_of, session_of_active; by rewrite Ha0, Hl0, Haw, Hid0|].
  split; [intros pw Hrej; by eapply wrong_password|].
  destruct (unlock_rest wallets_root from_slice w n password (dr_dek d) words _ _ now s2 Hnow H0)
    as (s3 & a & E2 & H2 & Ha & Has). exists s3. split; [done|].
  split.
  { destruct Has as (Hid & _ & _ & Hl & Hk). unfold session_of, session_of_active. by rewrite Ha, Hl, Hk, Hid. }
  assert (password <> "") as Hne.
  { intros ->. unfold check_new_wallet in Hcheck. repeat case_match; done. }
  destruct (reauth_rest wallets_root w n password (dr_dek d) words _ _ t0 token s3 a Hne H2 Ha)
    as (s4 & E3 & H3 & Ha3 & Htok). exists s4. split; [done|]. rewrite Hseed.
  by eapply (view_seed_rest wallets_root w n password (dr_dek d) words).
Qed.
End Survives.

(** ** Witness *)

Definition demo_keyed (dek c : string) : Prop := String.length dek = 32%nat /\ exists rest, c = dek +:+ rest.

Lemma demo_log_keyed line dek c :
  demo_keyed dek c -> exists c', demo_log line c = (inr tt, c') /\ demo_keyed dek c'.
Proof.
  intros [Hl [rest ->]]. eexists. split; [done|]. split; [done|]. exists (rest +:+ line). apply string_app_assoc.
Qed.

#[global] Instance demo_wallet_lib_laws : WalletLibLaws demo_wallet_lib.
Proof.
  refine {| keyed := demo_keyed |}.
  - intros dek Hl. exists dek. split; [done|]. split; [done|]. exists "". by rewrite string_app_nil_r.
  - intros create dek c [Hl [rest ->]]. exists None.
    change (sql_open create dek (Some (dek +:+ rest))) with (demo_sql_open create dek (Some (dek +:+ rest))).
    unfold demo_sql_open. rewrite take_string_app, bool_decide_eq_true_2 by done. split; [done|]. split; [done|]. by exists rest.
  - done.
  - intros dek c. apply demo_log_keyed.
  - done.
  - intros. by apply demo_log_keyed.
  - intros. by apply demo_log_keyed.
  - intros e _. exists demo_words. by vm_compute.
Defined.

Definition demo_full_draws : Draws :=
  mkDraws 1000 1 "w1" demo_dek demo_dek "saltsaltsalt" demo_nonce demo_nonce demo_challenge.

#[global] Instance demo_key_store_spec : KeyStoreSpec demo_key_store := KeyStoreKeychain_spec _ _.

Lemma wallet_survives_restart_witness :
  exists s2 s3 s4,
    unlock_wallet (KS := demo_key_store) "/wallets" (fun _ => None) 5 "w1" "wrong horse" s2 = (Err invalid_password, s2)
    /\ (unlock_wallet (KS := demo_key_store) "/wallets" (fun _ => None) 5 "w1" "correct horse" s2).2 = s3
    /\ session_of s3 = UnlockedWallet "w1" demo_dek
    /\ (view_seed_phrase (KS := demo_key_store) 6 "w1" "t1" s4).1 = Ok demo_words.
Proof.
  destruct (wallet_survives_restart (KS := demo_key_store) "/wallets" (fun _ => None) demo_full_draws "Main"
    Network.Mainnet "correct horse" None 4 4 5 6 6 "t1" demo_start)
    as (res & s1 & E1 & _ & wal & s2 & _ & _ & _ & _ & _ & Hw & s3 & E2 & Hs & s4 & _ & Hv).
  - split; try done. exists "saltsaltsalt". split; [done|]. simpl. lia.
  - done.
  - by vm_compute.
  - by split.
  - done.
  - done.
  - by vm_compute.
  - change (dr_uuid demo_full_draws) with "w1" in E2, Hs, Hv, Hw.
    exists s2, s3, s4. split; [apply Hw|rewrite E2; split; [done|]; split; [exact Hs|]].
    + intros salt kek kek' c _ H1 H2 aad H3. simpl in H1, H2. injection H1 as <-. injection H2 as <-.
      simpl in H3. injection H3 as <-. by vm_compute.
    + rewrite Hv. f_equal.
      assert (cw_seed_phrase <$> result_value (create_wallet (KS := demo_key_store) "/wallets" (fun _ => None)
        demo_full_draws "Main" Network.Mainnet "correct horse" None demo_start).1 = Some demo_words) as Hd
        by by vm_compute.
      rewrite E1 in Hd. by injection Hd.
Defined.
