(* ===== verification/Tor.v ===== *)
(** The Tor manager ([zbag-tor/src/manager.rs]).

    The manager is shared: API calls change it under its mutex and spawn
    bootstrap tasks, which run concurrently, read their cancellation channel
    and publish a status under the same mutex.  [act] is one such step and
    [reachable] the interleavings.  A Tor client is an opaque identifier. *)
From S2P Require Import Prelude Text Domain AppDb.
Open Scope Z_scope.

(** ** The manager *)

Record TorManager := mkTorManager {
  tm_state : TorState;
  tm_client : option string;
  tm_cancel : option nat;          (* the channel of [cancel_bootstrap] *)
  tm_task : option nat;            (* the task of [bootstrap_task] *)
  tm_event : TorState;             (* the value of the event channel *)
  tm_receivers : nat;              (* its receivers *)
}.

(** [watch::Sender::send] keeps the old value, and fails, when nobody
    receives; the failure is ignored. *)
Definition tm_publish (m : TorManager) : TorManager :=
  mkTorManager (tm_state m) (tm_client m) (tm_cancel m) (tm_task m)
    (if (tm_receivers m =? 0)%nat then tm_event m else tm_state m) (tm_receivers m).

(** [TorManager::new]; it drops the receiver it makes. *)
Definition new_state (initial : TorState) : TorState :=
  let s := if tor_enabled initial then initial
           else mkTorState false TorStatus.Off None in
  if bool_decide (tor_status s = TorStatus.On) then mkTorState (tor_enabled s) TorStatus.Off None else s.

Definition new_manager (initial : TorState) : TorManager :=
  let s := new_state initial in mkTorManager s None None None s 0.

(** [TorManager::subscribe], and the drop of a receiver. *)
Definition tm_set_receivers (n : nat) (m : TorManager) : TorManager :=
  mkTorManager (tm_state m) (tm_client m) (tm_cancel m) (tm_task m) (tm_event m) n.
Definition subscribe (m : TorManager) : TorManager := tm_set_receivers (S (tm_receivers m)) m.
Definition unsubscribe (m : TorManager) : TorManager := tm_set_receivers (pred (tm_receivers m)) m.

Definition tor_client (m : TorManager) : option string :=
  if tor_enabled (tm_state m) && bool_decide (tor_status (tm_state m) = TorStatus.On) then tm_client m
  else None.

(** ** Bootstrap tasks *)

(** Where a task is: spawned or not yet, before the directory, before the
    bootstrap, with an outcome to publish, over. *)
Inductive BootPc :=
| PcUnspawned | PcStart | PcDir | PcBoot
| PcPublish (status : TorStatus) (last_error client : option string)
| PcOver.

Record Boot := mkBoot { b_pc : BootPc; b_aborted : bool }.

(** What a task sees: its directory was made or not, its bootstrap timed out,
    failed or succeeded, it was woken by its channel, it was aborted. *)
Inductive Outcome :=
| OGo
| ODir (r : string + unit)
| OTimeout | OFailed (e : string) | OClient (c : string) | OCancelled
| OAborted.

Record TorWorld := mkTorWorld {
  tw_mgr : TorManager;
  tw_channels : gmap nat bool;     (* what was sent on each cancellation channel *)
  tw_boots : gmap nat Boot;
  tw_next : nat;
}.

Definition tw_set_mgr (w : TorWorld) (m : TorManager) : TorWorld :=
  mkTorWorld m (tw_channels w) (tw_boots w) (tw_next w).
Definition tw_set_pc (w : TorWorld) (i : nat) (pc : BootPc) : TorWorld :=
  mkTorWorld (tw_mgr w) (tw_channels w) (alter (fun b => mkBoot pc (b_aborted b)) i (tw_boots w)) (tw_next w).

Definition cancelled (w : TorWorld) (i : nat) : bool := default false (tw_channels w !! i).

(** [tx.send(true)] and [handle.abort()]. *)
Definition cancel_current (w : TorWorld) : TorWorld :=
  let m := tw_mgr w in
  mkTorWorld (mkTorManager (tm_state m) (tm_client m) None None (tm_event m) (tm_receivers m))
    (match tm_cancel m with Some i => <[i := true]> (tw_channels w) | None => tw_channels w end)
    (match tm_task m with
     | Some i => alter (fun b => mkBoot (b_pc b) true) i (tw_boots w)
     | None => tw_boots w
     end)
    (tw_next w).

(** The locked section of [set_enabled]; the new task is spawned afterwards. *)
Definition set_enabled_locked (enabled : bool) (w0 : TorWorld) : TorWorld :=
  let m0 := tw_mgr w0 in
  let s0 := tm_state m0 in
  let w := cancel_current (tw_set_mgr w0 (mkTorManager
             (mkTorState enabled (tor_status s0) (tor_last_error s0)) (tm_client m0) (tm_cancel m0)
             (tm_task m0) (tm_event m0) (tm_receivers m0))) in
  let m := tw_mgr w in
  if negb enabled
  then tw_set_mgr w (tm_publish (mkTorManager (mkTorState false TorStatus.Off None) None
                                   (tm_cancel m) (tm_task m) (tm_event m) (tm_receivers m)))
  else if bool_decide (tor_status (tm_state m) = TorStatus.On) && bool_decide (is_Some (tm_client m))
  then tw_set_mgr w (tm_publish m)
  else
    let i := tw_next w in
    mkTorWorld (tm_publish (mkTorManager (mkTorState true TorStatus.Connecting None) None (Some i)
                              (tm_task m) (tm_event m) (tm_receivers m)))
      (<[i := false]> (tw_channels w)) (<[i := mkBoot PcUnspawned false]> (tw_boots w)) (S i).

Inductive TorManagerError := MissingTokioRuntime.

(** [runtime]: is the caller inside a Tokio runtime? *)
Definition set_enabled (runtime enabled : bool) (w : TorWorld) : TorManagerError + TorWorld :=
  if runtime then inr (set_enabled_locked enabled w) else inl MissingTokioRuntime.

Definition start_if_enabled (runtime : bool) (w : TorWorld) : TorManagerError + TorWorld :=
  if tor_enabled (tm_state (tw_mgr w)) then set_enabled runtime true w else inr w.

Definition set_status_if_active (i : nat) (status : TorStatus) (last_error client : option string)
    (w : TorWorld) : TorWorld :=
  let m := tw_mgr w in
  if cancelled w i || negb (tor_enabled (tm_state m)) then w
  else tw_set_mgr w (tm_publish (mkTorManager (mkTorState (tor_enabled (tm_state m)) status last_error)
                                   client (tm_cancel m) (tm_task m) (tm_event m) (tm_receivers m))).

(** [spawn_bootstrap]: the task is spawned, then its handle stored. *)
Definition spawn_bootstrap (i : nat) (w : TorWorld) : option TorWorld :=
  match b_pc <$> tw_boots w !! i with
  | Some PcUnspawned => Some (tw_set_pc w i PcStart)
  | _ => None
  end.

Definition store_handle (i : nat) (w : TorWorld) : TorWorld :=
  let m := tw_mgr w in
  tw_set_mgr w (mkTorManager (tm_state m) (tm_client m) (tm_cancel m) (Some i) (tm_event m) (tm_receivers m)).

(** One turn of the task, up to its next [await] or critical section. *)
Definition bootstrap_turn (i : nat) (o : Outcome) (w : TorWorld) : option TorWorld :=
  b ← tw_boots w !! i;
  match b_pc b, o with
  | PcStart, OGo => Some (tw_set_pc w i (if cancelled w i then PcOver else PcDir))
  | PcDir, ODir (inl err) =>
      Some (tw_set_pc w i (if cancelled w i then PcOver
                           else PcPublish TorStatus.Error
                                  (Some ("failed to create tor directory: " +:+ err)) None))
  | PcDir, ODir (inr _) => Some (tw_set_pc w i (if cancelled w i then PcOver else PcBoot))
  | PcBoot, OTimeout => Some (tw_set_pc w i (PcPublish TorStatus.Error (Some "Tor bootstrap timed out") None))
  | PcBoot, OFailed err => Some (tw_set_pc w i (PcPublish TorStatus.Error (Some err) None))
  | PcBoot, OClient c => Some (tw_set_pc w i (PcPublish TorStatus.On None (Some c)))
  | PcBoot, OCancelled => if cancelled w i then Some (tw_set_pc w i PcOver) else None
  | PcPublish st err c, OGo => Some (tw_set_pc (set_status_if_active i st err c w) i PcOver)
  | (PcStart | PcDir | PcBoot), OAborted => if b_aborted b then Some (tw_set_pc w i PcOver) else None
  | _, _ => None
  end.

(** ** Interleavings *)

Inductive Action :=
| ASetEnabled (runtime enabled : bool)
| ASubscribe
| AUnsubscribe
| ASpawn (i : nat)
| AStore (i : nat)
| ATask (i : nat) (o : Outcome).

Definition act (a : Action) (w : TorWorld) : option TorWorld :=
  match a with
  | ASetEnabled runtime b => Some (match set_enabled runtime b w with inr w' => w' | inl _ => w end)
  | ASubscribe => Some (tw_set_mgr w (subscribe (tw_mgr w)))
  | AUnsubscribe => if (tm_receivers (tw_mgr w) =? 0)%nat then None
                    else Some (tw_set_mgr w (unsubscribe (tw_mgr w)))
  | ASpawn i => spawn_bootstrap i w
  | AStore i => Some (store_handle i w)
  | ATask i o => bootstrap_turn i o w
  end.

Fixpoint run (l : list Action) (w : TorWorld) : option TorWorld :=
  match l with
  | [] => Some w
  | a :: l' => w' ← act a w; run l' w'
  end.

Definition init_world (initial : TorState) : TorWorld := mkTorWorld (new_manager initial) ∅ ∅ 0.

Definition reachable (w : TorWorld) : Prop := exists initial l, run l (init_world initial) = Some w.

(** ** Invariant *)

Record tor_ok (w : TorWorld) : Prop := {
  ok_off : tor_enabled (tm_state (tw_mgr w)) = false ->
    tm_state (tw_mgr w) = mkTorState false TorStatus.Off None;
  ok_on : tor_status (tm_state (tw_mgr w)) = TorStatus.On <-> is_Some (tm_client (tw_mgr w));
  ok_cancel i : tw_channels w !! i = Some false -> tm_cancel (tw_mgr w) = Some i;
  ok_current i : tm_cancel (tw_mgr w) = Some i -> is_Some (tw_channels w !! i);
  ok_boots i b : tw_boots w !! i = Some b -> is_Some (tw_channels w !! i);
  ok_fresh i : is_Some (tw_channels w !! i) -> (i < tw_next w)%nat;
  ok_publish i b st e c : tw_boots w !! i = Some b -> b_pc b = PcPublish st e c ->
    (st = TorStatus.On <-> is_Some c);
}.

Lemma init_ok initial : tor_ok (init_world initial).
Proof.
  split; simpl; try (intros; by rewrite lookup_empty in *).
  - unfold new_state. destruct initial as [[] st e]; simpl; [by case_match|done].
  - unfold new_state. split; [|by intros []]. destruct initial as [[] st e]; simpl; [|done].
    case_match; simpl; [done|]. breflect. done.
Qed.

Lemma set_pc_ok w i pc :
  (forall st e c, pc = PcPublish st e c -> (st = TorStatus.On <-> is_Some c)) -> tor_ok w -> tor_ok (tw_set_pc w i pc).
Proof.
  intros Hpc []. split; simpl; try done.
  - intros j b. destruct (decide (i = j)) as [->|]; [rewrite lookup_alter_eq|by rewrite lookup_alter_ne; eauto].
    destruct (tw_boots w !! j) eqn:E; [|done]. intros _. eauto.
  - intros j b st e c. destruct (decide (i = j)) as [->|]; [rewrite lookup_alter_eq|rewrite lookup_alter_ne by done; eauto].
    destruct (tw_boots w !! j) eqn:E; [|done]. intros [= <-] Hp. simpl in Hp. by eapply Hpc.
Qed.

(** Cancelling leaves no channel open. *)
Lemma cancel_current_channels w i :
  (forall j, tw_channels w !! j = Some false -> tm_cancel (tw_mgr w) = Some j) ->
  tw_channels (cancel_current w) !! i <> Some false.
Proof.
  intros Hc. unfold cancel_current. simpl. destruct (tm_cancel (tw_mgr w)) as [k|] eqn:Ek.
  - destruct (decide (k = i)) as [->|Hne]; [by rewrite lookup_insert_eq|].
    rewrite lookup_insert_ne by done. intros H%Hc. naive_solver.
  - intros H%Hc. done.
Qed.

Lemma cancel_current_dom w i :
  (forall j, tm_cancel (tw_mgr w) = Some j -> is_Some (tw_channels w !! j)) ->
  is_Some (tw_channels (cancel_current w) !! i) <-> is_Some (tw_channels w !! i).
Proof.
  intros Hc. unfold cancel_current. simpl. destruct (tm_cancel (tw_mgr w)) as [k|]; [|done].
  destruct (decide (k = i)) as [->|]; [rewrite lookup_insert_eq|by rewrite lookup_insert_ne].
  split; [intros _; by apply Hc|eauto].
Qed.

Lemma cancel_current_boots w i b :
  tw_boots (cancel_current w) !! i = Some b -> exists b', tw_boots w !! i = Some b' /\ b_pc b' = b_pc b.
Proof.
  unfold cancel_current. simpl. destruct (tm_task (tw_mgr w)) as [k|]; [|eauto].
  destruct (decide (k = i)) as [->|]; [rewrite lookup_alter_eq|rewrite lookup_alter_ne by done; eauto].
  destruct (tw_boots w !! i) as [b'|]; [|done]. intros [= <-]. eauto.
Qed.

Lemma set_enabled_ok e w : tor_ok w -> tor_ok (set_enabled_locked e w).
Proof.
  intros [Hoff Hon Hcan Hcur Hboots Hfresh Hpub]. unfold set_enabled_locked.
  set (w1 := tw_set_mgr w _).
  assert (forall i, tw_channels (cancel_current w1) !! i <> Some false) as Hch
    by (intros i; by apply cancel_current_channels).
  assert (forall i, is_Some (tw_channels (cancel_current w1) !! i) <-> is_Some (tw_channels w !! i)) as Hdom
    by (intros i; by apply (cancel_current_dom w1)).
  pose proof (cancel_current_boots w1) as Hcb. change (tw_boots w1) with (tw_boots w) in Hcb.
  destruct e; simpl negb; cbv iota.
  2:{ split; simpl; try done.
      - intros i H. destruct (Hch i H).
      - intros i b H. destruct (Hcb _ _ H) as (b' & Hb & _). apply (Hdom i). eauto.
      - intros i H. apply Hfresh. exact (proj1 (Hdom i) H).
      - intros i b st er c H. destruct (Hcb _ _ H) as (b' & Hb & Hp). rewrite <- Hp. eauto. }
  destruct (bool_decide _ && bool_decide _) eqn:Eon; clear Eon.
  - split; simpl in *; try done.
    + intros i H. destruct (Hch i H).
    + intros i b H. destruct (Hcb _ _ H) as (b' & Hb & _). apply (Hdom i). eauto.
    + intros i H. apply Hfresh. exact (proj1 (Hdom i) H).
    + intros i b st er c H. destruct (Hcb _ _ H) as (b' & Hb & Hp). rewrite <- Hp. eauto.
  - split; simpl; try done.
    + intros i. destruct (decide (tw_next w = i)) as [<-|Hne]; [done|]. rewrite lookup_insert_ne by done.
      intros H. destruct (Hch i H).
    + intros i [= <-]. rewrite lookup_insert_eq. eauto.
    + intros i b. destruct (decide (tw_next w = i)) as [<-|Hne]; [rewrite !lookup_insert_eq; eauto|].
      rewrite !lookup_insert_ne by done. intros H. destruct (Hcb _ _ H) as (b' & Hb & _). apply (Hdom i). eauto.
    + intros i. destruct (decide (tw_next w = i)) as [<-|Hne]; [lia|]. rewrite lookup_insert_ne by done.
      intros H. pose proof (Hfresh i (proj1 (Hdom i) H)). lia.
    + intros i b st er c. destruct (decide (tw_next w = i)) as [<-|Hne]; [rewrite lookup_insert_eq; by intros [= <-]|].
      rewrite lookup_insert_ne by done. intros H. destruct (Hcb _ _ H) as (b' & Hb & Hp). rewrite <- Hp. eauto.
Qed.

Lemma set_status_ok w i st e c :
  (st = TorStatus.On <-> is_Some c) -> tor_ok w -> tor_ok (set_status_if_active i st e c w).
Proof.
  intros Hst [Hoff Hon Hcan Hcur Hboots Hfresh Hpub]. unfold set_status_if_active.
  destruct (cancelled w i || _) eqn:E; [by split|].
  apply orb_false_iff in E as [_ E%negb_false_iff]. split; simpl; try done. by rewrite E.
Qed.

Lemma act_ok a w w' : act a w = Some w' -> tor_ok w -> tor_ok w'.
Proof.
  destruct a as [[] e| | |i|i|i o]; simpl.
  - intros [= <-]. apply set_enabled_ok.
  - by intros [= <-].
  - intros [= <-] []. by split.
  - destruct (_ =? _)%nat; [done|]. intros [= <-] []. by split.
  - unfold spawn_bootstrap. destruct (tw_boots w !! i) as [b|]; [simpl|done].
    destruct (b_pc b); try done. intros [= <-]. apply set_pc_ok. by intros ? ? ? [= ].
  - intros [= <-] []. by split.
  - unfold bootstrap_turn. destruct (tw_boots w !! i) as [b|] eqn:Eb; [simpl|done]. intros H Hok.
    destruct (b_pc b) as [| | | |st e c|] eqn:Ep; destruct o as [|[er|[]]| |er|cl| |]; simplify_eq;
      try (destruct (cancelled w i); simplify_eq; apply set_pc_ok; naive_solver);
      try (destruct (b_aborted b); simplify_eq; apply set_pc_ok; naive_solver);
      try (apply set_pc_ok; naive_solver).
    apply set_pc_ok; [by intros ? ? ? [= ]|]. apply set_status_ok; [|done]. by eapply ok_publish.
Qed.

Lemma run_ok l w w' : run l w = Some w' -> tor_ok w -> tor_ok w'.
Proof.
  revert w. induction l as [|a l IH]; intros w; simpl; [by intros [= <-]|].
  destruct (act a w) as [w1|] eqn:E; [simpl|done]. intros Hr Hok. eapply IH; [exact Hr|]. by eapply act_ok.
Qed.

Lemma reachable_ok w : reachable w -> tor_ok w.
Proof. intros (initial & l & H). eapply run_ok; [exact H|]. apply init_ok. Qed.


(** ** Tasks that were cancelled *)

(** A channel that carries [true] carries it for good. *)
Lemma act_cancelled a w w' i :
  tor_ok w -> act a w = Some w' -> cancelled w i = true -> cancelled w' i = true.
Proof.
  unfold cancelled. intros Hok Hact Hc. destruct a as [[] e| | |j|j|j o]; simpl in Hact.
  2: by injection Hact as <-.
  2: by injection Hact as <-.
  2: { destruct (_ =? _)%nat; [done|]. by injection Hact as <-. }
  - assert (i <> tw_next w) as Hi.
    { intros ->. destruct (tw_channels w !! tw_next w) eqn:E; [|done].
      pose proof (ok_fresh _ Hok (tw_next w) ltac:(eauto)). lia. }
    assert (default false (tw_channels (cancel_current w) !! i) = true) as Hcc.
    { unfold cancel_current. simpl. destruct (tm_cancel (tw_mgr w)) as [k|]; [|done].
      destruct (decide (k = i)) as [->|]; [by rewrite lookup_insert_eq|by rewrite lookup_insert_ne]. }
    injection Hact as <-. unfold set_enabled_locked. unfold cancel_current in Hcc. simpl in Hcc.
    destruct e; simpl; [|exact Hcc]. destruct (bool_decide _ && bool_decide _); simpl; [exact Hcc|].
    by rewrite lookup_insert_ne by done.
  - unfold spawn_bootstrap in Hact. repeat case_match; simplify_eq. done.
  - by injection Hact as <-.
  - unfold bootstrap_turn in Hact. destruct (tw_boots w !! j); [simpl in Hact|done].
    repeat case_match; simplify_eq; try done. simpl. unfold set_status_if_active. by case_match.
Qed.

(** The turn of a cancelled task leaves the manager as it is. *)
Lemma cancelled_turn_inert i o w w' :
  cancelled w i = true -> bootstrap_turn i o w = Some w' -> tw_mgr w' = tw_mgr w.
Proof.
  unfold bootstrap_turn. intros Hc H. destruct (tw_boots w !! i); [simpl in H|done].
  repeat case_match; simplify_eq; try done. simpl. unfold set_status_if_active. by rewrite Hc.
Qed.

Lemma run_cancelled l w w' i :
  tor_ok w -> run l w = Some w' -> cancelled w i = true -> cancelled w' i = true.
Proof.
  revert w. induction l as [|a l IH]; intros w Hok; simpl; [by intros [= <-]|].
  destruct (act a w) as [w1|] eqn:E; [simpl|done]. intros Hr Hc.
  eapply IH; [by eapply act_ok|exact Hr|]. by eapply act_cancelled.
Qed.

(** The manager turned off, and every task it ever spawned cancelled. *)
Definition off_world (w : TorWorld) : Prop :=
  tm_state (tw_mgr w) = mkTorState false TorStatus.Off None /\ tm_client (tw_mgr w) = None.

Definition is_enable (a : Action) : bool := match a with ASetEnabled runtime e => runtime && e | _ => false end.

Lemma act_off a w w' : is_enable a = false -> act a w = Some w' -> off_world w -> off_world w'.
Proof.
  unfold off_world. intros Ha Hact [Hs Hc]. destruct a as [[] e| | |i|i|i o]; simpl in Ha, Hact.
  - subst e. by injection Hact as <-.
  - by injection Hact as <-.
  - by injection Hact as <-.
  - destruct (_ =? _)%nat; [done|]. by injection Hact as <-.
  - unfold spawn_bootstrap in Hact. repeat case_match; simplify_eq. done.
  - by injection Hact as <-.
  - unfold bootstrap_turn in Hact. destruct (tw_boots w !! i); [simpl in Hact|done].
    repeat case_match; simplify_eq; try done. unfold set_status_if_active. rewrite Hs. simpl.
    by rewrite orb_true_r.
Qed.

Lemma run_off l w w' :
  forallb (fun a => negb (is_enable a)) l = true -> run l w = Some w' -> off_world w -> off_world w'.
Proof.
  revert w. induction l as [|a l IH]; intros w Hl; simpl in *; [by intros [= <-]|].
  apply andb_true_iff in Hl as [Ha Hl]. apply negb_true_iff in Ha.
  destruct (act a w) as [w1|] eqn:E; [simpl|done]. intros Hr Ho. eapply IH; [done|exact Hr|]. by eapply act_off.
Qed.

(** ** Where a published client comes from *)

Definition is_toggle (a : Action) : bool := match a with ASetEnabled _ _ => true | _ => false end.

(** While the user does not touch the switch: every task but [j] is cancelled,
    and a client that [j] holds or has published is one of [got]. *)
Record only_task (j : nat) (got : list string) (w : TorWorld) : Prop := {
  ot_cancelled i : i <> j -> is_Some (tw_boots w !! i) -> cancelled w i = true;
  ot_client c : tm_client (tw_mgr w) = Some c -> c ∈ got;
  ot_publish b st e c : tw_boots w !! j = Some b -> b_pc b = PcPublish st e (Some c) -> c ∈ got;
}.

Definition gets (j : nat) (a : Action) : list string :=
  match a with ATask i (OClient c) => if decide (i = j) then [c] else [] | _ => [] end.

Lemma only_task_mono j got got' w : got ⊆ got' -> only_task j got w -> only_task j got' w.
Proof. intros Hs []. split; eauto. Qed.

Lemma only_task_set_pc j got w i pc :
  (i = j -> forall st e c, pc = PcPublish st e (Some c) -> c ∈ got) ->
  only_task j got w -> only_task j got (tw_set_pc w i pc).
Proof.
  intros Hpc [Hc Hcl Hp]. split; simpl; [|done|].
  - intros k Hk. rewrite lookup_alter. case_decide; subst; rewrite ?fmap_is_Some; eauto.
  - intros b st e c. rewrite lookup_alter. case_decide; subst; [|eauto].
    destruct (tw_boots w !! j); [|done]. intros [= <-]. simpl. eauto.
Qed.

Lemma only_task_set_status j got w i st e c :
  (i <> j -> cancelled w i = true) -> (forall c', c = Some c' -> i = j -> c' ∈ got) ->
  only_task j got w -> only_task j got (set_status_if_active i st e c w).
Proof.
  intros Hi Hg [Hc Hcl Hp]. unfold set_status_if_active.
  destruct (cancelled w i || _) eqn:E; [by split|]. apply orb_false_iff in E as [E _].
  split; simpl; [exact Hc| |exact Hp]. intros c' ->. apply Hg; [done|].
  destruct (decide (i = j)); [done|]. by rewrite Hi in E.
Qed.

Lemma act_only_task j got a w w' :
  is_toggle a = false -> act a w = Some w' -> only_task j got w -> only_task j (got ++ gets j a) w'.
Proof.
  intros Ha Hact Ho. apply (only_task_mono _ _ (got ++ gets j a)) in Ho; [|set_solver].
  destruct a as [? e| | |i|i|i o]; [done| | | | |]; simpl in Hact.
  - injection Hact as <-. by destruct Ho.
  - destruct (_ =? _)%nat; [done|]. injection Hact as <-. by destruct Ho.
  - unfold spawn_bootstrap in Hact. destruct (tw_boots w !! i) as [b|]; [simpl in Hact|done].
    destruct (b_pc b); simplify_eq. by apply only_task_set_pc.
  - injection Hact as <-. by destruct Ho.
  - unfold bootstrap_turn in Hact. destruct (tw_boots w !! i) as [b|] eqn:Eb; [simpl in Hact|done].
    destruct (b_pc b) as [| | | |st e c|] eqn:Ep; destruct o as [|[er|[]]| |er|cl| |]; simplify_eq;
      try (destruct (cancelled w i); simplify_eq; apply only_task_set_pc; naive_solver);
      try (destruct (b_aborted b); simplify_eq; apply only_task_set_pc; naive_solver);
      try (apply only_task_set_pc; naive_solver).
    + apply only_task_set_pc; [|done]. intros -> st e c [= <- <- <-]. simpl.
      rewrite decide_True by done. set_solver.
    + apply only_task_set_pc; [done|]. apply only_task_set_status; [| |done].
      * intros Hne. eapply ot_cancelled; [exact Ho|done|by rewrite Eb].
      * intros c' -> ->. by eapply ot_publish.
Qed.

Lemma run_only_task j l got w w' :
  forallb (fun a => negb (is_toggle a)) l = true -> run l w = Some w' -> only_task j got w ->
  only_task j (got ++ (l ≫= gets j)) w'.
Proof.
  revert got w. induction l as [|a l IH]; intros got w Hl; simpl in *.
  - intros [= <-]. by rewrite app_nil_r.
  - apply andb_true_iff in Hl as [Ha%negb_true_iff Hl].
    destruct (act a w) as [w1|] eqn:E; [simpl|done]. intros Hr Ho.
    rewrite app_assoc. eapply IH; [done|exact Hr|]. by eapply act_only_task.
Qed.

(** ** Properties *)

Definition has_client (w : TorWorld) : bool :=
  bool_decide (tor_status (tm_state (tw_mgr w)) = TorStatus.On) && bool_decide (is_Some (tm_client (tw_mgr w))).

(** The world after [set_enabled(true)] when there is no client yet. *)
Lemma set_enabled_fresh w :
  tor_ok w -> has_client w = false ->
  only_task (tw_next w) [] (set_enabled_locked true w)
  /\ tm_state (tw_mgr (set_enabled_locked true w)) = mkTorState true TorStatus.Connecting None
  /\ tw_boots (set_enabled_locked true w) !! tw_next w = Some (mkBoot PcUnspawned false)
  /\ tw_channels (set_enabled_locked true w) !! tw_next w = Some false.
Proof.
  intros Hok Hc. pose proof (set_enabled_ok true w Hok) as Hok'. revert Hok'.
  unfold has_client in Hc. unfold set_enabled_locked. simpl. rewrite Hc. simpl. intros Hok'.
  rewrite !lookup_insert_eq. split_and!; try done. split; simpl; [|done|].
  - intros i Hi Hb. unfold cancelled. simpl.
    destruct Hb as [b Hb]. pose proof (ok_boots _ Hok' i b Hb) as [v Hv]. simpl in Hv. rewrite Hv. simpl.
    destruct v; [done|]. pose proof (ok_cancel _ Hok' i Hv) as E. simpl in E. congruence.
  - intros b st e c. rewrite lookup_insert_eq. by intros [= <-].
Qed.

(** ** The event channel *)

(** What a step may do to the channel: nothing when nobody receives; with a
    receiver the event becomes the state, unless neither changes. *)
Definition event_step (m m' : TorManager) : Prop :=
  (tm_receivers m = 0%nat -> tm_event m' = tm_event m)
  /\ (tm_receivers m <> 0%nat ->
      tm_event m' = tm_state m' \/ (tm_event m' = tm_event m /\ tm_state m' = tm_state m)).

Lemma event_step_refl m m' : tm_event m' = tm_event m -> tm_state m' = tm_state m -> event_step m m'.
Proof. intros H1 H2. split; [done|by right]. Qed.

Lemma event_step_publish m m' :
  tm_receivers m' = tm_receivers m -> tm_event m' = tm_event m -> event_step m (tm_publish m').
Proof.
  intros H1 H2. unfold event_step, tm_publish. simpl. rewrite H1, H2.
  destruct (tm_receivers m) as [|n]; simpl; by split; [|left].
Qed.

Lemma set_enabled_event e w : event_step (tw_mgr w) (tw_mgr (set_enabled_locked e w)).
Proof.
  unfold set_enabled_locked. destruct e; simpl; [|by apply event_step_publish].
  destruct (_ && _); by apply event_step_publish.
Qed.

Lemma set_status_event i st e c w : event_step (tw_mgr w) (tw_mgr (set_status_if_active i st e c w)).
Proof.
  unfold set_status_if_active. destruct (_ || _); [by apply event_step_refl|by apply event_step_publish].
Qed.

Lemma bootstrap_turn_event i o w w' :
  bootstrap_turn i o w = Some w' ->
  event_step (tw_mgr w) (tw_mgr w') /\ tm_receivers (tw_mgr w') = tm_receivers (tw_mgr w).
Proof.
  unfold bootstrap_turn. destruct (tw_boots w !! i) as [b|]; [simpl|done].
  destruct (b_pc b) as [| | | |st e c|]; destruct o as [|[]| | | | |]; intros H; simplify_eq;
    try (destruct (cancelled w i)); try (destruct (b_aborted b)); simplify_eq;
    first [split; [by apply event_step_refl|done]
          | split; [apply set_status_event|]; simpl; unfold set_status_if_active; by destruct (_ || _)].
Qed.

Lemma act_event a w w' :
  act a w = Some w' ->
  event_step (tw_mgr w) (tw_mgr w')
  /\ tm_receivers (tw_mgr w')
     = match a with
       | ASubscribe => S (tm_receivers (tw_mgr w))
       | AUnsubscribe => pred (tm_receivers (tw_mgr w))
       | _ => tm_receivers (tw_mgr w)
       end.
Proof.
  destruct a as [[] e| | |i|i|i o]; simpl; intros H.
  - injection H as <-. split; [apply set_enabled_event|]. unfold set_enabled_locked.
    destruct e; simpl; [by destruct (_ && _)|done].
  - injection H as <-. split; [by apply event_step_refl|done].
  - injection H as <-. split; [by apply event_step_refl|done].
  - destruct (_ =? _)%nat; [done|]. injection H as <-. split; [by apply event_step_refl|done].
  - unfold spawn_bootstrap in H. destruct (b_pc <$> _) as [[]|]; simplify_eq.
    split; [by apply event_step_refl|done].
  - injection H as <-. split; [by apply event_step_refl|done].
  - by apply bootstrap_turn_event in H.
Qed.

(** While nobody subscribes the channel keeps the value it had. *)
Lemma run_event_unheard l w w' :
  ASubscribe ∉ l -> run l w = Some w' -> tm_receivers (tw_mgr w) = 0%nat ->
  tm_event (tw_mgr w') = tm_event (tw_mgr w).
Proof.
  revert w. induction l as [|a l IH]; intros w Hl; simpl; [by intros [= <-]|].
  destruct (act a w) as [w1|] eqn:E; [simpl|done]. intros Hr H0.
  apply not_elem_of_cons in Hl as [Ha Hl]. destruct (act_event _ _ _ E) as ((Hev & _) & Hn).
  rewrite <- (Hev H0). apply IH; [done|done|]. rewrite Hn. destruct a; rewrite ?H0; done.
Qed.

(** While somebody does, and keeps the receiver, the last event is the state
    as soon as anything is published. *)
Lemma run_event_heard l w w' :
  AUnsubscribe ∉ l -> run l w = Some w' -> tm_receivers (tw_mgr w) <> 0%nat ->
  tm_event (tw_mgr w') = tm_state (tw_mgr w')
  \/ (tm_event (tw_mgr w') = tm_event (tw_mgr w) /\ tm_state (tw_mgr w') = tm_state (tw_mgr w)).
Proof.
  revert w. induction l as [|a l IH]; intros w Hl; simpl; [intros [= <-]; by right|].
  destruct (act a w) as [w1|] eqn:E; [simpl|done]. intros Hr H0.
  apply not_elem_of_cons in Hl as [Ha Hl]. destruct (act_event _ _ _ E) as ((_ & Hev) & Hn).
  assert (tm_receivers (tw_mgr w1) <> 0%nat) as H1 by (rewrite Hn; destruct a; done || lia).
  destruct (IH w1 Hl Hr H1) as [|[He Hs]]; [by left|]. rewrite He, Hs. by apply Hev.
Qed.

(** C19. Whatever the interleaving of enables, disables, subscriptions and
    bootstrap tasks, the Tor manager's state is coherent: disabled means status
    [Off], no error and no client; status [On] means exactly that a client is
    held; to somebody who holds a receiver the last event is the state as soon
    as anything is published, while what is published to nobody is lost; the
    tasks that are not cancelled are at most the one of [cancel_bootstrap]; and
    a cancelled task stays cancelled and cannot change the manager. *)
Theorem tor_state_coherent (w : TorWorld) :
  reachable w ->
  (tor_enabled (tm_state (tw_mgr w)) = false -> off_world w)
  /\ (tor_status (tm_state (tw_mgr w)) = TorStatus.On <-> is_Some (tm_client (tw_mgr w)))
  /\ (forall l w', run l w = Some w' -> AUnsubscribe ∉ l -> tm_receivers (tw_mgr w) <> 0%nat ->
        tm_event (tw_mgr w') = tm_state (tw_mgr w')
        \/ (tm_event (tw_mgr w') = tm_event (tw_mgr w) /\ tm_state (tw_mgr w') = tm_state (tw_mgr w)))
  /\ (forall l w', run l w = Some w' -> ASubscribe ∉ l -> tm_receivers (tw_mgr w) = 0%nat ->
        tm_event (tw_mgr w') = tm_event (tw_mgr w))
  /\ (forall i b, tw_boots w !! i = Some b -> cancelled w i = true \/ tm_cancel (tw_mgr w) = Some i)
  /\ (forall i l w' o w'', cancelled w i = true -> run l w = Some w' ->
        cancelled w' i = true /\ (act (ATask i o) w' = Some w'' -> tw_mgr w'' = tw_mgr w')).
Proof.
  intros Hr. pose proof (reachable_ok w Hr) as Hok. split_and!.
  - intros He. pose proof (ok_off _ Hok He) as Hs. split; [done|].
    destruct (tm_client (tw_mgr w)) eqn:E; [|done].
    pose proof (proj2 (ok_on _ Hok) ltac:(rewrite E; eauto)) as H. by rewrite Hs in H.
  - apply (ok_on _ Hok).
  - intros l w' H1 H2. by apply run_event_heard with l.
  - intros l w' H1 H2. by apply run_event_unheard with l.
  - intros i b Hb. destruct (ok_boots _ Hok i b Hb) as [[] Hv]; [left; unfold cancelled; by rewrite Hv|].
    right. by apply (ok_cancel _ Hok).
  - intros i l w' o w'' Hc Hrun. pose proof (run_cancelled l w w' i Hok Hrun Hc) as Hc'. split; [done|].
    by apply cancelled_turn_inert.
Qed.

(** The application starts Tor before it subscribes ([lib.rs]): the status
    published meanwhile is lost, and the first event that it forwards is the
    one from before. *)
Example startup_status_lost :
  exists w, start_if_enabled true (init_world (mkTorState true TorStatus.Off None)) = inr w
  /\ exists w', act ASubscribe w = Some w'
  /\ tm_state (tw_mgr w') = mkTorState true TorStatus.Connecting None
  /\ tm_event (tw_mgr w') = mkTorState true TorStatus.Off None.
Proof. eexists. split; [reflexivity|]. eexists. split; [reflexivity|]. by split. Qed.

(** Once Tor is disabled it stays off: until somebody enables it again, no
    interleaving of the tasks already spawned, nor of further disables, brings
    the status back from [Off] or a client back. *)
Theorem disabled_tor_stays_off (w w' : TorWorld) (l : list Action) :
  forallb (fun a => negb (is_enable a)) l = true -> run l (set_enabled_locked false w) = Some w' ->
  tm_state (tw_mgr w') = mkTorState false TorStatus.Off None /\ tor_client (tw_mgr w') = None.
Proof.
  intros Hl Hr.
  pose proof (run_off l _ _ Hl Hr ltac:(done)) as [Hs Hc]. split; [done|]. unfold tor_client. by rewrite Hs.
Qed.

(** A restart of the bootstrap supersedes the earlier ones: after
    [set_enabled(true)] on a manager without a client, the client the manager
    ends up with is one that the new task obtained, never that of a stale task
    finishing late; and the new task does bring the manager to [On] with the
    client it obtained. *)
Theorem latest_bootstrap_wins (w : TorWorld) :
  reachable w -> has_client w = false ->
  (forall l w' c, forallb (fun a => negb (is_toggle a)) l = true ->
     run l (set_enabled_locked true w) = Some w' -> tm_client (tw_mgr w') = Some c ->
     ATask (tw_next w) (OClient c) ∈ l)
  /\ (forall c, exists w',
        run [ASetEnabled true true; ASpawn (tw_next w); AStore (tw_next w); ATask (tw_next w) OGo;
             ATask (tw_next w) (ODir (inr ())); ATask (tw_next w) (OClient c); ATask (tw_next w) OGo] w
          = Some w'
        /\ tm_state (tw_mgr w') = mkTorState true TorStatus.On None /\ tor_client (tw_mgr w') = Some c).
Proof.
  intros Hr Hn. pose proof (reachable_ok w Hr) as Hok.
  destruct (set_enabled_fresh w Hok Hn) as (Ho & Hs & Hb & Hc). split.
  - intros l w' c Hl Hrun Hcl.
    pose proof (ot_client _ _ _ (run_only_task _ _ _ _ _ Hl Hrun Ho) c Hcl) as Hin.
    simpl in Hin. apply list_elem_of_bind in Hin as (a & Hin & Ha).
    destruct a as [| | | | |i []]; simpl in Hin; try (by apply not_elem_of_nil in Hin).
    case_decide; [|by apply not_elem_of_nil in Hin]. apply list_elem_of_singleton in Hin. by subst.
  - intros c. remember (set_enabled_locked true w) as w1 eqn:E1.
    assert (forall w2, tw_channels w2 = tw_channels w1 -> cancelled w2 (tw_next w) = false) as Hcan
      by (intros w2 H2; unfold cancelled; by rewrite H2, Hc).
    eexists. split; [|split].
    + simpl. rewrite <- E1. unfold spawn_bootstrap. rewrite Hb. simpl.
      unfold bootstrap_turn. simpl. rewrite lookup_alter_eq, Hb. simpl.
      rewrite Hcan by done. rewrite lookup_alter_eq, lookup_alter_eq, Hb. simpl.
      rewrite Hcan by done. rewrite !lookup_alter_eq, Hb. simpl.
      rewrite Hcan by done. rewrite !lookup_alter_eq, Hb. simpl. reflexivity.
    + simpl. unfold set_status_if_active. rewrite Hcan by done. simpl. rewrite Hs. done.
    + simpl. unfold set_status_if_active. rewrite Hcan by done. simpl. rewrite Hs. done.
Qed.

(** ** Witnesses *)

(** Tor enabled, its bootstrap half-way, then restarted. *)
Definition tor_start : TorWorld := init_world (mkTorState false TorStatus.Off None).
Definition tor_steps : list Action :=
  [ASetEnabled true true; ASpawn 0; ASubscribe; AStore 0; ATask 0 OGo; ATask 0 (ODir (inr ())); ATask 0 (OClient "stale");
   ASetEnabled true true; ASpawn 1; AStore 1].
Definition tor_restarted : TorWorld := default tor_start (run tor_steps tor_start).

Lemma tor_restarted_reachable : reachable tor_restarted.
Proof. exists (mkTorState false TorStatus.Off None), tor_steps. reflexivity. Defined.

Lemma tor_state_coherent_witness :
  cancelled tor_restarted 0 = true /\ cancelled tor_restarted 1 = false
  /\ tm_event (tw_mgr tor_restarted) = tm_state (tw_mgr tor_restarted)
  /\ exists w', act (ATask 0 OGo) tor_restarted = Some w' /\ tw_mgr w' = tw_mgr tor_restarted.
Proof.
  destruct (tor_state_coherent tor_restarted tor_restarted_reachable) as (_ & _ & _ & _ & _ & H).
  split; [reflexivity|]. split; [reflexivity|]. split; [reflexivity|]. eexists. split; [reflexivity|].
  refine (proj2 (H 0%nat [] tor_restarted OGo _ _ _) _); reflexivity.
Defined.

Lemma disabled_tor_stays_off_witness :
  exists w', run [ATask 0 OGo; ATask 1 OAborted] (set_enabled_locked false tor_restarted) = Some w'
  /\ tor_client (tw_mgr w') = None.
Proof.
  exists (default tor_start (run [ATask 0 OGo; ATask 1 OAborted] (set_enabled_locked false tor_restarted))).
  split; [vm_compute; reflexivity|].
  refine (proj2 (disabled_tor_stays_off tor_restarted _ [ATask 0 OGo; ATask 1 OAborted] _ _)); vm_compute; reflexivity.
Defined.

Lemma latest_bootstrap_wins_witness :
  exists w', run [ASetEnabled true true; ASpawn 2; AStore 2; ATask 2 OGo; ATask 2 (ODir (inr ()));
                  ATask 2 (OClient "fresh"); ATask 2 OGo] tor_restarted = Some w'
  /\ tor_client (tw_mgr w') = Some "fresh".
Proof.
  destruct (latest_bootstrap_wins tor_restarted tor_restarted_reachable ltac:(reflexivity)) as [_ H].
  destruct (H "fresh") as (w' & Hr & _ & Hc). exists w'. split; [exact Hr|exact Hc].
Defined.
