(* ===== verification/NetClients.v ===== *)
(** The network clients: the choice of a transport
    ([zbag-network/src/transport.rs]), the gRPC client and its calls
    ([grpc_client.rs]) and the JSON client ([http_client.rs]).

    What leaves the process is a log of [NetEvent]s, so that failing closed is
    a statement on the log.  The answers of the network are arguments: [NetIo]
    for connections, an [RpcOutcome] for a call, [HttpIo] for a JSON request.
    [select] locks the Tor manager twice, so a selection takes the two
    managers it read. *)
From S2P Require Import Prelude Text Domain AppDb Broadcast Tor.
Open Scope Z_scope.

(** ** transport.rs *)

Inductive SelectedTransport := Direct | ViaTor (client : string).

Record TransportError := TorNotReady { te_status : TorStatus; te_last_error : option string }.

(** The managers of [tor.state()] and of [tor.tor_client()]; [None] for a
    selector without a manager. *)
Abbreviation Reads := (option (TorManager * TorManager)).

Definition select (tor : Reads) : TransportError + SelectedTransport :=
  match tor with
  | None => inr Direct
  | Some (m1, m2) =>
      let state := tm_state m1 in
      if negb (tor_enabled state) then inr Direct
      else if negb (bool_decide (tor_status state = TorStatus.On))
      then inl (TorNotReady (tor_status state) (tor_last_error state))
      else match tor_client m2 with
           | None => inl (TorNotReady (tor_status state) (tor_last_error state))
           | Some client => inr (ViaTor client)
           end
  end.

Definition transport_error_text (e : TransportError) : string :=
  "tor enabled but not ready (status=" +:+ tor_status_debug (te_status e) +:+ ")".

(** ** Effects *)

Inductive Connection := DirectChannel (channel : nat) | TorChannel (client : string).

Inductive Request :=
| GetMempoolStream
| GetLightdInfo
| SendTransaction (data : string)
| GetLatestBlock
| GetBlockRange (first last : Z)
| GetTreeState (height : Z)
| GetSubtreeRoots (start_index shielded_protocol max_entries : Z)
| GetTransaction (hash : string).

Inductive NetEvent :=
| EvConnect
| EvTorConnect (client : string)
| EvRpc (conn : Connection) (request : Request)
| EvHttp (transport : SelectedTransport) (url : string).

Record Net := mkNet { net_channel : option nat; net_log : list NetEvent }.

Definition m_emit (e : NetEvent) : M Net unit :=
  m_modify (fun n => mkNet (net_channel n) (net_log n ++ [e])%list).
Definition m_set_channel (c : option nat) : M Net unit := m_modify (fun n => mkNet c (net_log n)).

(** ** grpc_client.rs: connections *)

Inductive TorConn := TcTimeout (e : string) | TcFailed (e : string) | TcConnected.

Record NetIo := mkNetIo {
  ni_endpoint : string + unit;          (* [Endpoint::new], or the parse as a URI *)
  ni_connect : string + nat;            (* [endpoint.connect()] *)
  ni_tor : string -> TorConn;           (* [client.connect_to_lightwalletd(uri)], timed *)
}.

(** The first look at the cache is under the read lock, the second under the
    write lock. *)
Definition get_direct_channel (io : NetIo) : M Net nat :=
  n ← m_get;
  match net_channel n with
  | Some channel => mret channel
  | None =>
      n ← m_get;
      match net_channel n with
      | Some channel => mret channel
      | None =>
          match ni_endpoint io with
          | inl e => m_err (Context "invalid gRPC endpoint URL" (AnyhowMsg e))
          | inr _ =>
              m_emit EvConnect ;;
              match ni_connect io with
              | inr channel => m_set_channel (Some channel) ;; mret channel
              | inl e => m_err (Context "failed to connect" (AnyhowMsg e))
              end
          end
      end
  end.

Definition reset_connection : M Net unit := m_set_channel None.

Definition get_client (tor : Reads) (io : NetIo) : M Net Connection :=
  match select tor with
  | inl e => m_err (AnyhowMsg (transport_error_text e))
  | inr Direct => channel ← get_direct_channel io; mret (DirectChannel channel)
  | inr (ViaTor client) =>
      match ni_endpoint io with
      | inl e => m_err (Context "invalid gRPC endpoint URL" (AnyhowMsg e))
      | inr _ =>
          m_emit (EvTorConnect client) ;;
          match ni_tor io client with
          | TcTimeout e => m_err (Context "Tor gRPC connection timed out" (AnyhowMsg e))
          | TcFailed e => m_err (Context "failed to connect through Tor" (AnyhowMsg e))
          | TcConnected => mret (TorChannel client)
          end
      end
  end.

Definition connection_patterns : list string :=
  ["connection"; "transport"; "broken pipe"; "reset by peer"; "timed out"; "refused"; "hyper"; "h2"].

(** [debug]: the text of [{err:?}]. *)
Definition is_connection_error (debug : error -> string) (err : error) : bool :=
  contains_any (to_lowercase (debug err)) connection_patterns.

(** The second attempt selects its transport again. *)
Definition get_client_with_retry (debug : error -> string) (tor1 tor2 : Reads) (io1 io2 : NetIo)
    : M Net Connection :=
  first ← m_try (get_client tor1 io1);
  match first with
  | Ok client => mret client
  | Err err =>
      if is_connection_error debug err then reset_connection ;; get_client tor2 io2
      else m_err err
  end.

(** ** grpc_client.rs: calls *)

Inductive Code := Unimplemented | DeadlineExceeded | Cancelled | OtherCode.

Inductive RpcOutcome A := RpcErr (code : Code) (text : string) | RpcOk (reply : A).
Arguments RpcErr {A}. Arguments RpcOk {A}.

Section Calls.
Context (tor : Reads) (io : NetIo).

Definition connected : M Net Connection := m_context "failed to connect" (get_client tor io).

Definition probe_mempool_support (r : RpcOutcome unit) : M Net unit :=
  conn ← connected;
  m_emit (EvRpc conn GetMempoolStream) ;;
  match r with
  | RpcOk _ => mret ()
  | RpcErr Unimplemented _ => m_err (AnyhowMsg "server missing GetMempoolStream capability")
  | RpcErr DeadlineExceeded _ => mret ()
  | RpcErr Cancelled _ => mret ()
  | RpcErr OtherCode text => m_err (Context "mempool probe failed" (AnyhowMsg text))
  end.

(** A call whose failure is wrapped in [ctx]. *)
Definition rpc_with_context {A} (ctx : string) (req : Request) (r : RpcOutcome A) : M Net A :=
  conn ← connected;
  m_emit (EvRpc conn req) ;;
  match r with
  | RpcOk reply => mret reply
  | RpcErr _ text => m_err (Context ctx (AnyhowMsg text))
  end.

(** A streaming call, whose failure is passed on by [?]. *)
Definition rpc_stream {A} (req : Request) (r : RpcOutcome A) : M Net A :=
  conn ← connected;
  m_emit (EvRpc conn req) ;;
  match r with
  | RpcOk reply => mret reply
  | RpcErr _ text => m_err (AnyhowMsg text)
  end.

Definition get_lightd_info {A} (r : RpcOutcome A) : M Net A :=
  rpc_with_context "GetLightdInfo RPC failed" GetLightdInfo r.

Definition rejection_text (error_code : Z) (error_message : string) : string :=
  "broadcast rejected (code " +:+ pretty error_code +:+ "): " +:+ error_message.

Definition send_transaction (tx_bytes : string) (r : RpcOutcome (Z * string)) : M Net unit :=
  '(error_code, error_message) ←
    rpc_with_context "SendTransaction RPC failed" (SendTransaction tx_bytes) r;
  if negb (error_code =? 0) then m_err (AnyhowMsg (rejection_text error_code error_message))
  else mret ().

Definition get_latest_block (r : RpcOutcome (Z * string)) : M Net (Z * string) :=
  '(height, hash) ← rpc_with_context "GetLatestBlock RPC failed" GetLatestBlock r;
  if height <=? u32_max then mret (height, hash)
  else m_err (Context ("chain tip height " +:+ uint_to_string height +:+ " exceeds u32::MAX")
                (AnyhowMsg "out of range integral type conversion attempted")).

Definition get_block_range {A} (first last : Z) (r : RpcOutcome A) : M Net A :=
  rpc_stream (GetBlockRange first last) r.
Definition get_tree_state {A} (height : Z) (r : RpcOutcome A) : M Net A :=
  rpc_with_context "GetTreeState RPC failed" (GetTreeState height) r.
Definition get_subtree_roots {A} (start_index shielded_protocol max_entries : Z) (r : RpcOutcome A)
    : M Net A :=
  rpc_stream (GetSubtreeRoots start_index shielded_protocol max_entries) r.
Definition get_transaction {A} (txid : string) (r : RpcOutcome A) : M Net A :=
  rpc_with_context "GetTransaction RPC failed" (GetTransaction txid) r.
End Calls.

(** Its two calls connect separately. *)
Definition probe_server {A} (tor1 tor2 : Reads) (io1 io2 : NetIo) (info : RpcOutcome A)
    (mempool : RpcOutcome unit) : M Net A :=
  i ← get_lightd_info tor1 io1 info;
  probe_mempool_support tor2 io2 mempool ;;
  mret i.

(** ** http_client.rs *)

Inductive HttpClientError :=
| DirectTransport (e : string)
| FailClosed (e : TransportError)
| TorTransport (e : string)
| Timeout
| InvalidUrl (e : string)
| InvalidBody (e : string).

Section Http.
Context {B : Type}.    (* [serde_json::Value] *)

Record JsonResponse := mkJsonResponse {
  jr_status : Z;
  jr_body : B;
  jr_retry_after : option Z;         (* seconds *)
}.

(** A response before its body is read, with its [retry-after] header. *)
Inductive TorHttp := ThTimeout | ThFailed (e : string) | ThOk (status : Z) (retry : option string) (body : B).
Record HttpIo := mkHttpIo {
  hi_direct : string + (Z * option string * (string + B));
  hi_uri : string + unit;
  hi_payload : string + unit;        (* [serde_json::to_vec] *)
  hi_tor : string -> TorHttp;
}.

Definition parse_retry_after (header : option string) : option Z :=
  s ← header; parse_uint u64_max s.

(** The effect on the log and the result. *)
Definition http_direct (url : string) (io : HttpIo) (log : list NetEvent)
    : (HttpClientError + JsonResponse) * list NetEvent :=
  (match hi_direct io with
   | inl e => inl (DirectTransport e)
   | inr (status, retry, body) =>
       match body with
       | inl e => inl (DirectTransport e)
       | inr b => inr (mkJsonResponse status b (parse_retry_after retry))
       end
   end, (log ++ [EvHttp Direct url])%list).

Definition http_tor (client url : string) (io : HttpIo) (log : list NetEvent)
    : (HttpClientError + JsonResponse) * list NetEvent :=
  (match hi_tor io client with
   | ThTimeout => inl Timeout
   | ThFailed e => inl (TorTransport e)
   | ThOk status retry body => inr (mkJsonResponse status body (parse_retry_after retry))
   end, (log ++ [EvHttp (ViaTor client) url])%list).

Definition get_json (tor : Reads) (url : string) (io : HttpIo) (log : list NetEvent)
    : (HttpClientError + JsonResponse) * list NetEvent :=
  match select tor with
  | inl e => (inl (FailClosed e), log)
  | inr Direct => http_direct url io log
  | inr (ViaTor client) =>
      match hi_uri io with
      | inl e => (inl (InvalidUrl e), log)
      | inr _ => http_tor client url io log
      end
  end.

Definition post_json (tor : Reads) (url : string) (io : HttpIo) (log : list NetEvent)
    : (HttpClientError + JsonResponse) * list NetEvent :=
  match select tor with
  | inl e => (inl (FailClosed e), log)
  | inr Direct => http_direct url io log
  | inr (ViaTor client) =>
      match hi_uri io, hi_payload io with
      | inl e, _ => (inl (InvalidUrl e), log)
      | inr _, inl e => (inl (InvalidBody e), log)
      | inr _, inr _ => http_tor client url io log
      end
  end.
End Http.
Arguments JsonResponse : clear implicits. Arguments HttpIo : clear implicits.
Arguments TorHttp : clear implicits.

(** ** Failing closed *)

(** What a selection from [tor] may let out: direct traffic only when the
    manager it read was disabled, Tor traffic only through the client of an
    enabled manager whose status is [On]. *)
Definition allowed (tor : Reads) (e : NetEvent) : Prop :=
  let direct := match tor with None => True | Some (m1, _) => tor_enabled (tm_state m1) = false end in
  let via c := match tor with
               | None => False
               | Some (m1, m2) => tor_enabled (tm_state m1) = true /\ tor_status (tm_state m1) = TorStatus.On
                                  /\ tor_enabled (tm_state m2) = true /\ tor_status (tm_state m2) = TorStatus.On
                                  /\ tm_client m2 = Some c
               end in
  match e with
  | EvConnect | EvRpc (DirectChannel _) _ | EvHttp Direct _ => direct
  | EvTorConnect c | EvRpc (TorChannel c) _ | EvHttp (ViaTor c) _ => via c
  end.

Lemma select_allowed tor t :
  select tor = inr t ->
  match t with
  | Direct => allowed tor EvConnect
  | ViaTor c => allowed tor (EvTorConnect c)
  end.
Proof.
  destruct tor as [[m1 m2]|]; simpl; [|by intros [= <-]].
  destruct (tor_enabled (tm_state m1)) eqn:E1; simpl; [|by intros [= <-]].
  case_bool_decide as E2; simpl; [|done]. unfold tor_client.
  destruct (tor_enabled (tm_state m2)) eqn:E3; simpl; [|done].
  case_bool_decide as E4; simpl; [|done]. destruct (tm_client m2) eqn:E5; [|done].
  intros [= <-]. done.
Qed.

(** The log only grows, by events of [P]. *)
Definition emits (P : NetEvent -> Prop) (n n' : Net) : Prop :=
  exists new, net_log n' = (net_log n ++ new)%list /\ Forall P new.

#[export] Instance emits_preorder P : PreOrder (emits P).
Proof.
  split.
  - intros n. exists []. by rewrite app_nil_r.
  - intros n1 n2 n3 (l1 & H1 & F1) (l2 & H2 & F2). exists (l1 ++ l2)%list.
    rewrite H2, H1, app_assoc. split; [done|]. by apply Forall_app.
Qed.

Lemma m_emit_emits (P : NetEvent -> Prop) e : P e -> m_pres (emits P) (m_emit e).
Proof. intros He n. exists [e]. simpl. auto. Qed.

Lemma m_set_channel_emits (P : NetEvent -> Prop) c : m_pres (emits P) (m_set_channel c).
Proof. intros n. exists []. simpl. by rewrite app_nil_r. Qed.

Lemma emits_weaken (P Q : NetEvent -> Prop) {A} (m : M Net A) :
  (forall e, P e -> Q e) -> m_pres (emits P) m -> m_pres (emits Q) m.
Proof. intros H Hm n. destruct (Hm n) as (l & Hl & F). exists l. split; [done|]. by eapply Forall_impl. Qed.

Lemma get_client_emits tor io : m_pres (emits (allowed tor)) (get_client tor io).
Proof.
  unfold get_client, get_direct_channel. destruct (select tor) as [e|[|c]] eqn:E.
  - m_pres_auto.
  - apply select_allowed in E. m_pres_auto; by (apply m_emit_emits || apply m_set_channel_emits).
  - apply select_allowed in E. m_pres_auto. by apply m_emit_emits.
Qed.

(** A connection in hand is one the selection allowed. *)
Lemma get_client_conn tor io n conn n' req :
  get_client tor io n = (Ok conn, n') -> allowed tor (EvRpc conn req).
Proof.
  unfold get_client. destruct (select tor) as [e|[|c]] eqn:E; intros H.
  - by apply m_err_Ok in H.
  - apply select_allowed in E. rewrite m_bind_eq in H. destruct (get_direct_channel io n) as [[ch|] n1]; [|done].
    injection H as <- _. exact E.
  - apply select_allowed in E. destruct (ni_endpoint io); [by apply m_err_Ok in H|].
    rewrite m_bind_eq in H. unfold m_emit, m_modify in H.
    destruct (ni_tor io c); [by apply m_err_Ok in H|by apply m_err_Ok in H|]. injection H as <- _. exact E.
Qed.

Lemma connected_conn tor io n conn n' req :
  connected tor io n = (Ok conn, n') -> allowed tor (EvRpc conn req).
Proof.
  unfold connected, m_context. destruct (get_client tor io n) as [[c|] n1] eqn:E; [|done].
  intros [= <- _]. by eapply get_client_conn.
Qed.

(** Connecting, the call, and what is made of its outcome. *)
Lemma rpc_emits {A} tor io req (k : Connection -> M Net A) :
  (forall conn, m_pres (emits (allowed tor)) (k conn)) ->
  m_pres (emits (allowed tor)) (conn ← connected tor io; m_emit (EvRpc conn req) ;; k conn).
Proof.
  intros Hk. apply (m_pres_bind_post _ _ _ (fun conn _ => allowed tor (EvRpc conn req))).
  - apply m_pres_context, get_client_emits.
  - intros n conn n' H. by eapply connected_conn.
  - intros conn n Hc. apply (m_pres_bind (emits (allowed tor))); [by apply m_emit_emits|intros _; apply Hk].
Qed.

Lemma rpc_with_context_emits {A} tor io ctx req (r : RpcOutcome A) :
  m_pres (emits (allowed tor)) (rpc_with_context tor io ctx req r).
Proof. apply rpc_emits. intros _. m_pres_auto. Qed.
Lemma rpc_stream_emits {A} tor io req (r : RpcOutcome A) :
  m_pres (emits (allowed tor)) (rpc_stream tor io req r).
Proof. apply rpc_emits. intros _. m_pres_auto. Qed.
Lemma probe_mempool_emits tor io r : m_pres (emits (allowed tor)) (probe_mempool_support tor io r).
Proof. apply rpc_emits. intros _. m_pres_auto. Qed.
#[export] Hint Resolve rpc_with_context_emits rpc_stream_emits probe_mempool_emits : zbag.

(** ** The calls of both clients *)

Inductive NetCall :=
| CProbeMempool (r : RpcOutcome unit)
| CLightdInfo (r : RpcOutcome string)
| CSendTransaction (tx_bytes : string) (r : RpcOutcome (Z * string))
| CLatestBlock (r : RpcOutcome (Z * string))
| CBlockRange (first last : Z) (r : RpcOutcome string)
| CTreeState (height : Z) (r : RpcOutcome string)
| CSubtreeRoots (start_index shielded_protocol max_entries : Z) (r : RpcOutcome string)
| CTransaction (txid : string) (r : RpcOutcome string)
| CGetJson (url : string) (io : HttpIo string)
| CPostJson (url : string) (io : HttpIo string).

(** A JSON request as a call on [Net]; [None] when it succeeds. *)
Definition http_call (f : list NetEvent -> (HttpClientError + JsonResponse string) * list NetEvent)
    : M Net (option HttpClientError) := fun n =>
  let '(r, log) := f (net_log n) in
  (Ok match r with inl e => Some e | inr _ => None end, mkNet (net_channel n) log).

Definition answered {A} (m : M Net A) : M Net (option HttpClientError) := m ;; mret None.

Definition net_call (tor : Reads) (io : NetIo) (c : NetCall) : M Net (option HttpClientError) :=
  match c with
  | CProbeMempool r => answered (probe_mempool_support tor io r)
  | CLightdInfo r => answered (get_lightd_info tor io r)
  | CSendTransaction tx r => answered (send_transaction tor io tx r)
  | CLatestBlock r => answered (get_latest_block tor io r)
  | CBlockRange a b r => answered (get_block_range tor io a b r)
  | CTreeState h r => answered (get_tree_state tor io h r)
  | CSubtreeRoots i p k r => answered (get_subtree_roots tor io i p k r)
  | CTransaction t r => answered (get_transaction tor io t r)
  | CGetJson url hio => http_call (get_json tor url hio)
  | CPostJson url hio => http_call (post_json tor url hio)
  end.

(** A call that says it could not use the network. *)
Definition failed (r : result (option HttpClientError)) : bool :=
  match r with Ok None => false | _ => true end.

Lemma http_call_emits P f :
  (forall log, exists new, (f log).2 = (log ++ new)%list /\ Forall P new) -> m_pres (emits P) (http_call f).
Proof.
  intros H n. unfold http_call. destruct (H (net_log n)) as (new & Hn & F). destruct (f (net_log n)) as [r log].
  exists new. simpl in *. by subst.
Qed.

Lemma get_json_emits {B} tor url (io : HttpIo B) log :
  exists new, (get_json tor url io log).2 = (log ++ new)%list /\ Forall (allowed tor) new.
Proof.
  unfold get_json, http_direct, http_tor. destruct (select tor) as [e|[|c]] eqn:E; simpl.
  - exists []. by rewrite app_nil_r.
  - exists [EvHttp Direct url]. split; [done|]. repeat constructor. by apply (select_allowed _ Direct).
  - apply select_allowed in E. destruct (hi_uri io); simpl; [exists []; by rewrite app_nil_r|].
    exists [EvHttp (ViaTor c) url]. split; [done|]. by repeat constructor.
Qed.

Lemma post_json_emits {B} tor url (io : HttpIo B) log :
  exists new, (post_json tor url io log).2 = (log ++ new)%list /\ Forall (allowed tor) new.
Proof.
  pose proof (get_json_emits tor url io log) as H. revert H. unfold post_json, get_json.
  destruct (select tor) as [e|[|c]]; [done|done|]. destruct (hi_uri io), (hi_payload io); try done.
  intros _. exists []. by rewrite app_nil_r.
Qed.

Lemma net_call_emits tor io c : m_pres (emits (allowed tor)) (net_call tor io c).
Proof.
  destruct c; simpl; unfold answered, get_lightd_info, send_transaction, get_latest_block, get_block_range,
    get_tree_state, get_subtree_roots, get_transaction;
    try (m_pres_auto; fail); apply http_call_emits; intros log; [apply get_json_emits|apply post_json_emits].
Qed.

Lemma net_call_fails tor io e c n :
  select tor = inl e -> failed (net_call tor io c n).1 = true /\ (net_call tor io c n).2 = n.
Proof.
  intros E. assert (forall n, connected tor io n
                    = (Err (Context "failed to connect" (AnyhowMsg (transport_error_text e))), n)) as Hc
    by (intros n0; unfold connected, m_context, get_client; by rewrite E).
  destruct n as [ch log]. destruct c; simpl; unfold answered, probe_mempool_support, get_lightd_info,
    send_transaction, get_latest_block, get_block_range, get_tree_state, get_subtree_roots, get_transaction,
    rpc_with_context, rpc_stream;
    try (rewrite !m_bind_eq, Hc; done); unfold http_call, get_json, post_json; by rewrite E.
Qed.

Lemma select_reachable w :
  reachable w ->
  select (Some (tw_mgr w, tw_mgr w)) =
    let s := tm_state (tw_mgr w) in
    if negb (tor_enabled s) then inr Direct
    else match tor_status s, tm_client (tw_mgr w) with
         | TorStatus.On, Some c => inr (ViaTor c)
         | _, _ => inl (TorNotReady (tor_status s) (tor_last_error s))
         end.
Proof.
  intros Hr. pose proof (proj1 (ok_on _ (reachable_ok w Hr))) as Hon. simpl. unfold tor_client.
  destruct (tor_enabled (tm_state (tw_mgr w))); simpl; [|done].
  destruct (tor_status (tm_state (tw_mgr w))); simpl; try done.
Qed.

(** C18. The clients fail closed.  Every call sends only what its own selection
    of a transport allows: direct traffic only if Tor was read as disabled
    (or is not there), Tor traffic only through the client of an enabled
    manager that is [On]; a cached direct channel never changes that.  When
    the selection fails, the call fails without sending anything and leaves
    the cache alone.  And for a manager in a reachable state, the selection is
    exactly the state's: direct if disabled, the client if [On], an error
    otherwise. *)
Theorem transport_fails_closed (tor : Reads) (io : NetIo) (c : NetCall) :
  m_pres (emits (allowed tor)) (net_call tor io c)
  /\ (forall e n, select tor = inl e -> failed (net_call tor io c n).1 = true /\ (net_call tor io c n).2 = n)
  /\ (forall w, reachable w ->
        select (Some (tw_mgr w, tw_mgr w)) =
          let s := tm_state (tw_mgr w) in
          if negb (tor_enabled s) then inr Direct
          else match tor_status s, tm_client (tw_mgr w) with
               | TorStatus.On, Some c => inr (ViaTor c)
               | _, _ => inl (TorNotReady (tor_status s) (tor_last_error s))
               end).
Proof.
  split; [apply net_call_emits|]. split; [|apply select_reachable].
  intros e n. apply net_call_fails.
Qed.

(** Neither does a retry leak: when the first connection fails,
    [get_client_with_retry] drops the cached channel and selects afresh, and
    what it sends is allowed by one of its two selections; [probe_server]
    likewise.  After a failed attempt that is retried, a direct connection in
    hand is the new one, never the cached channel. *)
Theorem retry_fails_closed (debug : error -> string) (tor1 tor2 : Reads) (io1 io2 : NetIo) :
  m_pres (emits (fun e => allowed tor1 e \/ allowed tor2 e)) (get_client_with_retry debug tor1 tor2 io1 io2)
  /\ (forall r mempool, m_pres (emits (fun e => allowed tor1 e \/ allowed tor2 e))
        (probe_server (A := string) tor1 tor2 io1 io2 r mempool))
  /\ (forall n err n1, get_client tor1 io1 n = (Err err, n1) ->
        get_client_with_retry debug tor1 tor2 io1 io2 n
        = if is_connection_error debug err then get_client tor2 io2 (mkNet None (net_log n1))
          else (Err err, n1)).
Proof.
  assert (forall A (m : M Net A), m_pres (emits (allowed tor1)) m ->
            m_pres (emits (fun e => allowed tor1 e \/ allowed tor2 e)) m) as H1
    by (intros; eapply emits_weaken; [|done]; auto).
  assert (forall A (m : M Net A), m_pres (emits (allowed tor2)) m ->
            m_pres (emits (fun e => allowed tor1 e \/ allowed tor2 e)) m) as H2
    by (intros; eapply emits_weaken; [|done]; auto).
  split_and!.
  - unfold get_client_with_retry, reset_connection. m_pres_auto;
      [apply H1, get_client_emits|apply m_set_channel_emits|apply H2, get_client_emits].
  - intros r mempool. unfold probe_server, get_lightd_info. m_pres_auto.
  - intros n err n1 H. unfold get_client_with_retry. rewrite m_bind_eq. unfold m_try. rewrite H. simpl.
    by destruct (is_connection_error debug err).
Qed.

(** ** What the retry policy makes of a failed send *)

Lemma rejection_class code msg :
  classify_broadcast_error_message (rejection_text code msg)
  = if is_effective_success_broadcast_error (rejection_text code msg)
    then BroadcastErrorClass.TransientServer else BroadcastErrorClass.Terminal.
Proof.
  unfold classify_broadcast_error_message, is_effective_success_broadcast_error,
    is_benign_duplicate_relay_message. destruct (is_benign_duplicate_relay_message_lowercase _); [done|].
  replace (contains_any _ terminal_patterns) with true; done.
Qed.

Lemma rpc_failure_class text :
  let message := "SendTransaction RPC failed: " +:+ text in
  classify_broadcast_error_message message <> BroadcastErrorClass.Unknown.
Proof.
  intros message. unfold classify_broadcast_error_message. repeat case_match; try done.
  assert (contains_any (to_lowercase message) server_patterns = true) as Hs; [|congruence].
  unfold contains_any, server_patterns. cbn [existsb]. do 3 (apply orb_true_iff; right).
  apply orb_true_iff. left. apply contains_prefix. reflexivity.
Qed.

(** What a failed [send_transaction] means to the retry policy: a send
    refused because Tor is not ready is a transient transport error, so it is
    queued and retried; a rejection by the node is terminal, except when the
    node says that it has the transaction already, which counts as a success;
    a failed call is never left unclassified. *)
Theorem send_outcome_classified (tor : Reads) (io : NetIo) (tx : string) (n : Net) :
  (forall e r, select tor = inl e -> exists err,
     send_transaction tor io tx r n = (Err err, n)
     /\ classify_broadcast_error_message (error_chain err) = BroadcastErrorClass.TransientTransport)
  /\ (forall conn n1 code msg, connected tor io n = (Ok conn, n1) ->
       exists n2, net_log n2 = (net_log n1 ++ [EvRpc conn (SendTransaction tx)])%list
       /\ send_transaction tor io tx (RpcOk (code, msg)) n
          = (if code =? 0 then Ok () else Err (AnyhowMsg (rejection_text code msg)), n2)
       /\ classify_broadcast_error_message (rejection_text code msg)
          = if is_effective_success_broadcast_error (rejection_text code msg)
            then BroadcastErrorClass.TransientServer else BroadcastErrorClass.Terminal)
  /\ (forall conn n1 c text, connected tor io n = (Ok conn, n1) -> exists err n2,
       send_transaction tor io tx (RpcErr c text) n = (Err err, n2)
       /\ classify_broadcast_error_message (error_chain err) <> BroadcastErrorClass.Unknown).
Proof.
  unfold send_transaction, rpc_with_context. split_and!.
  - intros e r E. exists (Context "failed to connect" (AnyhowMsg (transport_error_text e))). split.
    + rewrite !m_bind_eq. unfold connected, m_context, get_client. by rewrite E.
    + destruct e as [[] le]; reflexivity.
  - intros conn n1 code msg H. eexists (mkNet (net_channel n1) _). split; [simpl; reflexivity|]. split; [|apply rejection_class].
    rewrite !m_bind_eq, H. simpl. by destruct (code =? 0).
  - intros conn n1 c text H. exists (Context "SendTransaction RPC failed" (AnyhowMsg text)). eexists. split.
    + rewrite !m_bind_eq, H. simpl. reflexivity.
    + apply rpc_failure_class.
Qed.
