(* ===== verification/OneClick.v ===== *)
(** The client of the 1Click API ([zbag-network/src/near_intents.rs]): its
    requests over the JSON client of [NetClients], and the parsing of its
    answers into the data that [Swaps] works on.

    A JSON document is a [Value], as [serde_json] has it; the numbers of
    [serde_json], the URL parser, the parser of RFC 3339 times and the printer
    of documents are parameters. *)
From S2P Require Import Prelude Text Domain Tor NetClients Swaps.
#[local] Open Scope list_scope.

Definition DEFAULT_BASE_URL : string := "https://1click.chaindefuser.com".

Section Json.
Context {Num F : Type} (as_u64_num : Num -> option Z) (as_f64_num : Num -> option F).

Inductive Value :=
| Null
| Boolean (b : bool)
| Number (n : Num)
| Str (s : string)
| Array (l : list Value)
| Object (fields : list (string * Value)).

(** [Value::get] of a key: nothing where it is no object. *)
Definition get (key : string) (v : Value) : option Value :=
  match v with
  | Object fields => snd <$> find_first (fun kv => bool_decide (kv.1 = key)) fields
  | _ => None
  end.
Definition as_str (v : Value) : option string := match v with Str s => Some s | _ => None end.
Definition as_u64 (v : Value) : option Z := match v with Number n => as_u64_num n | _ => None end.
Definition as_f64 (v : Value) : option F := match v with Number n => as_f64_num n | _ => None end.
Definition as_array (v : Value) : option (list Value) := match v with Array l => Some l | _ => None end.

(** [v.get(key).and_then(|v| v.as_str())]. *)
Definition get_str (key : string) (v : Value) : option string := get key v ≫= as_str.

Definition ok_or_invalid {A} (o : option A) (what : string) : NearIntentsError + A :=
  match o with Some a => inr a | None => inl (InvalidResponse what) end.

Notation "x <-? o | what ; k" := (match ok_or_invalid o what with inl e => inl e | inr x => k end)
  (at level 200, o at level 99, what at level 99, k at level 200, right associativity, only parsing).

Context (parse_rfc3339 : string -> option Z).    (* [timestamp_millis] *)

Definition parse_quote_response (body : Value) : NearIntentsError + QuoteResponse :=
  quote <-? get "quote" body | "missing quote object";
  correlation_id <-? get_str "correlationId" body | "missing correlationId";
  amount_in <-? get_str "amountIn" quote | "missing quote.amountIn";
  amount_in_formatted <-? get_str "amountInFormatted" quote | "missing quote.amountInFormatted";
  let amount_in_usd := default "0" (get_str "amountInUsd" quote) in
  let min_amount_in := default amount_in (get_str "minAmountIn" quote) in
  amount_out <-? get_str "amountOut" quote | "missing quote.amountOut";
  amount_out_formatted <-? get_str "amountOutFormatted" quote | "missing quote.amountOutFormatted";
  let amount_out_usd := default "0" (get_str "amountOutUsd" quote) in
  let min_amount_out := default amount_out (get_str "minAmountOut" quote) in
  let time_estimate_secs := default 120 (get "timeEstimate" quote ≫= as_u64) in
  let deadline_iso := get_str "deadline" quote in
  let deadline_ms := deadline_iso ≫= parse_rfc3339 in
  let time_when_inactive_iso := get_str "timeWhenInactive" quote in
  let deposit_address := get_str "depositAddress" quote in
  let deposit_memo := get_str "depositMemo" quote in
  inr (mkQuoteResponse amount_in amount_in_formatted amount_in_usd min_amount_in
         amount_out amount_out_formatted amount_out_usd min_amount_out
         deadline_iso deadline_ms time_when_inactive_iso time_estimate_secs
         deposit_address deposit_memo correlation_id).

(** [DepositSubmitResponse] is its [success] field. *)
Definition parse_deposit_submit_response (_ : Value) : NearIntentsError + bool := inr true.

Definition remote_status (raw : string) : RemoteStatus :=
  if bool_decide (raw = "PENDING_DEPOSIT") then PendingDeposit
  else if bool_decide (raw = "KNOWN_DEPOSIT_TX") then KnownDepositTx
  else if bool_decide (raw = "INCOMPLETE_DEPOSIT") then IncompleteDeposit
  else if bool_decide (raw = "PROCESSING") then Processing
  else if bool_decide (raw = "SUCCESS") then Success
  else if bool_decide (raw = "REFUNDED") then RemoteRefunded
  else if bool_decide (raw = "FAILED") then RemoteFailed
  else UnknownStatus raw.

Definition parse_status_response (body : Value) : NearIntentsError + StatusResponse :=
  inr (mkStatusResponse (remote_status (default "UNKNOWN" (get_str "status" body))) (get_str "message" body)).

(** The price stays an opaque [f64]. *)
Record TokenInfo := mkTokenInfo {
  ti_asset_id : string; ti_symbol : string; ti_chain : string; ti_decimals : Z;
  ti_usd_price : option F; ti_icon : option string;
}.

Definition or_else {A} (a b : option A) : option A := match a with Some x => Some x | None => b end.

Definition parse_token (item : Value) : option TokenInfo :=
  let asset_id := default "" (or_else (get "assetId" item) (get "defuseAssetId" item) ≫= as_str) in
  if is_empty asset_id then None
  else
    Some (mkTokenInfo asset_id
            (default "" (get_str "symbol" item))
            (default "" (or_else (get "blockchain" item) (get "chain" item) ≫= as_str))
            (default 0 (d ← get "decimals" item ≫= as_u64; if d <=? u8_max then Some d else None))
            (or_else (get "price" item ≫= as_f64) (get "usdPrice" item ≫= as_f64))
            (get_str "icon" item)).

Definition parse_tokens_response (body : Value) : NearIntentsError + list TokenInfo :=
  arr <-? as_array body | "expected array";
  inr (omap parse_token arr).
End Json.
Arguments Value : clear implicits.
Arguments TokenInfo : clear implicits.

(** ** Requests *)

Definition map_http_error (err : NetClients.HttpClientError) : NearIntentsError :=
  match err with
  | NetClients.FailClosed _ => TorNotReady
  | NetClients.DirectTransport e => Transport e
  | NetClients.TorTransport message => Transport message
  | NetClients.Timeout => Transport "timeout"
  | NetClients.InvalidUrl message => InvalidResponse message
  | NetClients.InvalidBody message => InvalidResponse message
  end.

Definition handle_rate_limit (status : Z) (retry_after : option Z) : NearIntentsError + unit :=
  if negb (status =? 429) then inr tt else inl (RateLimited retry_after).

Definition is_success_status (status : Z) : bool := (200 <=? status) && (status <? 300).

Section Client.
Context {Num F : Type} (as_u64_num : Num -> option Z) (as_f64_num : Num -> option F)
        (parse_rfc3339 : string -> option Z) (to_string : Value Num -> string)
        (url_parse : string -> option string) (append_pairs : string -> list (string * string) -> string)
        (base_url : string).

(** What a call sends is in the log of [NetClients]; [A] is what it answers. *)
Abbreviation Answer A := ((NearIntentsError + A) * list NetClients.NetEvent)%type.
Abbreviation Response := (NetClients.JsonResponse (Value Num)).
Abbreviation Io := (NetClients.HttpIo (Value Num)).

Definition api_url (path : string) : NearIntentsError + string :=
  match url_parse (base_url +:+ path) with
  | Some url => inr url
  | None => inl (InvalidResponse "invalid base url")
  end.

(** The request, its transport errors, and the check for rate limits. *)
Definition exchange (send : list NetClients.NetEvent -> (NetClients.HttpClientError + Response) * list NetClients.NetEvent)
    (log : list NetClients.NetEvent) : Answer Response :=
  let '(r, log) := send log in
  (match r with
   | inl e => inl (map_http_error e)
   | inr res =>
       match handle_rate_limit (NetClients.jr_status res) (NetClients.jr_retry_after res) with
       | inl e => inl e
       | inr _ => inr res
       end
   end, log).

Definition http_failure (res : Response) : NearIntentsError :=
  Http (NetClients.jr_status res) (to_string (NetClients.jr_body res)).

Definition finish {A} (parse : Value Num -> NearIntentsError + A) (r : Answer Response) : Answer A :=
  (match r.1 with
   | inl e => inl e
   | inr res =>
       if negb (is_success_status (NetClients.jr_status res)) then inl (http_failure res)
       else parse (NetClients.jr_body res)
   end, r.2).

(** A 400 that is worth a second request with a longer waiting time. *)
Definition worth_retry (req : QuoteRequest) (res : Response) : bool :=
  (NetClients.jr_status res =? 400)
  && match get_str "message" (NetClients.jr_body res) with
     | Some m => eq_ignore_ascii_case m "Failed to get quote" || eq_ignore_ascii_case m "No liquidity available"
     | None => false
     end
  && (default 0 (qr_quote_waiting_time_ms req) <? 10000).

Definition patient (req : QuoteRequest) : QuoteRequest :=
  mkQuoteRequest (qr_origin_asset req) (qr_destination_asset req) (qr_amount req) (qr_swap_type req)
    (qr_slippage_tolerance req) (Some 10000) (qr_referral req) (qr_app_fees req) (qr_deposit_type req)
    (qr_refund_to req) (qr_refund_type req) (qr_recipient req) (qr_recipient_type req) (qr_deadline req)
    (qr_dry req).

(** The transport is chosen for each request; the network answers the [i]th
    request as [io i] says.  Also the requests that were made. *)
Definition get_quote (tor : nat -> NetClients.Reads) (io : nat -> QuoteRequest -> Io) (req : QuoteRequest)
    (log : list NetClients.NetEvent) : Answer QuoteResponse * list QuoteRequest :=
  let parse := parse_quote_response as_u64_num parse_rfc3339 in
  match api_url "/v0/quote" with
  | inl e => ((inl e, log), [])
  | inr url =>
      let '(r, log) := exchange (NetClients.post_json (tor 0%nat) url (io 0%nat req)) log in
      match r with
      | inl e => ((inl e, log), [req])
      | inr res =>
          if negb (is_success_status (NetClients.jr_status res)) && worth_retry req res then
            let req' := patient req in
            (finish parse (exchange (NetClients.post_json (tor 1%nat) url (io 1%nat req')) log), [req; req'])
          else (finish parse (inr res, log), [req])
      end
  end.

Definition submit_deposit (tor : NetClients.Reads) (io : Io) (log : list NetClients.NetEvent) : Answer bool :=
  match api_url "/v0/deposit/submit" with
  | inl e => (inl e, log)
  | inr url => finish parse_deposit_submit_response (exchange (NetClients.post_json tor url io) log)
  end.

Definition get_status (tor : NetClients.Reads) (io : Io) (req : StatusRequest) (log : list NetClients.NetEvent)
    : Answer StatusResponse :=
  match api_url "/v0/status" with
  | inl e => (inl e, log)
  | inr url =>
      let url := append_pairs url
                   (("depositAddress", sq_status_address req)
                    :: match sq_status_memo req with Some m => [("depositMemo", m)] | None => [] end) in
      finish parse_status_response (exchange (NetClients.get_json tor url io) log)
  end.

Definition get_supported_tokens (tor : NetClients.Reads) (io : Io) (log : list NetClients.NetEvent)
    : Answer (list (TokenInfo F)) :=
  match api_url "/v0/tokens" with
  | inl e => (inl e, log)
  | inr url => finish (parse_tokens_response as_u64_num as_f64_num) (exchange (NetClients.get_json tor url io) log)
  end.
End Client.

(** ** Theorems *)

Section ClientFacts.
Context {Num F : Type} (as_u64_num : Num -> option Z) (as_f64_num : Num -> option F)
        (parse_rfc3339 : string -> option Z) (to_string : Value Num -> string)
        (url_parse : string -> option string) (append_pairs : string -> list (string * string) -> string)
        (base_url : string).
Let quote := get_quote as_u64_num parse_rfc3339 to_string url_parse base_url.
Let status := get_status to_string url_parse append_pairs base_url.
Let submit := submit_deposit to_string url_parse base_url.
Let tokens := get_supported_tokens as_u64_num as_f64_num to_string url_parse base_url.









(** Every call under a transport that fails closed. *)
Lemma exchange_fails_closed tor url (io : HttpIo (Value Num)) e log :
  select tor = inl e ->
  exchange (post_json tor url io) log = (inl TorNotReady, log)
  /\ exchange (get_json tor url io) log = (inl TorNotReady, log).
Proof using Type. intros E. unfold exchange, post_json, get_json. by rewrite E. Qed.

Lemma api_url_inl path e : api_url url_parse base_url path = inl e -> e = InvalidResponse "invalid base url".
Proof using Type. unfold api_url. destruct (url_parse _); [done|]. by intros [= <-]. Qed.

(** What the swap service takes from the list of tokens. *)
Definition token_decimals (r : NearIntentsError + list (TokenInfo F)) : NearIntentsError + list (string * Z) :=
  match r with inl e => inl e | inr l => inr (map (fun t => (ti_asset_id t, ti_decimals t)) l) end.

Lemma request_swap_quote_fails to_rfc3339 now_ms ts gq w network intent s :
  (forall req, exists e, gq req = inl e) ->
  is_ok (request_swap_quote to_rfc3339 now_ms ts gq w network intent s).1 = false.
Proof using Type.
  intros Hq. unfold request_swap_quote. destruct (bool_decide _); [done|]. destruct (_ || _); [done|]. rewrite m_bind_eq.
  set (amount := match in_swap_mode intent with SwapMode.ExactInput => _ | SwapMode.ExactOutput => _ end).
  destruct (amount s) as [[[a type]|e'] s1]; [|done].
  rewrite m_bind_eq. unfold m_lift. destruct (required (in_destination_address intent) _) as [r1|]; [|done].
  rewrite m_bind_eq. destruct (required (in_refund_address intent) _) as [r2|]; [|done]. cbv zeta.
  match goal with |- context [gq ?r] => destruct (Hq r) as [e ->] end. by destruct e.
Qed.

(** While Tor is enabled and not ready no call of the 1Click client
    sends anything: a quote, a status, the announcement of a deposit and the
    list of tokens are refused with the error that says so (or with that of a
    malformed base URL), and so the swap service gets no quote. *)
Theorem oneclick_fails_closed (tor : Reads) (e : TransportError) (qio : nat -> QuoteRequest -> HttpIo (Value Num))
    (io : HttpIo (Value Num)) (req : QuoteRequest) (sreq : StatusRequest) (log : list NetEvent)
    (to_rfc3339 : Z -> string) (now_ms : Z) (w : Uuid) (network : Network) (intent : SwapIntent) (s : SwapSvc) :
  select tor = inl e ->
  let closed {A} (a : (NearIntentsError + A) * list NetEvent) :=
    (a.1 = inl TorNotReady \/ a.1 = inl (InvalidResponse "invalid base url")) /\ a.2 = log in
  closed (quote (fun _ => tor) qio req log).1 /\ closed (status tor io sreq log)
  /\ closed (submit tor io log) /\ closed (tokens tor io log)
  /\ is_ok (request_swap_quote to_rfc3339 now_ms (token_decimals (tokens tor io log).1)
              (fun r => (quote (fun _ => tor) qio r log).1.1) w network intent s).1 = false.
Proof using Type.
  intros E closed. assert (forall path, (exists url, api_url url_parse base_url path = inr url)
    \/ api_url url_parse base_url path = inl (InvalidResponse "invalid base url")) as Hu.
  { intros path. destruct (api_url url_parse base_url path) eqn:Eu; [|eauto]. apply api_url_inl in Eu as ->. auto. }
  assert (forall r, (quote (fun _ => tor) qio r log).1 = (inl TorNotReady, log)
    \/ (quote (fun _ => tor) qio r log).1 = (inl (InvalidResponse "invalid base url"), log)) as Hq.
  { intros r. unfold quote, get_quote. destruct (Hu "/v0/quote") as [[url ->]| ->]; [|auto].
    rewrite (proj1 (exchange_fails_closed tor url _ e log E)). auto. }
  unfold closed, status, get_status, submit, submit_deposit, tokens, get_supported_tokens.
  split; [|split; [|split; [|split]]].
  - by destruct (Hq req) as [-> | ->]; auto.
  - destruct (Hu "/v0/status") as [[url ->]| ->]; [|auto].
    rewrite (proj2 (exchange_fails_closed tor _ io e log E)). simpl. auto.
  - destruct (Hu "/v0/deposit/submit") as [[url ->]| ->]; [|auto].
    rewrite (proj1 (exchange_fails_closed tor _ io e log E)). simpl. auto.
  - destruct (Hu "/v0/tokens") as [[url ->]| ->]; [|auto].
    rewrite (proj2 (exchange_fails_closed tor _ io e log E)). simpl. auto.
  - apply request_swap_quote_fails. intros r. destruct (Hq r) as [-> | ->]; eauto.
Qed.
End ClientFacts.

(** ** Documents *)

Section Documents.
Context {Num F : Type} (as_u64_num : Num -> option Z) (as_f64_num : Num -> option F)
        (parse_rfc3339 : string -> option Z).

Definition field (key : string) (o : option (Value Num)) : list (string * Value Num) :=
  match o with Some v => [(key, v)] | None => [] end.
Definition str_field (key : string) (o : option string) : list (string * Value Num) := field key (Str <$> o).

(** The document of a quote, as the API describes it. *)
Definition quote_document (q : QuoteResponse) (time_estimate : Num) : Value Num :=
  Object [("quote", Object (
    [("amountIn", Str (qp_amount_in q)); ("amountInFormatted", Str (qp_amount_in_formatted q));
     ("amountInUsd", Str (qp_amount_in_usd q)); ("minAmountIn", Str (qp_min_amount_in q));
     ("amountOut", Str (qp_amount_out q)); ("amountOutFormatted", Str (qp_amount_out_formatted q));
     ("amountOutUsd", Str (qp_amount_out_usd q)); ("minAmountOut", Str (qp_min_amount_out q));
     ("timeEstimate", Number time_estimate)]
    ++ str_field "deadline" (qp_deadline_iso q)
    ++ str_field "timeWhenInactive" (qp_time_when_inactive_iso q)
    ++ str_field "depositAddress" (qp_deposit_address q)
    ++ str_field "depositMemo" (qp_deposit_memo q)));
   ("correlationId", Str (qp_correlation_id q))].

(** The document of a quote parses to that quote, whichever of its
    optional fields it has; in particular a deposit address or memo is never
    made up, dropped or taken from another field. *)
Theorem quote_document_roundtrip (q : QuoteResponse) (time_estimate : Num) :
  qp_deadline_ms q = qp_deadline_iso q ≫= parse_rfc3339 ->
  as_u64_num time_estimate = Some (qp_time_estimate_secs q) ->
  parse_quote_response as_u64_num parse_rfc3339 (quote_document q time_estimate) = inr q.
Proof using Type.
  destruct q as [ai aif aiu mai ao aof aou mao iso ms inactive secs addr memo cid]. simpl. intros -> E.
  unfold parse_quote_response, quote_document, get_str. simpl. rewrite E.
  by destruct iso, inactive, addr, memo.
Qed.

(** A quote is refused with the name of the first required field that is
    missing, or is no string. *)
Theorem parse_quote_requires (body : Value Num) :
  (exists q, parse_quote_response as_u64_num parse_rfc3339 body = inr q
     /\ get_str "correlationId" body = Some (qp_correlation_id q))
  \/ parse_quote_response as_u64_num parse_rfc3339 body = inl (InvalidResponse "missing quote object")
     /\ get "quote" body = None
  \/ parse_quote_response as_u64_num parse_rfc3339 body = inl (InvalidResponse "missing correlationId")
     /\ get_str "correlationId" body = None
  \/ exists quote key, get "quote" body = Some quote
     /\ key ∈ ["amountIn"; "amountInFormatted"; "amountOut"; "amountOutFormatted"]
     /\ get_str key quote = None
     /\ parse_quote_response as_u64_num parse_rfc3339 body = inl (InvalidResponse ("missing quote." +:+ key)).
Proof using Type.
  unfold parse_quote_response. destruct (get "quote" body) as [v|]; simpl; [|auto].
  destruct (get_str "correlationId" body) as [cid|]; simpl; [|auto].
  destruct (get_str "amountIn" v) eqn:E1; simpl; [|right; right; right; exists v, "amountIn"; set_solver].
  destruct (get_str "amountInFormatted" v) eqn:E2; simpl; [|right; right; right; exists v, "amountInFormatted"; set_solver].
  destruct (get_str "amountOut" v) eqn:E3; simpl; [|right; right; right; exists v, "amountOut"; set_solver].
  destruct (get_str "amountOutFormatted" v) eqn:E4; simpl; [|right; right; right; exists v, "amountOutFormatted"; set_solver].
  left. eauto.
Qed.

(** Whatever the provider answers, a status is read; a swap is taken as
    confirming, failed or refunded only on exactly the words for it, and an
    answer without a status, or with an unknown one, leaves it pending. *)
Theorem status_needs_its_word (body : Value Num) :
  exists s, parse_status_response body = inr s
    /\ match map_remote_status_to_local_state (sr_status s) with
       | SwapState.Confirming => get_str "status" body = Some "SUCCESS"
       | SwapState.Refunded => get_str "status" body = Some "REFUNDED"
       | SwapState.Failed => get_str "status" body = Some "FAILED" \/ get_str "status" body = Some "INCOMPLETE_DEPOSIT"
       | SwapState.AwaitingDeposit => get_str "status" body = Some "PENDING_DEPOSIT"
       | SwapState.Pending => get_str "status" body <> Some "SUCCESS"
       | _ => False
       end.
Proof using Type.
  eexists. split; [done|]. simpl. destruct (get_str "status" body) as [raw|]; simpl; [|done].
  unfold remote_status. repeat case_bool_decide; subst; simpl; auto. by intros [= ->].
Qed.

(** The tokens keep their order, none has an empty id, and the decimals fit
    a byte. *)
Theorem parsed_tokens_usable (items : list (Value Num)) (l : list (TokenInfo F)) :
  (forall n d, as_u64_num n = Some d -> 0 <= d) ->
  parse_tokens_response as_u64_num as_f64_num (Array items) = inr l ->
  l = omap (parse_token as_u64_num as_f64_num) items
  /\ Forall (fun t => ti_asset_id t <> "" /\ 0 <= ti_decimals t <= u8_max) l.
Proof using Type.
  intros Hu. unfold parse_tokens_response. simpl. intros [= <-]. split; [done|].
  apply Forall_forall. intros t (item & _ & Ht)%list_elem_of_omap. unfold parse_token in Ht.
  destruct (is_empty _) eqn:Ee; [done|]. injection Ht as <-. simpl. split.
  - intros E. rewrite E in Ee. done.
  - unfold u8_max. destruct (get "decimals" item ≫= as_u64 as_u64_num) as [d|] eqn:Ed; simpl; [|lia].
    apply bind_Some in Ed as (v & _ & Hv). destruct v; try done. apply Hu in Hv.
    destruct (Z.leb_spec d 255); simpl; lia.
Qed.
End Documents.

(** ** Concrete answers *)

Definition demo_quote : QuoteResponse :=
  mkQuoteResponse "100000000" "1" "35" "99000000" "35000000" "35" "35" "34650000"
    (Some "2026-01-09T12:00:00Z") (Some 1767960000000) None 120 (Some "t1abc") None "c-1".

Lemma quote_document_roundtrip_witness :
  parse_quote_response (fun n : Z => Some n) (fun _ => Some 1767960000000) (quote_document demo_quote 120) = inr demo_quote.
Proof. apply (quote_document_roundtrip (fun n : Z => Some n) (fun _ => Some 1767960000000) demo_quote 120); reflexivity. Defined.

(** A Tor manager that is still connecting, and a network that would answer. *)
Definition demo_reads : Reads :=
  let st := mkTorState true TorStatus.Connecting None in
  let m := mkTorManager st None None None st 0 in Some (m, m).
Definition demo_http : HttpIo (Value Z) :=
  mkHttpIo (inr (200, None, inr (quote_document demo_quote 120))) (inr tt) (inr tt)
    (fun _ => ThOk 200 None (quote_document demo_quote 120)).
Definition demo_quote_request : QuoteRequest :=
  mkQuoteRequest "a" "b" "1" "EXACT_INPUT" 100 (Some 3000) None None "ORIGIN_CHAIN" "r" "ORIGIN_CHAIN" "d"
    "DESTINATION_CHAIN" "2026-01-09T12:00:00Z" false.

Lemma oneclick_fails_closed_witness :
  (get_quote (fun n : Z => Some n) (fun _ => None) (fun _ => "") Some DEFAULT_BASE_URL (fun _ => demo_reads)
     (fun _ _ => demo_http) demo_quote_request []).1.2 = [].
Proof.
  apply (oneclick_fails_closed (F := Z) (fun n : Z => Some n) Some (fun _ => None) (fun _ => "") Some (fun u _ => u)
    DEFAULT_BASE_URL demo_reads (NetClients.TorNotReady TorStatus.Connecting None) (fun _ _ => demo_http) demo_http
    demo_quote_request (mkStatusRequest "t1abc" None) [] (fun _ => "") 0 "w" Network.Mainnet
    (mkSwapIntent SwapType.FromZec SwapMode.ExactInput "zec" "1" "eth" None None None)
    (mkSwapSvc ∅ ∅ ∅ ∅ None)).
  reflexivity.
Defined.

(** Without Tor the second request of a refused quote is answered. *)
Example quote_second_try :
  let refused := mkHttpIo (B := Value Z)
    (inr (400, None, inr (Object [("message", Str "no liquidity available")]))) (inr tt) (inr tt) (fun _ => ThTimeout) in
  let '((r, log), reqs) :=
    get_quote (fun n : Z => Some n) (fun _ => Some 1767960000000) (fun _ => "") Some DEFAULT_BASE_URL (fun _ => None)
      (fun i _ => if (i =? 0)%nat then refused else demo_http) demo_quote_request [] in
  r = inr demo_quote /\ length log = 2%nat /\ reqs = [demo_quote_request; patient demo_quote_request].
Proof. split_and!; reflexivity. Qed.
