(* ===== verification/ExchangeRates.v ===== *)
(** Exchange rates: the service that fetches and caches them
    ([zbag-network/src/exchange_rate.rs], with [is_stale] of
    [zbag-core/src/domain/exchange_rate.rs]) and the commands behind the fiat
    display ([src-tauri/src/exchange_logic.rs]).

    Prices ([f64]) and JSON values are opaque.  An [Instant] is in nanoseconds;
    every reading of a clock is an argument: [mono n] is the [n]-th reading of
    the monotonic clock in a command, [wall n] the wall clock's. *)
From S2P Require Import Prelude Text Domain AppDb Broadcast Tor NetClients.
Open Scope Z_scope.

Definition RATE_LIMIT_SECS : Z := 120.
Definition STALE_THRESHOLD_SECS : Z := 15 * 60.
Definition ns_per_sec : Z := 1000000000.
Definition coingecko_url : string :=
  "https://api.coingecko.com/api/v3/simple/price?ids=zcash&vs_currencies=usd,eur,gbp,chf,cad,aud,jpy".

Section Rates.
Context {B F : Type}.

Record ExchangeRate := mkExchangeRate {
  xr_currency : FiatCurrency;
  xr_price : F;
  xr_fetched_at_ms : Z;
}.

Inductive ExchangeRateError :=
| HttpError (e : HttpClientError)
| ParseError (text : string)
| RateLimited (secs : Z)
| NotAvailable.

Record CoinGeckoPrices := mkCoinGeckoPrices {
  cg_usd : option F; cg_eur : option F; cg_gbp : option F; cg_chf : option F;
  cg_cad : option F; cg_aud : option F; cg_jpy : option F;
}.

Record CachedRate := mkCachedRate { cr_rates : list ExchangeRate; cr_fetched_at : Z }.

(** The service, and what it sent. *)
Record RateService := mkRateService {
  rs_cache : option CachedRate;
  rs_last_fetch : option Z;
  rs_log : list NetEvent;
}.

(** [serde_json::from_value::<CoinGeckoResponse>]: the optional field [zcash]. *)
Context (from_value : B -> string + option CoinGeckoPrices).

(** ** The service *)

Definition is_stale (now_ms : Z) (rate : ExchangeRate) : bool :=
  let age_ms := i64_saturating_sub now_ms (xr_fetched_at_ms rate) in
  15 * 60 * 1000 <? age_ms.

(** [elapsed]: it saturates at zero. *)
Definition elapsed (now t : Z) : Z := Z.max 0 (now - t).

Definition get_cached_rate (s : RateService) (currency : FiatCurrency) : option ExchangeRate :=
  c ← rs_cache s; find_first (fun r => bool_decide (xr_currency r = currency)) (cr_rates c).

Definition is_cache_stale (now : Z) (s : RateService) : bool :=
  match rs_cache s with
  | Some c => STALE_THRESHOLD_SECS * ns_per_sec <? elapsed now (cr_fetched_at c)
  | None => true
  end.

Definition refresh_cooldown_secs (now : Z) (s : RateService) : Z :=
  match rs_last_fetch s with
  | Some t => u64_saturating_sub RATE_LIMIT_SECS (elapsed now t / ns_per_sec)
  | None => 0
  end.

Definition push_rate (now_ms : Z) (currency : FiatCurrency) (price : option F) : list ExchangeRate :=
  match price with Some p => [mkExchangeRate currency p now_ms] | None => [] end.

Definition rates_of (now_ms : Z) (p : CoinGeckoPrices) : list ExchangeRate :=
  (push_rate now_ms FiatCurrency.USD (cg_usd p) ++ push_rate now_ms FiatCurrency.EUR (cg_eur p)
   ++ push_rate now_ms FiatCurrency.GBP (cg_gbp p) ++ push_rate now_ms FiatCurrency.CHF (cg_chf p)
   ++ push_rate now_ms FiatCurrency.CAD (cg_cad p) ++ push_rate now_ms FiatCurrency.AUD (cg_aud p)
   ++ push_rate now_ms FiatCurrency.JPY (cg_jpy p))%list.

Section Command.
Context (mono wall : nat -> Z) (tor : Reads) (io : HttpIo B).

(** The check of the rate limit: [Some] for an early return. *)
Definition fetch_check (force : bool) (s : RateService) : option (ExchangeRateError + list ExchangeRate) :=
  let cooldown := refresh_cooldown_secs (mono 2) s in
  if (0 <? cooldown) && negb force
  then Some match rs_cache s with
            | Some cached => inr (cr_rates cached)
            | None => inl (RateLimited cooldown)
            end
  else None.

(** The attempt's time stamp and the one it replaces. *)
Definition fetch_stamp (force : bool) (s : RateService) : option Z * option Z * RateService :=
  if force then (None, None, s)
  else (Some (mono 3), rs_last_fetch s, mkRateService (rs_cache s) (Some (mono 3)) (rs_log s)).

(** What is done with the outcome of the request. *)
Definition fetch_finish (attempted_at prev : option Z) (r : HttpClientError + JsonResponse B)
    (s : RateService) : (ExchangeRateError + list ExchangeRate) * RateService :=
  match r with
  | inl err =>
      (inl (HttpError err),
       match attempted_at, err with
       | Some t, FailClosed _ =>
           if bool_decide (rs_last_fetch s = Some t) then mkRateService (rs_cache s) prev (rs_log s) else s
       | _, _ => s
       end)
  | inr res =>
      if jr_status res =? 429 then (inl (RateLimited (default 60 (jr_retry_after res))), s)
      else if negb (jr_status res =? 200)
      then (inl (ParseError ("API returned status " +:+ uint_to_string (jr_status res))), s)
      else match from_value (jr_body res) with
           | inl e => (inl (ParseError e), s)
           | inr None => (inl NotAvailable, s)
           | inr (Some prices) =>
               let rates := rates_of (wall 1) prices in
               (inr rates, mkRateService (Some (mkCachedRate rates (mono 4))) (rs_last_fetch s) (rs_log s))
           end
  end.

Definition fetch_rates (force : bool) (s : RateService) : (ExchangeRateError + list ExchangeRate) * RateService :=
  match fetch_check force s with
  | Some early => (early, s)
  | None =>
      let '(attempted_at, prev, s1) := fetch_stamp force s in
      let '(r, log) := get_json tor coingecko_url io (rs_log s1) in
      fetch_finish attempted_at prev r (mkRateService (rs_cache s1) (rs_last_fetch s1) log)
  end.

Definition get_rate (currency : FiatCurrency) (force_refresh : bool) (s : RateService)
    : (ExchangeRateError + ExchangeRate) * RateService :=
  match (if negb force_refresh && negb (is_cache_stale (mono 1) s) then get_cached_rate s currency else None) with
  | Some rate => (inr rate, s)
  | None =>
      let '(r, s') := fetch_rates force_refresh s in
      (match r with
       | inl e => inl e
       | inr rates => match find_first (fun r => bool_decide (xr_currency r = currency)) rates with
                      | Some rate => inr rate
                      | None => inl NotAvailable
                      end
       end, s')
  end.

(** ** exchange_logic.rs *)

Record RateReply := mkRateReply {
  rr_rate : option ExchangeRate;
  rr_is_stale : bool;
  rr_fiat_enabled : bool;
  rr_refresh_cooldown_secs : Z;     (* [u32] *)
}.

Definition as_u32 (n : Z) : Z := n mod 2 ^ 32.

(** [error_text]: the [Display] of the service's error. *)
Definition get_exchange_rate (error_text : ExchangeRateError -> string) (force_refresh : bool)
    : M (AppDb * RateService) RateReply := fun '(db, s) =>
  match get_fiat_settings db with
  | (Err e, db') =>
      (Err (ipc_err errors.INTERNAL_ERROR ("Failed to get fiat settings: " +:+ error_to_string e)), (db', s))
  | (Ok settings, db') =>
      if negb (fs_enabled settings) then (Ok (mkRateReply None true false 0), (db', s))
      else
        let cooldown := as_u32 (refresh_cooldown_secs (mono 0) s) in
        let cached := get_cached_rate s (fs_currency settings) in
        match (r ← cached; if negb (is_stale (wall 0) r) && negb force_refresh then Some r else None) with
        | Some rate => (Ok (mkRateReply (Some rate) false true cooldown), (db', s))
        | None =>
            let '(r, s') := get_rate (fs_currency settings) force_refresh s in
            (match r with
             | inr rate =>
                 Ok (mkRateReply (Some rate) (is_stale (wall 2) rate) true
                       (as_u32 (refresh_cooldown_secs (mono 5) s')))
             | inl (RateLimited secs) =>
                 let cached := get_cached_rate s' (fs_currency settings) in
                 Ok (mkRateReply cached (match cached with Some r => is_stale (wall 2) r | None => false end)
                       true (as_u32 secs))
             | inl e =>
                 match get_cached_rate s' (fs_currency settings) with
                 | Some c => Ok (mkRateReply (Some c) true true (as_u32 (refresh_cooldown_secs (mono 5) s')))
                 | None => Err (ipc_err errors.EXCHANGE_RATE_FETCH_FAILED
                                  ("Failed to fetch exchange rate: " +:+ error_text e))
                 end
             end, (db', s'))
        end
  end.
End Command.
End Rates.
Arguments ExchangeRate : clear implicits. Arguments RateService : clear implicits.
Arguments CoinGeckoPrices : clear implicits. Arguments RateReply : clear implicits.

(** [now]: [system_time_to_unix_ms] of the current time. *)
Definition set_fiat_settings (now : result Z) (enabled : bool) (currency : FiatCurrency)
    (privacy_acknowledged : bool) : M AppDb FiatDisplaySettings :=
  if enabled && negb privacy_acknowledged
  then m_err (ipc_err errors.EXCHANGE_RATE_PRIVACY_ACK_REQUIRED
                "Privacy acknowledgement required to enable fiat display")
  else
    let settings := mkFiatDisplaySettings enabled currency privacy_acknowledged in
    updated_at_ms ← m_lift match now with
                           | Ok t => Ok t
                           | Err e => Err (ipc_err errors.INTERNAL_ERROR ("time error: " +:+ error_to_string e))
                           end;
    upsert_fiat_settings settings updated_at_ms ;;
    mret settings.

(** ** The rate limit *)

Section RateTheory.
Context {B F : Type} (from_value : B -> string + option (CoinGeckoPrices F)).

(** One call of [fetch_rates(false)]: its clock readings, what it read of Tor,
    what the network answered. *)
Record Fetch := mkFetch {
  ft_mono : nat -> Z; ft_wall : nat -> Z; ft_tor : Reads; ft_io : HttpIo B;
}.

Definition run_fetch (f : Fetch) (force : bool) (s : RateService F) :=
  fetch_rates from_value (ft_mono f) (ft_wall f) (ft_tor f) (ft_io f) force s.

(** The times at which requests were sent. *)
Fixpoint requests (l : list Fetch) (s : RateService F) : list Z :=
  match l with
  | [] => []
  | f :: l' =>
      let s' := (run_fetch f false s).2 in
      if bool_decide (length (rs_log s') = length (rs_log s)) then requests l' s'
      else ft_mono f 3%nat :: requests l' s'
  end.

(** The readings of the calls, from [t] on, do not go back. *)
Fixpoint monotone (t : Z) (l : list Fetch) : Prop :=
  match l with
  | [] => True
  | f :: l' => t <= ft_mono f 2%nat <= ft_mono f 3%nat /\ monotone (ft_mono f 3%nat) l'
  end.

(** At least the rate limit lies between a time and the next one. *)
Fixpoint spaced (prev : option Z) (ts : list Z) : Prop :=
  match ts with
  | [] => True
  | t :: ts' => from_option (fun p => p + RATE_LIMIT_SECS * ns_per_sec <= t) True prev /\ spaced (Some t) ts'
  end.

Lemma spaced_weaken p q ts : from_option (fun p => p <= q) True p -> spaced (Some q) ts -> spaced p ts.
Proof using Type. destruct ts as [|t ts]; [done|]. simpl. destruct p; simpl; intros ? []; split; (lia || done). Qed.

(** A call that went past the check: the last stamp is old enough. *)
Lemma fetch_check_passed f (s : RateService F) p :
  fetch_check (ft_mono f) false s = None -> rs_last_fetch s = Some p -> p <= ft_mono f 2%nat ->
  p + RATE_LIMIT_SECS * ns_per_sec <= ft_mono f 2%nat.
Proof using Type.
  unfold fetch_check, refresh_cooldown_secs, u64_saturating_sub, clampZ, elapsed, RATE_LIMIT_SECS, ns_per_sec.
  intros Hc Hp Hle. rewrite Hp in Hc.
  destruct (0 <? _) eqn:E; [done|]. apply Z.ltb_ge in E.
  rewrite (Z.max_r 0 (ft_mono f 2%nat - p)) in E by lia.
  pose proof (Z.mul_div_le (ft_mono f 2%nat - p) 1000000000 ltac:(lia)). unfold u64_max in E. lia.
Qed.

(** What a call does to the stamp and the log. *)
Lemma run_fetch_stamp f s :
  let s' := (run_fetch f false s).2 in
  (rs_last_fetch s' = rs_last_fetch s /\ rs_log s' = rs_log s)
  \/ (fetch_check (ft_mono f) false s = None /\ rs_last_fetch s' = Some (ft_mono f 3%nat)).
Proof using Type.
  unfold run_fetch, fetch_rates. destruct (fetch_check _ _ _); [by left|]. simpl.
  destruct (get_json _ _ _ _) as [r log] eqn:E. unfold fetch_finish.
  destruct r as [err|res]; [|right; split; [done|]; by repeat case_match].
  destruct err; try (by right). left. simpl. rewrite bool_decide_true by done. simpl. split; [done|].
  revert E. unfold get_json, http_direct, http_tor. by repeat case_match; intros; simplify_eq.
Qed.

Lemma requests_spaced t l s :
  monotone t l -> from_option (fun p => p <= t) True (rs_last_fetch s) -> spaced (rs_last_fetch s) (requests l s).
Proof using Type.
  revert t s. induction l as [|f l IH]; intros t s; simpl; [done|]. intros [Ht Hm] Hp.
  destruct (run_fetch_stamp f s) as [[Hl Hlog]|[Hc Hl]].
  - rewrite bool_decide_true by (by rewrite Hlog). rewrite <- Hl. eapply IH; [exact Hm|]. rewrite Hl.
    destruct (rs_last_fetch s); simpl in *; [lia|done].
  - assert (from_option (fun p => p + RATE_LIMIT_SECS * ns_per_sec <= ft_mono f 3%nat) True (rs_last_fetch s)) as Hsp.
    { destruct (rs_last_fetch s) as [p|] eqn:E; simpl in *; [|done].
      pose proof (fetch_check_passed f s p Hc E). lia. }
    pose proof (IH _ (run_fetch f false s).2 Hm ltac:(rewrite Hl; simpl; lia)) as H. rewrite Hl in H.
    case_bool_decide; [|by split]. eapply spaced_weaken; [|exact H].
    unfold RATE_LIMIT_SECS, ns_per_sec in Hsp. destruct (rs_last_fetch s); simpl in *; [lia|done].
Qed.

Lemma fetch_fails_closed f force s e :
  select (ft_tor f) = inl e -> (run_fetch f force s).2 = s.
Proof using Type.
  intros E. unfold run_fetch, fetch_rates. destruct (fetch_check _ _ _); [done|].
  destruct s as [c l lg]. unfold fetch_stamp, get_json. destruct force; simpl; rewrite E; simpl; [done|].
  by rewrite bool_decide_true.
Qed.
End RateTheory.

(** ** Consent *)

Section Consent.
Context {B F : Type} (from_value : B -> string + option (CoinGeckoPrices F)).
Context (error_text : ExchangeRateError -> string).

(** The commands of the fiat display. *)
Inductive FiatCommand :=
| FcSet (now : result Z) (enabled : bool) (currency : FiatCurrency) (privacy_acknowledged : bool)
| FcGetRate (f : @Fetch B) (force_refresh : bool).

Definition fiat_command (c : FiatCommand) (st : AppDb * RateService F) : AppDb * RateService F :=
  match c with
  | FcSet now enabled currency ack => ((set_fiat_settings now enabled currency ack st.1).2, st.2)
  | FcGetRate f force =>
      (get_exchange_rate from_value (ft_mono f) (ft_wall f) (ft_tor f) (ft_io f) error_text force st).2
  end.

Definition fiat_commands (l : list FiatCommand) (st : AppDb * RateService F) : AppDb * RateService F :=
  foldl (fun st c => fiat_command c st) st l.

(** A stored row that enables the display records the acknowledgement. *)
Definition consent (db : AppDb) : Prop :=
  forall row, adb_fiat db = Some row -> fr_enabled row <> 0 -> fr_privacy_acknowledged row <> 0.

Lemma db_stmt_fiat db : adb_fiat (db_stmt db).2 = adb_fiat db.
Proof using Type. unfold db_stmt. by repeat case_match. Qed.

Lemma get_fiat_settings_fiat db : adb_fiat (get_fiat_settings db).2 = adb_fiat db.
Proof using Type.
  unfold get_fiat_settings. rewrite m_bind_eq. pose proof (db_stmt_fiat db). by destruct (db_stmt db) as [[] db1].
Qed.

Lemma set_fiat_settings_consent now enabled currency ack db :
  consent db -> consent (set_fiat_settings now enabled currency ack db).2.
Proof using Type.
  intros Hc. unfold set_fiat_settings. destruct (enabled && negb ack) eqn:E; [done|]. simpl.
  rewrite m_bind_eq. unfold m_lift. destruct now as [t|]; [|done]. rewrite m_bind_eq.
  unfold upsert_fiat_settings. rewrite m_bind_eq. pose proof (db_stmt_fiat db) as Hdb.
  destruct (db_stmt db) as [[[]|] db1]; simpl in *; [|intros row; rewrite Hdb; apply Hc].
  intros row [= <-]. simpl. by destruct enabled, ack.
Qed.

(** What [get_exchange_rate] leaves of the database and adds to the log. *)
Lemma get_exchange_rate_effect (f : @Fetch B) force db (s : RateService F) :
  let st' := (get_exchange_rate from_value (ft_mono f) (ft_wall f) (ft_tor f) (ft_io f) error_text force (db, s)).2 in
  adb_fiat st'.1 = adb_fiat db
  /\ (st'.2 = s \/ st'.2 = (run_fetch from_value f force s).2
      /\ exists settings, (get_fiat_settings db).1 = Ok settings /\ fs_enabled settings = true).
Proof using Type.
  intros st'. unfold st', get_exchange_rate. pose proof (get_fiat_settings_fiat db) as Hdb.
  destruct (get_fiat_settings db) as [[settings|e] db1]; simpl in *; [|by split; [|left]].
  destruct (fs_enabled settings) eqn:Een; simpl; [|by split; [|left]].
  destruct (mbind _ (get_cached_rate s (fs_currency settings))); [by split; [|left]|].
  unfold get_rate. destruct (if (_ : bool) then get_cached_rate _ _ else None); [by split; [|left]|].
  unfold run_fetch. destruct (fetch_rates _ _ _ _ _ _ _) as [r s']. simpl. split; [done|]. right. eauto.
Qed.

Lemma fiat_command_consent c st : consent st.1 -> consent (fiat_command c st).1.
Proof using Type.
  destruct st as [db s], c as [now en cur ack|f force]; intros Hc.
  - by apply set_fiat_settings_consent.
  - intros row. unfold fiat_command. rewrite (proj1 (get_exchange_rate_effect f force db s)). apply Hc.
Qed.

Lemma fiat_commands_consent l st : consent st.1 -> consent (fiat_commands l st).1.
Proof using Type.
  revert st. induction l as [|c l IH]; intros st Hc; [done|]. apply IH. by apply fiat_command_consent.
Qed.

Lemma run_fetch_log (f : @Fetch B) force (s : RateService F) :
  exists new, rs_log (run_fetch from_value f force s).2 = (rs_log s ++ new)%list
  /\ Forall (allowed (ft_tor f)) new.
Proof using Type.
  unfold run_fetch, fetch_rates. destruct (fetch_check _ _ _); [exists []; by rewrite app_nil_r|].
  destruct (fetch_stamp _ _ _) as [[at' prev] s1] eqn:Es.
  assert (rs_log s1 = rs_log s) as Hs by (revert Es; unfold fetch_stamp; destruct force; by intros [= _ _ <-]).
  destruct (get_json_emits (ft_tor f) coingecko_url (ft_io f) (rs_log s1)) as (new & Hn & HF).
  exists new. split; [|done]. rewrite <- Hs, <- Hn. destruct (get_json _ _ _ _) as [r log]. simpl.
  unfold fetch_finish. by repeat case_match.
Qed.

(** The settings a statement reads are those of the row. *)
Lemma get_fiat_settings_enabled db settings :
  (get_fiat_settings db).1 = Ok settings -> fs_enabled settings = true ->
  exists row, adb_fiat db = Some row /\ fr_enabled row <> 0.
Proof using Type.
  unfold get_fiat_settings. rewrite m_bind_eq. pose proof (db_stmt_fiat db) as Hdb.
  destruct (db_stmt db) as [[[]|] db1]; [|done]. rewrite m_get_bind. simpl in *. rewrite Hdb.
  destruct (adb_fiat db) as [row|]; intros [= <-]; simpl; [|done]. intros H. exists row. split; [done|].
  by destruct (fr_enabled row =? 0) eqn:E; [|apply Z.eqb_neq in E].
Qed.
End Consent.

(** ** Properties *)

(** The rate limit holds whatever the network, the server and Tor do:
    however many times the rates are asked for, one call after another, at
    least 120 seconds lie between two requests that are sent (measured from
    the stamp a request leaves to the check of the next); and a call that
    fails closed sends nothing and does not start the cool-down, the service
    being left as it was. *)
Theorem rate_requests_spaced {B F} (from_value : B -> string + option (CoinGeckoPrices F)) (t : Z)
    (l : list Fetch) (s : RateService F) :
  monotone t l -> from_option (fun p => p <= t) True (rs_last_fetch s) ->
  spaced (rs_last_fetch s) (requests from_value l s)
  /\ (forall f force e, select (ft_tor f) = inl e -> (run_fetch from_value f force s).2 = s).
Proof. intros Hm Hp. split; [by eapply requests_spaced|]. intros f force e. apply fetch_fails_closed. Qed.

(** No rate is fetched without consent: in every history of fiat commands
    on an application database where the display was never set up, a
    [get_exchange_rate] that sends anything does so while the stored settings
    both enable the display and record the privacy acknowledgement, and sends
    only what its selection of a transport allows. *)
Theorem rate_request_needs_consent {B F} (from_value : B -> string + option (CoinGeckoPrices F))
    (error_text : ExchangeRateError -> string) (db : AppDb) (s : RateService F)
    (l : list (@FiatCommand B)) (f : Fetch) (force : bool) :
  adb_fiat db = None ->
  let st := fiat_commands from_value error_text l (db, s) in
  let st' := fiat_command from_value error_text (FcGetRate f force) st in
  exists new, rs_log st'.2 = (rs_log st.2 ++ new)%list /\ Forall (allowed (ft_tor f)) new
  /\ (new <> [] -> exists row, adb_fiat st.1 = Some row
        /\ fr_enabled row <> 0 /\ fr_privacy_acknowledged row <> 0).
Proof.
  intros Hnone st st'.
  assert (consent st.1) as Hc by (apply fiat_commands_consent; intros row; simpl; by rewrite Hnone).
  unfold st'. destruct st as [db1 s1]. simpl fst in *.
  destruct (get_exchange_rate_effect from_value error_text f force db1 s1)
    as (_ & [Hs|(Hs & settings & Hget & Hen)]); unfold fiat_command; rewrite Hs.
  - exists []. rewrite app_nil_r. done.
  - destruct (run_fetch_log from_value f force s1) as (new & Hn & HF). exists new. split_and!; [done|done|].
    intros _. destruct (get_fiat_settings_enabled db1 settings Hget Hen) as (row & Hr & He).
    exists row. split_and!; [done|done|]. by eapply Hc.
Qed.

(** What the fiat display is told: a rate is always one in the currency of
    the stored settings; it is called fresh only if by one of the command's
    readings of the wall clock it is at most fifteen minutes old; and when the
    display is disabled there is no rate and the service is not touched. *)
Theorem exchange_rate_reply_truthful {B F} (from_value : B -> string + option (CoinGeckoPrices F))
    (error_text : ExchangeRateError -> string) (f : Fetch) (force : bool) (db db' : AppDb)
    (s s' : RateService F) (settings : FiatDisplaySettings) (reply : RateReply F) :
  (get_fiat_settings db).1 = Ok settings ->
  get_exchange_rate from_value (ft_mono f) (ft_wall f) (ft_tor f) (ft_io f) error_text force (db, s)
    = (Ok reply, (db', s')) ->
  rr_fiat_enabled reply = fs_enabled settings
  /\ (fs_enabled settings = false -> rr_rate reply = None /\ s' = s)
  /\ (forall r, rr_rate reply = Some r -> xr_currency r = fs_currency settings
        /\ (rr_is_stale reply = false ->
              is_stale (ft_wall f 0%nat) r = false \/ is_stale (ft_wall f 2%nat) r = false)).
Proof.
  intros Hset. unfold get_exchange_rate. destruct (get_fiat_settings db) as [r1 db1]. simpl in Hset. subst r1.
  destruct (fs_enabled settings) eqn:Een; simpl; [|by intros [= <- _ <-]].
  assert (forall (s0 : RateService F) r, get_cached_rate s0 (fs_currency settings) = Some r -> xr_currency r = fs_currency settings)
    as Hcur.
  { intros s0 r. unfold get_cached_rate. destruct (rs_cache s0); [simpl|done].
    intros [_ H]%find_first_Some. by apply bool_decide_eq_true in H. }
  destruct (mbind _ (get_cached_rate s (fs_currency settings))) as [r|] eqn:Ec.
  - intros [= <- _ _]. split_and!; [done|done|]. intros r' [= <-]. simpl.
    destruct (get_cached_rate s (fs_currency settings)) as [r0|] eqn:E0; [simpl in Ec|done].
    destruct (is_stale (ft_wall f 0%nat) r0) eqn:Es; [done|]. destruct force; [done|]. injection Ec as <-.
    split; [by eapply Hcur|]. auto.
  - destruct (get_rate _ _ _ _ _ _ _ _) as [r s1] eqn:Er. intros H. injection H as Hr _ _.
    assert (forall x : ExchangeRate F, r = inr x -> xr_currency x = fs_currency settings) as Hrate.
    { intros x ->. revert Er. unfold get_rate.
      destruct (if (_ : bool) then get_cached_rate _ _ else None) as [y|] eqn:Ey.
      - intros [= -> _]. destruct (negb force && _); [by eapply Hcur|done].
      - destruct (fetch_rates _ _ _ _ _ _ _) as [[e|rates] s2]; [done|].
        destruct (find_first _ rates) as [z|] eqn:Ez; [|done]. intros [= -> _].
        apply find_first_Some in Ez as [_ H]. by apply bool_decide_eq_true in H. }
    split_and!; [|done|].
    + destruct r as [[]|]; try (by injection Hr as <-); destruct (get_cached_rate s1 _); by simplify_eq.
    + intros x Hx. destruct r as [e|y].
      * destruct e; (destruct (get_cached_rate s1 (fs_currency settings)) as [c|] eqn:Eg; simplify_eq/=;
          split; [by eapply Hcur|first [done|auto]]).
      * injection Hr as <-. simpl in Hx. injection Hx as ->. split; [by apply Hrate|]. auto.
Qed.

(** ** Witnesses *)

(** A world where prices are integers and a JSON body is its text. *)
Definition demo_prices (body : string) : string + option (CoinGeckoPrices Z) :=
  if bool_decide (body = "prices") then inr (Some (mkCoinGeckoPrices (Some 25) (Some 23) None None None None None))
  else inl "not an object".

Definition demo_http : HttpIo string :=
  mkHttpIo (inr (200, None, inr "prices")) (inr ()) (inr ()) (fun _ => ThTimeout).

(** A call at [secs]. *)
Definition fetch_at (secs : Z) : Fetch :=
  mkFetch (fun _ => secs * ns_per_sec) (fun _ => secs * 1000) None demo_http.

Definition fresh_service : RateService Z := mkRateService None None [].

Lemma rate_requests_spaced_witness :
  requests demo_prices [fetch_at 0; fetch_at 60; fetch_at 119; fetch_at 120; fetch_at 200] fresh_service
    = [0; 120 * ns_per_sec]
  /\ spaced None [0; 120 * ns_per_sec].
Proof.
  split; [reflexivity|].
  refine (proj1 (rate_requests_spaced demo_prices 0
            [fetch_at 0; fetch_at 60; fetch_at 119; fetch_at 120; fetch_at 200] fresh_service _ _)).
  - vm_compute. repeat split; discriminate.
  - exact I.
Defined.

Definition no_settings : AppDb := mkAppDb [] [] [] [] [] [] [] None None [].

(** The display is enabled, and a rate asked for. *)
Lemma rate_request_needs_consent_witness :
  let st := fiat_commands demo_prices (fun _ => "error") [FcSet (Ok 5) true FiatCurrency.EUR true]
              (no_settings, fresh_service) in
  let st' := fiat_command demo_prices (fun _ => "error") (FcGetRate (fetch_at 10) false) st in
  rs_log st'.2 = [EvHttp Direct coingecko_url]
  /\ exists row, adb_fiat st.1 = Some row /\ fr_privacy_acknowledged row <> 0.
Proof.
  intros st st'. split; [reflexivity|].
  destruct (rate_request_needs_consent demo_prices (fun _ => "error") no_settings fresh_service
              [FcSet (Ok 5) true FiatCurrency.EUR true] (fetch_at 10) false ltac:(reflexivity))
    as (new & Hlog & _ & Hrow).
  destruct new as [|e new]; [discriminate Hlog|].
  destruct (Hrow ltac:(discriminate)) as (row & Hr & _ & Ha). exists row. split; [exact Hr|exact Ha].
Defined.

Definition enabled_db : AppDb :=
  (set_fiat_settings (Ok 5) true FiatCurrency.EUR true no_settings).2.

Lemma exchange_rate_reply_truthful_witness :
  exists reply st', get_exchange_rate demo_prices (ft_mono (fetch_at 10)) (ft_wall (fetch_at 10)) None demo_http
    (fun _ => "error") false (enabled_db, fresh_service) = (Ok reply, st')
  /\ rr_rate reply = Some (mkExchangeRate FiatCurrency.EUR 23 10000) /\ rr_fiat_enabled reply = true.
Proof.
  eexists. eexists (_, _). split; [reflexivity|]. split; [reflexivity|].
  refine (proj1 (exchange_rate_reply_truthful demo_prices (fun _ => "error") (fetch_at 10) false enabled_db _
            fresh_service _ (mkFiatDisplaySettings true FiatCurrency.EUR true) _ _ _)); reflexivity.
Defined.
