(* ===== verification/Keystone.v ===== *)
(** The payloads exchanged with a hardware signer ([zbag-keystone]):
    [payload.rs], the CBOR of a [zcash-pczt] UR, and [pczt.rs], the base64 of
    a PCZT with its redaction and combination.

    Bytes are integers from 0 to 255, a [usize] has 64 bits.  [Pczt] and the
    roles of the [pczt] crate are parameters, and so is base64. *)
From S2P Require Import Prelude Text.
#[local] Open Scope list_scope.

(** ** CBOR heads *)

Definition as_u8 (n : Z) : Z := n mod 256.
Definition usize_add (a b : Z) : Z := (a + b) mod 2 ^ 64.

Inductive ZcashPcztUrCborError :=
| UnexpectedEnd
| UnsupportedAdditionalInfo
| Invalid (what : string).

Record CborHead := mkCborHead { ch_major : Z; ch_value : Z; ch_offset : nat; ch_indefinite : bool }.

Definition encode_cbor_major_len (major len : Z) : list Z :=
  let tag := as_u8 (Z.shiftl major 5) in
  if len <? 24 then [Z.lor tag (as_u8 len)]
  else if len <? 0x100 then [Z.lor tag 24; as_u8 len]
  else if len <? 0x10000 then [Z.lor tag 25; as_u8 (Z.shiftr len 8); as_u8 (Z.land len 0xff)]
  else if len <? 0x100000000 then
    [Z.lor tag 26; as_u8 (Z.shiftr len 24); as_u8 (Z.shiftr len 16); as_u8 (Z.shiftr len 8);
     as_u8 (Z.land len 0xff)]
  else
    [Z.lor tag 27; as_u8 (Z.shiftr len 56); as_u8 (Z.shiftr len 48); as_u8 (Z.shiftr len 40);
     as_u8 (Z.shiftr len 32); as_u8 (Z.shiftr len 24); as_u8 (Z.shiftr len 16); as_u8 (Z.shiftr len 8);
     as_u8 (Z.land len 0xff)].

(** [bytes.get(i).ok_or(UnexpectedEnd)]. *)
Definition get_byte {A} (bytes : list Z) (i : nat) (k : Z -> ZcashPcztUrCborError + A)
    : ZcashPcztUrCborError + A :=
  match bytes !! i with Some b => k b | None => inl UnexpectedEnd end.

(** The loop over the bytes of a 64-bit value. *)
Fixpoint read_u64_bytes (bytes : list Z) (next count : nat) (n : Z) : ZcashPcztUrCborError + Z :=
  match count with
  | 0%nat => inr n
  | S count' =>
      get_byte bytes next (fun b => read_u64_bytes bytes (S next) count' (Z.lor (Z.shiftl n 8 mod 2 ^ 64) b))
  end.

Definition read_head (bytes : list Z) (offset : nat) : ZcashPcztUrCborError + CborHead :=
  get_byte bytes offset (fun initial =>
  let major := Z.shiftr initial 5 in
  let ai := Z.land initial 0x1f in
  let next := S offset in
  if ai <? 24 then inr (mkCborHead major ai next false)
  else if ai =? 24 then
    get_byte bytes next (fun value => inr (mkCborHead major value (next + 1) false))
  else if ai =? 25 then
    get_byte bytes next (fun b0 => get_byte bytes (next + 1) (fun b1 =>
    inr (mkCborHead major (Z.lor (Z.shiftl b0 8) b1) (next + 2) false)))
  else if ai =? 26 then
    get_byte bytes next (fun b0 => get_byte bytes (next + 1) (fun b1 =>
    get_byte bytes (next + 2) (fun b2 => get_byte bytes (next + 3) (fun b3 =>
    inr (mkCborHead major
           (Z.lor (Z.lor (Z.lor (Z.shiftl b0 24) (Z.shiftl b1 16)) (Z.shiftl b2 8)) b3)
           (next + 4) false)))))
  else if ai =? 27 then
    match read_u64_bytes bytes next 8 0 with
    | inr n => inr (mkCborHead major n (next + 8) false)
    | inl e => inl e
    end
  else if ai =? 31 then inr (mkCborHead major 0 next true)
  else inl UnsupportedAdditionalInfo).

(** ** The payload *)

Definition encode_zcash_pczt_ur_cbor (pczt_bytes : list Z) : list Z :=
  encode_cbor_major_len 5 1 ++ encode_cbor_major_len 0 1
  ++ encode_cbor_major_len 2 (Z.of_nat (length pczt_bytes)) ++ pczt_bytes.

(** [Panicked]: a slice out of range.  [NoFuel] does not occur. *)
Inductive Decoding := Decoded (pczt_bytes : list Z) | Refused (e : ZcashPcztUrCborError) | Panicked | NoFuel.

(** [&bytes[from..to]]. *)
Definition slice (bytes : list Z) (from to : Z) : option (list Z) :=
  if (from <=? to) && (to <=? Z.of_nat (length bytes))
  then Some (take (Z.to_nat (to - from)) (drop (Z.to_nat from) bytes)) else None.

(** A byte string of a definite length: [offset + len] wraps. *)
Definition read_bytes (cbor : list Z) (offset : nat) (len : Z) (truncated : string)
    (k : list Z -> nat -> Decoding) : Decoding :=
  let to := usize_add (Z.of_nat offset) len in
  if Z.of_nat (length cbor) <? to then Refused (Invalid truncated)
  else match slice cbor (Z.of_nat offset) to with
       | Some bytes => k bytes (offset + Z.to_nat len)%nat
       | None => Panicked
       end.

(** The end: everything must be consumed. *)
Definition at_end (cbor : list Z) (offset : nat) (out : list Z) : Decoding :=
  if (offset =? length cbor)%nat then Decoded out else Refused (Invalid "trailing bytes").

Fixpoint read_chunks (fuel : nat) (cbor : list Z) (offset : nat) (chunks : list (list Z)) : Decoding :=
  match fuel with
  | 0%nat => NoFuel
  | S fuel' =>
      match cbor !! offset with
      | None => at_end cbor offset (concat chunks)
      | Some b =>
          if b =? 0xff then at_end cbor (offset + 1) (concat chunks)
          else
            match read_head cbor offset with
            | inl e => Refused e
            | inr chunk =>
                if negb (ch_major chunk =? 2) || ch_indefinite chunk then Refused (Invalid "invalid chunk")
                else read_bytes cbor (ch_offset chunk) (ch_value chunk) "truncated chunk"
                       (fun bytes offset => read_chunks fuel' cbor offset (chunks ++ [bytes]))
            end
      end
  end.

Definition decode_zcash_pczt_ur_cbor (cbor : list Z) : Decoding :=
  match read_head cbor 0 with
  | inl e => Refused e
  | inr map_ =>
      if negb (ch_major map_ =? 5) || ch_indefinite map_ || negb (ch_value map_ =? 1)
      then Refused (Invalid "expected map(1)")
      else
        match read_head cbor (ch_offset map_) with
        | inl e => Refused e
        | inr key =>
            if negb (ch_major key =? 0) || ch_indefinite key || negb (ch_value key =? 1)
            then Refused (Invalid "expected key 1")
            else
              match read_head cbor (ch_offset key) with
              | inl e => Refused e
              | inr value =>
                  if negb (ch_major value =? 2) then Refused (Invalid "expected byte string")
                  else if negb (ch_indefinite value) then
                    read_bytes cbor (ch_offset value) (ch_value value) "truncated data"
                      (fun bytes offset => at_end cbor offset bytes)
                  else read_chunks (S (length cbor)) cbor (ch_offset value) []
              end
        end
  end.

(** ** The format that is accepted *)

Definition byte (b : Z) : Prop := 0 <= b <= 255.

(** The big-endian number of a list of bytes. *)
Definition be_value : list Z -> Z := foldl (fun n b => 256 * n + b) 0.

(** The heads of a value, in each of the forms of CBOR that hold it. *)
Inductive head_bytes (major : Z) : Z -> list Z -> Prop :=
| head_short v : 0 <= v < 24 -> head_bytes major v [32 * major + v]
| head_wide k bs :
    (k <= 3)%nat -> length bs = (2 ^ k)%nat -> head_bytes major (be_value bs) ((32 * major + 24 + Z.of_nat k) :: bs).

(** The chunks of an indefinite byte string. *)
Inductive chunk_bytes : list Z -> list Z -> Prop :=
| chunks_nil : chunk_bytes [] []
| chunks_cons h b out c :
    head_bytes 2 (Z.of_nat (length b)) h -> chunk_bytes out c -> chunk_bytes (b ++ out) (h ++ b ++ c).

(** A map with one entry, from key 1 to a byte string; the break code after
    the chunks of an indefinite string may be missing. *)
Inductive pczt_cbor (out : list Z) : list Z -> Prop :=
| pczt_definite hm hk hb :
    head_bytes 5 1 hm -> head_bytes 0 1 hk -> head_bytes 2 (Z.of_nat (length out)) hb ->
    pczt_cbor out (hm ++ hk ++ hb ++ out)
| pczt_chunked hm hk c end_ :
    head_bytes 5 1 hm -> head_bytes 0 1 hk -> chunk_bytes out c -> end_ = [0xff] \/ end_ = [] ->
    pczt_cbor out (hm ++ hk ++ [0x5f] ++ c ++ end_).

(** *** Bits *)

Lemma lor_shiftl_add a b n : 0 <= n -> 0 <= b < 2 ^ n -> Z.lor (Z.shiftl a n) b = a * 2 ^ n + b.
Proof.
  intros Hn Hb. rewrite <- Z.shiftl_mul_pow2 by done. symmetry.
  rewrite Z.add_nocarry_lxor.
  - apply Z.bits_inj'. intros i Hi. rewrite Z.lxor_spec, Z.lor_spec. destruct (Z.testbit b i) eqn:E.
    + rewrite Z.shiftl_spec by done. destruct (Z.lt_ge_cases i n) as [Hlt|Hge].
      * rewrite Z.testbit_neg_r by lia. done.
      * exfalso. rewrite <- (Z.mod_small b (2 ^ n)), Z.mod_pow2_bits_high in E by lia. done.
    + by rewrite xorb_false_r, orb_false_r.
  - apply Z.bits_inj'. intros i Hi. rewrite Z.land_spec, Z.bits_0, Z.shiftl_spec by done.
    destruct (Z.lt_ge_cases i n) as [Hlt|Hge].
    + by rewrite Z.testbit_neg_r by lia.
    + rewrite <- (Z.mod_small b (2 ^ n)), Z.mod_pow2_bits_high by lia. apply andb_false_r.
Qed.

Lemma byte_split b : byte b -> b = 32 * Z.shiftr b 5 + Z.land b 0x1f /\ 0 <= Z.land b 0x1f < 32 /\ 0 <= Z.shiftr b 5 <= 7.
Proof.
  unfold byte. intros Hb. change 0x1f with (Z.ones 5). rewrite Z.land_ones, Z.shiftr_div_pow2 by lia.
  change (2 ^ 5) with 32. pose proof (Z.div_mod b 32). pose proof (Z.mod_pos_bound b 32).
  split; [lia|]. split; [lia|]. split; [apply Z.div_pos; lia|]. apply Z.lt_succ_r, Z.div_lt_upper_bound; lia.
Qed.

(** *** Heads *)

Lemma get_byte_inr {A} bs i (k : Z -> ZcashPcztUrCborError + A) r :
  Forall byte bs -> get_byte bs i k = inr r ->
  exists b, byte b /\ drop i bs = b :: drop (S i) bs /\ k b = inr r.
Proof.
  intros Hb. unfold get_byte. destruct (bs !! i) as [b|] eqn:E; [|done]. intros Hk. exists b.
  split; [by eapply Forall_lookup_1|]. split; [by apply drop_S|done].
Qed.

Lemma get_byte_drop {A} bs i b rest (k : Z -> ZcashPcztUrCborError + A) :
  drop i bs = b :: rest -> get_byte bs i k = k b /\ drop (S i) bs = rest.
Proof.
  intros E. assert (bs !! i = Some b) as Hl.
  { rewrite <- (Nat.add_0_r i), <- lookup_drop, E. done. }
  unfold get_byte. rewrite Hl. split; [done|]. apply drop_S in Hl. congruence.
Qed.

Ltac take_byte Hd :=
  rewrite ?Nat.add_1_r, (proj1 (get_byte_drop _ _ _ _ _ Hd));
  apply (get_byte_drop (A := unit) _ _ _ _ (fun _ => inr tt)) in Hd as [_ Hd].

Lemma foldl_be_bounds n ws :
  Forall byte ws -> 0 <= n ->
  0 <= foldl (fun n b => 256 * n + b) n ws < (n + 1) * 256 ^ Z.of_nat (length ws).
Proof.
  revert n. induction ws as [|w ws IH]; intros n Hw Hn; [simpl; lia|]. inversion_clear Hw as [|? ? Hb Hw'].
  unfold byte in Hb. simpl. specialize (IH (256 * n + w) Hw' ltac:(lia)).
  change (Z.of_nat (S (length ws))) with (Z.of_nat (1 + length ws)).
  rewrite Nat2Z.inj_add, Z.pow_add_r by lia. change (256 ^ Z.of_nat 1) with 256.
  split; [lia|]. eapply Z.lt_le_trans; [apply IH|]. rewrite Z.mul_assoc.
  apply Z.mul_le_mono_nonneg_r; [apply Z.pow_nonneg|]; lia.
Qed.

(** One more byte of a 64-bit value is shifted in without loss. *)
Lemma shift_in_byte n b m :
  0 <= n < 2 ^ (64 - 8 * (m + 1)) -> 0 <= m -> 8 * (m + 1) <= 64 -> byte b ->
  Z.lor (Z.shiftl n 8 mod 2 ^ 64) b = 256 * n + b /\ 0 <= 256 * n + b < 2 ^ (64 - 8 * m).
Proof.
  unfold byte. intros Hn Hm Hm8 Hb.
  assert (2 ^ (64 - 8 * m) = 256 * 2 ^ (64 - 8 * (m + 1))) as Epow.
  { change 256 with (2 ^ 8). rewrite <- Z.pow_add_r by lia. f_equal. lia. }
  assert (2 ^ (64 - 8 * m) <= 2 ^ 64) by (apply Z.pow_le_mono_r; lia).
  rewrite Z.mod_small; [rewrite lor_shiftl_add|]; rewrite ?Z.shiftl_mul_pow2 by lia; change (2 ^ 8) with 256; lia.
Qed.

Lemma read_u64_bytes_inr bs next count n v :
  Forall byte bs -> (count <= 8)%nat -> 0 <= n < 2 ^ (64 - 8 * Z.of_nat count) ->
  read_u64_bytes bs next count n = inr v ->
  exists ws, length ws = count /\ drop next bs = ws ++ drop (next + count) bs
    /\ v = foldl (fun n b => 256 * n + b) n ws.
Proof.
  intros Hb. revert next n. induction count as [|count IH]; intros next n Hc Hn; simpl.
  - intros [= <-]. exists []. rewrite Nat.add_0_r. done.
  - intros (b & Hbyte & Hd & Hk)%get_byte_inr; [|done].
    destruct (shift_in_byte n b (Z.of_nat count)) as [E Hlt]; [|lia|lia|done|].
    { by replace (Z.of_nat count + 1) with (Z.of_nat (S count)) by lia. }
    rewrite E in Hk. apply IH in Hk as (ws & Hl & Hd' & ->); [|lia|done].
    exists (b :: ws). split; [simpl; lia|]. split; [|done].
    rewrite Hd, Hd'. simpl. by replace (next + S count)%nat with (S next + count)%nat by lia.
Qed.

Lemma read_u64_bytes_complete bs next n ws rest :
  Forall byte ws -> (length ws <= 8)%nat -> 0 <= n < 2 ^ (64 - 8 * Z.of_nat (length ws)) ->
  drop next bs = ws ++ rest ->
  read_u64_bytes bs next (length ws) n = inr (foldl (fun n b => 256 * n + b) n ws).
Proof.
  revert next n. induction ws as [|b ws IH]; intros next n Hw Hl Hn Hd; [done|]. inversion_clear Hw as [|? ? Hb Hw'].
  simpl in Hd. simpl length. simpl read_u64_bytes.
  destruct (get_byte_drop bs next b (ws ++ rest)
    (fun b => read_u64_bytes bs (S next) (length ws) (Z.lor (Z.shiftl n 8 mod 2 ^ 64) b)) Hd) as [-> Hd'].
  simpl in Hl. destruct (shift_in_byte n b (Z.of_nat (length ws))) as [E Hlt]; [|lia|lia|done|].
  { by replace (Z.of_nat (length ws) + 1) with (Z.of_nat (length (b :: ws))) by (simpl; lia). }
  rewrite E. apply (IH (S next)); [done|lia|done|done].
Qed.

Lemma lor_be2 b0 b1 : byte b1 -> Z.lor (Z.shiftl b0 8) b1 = be_value [b0; b1].
Proof. intros Hb. unfold byte in Hb. rewrite lor_shiftl_add by lia. unfold be_value. simpl. lia. Qed.

Lemma lor_be4 b0 b1 b2 b3 :
  byte b1 -> byte b2 -> byte b3 ->
  Z.lor (Z.lor (Z.lor (Z.shiftl b0 24) (Z.shiftl b1 16)) (Z.shiftl b2 8)) b3 = be_value [b0; b1; b2; b3].
Proof.
  unfold byte. intros H1 H2 H3.
  assert (forall b n, 0 <= n -> Z.shiftl b n = b * 2 ^ n) as Hs by (intros; by apply Z.shiftl_mul_pow2).
  rewrite (lor_shiftl_add b0 (Z.shiftl b1 16)) by (rewrite ?Hs; lia).
  replace (b0 * 2 ^ 24 + Z.shiftl b1 16) with (Z.shiftl (b0 * 256 + b1) 16) by (rewrite !Hs; lia).
  rewrite (lor_shiftl_add _ (Z.shiftl b2 8)) by (rewrite ?Hs; lia).
  replace ((b0 * 256 + b1) * 2 ^ 16 + Z.shiftl b2 8) with (Z.shiftl ((b0 * 256 + b1) * 256 + b2) 8)
    by (rewrite !Hs; lia).
  rewrite lor_shiftl_add by lia. unfold be_value. simpl. lia.
Qed.

#[local] Arguments read_u64_bytes : simpl never.

(** What a head that was read stands for. *)
Definition head_ok (h : CborHead) (hd : list Z) : Prop :=
  0 <= ch_major h <= 7
  /\ if ch_indefinite h then hd = [32 * ch_major h + 31]
     else head_bytes (ch_major h) (ch_value h) hd.

Lemma head_ok_wide k ws h b :
  (k <= 3)%nat -> length ws = (2 ^ k)%nat -> byte b -> Z.land b 31 = 24 + Z.of_nat k ->
  ch_major h = Z.shiftr b 5 -> ch_indefinite h = false -> ch_value h = be_value ws -> head_ok h (b :: ws).
Proof.
  intros Hk Hl Hb Hai Hm Hi Hv. destruct (byte_split b Hb) as (Eb & _ & Hma). unfold head_ok.
  rewrite Hm, Hi, Hv. split; [done|].
  replace b with (32 * Z.shiftr b 5 + 24 + Z.of_nat k) at 2 by lia. by apply head_wide.
Qed.

Lemma read_head_inr bs offset h :
  Forall byte bs -> read_head bs offset = inr h ->
  exists hd, drop offset bs = hd ++ drop (ch_offset h) bs /\ ch_offset h = (offset + length hd)%nat
    /\ head_ok h hd.
Proof.
  intros Hbs (b & Hb & Hd & Hk)%get_byte_inr; [|done]. revert Hk. cbv zeta.
  destruct (byte_split b Hb) as (Eb & Hai & Hma).
  destruct (Z.land b 31 <? 24) eqn:E24; [apply Z.ltb_lt in E24|].
  { intros [= <-]. exists [b]. simpl. split_and!; [done|lia|]. split; [done|]. simpl.
    pose proof (head_short (Z.shiftr b 5) (Z.land b 31) ltac:(lia)) as Hs. by rewrite <- Eb in Hs. }
  destruct (_ =? 24) eqn:E; [apply Z.eqb_eq in E|clear E].
  { intros (b0 & H0 & Hd0 & [= <-])%get_byte_inr; [|done]. exists [b; b0]. simpl.
    split_and!; [by rewrite Hd, Hd0, Nat.add_1_r|lia|]. apply (head_ok_wide 0); try done; lia. }
  destruct (_ =? 25) eqn:E; [apply Z.eqb_eq in E|clear E].
  { intros (b0 & H0 & Hd0 & (b1 & H1 & Hd1 & [= <-])%get_byte_inr)%get_byte_inr; [|done..].
    exists [b; b0; b1]. simpl. rewrite Nat.add_1_r in Hd1.
    split_and!; [by rewrite Hd, Hd0, Hd1, (Nat.add_comm _ 2)|lia|]. apply (head_ok_wide 1); try done; [lia..|by apply lor_be2]. }
  destruct (_ =? 26) eqn:E; [apply Z.eqb_eq in E|clear E].
  { intros (b0 & H0 & Hd0 & (b1 & H1 & Hd1 & (b2 & H2 & Hd2 & (b3 & H3 & Hd3 & [= <-])
      %get_byte_inr)%get_byte_inr)%get_byte_inr)%get_byte_inr; [|done..].
    exists [b; b0; b1; b2; b3]. simpl. rewrite (Nat.add_comm _ 1) in Hd1. rewrite (Nat.add_comm _ 2) in Hd2.
    rewrite (Nat.add_comm _ 3) in Hd3. simpl in *.
    split_and!; [by rewrite Hd, Hd0, Hd1, Hd2, Hd3, (Nat.add_comm _ 4)|lia|].
    apply (head_ok_wide 2); try done; [lia..|by apply lor_be4]. }
  destruct (_ =? 27) eqn:E; [apply Z.eqb_eq in E|clear E].
  { destruct (read_u64_bytes bs (S offset) 8 0) as [|n] eqn:Er; [done|]. intros [= <-].
    apply read_u64_bytes_inr in Er as (ws & Hl & Hd' & Hn); [|done|lia|done].
    exists (b :: ws). simpl. split_and!; [by rewrite Hd, Hd'|lia|]. apply (head_ok_wide 3); try done; lia. }
  destruct (_ =? 31) eqn:E; [apply Z.eqb_eq in E|done].
  intros [= <-]. exists [b]. simpl. split_and!; [done|lia|]. split; [done|]. simpl. f_equal. lia.
Qed.

Lemma read_head_complete bs offset hd rest major v :
  Forall byte bs -> 0 <= major <= 7 -> drop offset bs = hd ++ rest -> head_bytes major v hd ->
  read_head bs offset = inr (mkCborHead major v (offset + length hd) false)
  /\ drop (offset + length hd) bs = rest.
Proof.
  intros Hbs Hm Hd Hh. split; [|by rewrite <- drop_drop, Hd, drop_app_length].
  assert (Forall byte hd) as Hhd.
  { apply (Forall_drop _ offset) in Hbs. rewrite Hd in Hbs. by apply Forall_app in Hbs as [? _]. }
  assert (forall a, 0 <= a < 32 -> Z.shiftr (32 * major + a) 5 = major /\ Z.land (32 * major + a) 0x1f = a) as Hsplit.
  { intros a Ha. change 0x1f with (Z.ones 5). rewrite Z.land_ones, Z.shiftr_div_pow2 by lia. change (2 ^ 5) with 32.
    rewrite Z.add_comm, (Z.mul_comm 32), Z.div_add, Z.mod_add by lia.
    rewrite Z.div_small, Z.mod_small by lia. done. }
  unfold read_head. destruct Hh as [v Hv|k ws Hk Hl]; rewrite (proj1 (get_byte_drop _ _ _ _ _ Hd)).
  - destruct (Hsplit v) as [-> ->]; [lia|]. replace (v <? 24) with true by (symmetry; apply Z.ltb_lt; lia).
    cbv zeta. by rewrite Nat.add_1_r.
  - apply (get_byte_drop (A := unit) _ _ _ _ (fun _ => inr tt)) in Hd as [_ Hd].
    inversion_clear Hhd as [|? ? _ Hws]. replace (32 * major + 24 + Z.of_nat k) with (32 * major + (24 + Z.of_nat k)) by lia.
    destruct (Hsplit (24 + Z.of_nat k)) as [-> ->]; [lia|].
    destruct k as [|[|[|[|k]]]]; [..|lia]; simpl in Hl; rewrite ?(Nat.add_comm (S offset)); simpl.
    + destruct ws as [|b0 [|]]; try done. take_byte Hd. do 2 f_equal. lia.
    + destruct ws as [|b0 [|b1 [|]]]; try done. do 2 take_byte Hd.
      rewrite lor_be2 by (by inversion_clear Hws as [|? ? _ [|]]). do 2 f_equal. lia.
    + destruct ws as [|b0 [|b1 [|b2 [|b3 [|]]]]]; try done. do 4 take_byte Hd.
      rewrite !Forall_cons in Hws. rewrite lor_be4 by naive_solver. do 2 f_equal. lia.
    + pose proof (read_u64_bytes_complete bs (S offset) 0 ws rest Hws ltac:(lia)) as Hr.
      rewrite Hl in Hr. rewrite Hr by done. do 2 f_equal. lia.
Qed.

(** *** Byte strings *)

Lemma head_value_bounds major v hd : Forall byte hd -> head_bytes major v hd -> 0 <= v < 2 ^ 64.
Proof.
  intros Hb Hh. destruct Hh as [v Hv|k ws Hk Hl]; [lia|]. apply Forall_cons in Hb as [_ Hws].
  pose proof (foldl_be_bounds 0 ws Hws ltac:(lia)) as Hf. fold (be_value ws) in Hf. rewrite Hl in Hf.
  split; [lia|]. eapply Z.lt_le_trans; [apply Hf|].
  destruct k as [|[|[|[|k]]]]; [simpl; lia..|lia].
Qed.

Lemma head_nonempty major v hd : head_bytes major v hd -> (1 <= length hd)%nat.
Proof. intros []; simpl; lia. Qed.

(** The three outcomes of reading [len] bytes. *)
Lemma read_bytes_eq cbor offset len msg k :
  0 <= len < 2 ^ 64 -> (offset <= length cbor)%nat -> Z.of_nat (length cbor) <= i64_max ->
  read_bytes cbor offset len msg k =
  if Z.of_nat offset + len <=? Z.of_nat (length cbor)
  then k (take (Z.to_nat len) (drop offset cbor)) (offset + Z.to_nat len)%nat
  else if Z.of_nat offset + len <? 2 ^ 64 then Refused (Invalid msg) else Panicked.
Proof.
  unfold read_bytes, usize_add, slice, i64_max. intros Hl Ho Hc.
  destruct (Z.lt_ge_cases (Z.of_nat offset + len) (2 ^ 64)) as [Hs|Hs].
  - rewrite Z.mod_small by lia. replace (Z.of_nat offset + len <? 2 ^ 64) with true by lia.
    destruct (Z.leb_spec (Z.of_nat offset + len) (Z.of_nat (length cbor))) as [Hle|Hgt].
    + replace (Z.of_nat (length cbor) <? Z.of_nat offset + len) with false by lia.
      replace (Z.of_nat offset <=? Z.of_nat offset + len) with true by lia.
      replace (Z.of_nat offset + len <=? Z.of_nat (length cbor)) with true by lia. simpl.
      rewrite Nat2Z.id. by replace (Z.of_nat offset + len - Z.of_nat offset) with len by lia.
    + by replace (Z.of_nat (length cbor) <? Z.of_nat offset + len) with true by lia.
  - replace ((Z.of_nat offset + len) mod 2 ^ 64) with (Z.of_nat offset + len - 2 ^ 64)
      by (rewrite <- (Z.mod_add _ (-1)), Z.mod_small by lia; lia).
    replace (Z.of_nat (length cbor) <? Z.of_nat offset + len - 2 ^ 64) with false by lia.
    replace (Z.of_nat offset <=? Z.of_nat offset + len - 2 ^ 64) with false by lia.
    replace (Z.of_nat offset + len <=? Z.of_nat (length cbor)) with false by lia.
    by replace (Z.of_nat offset + len <? 2 ^ 64) with false by lia.
Qed.

Lemma head_ok_nonempty h hd : head_ok h hd -> (1 <= length hd)%nat.
Proof. intros [_ H]. destruct (ch_indefinite h); [subst; simpl; lia|by eapply head_nonempty]. Qed.

(** A head that was read: its bytes, and the bounds of its value and of the
    next offset. *)
Lemma read_head_facts bs offset h :
  Forall byte bs -> read_head bs offset = inr h ->
  exists hd, drop offset bs = hd ++ drop (ch_offset h) bs /\ ch_offset h = (offset + length hd)%nat
    /\ head_ok h hd /\ (offset < ch_offset h <= length bs)%nat
    /\ (ch_indefinite h = false -> 0 <= ch_value h < 2 ^ 64).
Proof.
  intros Hbs Hr. destruct (read_head_inr bs offset h Hbs Hr) as (hd & Hd & Ho & Hh). exists hd.
  pose proof (head_ok_nonempty h hd Hh). split_and!; try done; [lia| |].
  - destruct (Nat.le_gt_cases (length bs) offset) as [Hle|Hlt].
    + rewrite drop_ge in Hd by done. destruct hd; [simpl in *; lia|done].
    + apply (f_equal length) in Hd. rewrite length_app, !length_drop in Hd. lia.
  - intros Hi. destruct Hh as [_ Hh]. rewrite Hi in Hh. apply (head_value_bounds (ch_major h) (ch_value h) hd); [|done].
    apply (Forall_drop _ offset) in Hbs. rewrite Hd in Hbs. by apply Forall_app in Hbs as [? _].
Qed.

Lemma take_drop_bytes (bs : list Z) offset (len : Z) :
  0 <= len -> Z.of_nat offset + len <= Z.of_nat (length bs) ->
  drop offset bs = take (Z.to_nat len) (drop offset bs) ++ drop (offset + Z.to_nat len) bs
  /\ Z.of_nat (length (take (Z.to_nat len) (drop offset bs))) = len.
Proof.
  intros Hl Hle. rewrite <- drop_drop, take_drop. split; [done|]. rewrite length_take, length_drop. lia.
Qed.

Section Chunks.
Context (cbor : list Z) (Hbytes : Forall byte cbor) (Hlen : Z.of_nat (length cbor) <= i64_max).

Lemma at_end_Decoded offset out out' :
  at_end cbor offset out = Decoded out' <-> out' = out /\ offset = length cbor.
Proof using Type.
  unfold at_end. destruct (Nat.eqb_spec offset (length cbor)); [|naive_solver]. split; [|by intros [-> _]].
  by intros [= ->].
Qed.

Lemma read_chunks_sound fuel offset chunks out :
  (offset <= length cbor)%nat -> read_chunks fuel cbor offset chunks = Decoded out ->
  exists more c end_, drop offset cbor = c ++ end_ /\ chunk_bytes more c /\ (end_ = [0xff] \/ end_ = [])
    /\ out = concat chunks ++ more.
Proof using Hbytes Hlen.
  revert offset chunks. induction fuel as [|fuel IH]; intros offset chunks Ho; [done|]. simpl.
  destruct (cbor !! offset) as [b|] eqn:Eb.
  2:{ intros [-> Hend]%at_end_Decoded. exists [], [], []. rewrite drop_ge by lia.
      split_and!; [done|constructor|by right|by rewrite app_nil_r]. }
  destruct (Z.eqb_spec b 0xff) as [->|Hne].
  { intros [-> Hend]%at_end_Decoded. exists [], [], [0xff]. rewrite app_nil_r. split_and!; [|constructor|by left|done].
    rewrite (drop_S _ _ _ Eb), drop_ge by lia. done. }
  destruct (read_head cbor offset) as [e|h] eqn:Eh; [done|].
  destruct (read_head_facts _ _ _ Hbytes Eh) as (hd & Hd & Hoff & [Hma Hh] & Hlt & Hv).
  destruct (_ || _) eqn:Ec; [done|]. apply orb_false_iff in Ec as [Ec Ei].
  apply negb_false_iff, Z.eqb_eq in Ec. rewrite Ei in Hh. specialize (Hv Ei).
  rewrite read_bytes_eq by (done || lia). destruct (Z.leb_spec (Z.of_nat (ch_offset h) + ch_value h) (Z.of_nat (length cbor))).
  2:{ by destruct (_ <? _). }
  intros (more & c & end_ & Hd' & Hc & Hend & ->)%IH; [|lia].
  destruct (take_drop_bytes cbor (ch_offset h) (ch_value h)) as [Ht Hl]; [lia..|].
  set (b1 := take (Z.to_nat (ch_value h)) (drop (ch_offset h) cbor)) in *.
  exists (b1 ++ more), (hd ++ b1 ++ c), end_. split_and!; [|by constructor; rewrite ?Hl, <- ?Ec|done|].
  - rewrite Hd, Ht, Hd', <- !app_assoc. done.
  - by rewrite concat_app, <- app_assoc; simpl; rewrite app_nil_r.
Qed.

Lemma read_chunks_complete more c end_ :
  chunk_bytes more c -> end_ = [0xff] \/ end_ = [] ->
  forall fuel offset chunks, (offset <= length cbor)%nat -> (length cbor < fuel + offset)%nat ->
  drop offset cbor = c ++ end_ -> read_chunks fuel cbor offset chunks = Decoded (concat chunks ++ more).
Proof using Hbytes Hlen.
  intros Hc Hend. induction Hc as [|h b more c Hh Hc IH]; intros fuel offset chunks Ho Hf Hd;
    (destruct fuel as [|fuel]; [lia|]); simpl.
  - rewrite app_nil_r. simpl in Hd. pose proof (f_equal length Hd) as Hl. rewrite length_drop in Hl.
    destruct Hend as [->| ->]; simpl in Hl.
    + replace (cbor !! offset) with (Some 255) by (by rewrite <- (Nat.add_0_r offset), <- lookup_drop, Hd).
      simpl. apply at_end_Decoded. split; [done|lia].
    + rewrite lookup_ge_None_2 by lia. apply at_end_Decoded. split; [done|lia].
  - rewrite <- !app_assoc in Hd. destruct (read_head_complete cbor offset h (b ++ c ++ end_) 2 _ Hbytes ltac:(lia) Hd Hh)
      as [Hr Hrest].
    destruct (read_head_facts _ _ _ Hbytes Hr) as (_ & _ & _ & _ & Hlt & Hv). simpl in Hlt, Hv.
    pose proof (f_equal length Hrest) as Hl. rewrite length_drop, !length_app in Hl.
    destruct (cbor !! offset) as [b0|] eqn:Eb; [|apply lookup_ge_None in Eb; lia].
    assert (b0 <> 0xff) as Hne.
    { apply drop_S in Eb. rewrite Eb in Hd. destruct Hh as [v Hv'|k ws Hk _]; injection Hd as ->; lia. }
    rewrite (proj2 (Z.eqb_neq b0 255) Hne), Hr. simpl. specialize (Hv eq_refl).
    rewrite read_bytes_eq by (done || lia).
    rewrite (proj2 (Z.leb_le _ _)) by lia.
    rewrite Nat2Z.id, Hrest, take_app_length. rewrite (IH fuel).
    + rewrite concat_app, <- app_assoc. simpl. by rewrite app_nil_r.
    + lia.
    + lia.
    + by rewrite <- drop_drop, Hrest, drop_app_length.
Qed.

Lemma read_chunks_fuel fuel offset chunks :
  (offset <= length cbor)%nat -> (length cbor < fuel + offset)%nat -> read_chunks fuel cbor offset chunks <> NoFuel.
Proof using Hbytes Hlen.
  revert offset chunks. induction fuel as [|fuel IH]; intros offset chunks Ho Hf; [lia|]. simpl.
  destruct (cbor !! offset) as [b|]; [|unfold at_end; by case_match].
  destruct (b =? 255); [unfold at_end; by case_match|].
  destruct (read_head cbor offset) as [e|h] eqn:Eh; [done|].
  destruct (read_head_facts _ _ _ Hbytes Eh) as (_ & _ & _ & _ & Hlt & Hv).
  destruct (_ || _) eqn:Ec; [done|]. apply orb_false_iff in Ec as [_ Ei]. specialize (Hv Ei).
  rewrite read_bytes_eq by (done || lia). destruct (Z.leb_spec (Z.of_nat (ch_offset h) + ch_value h) (Z.of_nat (length cbor))).
  - apply IH; lia.
  - by destruct (_ <? _).
Qed.
End Chunks.

(** *** Encoding *)

Lemma be_step n k k' : 0 <= k -> k' = k + 8 -> 256 * Z.shiftr n k' + as_u8 (Z.shiftr n k) = Z.shiftr n k.
Proof.
  intros Hk ->. unfold as_u8. rewrite <- Z.shiftr_shiftr by lia. rewrite (Z.shiftr_div_pow2 (Z.shiftr n k) 8) by lia.
  change (2 ^ 8) with 256. pose proof (Z.div_mod (Z.shiftr n k) 256). lia.
Qed.

Lemma as_u8_top n k : 0 <= k -> 0 <= n < 2 ^ (k + 8) -> as_u8 (Z.shiftr n k) = Z.shiftr n k.
Proof.
  intros Hk Hn. unfold as_u8. rewrite Z.shiftr_div_pow2 by done. apply Z.mod_small.
  split; [apply Z.div_pos; [lia|by apply Z.pow_pos_nonneg]|]. apply Z.div_lt_upper_bound; [by apply Z.pow_pos_nonneg|].
  rewrite Z.pow_add_r in Hn by lia. change (2 ^ 8) with 256 in Hn. lia.
Qed.

Lemma as_u8_low n : as_u8 (Z.land n 0xff) = as_u8 (Z.shiftr n 0).
Proof.
  unfold as_u8. change 0xff with (Z.ones 8). rewrite Z.land_ones by lia. change (2 ^ 8) with 256.
  rewrite Z.mod_mod by lia. by rewrite Z.shiftr_0_r.
Qed.

Lemma lor_tag major a : 0 <= major <= 7 -> 0 <= a < 32 -> Z.lor (as_u8 (Z.shiftl major 5)) a = 32 * major + a.
Proof.
  intros Hm Ha. unfold as_u8. rewrite Z.mod_small by (rewrite Z.shiftl_mul_pow2 by lia; lia).
  rewrite lor_shiftl_add by lia. lia.
Qed.

Lemma encode_head major len :
  0 <= major <= 7 -> 0 <= len < 2 ^ 64 -> head_bytes major len (encode_cbor_major_len major len).
Proof.
  intros Hm Hl. unfold encode_cbor_major_len. cbv zeta.
  destruct (Z.ltb_spec len 24).
  { unfold as_u8 at 2. rewrite Z.mod_small, lor_tag by lia. apply head_short. lia. }
  rewrite !as_u8_low, !lor_tag by lia.
  assert (forall k bs, (k <= 3)%nat -> length bs = (2 ^ k)%nat -> be_value bs = len ->
    head_bytes major len ((32 * major + (24 + Z.of_nat k)) :: bs)) as Hwide.
  { intros k bs Hk Hlen <-. rewrite Z.add_assoc. by apply head_wide. }
  destruct (Z.ltb_spec len 256).
  { apply (Hwide 0%nat); [lia|done|]. unfold be_value, as_u8. simpl. apply Z.mod_small. lia. }
  destruct (Z.ltb_spec len 65536).
  { apply (Hwide 1%nat); [lia|done|]. unfold be_value. cbn [foldl]. rewrite Z.mul_0_r, Z.add_0_l.
    rewrite (as_u8_top _ 8) by lia. by apply (be_step len 0 8). }
  destruct (Z.ltb_spec len 4294967296).
  { apply (Hwide 2%nat); [lia|done|]. unfold be_value. cbn [foldl]. rewrite Z.mul_0_r, Z.add_0_l.
    rewrite (as_u8_top _ 24) by lia.
    rewrite (be_step len 16 24), (be_step len 8 16) by lia. by apply (be_step len 0 8). }
  apply (Hwide 3%nat); [lia|done|]. unfold be_value. cbn [foldl]. rewrite Z.mul_0_r, Z.add_0_l.
  rewrite (as_u8_top _ 56) by lia.
  rewrite (be_step len 48 56), (be_step len 40 48), (be_step len 32 40), (be_step len 24 32), (be_step len 16 24), (be_step len 8 16) by lia.
  by apply (be_step len 0 8).
Qed.

Lemma as_u8_byte n : byte (as_u8 n).
Proof. unfold byte, as_u8. pose proof (Z.mod_pos_bound n 256). lia. Qed.

Lemma encode_head_bytes major len :
  0 <= major <= 7 -> 0 <= len -> Forall byte (encode_cbor_major_len major len).
Proof.
  intros Hm Hl. unfold encode_cbor_major_len. cbv zeta.
  assert (forall a, 0 <= a < 32 -> byte (Z.lor (as_u8 (Z.shiftl major 5)) a)) as Htag.
  { intros a Ha. rewrite lor_tag by done. unfold byte. lia. }
  destruct (Z.ltb_spec len 24).
  { repeat constructor; apply Htag; unfold as_u8; rewrite Z.mod_small; lia. }
  repeat case_match; rewrite !Forall_cons; split_and!;
    by first [apply Forall_nil|apply as_u8_byte|apply Htag; lia].
Qed.

(** ** Theorems *)

Section Decode.
Context (cbor : list Z) (Hbytes : Forall byte cbor) (Hlen : Z.of_nat (length cbor) <= i64_max).

(** A head with the checks of the decoder. *)
Lemma check_head offset major h :
  0 <= major <= 7 -> read_head cbor offset = inr h ->
  negb (ch_major h =? major) || ch_indefinite h || negb (ch_value h =? 1) = false ->
  exists hd, drop offset cbor = hd ++ drop (ch_offset h) cbor /\ head_bytes major 1 hd
    /\ (ch_offset h <= length cbor)%nat.
Proof using Hbytes.
  intros Hm Hr Hc. destruct (read_head_facts _ _ _ Hbytes Hr) as (hd & Hd & _ & [_ Hh] & Hle & _).
  apply orb_false_iff in Hc as [[Hmaj Hi]%orb_false_iff Hv]. apply negb_false_iff, Z.eqb_eq in Hmaj, Hv.
  rewrite Hi, Hmaj, Hv in Hh. exists hd. split_and!; [done|done|lia].
Qed.

Lemma decode_sound out : decode_zcash_pczt_ur_cbor cbor = Decoded out -> pczt_cbor out cbor.
Proof using Hbytes Hlen.
  unfold decode_zcash_pczt_ur_cbor. destruct (read_head cbor 0) as [|hm] eqn:Em; [done|].
  destruct (_ || _) eqn:Cm; [done|]. apply (check_head 0 5) in Em as (bm & Hdm & Hm & _); [|lia|done]. clear Cm.
  destruct (read_head cbor (ch_offset hm)) as [|hk] eqn:Ek; [done|].
  destruct (_ || _) eqn:Ck; [done|]. apply (check_head _ 0) in Ek as (bk & Hdk & Hk & _); [|lia|done]. clear Ck.
  destruct (read_head cbor (ch_offset hk)) as [|hv] eqn:Ev; [done|].
  destruct (read_head_facts _ _ _ Hbytes Ev) as (bv & Hdv & _ & [_ Hh] & Hle & Hv).
  destruct (negb (ch_major hv =? 2)) eqn:Cv; [done|]. apply negb_false_iff, Z.eqb_eq in Cv. rewrite Cv in Hh.
  rewrite drop_0 in Hdm. rewrite Hdk, Hdv in Hdm. clear Hdk Hdv.
  destruct (ch_indefinite hv) eqn:Ei; cbn [negb].
  - intros (more & c & end_ & Hd & Hc & Hend & ->)%read_chunks_sound; [|done|done|lia].
    rewrite Hd, Hh in Hdm. rewrite Hdm. by apply pczt_chunked.
  - specialize (Hv eq_refl). rewrite read_bytes_eq by (done || lia).
    destruct (Z.leb_spec (Z.of_nat (ch_offset hv) + ch_value hv) (Z.of_nat (length cbor))); [|by destruct (_ <? _)].
    intros [-> Hend]%at_end_Decoded. destruct (take_drop_bytes cbor (ch_offset hv) (ch_value hv)) as [Ht Hl]; [lia..|].
    rewrite (drop_ge cbor (_ + _)), app_nil_r in Ht by lia. rewrite <- Ht in Hl |- *.
    rewrite Hdm at 2. apply pczt_definite; [done|done|]. by rewrite Hl.
Qed.

Lemma decode_complete out : pczt_cbor out cbor -> decode_zcash_pczt_ur_cbor cbor = Decoded out.
Proof using Hbytes Hlen.
  assert (forall hm hk rest, cbor = hm ++ hk ++ rest -> head_bytes 5 1 hm -> head_bytes 0 1 hk ->
    exists o, drop o cbor = rest /\ (o <= length cbor)%nat
      /\ decode_zcash_pczt_ur_cbor cbor =
         match read_head cbor o with
         | inl e => Refused e
         | inr value =>
             if negb (ch_major value =? 2) then Refused (Invalid "expected byte string")
             else if negb (ch_indefinite value) then
               read_bytes cbor (ch_offset value) (ch_value value) "truncated data"
                 (fun bytes offset => at_end cbor offset bytes)
             else read_chunks (S (length cbor)) cbor (ch_offset value) []
         end) as Hstart.
  { intros hm hk rest E Hm Hk. unfold decode_zcash_pczt_ur_cbor.
    destruct (read_head_complete cbor 0 hm (hk ++ rest) 5 1 Hbytes ltac:(lia) E Hm) as [-> Hd]. simpl in *.
    destruct (read_head_complete cbor (length hm) hk rest 0 1 Hbytes ltac:(lia) Hd Hk) as [-> Hd']. simpl.
    eexists. split; [done|]. split; [|done]. rewrite E, !length_app. lia. }
  intros Hp. remember cbor as c0 eqn:E in Hp.
  destruct Hp as [hm hk hb Hm Hk Hb|hm hk c end_ Hm Hk Hc Hend]; symmetry in E;
    destruct (Hstart _ _ _ E Hm Hk) as (o & Hd & Ho & ->).
  - destruct (read_head_complete cbor o hb out 2 _ Hbytes ltac:(lia) Hd Hb) as [Hr Hd'].
    destruct (read_head_facts _ _ _ Hbytes Hr) as (_ & _ & _ & _ & Hlt & Hv). rewrite Hr. simpl in *.
    pose proof (f_equal length Hd') as Hl. rewrite length_drop in Hl.
    rewrite read_bytes_eq by (try apply Hv; done || lia). rewrite (proj2 (Z.leb_le _ _)) by lia.
    apply at_end_Decoded. rewrite Nat2Z.id, Hd', take_ge by lia. split; [done|lia].
  - assert (read_head cbor o = inr (mkCborHead 2 0 (S o) true) /\ drop (S o) cbor = c ++ end_) as [-> Hd'].
    { unfold read_head. simpl in Hd. by take_byte Hd. }
    simpl. pose proof (f_equal length Hd) as Hl. rewrite length_drop in Hl. simpl in Hl.
    apply (read_chunks_complete cbor Hbytes Hlen out c end_ Hc Hend (S (length cbor)) (S o) []); [lia|lia|done].
Qed.

(** A panic has one cause: a length that does not fit beside its offset. *)
Lemma read_chunks_panic fuel offset chunks :
  (offset <= length cbor)%nat -> read_chunks fuel cbor offset chunks = Panicked ->
  exists o h, read_head cbor o = inr h /\ 2 ^ 64 <= Z.of_nat (ch_offset h) + ch_value h.
Proof using Hbytes Hlen.
  revert offset chunks. induction fuel as [|fuel IH]; intros offset chunks Ho; [done|]. simpl.
  destruct (cbor !! offset) as [b|]; [|unfold at_end; by case_match].
  destruct (b =? 255); [unfold at_end; by case_match|].
  destruct (read_head cbor offset) as [e|h] eqn:Eh; [done|].
  destruct (read_head_facts _ _ _ Hbytes Eh) as (_ & _ & _ & _ & Hlt & Hv).
  destruct (_ || _) eqn:Ec; [done|]. apply orb_false_iff in Ec as [_ Ei]. specialize (Hv Ei).
  rewrite read_bytes_eq by (done || lia). destruct (Z.leb_spec (Z.of_nat (ch_offset h) + ch_value h) (Z.of_nat (length cbor))).
  - apply IH. lia.
  - destruct (Z.ltb_spec (Z.of_nat (ch_offset h) + ch_value h) (2 ^ 64)); [done|]. eauto.
Qed.
End Decode.

(** C37. The decoder of the hardware signer's payloads accepts exactly the
    CBOR maps from key 1 to a byte string, in one piece or in chunks, with
    every head in any of its widths, and answers the bytes of that string:
    nothing is accepted with bytes left over or missing, except that the
    break code after the last chunk may be missing. *)
Theorem keystone_payload_exact (cbor out : list Z) :
  Forall byte cbor -> Z.of_nat (length cbor) <= i64_max ->
  decode_zcash_pczt_ur_cbor cbor = Decoded out <-> pczt_cbor out cbor.
Proof. intros Hb Hl. split; [by apply decode_sound|by apply decode_complete]. Qed.

(** What is encoded for the hardware signer decodes to the same bytes. *)
Theorem keystone_payload_roundtrip (pczt_bytes : list Z) :
  Forall byte pczt_bytes -> Z.of_nat (length (encode_zcash_pczt_ur_cbor pczt_bytes)) <= i64_max ->
  decode_zcash_pczt_ur_cbor (encode_zcash_pczt_ur_cbor pczt_bytes) = Decoded pczt_bytes.
Proof.
  intros Hb Hl. assert (Z.of_nat (length pczt_bytes) < 2 ^ 64).
  { unfold encode_zcash_pczt_ur_cbor, i64_max in Hl. rewrite !length_app in Hl. lia. }
  apply decode_complete; [|done|].
  - unfold encode_zcash_pczt_ur_cbor. rewrite !Forall_app. split_and!; try apply encode_head_bytes; done || lia.
  - apply pczt_definite; apply encode_head; lia.
Qed.

(** The decoder always ends; it panics, instead of refusing its input, only
    where the length of a byte string does not fit beside its offset. *)
Theorem keystone_decoder_ends (cbor : list Z) :
  Forall byte cbor -> Z.of_nat (length cbor) <= i64_max ->
  decode_zcash_pczt_ur_cbor cbor <> NoFuel
  /\ (decode_zcash_pczt_ur_cbor cbor = Panicked ->
      exists o h, read_head cbor o = inr h /\ 2 ^ 64 <= Z.of_nat (ch_offset h) + ch_value h).
Proof.
  intros Hb Hl. unfold decode_zcash_pczt_ur_cbor.
  destruct (read_head cbor 0) as [|hm]; [done|]. destruct (_ || _); [done|].
  destruct (read_head cbor (ch_offset hm)) as [|hk]; [done|]. destruct (_ || _); [done|].
  destruct (read_head cbor (ch_offset hk)) as [|hv] eqn:Ev; [done|].
  destruct (read_head_facts _ _ _ Hb Ev) as (_ & _ & _ & _ & Hlt & Hv).
  destruct (negb (ch_major hv =? 2)); [done|]. destruct (ch_indefinite hv) eqn:Ei; cbn [negb].
  - split; [apply read_chunks_fuel; try done; lia|]. apply read_chunks_panic; try done; lia.
  - rewrite read_bytes_eq by (try apply Hv; done || lia). destruct (_ <=? _).
    + unfold at_end. by case_match.
    + destruct (Z.ltb_spec (Z.of_nat (ch_offset hv) + ch_value hv) (2 ^ 64)); [done|]. split; [done|]. eauto.
Qed.

(** Eleven bytes make the decoder panic. *)
Example keystone_decoder_panics :
  decode_zcash_pczt_ur_cbor (0xa1 :: 0x01 :: 0x5b :: replicate 8 0xff) = Panicked.
Proof. reflexivity. Qed.

(** A chunked string without its break code is accepted. *)
Example keystone_missing_break : decode_zcash_pczt_ur_cbor [0xa1; 0x01; 0x5f; 0x42; 7; 8] = Decoded [7; 8].
Proof. reflexivity. Qed.

Lemma keystone_payload_exact_witness :
  pczt_cbor [7; 8; 9] [0xa1; 0x18; 0x01; 0x5f; 0x42; 7; 8; 0x58; 1; 9; 0xff].
Proof.
  apply (keystone_payload_exact [0xa1; 0x18; 0x01; 0x5f; 0x42; 7; 8; 0x58; 1; 9; 0xff] [7; 8; 9]).
  - repeat constructor; unfold byte; lia.
  - unfold i64_max. simpl. lia.
  - reflexivity.
Defined.

Lemma keystone_payload_roundtrip_witness :
  decode_zcash_pczt_ur_cbor (encode_zcash_pczt_ur_cbor (replicate 300 5)) = Decoded (replicate 300 5).
Proof.
  apply (keystone_payload_roundtrip (replicate 300 5)).
  - apply Forall_replicate. unfold byte. lia.
  - vm_compute. discriminate.
Defined.

(** ** PCZT payloads *)

(** The [pczt] crate: serialisation, the redactions of the [Redactor] role
    by bundle, and the [Combiner] role. *)
Record PcztLib (P : Type) := mkPcztLib {
  pl_serialize : P -> string;
  pl_parse : string -> string + P;
  pl_redact_global_proprietary : string -> P -> P;
  pl_clear_orchard_spend_witnesses : P -> P;
  pl_redact_orchard_output_proprietary : string -> P -> P;
  pl_clear_sapling_spend_witnesses : P -> P;
  pl_redact_sapling_output_proprietary : string -> P -> P;
  pl_redact_transparent_output_proprietary : string -> P -> P;
  pl_combine : list P -> string + P;
}.
Arguments pl_serialize {_}.
Arguments pl_parse {_}.
Arguments pl_redact_global_proprietary {_}.
Arguments pl_clear_orchard_spend_witnesses {_}.
Arguments pl_redact_orchard_output_proprietary {_}.
Arguments pl_clear_sapling_spend_witnesses {_}.
Arguments pl_redact_sapling_output_proprietary {_}.
Arguments pl_redact_transparent_output_proprietary {_}.
Arguments pl_combine {_}.

Inductive PcztPayloadError := InvalidBase64 | InvalidPczt (message : string).

Section Pczt.
Context {P : Type} (lib : PcztLib P) (b64_encode : string -> string) (b64_decode : string -> option string).

Definition redact_for_signer (pczt : P) : P :=
  let pczt := pl_redact_global_proprietary lib "zcash_client_backend:proposal_info" pczt in
  let pczt := pl_redact_orchard_output_proprietary lib "zcash_client_backend:output_info"
                (pl_clear_orchard_spend_witnesses lib pczt) in
  let pczt := pl_redact_sapling_output_proprietary lib "zcash_client_backend:output_info"
                (pl_clear_sapling_spend_witnesses lib pczt) in
  pl_redact_transparent_output_proprietary lib "zcash_client_backend:output_info" pczt.

Definition encode_pczt_for_signer (pczt : P) : string := b64_encode (pl_serialize lib (redact_for_signer pczt)).
Definition encode_pczt_full (pczt : P) : string := b64_encode (pl_serialize lib pczt).
Definition encode_pczt_base64 (pczt : P) : string := encode_pczt_for_signer pczt.

Definition decode_pczt_base64 (payload : string) : PcztPayloadError + P :=
  match b64_decode payload with
  | None => inl InvalidBase64
  | Some bytes => match pl_parse lib bytes with inr p => inr p | inl e => inl (InvalidPczt e) end
  end.

Definition decode_pczt_full (payload : string) : PcztPayloadError + P := decode_pczt_base64 payload.

Definition combine_pczts (pczt_with_proofs pczt_with_sigs : P) : PcztPayloadError + P :=
  match pl_combine lib [pczt_with_proofs; pczt_with_sigs] with
  | inr p => inr p
  | inl e => inl (InvalidPczt ("failed to combine PCZTs: " +++ e))
  end.

Hypothesis b64_decode_encode : forall s, b64_decode (b64_encode s) = Some s.
Hypothesis parse_serialize : forall p, pl_parse lib (pl_serialize lib p) = inr p.

(** The signer is shown the redacted transaction, while the one that is kept
    is the full one; an answer of the signer that is neither base64 nor a
    PCZT is refused with the error for it. *)
Theorem pczt_payload_roundtrip (pczt : P) (payload : string) :
  decode_pczt_full (encode_pczt_full pczt) = inr pczt
  /\ decode_pczt_base64 (encode_pczt_for_signer pczt) = inr (redact_for_signer pczt)
  /\ (decode_pczt_base64 payload = inl InvalidBase64 <-> b64_decode payload = None).
Proof using b64_decode_encode parse_serialize.
  unfold decode_pczt_full, decode_pczt_base64, encode_pczt_full, encode_pczt_for_signer.
  rewrite !b64_decode_encode, !parse_serialize. split_and!; [done|done|].
  destruct (b64_decode payload) as [bytes|]; [|done]. by destruct (pl_parse lib bytes).
Qed.
End Pczt.
