(* ===== verification/CliServers.v ===== *)
(** The server commands of the command-line tool
    ([zbag-cli/src/commands/server.rs]): managing the stored servers, and the
    benchmark of block downloads.

    What a command prints is the value it returns.  [opened] is the outcome
    of [CliAppState::new]; the UUID parser, the URL parser and the answers of
    a server are arguments.  A run of the benchmark is scheduled by the order
    in which its downloads end. *)
From S2P Require Import Prelude Text Domain AppDb Servers Float64.
From Stdlib Require Import SpecFloat.
#[local] Open Scope list_scope.

(** ** Stored servers *)

Section Commands.
Context (url_parse : string -> Url + ParseError) (debug_assertions : bool).
Context (uuid_parse : string -> option Uuid).
Context (opened : result unit).

Definition cli_parse_network (chain_name : string) : result Network :=
  let name := to_lowercase (trim chain_name) in
  if bool_decide (name = "main") || bool_decide (name = "mainnet") then Ok Network.Mainnet
  else if bool_decide (name = "test") || bool_decide (name = "testnet") then Ok Network.Testnet
  else Err (AnyhowMsg ("unsupported chain_name: " +:+ name)).

Definition parse_server_id (id_str : string) : M AppDb Uuid :=
  match uuid_parse id_str with
  | Some uuid => mret uuid
  | None =>
      servers ← list_servers;
      let id_lower := to_lowercase id_str in
      match filter (fun s => starts_with (to_lowercase (srv_id s)) id_lower = true) servers with
      | [] => m_err (AnyhowMsg ("server not found: " +:+ id_str))
      | [s] => mret (srv_id s)
      | matches =>
          m_err (AnyhowMsg ("ambiguous server ID prefix '" +:+ id_str +:+ "' matches "
                            +:+ uint_to_string (Z.of_nat (length matches)) +:+ " servers"))
      end
  end.

Definition cli_list_servers : M AppDb (list ServerInfo) :=
  m_lift opened ;; list_servers.

Definition cli_add_server (probe : string -> result string) (name url : string) (fresh_id : Uuid) (now_ms : Z)
    : M AppDb ServerInfo :=
  let name := trim name in
  if is_empty name then m_err (AnyhowMsg "server name is required") else
  let url := trim url in
  if is_empty url then m_err (AnyhowMsg "gRPC URL is required") else
  m_lift (validate_grpc_url url_parse debug_assertions url) ;;
  m_lift opened ;;
  chain_name ← m_lift (match probe url with
                       | Ok c => Ok c
                       | Err e => Err (AnyhowMsg ("server probe failed: " +:+ error_to_string e))
                       end);
  network ← m_lift (cli_parse_network chain_name);
  let server := mkServerInfo fresh_id name url network false (Some now_ms) None in
  insert_server server now_ms ;;
  mret server.

Definition cli_find_server (server_id_str : string) : M AppDb ServerInfo :=
  m_lift opened ;;
  server_id ← parse_server_id server_id_str;
  found ← get_server server_id;
  m_lift (ok_or found (AnyhowMsg ("server not found: " +:+ server_id_str))).

Definition cli_set_default_server (server_id_str : string) : M AppDb ServerInfo :=
  m_lift opened ;;
  server_id ← parse_server_id server_id_str;
  found ← get_server server_id;
  server ← m_lift (ok_or found (AnyhowMsg ("server not found: " +:+ server_id_str)));
  m_lift (validate_grpc_url url_parse debug_assertions (srv_grpc_url server)) ;;
  set_default_server server_id ;;
  mret server.

(** The result that is printed, without the measured latency. *)
Definition cli_test_server (probe : string -> result string) (server_id_str : string) (now_ms : Z)
    : M AppDb TestServerResponse :=
  server ← cli_find_server server_id_str;
  match validate_grpc_url url_parse debug_assertions (srv_grpc_url server) with
  | Err e =>
      let message := match find_engine_ipc_error e with
                     | Some (_, m) => m | None => error_to_string e end in
      mret (mkTestServerResponse false (Some ("stored server configuration is invalid: " +:+ message)))
  | Ok _ =>
      match probe (srv_grpc_url server) with
      | Ok chain_name =>
          probed_network ← m_lift (cli_parse_network chain_name);
          if negb (bool_decide (probed_network = srv_network server))
          then mret (mkTestServerResponse false (Some "server network mismatch"))
          else
            m_ignore (update_last_success_at (srv_id server) now_ms) ;;
            mret (mkTestServerResponse true None)
      | Err e => mret (mkTestServerResponse false (Some (error_to_string e)))
      end
  end.
End Commands.

(** ** The benchmark *)

(** The rejected candidates are found in order; a [BTreeSet] is read back in
    ascending order without duplicates. *)
Definition normalize_candidates (values : list Z) (field : string) : result (list Z) :=
  if existsb (Z.eqb 0) values then Err (AnyhowMsg (field +:+ " entries must be > 0"))
  else match values with
       | [] => Err (AnyhowMsg (field +:+ " must contain at least one value"))
       | _ => Ok (isort Z.leb (remove_dups values))
       end.

(** The range that is measured. *)
Definition bench_range (tip : Z) (start_height end_height : option Z) (sample_blocks : Z) : result (Z * Z) :=
  let tip_plus_one := u32_saturating_add tip 1 in
  let end_exclusive := Z.min (default tip_plus_one end_height) tip_plus_one in
  let start := default (u32_saturating_sub end_exclusive sample_blocks) start_height in
  if end_exclusive <=? start
  then Err (AnyhowMsg ("invalid range: start_height (" +:+ uint_to_string start
                       +:+ ") must be less than end_height (" +:+ uint_to_string end_exclusive +:+ ")"))
  else Ok (start, end_exclusive).

Record BatchFetchResult := mkBatchFetchResult {
  bf_requested_blocks : Z; bf_returned_blocks : Z; bf_bytes : Z; bf_retries_used : Z;
}.

(** The answer to [GetBlockRange]: an error, or the encoded lengths of the
    blocks that were streamed and the error that cut the stream. *)
Inductive RangeAnswer := RpcFailed (e : error) | Streamed (lengths : list Z) (cut : option error).

Definition range_text (start end_exclusive : Z) : string :=
  uint_to_string start +:+ ".." +:+ uint_to_string end_exclusive.

Definition fetch_batch_once (answer : RangeAnswer) (start end_exclusive : Z) : result BatchFetchResult :=
  match answer with
  | RpcFailed e => Err (Context ("GetBlockRange " +:+ range_text start end_exclusive +:+ " RPC failed") e)
  | Streamed _ (Some e) => Err (Context ("stream read failed for range " +:+ range_text start end_exclusive) e)
  | Streamed lengths None =>
      Ok (mkBatchFetchResult (end_exclusive - start)
            (foldl (fun n _ => u64_saturating_add n 1) 0 lengths)
            (foldl u64_saturating_add 0 lengths) 0)
  end.

Definition backoff_ms (attempt : Z) : Z := Z.min (250 * Z.shiftl 1 (Z.min attempt 6)) 4000.

(** The loop from [attempt] on; [None] is a time-out.  Also the sleeps.  The
    fuel is the number of attempts that are left. *)
Fixpoint fetch_loop (fuel : nat) (answers : nat -> option RangeAnswer) (start end_exclusive max_retries timeout_secs : Z)
    (attempt : Z) : option (result BatchFetchResult) * list Z :=
  match fuel with
  | 0%nat => (None, [])
  | S fuel' =>
      let retry := fetch_loop fuel' answers start end_exclusive max_retries timeout_secs
                     (u32_saturating_add attempt 1) in
      let again := (fst retry, backoff_ms (u32_saturating_add attempt 1) :: snd retry) in
      match option_map (fun a => fetch_batch_once a start end_exclusive) (answers (Z.to_nat attempt)) with
      | Some (Ok r) =>
          (Some (Ok (mkBatchFetchResult (bf_requested_blocks r) (bf_returned_blocks r) (bf_bytes r) attempt)), [])
      | Some (Err e) =>
          if attempt <? max_retries then again
          else (Some (Err (Context ("batch " +:+ range_text start end_exclusive +:+ " failed after "
                                    +:+ uint_to_string (attempt + 1) +:+ " attempts") e)), [])
      | None =>
          if attempt <? max_retries then again
          else (Some (Err (AnyhowMsg ("batch " +:+ range_text start end_exclusive +:+ " timed out after "
                                      +:+ uint_to_string (attempt + 1) +:+ " attempts (timeout="
                                      +:+ uint_to_string timeout_secs +:+ "s)"))), [])
      end
  end.

Definition fetch_batch_with_retry (answers : nat -> option RangeAnswer) (start end_exclusive max_retries timeout_secs : Z)
    : option (result BatchFetchResult) * list Z :=
  if end_exclusive <=? start then (Some (Ok (mkBatchFetchResult 0 0 0 0)), [])
  else fetch_loop (S (Z.to_nat max_retries)) answers start end_exclusive max_retries timeout_secs 0.

(** *** One run *)

Record Run := mkRun {
  ru_next : Z;
  ru_in_flight : list (Z * Z);           (* the [JoinSet] *)
  ru_batches : Z; ru_requested : Z; ru_returned : Z; ru_bytes : Z; ru_retries : Z;
  ru_spawned : list (Z * Z);             (* every batch, in the order of its spawn *)
}.

Definition run_start (start : Z) : Run := mkRun start [] 0 0 0 0 0 [].

(** The inner loop; it stops at the latest after [parallelism] batches. *)
Fixpoint fill (fuel : nat) (end_exclusive batch_size : Z) (parallelism : nat) (s : Run) : Run :=
  match fuel with
  | 0%nat => s
  | S fuel' =>
      if (ru_next s <? end_exclusive) && (length (ru_in_flight s) <? parallelism)%nat then
        let batch_start := ru_next s in
        let batch_end := Z.min (u32_saturating_add batch_start batch_size) end_exclusive in
        fill fuel' end_exclusive batch_size parallelism
          (mkRun batch_end (ru_in_flight s ++ [(batch_start, batch_end)]) (u32_saturating_add (ru_batches s) 1)
             (ru_requested s) (ru_returned s) (ru_bytes s) (ru_retries s)
             (ru_spawned s ++ [(batch_start, batch_end)]))
      else s
  end.

(** A download ends: the [k]th of those in flight, with its outcome ([None]
    when its task panicked). *)
Definition join_batch (k : nat) (outcome : option (result BatchFetchResult)) (s : Run) : result Run :=
  match outcome with
  | None => Err (Context "fetch worker panicked" (AnyhowMsg "task panicked"))
  | Some (Err e) => Err e
  | Some (Ok b) =>
      Ok (mkRun (ru_next s) (delete k (ru_in_flight s)) (ru_batches s)
            (u64_saturating_add (ru_requested s) (bf_requested_blocks b))
            (u64_saturating_add (ru_returned s) (bf_returned_blocks b))
            (u64_saturating_add (ru_bytes s) (bf_bytes b))
            (u32_saturating_add (ru_retries s) (bf_retries_used b)) (ru_spawned s))
  end.

(** The outer loop along a schedule: [None] where the schedule names no
    download, or ends before the loop does.  [fetch] is the outcome of the
    download of a batch. *)
Fixpoint run_loop (schedule : list nat) (fetch : Z * Z -> option (result BatchFetchResult))
    (end_exclusive batch_size : Z) (parallelism : nat) (s : Run) : option (result Run) :=
  if (ru_next s <? end_exclusive) || (0 <? length (ru_in_flight s))%nat then
    let s := fill parallelism end_exclusive batch_size parallelism s in
    match ru_in_flight s, schedule with
    | [], _ => Some (Ok s)                                   (* [join_next] answers nothing *)
    | _, [] => None
    | _, k :: schedule' =>
        match ru_in_flight s !! k with
        | None => None
        | Some batch =>
            match join_batch k (fetch batch) s with
            | Err e => Some (Err e)
            | Ok s => run_loop schedule' fetch end_exclusive batch_size parallelism s
            end
        end
    end
  else Some (Ok s).

Record FetchRunResult := mkFetchRunResult {
  fr_run : Z; fr_elapsed_ms : Z; fr_batches : Z; fr_requested_blocks : Z; fr_returned_blocks : Z; fr_bytes : Z;
  fr_retries_used : Z; fr_blocks_per_sec : f64; fr_mib_per_sec : f64;
}.

(** [f64::EPSILON]. *)
Definition f64_epsilon : f64 := f64_lit 1 4503599627370496.

Definition run_result (run elapsed_nanos : Z) (s : Run) : FetchRunResult :=
  let elapsed_secs := f64_max (as_secs_f64 elapsed_nanos) f64_epsilon in
  mkFetchRunResult run (elapsed_nanos / 1000000) (ru_batches s) (ru_requested s) (ru_returned s) (ru_bytes s)
    (ru_retries s)
    (f64_div (f64_of_Z (ru_returned s)) elapsed_secs)
    (f64_div (f64_div (f64_of_Z (ru_bytes s)) (f64_mul (f64_of_Z 1024) (f64_of_Z 1024))) elapsed_secs).

(** *** Profiles *)

Definition average_f64 (values : list f64) : f64 :=
  match values with
  | [] => f64_of_Z 0
  | _ => f64_div (foldl f64_add (f64_of_Z 0) values) (f64_of_Z (Z.of_nat (length values)))
  end.

Record FetchProfileResult := mkFetchProfileResult {
  fp_batch_size : Z; fp_parallelism : Z; fp_successful_runs : Z; fp_failed_runs : Z;
  fp_avg_blocks_per_sec : f64; fp_avg_mib_per_sec : f64; fp_avg_elapsed_ms : f64; fp_avg_retries_per_run : f64;
  fp_runs : list FetchRunResult; fp_last_error : option string;
}.

(** The runs of a profile, in order. *)
Definition profile (batch_size parallelism : Z) (outcomes : list (result FetchRunResult)) : FetchProfileResult :=
  let runs := omap (fun o => match o with Ok r => Some r | Err _ => None end) outcomes in
  let errors := omap (fun o => match o with Ok _ => None | Err e => Some (error_to_string e) end) outcomes in
  mkFetchProfileResult batch_size parallelism (Z.of_nat (length runs))
    (foldl (fun n _ => u32_saturating_add n 1) 0 errors)
    (average_f64 (map fr_blocks_per_sec runs)) (average_f64 (map fr_mib_per_sec runs))
    (average_f64 (map (fun r => f64_of_Z (fr_elapsed_ms r)) runs))
    (average_f64 (map (fun r => f64_of_Z (fr_retries_used r)) runs)) runs (last errors).

(** [f64::to_bits] without the sign, and the key by which [total_cmp]
    compares. *)
Definition f64_magnitude (x : f64) : Z :=
  match x with
  | S754_zero _ => 0
  | S754_infinity _ => 2047 * 2 ^ 52
  | S754_nan => 2047 * 2 ^ 52 + 2 ^ 51
  | S754_finite _ m e => if Z.pos m <? 2 ^ 52 then Z.pos m else (e + 1075) * 2 ^ 52 + (Z.pos m - 2 ^ 52)
  end.
Definition f64_sign (x : f64) : bool :=
  match x with S754_zero s | S754_infinity s | S754_finite s _ _ => s | S754_nan => false end.
Definition total_key (x : f64) : Z := if f64_sign x then - f64_magnitude x - 1 else f64_magnitude x.

(** Whether [a] is not above [b] in the comparison of [max_by]. *)
Definition profile_leb (a b : FetchProfileResult) : bool :=
  match total_key (fp_avg_blocks_per_sec a) ?= total_key (fp_avg_blocks_per_sec b) with
  | Lt => true
  | Eq => fp_failed_runs b <=? fp_failed_runs a
  | Gt => false
  end.

(** [Iterator::max_by]: the last of the greatest elements. *)
Definition max_by {A} (leb : A -> A -> bool) (l : list A) : option A :=
  foldl (fun best x => match best with
                       | None => Some x
                       | Some b => if leb b x then Some x else Some b
                       end) None l.

Definition best_profile (profiles : list FetchProfileResult) : option FetchProfileResult :=
  max_by profile_leb (filter (fun p => 0 < fp_successful_runs p) profiles).

Record FetchBenchmarkReport := mkFetchBenchmarkReport {
  br_tip_height : Z; br_start_height : Z; br_end_height_exclusive : Z; br_total_blocks : Z;
  br_profiles : list FetchProfileResult; br_best : option FetchProfileResult;
}.

(** [run_one start end batch_size parallelism run]: the outcome of a run. *)
Definition benchmark_fetch (validate : string -> result unit) (latest : result Z)
    (run_one : Z -> Z -> Z -> Z -> Z -> result FetchRunResult) (url : string)
    (start_height end_height : option Z) (sample_blocks : Z) (batch_sizes parallelism : list Z)
    (repeats timeout_secs : Z) : result FetchBenchmarkReport :=
  validate url ;;
  if sample_blocks =? 0 then Err (AnyhowMsg "sample_blocks must be greater than 0") else
  if repeats =? 0 then Err (AnyhowMsg "repeats must be greater than 0") else
  if timeout_secs =? 0 then Err (AnyhowMsg "timeout_secs must be greater than 0") else
  batch_sizes ← normalize_candidates batch_sizes "batch_sizes";
  parallelism ← normalize_candidates parallelism "parallelism";
  tip ← with_context "failed to get chain tip from server" latest;
  '(start, end_exclusive) ← bench_range tip start_height end_height sample_blocks;
  let profiles := concat (map (fun batch_size => map (fun parallel =>
      profile batch_size parallel
        (map (fun run => run_one start end_exclusive batch_size parallel (Z.of_nat run)) (seq 1 (Z.to_nat repeats))))
    parallelism) batch_sizes) in
  Ok (mkFetchBenchmarkReport tip start end_exclusive (end_exclusive - start) profiles (best_profile profiles)).

(** ** The commands and the application *)

Section Agree.
Context (url_parse : string -> Url + ParseError) (debug : bool) (uuid_parse : string -> option Uuid).

(** The same success, or an error in both. *)
Definition same_outcome {A} (r r' : result A) : Prop :=
  match r, r' with Ok a, Ok a' => a = a' | Err _, Err _ => True | _, _ => False end.

Lemma cli_parse_network_agrees c : same_outcome (cli_parse_network c) (parse_network c).
Proof using Type. unfold cli_parse_network, parse_network. by repeat case_match. Qed.

Lemma add_server_agrees probe name url id now_ms db :
  let '(r, db1) := cli_add_server url_parse debug (Ok tt) probe name url id now_ms db in
  let '(r', db2) := add_server url_parse debug probe name url id now_ms db in
  same_outcome r r' /\ db1 = db2.
Proof using Type.
  unfold cli_add_server, add_server. destruct (is_empty (trim name)); [done|]. destruct (is_empty (trim url)); [done|].
  rewrite ?m_bind_eq. unfold m_lift. destruct (validate_grpc_url _ _ _); [|done]. rewrite ?m_bind_eq.
  destruct (probe (trim url)) as [c|]; [|done]. rewrite ?m_bind_eq.
  pose proof (cli_parse_network_agrees c) as Hn. destruct (cli_parse_network c), (parse_network c); try done.
  simpl in Hn. subst. rewrite ?m_bind_eq. by destruct (insert_server _ _ db) as [[] ?].
Qed.

Lemma set_default_agrees id_str id db db0 :
  parse_server_id uuid_parse id_str db = (Ok id, db0) ->
  let '(r, db1) := cli_set_default_server url_parse debug uuid_parse (Ok tt) id_str db in
  let '(r', db2) := set_default_server_cmd url_parse debug None id db0 in
  is_ok r = is_ok r' /\ db1 = db2.
Proof using Type.
  intros Hid. unfold cli_set_default_server, set_default_server_cmd. rewrite ?m_bind_eq. unfold m_lift.
  rewrite ?m_bind_eq, Hid, ?m_bind_eq. destruct (get_server id db0) as [[found|] db1]; [|done].
  rewrite ?m_bind_eq. destruct found as [server|]; [|done]. simpl. rewrite ?m_bind_eq.
  destruct (validate_grpc_url _ _ _); [|done]. rewrite ?m_bind_eq. simpl. rewrite ?m_bind_eq.
  by destruct (set_default_server id db1) as [[] ?].
Qed.

Lemma test_server_agrees probe id_str id now_ms db db0 :
  parse_server_id uuid_parse id_str db = (Ok id, db0) ->
  let '(r, db1) := cli_test_server url_parse debug uuid_parse (Ok tt) probe id_str now_ms db in
  let '(r', db2) := test_server url_parse debug probe id now_ms db0 in
  same_outcome r r' /\ db1 = db2.
Proof using Type.
  intros Hid. unfold cli_test_server, cli_find_server, test_server. rewrite ?m_bind_eq. unfold m_lift.
  rewrite ?m_bind_eq, Hid, ?m_bind_eq.
  destruct (get_server id db0) as [[found|] db1]; [|done]. destruct found as [server|]; [|done]. simpl. rewrite ?m_bind_eq.
  destruct (validate_grpc_url _ _ _); [|by split]. destruct (probe _) as [c|]; [|by split]. rewrite ?m_bind_eq.
  pose proof (cli_parse_network_agrees c) as Hn. destruct (cli_parse_network c), (parse_network c); try done.
  simpl in Hn. subst. destruct (negb _); by split.
Qed.

(** The stored server is of another network than the wallet that is open in
    the application. *)
Definition other_network (active : option Network) (id : Uuid) (db : AppDb) : Prop :=
  exists n r, active = Some n /\ find_first (server_id_is id) (adb_servers db) = Some r
    /\ srv_network (server_of_row r) <> n.

Lemma set_default_other_network active id db :
  let '(r, db1) := set_default_server_cmd url_parse debug None id db in
  let '(r', db2) := set_default_server_cmd url_parse debug active id db in
  (~ other_network active id db -> r' = r /\ db2 = db1)
  /\ (other_network active id db -> is_ok r' = false /\ adb_servers db2 = adb_servers db).
Proof using Type.
  unfold set_default_server_cmd, get_server. rewrite !m_bind_eq. db_step.
  destruct Hr as [-> | ->]; [|split; [done|intros _; split; [done|congruence]]].
  rewrite !m_get_bind. simpl. rewrite !m_bind_eq. unfold m_lift. rewrite Hsrv.
  destruct (find_first _ (adb_servers db)) as [r|] eqn:Ef; simpl;
    [|split; [done|intros (n & r & _ & ? & _); congruence]].
  rewrite !m_bind_eq. destruct (validate_grpc_url _ _ _) as [u|e]; [|split; [done|intros _; split; [done|congruence]]].
  unfold other_network, ensure_server_network_matches_active_wallet. rewrite Ef.
  cbv beta iota. destruct (set_default_server id db0) as [x db1].
  destruct active as [n|]; [|destruct x; (split; [done|by intros (? & ? & ? & _)])].
  change (parse_network_column (sr_network r)) with (srv_network (server_of_row r)).
  destruct (decide (n = srv_network (server_of_row r))) as [Hn|Hn].
  - rewrite bool_decide_eq_true_2 by done.
    destruct x; (split; [done|]; intros (m & r' & [= <-] & [= <-] & H); by destruct H).
  - rewrite bool_decide_eq_false_2 by done. destruct x; (split; [|by intros _; split; [|congruence]]);
      intros H; destruct H; by exists n, r.
Qed.
End Agree.

(** ** A run of the benchmark *)

(** The batches tile the range from [a] to [b]. *)
Fixpoint tiles (size a : Z) (l : list (Z * Z)) (b : Z) : Prop :=
  match l with
  | [] => a = b
  | (x, y) :: l' => x = a /\ a < y <= a + size /\ tiles size y l' b
  end.

Lemma tiles_snoc size a l b y : tiles size a l b -> b < y <= b + size -> tiles size a (l ++ [(b, y)]) y.
Proof.
  revert a. induction l as [|[u v] l IH]; intros a; simpl.
  - intros -> Hy. done.
  - intros (-> & Hv & Hl) Hy. split_and!; [done|lia|lia|]. by apply IH.
Qed.

Definition blocks (l : list (Z * Z)) : Z := foldr (fun b n => b.2 - b.1 + n) 0 l.

Lemma blocks_app l l' : blocks (l ++ l') = blocks l + blocks l'.
Proof. unfold blocks. induction l as [|b l IH]; simpl; lia. Qed.

Lemma blocks_delete l k b : l !! k = Some b -> blocks (delete k l) = blocks l - (b.2 - b.1).
Proof.
  unfold blocks. revert k. induction l as [|c l IH]; intros [|k] H; simpl in *; simplify_eq; [lia|].
  rewrite (IH k H). lia.
Qed.

Lemma blocks_nonneg l : Forall (fun b : Z * Z => b.1 < b.2) l -> 0 <= blocks l.
Proof. unfold blocks. induction 1; simpl; lia. Qed.

Section RunFacts.
Context (start end_exclusive batch_size : Z) (parallelism : nat).
Context (Hstart : 0 <= start <= end_exclusive) (Hend : end_exclusive <= u32_max)
        (Hsize : 0 < batch_size) (Hpar : (0 < parallelism)%nat).
Context (fetch : Z * Z -> option (result BatchFetchResult)).
(** A download that succeeds says how many blocks it was asked for. *)
Context (Hfetch : forall b r, fetch b = Some (Ok r) -> bf_requested_blocks r = b.2 - b.1).

Record run_inv (s : Run) : Prop := {
  ri_next : start <= ru_next s <= end_exclusive;
  ri_tiles : tiles batch_size start (ru_spawned s) (ru_next s);
  ri_flight : (length (ru_in_flight s) <= parallelism)%nat;
  ri_bounds : Forall (fun b : Z * Z => b.1 < b.2) (ru_in_flight s);
  ri_requested : 0 <= ru_requested s /\ ru_requested s + blocks (ru_in_flight s) = ru_next s - start;
}.

Definition run_left (s : Run) : nat := (Z.to_nat (end_exclusive - ru_next s) + length (ru_in_flight s))%nat.

Lemma run_start_inv : run_inv (run_start start).
Proof using Hstart Hpar. split; simpl; try done; try lia. Qed.

(** After the inner loop everything that may run is running. *)
Lemma fill_inv fuel s :
  run_inv s -> (parallelism <= fuel + length (ru_in_flight s))%nat ->
  let s' := fill fuel end_exclusive batch_size parallelism s in
  run_inv s' /\ (run_left s' <= run_left s)%nat
  /\ (ru_next s' = end_exclusive \/ length (ru_in_flight s') = parallelism).
Proof using Hstart Hend Hsize Hpar.
  revert s. induction fuel as [|fuel IH]; intros s Hs Hf; simpl.
  - destruct Hs. split_and!; [done|done|]. right. lia.
  - destruct (Z.ltb_spec (ru_next s) end_exclusive) as [Hlt|Hge]; simpl.
    2:{ destruct Hs as [Hn]. split_and!; [by constructor|done|]. left. lia. }
    destruct (Nat.ltb_spec (length (ru_in_flight s)) parallelism) as [Hl|Hl].
    2:{ pose proof (ri_flight s Hs). split_and!; [done|done|]. right. lia. }
    destruct Hs as [Hn Ht Hfl Hb [Hr0 Hr]]. set (y := Z.min _ end_exclusive).
    assert (ru_next s < y <= ru_next s + batch_size /\ y <= end_exclusive) as [Hy Hy'].
    { unfold y, u32_saturating_add, clampZ, u32_max in *. lia. }
    match goal with |- context [fill fuel _ _ _ ?x] => set (s1 := x) end.
    destruct (IH s1) as (H1 & H2 & H3).
    + split; simpl.
      * lia.
      * by apply tiles_snoc.
      * rewrite length_app. simpl. lia.
      * apply Forall_app. split; [done|]. constructor; [simpl; lia|constructor].
      * rewrite blocks_app. unfold blocks at 2. simpl. lia.
    + simpl. rewrite length_app. simpl. lia.
    + split_and!; [done| |done]. etransitivity; [exact H2|]. unfold run_left. simpl. rewrite length_app. simpl. lia.
Qed.

Lemma join_batch_inv k b s s' :
  run_inv s -> ru_in_flight s !! k = Some b -> join_batch k (fetch b) s = Ok s' ->
  run_inv s' /\ S (run_left s') = run_left s.
Proof using Hstart Hend Hpar Hfetch.
  intros [Hn Ht Hfl Hb [Hr0 Hr]] Hk. unfold join_batch. destruct (fetch b) as [[r|]|] eqn:Ef; [|done..].
  intros [= <-]. rewrite (Hfetch b r Ef). pose proof (length_delete (ru_in_flight s) k (mk_is_Some _ _ Hk)) as Hl.
  pose proof (lookup_lt_Some _ _ _ Hk). pose proof (blocks_delete _ _ _ Hk) as Hbl.
  assert (Forall (fun b : Z * Z => b.1 < b.2) (delete k (ru_in_flight s))) as Hb' by by apply Forall_delete.
  pose proof (blocks_nonneg _ Hb'). pose proof (Forall_lookup_1 _ _ _ _ Hb Hk) as Hbk. simpl in Hbk.
  unfold run_left, u64_saturating_add, clampZ, u64_max, u32_max in *. split; [split|]; simpl; try done; try lia.
Qed.

Lemma run_loop_inv schedule s s' :
  run_inv s -> run_loop schedule fetch end_exclusive batch_size parallelism s = Some (Ok s') ->
  run_inv s' /\ ru_next s' = end_exclusive /\ ru_in_flight s' = [].
Proof using Hstart Hend Hsize Hpar Hfetch.
  revert s. induction schedule as [|k schedule IH]; intros s Hs; simpl;
    destruct (_ || _) eqn:Ec; try discriminate.
  2,4: intros [= <-]; split; [done|]; apply orb_false_iff in Ec as [E1 E2]; apply Z.ltb_ge in E1;
    apply Nat.ltb_ge in E2; pose proof (ri_next s Hs); split; [lia|]; destruct (ru_in_flight s); [done|simpl in E2; lia].
  all: destruct (fill_inv parallelism s Hs ltac:(lia)) as (H1 & _ & H3);
    set (s1 := fill parallelism end_exclusive batch_size parallelism s) in *.
  - destruct (ru_in_flight s1) eqn:Ei; [|done]. intros [= <-]. rewrite Ei. split_and!; [done| |done].
    destruct H3 as [H3|H3]; [done|]. simpl in H3. lia.
  - destruct (ru_in_flight s1) as [|b0 l] eqn:Ei.
    { intros [= <-]. rewrite Ei. split_and!; [done| |done]. destruct H3 as [H3|H3]; [done|]. simpl in H3. lia. }
    rewrite <- Ei. destruct (ru_in_flight s1 !! k) as [b|] eqn:Ek; [|done].
    destruct (join_batch k (fetch b) s1) as [s2|] eqn:Ej; [|done].
    apply IH. by apply (join_batch_inv k b s1).
Qed.

(** With a schedule that is long enough, a run ends. *)
Lemma run_loop_ends n s :
  run_inv s -> (run_left s <= n)%nat ->
  is_Some (run_loop (replicate n 0%nat) fetch end_exclusive batch_size parallelism s).
Proof using Hstart Hend Hsize Hpar Hfetch.
  revert s. induction n as [|n IH]; intros s Hs Hn; simpl; destruct (_ || _) eqn:Ec; try by eexists.
  all: destruct (fill_inv parallelism s Hs ltac:(lia)) as (H1 & H2 & _);
    set (s1 := fill parallelism end_exclusive batch_size parallelism s) in *.
  - destruct (ru_in_flight s1) eqn:Ei; [by eexists|]. unfold run_left in H2 at 1. rewrite Ei in H2. simpl in H2. lia.
  - destruct (ru_in_flight s1) as [|b l] eqn:Ei; [by eexists|]. simpl.
    destruct (join_batch 0 (fetch b) s1) as [s2|] eqn:Ej; [|by eexists].
    apply (join_batch_inv 0 b s1) in Ej as [Hs2 Hm]; [|done|by rewrite Ei]. apply IH; [done|lia].
Qed.
End RunFacts.

(** *** Downloads with retries *)

Lemma fetch_batch_once_requested a start end_exclusive r :
  fetch_batch_once a start end_exclusive = Ok r -> bf_requested_blocks r = end_exclusive - start.
Proof. unfold fetch_batch_once. repeat case_match; try done. by intros [= <-]. Qed.

(** From [attempt] on: a result, after at most the retries that are left. *)
Lemma fetch_loop_result fuel answers start end_exclusive max_retries secs attempt :
  0 <= attempt <= max_retries -> max_retries <= u32_max -> (Z.to_nat (max_retries - attempt) < fuel)%nat ->
  exists r sleeps, fetch_loop fuel answers start end_exclusive max_retries secs attempt = (Some r, sleeps)
    /\ sleeps = map (fun i => backoff_ms (attempt + 1 + Z.of_nat i)) (seq 0 (length sleeps))
    /\ Z.of_nat (length sleeps) <= max_retries - attempt
    /\ (forall b, r = Ok b -> bf_requested_blocks b = end_exclusive - start
                             /\ bf_retries_used b = attempt + Z.of_nat (length sleeps)).
Proof.
  revert attempt. induction fuel as [|fuel IH]; intros attempt Ha Hm Hf; [lia|].
  assert (forall e, exists r sleeps,
    (if attempt <? max_retries
     then (fst (fetch_loop fuel answers start end_exclusive max_retries secs (u32_saturating_add attempt 1)),
           backoff_ms (u32_saturating_add attempt 1)
             :: snd (fetch_loop fuel answers start end_exclusive max_retries secs (u32_saturating_add attempt 1)))
     else (Some (Err e), [])) = (Some r, sleeps)
    /\ sleeps = map (fun i => backoff_ms (attempt + 1 + Z.of_nat i)) (seq 0 (length sleeps))
    /\ Z.of_nat (length sleeps) <= max_retries - attempt
    /\ (forall b, r = Ok b -> bf_requested_blocks b = end_exclusive - start
                             /\ bf_retries_used b = attempt + Z.of_nat (length sleeps))) as Hagain.
  { intros e. destruct (Z.ltb_spec attempt max_retries) as [Hlt|Hge].
    - replace (u32_saturating_add attempt 1) with (attempt + 1) by (unfold u32_saturating_add, clampZ, u32_max in *; lia).
      destruct (IH (attempt + 1)) as (r & sleeps & -> & Hs & Hl & Hr); [lia|lia|lia|]. simpl.
      exists r, (backoff_ms (attempt + 1) :: sleeps). split_and!; [done| |simpl; lia|].
      + simpl. f_equal; [f_equal; lia|]. rewrite Hs at 1. rewrite <- fmap_S_seq, <- list_fmap_compose.
        apply list_fmap_ext. intros i x _. simpl. f_equal. lia.
      + intros b Hb. destruct (Hr b Hb). simpl. split; [done|lia].
    - exists (Err e), []. simpl. split_and!; [done|done|lia|done]. }
  simpl. destruct (answers (Z.to_nat attempt)) as [a|]; simpl; [|apply Hagain].
  destruct (fetch_batch_once a start end_exclusive) as [r|e] eqn:Eo; [|apply Hagain].
  eexists _, []. split_and!; [done|done|simpl; lia|]. intros b [= <-]. simpl.
  split; [by apply (fetch_batch_once_requested a)|lia].
Qed.

Lemma fetch_batch_requested answers max_retries secs b r :
  0 <= max_retries <= u32_max -> b.1 < b.2 ->
  (fetch_batch_with_retry answers b.1 b.2 max_retries secs).1 = Some (Ok r) -> bf_requested_blocks r = b.2 - b.1.
Proof.
  intros Hm Hb. unfold fetch_batch_with_retry. rewrite (proj2 (Z.leb_gt _ _)) by done.
  destruct (fetch_loop_result (S (Z.to_nat max_retries)) answers b.1 b.2 max_retries secs 0) as (r' & sl & -> & _ & _ & Hr);
    [lia|lia|lia|]. intros [= ->]. by apply Hr.
Qed.

(** ** Theorems *)

(** C40. The command-line tool manages servers as the application does.  Given
    the same name and URL, the same answers of the probe, the same fresh id and
    time, adding a server stores the same fields and is refused for the same
    inputs.  Given a server id, in full or a prefix that names one stored
    server, the tool makes it the default, or tests it, just as the application
    does with that id while no wallet is open (the texts of the errors
    differ).  With a wallet open the application refuses a server of another
    network, and changes no server, where the tool, which opens none, goes on;
    for the others it answers as before. *)
Theorem cli_servers_agree (url_parse : string -> Url + ParseError) (debug : bool) (uuid_parse : string -> option Uuid)
    (probe : string -> result string) (name url id_str : string) (fresh_id : Uuid) (now_ms : Z) (db : AppDb) :
  (let '(r, db1) := cli_add_server url_parse debug (Ok tt) probe name url fresh_id now_ms db in
   let '(r', db2) := add_server url_parse debug probe name url fresh_id now_ms db in
   same_outcome r r' /\ db1 = db2)
  /\ forall id db0, parse_server_id uuid_parse id_str db = (Ok id, db0) ->
     (let '(r, db1) := cli_set_default_server url_parse debug uuid_parse (Ok tt) id_str db in
      let '(r0, db2) := set_default_server_cmd url_parse debug None id db0 in
      is_ok r = is_ok r0 /\ db1 = db2
      /\ forall active, let '(r', db3) := set_default_server_cmd url_parse debug active id db0 in
         (~ other_network active id db0 -> r' = r0 /\ db3 = db2)
         /\ (other_network active id db0 -> is_ok r' = false /\ adb_servers db3 = adb_servers db0))
     /\ (let '(r, db1) := cli_test_server url_parse debug uuid_parse (Ok tt) probe id_str now_ms db in
         let '(r', db2) := test_server url_parse debug probe id now_ms db0 in
         same_outcome r r' /\ db1 = db2).
Proof.
  split; [apply add_server_agrees|]. intros id db0 Hid. split; [|by apply test_server_agrees].
  pose proof (set_default_agrees url_parse debug uuid_parse id_str id db db0 Hid) as H1.
  pose proof (fun active => set_default_other_network url_parse debug active id db0) as H2.
  destruct (cli_set_default_server _ _ _ _ _ _) as [r db1], (set_default_server_cmd _ _ None _ _) as [r0 db2].
  by destruct H1.
Qed.

(** A prefix that is accepted names one stored server, whose id it starts. *)
Theorem server_prefix_unique (uuid_parse : string -> option Uuid) (id_str : string) (id : Uuid) (db db' : AppDb) :
  uuid_parse id_str = None -> parse_server_id uuid_parse id_str db = (Ok id, db') ->
  exists s, srv_id s = id /\ starts_with (to_lowercase id) (to_lowercase id_str) = true
    /\ filter (fun s => starts_with (to_lowercase (srv_id s)) (to_lowercase id_str) = true)
         (map server_of_row (isort server_order (adb_servers db))) = [s].
Proof.
  intros Hn. unfold parse_server_id. rewrite Hn, m_bind_eq.
  destruct (list_servers db) as [[servers|] db1] eqn:El; [|done].
  assert (servers = map server_of_row (isort server_order (adb_servers db))) as <-.
  { revert El. unfold list_servers, mbind, M_bind, m_get, mret, M_ret. db_step. rewrite <- Hsrv.
    destruct Hr as [-> | ->]; [|done]. by intros [= <- _]. }
  destruct (filter _ servers) as [|s [|s2 l]] eqn:Ef; [done| |done]. intros [= <- _]. exists s. split_and!; [done| |done].
  assert (s ∈ filter (fun s => starts_with (to_lowercase (srv_id s)) (to_lowercase id_str) = true) servers) as Hs
    by (rewrite Ef; constructor).
  by apply list_elem_of_filter in Hs as [? _].
Qed.

(** A run of the download benchmark ends, in whatever order its
    downloads do, and one without a failed download has asked for every block
    of the range exactly once, in batches of at most the given size; at most
    [parallelism] downloads run at a time; a batch is tried at most
    [max_retries + 1] times, each wait being at most four seconds. *)
Theorem benchmark_run_covers (start end_exclusive batch_size max_retries secs : Z) (parallelism : nat)
    (answers : Z * Z -> nat -> option RangeAnswer) :
  0 <= start <= end_exclusive -> end_exclusive <= u32_max -> 0 < batch_size -> (0 < parallelism)%nat ->
  0 <= max_retries <= u32_max ->
  let fetch b := if b.1 <? b.2 then (fetch_batch_with_retry (answers b) b.1 b.2 max_retries secs).1 else None in
  let loop schedule := run_loop schedule fetch end_exclusive batch_size parallelism (run_start start) in
  is_Some (loop (replicate (Z.to_nat (end_exclusive - start)) 0%nat))
  /\ (forall schedule s, loop schedule = Some (Ok s) ->
        tiles batch_size start (ru_spawned s) end_exclusive /\ ru_in_flight s = []
        /\ ru_requested s = end_exclusive - start)
  /\ (forall b, Forall (fun ms => ms <= 4000) (fetch_batch_with_retry (answers b) b.1 b.2 max_retries secs).2
        /\ Z.of_nat (length (fetch_batch_with_retry (answers b) b.1 b.2 max_retries secs).2) <= max_retries).
Proof.
  intros Hs He Hb Hp Hm fetch loop.
  assert (forall b r, fetch b = Some (Ok r) -> bf_requested_blocks r = b.2 - b.1) as Hf.
  { intros b r. unfold fetch. destruct (Z.ltb_spec b.1 b.2); [|done]. by apply fetch_batch_requested. }
  pose proof (run_start_inv start end_exclusive batch_size parallelism Hs Hp) as H0. split_and!.
  - apply (run_loop_ends start); try done. unfold run_left. simpl. lia.
  - intros schedule s Hl. apply (run_loop_inv start) in Hl as ([_ Ht _ _ [_ Hr]] & Hn & Hi); try done.
    rewrite Hn in Ht, Hr. rewrite Hi in Hr. unfold blocks in Hr. simpl in Hr. split_and!; [done|done|lia].
  - intros b. unfold fetch_batch_with_retry. destruct (Z.leb_spec b.2 b.1); [simpl; split; [constructor|lia]|].
    destruct (fetch_loop_result (S (Z.to_nat max_retries)) (answers b) b.1 b.2 max_retries secs 0)
      as (r & sl & -> & Hsl & Hlen & _); [lia|lia|lia|]. simpl. split; [|lia].
    rewrite Hsl. apply Forall_forall. intros ms (i & -> & _)%list_elem_of_fmap. unfold backoff_ms. lia.
Qed.

(** *** The winner *)

Lemma profile_leb_trans a b c : profile_leb a b = true -> profile_leb b c = true -> profile_leb a c = true.
Proof.
  unfold profile_leb.
  destruct (Z.compare_spec (total_key (fp_avg_blocks_per_sec a)) (total_key (fp_avg_blocks_per_sec b)));
  destruct (Z.compare_spec (total_key (fp_avg_blocks_per_sec b)) (total_key (fp_avg_blocks_per_sec c)));
  destruct (Z.compare_spec (total_key (fp_avg_blocks_per_sec a)) (total_key (fp_avg_blocks_per_sec c))); lia.
Qed.

Lemma profile_leb_total a b : profile_leb a b = false -> profile_leb b a = true.
Proof.
  unfold profile_leb. rewrite (Z.compare_antisym (total_key (fp_avg_blocks_per_sec a))).
  destruct (Z.compare _ _); simpl; lia.
Qed.

Lemma profile_leb_refl a : profile_leb a a = true.
Proof. unfold profile_leb. rewrite Z.compare_refl. lia. Qed.

Lemma max_by_from l b0 b :
  foldl (fun best x => match best with
                       | None => Some x
                       | Some b => if profile_leb b x then Some x else Some b
                       end) (Some b0) l = Some b ->
  b ∈ b0 :: l /\ forall x, x ∈ b0 :: l -> profile_leb x b = true.
Proof.
  revert b0. induction l as [|y l IH]; intros b0; simpl.
  - intros [= ->]. split; [constructor|]. intros x ->%list_elem_of_singleton. apply profile_leb_refl.
  - destruct (profile_leb b0 y) eqn:E; intros [Hin Hmax]%IH; split.
    + set_solver.
    + intros x [-> |Hx]%elem_of_cons; [|by apply Hmax]. eapply profile_leb_trans; [exact E|]. apply Hmax. constructor.
    + set_solver.
    + intros x [-> |[-> |Hx]%elem_of_cons]%elem_of_cons; [apply Hmax; constructor| |apply Hmax; by constructor].
      eapply profile_leb_trans; [by apply profile_leb_total|]. apply Hmax. constructor.
Qed.

(** The profile that the report recommends has a successful run, none of the
    others was faster, and of those as fast none had fewer failures; there is
    none only when every run failed. *)
Theorem best_profile_fastest (profiles : list FetchProfileResult) :
  match best_profile profiles with
  | Some p => p ∈ profiles /\ 0 < fp_successful_runs p
      /\ forall q, q ∈ profiles -> 0 < fp_successful_runs q -> profile_leb q p = true
  | None => forall q, q ∈ profiles -> fp_successful_runs q <= 0
  end.
Proof.
  unfold best_profile, max_by. destruct (filter _ profiles) as [|b0 l] eqn:Ef; simpl.
  - intros q Hq. destruct (Z.lt_ge_cases 0 (fp_successful_runs q)) as [Hlt|Hge]; [|lia].
    assert (q ∈ filter (fun p => 0 < fp_successful_runs p) profiles) as Hf by by apply list_elem_of_filter.
    rewrite Ef in Hf. by apply elem_of_nil in Hf.
  - destruct (foldl _ (Some b0) l) as [p|] eqn:E.
    + apply max_by_from in E as [Hin Hmax]. rewrite <- Ef in Hin, Hmax. apply list_elem_of_filter in Hin as [Hp Hin].
      split_and!; [done|done|]. intros q Hq Hs. apply Hmax. by apply list_elem_of_filter.
    + exfalso. clear Ef. revert b0 E. induction l as [|y l IH]; intros b0; simpl; [done|]. by destruct (profile_leb b0 y); apply IH.
Qed.

(** ** Concrete runs *)

(** A prefix; with a wallet of the test network open, the application refuses. *)
Lemma cli_servers_agree_witness :
  is_ok (cli_set_default_server demo_url_parse false (fun _ => None) (Ok tt) "S2" demo_db).1 = true
  /\ (cli_set_default_server demo_url_parse false (fun _ => None) (Ok tt) "S2" demo_db).2
     = (set_default_server_cmd demo_url_parse false None "s2" demo_db).2
  /\ is_ok (set_default_server_cmd demo_url_parse false (Some Network.Testnet) "s2" demo_db).1 = false.
Proof.
  split; [reflexivity|].
  destruct (cli_servers_agree demo_url_parse false (fun _ => None) (fun _ => Ok "main") "n" "https://u" "S2" "s3" 0
    demo_db) as (_ & H). destruct (H "s2" demo_db eq_refl) as [H1 _].
  destruct (cli_set_default_server _ _ _ _ _ _), (set_default_server_cmd _ _ None _ _).
  destruct H1 as (_ & H1 & H2). split; [exact H1|]. specialize (H2 (Some Network.Testnet)).
  destruct (set_default_server_cmd _ _ (Some _) _ _). destruct H2 as [_ H2]. apply H2.
  by exists Network.Testnet, (mkServerRow "s2" "eu.zec.rocks" "https://eu.zec.rocks" "Mainnet" false None 2).
Defined.

(** Blocks 10 to 15 in batches of two, two at a time, the first download
    failing once; the second download of a pair ends first. *)
Definition demo_answers (b : Z * Z) (attempt : nat) : option RangeAnswer :=
  if (b.1 =? 10) && (attempt =? 0)%nat then None else Some (Streamed [100; 200] None).

Lemma benchmark_run_covers_witness :
  exists s, run_loop [1; 1; 0]%nat
      (fun b => if b.1 <? b.2 then (fetch_batch_with_retry (demo_answers b) b.1 b.2 2 25).1 else None)
      15 2 2 (run_start 10) = Some (Ok s)
    /\ tiles 2 10 (ru_spawned s) 15 /\ ru_requested s = 5 /\ ru_retries s = 1.
Proof.
  eexists. split; [vm_compute; reflexivity|].
  match goal with |- tiles _ _ (ru_spawned ?x) _ /\ _ => set (s := x) end.
  destruct (benchmark_run_covers 10 15 2 2 25 2 demo_answers) as (_ & H & _);
    [lia|unfold u32_max; lia|lia|lia|unfold u32_max; lia|].
  destruct (H [1; 1; 0]%nat s) as (Ht & _ & Hr); [vm_compute; reflexivity|]. split; [exact Ht|]. split; [exact Hr|reflexivity].
Defined.
