(* ===== verification/Shell.v ===== *)
(** The commands of the desktop shell ([src-tauri/src/commands/*.rs],
    [wallet_logic.rs], [state.rs]): what a request of the web view does to the
    wallet manager, the sync service and the Tor manager together.

    [AppState] holds the three; [TxService] is part of the manager's state.
    A command runs under the manager's mutex, so the handlers of the events
    it causes itself cannot observe them ([try_lock] fails), while those of
    the sync tasks may.  Between the steps of [start_sync] the tasks of the
    service run on: [StartIo] lists what they do.  Commands do not overlap:
    those that take the manager hold its mutex, and synchronous commands run
    one after the other.  The details of an IPC error are not modelled. *)
From S2P Require Import Prelude Text Domain AppDb Reauth Broadcast Servers BroadcastQueue Jobs.
From S2P Require Import Sends Shielding Encryption KeyStore Addresses Float64 SyncPipeline SyncService WalletManager Tor.
From Stdlib Require Import QArith.
Open Scope Z_scope.
#[local] Open Scope list_scope.

(** ** The envelope *)

Record IpcError := mkIpcError { ie_code : string; ie_message : string }.

Inductive IpcResult (A : Type) :=
| IpcOk (ok : A)
| IpcErr (err : IpcError).
Arguments IpcOk {A} _.
Arguments IpcErr {A} _.

Definition to_ipc_error (err : error) : IpcError :=
  match find_engine_ipc_error err with
  | Some (code, message) => mkIpcError code message
  | None => mkIpcError errors.INTERNAL_ERROR "internal error"
  end.

Definition map_anyhow {A} (r : result A) : IpcResult A :=
  match r with Ok value => IpcOk value | Err err => IpcErr (to_ipc_error err) end.

(** ** State *)

Record AppState := mkAppState {
  as_mgr : WM;
  as_sync : SyncWorld;
  as_tor : TorWorld;
}.

Definition as_set_mgr (m : WM) (s : AppState) : AppState := mkAppState m (as_sync s) (as_tor s).
Definition as_set_sync (w : SyncWorld) (s : AppState) : AppState := mkAppState (as_mgr s) w (as_tor s).
Definition as_set_tor (t : TorWorld) (s : AppState) : AppState := mkAppState (as_mgr s) (as_sync s) t.

Definition on_mgr {A} (m : M WM A) : M AppState A := m_zoom as_mgr as_set_mgr m.

(** A command: nothing runs when the schema version differs. *)
Definition Command (A : Type) : Type := AppState -> IpcResult A * AppState.

Definition command {A} (schema_version : Z) (body : M AppState A) : Command A := fun s =>
  match ensure_schema_version schema_version with
  | Err err => (IpcErr (to_ipc_error err), s)
  | Ok _ => (map_anyhow (body s).1, (body s).2)
  end.

(** What the sync tasks do while a start is under way: before the service
    looks whether the new task has finished, before it registers the job and
    before it removes it again. *)
Record StartIo := mkStartIo {
  si_now : Z;
  si_before : list WorldAct;
  si_between : list WorldAct;
  si_after : list WorldAct;
}.

Definition task_act (a : WorldAct) : bool :=
  match a with
  | TaskUpdate _ _ _ | TaskScan _ | ScanDone _ | TaskExit _ _ | TaskDrop _ => true
  | _ => false
  end.

Definition idle_sync_progress : SyncProgress := plain_progress SyncPhase.Idle 0 0 0.

Record LoadWalletResponse := mkLoadWalletResponse {
  lw_wallet : WalletInfo;
  lw_lock_status : WalletLockStatus;
  lw_accounts : list AccountInfo;
}.

(** The name and type of an account that has no metadata. *)
Definition default_account (account_id : Z) : AccountInfo :=
  mkAccountInfo account_id ("Account " +:+ uint_to_string ((account_id + 1) mod 2 ^ 32))
    (if account_id =? 0 then AccountType.Software else AccountType.HardwareSigner).

(** [TorManager::set_enabled], the bootstrap it starts included. *)
Definition tor_set_enabled (runtime enabled : bool) (w : TorWorld) : TorManagerError + TorWorld :=
  match set_enabled runtime enabled w with
  | inl e => inl e
  | inr w' =>
      inr (if (tw_next w' =? tw_next w)%nat then w'
           else store_handle (tw_next w) (default w' (spawn_bootstrap (tw_next w) w')))
  end.

Section Shell.
Context `{C : Crypto} `{KS : KeyStore} `{WL : WalletLib}.
Context (wallets_root : string) (from_slice : string -> option QueuedBroadcastMeta)
        (url_parse : string -> Url + ParseError) (debug : bool) (env_var : option string)
        (to_vec_pretty : QueuedBroadcastMeta -> string) (fl : Q -> Q)
        (send : nat -> string -> string -> option (result unit))
        (nonce : string -> string) (offset_ms : string -> Q) (exp : f64 -> f64).
(** The scheduler: whether a task gets to take a step.  A runtime that never
    polls a task after its abort is one whose [schedules] implies [prompt]. *)
Context (schedules : WorldAct -> SyncWorld -> bool).

(** ** The sync service as the shell calls it *)

(** An action that is enabled and, when a task takes it, scheduled. *)
Definition run_step (w : SyncWorld) (a : WorldAct) : SyncWorld :=
  if negb (task_act a) || schedules a w then default w (world_act exp a w) else w.

Definition run_enabled (acts : list WorldAct) (w : SyncWorld) : SyncWorld := foldl run_step w acts.

Definition start_schedule (io : StartIo) : list WorldAct :=
  List.filter task_act (si_before io) ++ [ApiObserve] ++ List.filter task_act (si_between io) ++ [ApiInsert]
    ++ List.filter task_act (si_after io) ++ [ApiRemove].

(** [SyncService::start_sync] with a progress handler: the endpoint is
    resolved once the start is accepted. *)
Definition start_sync (io : StartIo) (wallet_id : Uuid) (network : Network) : M AppState unit := fun s =>
  let '(resolved, mgr) :=
    match (start_check exp (si_now io) wallet_id true (wo_state (as_sync s))).1 with
    | Ok _ => on_app_db (resolve_grpc_url url_parse debug network env_var) (as_mgr s)
    | Err e => (Err e, as_mgr s)
    end in
  let w := run_enabled (start_schedule io) (start_step exp (si_now io) wallet_id true resolved (as_sync s)) in
  (default (Ok tt) (last (wo_replies w)), mkAppState mgr w (as_tor s)).

(** [SyncService::stop_sync]: the progress it reports to its handler. *)
Definition stop_sync_service (now : Z) (wallet_id : Uuid) (handler : bool) : M AppState (list Event) := fun s =>
  (Ok (stop_sync exp now wallet_id handler (wo_state (as_sync s))).1.2,
   as_set_sync (stop_step exp now wallet_id handler (as_sync s)) s).

(** ** Stopping syncs with the wallet manager ([wallet_logic.rs]) *)

Definition stop_sync_for_wallet (now : Z) (wallet_id : Uuid) : M AppState unit :=
  on_mgr (observe_sync_stop_requested wallet_id) ;;
  m_ignore (stop_sync_service now wallet_id false) ;;
  on_mgr (observe_sync_progress wallet_id idle_sync_progress).

Definition stop_previous_wallet_sync (now : Z) (wallet_id : Uuid) : M AppState unit :=
  s ← m_get;
  match active_wallet_info (as_mgr s) with
  | Some prev =>
      if bool_decide (wi_id prev <> wallet_id) then stop_sync_for_wallet now (wi_id prev) else mret tt
  | None => mret tt
  end.

(** ** Wallets *)

Definition load_accounts_for_wallet (wallet_id : Uuid) : M AppState (list AccountInfo) :=
  wallet_db_accounts ← on_mgr (list_wallet_db_account_ids wallet_id);
  meta_accounts ← m_context "failed to load account metadata" (on_mgr (on_app_db (list_accounts wallet_id)));
  let meta_by_id : gmap Z AccountInfo := foldl (fun m a => <[ai_id a := a]> m) ∅ meta_accounts in
  mret (map (fun account_id => default (default_account account_id) (meta_by_id !! account_id))
          wallet_db_accounts).

Definition build_load_wallet_response (now now_ms : Z) (wallet_id : Uuid) : M AppState LoadWalletResponse :=
  '(wallet, lock_status) ← on_mgr (load_wallet wallets_root from_slice now now_ms wallet_id);
  accounts ← (match lock_status with
              | WalletLockStatus.Locked => mret []
              | WalletLockStatus.Unlocked => load_accounts_for_wallet (wi_id wallet)
              end);
  mret (mkLoadWalletResponse wallet lock_status accounts).

(** [wallet_logic::load_wallet]. *)
Definition logic_load_wallet (now now_ms : Z) (wallet_id : Uuid) : M AppState LoadWalletResponse :=
  stop_previous_wallet_sync now wallet_id ;;
  build_load_wallet_response now now_ms wallet_id.

Definition logic_lock_wallet (now : Z) (wallet_id : Uuid) : M AppState bool :=
  stop_sync_for_wallet now wallet_id ;;
  status ← on_mgr (lock_wallet wallet_id);
  mret (bool_decide (status = WalletLockStatus.Locked)).

Definition logic_logout_wallet (now : Z) (wallet_id : Uuid) : M AppState bool :=
  m_ignore (stop_sync_service now wallet_id false) ;;
  on_mgr (logout_wallet wallet_id) ;;
  mret true.

Definition logic_reauth_wallet (now : Z) (token : string) (wallet_id : Uuid) (password : string)
    (purpose : ReauthPurpose) : M AppState (string * Z) :=
  '(token, expires_at) ← on_mgr (reauth_wallet now token wallet_id password purpose);
  if expires_at <? 0 then m_err (AnyhowMsg "second time provided was later than self")
  else if i64_max <? expires_at / 1000000
  then m_err (AnyhowMsg "out of range integral type conversion attempted")
  else mret (token, expires_at / 1000000).

(** ** Sync *)

(** [started]: false when a sync of the wallet is already in progress. *)
Definition start_sync_with_handlers (io : StartIo) (wallet : WalletInfo) : M AppState bool :=
  found ← on_mgr (on_app_db (get_wallet (wi_id wallet)));
  m_lift (ok_or found wallet_not_found) ;;
  s ← m_get;
  m_lift (unlocked_wallet_dek (wi_id wallet) (as_mgr s)) ;;
  on_mgr (list_wallet_db_account_ids (wi_id wallet)) ;;
  r ← m_try (start_sync io (wi_id wallet) (wi_network wallet));
  match r with
  | Ok _ => on_mgr (observe_sync_progress (wi_id wallet) preparing) ;; mret true
  | Err err =>
      if bool_decide (error_code err = Some errors.SYNC_IN_PROGRESS) then mret false else m_err err
  end.

(** [mgr.load_wallet] and the start of the sync. *)
Definition zbag_start_sync (schema_version : Z) (now now_ms : Z) (io : StartIo) (wallet_id : Uuid)
    : Command bool :=
  command schema_version (
    '(wallet, lock_status) ← on_mgr (load_wallet wallets_root from_slice now now_ms wallet_id);
    if bool_decide (lock_status <> WalletLockStatus.Unlocked) then m_err wallet_locked
    else start_sync_with_handlers io wallet).

(** The handler runs on the thread of the command, which has released the
    manager; [free] tells whether another thread holds it. *)
Definition zbag_stop_sync (schema_version : Z) (now : Z) (free : bool) (wallet_id : Uuid) : Command bool :=
  command schema_version (
    on_mgr (observe_sync_stop_requested wallet_id) ;;
    events ← stop_sync_service now wallet_id true;
    m_fold (fun _ ev =>
      match ev with
      | SyncProgressEvent progress =>
          if free then on_mgr (observe_sync_progress wallet_id progress) else mret tt
      | _ => mret tt
      end) tt events ;;
    mret true).

Definition zbag_get_sync_progress (schema_version : Z) (now : Z) (wallet_id : Uuid) : Command SyncProgress :=
  command schema_version (fun s =>
    let '(progress, st) := SyncService.get_progress exp now wallet_id (wo_state (as_sync s)) in
    (Ok progress, as_set_sync (with_sync_state (fun _ => st) (as_sync s)) s)).

(** ** The wallet commands *)

(** [tip]: the answer of the server at an address, none when it times out. *)
Definition birthday_for_new_wallet (tip : string -> option (string + Z)) (network : Network)
    : M AppState (option Z) :=
  grpc_url ← m_try (on_mgr (on_app_db (resolve_grpc_url url_parse debug network env_var)));
  mret (match grpc_url with
        | Ok url => tip url ≫= fetch_birthday_height_for_new_wallet
        | Err _ => None
        end).

Definition zbag_create_wallet (schema_version : Z) (tip : string -> option (string + Z)) (d : Draws)
    (name : string) (network : Network) (password : string) : Command CreateWalletResult :=
  command schema_version (
    birthday_height ← birthday_for_new_wallet tip network;
    on_mgr (create_wallet wallets_root from_slice d name network password birthday_height)).

Definition zbag_list_wallets (schema_version : Z) : Command (list WalletInfo) :=
  command schema_version (on_mgr list_wallets_api).

Definition zbag_load_wallet (schema_version : Z) (now now_ms : Z) (io : StartIo) (wallet_id : Uuid)
    : Command LoadWalletResponse :=
  command schema_version (
    stop_previous_wallet_sync now wallet_id ;;
    resp ← build_load_wallet_response now now_ms wallet_id;
    (if bool_decide (lw_lock_status resp = WalletLockStatus.Unlocked)
     then m_ignore (start_sync_with_handlers io (lw_wallet resp)) else mret tt) ;;
    mret resp).

Definition zbag_unlock_wallet (schema_version : Z) (now : Z) (wallet_id : Uuid) (password : string)
    : Command bool :=
  command schema_version (
    status ← on_mgr (unlock_wallet wallets_root from_slice now wallet_id password);
    mret (bool_decide (status = WalletLockStatus.Unlocked))).

Definition zbag_lock_wallet (schema_version : Z) (now : Z) (wallet_id : Uuid) : Command bool :=
  command schema_version (logic_lock_wallet now wallet_id).

Definition zbag_logout_wallet (schema_version : Z) (now : Z) (wallet_id : Uuid) : Command bool :=
  command schema_version (logic_logout_wallet now wallet_id).

Definition zbag_reauth_wallet (schema_version : Z) (now : Z) (token : string) (wallet_id : Uuid)
    (password : string) (purpose : ReauthPurpose) : Command (string * Z) :=
  command schema_version (logic_reauth_wallet now token wallet_id password purpose).

Definition zbag_view_seed_phrase (schema_version : Z) (now : Z) (wallet_id : Uuid) (reauth_token : string)
    : Command (list string) :=
  command schema_version (on_mgr (view_seed_phrase now wallet_id reauth_token)).

Definition zbag_get_wallet_status (schema_version : Z) (wallet_id : Uuid) : Command WalletStatus :=
  command schema_version (on_mgr (compute_wallet_status wallet_id)).

(** ** Backups and hardware wallets *)

Definition zbag_get_backup_challenge (schema_version : Z) (d : ChallengeDraw) (wallet_id : Uuid)
    : Command BackupChallenge :=
  command schema_version (on_mgr (get_backup_challenge d wallet_id)).

(** The answers are collected into a map: the last one of an index counts. *)
Definition zbag_verify_backup (schema_version : Z) (now_ms : Z) (wallet_id : Uuid) (challenge_id : string)
    (word_challenges : list (Z * string)) : Command bool :=
  command schema_version (
    on_mgr (verify_backup now_ms wallet_id challenge_id
              (foldl (fun m a => <[a.1 := a.2]> m) ∅ word_challenges)) ;;
    mret true).

Definition zbag_restore_wallet (schema_version : Z) (d : Draws) (name : string) (network : Network)
    (password seed_phrase : string) (birthday_date : option Z) : Command (WalletInfo * Z) :=
  command schema_version
    (on_mgr (restore_wallet wallets_root from_slice d name network password seed_phrase birthday_date)).

Definition zbag_import_ufvk (schema_version : Z) (now_ms : Z) (wallet_id : Uuid) (ufvk name : string)
    (seed_fingerprint : option string) (zip32_account_index : option Z) : Command AccountInfo :=
  command schema_version
    (on_mgr (import_ufvk now_ms wallet_id ufvk name seed_fingerprint zip32_account_index)).

Definition zbag_create_keystone_wallet (schema_version : Z) (d : Draws) (name : string) (network : Network)
    (password ufvk : string) (birthday_height : option Z) (seed_fingerprint : option string)
    (zip32_account_index : option Z) : Command (WalletInfo * AccountInfo) :=
  command schema_version
    (on_mgr (create_keystone_wallet wallets_root from_slice d name network password ufvk birthday_height
               seed_fingerprint zip32_account_index)).

Definition zbag_build_signing_request (schema_version max_money : Z) (io : SendIo) (now : Z)
    (signing_request_id : string) (account_id : Z) (recipient amount : string) (memo : option string)
    (allow_transparent_recipient : bool) : Command SigningRequest :=
  command schema_version
    (on_mgr (wm_build_signing_request max_money io now signing_request_id account_id recipient amount memo
               allow_transparent_recipient)).

Definition zbag_finalize_signing (schema_version : Z) (io : SendIo) (now now' : Z)
    (signing_request_id signed_payload reauth_token : string) : Command string :=
  command schema_version (
    task ← on_mgr (prepare_finalize_signing_task url_parse debug env_var now signing_request_id
                     signed_payload reauth_token);
    on_mgr (on_tx (execute_prepared_finalize_signing_task from_slice to_vec_pretty fl send nonce offset_ms
                     io now' task))).

(** ** Transactions and jobs *)

Definition zbag_prepare_send (schema_version max_money : Z) (io : SendIo) (now : Z) (proposal_id : string)
    (account_id : Z) (recipient amount : string) (memo : option string) (allow_transparent_recipient : bool)
    : Command PrepareSendResponse :=
  command schema_version
    (on_mgr (wm_prepare_send max_money io now proposal_id account_id recipient amount memo
               allow_transparent_recipient)).

Definition zbag_confirm_send (schema_version : Z) (io : SendIo) (now now' now_ms : Z)
    (proposal_id reauth_token : string) : Command string :=
  command schema_version (
    task ← on_mgr (prepare_confirm_send_task url_parse debug env_var now proposal_id reauth_token);
    on_mgr (on_tx (execute_prepared_confirm_send_task from_slice to_vec_pretty fl send nonce offset_ms
                     io now' now_ms task true))).

Definition zbag_cancel_send (schema_version : Z) (proposal_id : string) : Command bool :=
  command schema_version
    (on_mgr (on_tx (fun e => let '(cancelled, e') := cancel_send proposal_id e in (Ok cancelled, e')))).

(** The task is prepared and validated under the manager's mutex, and
    executed without it. *)
Definition zbag_retry_broadcast (schema_version : Z) (io : RetryIo) (now : Z) (txid reauth_token : string)
    : Command string :=
  command schema_version (
    task ← on_mgr (prepare_retry_broadcast_task url_parse debug env_var now txid reauth_token);
    s ← m_get;
    m_lift (validate_retry_broadcast_task task (as_mgr s)) ;;
    on_mgr (on_tx (execute_prepared_retry_broadcast_task from_slice url_parse debug to_vec_pretty fl send
                     io task true true))).

Definition zbag_list_transactions (schema_version : Z) (txid_display : string -> string)
    (memo_rows : string -> list string) (memo_parse : string -> option Memo) (io : SendIo)
    (rows : string -> list ViewRow) (chain_height : option Z) (now now_ms account_id : Z)
    (limit offset : nat) : Command (list TransactionInfo * Z) :=
  command schema_version
    (on_mgr (wm_list_transactions from_slice txid_display memo_rows memo_parse io rows chain_height now
               now_ms account_id limit offset)).

Definition zbag_shield_funds (schema_version : Z) (io : ShieldIo) (now now' now_ms account_id : Z)
    (consolidate : bool) (reauth_token : string) : Command (option ShieldFundsResponse) :=
  command schema_version (
    task ← on_mgr (prepare_shield_funds_task url_parse debug env_var now account_id consolidate reauth_token);
    on_mgr (on_tx (execute_prepared_shield_funds_task from_slice to_vec_pretty fl send nonce offset_ms
                     io now' now_ms task true))).

Definition zbag_start_send_job (schema_version : Z) (io_of : Proposal -> string -> string -> JobIo) (now : Z)
    (job_id proposal_id reauth_token : string) : Command string :=
  command schema_version
    (on_mgr (start_send_job url_parse debug env_var io_of now job_id proposal_id reauth_token true true)).

Definition zbag_start_shield_job (schema_version : Z) (io_of : bool -> string -> string -> JobIo) (now : Z)
    (job_id : string) (account_id : Z) (consolidate : bool) (reauth_token : string) : Command string :=
  command schema_version
    (on_mgr (start_shield_job url_parse debug env_var io_of now job_id account_id consolidate reauth_token
               true true)).

Definition zbag_cancel_job (schema_version : Z) (job_id : string) : Command bool :=
  command schema_version (on_mgr (wm_cancel_job job_id)).

Definition zbag_get_job_status (schema_version : Z) (job_id : string) : Command JobProgress :=
  command schema_version (s ← m_get; m_lift (get_job_status job_id (as_mgr s))).

Definition zbag_list_jobs (schema_version : Z) : Command (list JobProgress) :=
  command schema_version (s ← m_get; mret (wm_list_jobs (as_mgr s))).

Definition zbag_get_receive_address (schema_version : Z) (io : AddressIo) (account_id : Z)
    (address_type : AddressType) (now_ms : Z) : Command AddressInfo :=
  command schema_version (on_mgr (wm_get_receive_address io account_id address_type now_ms)).

Definition zbag_get_balance (schema_version : Z) (io : SendIo) (account_id : Z) : Command Balance :=
  command schema_version (on_mgr (wm_get_balance io account_id)).

(** ** Tor *)

(** Restarts the syncs that were stopped: each wallet is loaded and, when it
    is unlocked, synced again; failures are ignored. *)
Definition restart_syncs (now now_ms : Z) (io : StartIo) (running_wallets : list Uuid) : M AppState unit :=
  m_fold (fun _ wallet_id =>
    loaded ← m_try (on_mgr (load_wallet wallets_root from_slice now now_ms wallet_id));
    match loaded with
    | Ok (wallet, WalletLockStatus.Unlocked) => m_ignore (start_sync_with_handlers io wallet)
    | _ => mret tt
    end) tt running_wallets.

(** The command enters the runtime first.  [clock]: the time in ms, or what the
    conversion of the clock says. *)
Definition zbag_set_tor_enabled (schema_version : Z) (now now_ms : Z) (clock : string + Z) (io : StartIo)
    (enabled : bool) : Command TorState :=
  command schema_version (
    s ← m_get;
    let running_wallets := if enabled then running_wallet_ids (wo_state (as_sync s)) else [] in
    m_fold (fun _ wallet_id => m_ignore (stop_sync_service now wallet_id false)) tt running_wallets ;;
    s ← m_get;
    tor ← m_lift (match tor_set_enabled true enabled (as_tor s) with
                  | inr w => Ok w
                  | inl MissingTokioRuntime =>
                      Err (ipc_err errors.TOR_CONNECTION_FAILED "tokio runtime is not available")
                  end);
    m_modify (as_set_tor tor) ;;
    s ← m_get;
    let next_state := tm_state (tw_mgr (as_tor s)) in
    updated_at_ms ← m_lift (match clock with
                            | inr t => Ok t
                            | inl e => Err (ipc_err errors.INTERNAL_ERROR ("time error: " +:+ e))
                            end);
    on_mgr (on_app_db (upsert_tor_state next_state updated_at_ms)) ;;
    (if enabled && negb (bool_decide (running_wallets = []))
     then restart_syncs now now_ms io running_wallets else mret tt) ;;
    mret next_state).

Definition zbag_get_tor_state (schema_version : Z) : Command TorState :=
  command schema_version (s ← m_get; mret (tm_state (tw_mgr (as_tor s)))).

(** ** The handlers of the sync tasks *)

(** The progress that a step of a task reports. *)
Definition reported (a : WorldAct) (w : SyncWorld) : option (Uuid * SyncProgress) :=
  match a with
  | TaskUpdate t now p =>
      tk ← can_step t w; Some (tk_wallet tk, (update_progress exp now (tk_wallet tk) p (wo_state w)).1)
  | _ => None
  end.

(** A step of a task; [free] tells whether [try_lock] gets the manager. *)
Definition sync_task_step (free : bool) (a : WorldAct) (s : AppState) : AppState :=
  if negb (task_act a && schedules a (as_sync s)) then s else
  match world_act exp a (as_sync s) with
  | None => s
  | Some w =>
      let s' := as_set_sync w s in
      match reported a (as_sync s) with
      | Some (wallet_id, progress) =>
          if free then (on_mgr (observe_sync_progress wallet_id progress) s').2 else s'
      | None => s'
      end
  end.

Definition balance_handler (free : bool) (wallet_id : Uuid) (account_id : Z) (balance : Balance) (s : AppState)
    : AppState :=
  if free then (on_mgr (observe_balance_changed wallet_id account_id balance) s).2 else s.
End Shell.
