(* ===== verification/Downloads.v ===== *)
(** The download tasks of the syncs ([sync_service.rs]).

    For each range that it scans, a sync task spawns a download task of its
    own.  [JoinHandle::abort] of the sync does not reach it: it looks at the
    cancellation channel at the head of its loop, and otherwise ends when
    nobody receives its batches any more.  Here are all download tasks next to
    the sync tasks of [SyncService.v]; what one of them fetches and how it
    feeds the scanner is in [SyncPipeline.v]. *)
From S2P Require Import Prelude SyncService.
#[local] Open Scope list_scope.

(** At the head of its loop, in [download_blocks_with_retry], in
    [batch_tx.send] of a batch or of its last message, over. *)
Inductive DownloadPc := DpHead | DpFetching | DpSending (last : bool) | DpOver.

Record Download := mkDownload {
  do_task : nat;          (* the sync task, whose channel and client it has *)
  do_pc : DownloadPc;
  do_requested : nat;     (* the batches it has asked the server for *)
}.

(** [more]: is [current < range_end]?  [ok]: did the batch arrive?
    [received]: is there still a receiver? *)
Inductive DownloadAct :=
| DaSpawn (t : nat)
| DaHead (i : nat) (more : bool)
| DaFetched (i : nat) (ok : bool)
| DaSent (i : nat) (received : bool).

Definition download_head (more : bool) (tk : SyncTask) (d : Download) : Download :=
  if more && negb (tk_cancel tk)
  then mkDownload (do_task d) DpFetching (S (do_requested d))
  else mkDownload (do_task d) (DpSending true) (do_requested d).

(** A step; [None] where it cannot happen.  The receiver is the sync task's:
    it is gone once that task has ended. *)
Definition download_act (w : SyncWorld) (a : DownloadAct) (ds : list Download) : option (list Download) :=
  match a with
  | DaSpawn t => _ ← can_step t w; Some (ds ++ [mkDownload t DpHead 0])
  | DaHead i more =>
      d ← ds !! i; tk ← wo_tasks w !! do_task d;
      match do_pc d with DpHead => Some (<[i := download_head more tk d]> ds) | _ => None end
  | DaFetched i ok =>
      d ← ds !! i;
      match do_pc d with
      | DpFetching => Some (<[i := mkDownload (do_task d) (DpSending (negb ok)) (do_requested d)]> ds)
      | _ => None
      end
  | DaSent i received =>
      d ← ds !! i; tk ← wo_tasks w !! do_task d;
      match do_pc d with
      | DpSending last =>
          if received && negb (tk_running tk) then None
          else Some (<[i := mkDownload (do_task d) (if received && negb last then DpHead else DpOver)
                              (do_requested d)]> ds)
      | _ => None
      end
  end.

(** The cancellation channel of a task carries [true]. *)
Definition task_cancelled (t : nat) (w : SyncWorld) : Prop :=
  forall tk, wo_tasks w !! t = Some tk -> tk_cancel tk = true.

(** What a download of [t] was, when [t] is cancelled, and what it is now: the
    same task, and no batch asked for since. *)
Definition no_new_batch (t : nat) (ds ds' : list Download) : Prop :=
  (forall i d, ds !! i = Some d -> exists d', ds' !! i = Some d' /\ do_task d' = do_task d)
  /\ forall i d', ds' !! i = Some d' -> do_task d' = t ->
       do_requested d' = from_option do_requested 0%nat (ds !! i).

#[global] Instance no_new_batch_preorder t : PreOrder (no_new_batch t).
Proof.
  split.
  - intros ds. split; [eauto|]. by intros i d -> _.
  - intros a b c [K1 R1] [K2 R2]. split.
    + intros i d Hd. destruct (K1 i d Hd) as (d1 & H1 & E1). destruct (K2 i d1 H1) as (d2 & H2 & E2).
      exists d2. split; [done|congruence].
    + intros i d Hd Ht. rewrite (R2 i d Hd Ht). destruct (b !! i) as [d1|] eqn:E1; simpl.
      * destruct (K2 i d1 E1) as (d2 & H2 & E2). apply (R1 i d1 E1). congruence.
      * destruct (a !! i) as [d0|] eqn:E0; [|done]. destruct (K1 i d0 E0) as (d1 & H1 & _). congruence.
Qed.

Lemma no_new_batch_insert t ds i d d' :
  ds !! i = Some d -> do_task d' = do_task d -> (do_task d = t -> do_requested d' = do_requested d) ->
  no_new_batch t ds (<[i := d']> ds).
Proof.
  intros Hd Ht Hr. pose proof (lookup_lt_Some _ _ _ Hd) as Hlt. split.
  - intros j x Hx. destruct (decide (i = j)) as [<-|Hne].
    + exists d'. rewrite list_lookup_insert_eq by done. split; [done|congruence].
    + exists x. by rewrite list_lookup_insert_ne.
  - intros j x. destruct (decide (i = j)) as [<-|Hne].
    + rewrite list_lookup_insert_eq by done. intros [= <-] E. rewrite Hd. simpl. apply Hr. congruence.
    + rewrite list_lookup_insert_ne by done. by intros ->.
Qed.

(** After the cancellation of a task none of its downloads asks for another
    batch: a batch in flight is finished, and a download that reaches the head
    of its loop stops there. *)
Lemma download_act_cancelled w a ds ds' t :
  task_cancelled t w -> download_act w a ds = Some ds' -> no_new_batch t ds ds'.
Proof.
  intros Hc. destruct a as [t'|i more|i ok|i received]; simpl.
  - intros (tk & _ & [= <-])%bind_Some. split.
    + intros i d Hd. exists d. split; [|done]. by apply lookup_app_l_Some.
    + intros i d. rewrite lookup_app. destruct (ds !! i) as [d0|]; [by intros [= ->]|].
      destruct (i - length ds)%nat; simpl; [by intros [= <-]|done].
  - intros (d & Hd & E)%bind_Some. apply bind_Some in E as (tk & Htk & E).
    destruct (do_pc d); simplify_eq. apply (no_new_batch_insert t ds i d); [done| |].
    + unfold download_head. by destruct (_ && _).
    + intros Ht. unfold download_head. rewrite (Hc tk) by congruence. by rewrite andb_false_r.
  - intros (d & Hd & E)%bind_Some. destruct (do_pc d); simplify_eq. by apply (no_new_batch_insert t ds i d).
  - intros (d & Hd & E)%bind_Some. apply bind_Some in E as (tk & Htk & E).
    destruct (do_pc d); simplify_eq. destruct (received && negb (tk_running tk)); simplify_eq.
    by apply (no_new_batch_insert t ds i d).
Qed.

(** The turns that a download of a cancelled task still has. *)
Definition turns_left (d : Download) : nat :=
  match do_pc d with
  | DpFetching => 4 | DpSending false => 3 | DpHead => 2 | DpSending true => 1 | DpOver => 0
  end.

(** It ends: every turn that it takes brings it nearer to its end. *)
Lemma cancelled_download_ends w a ds ds' i d d' :
  download_act w a ds = Some ds' -> ds !! i = Some d -> ds' !! i = Some d' -> task_cancelled (do_task d) w ->
  d' = d \/ (turns_left d' < turns_left d)%nat.
Proof.
  intros E Hd Hd' Hc. destruct a as [t|j more|j ok|j received]; simpl in E.
  - apply bind_Some in E as (tk & _ & [= <-]). rewrite (lookup_app_l_Some _ _ _ _ Hd) in Hd'. left. congruence.
  - apply bind_Some in E as (x & Hx & E). apply bind_Some in E as (tk & Htk & E).
    destruct (do_pc x) eqn:Ep; simplify_eq. destruct (decide (j = i)) as [->|Hne].
    + rewrite list_lookup_insert_eq in Hd' by by eapply lookup_lt_Some. simplify_eq. right.
      unfold download_head. rewrite (Hc tk) by done. rewrite andb_false_r. unfold turns_left. rewrite Ep. simpl. lia.
    + rewrite list_lookup_insert_ne in Hd' by done. left. congruence.
  - apply bind_Some in E as (x & Hx & E). destruct (do_pc x) eqn:Ep; simplify_eq.
    destruct (decide (j = i)) as [->|Hne].
    + rewrite list_lookup_insert_eq in Hd' by by eapply lookup_lt_Some. simplify_eq. right.
      unfold turns_left. rewrite Ep. simpl. destruct ok; simpl; lia.
    + rewrite list_lookup_insert_ne in Hd' by done. left. congruence.
  - apply bind_Some in E as (x & Hx & E). apply bind_Some in E as (tk & Htk & E).
    destruct (do_pc x) as [| |l|] eqn:Ep; simplify_eq. destruct (received && negb (tk_running tk)); simplify_eq.
    destruct (decide (j = i)) as [->|Hne].
    + rewrite list_lookup_insert_eq in Hd' by by eapply lookup_lt_Some. simplify_eq. right.
      unfold turns_left. rewrite Ep. simpl. destruct received, l; simpl; lia.
    + rewrite list_lookup_insert_ne in Hd' by done. left. congruence.
Qed.
