(* ===== verification/ShellSafety.v ===== *)
(** Safety of the desktop shell: which syncs run next to which session.

    [ShellAct] lists what happens to the application: the commands that
    change the session, the syncs or Tor, every other call of the manager,
    and the steps and handlers of the sync tasks; [shell_run] runs a list of
    them.  [confined] is the invariant that ties the sync service to the
    wallet manager. *)
From S2P Require Import Prelude Text Domain AppDb Reauth Broadcast Servers BroadcastQueue Jobs.
From S2P Require Import Sends Shielding Encryption KeyStore Addresses Float64 SyncPipeline SyncService WalletManager.
From S2P Require Import WalletFrames WalletDemo WalletSafety WalletBackup Tor Shell Downloads.
From Stdlib Require Import QArith.
Open Scope Z_scope.
#[local] Open Scope list_scope.

(** ** What the sync service allows *)

Definition jobs_of (w : SyncWorld) : gmap string SyncJob := ss_jobs (wo_state w).

(** Tasks are only added at the end; a task of before keeps its wallet, does
    not run again once it ended, and stays cancelled and aborted. *)
Record world_le (w w' : SyncWorld) : Prop := mkWorldLe {
  wl_next : (wo_next w <= wo_next w')%nat;
  wl_task : forall t tk', wo_tasks w' !! t = Some tk' -> (t < wo_next w)%nat ->
    exists tk, wo_tasks w !! t = Some tk /\ tk_wallet tk' = tk_wallet tk
      /\ (tk_running tk' = true -> tk_running tk = true) /\ (tk_aborted tk = true -> tk_aborted tk' = true)
      /\ (tk_cancel tk = true -> tk_cancel tk' = true);
}.

#[global] Instance world_le_preorder : PreOrder world_le.
Proof.
  split.
  - intros w. split; [done|]. intros t tk' Ht _. by exists tk'.
  - intros a b c [N1 T1] [N2 T2]. split; [lia|]. intros t tk3 H3 Hlt.
    destruct (T2 t tk3 H3 ltac:(lia)) as (tk2 & H2 & W2 & R2 & A2 & C2).
    destruct (T1 t tk2 H2 Hlt) as (tk1 & H1 & W1 & R1 & A1 & C1).
    exists tk1. split_and!; [done|congruence|auto|auto|auto].
Qed.

(** How a step may change one task. *)
Definition task_mono (f : SyncTask -> SyncTask) : Prop :=
  forall tk, tk_wallet (f tk) = tk_wallet tk /\ (tk_running (f tk) = true -> tk_running tk = true)
    /\ (tk_aborted tk = true -> tk_aborted (f tk) = true) /\ (tk_cancel tk = true -> tk_cancel (f tk) = true).

Lemma world_le_alter w s t f st evs rs :
  task_mono f -> world_le w (mkWorld s (alter f t (wo_tasks w)) (wo_next w) st evs rs).
Proof.
  intros Hf. split; simpl; [done|]. intros t' tk' Ht _. rewrite lookup_alter_Some in Ht.
  destruct Ht as [(-> & tk & Ht & ->)|[_ Ht]]; [|by exists tk'].
  exists tk. split; [done|]. apply Hf.
Qed.

Lemma world_le_same w s st evs rs :
  world_le w (mkWorld s (wo_tasks w) (wo_next w) st evs rs).
Proof. split; simpl; [done|]. intros t tk' Ht _. by exists tk'. Qed.

Section Worlds.
Context (exp : f64 -> f64) (schedules : WorldAct -> SyncWorld -> bool).
#[local] Abbreviation run_enabled := (Shell.run_enabled exp schedules).

Lemma start_step_le now wid h resolved w : world_le w (start_step exp now wid h resolved w).
Proof using Type.
  unfold start_step. destruct (start_check _ _ _ _ _) as [[evs|e] s]; [|apply world_le_same].
  destruct (with_context _ resolved); [|apply world_le_same].
  split; simpl; [lia|]. intros t tk' Ht Hlt. rewrite lookup_insert_ne in Ht by lia. by exists tk'.
Qed.

Lemma stop_step_le now wid h w : world_le w (stop_step exp now wid h w).
Proof using Type.
  unfold stop_step. destruct (stop_sync _ _ _ _ _) as [[[t|] evs] s].
  - apply (world_le_alter w s t). by intros [].
  - apply (world_le_same w s).
Qed.

Lemma stop_step_jobs now wid h w :
  jobs_of (stop_step exp now wid h w) = delete wid (jobs_of w)
  /\ wo_starting (stop_step exp now wid h w) = wo_starting w.
Proof using Type.
  unfold jobs_of, stop_step. destruct (stop_sync_cases exp now wid h (wo_state w)) as (_ & E & _).
  by destruct (stop_sync _ _ _ _ _) as [[[?|] ?] ?].
Qed.

(** The job that is stopped is cancelled. *)
Lemma stop_step_cancels now wid h w t :
  jobs_of w !! wid = Some t -> task_cancelled t (stop_step exp now wid h w).
Proof using Type.
  unfold jobs_of, stop_step, task_cancelled. destruct (stop_sync_cases exp now wid h (wo_state w)) as (E & _ & _).
  intros Hj. rewrite Hj in E. destruct (stop_sync _ _ _ _ _) as [[job ?] ?]. simpl in *. subst job. simpl.
  intros tk'. rewrite lookup_alter_eq. destruct (wo_tasks w !! t); [|done]. by intros [= <-].
Qed.

Lemma cancelled_le w w' t :
  world_le w w' -> (t < wo_next w)%nat -> task_cancelled t w -> task_cancelled t w'.
Proof using Type.
  intros [_ Hle] Hlt Hc tk' Ht. destruct (Hle t tk' Ht Hlt) as (tk & Ht0 & _ & _ & _ & Hc').
  by apply Hc', Hc.
Qed.

Lemma stop_step_inv now wid h w :
  world_inv w -> excl_inv w ->
  world_inv (stop_step exp now wid h w) /\ excl_inv (stop_step exp now wid h w).
Proof using Type.
  intros Hi Hx. split; [|by apply stop_excl].
  by apply (world_act_inv exp (ApiStop now wid h) w (stop_step exp now wid h w) Hi).
Qed.

Lemma world_act_le a w w' : world_act exp a w = Some w' -> world_le w w'.
Proof using Type.
  destruct a as [now wid h resolved| | | |now wid h|now wid|t now p|t|t|t kind|t]; simpl.
  - destruct (wo_starting w); [done|]. intros [= <-]. apply start_step_le.
  - destruct (wo_starting w) as [[[wid t] [| |]]|]; intros; simplify_eq. apply (world_le_same w).
  - destruct (wo_starting w) as [[[wid t] [|finished|]]|]; try done. intros [= <-].
    destruct finished; apply (world_le_same w).
  - destruct (wo_starting w) as [[[wid t] [| |]]|]; try done. intros [= <-]. apply (world_le_same w).
  - intros [= <-]. apply stop_step_le.
  - intros [= <-]. apply (world_le_same w).
  - intros (tk & _ & E)%bind_Some. destruct (update_progress _ _ _ _ _). simplify_eq. apply (world_le_same w).
  - intros (tk & _ & E)%bind_Some. simplify_eq. apply (world_le_alter w). by intros [].
  - intros (tk & _ & E)%bind_Some. destruct (tk_scanning tk); simplify_eq. apply (world_le_alter w). by intros [].
  - intros (tk & _ & E)%bind_Some. simplify_eq. apply (world_le_alter w). by intros [].
  - intros (tk & _ & E)%bind_Some. destruct (_ && _); simplify_eq. apply (world_le_alter w). by intros [].
Qed.

Lemma run_step_cases w a :
  run_step exp schedules w a = w
  \/ (negb (task_act a) = true \/ schedules a w = true)
     /\ world_act exp a w = Some (run_step exp schedules w a).
Proof using Type.
  unfold run_step. destruct (negb (task_act a) || schedules a w) eqn:E; [|by left].
  destruct (world_act exp a w); [right|by left]. split; [|done]. by apply orb_true_iff.
Qed.

Lemma run_enabled_le acts w : world_le w (run_enabled acts w).
Proof using Type.
  revert w. induction acts as [|a acts IH]; intros w; simpl; [reflexivity|].
  etransitivity; [|apply IH].
  destruct (run_step_cases w a) as [-> |[_ E]]; [reflexivity|by apply world_act_le in E].
Qed.

(** No task steps after its abort. *)
Definition prompt_scheduler : Prop := forall a w, schedules a w = true -> prompt a w = true.

Lemma run_step_inv w a :
  world_inv w -> world_inv (run_step exp schedules w a)
  /\ (prompt_scheduler -> excl_inv w -> excl_inv (run_step exp schedules w a)).
Proof using Type.
  intros Hinv. destruct (run_step_cases w a) as [-> |[Hs E]]; [done|].
  split; [by apply (world_act_inv exp _ _ _ Hinv E)|]. intros Hp Hx.
  apply (world_act_excl exp a w); [done..| |done]. destruct Hs as [Hs|Hs]; [by destruct a|auto].
Qed.

Lemma run_enabled_inv acts w :
  world_inv w -> world_inv (run_enabled acts w)
  /\ (prompt_scheduler -> excl_inv w -> excl_inv (run_enabled acts w)).
Proof using Type.
  revert w. induction acts as [|a acts IH]; intros w Hinv; simpl; [done|].
  destruct (run_step_inv w a Hinv) as [H1 H2]. destruct (IH _ H1) as [H3 H4]. auto.
Qed.

(** A task that is live after and was there before was live before. *)
Lemma live_before w w' t wid :
  world_le w w' -> (t < wo_next w)%nat -> live_task t wid w' -> live_task t wid w.
Proof using Type.
  intros [_ Hle] Hlt (tk' & Ht & Hr & Ha & Hw). destruct (Hle t tk' Ht Hlt) as (tk & Ht0 & Hw0 & Hr0 & Ha0 & _).
  exists tk. split_and!; [done|auto| |congruence]. destruct (tk_aborted tk); [|done]. rewrite Ha0 in Ha; done.
Qed.

(** Nothing of a wallet is live once it was stopped. *)
Lemma stopped_not_live now wid h w t :
  world_inv w -> excl_inv w -> wo_starting w = None -> ~ live_task t wid (stop_step exp now wid h w).
Proof using Type.
  intros Hi Hx Hst Hl. destruct (stop_step_inv now wid h w Hi Hx) as [Hi' Hx'].
  destruct (xi_registered _ Hx' t wid Hl) as [H|[st H]].
  - change (jobs_of (stop_step exp now wid h w) !! wid = Some t) in H.
    by rewrite (proj1 (stop_step_jobs now wid h w)), lookup_delete_eq in H.
  - by rewrite (proj2 (stop_step_jobs now wid h w)), Hst in H.
Qed.

(** The jobs of [w'] are jobs of [w], and a start goes on as before. *)
Definition fewer_jobs (w w' : SyncWorld) : Prop :=
  wo_starting w' = wo_starting w /\ jobs_of w' ⊆ jobs_of w /\ wo_replies w' = wo_replies w.
#[local] Instance fewer_jobs_preorder : PreOrder fewer_jobs.
Proof using Type.
  unfold fewer_jobs. split; [done|]. intros a b c (? & ? & ?) (? & ? & ?).
  split_and!; [congruence|by etransitivity|congruence].
Qed.

Lemma task_act_fewer a w w' : task_act a = true -> world_act exp a w = Some w' -> fewer_jobs w w'.
Proof using Type.
  unfold fewer_jobs, jobs_of. intros Ha. destruct a as [| | | | | |t now p|t|t|t kind|t]; try done; simpl.
  - intros (tk & _ & E)%bind_Some. pose proof (update_progress_frame exp now (tk_wallet tk) p (wo_state w)) as [H _].
    destruct (update_progress _ _ _ _ _). simplify_eq. simpl in *. by rewrite H.
  - intros (tk & _ & E)%bind_Some. by simplify_eq.
  - intros (tk & _ & E)%bind_Some. destruct (tk_scanning tk); by simplify_eq.
  - intros (tk & _ & E)%bind_Some. simplify_eq. simpl.
    rewrite (proj1 (task_cleanup_frame kind (tk_wallet tk) (wo_state w))).
    split_and!; [done|apply delete_subseteq|done].
  - intros (tk & _ & E)%bind_Some. destruct (_ && _); by simplify_eq.
Qed.

Lemma run_tasks_fewer acts w : fewer_jobs w (run_enabled (List.filter task_act acts) w).
Proof using Type.
  revert w. induction acts as [|a acts IH]; intros w; simpl; [done|].
  destruct (task_act a) eqn:Ea; [|apply IH]. simpl. etransitivity; [|apply IH].
  destruct (run_step_cases w a) as [-> |[_ E]]; [done|by apply (task_act_fewer a)].
Qed.

Lemma run_enabled_app acts acts' w :
  run_enabled (acts ++ acts') w = run_enabled acts' (run_enabled acts w).
Proof using Type. apply foldl_app. Qed.

(** The rest of a start: nothing is under way at its end, and the only new
    job is the one it was for. *)
Lemma finish_start io wid t w :
  wo_starting w = Some (wid, t, Spawned) ->
  let w' := run_enabled (start_schedule io) w in
  wo_starting w' = None /\ last (wo_replies w') = Some (Ok tt)
  /\ (forall wid' t', jobs_of w' !! wid' = Some t' -> jobs_of w !! wid' = Some t' \/ wid' = wid /\ t' = t).
Proof using Type.
  intros Hst. cbv zeta. unfold start_schedule. rewrite run_enabled_app.
  destruct (run_tasks_fewer (si_before io) w) as (S1 & J1 & _).
  set (w1 := run_enabled _ w) in *. rewrite Hst in S1.
  rewrite run_enabled_app. change (run_enabled [ApiObserve] w1) with (default w1 (world_act exp ApiObserve w1)).
  cbn [world_act]. rewrite S1. cbn [default from_option id]. set (f := match wo_tasks w1 !! t with Some _ => _ | None => _ end).
  set (w2 := with_starting _ w1). rewrite run_enabled_app.
  destruct (run_tasks_fewer (si_between io) w2) as (S2 & J2 & _).
  set (w3 := run_enabled _ w2) in *. change (wo_starting w2) with (Some (wid, t, Observed f)) in S2.
  rewrite run_enabled_app. change (run_enabled [ApiInsert] w3) with (default w3 (world_act exp ApiInsert w3)).
  cbn [world_act]. rewrite S2. cbn [default from_option id]. set (w4 := if f then _ else _).
  assert (jobs_of w4 = <[wid := t]> (jobs_of w3)) as J4 by by unfold w4; destruct f.
  assert (forall wid' t', jobs_of w4 !! wid' = Some t' -> jobs_of w !! wid' = Some t' \/ wid' = wid /\ t' = t) as Hj.
  { intros wid' t'. rewrite J4, lookup_insert_Some. intros [[<- <-]|[_ H]]; [by right|left].
    eapply lookup_weaken; [|exact J1]. by eapply lookup_weaken in H; [|exact J2]. }
  rewrite run_enabled_app.
  destruct (run_tasks_fewer (si_after io) w4) as (S5 & J5 & R5).
  set (w5 := run_enabled _ w4) in *.
  change (run_enabled [ApiRemove] w5) with (default w5 (world_act exp ApiRemove w5)).
  cbn [world_act]. rewrite S5. unfold w4 in S5 |- *. destruct f; simpl in *.
  - split_and!; [done|by rewrite last_snoc|]. unfold jobs_of. simpl. intros wid' t' H. apply Hj.
    eapply lookup_weaken; [|exact J5]. by apply lookup_delete_Some in H as [_ H].
  - split_and!; [done|by rewrite R5, last_snoc|]. intros wid' t' H. apply Hj. by eapply lookup_weaken.
Qed.

(** A start that spawned nothing. *)
Lemma finish_nothing io w :
  wo_starting w = None ->
  let w' := run_enabled (start_schedule io) w in
  wo_starting w' = None /\ jobs_of w' ⊆ jobs_of w /\ wo_replies w' = wo_replies w.
Proof using Type.
  intros Hst. cbv zeta. unfold start_schedule. rewrite run_enabled_app.
  destruct (run_tasks_fewer (si_before io) w) as (S1 & J1 & R1).
  set (w1 := run_enabled _ w) in *. rewrite Hst in S1. rewrite run_enabled_app.
  assert (run_enabled [ApiObserve] w1 = w1) as -> by by unfold Shell.run_enabled, run_step; simpl; rewrite S1.
  rewrite run_enabled_app. destruct (run_tasks_fewer (si_between io) w1) as (S2 & J2 & R2).
  set (w2 := run_enabled _ w1) in *. rewrite S1 in S2. rewrite run_enabled_app.
  assert (run_enabled [ApiInsert] w2 = w2) as -> by by unfold Shell.run_enabled, run_step; simpl; rewrite S2.
  rewrite run_enabled_app. destruct (run_tasks_fewer (si_after io) w2) as (S3 & J3 & R3).
  set (w3 := run_enabled _ w2) in *. rewrite S2 in S3.
  assert (run_enabled [ApiRemove] w3 = w3) as -> by by unfold Shell.run_enabled, run_step; simpl; rewrite S3.
  split_and!; [done| |congruence]. by etransitivity; [exact J3|etransitivity; [exact J2|]].
Qed.

(** A whole start: refused while a job is registered or a scan in flight,
    failed when there is no endpoint, done otherwise. *)
Lemma start_world_spec now wid resolved io w :
  wo_starting w = None ->
  let w1 := start_step exp now wid true resolved w in
  let w' := run_enabled (start_schedule io) w1 in
  wo_starting w' = None
  /\ (forall wid' t, jobs_of w' !! wid' = Some t -> jobs_of w !! wid' = Some t \/ wid' = wid /\ t = wo_next w)
  /\ last (wo_replies w') = Some (
       if bool_decide (is_Some (jobs_of w !! wid)) || bool_decide (is_Some (ss_blocking_scans (wo_state w) !! wid))
       then Err (ipc_err errors.SYNC_IN_PROGRESS "sync already in progress")
       else match resolved with
            | Ok _ => Ok tt
            | Err e => Err (Context "failed to resolve active lightwalletd endpoint" e)
            end).
Proof using Type.
  intros Hst. cbv zeta. unfold start_step, jobs_of.
  destruct (start_check_cases exp now wid true (wo_state w))
    as [(E1 & E2 & Hin)|(evs & E1 & E2 & E3 & Hj & Hs)];
    destruct (start_check _ _ _ _ _) as [r s]; simpl in *; subst r.
  - subst s. set (w1 := mkWorld _ _ _ _ _ _). destruct (finish_nothing io w1 eq_refl) as (S & J & R).
    split_and!; [done|intros wid' t H; left; by eapply lookup_weaken in H; [|exact J]|].
    rewrite R. simpl. rewrite last_snoc. f_equal.
    destruct Hin as [Hin|Hin]; rewrite (bool_decide_true _ Hin), ?orb_true_r; done.
  - rewrite (bool_decide_false (is_Some (ss_jobs _ !! _))) by (rewrite Hj; by intros []).
    rewrite (bool_decide_false (is_Some (ss_blocking_scans _ !! _))) by (rewrite Hs; by intros []). simpl.
    destruct resolved as [url|e]; simpl.
    + set (w1 := mkWorld _ _ _ _ _ _). destruct (finish_start io wid (wo_next w) w1 eq_refl) as (S & R & J).
      split_and!; [done| |done]. intros wid' t H. destruct (J wid' t H) as [H'|]; [left|by right].
      unfold jobs_of in H'. simpl in H'. by rewrite E2 in H'.
    + set (w1 := mkWorld _ _ _ _ _ _). destruct (finish_nothing io w1 eq_refl) as (S & J & R).
      split_and!; [done| |rewrite R; simpl; by rewrite last_snoc].
      intros wid' t H. left. eapply lookup_weaken in H; [|exact J]. unfold jobs_of in H. simpl in H.
      by rewrite E2 in H.
Qed.
End Worlds.

(** ** Histories of the shell *)

Inductive ShellAct :=
| ShCreate (v : Z) (tip : string -> option (string + Z)) (d : Draws) (name : string) (n : Network)
    (password : string)
| ShRestore (v : Z) (d : Draws) (name : string) (n : Network) (password seed_phrase : string)
    (date_ms : option Z)
| ShKeystone (v : Z) (d : Draws) (name : string) (n : Network) (password ufvk : string)
    (birthday : option Z) (fingerprint : option string) (index : option Z)
| ShLoad (v now now_ms : Z) (io : StartIo) (w : Uuid)
| ShUnlock (v now : Z) (w : Uuid) (password : string)
| ShLock (v now : Z) (w : Uuid)
| ShLogout (v now : Z) (w : Uuid)
| ShStart (v now now_ms : Z) (io : StartIo) (w : Uuid)
| ShStop (v now : Z) (free : bool) (w : Uuid)
| ShProgress (v now : Z) (w : Uuid)
| ShTor (v now now_ms : Z) (clock : string + Z) (io : StartIo) (enabled : bool)
| ShCall (v : Z) (c : Call)
| ShTask (free : bool) (a : WorldAct)
| ShBalance (free : bool) (w : Uuid) (account : Z) (b : Balance).

Section ShellSafety.
Context `{C : Crypto} `{KS : KeyStore} `{WL : WalletLib}.
Context (wallets_root : string) (from_slice : string -> option QueuedBroadcastMeta)
        (url_parse : string -> Url + ParseError) (debug : bool) (env_var : option string)
        (to_vec_pretty : QueuedBroadcastMeta -> string) (fl : Q -> Q)
        (send : nat -> string -> string -> option (result unit))
        (nonce : string -> string) (offset_ms : string -> Q) (exp : f64 -> f64)
        (schedules : WorldAct -> SyncWorld -> bool).

#[local] Abbreviation mgr_call := (run_call wallets_root from_slice url_parse debug env_var to_vec_pretty fl send
  nonce offset_ms).

(** The commands whose body is one call of the manager that keeps the
    session are [ShCall]. *)
Definition shell_act (a : ShellAct) (s : AppState) : AppState :=
  match a with
  | ShCreate v tip d name n pw =>
      (zbag_create_wallet wallets_root from_slice url_parse debug env_var v tip d name n pw s).2
  | ShRestore v d name n pw seed date =>
      (zbag_restore_wallet wallets_root from_slice v d name n pw seed date s).2
  | ShKeystone v d name n pw u b f i =>
      (zbag_create_keystone_wallet wallets_root from_slice v d name n pw u b f i s).2
  | ShLoad v now now_ms io w =>
      (zbag_load_wallet wallets_root from_slice url_parse debug env_var exp schedules v now now_ms io w s).2
  | ShUnlock v now w pw => (zbag_unlock_wallet wallets_root from_slice v now w pw s).2
  | ShLock v now w => (zbag_lock_wallet exp v now w s).2
  | ShLogout v now w => (zbag_logout_wallet exp v now w s).2
  | ShStart v now now_ms io w =>
      (zbag_start_sync wallets_root from_slice url_parse debug env_var exp schedules v now now_ms io w s).2
  | ShStop v now free w => (zbag_stop_sync exp v now free w s).2
  | ShProgress v now w => (zbag_get_sync_progress exp v now w s).2
  | ShTor v now now_ms clock io enabled =>
      (zbag_set_tor_enabled wallets_root from_slice url_parse debug env_var exp schedules v now now_ms clock io
         enabled s).2
  | ShCall v c => if lifecycle c then s else (command v (on_mgr (mgr_call c)) s).2
  | ShTask free t => sync_task_step exp schedules free t s
  | ShBalance free w account b => balance_handler free w account b s
  end.

Definition shell_run (acts : list ShellAct) (s : AppState) : AppState := foldl (fun s a => shell_act a s) s acts.

(** The random key of a new wallet has 32 bytes. *)
Definition shell_act_ok (a : ShellAct) : bool :=
  match a with
  | ShCreate _ _ d _ _ _ | ShRestore _ d _ _ _ _ _ | ShKeystone _ d _ _ _ _ _ _ _ =>
      (String.length (dr_dek d) =? 32)%nat
  | _ => true
  end.

(** No sync runs, or only that of [w]. *)
Definition only_syncs (w : Uuid) (s : AppState) : bool :=
  bool_decide (dom (jobs_of (as_sync s)) ⊆ ({[w]} : gset string)).

(** A command that changes the session without stopping the sync of the
    previous wallet comes when no other wallet is being synced. *)
Definition orderly (a : ShellAct) (s : AppState) : bool :=
  match a with
  | ShCreate _ _ d _ _ _ | ShRestore _ d _ _ _ _ _ | ShKeystone _ d _ _ _ _ _ _ _ =>
      bool_decide (jobs_of (as_sync s) = ∅)
  | ShUnlock _ _ w _ | ShStart _ _ _ _ w => only_syncs w s
  | _ => true
  end.

Fixpoint orderly_run (acts : list ShellAct) (s : AppState) : bool :=
  match acts with
  | [] => true
  | a :: acts' => shell_act_ok a && orderly a s && orderly_run acts' (shell_act a s)
  end.

(** ** The invariant *)

Record confined (s : AppState) : Prop := mkConfined {
  cf_session : session_ok wallets_root (as_mgr s);
  cf_starting : wo_starting (as_sync s) = None;
  cf_world : world_inv (as_sync s);
  cf_excl : prompt_scheduler schedules -> excl_inv (as_sync s);
  cf_jobs : forall w t, jobs_of (as_sync s) !! w = Some t ->
    exists dek, session_of (as_mgr s) = UnlockedWallet w dek;
}.

(** [P] is preserved. *)
Definition pres (P : AppState -> Prop) (s s' : AppState) : Prop := P s -> P s'.
#[local] Instance pres_preorder P : PreOrder (pres P).
Proof using Type. unfold pres. split; [by intros s|intros a b c ? ? ?; auto]. Qed.

Lemma on_mgr_confined {A} (m : M WM A) : m_pres keeps m -> m_pres (pres confined) (on_mgr m).
Proof using Type.
  apply m_pres_zoom. intros s t Hk [H1 H2 H3 H4 H5]. split; simpl; [|done..|].
  - by eapply session_ok_keeps.
  - intros w tk Hj. rewrite (keeps_session _ _ Hk). eauto.
Qed.

Lemma stop_confined now w h : m_pres (pres confined) (stop_sync_service exp now w h).
Proof using Type.
  intros s [H1 H2 H3 H4 H5]. unfold stop_sync_service. simpl.
  assert (world_act exp (ApiStop now w h) (as_sync s) = Some (stop_step exp now w h (as_sync s))) as E by done.
  destruct (stop_step_jobs exp now w h (as_sync s)) as [Ej Es].
  split; simpl; [done|congruence|by eapply world_act_inv|intros Hp; by apply stop_excl, H4|].
  intros w' t. rewrite Ej, lookup_delete_Some. intros [_ H]. eauto.
Qed.

Lemma session_of_unlocked w s dek :
  unlocked_wallet_dek w s = Ok dek -> session_of s = UnlockedWallet w dek.
Proof using Type.
  unfold unlocked_wallet_dek, require_unlocked_wallet_snapshot, session_of, session_of_active, is_unlocked.
  destruct (wm_active s) as [a|]; [|done]. repeat case_bool_decide; simpl; try done.
  destruct (aw_dek a) as [k|]; [|done]. intros [= <-].
  match goal with H : aw_lock_status a = _ |- _ => rewrite H end. congruence.
Qed.

Lemma start_sync_confined io w n s dek :
  confined s -> session_of (as_mgr s) = UnlockedWallet w dek ->
  confined (start_sync url_parse debug env_var exp schedules io w n s).2.
Proof using Type.
  intros [H1 H2 H3 H4 H5] Hs. unfold start_sync.
  assert (exists r, exists m, (match (start_check exp (si_now io) w true (wo_state (as_sync s))).1 with
    | Ok _ => on_app_db (resolve_grpc_url url_parse debug n env_var) (as_mgr s)
    | Err e => (Err e, as_mgr s)
    end) = (r, m) /\ keeps (as_mgr s) m) as (r & m & -> & Hk).
  { destruct (start_check _ _ _ _ _).1; [|eexists _, _; split; [done|reflexivity]].
    pose proof (on_app_db_keeps _ (resolve_grpc_url_grows url_parse debug n env_var) (as_mgr s)) as Hk.
    destruct (on_app_db _ _) as [r m]. by exists r, m. }
  destruct (start_world_spec exp schedules (si_now io) w r io (as_sync s) H2) as (S & J & _).
  pose proof (start_step_inv exp (si_now io) w true r _ H3) as W1.
  destruct (run_enabled_inv exp schedules (start_schedule io) _ W1) as [W2 X2].
  split; simpl; [by eapply session_ok_keeps|done|done| |].
  - intros Hp. apply X2; [done|]. by apply start_step_excl; auto.
  - rewrite (keeps_session _ _ Hk). intros w' t H. destruct (J w' t H) as [H'|[-> _]]; eauto.
Qed.

Lemma list_ids_keeps w : m_pres keeps (list_wallet_db_account_ids w).
Proof using Type. unfold list_wallet_db_account_ids. m_pres_auto. Qed.

Lemma start_with_handlers_confined io wallet :
  m_pres (pres confined) (start_sync_with_handlers url_parse debug env_var exp schedules io wallet).
Proof using Type.
  unfold start_sync_with_handlers.
  apply m_pres_bind; [apply _|apply on_mgr_confined; auto with zbag|intros found].
  apply m_pres_bind; [apply _|apply m_pres_lift; apply _|intros _].
  apply m_pres_get_bind. intros s Hc. rewrite m_bind_eq. unfold m_lift at 1.
  destruct (unlocked_wallet_dek _ _) as [dek|e] eqn:Ed; [|done].
  apply session_of_unlocked in Ed. rewrite m_bind_eq.
  pose proof (on_mgr_confined _ (list_ids_keeps (wi_id wallet)) s Hc) as Hc1.
  pose proof (list_ids_keeps (wi_id wallet) (as_mgr s)) as Hk.
  unfold on_mgr at 1, m_zoom. unfold on_mgr, m_zoom in Hc1.
  destruct (list_wallet_db_account_ids _ (as_mgr s)) as [[ids|e] m]; simpl in *; [|done].
  apply keeps_session in Hk. rewrite m_bind_eq. unfold m_try at 1.
  pose proof (start_sync_confined io (wi_id wallet) (wi_network wallet) _ dek Hc1 ltac:(simpl; congruence)) as Hc2.
  destruct (start_sync _ _ _ _ _ _ _ _ _) as [r s2]. simpl in *. destruct r as [u|err]; simpl.
  - revert Hc2. apply m_pres_bind; [apply _|apply on_mgr_confined; auto with zbag|intros ?].
    apply m_pres_ret. apply _.
  - by case_bool_decide.
Qed.

(** ** The calls that change the session *)

Lemma void_state {A} (m : M WM A) s : (void m s).2 = (m s).2.
Proof using Type. unfold void. rewrite m_bind_eq. by destruct (m s) as [[a|e] s']. Qed.

Lemma on_mgr_state {A} (m : M WM A) s : (on_mgr m s).2 = as_set_mgr (m (as_mgr s)).2 s.
Proof using Type. unfold on_mgr, m_zoom. by destruct (m (as_mgr s)). Qed.

Context `{L : !CryptoLaws C}.

(** A call keeps the invariant when it leaves the wallet that is synced unlocked. *)
Lemma call_confined c s :
  call_ok c -> confined s ->
  (forall k w t dek, jobs_of (as_sync s) !! w = Some t ->
     exists dek', session_next c k (UnlockedWallet w dek) = UnlockedWallet w dek') ->
  confined (as_set_mgr (mgr_call c (as_mgr s)).2 s).
Proof using L.
  intros Hc [H1 H2 H3 H4 H5] Hn. split; simpl; [|done..|].
  - by apply run_call_inv.
  - intros w t Hj. destruct (H5 w t Hj) as [dek Hd].
    pose proof (run_call_refines wallets_root from_slice url_parse debug env_var to_vec_pretty fl send nonce
      offset_ms c (as_mgr s) H1) as Hr. destruct (mgr_call c (as_mgr s)) as [r s'].
    destruct Hr as (k & _ & Hm & _). rewrite Hd in Hm. unfold moves in Hm. simpl.
    destruct (Hn k w t dek Hj) as [dek' Hd']. destruct Hm as [-> | ->]; eauto.
Qed.

(** The invariant, with no sync but that of [w]. *)
Definition confined_to (w : Uuid) (s : AppState) : Prop :=
  confined s /\ forall w' t, jobs_of (as_sync s) !! w' = Some t -> w' = w.

Lemma only_syncs_true w s :
  only_syncs w s = true <-> forall w' t, jobs_of (as_sync s) !! w' = Some t -> w' = w.
Proof using Type.
  unfold only_syncs. rewrite bool_decide_eq_true. split.
  - intros H w' t Hj. apply elem_of_dom_2, H, elem_of_singleton in Hj. done.
  - intros H w' [t Hj]%elem_of_dom. apply H in Hj. by apply elem_of_singleton.
Qed.

Lemma load_confined now now_ms w :
  m_pres (pres (confined_to w)) (on_mgr (load_wallet wallets_root from_slice now now_ms w)).
Proof using All.
  intros s [Hc Hw]. rewrite on_mgr_state, <- void_state. split; [|done].
  apply (call_confined (CLoad now now_ms w)); [done|done|]. intros k w' t dek Hj. simpl.
  rewrite (Hw w' t Hj), bool_decide_eq_true_2 by done. eauto.
Qed.

Lemma unlock_confined now w pw :
  m_pres (pres (confined_to w)) (on_mgr (unlock_wallet wallets_root from_slice now w pw)).
Proof using All.
  intros s [Hc Hw]. rewrite on_mgr_state, <- void_state. split; [|done].
  apply (call_confined (CUnlock now w pw)); [done|done|]. intros k w' t dek Hj. simpl.
  rewrite (Hw w' t Hj). eauto.
Qed.

(** A creation, while nothing is synced. *)
Lemma create_confined c s :
  call_ok c -> confined s -> jobs_of (as_sync s) = ∅ -> confined (as_set_mgr (mgr_call c (as_mgr s)).2 s).
Proof using L. intros Hc Hs Hj. apply call_confined; [done|done|]. rewrite Hj. by intros. Qed.

(** Locking or logging out a wallet that is not synced. *)
Lemma leave_confined c w s :
  (c = CLock w \/ c = CLogout w) -> confined s -> jobs_of (as_sync s) !! w = None ->
  confined (as_set_mgr (mgr_call c (as_mgr s)).2 s).
Proof using L.
  intros Hc Hs Hj. apply call_confined; [by destruct Hc as [-> | ->]|done|].
  intros k w' t dek Hj'. assert (w' <> w) by congruence.
  destruct Hc as [-> | ->]; simpl; rewrite bool_decide_eq_false_2 by congruence; eauto.
Qed.

Lemma command_pres {A} P v (body : M AppState A) s : m_pres (pres P) body -> P s -> P (command v body s).2.
Proof using Type. intros Hb Hs. unfold command. destruct (ensure_schema_version v); [by apply Hb|done]. Qed.

Lemma confined_on_keeps {A} w (m : M WM A) : m_pres keeps m -> m_pres (pres (confined_to w)) (on_mgr m).
Proof using Type.
  intros Hm s [Hc Hw]. split; [by apply on_mgr_confined|]. by rewrite on_mgr_state.
Qed.

(** ** The commands *)

Lemma stop_for_wallet_sync now w s :
  as_sync (stop_sync_for_wallet exp now w s).2 = stop_step exp now w false (as_sync s).
Proof using Type.
  unfold stop_sync_for_wallet, observe_sync_stop_requested. rewrite m_bind_eq. simpl. rewrite m_bind_eq. simpl.
  rewrite on_mgr_state. done.
Qed.

Lemma observe_stop_keeps w : m_pres keeps (observe_sync_stop_requested w).
Proof using Type. by apply m_modify_keeps. Qed.

Lemma stop_for_wallet_confined now w : m_pres (pres confined) (stop_sync_for_wallet exp now w).
Proof using Type.
  unfold stop_sync_for_wallet. apply m_pres_bind; [apply _|apply on_mgr_confined, observe_stop_keeps|intros _].
  apply m_pres_bind; [apply _|apply m_pres_ignore, stop_confined|intros _].
  apply on_mgr_confined. auto with zbag.
Qed.

Lemma stop_previous_confined now w s : confined s -> confined_to w (stop_previous_wallet_sync exp now w s).2.
Proof using Type.
  intros Hc. unfold stop_previous_wallet_sync. rewrite m_get_bind.
  assert (forall w' t, jobs_of (as_sync s) !! w' = Some t -> wi_id <$> active_wallet_info (as_mgr s) = Some w') as Ha.
  { intros w' t [dek Hd]%(cf_jobs _ Hc). unfold session_of, session_of_active, active_wallet_info in *.
    destruct (wm_active _) as [a|]; [|done]. simpl. by destruct (aw_lock_status a), (aw_dek a); simplify_eq. }
  destruct (active_wallet_info _) as [prev|]; simpl.
  2:{ split; [done|]. intros w' t Hj. by apply Ha in Hj. }
  case_bool_decide as Hp; simpl.
  - split; [by apply stop_for_wallet_confined|]. intros w' t. rewrite stop_for_wallet_sync.
    destruct (stop_step_jobs exp now (wi_id prev) false (as_sync s)) as [-> _].
    rewrite lookup_delete_Some. intros [Hne Hj]. apply Ha in Hj. simpl in Hj. congruence.
  - split; [done|]. intros w' t Hj. apply Ha in Hj. simpl in Hj. destruct (decide (wi_id prev = w)); [congruence|done].
Qed.

Lemma load_accounts_keeps w : m_pres (pres confined) (load_accounts_for_wallet w).
Proof using Type.
  unfold load_accounts_for_wallet. apply m_pres_bind; [apply _|apply on_mgr_confined, list_ids_keeps|intros ids].
  apply m_pres_bind; [apply _| |intros ?; apply m_pres_ret; apply _].
  apply m_pres_context, on_mgr_confined, on_app_db_keeps. unfold list_accounts. m_pres_auto.
Qed.

Lemma build_load_confined now now_ms w s :
  confined_to w s -> confined (build_load_wallet_response wallets_root from_slice now now_ms w s).2.
Proof using All.
  intros Hs. pose proof (load_confined now now_ms w s Hs) as [Hc _]. unfold build_load_wallet_response.
  rewrite m_bind_eq. destruct (on_mgr (load_wallet _ _ _ _ _) s) as [[[wal st]|e] s1]; simpl in *; [|done].
  revert Hc. apply m_pres_bind; [apply _| |intros ?; apply m_pres_ret; apply _].
  destruct st; [apply m_pres_ret; apply _|apply load_accounts_keeps].
Qed.

Lemma zbag_load_confined v now now_ms io w s :
  confined s ->
  confined (zbag_load_wallet wallets_root from_slice url_parse debug env_var exp schedules v now now_ms io w s).2.
Proof using All.
  unfold zbag_load_wallet. apply command_pres. intros s0 Hc. rewrite m_bind_eq.
  pose proof (stop_previous_confined now w s0 Hc) as H1.
  destruct (stop_previous_wallet_sync _ _ _ _) as [[u|e] s1]; simpl in *; [|by destruct H1].
  rewrite m_bind_eq. pose proof (build_load_confined now now_ms w s1 H1) as H2.
  destruct (build_load_wallet_response _ _ _ _ _ _) as [[resp|e] s2]; simpl in *; [|done].
  revert H2. apply m_pres_bind; [apply _| |intros ?; apply m_pres_ret; apply _].
  case_bool_decide; [apply m_pres_ignore, start_with_handlers_confined|apply m_pres_ret; apply _].
Qed.

Lemma zbag_start_confined v now now_ms io w s :
  confined_to w s ->
  confined (zbag_start_sync wallets_root from_slice url_parse debug env_var exp schedules v now now_ms io w s).2.
Proof using All.
  intros Hs. unfold zbag_start_sync, command. destruct (ensure_schema_version v); [|by destruct Hs]. simpl.
  pose proof (load_confined now now_ms w s Hs) as [Hc _]. rewrite m_bind_eq.
  destruct (on_mgr (load_wallet _ _ _ _ _) s) as [[[wal st]|e] s1]; simpl in *; [|done].
  case_bool_decide; [done|]. by apply start_with_handlers_confined.
Qed.

Lemma zbag_lock_confined v now w s : confined s -> confined (zbag_lock_wallet exp v now w s).2.
Proof using All.
  unfold zbag_lock_wallet. apply command_pres. intros s0 Hc. unfold logic_lock_wallet. rewrite m_bind_eq.
  pose proof (stop_for_wallet_confined now w s0 Hc) as H1. pose proof (stop_for_wallet_sync now w s0) as Ew.
  destruct (stop_sync_for_wallet _ _ _ _) as [[u|e] s1]; simpl in *; [|done].
  rewrite m_bind_eq. pose proof (leave_confined (CLock w) w s1 ltac:(auto) H1) as H2.
  rewrite Ew, (proj1 (stop_step_jobs exp now w false _)), lookup_delete_eq in H2. specialize (H2 eq_refl).
  simpl run_call in H2. rewrite void_state, <- on_mgr_state in H2.
  by destruct (on_mgr (lock_wallet w) s1) as [[st|e] s2].
Qed.

Lemma zbag_logout_confined v now w s : confined s -> confined (zbag_logout_wallet exp v now w s).2.
Proof using All.
  unfold zbag_logout_wallet. apply command_pres. intros s0 Hc. unfold logic_logout_wallet. rewrite m_bind_eq.
  pose proof (stop_confined now w false s0 Hc) as H1. simpl in *. set (s1 := as_set_sync _ s0) in *.
  assert (jobs_of (as_sync s1) !! w = None) as Hn.
  { unfold s1. simpl. by rewrite (proj1 (stop_step_jobs exp now w false _)), lookup_delete_eq. }
  rewrite m_bind_eq. pose proof (leave_confined (CLogout w) w s1 ltac:(auto) H1 Hn) as H2.
  cbn [run_call] in H2. rewrite <- on_mgr_state in H2.
  by destruct (on_mgr (logout_wallet w) s1) as [[st|e] s2].
Qed.

Lemma zbag_stop_confined v now free w s : confined s -> confined (zbag_stop_sync exp v now free w s).2.
Proof using Type.
  unfold zbag_stop_sync. apply command_pres.
  apply m_pres_bind; [apply _|apply on_mgr_confined, observe_stop_keeps|intros _].
  apply m_pres_bind; [apply _|apply stop_confined|intros evs].
  apply m_pres_bind; [apply _| |intros _; apply m_pres_ret; apply _].
  apply m_pres_fold; [apply _|]. intros [] []; try (apply m_pres_ret; apply _).
  destruct free; [apply on_mgr_confined; auto with zbag|apply m_pres_ret; apply _].
Qed.

Definition stop_all (now : Z) (l : list Uuid) (w : SyncWorld) : SyncWorld :=
  foldl (fun w x => stop_step exp now x false w) w l.

Lemma stop_all_run now l s :
  m_fold (fun (_ : unit) x => m_ignore (stop_sync_service exp now x false)) tt l s
  = (Ok tt, as_set_sync (stop_all now l (as_sync s)) s).
Proof using Type.
  revert s. induction l as [|x l IH]; intros s; [by destruct s|]. cbn [m_fold]. rewrite m_bind_eq. simpl.
  by rewrite IH.
Qed.

Lemma stop_all_confined now l s : confined s -> confined (as_set_sync (stop_all now l (as_sync s)) s).
Proof using Type.
  intros Hc. assert (m_pres (pres confined)
    (m_fold (fun (_ : unit) x => m_ignore (stop_sync_service exp now x false)) tt l)) as H.
  { apply m_pres_fold; [apply _|]. intros _ x. apply m_pres_ignore, stop_confined. }
  specialize (H s Hc). by rewrite stop_all_run in H.
Qed.

(** Stopping every wallet that runs leaves no job. *)
Lemma stop_all_jobs now l w x t :
  jobs_of (stop_all now l w) !! x = Some t -> jobs_of w !! x = Some t /\ x ∉ l.
Proof using Type.
  revert w. induction l as [|y l IH]; intros w; simpl; [by split; [|intros ?%elem_of_nil]|].
  intros [H Hn]%IH. rewrite (proj1 (stop_step_jobs exp now y false w)), lookup_delete_Some in H.
  destruct H as [Hne H]. split; [done|]. by intros [-> |?]%elem_of_cons.
Qed.

Lemma elem_of_running w st : w ∈ running_wallet_ids st <-> is_Some (ss_jobs st !! w).
Proof using Type.
  unfold running_wallet_ids. rewrite list_elem_of_fmap. split.
  - intros ([x t] & -> & H%elem_of_map_to_list). by exists t.
  - intros [t H]. exists (w, t). by rewrite elem_of_map_to_list.
Qed.

Lemma stop_running_jobs now w : jobs_of (stop_all now (running_wallet_ids (wo_state w)) w) = ∅.
Proof using Type.
  apply map_empty. intros x. apply eq_None_not_Some. intros [t [H Hn]%stop_all_jobs].
  apply Hn, elem_of_running. by exists t.
Qed.

(** Under the invariant at most one wallet runs, the active one. *)
Lemma running_confined s :
  confined s -> exists x, running_wallet_ids (wo_state (as_sync s)) = []
                          \/ running_wallet_ids (wo_state (as_sync s)) = [x].
Proof using Type.
  intros Hc. assert (NoDup (running_wallet_ids (wo_state (as_sync s)))) as Hnd
    by apply NoDup_fst_map_to_list.
  assert (forall x, x ∈ running_wallet_ids (wo_state (as_sync s)) ->
            session_wallet (session_of (as_mgr s)) = Some x) as Hin.
  { intros x [t [dek Hd]%(cf_jobs _ Hc)]%elem_of_running. by rewrite Hd. }
  destruct (running_wallet_ids _) as [|x [|y l]]; [exists ""; by left|exists x; by right|].
  assert (x = y) as -> by (apply Some_inj; rewrite <- (Hin x), <- (Hin y); [done|repeat constructor..]).
  apply NoDup_cons in Hnd as [Hnd _]. destruct Hnd. constructor.
Qed.

Lemma upsert_tor_state_keeps st t : m_pres keeps (on_app_db (upsert_tor_state st t)).
Proof using Type. apply on_app_db_keeps. unfold upsert_tor_state. stmt_same. Qed.

Lemma restart_one_confined now now_ms io x :
  m_pres (fun s s' => confined_to x s -> confined s')
    (restart_syncs wallets_root from_slice url_parse debug env_var exp schedules now now_ms io [x]).
Proof using All.
  intros s Hs. unfold restart_syncs. cbn [m_fold]. rewrite !m_bind_eq. unfold m_try.
  pose proof (load_confined now now_ms x s Hs) as [Hc _].
  destruct (on_mgr (load_wallet _ _ _ _ _) s) as [[[wal []]|e] s1]; simpl in *; try done.
  by apply start_with_handlers_confined.
Qed.

(** Tor once it is switched inside a runtime. *)
Definition tor_after (enabled : bool) (w : TorWorld) : TorWorld :=
  let w' := set_enabled_locked enabled w in
  if (tw_next w' =? tw_next w)%nat then w'
  else store_handle (tw_next w) (default w' (spawn_bootstrap (tw_next w) w')).

Lemma zbag_set_tor_confined v now now_ms clock io enabled s :
  confined s ->
  confined (zbag_set_tor_enabled wallets_root from_slice url_parse debug env_var exp schedules v now now_ms clock
              io enabled s).2.
Proof using All.
  intros Hc. unfold zbag_set_tor_enabled, command. destruct (ensure_schema_version v); [|done]. simpl.
  rewrite m_get_bind, m_bind_eq, stop_all_run. cbv beta iota. rewrite m_get_bind, m_bind_eq. cbn [m_lift].
  rewrite m_modify_bind, m_get_bind, m_bind_eq.
  set (l := if enabled then _ else _). set (st := tm_state _). unfold m_lift at 1.
  pose proof (stop_all_confined now l s Hc) as H1. set (s1 := as_set_sync _ s) in *.
  set (s2 := as_set_tor _ s1).
  assert (confined s2) as H2 by by destruct H1.
  destruct (match clock with inl _ => _ | inr _ => _ end) as [ms|e]; [|done].
  assert (exists x, l = [] \/ l = [x] /\ confined_to x s2 /\ enabled = true) as [x Hl].
  { unfold l. destruct enabled eqn:Een; [|exists ""; by left].
    destruct (running_confined s Hc) as [x [Hx|Hx]]; exists x; [by left|right].
    split_and!; [done| |done]. split; [done|]. intros w' t.
    unfold s2, s1, l. simpl. rewrite stop_running_jobs. done. }
  rewrite m_bind_eq. pose proof (confined_on_keeps x _ (upsert_tor_state_keeps st ms) s2) as H3.
  pose proof (on_mgr_confined _ (upsert_tor_state_keeps st ms) s2 H2) as H3'.
  destruct (on_mgr _ s2) as [[u|e] s3]; simpl in *; [|done]. rewrite m_bind_eq.
  destruct Hl as [-> |(-> & Hx & ->)]; [by rewrite andb_false_r|]. simpl.
  pose proof (restart_one_confined now now_ms io x s3 (H3 Hx)) as H4.
  by destruct (restart_syncs _ _ _ _ _ _ _ _ _ _ _ _) as [[u'|e] s4].
Qed.

Lemma sync_task_confined free a s : confined s -> confined (sync_task_step exp schedules free a s).
Proof using Type.
  intros Hc. unfold sync_task_step. destruct (negb _) eqn:Ea; [done|]. breflect.
  destruct (world_act exp a (as_sync s)) as [w|] eqn:E; [|done].
  assert (confined (as_set_sync w s)) as Hw.
  { destruct Hc as [H1 H2 H3 H4 H5]. destruct (task_act_fewer exp a _ _ ltac:(done) E) as (S & J & _).
    split; simpl; [done|congruence|by eapply world_act_inv| |].
    - intros Hp. eapply world_act_excl; eauto.
    - intros w' t Hj. apply (H5 w' t). by eapply lookup_weaken. }
  destruct (reported _ _ _) as [[w' p]|]; [|done]. destruct free; [|done].
  revert Hw. apply on_mgr_confined. auto with zbag.
Qed.

Lemma shell_act_confined a s :
  shell_act_ok a = true -> orderly a s = true -> confined s -> confined (shell_act a s).
Proof using All.
  intros Hok Ho Hc. destruct a; simpl in *.
  - unfold zbag_create_wallet, command. destruct (ensure_schema_version v); [|done]. simpl.
    rewrite m_bind_eq. unfold birthday_for_new_wallet. rewrite m_bind_eq. unfold m_try.
    pose proof (on_mgr_confined _ (on_app_db_keeps _ (resolve_grpc_url_grows url_parse debug n env_var)) s Hc) as H1.
    assert (jobs_of (as_sync (on_mgr (on_app_db (resolve_grpc_url url_parse debug n env_var)) s).2) = ∅) as Hj.
    { rewrite on_mgr_state. by apply bool_decide_eq_true in Ho. }
    destruct (on_mgr _ s) as [r s1]. simpl in *. rewrite on_mgr_state, <- void_state.
    apply (create_confined (CCreate d name n password _)); [|done|done]. by apply Nat.eqb_eq.
  - unfold zbag_restore_wallet. revert Hc. unfold command. destruct (ensure_schema_version v); [|done]. simpl.
    intros Hc. rewrite on_mgr_state, <- void_state.
    apply (create_confined (CRestore d name n password seed_phrase date_ms)); [by apply Nat.eqb_eq|done|].
    by apply bool_decide_eq_true in Ho.
  - unfold zbag_create_keystone_wallet, command. destruct (ensure_schema_version v); [|done]. simpl.
    rewrite on_mgr_state, <- void_state.
    apply (create_confined (CKeystone d name n password ufvk birthday fingerprint index)); [by apply Nat.eqb_eq|done|].
    by apply bool_decide_eq_true in Ho.
  - by apply zbag_load_confined.
  - unfold zbag_unlock_wallet, command. destruct (ensure_schema_version v); [|done]. simpl.
    pose proof (unlock_confined now w password s) as [H _]; [split; [done|]; by apply only_syncs_true|].
    rewrite m_bind_eq. by destruct (on_mgr _ s) as [[st|e] s1].
  - by apply zbag_lock_confined.
  - by apply zbag_logout_confined.
  - apply zbag_start_confined. split; [done|]. by apply only_syncs_true.
  - by apply zbag_stop_confined.
  - revert Hc. apply command_pres. intros s0 [H1 H2 H3 H4 H5].
    pose proof (get_progress_frame exp now w (wo_state (as_sync s0))) as [F1 F2].
    destruct (SyncService.get_progress _ _ _ _) as [p st] eqn:E. simpl in *.
    assert (world_act exp (ApiProgress now w) (as_sync s0) = Some (with_sync_state (fun _ => st) (as_sync s0))) as Ea.
    { cbn [world_act]. unfold with_sync_state. cbv beta. by rewrite E. }
    split; simpl; [done|done|by eapply world_act_inv|intros Hp; by eapply world_act_excl; eauto|].
    unfold jobs_of. simpl. by rewrite F1.
  - by apply zbag_set_tor_confined.
  - destruct (lifecycle c) eqn:El; [done|]. revert Hc. apply command_pres, on_mgr_confined.
    by apply other_calls_keep.
  - by apply sync_task_confined.
  - unfold balance_handler. destruct free; [|done]. revert Hc. apply on_mgr_confined.
    unfold observe_balance_changed. m_pres_auto.
Qed.

(** ** What holds after any history *)

(** A relation between the worlds of before and after that every step of the
    sync service is in. *)
Record sync_closed (R : SyncWorld -> SyncWorld -> Prop) : Prop := mkSyncClosed {
  sc_preorder :: PreOrder R;
  sc_stop : forall now w h x, R x (stop_step exp now w h x);
  sc_start : forall io w r x,
    R x (Shell.run_enabled exp schedules (start_schedule io) (start_step exp (si_now io) w true r x));
  sc_progress : forall now w x y, world_act exp (ApiProgress now w) x = Some y -> R x y;
  sc_task : forall a x y, task_act a = true -> schedules a x = true -> world_act exp a x = Some y -> R x y;
}.

Section Closed.
Context (R : SyncWorld -> SyncWorld -> Prop) (HR : sync_closed R).

Definition app_rel (s s' : AppState) : Prop := R (as_sync s) (as_sync s').
#[local] Instance app_rel_preorder : PreOrder app_rel.
Proof using HR.
  destruct HR as [[Hr Ht] _ _ _ _]. split; [intros s; apply Hr|]. intros a b c. apply Ht.
Qed.

Lemma on_mgr_rel {A} (m : M WM A) : m_pres app_rel (on_mgr m).
Proof using HR. intros s. rewrite on_mgr_state. change (app_rel s s). reflexivity. Qed.

Lemma stop_rel now w h : m_pres app_rel (stop_sync_service exp now w h).
Proof using HR. intros s. apply (sc_stop R HR). Qed.

Lemma start_rel io w n : m_pres app_rel (start_sync url_parse debug env_var exp schedules io w n).
Proof using HR.
  intros s. unfold start_sync. destruct (match _ with Ok _ => _ | Err _ => _ end) as [r m]. apply (sc_start R HR).
Qed.

Lemma start_with_handlers_rel io wallet :
  m_pres app_rel (start_sync_with_handlers url_parse debug env_var exp schedules io wallet).
Proof using HR.
  unfold start_sync_with_handlers.
  repeat (apply m_pres_bind; [apply _| |intros ?]); try apply on_mgr_rel; try (apply m_pres_lift; apply _);
    try (apply m_pres_get; apply _).
  { apply m_pres_try, start_rel. }
  case_match; [apply m_pres_bind; [apply _|apply on_mgr_rel|intros ?; apply m_pres_ret; apply _]|].
  case_bool_decide; [apply m_pres_ret; apply _|apply m_pres_err; apply _].
Qed.

Lemma stop_for_wallet_rel now w : m_pres app_rel (stop_sync_for_wallet exp now w).
Proof using HR.
  unfold stop_sync_for_wallet. apply m_pres_bind; [apply _|apply on_mgr_rel|intros _].
  apply m_pres_bind; [apply _|apply m_pres_ignore, stop_rel|intros _]. apply on_mgr_rel.
Qed.

Lemma stop_previous_rel now w : m_pres app_rel (stop_previous_wallet_sync exp now w).
Proof using HR.
  unfold stop_previous_wallet_sync. apply m_pres_bind; [apply _|apply m_pres_get; apply _|intros s].
  case_match; [|apply m_pres_ret; apply _]. case_bool_decide; [apply stop_for_wallet_rel|apply m_pres_ret; apply _].
Qed.

Lemma load_accounts_rel w : m_pres app_rel (load_accounts_for_wallet w).
Proof using HR.
  unfold load_accounts_for_wallet. apply m_pres_bind; [apply _|apply on_mgr_rel|intros ids].
  apply m_pres_bind; [apply _|apply m_pres_context, on_mgr_rel|intros ?; apply m_pres_ret; apply _].
Qed.

Lemma build_load_rel now now_ms w : m_pres app_rel (build_load_wallet_response wallets_root from_slice now now_ms w).
Proof using HR.
  unfold build_load_wallet_response. apply m_pres_bind; [apply _|apply on_mgr_rel|intros [wal st]].
  apply m_pres_bind; [apply _| |intros ?; apply m_pres_ret; apply _].
  destruct st; [apply m_pres_ret; apply _|apply load_accounts_rel].
Qed.

Lemma restart_syncs_rel now now_ms io l :
  m_pres app_rel (restart_syncs wallets_root from_slice url_parse debug env_var exp schedules now now_ms io l).
Proof using HR.
  apply m_pres_fold; [apply _|]. intros _ w. apply m_pres_bind; [apply _|apply m_pres_try, on_mgr_rel|intros r].
  destruct r as [[wal []]|e]; try (apply m_pres_ret; apply _). apply m_pres_ignore, start_with_handlers_rel.
Qed.

Lemma set_tor_rel v now now_ms clock io enabled s :
  app_rel s (zbag_set_tor_enabled wallets_root from_slice url_parse debug env_var exp schedules v now now_ms clock
              io enabled s).2.
Proof using HR.
  unfold zbag_set_tor_enabled. revert s. intros s. unfold command. destruct (ensure_schema_version v); [|reflexivity].
  cbn iota. revert s. apply m_pres_bind; [apply _|apply m_pres_get; apply _|intros s0].
  apply m_pres_bind; [apply _| |intros _].
  { apply m_pres_fold; [apply _|]. intros [] x. apply m_pres_ignore, stop_rel. }
  apply m_pres_bind; [apply _|apply m_pres_get; apply _|intros s1].
  apply m_pres_bind; [apply _|apply m_pres_lift; apply _|intros tor].
  apply m_pres_bind; [apply _| |intros _].
  { apply m_pres_modify. intros s. change (app_rel s s). reflexivity. }
  apply m_pres_bind; [apply _|apply m_pres_get; apply _|intros s2].
  apply m_pres_bind; [apply _|apply m_pres_lift; apply _|intros ms].
  apply m_pres_bind; [apply _|apply on_mgr_rel|intros _].
  apply m_pres_bind; [apply _| |intros _; apply m_pres_ret; apply _].
  destruct (_ && _); [apply restart_syncs_rel|apply m_pres_ret; apply _].
Qed.

Lemma command_rel {A} v (body : M AppState A) s : m_pres app_rel body -> app_rel s (command v body s).2.
Proof using HR. intros Hb. unfold command. destruct (ensure_schema_version v); [apply Hb|reflexivity]. Qed.

Lemma sync_task_rel free a s : app_rel s (sync_task_step exp schedules free a s).
Proof using HR.
  unfold sync_task_step. destruct (negb _) eqn:Ea; [reflexivity|]. breflect.
  destruct (world_act exp a (as_sync s)) as [w|] eqn:E; [|reflexivity].
  assert (app_rel s (as_set_sync w s)) as Hw by (eapply (sc_task R HR); [| |exact E]; done).
  destruct (reported _ _ _) as [[w' p]|]; [|done]. destruct free; [|done].
  etransitivity; [exact Hw|apply on_mgr_rel].
Qed.

(** Every act of the shell is in the relation. *)
Lemma shell_act_rel a s : app_rel s (shell_act a s).
Proof using HR.
  destruct a; simpl.
  - apply command_rel. unfold birthday_for_new_wallet.
    apply m_pres_bind; [apply _| |intros ?; apply on_mgr_rel].
    apply m_pres_bind; [apply _|apply m_pres_try, on_mgr_rel|intros ?; apply m_pres_ret; apply _].
  - apply command_rel, on_mgr_rel.
  - apply command_rel, on_mgr_rel.
  - apply command_rel. apply m_pres_bind; [apply _|apply stop_previous_rel|intros _].
    apply m_pres_bind; [apply _|apply build_load_rel|intros resp].
    apply m_pres_bind; [apply _| |intros _; apply m_pres_ret; apply _].
    case_bool_decide; [apply m_pres_ignore, start_with_handlers_rel|apply m_pres_ret; apply _].
  - apply command_rel. apply m_pres_bind; [apply _|apply on_mgr_rel|intros ?; apply m_pres_ret; apply _].
  - apply command_rel. unfold logic_lock_wallet. apply m_pres_bind; [apply _|apply stop_for_wallet_rel|intros _].
    apply m_pres_bind; [apply _|apply on_mgr_rel|intros ?; apply m_pres_ret; apply _].
  - apply command_rel. unfold logic_logout_wallet.
    apply m_pres_bind; [apply _|apply m_pres_ignore, stop_rel|intros _].
    apply m_pres_bind; [apply _|apply on_mgr_rel|intros ?; apply m_pres_ret; apply _].
  - apply command_rel. apply m_pres_bind; [apply _|apply on_mgr_rel|intros [wal st]].
    case_bool_decide; [apply m_pres_err; apply _|apply start_with_handlers_rel].
  - apply command_rel. apply m_pres_bind; [apply _|apply on_mgr_rel|intros _].
    apply m_pres_bind; [apply _|apply stop_rel|intros evs].
    apply m_pres_bind; [apply _| |intros _; apply m_pres_ret; apply _].
    apply m_pres_fold; [apply _|]. intros [] []; try (apply m_pres_ret; apply _).
    destruct free; [apply on_mgr_rel|apply m_pres_ret; apply _].
  - apply command_rel. intros s0. destruct (SyncService.get_progress _ _ _ _) as [p st] eqn:E.
    apply (sc_progress R HR now w). cbn [world_act]. unfold with_sync_state. cbv beta. by rewrite E.
  - apply set_tor_rel.
  - destruct (lifecycle c); [reflexivity|]. apply command_rel, on_mgr_rel.
  - apply sync_task_rel.
  - unfold balance_handler. destruct free; [apply on_mgr_rel|reflexivity].
Qed.

Lemma shell_run_rel acts s : app_rel s (shell_run acts s).
Proof using HR.
  revert s. induction acts as [|a acts IH]; intros s; [reflexivity|].
  etransitivity; [apply shell_act_rel|apply IH].
Qed.
End Closed.

(** The worlds grow. *)
Lemma world_le_closed : sync_closed world_le.
Proof using Type.
  split; [apply _|intros; apply stop_step_le| | |].
  - intros io w r x. etransitivity; [apply start_step_le|apply run_enabled_le].
  - intros now w x y. apply world_act_le.
  - intros a x y _ _. apply world_act_le.
Qed.

(** The tasks that the job table and a start in progress name were spawned. *)
Definition jobs_spawned (w : SyncWorld) : Prop :=
  (forall wid t, jobs_of w !! wid = Some t -> (t < wo_next w)%nat)
  /\ forall wid t st, wo_starting w = Some (wid, t, st) -> (t < wo_next w)%nat.

Lemma fewer_jobs_spawned w w' :
  fewer_jobs w w' -> (wo_next w <= wo_next w')%nat -> jobs_spawned w -> jobs_spawned w'.
Proof using Type.
  intros (Hs & Hj & _) Hn [H1 H2]. split.
  - intros wid t H. eapply lookup_weaken in H; [|exact Hj]. apply H1 in H. lia.
  - intros wid t st H. rewrite Hs in H. apply H2 in H. lia.
Qed.

Lemma start_step_spawned now wid h r w : jobs_spawned w -> jobs_spawned (start_step exp now wid h r w).
Proof using Type.
  intros [H1 H2]. unfold start_step, jobs_spawned, jobs_of in *.
  destruct (start_check_cases exp now wid h (wo_state w)) as [(E1 & E2 & _)|(evs & E1 & E2 & _)];
    destruct (start_check _ _ _ _ _) as [res s]; simpl in *; subst res.
  - subst s. by split.
  - rewrite <- E2 in H1. destruct r as [url|e]; simpl; [|by split]. split.
    + intros wid' t H%H1. lia.
    + intros wid' t st [= <- <- <-]. lia.
Qed.

Lemma world_act_spawned a w w' : world_act exp a w = Some w' -> jobs_spawned w -> jobs_spawned w'.
Proof using Type.
  intros E H. pose proof (wl_next _ _ (world_act_le exp a w w' E)) as Hn.
  destruct (task_act a) eqn:Ea; [eapply fewer_jobs_spawned; [by eapply task_act_fewer|done|done]|].
  destruct a as [now wid h r| | | |now wid h|now wid| | | | |]; try done; simpl in E.
  - destruct (wo_starting w); [done|]. injection E as <-. by apply start_step_spawned.
  - destruct H as [H1 H2]. destruct (wo_starting w) as [[[wid t] [| |]]|] eqn:Es; try done. injection E as <-.
    split; [done|]. intros ? ? ? [= <- <- <-]. by eapply H2.
  - destruct H as [H1 H2]. destruct (wo_starting w) as [[[wid t] [|f|]]|] eqn:Es; try done. injection E as <-.
    assert (forall wid' t', <[wid:=t]> (jobs_of w) !! wid' = Some t' -> (t' < wo_next w)%nat) as Hj.
    { intros wid' t'. rewrite lookup_insert_Some. intros [[<- <-]|[_ H]]; [by eapply H2|by eapply H1]. }
    destruct f; split; simpl; try done. intros ? ? ? [= <- <- <-]. by eapply H2.
  - destruct H as [H1 H2]. destruct (wo_starting w) as [[[wid t] [| |]]|] eqn:Es; try done. injection E as <-.
    split; [|done]. intros wid' t' H. unfold jobs_of in H. simpl in H.
    apply lookup_delete_Some in H as [_ H]. by eapply H1.
  - injection E as <-. destruct H as [H1 H2]. destruct (stop_step_jobs exp now wid h w) as [E1 E2]. split.
    + intros wid' t'. rewrite E1, lookup_delete_Some. intros [_ H%H1]. lia.
    + intros wid' t' st. rewrite E2. intros H%H2. lia.
  - injection E as <-. destruct H as [H1 H2]. split; [|done]. unfold jobs_of. simpl.
    by rewrite (proj1 (get_progress_frame exp now wid (wo_state w))).
Qed.

Lemma run_enabled_spawned acts w : jobs_spawned w -> jobs_spawned (Shell.run_enabled exp schedules acts w).
Proof using Type.
  revert w. induction acts as [|a acts IH]; intros w H; [done|]. apply IH.
  destruct (run_step_cases exp schedules w a) as [-> |[_ E]]; [done|]. by eapply world_act_spawned.
Qed.

(** The world between two acts of the shell: no start is under way, and the
    invariants hold. *)
Record settled (w : SyncWorld) : Prop := mkSettled {
  se_starting : wo_starting w = None;
  se_world : world_inv w;
  se_spawned : jobs_spawned w;
  se_excl : prompt_scheduler schedules -> excl_inv w;
}.

Lemma settled_closed : sync_closed (fun w w' => settled w -> settled w').
Proof using Type.
  assert (forall a x y, (task_act a = true /\ schedules a x = true \/ exists now w, a = ApiProgress now w) ->
            world_act exp a x = Some y -> settled x -> settled y) as Hact.
  { intros a x y Ha E [H1 H2 H3 H4]. split.
    - destruct Ha as [[Ha _]|(now & w & ->)]; [|by injection E as <-].
      destruct (task_act_fewer exp a _ _ Ha E) as (-> & _). done.
    - by eapply world_act_inv.
    - by eapply world_act_spawned.
    - intros Hp. eapply world_act_excl; eauto. destruct Ha as [[_ Ha]|(now & w & ->)]; [by apply Hp|done]. }
  split.
  - split; [intros w; auto|intros a b c; auto].
  - intros now w h x [H1 H2 H3 H4]. split.
    + by rewrite (proj2 (stop_step_jobs exp now w h x)).
    + by eapply (world_act_inv exp (ApiStop now w h)).
    + by eapply (world_act_spawned (ApiStop now w h)).
    + intros Hp. apply stop_excl; auto.
  - intros io w r x [H1 H2 H3 H4].
    pose proof (start_step_inv exp (si_now io) w true r _ H2) as W1.
    destruct (run_enabled_inv exp schedules (start_schedule io) _ W1) as [W2 X2]. split.
    + apply (start_world_spec exp schedules (si_now io) w r io x H1).
    + done.
    + by apply run_enabled_spawned, start_step_spawned.
    + intros Hp. apply X2; [done|]. by apply start_step_excl; auto.
  - intros now w x y E. apply (Hact (ApiProgress now w)); [right; eauto|done].
  - intros a x y H1 H2 E. apply (Hact a); [by left|done].
Qed.

Lemma settled0 : settled world0.
Proof using Type.
  destruct (world0_inv) as [Hi Hx]. split; [done|done| |done]. split; [|done].
  intros wid t H. unfold jobs_of in H. simpl in H. by rewrite lookup_empty in H.
Qed.

Lemma shell_run_settled acts s : as_sync s = world0 -> settled (as_sync (shell_run acts s)).
Proof using Type.
  intros H. apply (shell_run_rel _ settled_closed acts s). rewrite H. apply settled0.
Qed.

(** ** What follows a stop *)

(** No new job but those of tasks started in between. *)
Definition new_jobs (w w' : SyncWorld) : Prop :=
  wo_starting w = None -> wo_starting w' = None
    /\ forall wid t, jobs_of w' !! wid = Some t -> jobs_of w !! wid = Some t \/ (wo_next w <= t)%nat.

(** The worlds grow and Tor is left alone. *)
Definition sync_le (s s' : AppState) : Prop :=
  world_le (as_sync s) (as_sync s') /\ new_jobs (as_sync s) (as_sync s') /\ as_tor s' = as_tor s.
#[local] Instance sync_le_preorder : PreOrder sync_le.
Proof using Type.
  unfold sync_le, new_jobs. split; [by intros s; split_and!; auto|]. intros a b c (H1 & J1 & E1) (H2 & J2 & E2).
  split_and!; [by etransitivity| |congruence]. intros Hs. destruct (J1 Hs) as [Hs1 J1'].
  destruct (J2 Hs1) as [Hs2 J2']. split; [done|]. intros wid t Hj.
  destruct (J2' _ _ Hj) as [Hj'|Hlt]; [auto|right]. pose proof (wl_next _ _ H1). lia.
Qed.

Lemma on_mgr_le {A} (m : M WM A) : m_pres sync_le (on_mgr m).
Proof using Type. intros s. rewrite on_mgr_state. split_and!; [done|split; auto|done]. Qed.

Lemma start_sync_le io w n : m_pres sync_le (start_sync url_parse debug env_var exp schedules io w n).
Proof using Type.
  intros s. unfold start_sync. destruct (match _ with Ok _ => _ | Err _ => _ end) as [r m].
  split_and!; simpl; [|intros Hs|done].
  - etransitivity; [apply start_step_le|apply run_enabled_le].
  - destruct (start_world_spec exp schedules (si_now io) w r io (as_sync s) Hs) as (S & J & _). split; [done|].
    intros wid t Hj. destruct (J wid t Hj) as [|[_ ->]]; auto.
Qed.

Lemma start_with_handlers_le io wallet :
  m_pres sync_le (start_sync_with_handlers url_parse debug env_var exp schedules io wallet).
Proof using Type.
  unfold start_sync_with_handlers.
  repeat (apply m_pres_bind; [apply _| |intros ?]); try apply on_mgr_le; try (apply m_pres_lift; apply _);
    try (apply m_pres_get; apply _).
  { apply m_pres_try, start_sync_le. }
  case_match; [apply m_pres_bind; [apply _|apply on_mgr_le|intros ?; apply m_pres_ret; apply _]|].
  case_bool_decide; [apply m_pres_ret; apply _|apply m_pres_err; apply _].
Qed.

Lemma restart_syncs_le now now_ms io l :
  m_pres sync_le (restart_syncs wallets_root from_slice url_parse debug env_var exp schedules now now_ms io l).
Proof using Type.
  apply m_pres_fold; [apply _|]. intros _ w. apply m_pres_bind; [apply _|apply m_pres_try, on_mgr_le|intros r].
  destruct r as [[wal []]|e]; try (apply m_pres_ret; apply _). apply m_pres_ignore, start_with_handlers_le.
Qed.

Lemma stop_all_le now l w : world_le w (stop_all now l w).
Proof using Type.
  revert w. induction l as [|x l IH]; intros w; simpl; [done|]. etransitivity; [apply stop_step_le|apply IH].
Qed.

Lemma stop_all_settled now l w : settled w -> settled (stop_all now l w).
Proof using Type.
  revert w. induction l as [|x l IH]; intros w H; simpl; [done|]. by apply IH, (sc_stop _ settled_closed).
Qed.

Lemma stop_all_cancels now l w x t :
  jobs_of w !! x = Some t -> (t < wo_next w)%nat -> x ∈ l -> task_cancelled t (stop_all now l w).
Proof using Type.
  revert w. induction l as [|y l IH]; intros w Hj Hlt Hx; simpl; [by apply elem_of_nil in Hx|].
  pose proof (wl_next _ _ (stop_step_le exp now y false w)) as Hn. destruct (decide (x = y)) as [<-|Hne].
  - eapply cancelled_le; [apply stop_all_le|lia|by apply (stop_step_cancels exp now x)].
  - apply elem_of_cons in Hx as [|Hx]; [done|]. apply IH; [|lia|done].
    rewrite (proj1 (stop_step_jobs exp now y false w)). by rewrite lookup_delete_ne.
Qed.

(** After [zbag_set_tor_enabled] with a known schema version: the syncs that
    ran are stopped, Tor is switched, and then only the restarts happen. *)
Lemma set_tor_shape now now_ms clock io enabled s :
  sync_le (as_set_tor (tor_after enabled (as_tor s))
             (as_set_sync (stop_all now (if enabled then running_wallet_ids (wo_state (as_sync s)) else [])
                             (as_sync s)) s))
    (zbag_set_tor_enabled wallets_root from_slice url_parse debug env_var exp schedules SCHEMA_VERSION now now_ms
       clock io enabled s).2.
Proof using Type.
  unfold zbag_set_tor_enabled, command. simpl.
  rewrite m_get_bind, m_bind_eq, stop_all_run. cbv beta iota. rewrite m_get_bind, m_bind_eq. cbn [m_lift].
  rewrite m_modify_bind, m_get_bind.
  match goal with |- sync_le ?a (?m ?b).2 => change b with a end.
  set (s1 := as_set_tor _ _). set (l := if enabled then _ else _).
  match goal with |- sync_le s1 (?m s1).2 => assert (m_pres sync_le m) as H; [|exact (H s1)] end.
  apply m_pres_bind; [apply _|apply m_pres_lift; apply _|intros ms].
  apply m_pres_bind; [apply _|apply on_mgr_le|intros _].
  apply m_pres_bind; [apply _| |intros _; apply m_pres_ret; apply _].
  destruct (_ && _); [apply restart_syncs_le|apply m_pres_ret; apply _].
Qed.

Lemma set_enabled_on w : tor_enabled (tm_state (tw_mgr (tor_after true w))) = true.
Proof using Type.
  assert (tor_enabled (tm_state (tw_mgr (set_enabled_locked true w))) = true) as H.
  { unfold set_enabled_locked. cbv zeta. cbn [negb]. by destruct (_ && _). }
  unfold tor_after. cbv zeta. generalize (tw_next w). revert H. generalize (set_enabled_locked true w). clear w.
  intros w H i. destruct (_ =? _)%nat; [done|]. unfold spawn_bootstrap.
  by destruct (b_pc <$> tw_boots w !! i) as [[]|].
Qed.

Lemma confined_fresh s :
  wm_active (as_mgr s) = None -> as_sync s = world0 -> confined s.
Proof using Type.
  intros Ha Hw. destruct world0_inv as [Hi Hx]. apply mkConfined; rewrite ?Hw; try done.
  unfold session_ok. by rewrite Ha.
Qed.

Lemma shell_run_confined acts s : confined s -> orderly_run acts s = true -> confined (shell_run acts s).
Proof using All.
  revert s. induction acts as [|a acts IH]; intros s Hc Ho; [done|]. cbn [orderly_run] in Ho. breflect.
  apply IH; [|done]. by apply shell_act_confined.
Qed.

(** C28. Only the wallet that is open is synced.  Over every history of
    commands, task steps and handlers that begins with no wallet, in which a
    wallet is created, unlocked or synced by [zbag_start_sync] only while no
    other wallet is being synced, every registered sync belongs to the active
    wallet, whose key is in memory; when the runtime polls no task after its
    abort, the same holds of every live sync task.  Loading, locking and
    logging out need no such care: they stop the sync themselves. *)
Theorem sync_confined_to_open_wallet (acts : list ShellAct) (s : AppState) :
  wm_active (as_mgr s) = None -> as_sync s = world0 -> orderly_run acts s = true ->
  let s' := shell_run acts s in
  (forall w t, jobs_of (as_sync s') !! w = Some t -> exists dek, session_of (as_mgr s') = UnlockedWallet w dek)
  /\ (prompt_scheduler schedules -> forall w t, live_task t w (as_sync s') ->
        exists dek, session_of (as_mgr s') = UnlockedWallet w dek).
Proof using All.
  intros Ha Hw Ho. pose proof (shell_run_confined acts s (confined_fresh s Ha Hw) Ho) as Hc. cbv zeta.
  split; [apply (cf_jobs _ Hc)|]. intros Hp w t Hl.
  destruct (xi_registered _ (cf_excl _ Hc Hp) t w Hl) as [Hj|[st Hst]]; [by apply (cf_jobs _ Hc w t)|].
  by rewrite (cf_starting _ Hc) in Hst.
Qed.

(** The session after [zbag_lock_wallet]. *)
Lemma lock_wallet_session w s dek : session_of (lock_wallet w s).2 <> UnlockedWallet w dek.
Proof using Type.
  unfold lock_wallet. rewrite m_get_bind. unfold session_of.
  destruct (wm_active s) as [a|] eqn:Ea; [|simpl; by rewrite Ea]. case_bool_decide as Hw; simpl.
  - unfold set_active. rewrite m_modify_bind, m_bind_eq.
    pose proof (maybe_emit_wallet_status_keeps w (wm_set_active (Some (mkActiveWallet (aw_wallet a)
      (aw_wallet_dir a) WalletLockStatus.Locked None None)) s)) as [Hk _].
    destruct (maybe_emit_wallet_status _ _) as [[u|e] s1]; simpl in *; by rewrite Hk.
  - rewrite Ea. unfold session_of_active. destruct (aw_lock_status a), (aw_dek a); congruence.
Qed.

Lemma stop_for_wallet_ok now w s : (stop_sync_for_wallet exp now w s).1 = Ok tt.
Proof using Type.
  unfold stop_sync_for_wallet, observe_sync_stop_requested. rewrite m_bind_eq. simpl. rewrite m_bind_eq. simpl.
  unfold on_mgr, m_zoom, observe_sync_progress. rewrite m_modify_bind. simpl.
  match goal with |- context [maybe_emit_wallet_status w ?x] =>
    pose proof (maybe_emit_ok w x); destruct (maybe_emit_wallet_status w x) end. done.
Qed.

Lemma lock_shape now w s :
  let s' := (zbag_lock_wallet exp SCHEMA_VERSION now w s).2 in
  as_sync s' = stop_step exp now w false (as_sync s)
  /\ forall dek, session_of (as_mgr s') <> UnlockedWallet w dek.
Proof using Type.
  cbv zeta. unfold zbag_lock_wallet, command, logic_lock_wallet. simpl. rewrite m_bind_eq.
  rewrite <- (stop_for_wallet_sync now w s). pose proof (stop_for_wallet_ok now w s) as Hok.
  destruct (stop_sync_for_wallet _ _ _ _) as [r s1]. simpl in *. subst r. rewrite m_bind_eq.
  pose proof (lock_wallet_session w (as_mgr s1)) as Hl. unfold on_mgr, m_zoom.
  by destruct (lock_wallet w (as_mgr s1)) as [[st|e] m].
Qed.

Lemma logout_shape now w s :
  let out := zbag_logout_wallet exp SCHEMA_VERSION now w s in
  as_sync out.2 = stop_step exp now w false (as_sync s)
  /\ forall b, out.1 = IpcOk b -> session_of (as_mgr out.2) = NoWallet.
Proof using Type.
  cbv zeta. unfold zbag_logout_wallet, command, logic_logout_wallet. simpl. rewrite m_bind_eq. simpl.
  rewrite m_bind_eq. unfold on_mgr, m_zoom, logout_wallet. rewrite m_get_bind. simpl.
  destruct (wm_active _) as [a|]; [|done]. by case_bool_decide.
Qed.

(** C29. Locking ends the sync.  After any history of commands that begins
    without syncs, a wallet that is locked by [zbag_lock_wallet] has no
    registered sync and the manager does not hold its key; after
    [zbag_logout_wallet] it has no registered sync either, and if the call
    answered with success no wallet is active.  When, besides, the runtime
    polls no task after its abort, no task of the wallet is live. *)
Theorem locking_ends_sync (acts : list ShellAct) (s0 : AppState) (now : Z) (w : Uuid) :
  as_sync s0 = world0 ->
  let s := shell_run acts s0 in
  let locked := (zbag_lock_wallet exp SCHEMA_VERSION now w s).2 in
  let left := zbag_logout_wallet exp SCHEMA_VERSION now w s in
  (forall s', s' = locked \/ s' = left.2 ->
     jobs_of (as_sync s') !! w = None
     /\ (prompt_scheduler schedules -> forall t, ~ live_task t w (as_sync s')))
  /\ (forall dek, session_of (as_mgr locked) <> UnlockedWallet w dek)
  /\ (forall b, left.1 = IpcOk b -> session_of (as_mgr left.2) = NoWallet).
Proof using Type.
  intros H0. cbv zeta. destruct (shell_run_settled acts s0 H0) as [Hs Hi _ Hx]. revert Hs Hi Hx.
  generalize (shell_run acts s0). clear acts s0 H0. intros s Hs Hi Hx.
  destruct (lock_shape now w s) as [E1 Hk]. destruct (logout_shape now w s) as [E2 Hn].
  split; [|done]. intros s' Hs'.
  assert (as_sync s' = stop_step exp now w false (as_sync s)) as -> by (destruct Hs' as [-> | ->]; done).
  split; [by rewrite (proj1 (stop_step_jobs exp now w false _)), lookup_delete_eq|].
  intros Hp t. by apply stopped_not_live; auto.
Qed.

(** ** The application and its download tasks *)

Record SyncedApp := mkSyncedApp { sa_app : AppState; sa_downloads : list Download }.

Inductive AppAct := AppShell (a : ShellAct) | AppDownload (a : DownloadAct).

Definition app_act (a : AppAct) (s : SyncedApp) : SyncedApp :=
  match a with
  | AppShell a => mkSyncedApp (shell_act a (sa_app s)) (sa_downloads s)
  | AppDownload a =>
      mkSyncedApp (sa_app s) (default (sa_downloads s) (download_act (as_sync (sa_app s)) a (sa_downloads s)))
  end.

Definition app_run (acts : list AppAct) (s : SyncedApp) : SyncedApp := foldl (fun s a => app_act a s) s acts.

(** The downloads do not touch the shell. *)
Lemma app_run_shell acts s : exists l, sa_app (app_run acts s) = shell_run l (sa_app s).
Proof using Type.
  revert s. induction acts as [|[a|a] acts IH]; intros s; [by exists []| |].
  - destruct (IH (app_act (AppShell a) s)) as [l Hl]. by exists (a :: l).
  - destruct (IH (app_act (AppDownload a) s)) as [l Hl]. by exists l.
Qed.

(** A task that is cancelled stays so, and its downloads ask for no batch. *)
Lemma app_run_cancelled acts s t :
  (t < wo_next (as_sync (sa_app s)))%nat -> task_cancelled t (as_sync (sa_app s)) ->
  no_new_batch t (sa_downloads s) (sa_downloads (app_run acts s)).
Proof using Type.
  revert s. induction acts as [|a acts IH]; intros s Hlt Hc; [reflexivity|].
  change (app_run (a :: acts) s) with (app_run acts (app_act a s)). etransitivity; [|apply IH].
  - destruct a as [a|a]; [reflexivity|]. simpl.
    destruct (download_act _ a _) as [ds|] eqn:E; [by eapply download_act_cancelled|reflexivity].
  - destruct a as [a|a]; [|done]. pose proof (wl_next _ _ (shell_act_rel _ world_le_closed a (sa_app s))). simpl. lia.
  - destruct a as [a|a]; [|done]. by eapply cancelled_le; [apply (shell_act_rel _ world_le_closed)| |].
Qed.

(** C30. Switching Tor on leaves no sync on a direct channel.  After any
    history of the shell and of the download tasks that begins without syncs,
    and whatever [zbag_set_tor_enabled] answers, Tor is enabled and every sync
    that is registered was started after the call began; when the runtime
    polls no task after its abort, so was every sync that is live.  The
    download tasks of the syncs that were registered outlive the abort, but in
    every later history none of them asks the server for another batch: only
    a batch that was already in flight is still fetched on the old channel. *)
Theorem tor_switch_stops_direct_syncs (acts : list AppAct) (s0 : SyncedApp) (now now_ms : Z)
    (clock : string + Z) (io : StartIo) :
  as_sync (sa_app s0) = world0 ->
  let s := app_run acts s0 in
  let s' := mkSyncedApp
              (zbag_set_tor_enabled wallets_root from_slice url_parse debug env_var exp schedules SCHEMA_VERSION
                 now now_ms clock io true (sa_app s)).2 (sa_downloads s) in
  let sync := as_sync (sa_app s) in let sync' := as_sync (sa_app s') in
  tor_enabled (tm_state (tw_mgr (as_tor (sa_app s')))) = true
  /\ (forall w t, jobs_of sync' !! w = Some t -> (wo_next sync <= t)%nat)
  /\ (prompt_scheduler schedules -> forall w t, live_task t w sync' -> (wo_next sync <= t)%nat)
  /\ (forall w t later i d, jobs_of sync !! w = Some t ->
         sa_downloads (app_run later s') !! i = Some d -> do_task d = t ->
         do_requested d = from_option do_requested 0%nat (sa_downloads s !! i)).
Proof using Type.
  intros H0. cbv zeta. set (s := app_run acts s0).
  assert (settled (as_sync (sa_app s))) as Hset.
  { unfold s. destruct (app_run_shell acts s0) as [l ->]. by apply shell_run_settled. }
  clearbody s. cbn [sa_app].
  destruct (set_tor_shape now now_ms clock io true (sa_app s)) as (Hle & Hnew & Et).
  revert Hle Hnew Et. generalize (zbag_set_tor_enabled wallets_root from_slice url_parse debug env_var exp
    schedules SCHEMA_VERSION now now_ms clock io true (sa_app s)).2. intros s' Hle Hnew Et.
  cbn [as_sync as_tor as_set_sync as_set_tor] in Hle, Hnew, Et. split; [rewrite Et; apply set_enabled_on|].
  set (w0 := as_sync (sa_app s)) in *. set (l := running_wallet_ids _) in *.
  pose proof (stop_running_jobs now w0) as Hj. fold l in Hj.
  destruct (stop_all_settled now l w0 Hset) as [Hs1 _ _ Hx1].
  pose proof (wl_next _ _ (stop_all_le now l w0)) as Hn.
  destruct (Hnew Hs1) as [_ Hjobs]. rewrite Hj in Hjobs. split_and!.
  - intros w t H. destruct (Hjobs w t H); [done|lia].
  - intros Hp w t Hl. destruct (decide (wo_next w0 <= t)%nat) as [|Hlt]; [done|exfalso].
    apply (live_before (stop_all now l w0) _ t w Hle) in Hl; [|lia].
    destruct (xi_registered _ (Hx1 Hp) t w Hl) as [H|[st H]]; [|congruence].
    change (jobs_of (stop_all now l w0) !! w = Some t) in H. by rewrite Hj in H.
  - intros w t later i d Hw Hd <-. pose proof (proj1 (se_spawned _ Hset) w _ Hw) as Hlt.
    assert (task_cancelled (do_task d) (as_sync s')) as Hc.
    { eapply cancelled_le; [exact Hle|lia|]. eapply (stop_all_cancels now l w0 w); [done|done|].
      apply elem_of_running. by exists (do_task d). }
    pose proof (wl_next _ _ Hle).
    apply (proj2 (app_run_cancelled later (mkSyncedApp s' (sa_downloads s)) (do_task d) ltac:(simpl; lia) Hc) i d);
      done.
Qed.

(** ** The accounts of a loaded wallet *)

Lemma meta_by_id_spec (l : list AccountInfo) (m : gmap Z AccountInfo) :
  (forall i a, m !! i = Some a -> ai_id a = i) ->
  forall i a, foldl (fun m a => <[ai_id a := a]> m) m l !! i = Some a ->
    ai_id a = i /\ (m !! i = Some a \/ a ∈ l).
Proof using Type.
  revert m. induction l as [|x l IH]; intros m Hm i a; simpl; [by intros H; split; [apply Hm|left]|].
  intros H. destruct (IH (<[ai_id x := x]> m)) with (i := i) (a := a) as [Hi Ha]; [|done|].
  - intros j b. rewrite lookup_insert_Some. intros [[<- <-]|[_ Hb]]; [done|by apply Hm].
  - split; [done|]. rewrite lookup_insert_Some in Ha. destruct Ha as [[[_ <-]|[_ ?]]|?];
      [right; constructor|by left|right; by constructor].
Qed.

(** Every account of the wallet database is listed once and in order, under
    its metadata when there are any and under its default name otherwise. *)
Theorem loaded_accounts_complete (w : Uuid) (s s' : AppState) (accounts : list AccountInfo) :
  load_accounts_for_wallet w s = (Ok accounts, s') ->
  exists ids s1 metas s2,
    list_wallet_db_account_ids w (as_mgr s) = (Ok ids, s1)
    /\ on_app_db (list_accounts w) s1 = (Ok metas, s2)
    /\ map ai_id accounts = ids
    /\ (forall a, a ∈ accounts -> a ∈ metas \/ a = default_account (ai_id a)).
Proof using Type.
  unfold load_accounts_for_wallet. rewrite m_bind_eq. unfold on_mgr at 1, m_zoom.
  destruct (list_wallet_db_account_ids w (as_mgr s)) as [[ids|e] s1] eqn:E1; [|done].
  rewrite m_bind_eq. unfold m_context, on_mgr, m_zoom. simpl.
  destruct (on_app_db (list_accounts w) s1) as [[metas|e] s2] eqn:E2; [|done]. simpl. intros [= <- <-].
  exists ids, s1, metas, s2. split_and!; [done|done| |].
  - rewrite map_map. rewrite <- (map_id ids) at 2. apply map_ext. intros i.
    destruct (foldl _ ∅ metas !! i) as [a|] eqn:E; simpl; [|done].
    by apply meta_by_id_spec in E as [Hi _].
  - intros a. rewrite list_elem_of_fmap. intros (i & -> & _).
    destruct (foldl _ ∅ metas !! i) as [a|] eqn:E; simpl; [|by right].
    apply meta_by_id_spec in E as [_ [E|E]]; [done|by left|done].
Qed.
End ShellSafety.

(** ** Two wallets *)

Definition demo_app : AppState :=
  let q := mkQueueState ∅ [] ∅ in
  let db := mkAppDb [] [] [] [mkServerRow "s1" "Main" "https://example.com" "Mainnet" true None 1000] [] [] []
              None None [] in
  mkAppState (mkWM (mkTxEnv ∅ ∅ (mkRetryEnv q db [] [])) None ∅ (new_service q) ∅ ∅ ∅ ∅ ∅ true false)
    world0 (init_world (mkTorState false TorStatus.Off None)).

Definition other_draws : Draws :=
  mkDraws 1000 1 "w2" "entropy" demo_dek "saltsaltsalt" demo_nonce demo_nonce demo_challenge.

Definition demo_shell_run (acts : list ShellAct) (s : AppState) : AppState :=
  shell_run (KS := demo_key_store) "/wallets" (fun _ => None) demo_parse false None (fun _ => "") (fun x => x)
    (fun _ _ _ => None) (fun s => s) (fun _ => 0%Q) demo_exp prompt acts s.

Definition quiet_start : StartIo := mkStartIo 5 [] [] [].

(** Two wallets are made, the first is opened and synced. *)
Definition two_wallets : list ShellAct :=
  [ShCreate 1 (fun _ => None) demo_draws "Main" Network.Mainnet "pw";
   ShCreate 1 (fun _ => None) other_draws "Other" Network.Mainnet "pw2";
   ShLoad 1 2 2 quiet_start "w1"; ShUnlock 1 3 "w1" "pw"; ShStart 1 4 4 quiet_start "w1"].

Definition syncing : AppState := demo_shell_run two_wallets demo_app.

Definition syncs_of (s : AppState) : list (string * nat) := map_to_list (jobs_of (as_sync s)).

Lemma sync_confined_to_open_wallet_witness :
  let s := demo_shell_run (two_wallets ++ [ShLoad 1 6 6 quiet_start "w2"]) demo_app in
  syncs_of syncing = [("w1", 0%nat)] /\ syncs_of s = []
  /\ forall w t, jobs_of (as_sync s) !! w = Some t -> exists dek, session_of (as_mgr s) = UnlockedWallet w dek.
Proof.
  split_and!; [by vm_compute|by vm_compute|].
  apply (sync_confined_to_open_wallet (KS := demo_key_store) "/wallets" (fun _ => None) demo_parse false None
    (fun _ => "") (fun x => x) (fun _ _ _ => None) (fun s => s) (fun _ => 0%Q) demo_exp prompt
    (two_wallets ++ [ShLoad 1 6 6 quiet_start "w2"]) demo_app eq_refl eq_refl).
  vm_compute. reflexivity.
Defined.

Lemma locking_ends_sync_witness :
  let s := (zbag_lock_wallet demo_exp SCHEMA_VERSION 6 "w1" syncing).2 in
  syncs_of s = [] /\ session_of (as_mgr s) = LockedWallet "w1" /\ ~ live_task 0 "w1" (as_sync s).
Proof.
  split_and!; [by vm_compute|by vm_compute|].
  destruct (locking_ends_sync (KS := demo_key_store) "/wallets" (fun _ => None) demo_parse false None (fun _ => "")
    (fun x => x) (fun _ _ _ => None) (fun s => s) (fun _ => 0%Q) demo_exp prompt two_wallets demo_app 6 "w1" eq_refl)
    as [H _].
  exact (proj2 (H _ (or_introl eq_refl)) (fun _ _ H => H) 0%nat).
Defined.

(** A download of the sync is in the middle of a batch when Tor is switched
    on: it finishes the batch and stops at the head of its loop. *)
Definition demo_synced_run (acts : list AppAct) (s : SyncedApp) : SyncedApp :=
  app_run (KS := demo_key_store) "/wallets" (fun _ => None) demo_parse false None (fun _ => "") (fun x => x)
    (fun _ _ _ => None) (fun s => s) (fun _ => 0%Q) demo_exp prompt acts s.

Definition downloading : list AppAct :=
  map AppShell two_wallets ++ [AppDownload (DaSpawn 0); AppDownload (DaHead 0 true)].
Definition download_later : list AppAct :=
  [AppDownload (DaFetched 0 true); AppDownload (DaSent 0 true); AppDownload (DaHead 0 true)].

Lemma tor_switch_stops_direct_syncs_witness :
  let s := demo_synced_run downloading (mkSyncedApp demo_app []) in
  let s' := mkSyncedApp
              (zbag_set_tor_enabled "/wallets" (fun _ => None) demo_parse false None demo_exp prompt SCHEMA_VERSION
                 6 6 (inr 9) quiet_start true (sa_app s)).2 (sa_downloads s) in
  let later := sa_downloads (demo_synced_run download_later s') in
  syncs_of (sa_app s) = [("w1", 0%nat)] /\ sa_downloads s = [mkDownload 0 DpFetching 1]
  /\ syncs_of (sa_app s') = [("w1", 1%nat)] /\ ~ live_task 0 "w1" (as_sync (sa_app s'))
  /\ later = [mkDownload 0 (DpSending true) 1] /\ from_option do_requested 0%nat (later !! 0%nat) = 1%nat.
Proof.
  cbv zeta. pose proof (tor_switch_stops_direct_syncs (KS := demo_key_store) "/wallets" (fun _ => None) demo_parse false None
    (fun _ => "") (fun x => x) (fun _ _ _ => None) (fun s => s) (fun _ => 0%Q) demo_exp prompt downloading
    (mkSyncedApp demo_app []) 6 6 (inr 9) quiet_start eq_refl) as (_ & _ & H1 & H2).
  split_and!; [by vm_compute|by vm_compute|by vm_compute| |by vm_compute|].
  - intros Hl. specialize (H1 (fun _ _ H => H) "w1" 0%nat Hl). vm_compute in H1. lia.
  - refine (eq_trans _ (H2 "w1" 0%nat download_later 0%nat (mkDownload 0 (DpSending true) 1) _ _ _));
      by vm_compute.
Defined.

(** [zbag_start_sync] on another wallet makes that wallet active without
    stopping the sync of the previous one, which goes on although no wallet
    is open; so do [zbag_unlock_wallet] and the creations. *)
Example start_sync_leaves_previous_running :
  let s := demo_shell_run [ShStart 1 6 6 quiet_start "w2"] syncing in
  session_of (as_mgr s) = LockedWallet "w2" /\ syncs_of s = [("w1", 0%nat)].
Proof. by vm_compute. Qed.

(** Switching Tor on while a blocking scan is in flight stops the sync and
    does not restart it: the start is refused until the scan ends. *)
Example tor_restart_refused_during_scan :
  let s := demo_shell_run [ShTask true (TaskScan 0); ShTor 1 6 6 (inr 9) quiet_start true] syncing in
  session_of (as_mgr s) = UnlockedWallet "w1" demo_dek /\ syncs_of s = []
  /\ tor_enabled (tm_state (tw_mgr (as_tor s))) = true.
Proof. by vm_compute. Qed.
