(* ===== verification/WebShell.v ===== *)
(** The web view and the test bridge of the desktop application
    ([src-tauri/src/lib.rs], [test_bridge/mod.rs], [test_bridge/helpers.rs]):
    the switches and preferences that keep the browser engine offline, the
    caches that are purged at start-up, and the guard of the bridge's
    sensitive commands.

    A preferences file is a JSON document ([Value] of [OneClick]); serde's
    parser and printer are parameters.  The fields of an object are in the
    order they were inserted, which no read of the policy depends on. *)
From Stdlib Require Import Ascii String.
From S2P Require Import Prelude Text Domain OneClick.
Open Scope Z_scope.
#[local] Open Scope list_scope.

(** ** Switches of the browser engine *)

Definition CEF_DISABLED_FEATURES : string :=
  "AutofillActorMode," +:+ "AutofillServerCommunication," +:+ "AsyncDns," +:+ "DnsOverHttpsUpgrade,"
  +:+ "EnableMediaRouter," +:+ "GlicActorUi," +:+ "LensOverlay," +:+ "LiveTranslate," +:+ "MediaRouter,"
  +:+ "OptimizationGuideModelExecution," +:+ "OptimizationGuideOnDeviceModel," +:+ "OptimizationHints,"
  +:+ "PrivacySandboxSettings4," +:+ "Translate," +:+ "UseDnsHttpsSvcb".

Definition CEF_HOST_RESOLVER_RULES : string :=
  "MAP * 0.0.0.0," +:+ "EXCLUDE localhost," +:+ "EXCLUDE 127.0.0.1," +:+ "EXCLUDE ::1,"
  +:+ "EXCLUDE *.localhost," +:+ "EXCLUDE ipc.localhost," +:+ "EXCLUDE tauri.localhost".

Definition cef_switch (name : string) : string * option string := ("--" +:+ name, None).
Definition cef_switch_value (name value : string) : string * option string := ("--" +:+ name, Some value).

(** [keychain]: the value of [ZBAG_USE_SYSTEM_KEYCHAIN]. *)
Definition cef_runtime_args (macos : bool) (keychain : option string) : list (string * option string) :=
  (if macos && negb (bool_decide (keychain = Some "1")) then [cef_switch "use-mock-keychain"] else [])
  ++ map cef_switch
       ["disable-background-networking"; "disable-breakpad";
        "disable-component-extensions-with-background-pages"; "disable-component-update";
        "disable-default-apps"; "disable-domain-reliability"; "disable-extensions";
        "disable-field-trial-config"; "disable-notifications"; "disable-print-preview";
        "disable-save-password-bubble"; "disable-speech-api"; "disable-sync";
        "disable-sync-invalidation-optimizations"; "incognito"; "metrics-recording-only";
        "no-default-browser-check"; "no-first-run"; "no-pings"]
  ++ [cef_switch_value "disable-features" CEF_DISABLED_FEATURES;
      cef_switch_value "dns-over-https-mode" "off";
      cef_switch_value "dns-over-https-templates" "";
      cef_switch_value "host-resolver-rules" CEF_HOST_RESOLVER_RULES;
      cef_switch_value "webrtc-ip-handling-policy" "disable_non_proxied_udp"].

(** ** Preferences *)

Section Policy.
Context {Num : Type} (num : Z -> Num).

#[local] Abbreviation Value := (@OneClick.Value Num).
Definition Fields : Type := list (string * Value).

(** [Map::insert], [Map::remove] and [Map::get]. *)
Fixpoint map_insert (key : string) (v : Value) (o : Fields) : Fields :=
  match o with
  | [] => [(key, v)]
  | (k, v') :: o' => if bool_decide (k = key) then (k, v) :: o' else (k, v') :: map_insert key v o'
  end.
Definition map_remove (key : string) (o : Fields) : Fields :=
  List.filter (fun kv => negb (bool_decide (kv.1 = key))) o.
Fixpoint map_get (key : string) (o : Fields) : option Value :=
  match o with
  | [] => None
  | (k, v) :: o' => if bool_decide (k = key) then Some v else map_get key o'
  end.

Definition as_object (v : option Value) : Fields :=
  match v with Some (Object o) => o | _ => [] end.

(** [object_entry(object, key)] followed by the writes [f] to it: what is not
    an object is replaced by an empty one. *)
Definition object_entry (key : string) (f : Fields -> Fields) (o : Fields) : Fields :=
  map_insert key (Object (f (as_object (map_get key o)))) o.

Definition off (key : string) : Fields -> Fields := map_insert key (Boolean false).

Definition stale_keys : list string :=
  ["account_tracker_service_last_update"; "commerce_daily_metrics_last_update_time"; "domain_diversity";
   "enterprise_profile_guid"; "gaia_cookie"; "gcm"; "google"; "invalidation"; "media_router";
   "optimization_guide"; "segmentation_platform"; "webauthn"].

(** A statement of [enforce_cef_browser_policy]. *)
Inductive Write :=
| Remove (key : string)
| Insert (key : string) (v : Value)
| Entry (key : string) (f : Fields -> Fields).

Definition apply_write (o : Fields) (w : Write) : Fields :=
  match w with
  | Remove key => map_remove key o
  | Insert key v => map_insert key v o
  | Entry key f => object_entry key f o
  end.

(** They are, in its order: *)
Definition policy_writes : list Write :=
  map Remove stale_keys
  ++ [Insert "credentials_enable_service" (Boolean false);
      Insert "enable_do_not_track" (Boolean true);
      Insert "default_apps_install_state" (Number (num 3));
      Entry "alternate_error_pages" (off "enabled");
      Entry "autofill" (fun o => off "credit_card_enabled" (off "profile_enabled" (off "enabled" o)));
      Entry "browser" (off "enable_spellchecking");
      Entry "dns_over_https" (fun o =>
        off "automatic_mode_fallback_to_doh" (map_insert "templates" (Str "") (map_insert "mode" (Str "off") o)));
      Entry "net" (map_insert "network_prediction_options" (Number (num 2)));
      Entry "privacy_sandbox" (fun o =>
        object_entry "m1" (fun m => off "ad_measurement_enabled" (off "fledge_enabled" (off "topics_enabled" m)))
          (off "first_party_sets_enabled" o));
      Entry "profile" (fun o =>
        map_insert "network_prediction_options" (Number (num 2))
          (off "password_manager_leak_detection" (off "password_manager_enabled" o)));
      Entry "safebrowsing" (fun o =>
        off "surveys_enabled" (off "deep_scanning_enabled" (off "scout_reporting_enabled_when_deprecated"
          (off "scout_reporting_enabled" (off "enhanced" (off "enabled" o))))));
      Entry "search" (off "suggest_enabled");
      Entry "signin" (off "allowed");
      Entry "spellcheck" (fun o =>
        off "use_spelling_service" (map_insert "dictionaries" (Array []) o));
      Entry "sync" (off "requested");
      Entry "translate" (off "enabled");
      Entry "webrtc" (fun o =>
        off "nonproxied_udp_enabled" (off "multiple_routes_enabled"
          (map_insert "ip_handling_policy" (Str "disable_non_proxied_udp") o)))].

Definition enforce (o : Fields) : Fields := foldl apply_write o policy_writes.

(** [enforce_cef_browser_policy]: the preferences file afterwards.  [dir_ok]:
    the directory exists; [file]: what is read, none on an error; [write_ok]:
    the file can be written. *)
Definition enforce_cef_browser_policy (from_str : string -> option Value) (to_string : Value -> option string)
    (dir_ok write_ok : bool) (file : option string) : option string :=
  if negb dir_ok then file else
  match to_string (Object (enforce (as_object (file ≫= from_str)))) with
  | Some serialized => if write_ok then Some serialized else file
  | None => file
  end.
End Policy.

(** ** Caches *)

(** Paths are their components. *)
Inductive TargetOs := MacOs | Windows | OtherOs.

Record CefEnv := mkCefEnv {
  env_home : option string; env_local_app_data : option string; env_xdg_cache_home : option string;
}.

Definition default_cef_cache_path (os : TargetOs) (env : CefEnv) (bundle_identifier : string)
    : option (list string) :=
  match os with
  | MacOs => home ← env_home env; Some [home; "Library"; "Caches"; bundle_identifier; "cef"]
  | Windows => dir ← env_local_app_data env; Some [dir; bundle_identifier; "cef"]
  | OtherOs =>
      base ← (match env_xdg_cache_home env with
              | Some dir => Some [dir]
              | None => home ← env_home env; Some [home; ".cache"]
              end);
      Some (base ++ [bundle_identifier; "cef"])
  end.

(** [stamp]: nanoseconds since the epoch, 0 before it. *)
Definition cef_cache_name (bundle_identifier : string) (pid stamp : Z) : string :=
  bundle_identifier +:+ "-" +:+ uint_to_string pid +:+ "-" +:+ uint_to_string stamp.

Definition cef_runtime_cache_path (temp_dir bundle_identifier : string) (pid stamp : Z) : list string :=
  [temp_dir; "zbag-cef"; cef_cache_name bundle_identifier pid stamp].

(** The directory that is removed, if any. *)
Definition purge_legacy_cef_cache (os : TargetOs) (env : CefEnv) (exists_ : list string -> bool)
    (bundle_identifier : string) (runtime_cache_path : list string) : option (list string) :=
  path ← default_cef_cache_path os env bundle_identifier;
  if bool_decide (path = runtime_cache_path) || negb (exists_ path) then None else Some path.

(** An entry of [zbag-cef]: its path, its name when it is text, and its
    modification time when it can be read. *)
Record CacheEntry := mkCacheEntry {
  ce_path : list string; ce_name : option string; ce_modified : option Z;
}.

Definition min_age : Z := 60 * 1000000000.

Definition stale_entry (bundle_identifier : string) (runtime_cache_path : list string) (now : Z)
    (is_process_alive : Z -> bool) (e : CacheEntry) : bool :=
  if bool_decide (ce_path e = runtime_cache_path) then false else
  match ce_name e with
  | None => false
  | Some name =>
      match strip_prefix name (bundle_identifier +:+ "-") with
      | None => false
      | Some remainder =>
          let pid_alive :=
            default false (is_process_alive <$> (split_once "-"%char remainder ≫= fun p => parse_uint u32_max p.1)) in
          if pid_alive then false else
          match ce_modified e with
          | None => false
          | Some modified => if now <? modified then false else negb (now - modified <? min_age)
          end
      end
  end.

(** The directories that are removed; a removal that fails is only logged. *)
Definition purge_stale_temp_cef_caches (bundle_identifier : string) (runtime_cache_path : list string) (now : Z)
    (is_process_alive : Z -> bool) (entries : list CacheEntry) : list (list string) :=
  map ce_path (List.filter (stale_entry bundle_identifier runtime_cache_path now is_process_alive) entries).

(** ** The test bridge *)

Definition DEFAULT_ALLOWED_ORIGINS : list string := ["http://localhost:1420"; "http://127.0.0.1:1420"].
Definition SENSITIVE_CONFIRM_VALUE : string := "true".
Definition SENSITIVE_MIN_INTERVAL : Z := 2 * 1000000000.
Definition SENSITIVE_COMMANDS : list string :=
  ["zbag_view_seed_phrase"; "zbag_restore_wallet"; "zbag_confirm_send"].
Definition RATE_LIMITED_SENSITIVE_COMMANDS : list string := ["zbag_view_seed_phrase"].

Definition parse_allowed_origins (header_ok : string -> bool) (raw : option string) : list string :=
  let parsed :=
    match raw with
    | None => []
    | Some raw =>
        List.filter header_ok
          (List.filter (fun o => negb (is_empty o)) (map trim (split ","%char raw)))
    end in
  match parsed with [] => DEFAULT_ALLOWED_ORIGINS | _ => parsed end.

Inductive Refusal := Forbidden | TooManyRequests.

(** [header]: the confirmation header when it is text; the state is the
    instant of the last call that was let through. *)
Definition confirm_sensitive_access (header : option string) (rate_limit : bool) (now : Z)
    (last_call : option Z) : option Refusal * option Z :=
  if negb (default false ((fun v => eq_ignore_ascii_case v SENSITIVE_CONFIRM_VALUE) <$> header))
  then (Some Forbidden, last_call)
  else if rate_limit then
    match last_call with
    | Some previous =>
        if Z.max 0 (now - previous) <? SENSITIVE_MIN_INTERVAL then (Some TooManyRequests, last_call)
        else (None, Some now)
    | None => (None, Some now)
    end
  else (None, last_call).

(** The guard of [invoke_command]. *)
Definition invoke_guard (command : string) (header : option string) (now : Z) (last_call : option Z)
    : option Refusal * option Z :=
  if existsb (String.eqb command) SENSITIVE_COMMANDS
  then confirm_sensitive_access header (existsb (String.eqb command) RATE_LIMITED_SENSITIVE_COMMANDS) now last_call
  else (None, last_call).

Definition DEFAULT_SERVER_PROBE_TIMEOUT : Z := 15000.

(** In ms. *)
Definition server_probe_timeout (raw : option string) : Z :=
  match raw with
  | None => DEFAULT_SERVER_PROBE_TIMEOUT
  | Some raw =>
      match parse_uint u64_max (trim raw) with
      | Some ms => if 0 <? ms then ms else DEFAULT_SERVER_PROBE_TIMEOUT
      | None => DEFAULT_SERVER_PROBE_TIMEOUT
      end
  end.

(** The times at which requests for the seed phrase were let through. *)
Fixpoint seed_views (calls : list (option string * Z)) (last_call : option Z) : list Z :=
  match calls with
  | [] => []
  | (header, now) :: calls' =>
      let '(refusal, last_call) := invoke_guard "zbag_view_seed_phrase" header now last_call in
      match refusal with None => [now] | Some _ => [] end ++ seed_views calls' last_call
  end.

(** ** The policy is enforced whatever the file held *)

Section PolicyFacts.
Context {Num : Type} (num : Z -> Num).
#[local] Abbreviation Value := (@OneClick.Value Num).
#[local] Abbreviation Obj := (@Fields Num).

Lemma map_get_insert key k (v : Value) o :
  map_get k (map_insert key v o) = if String.eqb key k then Some v else map_get k o.
Proof using Type.
  induction o as [|[k' v'] o IH]; simpl.
  - rewrite String.eqb_sym. destruct (String.eqb_spec k key) as [-> |Hne].
    + by rewrite bool_decide_eq_true_2.
    + by rewrite bool_decide_eq_false_2 by congruence.
  - case_bool_decide as E; simpl.
    + subst k'. destruct (String.eqb_spec key k) as [<-|Hne]; case_bool_decide; congruence.
    + rewrite IH. destruct (String.eqb_spec key k) as [<-|Hne]; [|done].
      by rewrite bool_decide_eq_false_2.
Qed.

Lemma map_get_remove key k (o : Obj) :
  map_get k (map_remove key o) = if String.eqb key k then None else map_get k o.
Proof using Type.
  induction o as [|[k' v'] o IH]; simpl; [by destruct (String.eqb key k)|].
  case_bool_decide as E; simpl.
  - subst k'. rewrite IH. destruct (String.eqb_spec key k) as [<-|Hne]; [done|].
    by rewrite bool_decide_eq_false_2.
  - rewrite IH. destruct (String.eqb_spec key k) as [<-|Hne]; [by rewrite bool_decide_eq_false_2|done].
Qed.

Lemma map_get_entry key k f (o : Obj) :
  map_get k (object_entry key f o)
  = if String.eqb key k then Some (Object (f (as_object (map_get key o)))) else map_get k o.
Proof using Type. apply map_get_insert. Qed.

Lemma map_get_off key k (o : Obj) :
  map_get k (off key o) = if String.eqb key k then Some (Boolean false) else map_get k o.
Proof using Type. apply map_get_insert. Qed.

(** Writing what is there changes nothing. *)
Lemma map_insert_same key (v : Value) o : map_get key o = Some v -> map_insert key v o = o.
Proof using Type.
  induction o as [|[k' v'] o IH]; simpl; [done|]. case_bool_decide; [by intros [= ->]|].
  intros H'. by rewrite IH.
Qed.

Lemma map_remove_same key (o : Obj) : map_get key o = None -> map_remove key o = o.
Proof using Type.
  induction o as [|[k' v'] o IH]; simpl; [done|]. case_bool_decide; [done|]. intros H'. simpl. by rewrite IH.
Qed.

Lemma object_entry_same key f (o p : Obj) :
  map_get key o = Some (Object p) -> f p = p -> object_entry key f o = o.
Proof using Type. intros Hg Hf. unfold object_entry. rewrite Hg. simpl. rewrite Hf. by apply map_insert_same. Qed.

(** *** Reading after the writes *)

Definition write_key (w : @Write Num) : string :=
  match w with Remove k | Insert k _ | Entry k _ => k end.

(** What a write leaves under its key. *)
Definition written (w : @Write Num) (before : option Value) : option Value :=
  match w with
  | Remove _ => None
  | Insert _ v => Some v
  | Entry _ f => Some (Object (f (as_object before)))
  end.

Lemma apply_write_get (w : @Write Num) k o :
  map_get k (apply_write o w) = if String.eqb (write_key w) k then written w (map_get k o) else map_get k o.
Proof using Type.
  destruct w as [key|key v|key f]; simpl; [apply map_get_remove|apply map_get_insert|].
  unfold object_entry. rewrite map_get_insert. destruct (String.eqb_spec key k) as [-> |]; done.
Qed.

(** With distinct keys, the write of a key decides what is read under it. *)
Lemma writes_get (l : list (@Write Num)) k o :
  NoDup (map write_key l) ->
  map_get k (foldl apply_write o l)
  = match find_first (fun w => String.eqb (write_key w) k) l with
    | Some w => written w (map_get k o)
    | None => map_get k o
    end.
Proof using Type.
  revert o. induction l as [|w l IH]; intros o Hnd; simpl; [done|].
  apply NoDup_cons in Hnd as [Hw Hnd]. rewrite IH, apply_write_get by done.
  destruct (String.eqb_spec (write_key w) k) as [E|E]; [|done].
  destruct (find_first _ l) as [w'|] eqn:Ef; [|done]. exfalso. apply Hw.
  apply find_first_Some in Ef as [Hin Hk]. apply list_elem_of_fmap. exists w'. split; [|done].
  apply String.eqb_eq in Hk. congruence.
Qed.

Lemma policy_keys_distinct : NoDup (map write_key (policy_writes num)).
Proof using Type. apply (bool_decide_unpack _). vm_compute. exact I. Qed.

Lemma enforce_get k (o : Obj) :
  map_get k (enforce num o)
  = match find_first (fun w => String.eqb (write_key w) k) (policy_writes num) with
    | Some w => written w (map_get k o)
    | None => map_get k o
    end.
Proof using Type. apply writes_get, policy_keys_distinct. Qed.

(** The preferences that the policy sets, by path. *)
Definition required_prefs : list (list string * Value) :=
  [(["credentials_enable_service"], Boolean false); (["enable_do_not_track"], Boolean true);
   (["default_apps_install_state"], Number (num 3)); (["alternate_error_pages"; "enabled"], Boolean false);
   (["autofill"; "enabled"], Boolean false); (["autofill"; "profile_enabled"], Boolean false);
   (["autofill"; "credit_card_enabled"], Boolean false); (["browser"; "enable_spellchecking"], Boolean false);
   (["dns_over_https"; "mode"], Str "off"); (["dns_over_https"; "templates"], Str "");
   (["dns_over_https"; "automatic_mode_fallback_to_doh"], Boolean false);
   (["net"; "network_prediction_options"], Number (num 2));
   (["privacy_sandbox"; "first_party_sets_enabled"], Boolean false);
   (["privacy_sandbox"; "m1"; "topics_enabled"], Boolean false);
   (["privacy_sandbox"; "m1"; "fledge_enabled"], Boolean false);
   (["privacy_sandbox"; "m1"; "ad_measurement_enabled"], Boolean false);
   (["profile"; "password_manager_enabled"], Boolean false);
   (["profile"; "password_manager_leak_detection"], Boolean false);
   (["profile"; "network_prediction_options"], Number (num 2));
   (["safebrowsing"; "enabled"], Boolean false); (["safebrowsing"; "enhanced"], Boolean false);
   (["safebrowsing"; "scout_reporting_enabled"], Boolean false);
   (["safebrowsing"; "scout_reporting_enabled_when_deprecated"], Boolean false);
   (["safebrowsing"; "deep_scanning_enabled"], Boolean false);
   (["safebrowsing"; "surveys_enabled"], Boolean false); (["search"; "suggest_enabled"], Boolean false);
   (["signin"; "allowed"], Boolean false); (["spellcheck"; "dictionaries"], Array []);
   (["spellcheck"; "use_spelling_service"], Boolean false); (["sync"; "requested"], Boolean false);
   (["translate"; "enabled"], Boolean false); (["webrtc"; "ip_handling_policy"], Str "disable_non_proxied_udp");
   (["webrtc"; "multiple_routes_enabled"], Boolean false);
   (["webrtc"; "nonproxied_udp_enabled"], Boolean false)].

Fixpoint get_path (path : list string) (o : Obj) : option Value :=
  match path with
  | [] => None
  | [k] => map_get k o
  | k :: path' => get_path path' (as_object (map_get k o))
  end.

(** The top-level keys that the policy writes. *)
Definition policy_keys : list string :=
  stale_keys ++ flat_map (fun p => option_list (head p.1)) required_prefs.

(** The write of a key in the policy. *)
Ltac find_write := cbn [policy_writes stale_keys map app find_first write_key String.eqb Ascii.eqb Bool.eqb written].

(** What is read after the writes to one object. *)
Ltac read_object :=
  cbn [as_object]; repeat (rewrite ?map_get_off, ?map_get_insert, ?map_get_entry;
                           cbn [String.eqb Ascii.eqb Bool.eqb as_object]).

Lemma required_hold (o : Obj) : Forall (fun p => get_path p.1 (enforce num o) = Some p.2) required_prefs.
Proof using Type.
  unfold required_prefs. repeat (apply Forall_cons; split); [..|by apply Forall_nil];
    cbn [get_path fst snd]; rewrite enforce_get; find_write; read_object; reflexivity.
Qed.

Lemma stale_gone (o : Obj) : Forall (fun k => map_get k (enforce num o) = None) stale_keys.
Proof using Type.
  unfold stale_keys at 1. repeat (apply Forall_cons; split); [..|by apply Forall_nil];
    rewrite enforce_get; find_write; reflexivity.
Qed.

Lemma policy_keys_written : map write_key (policy_writes num) ⊆ policy_keys.
Proof using Type. apply (bool_decide_unpack _). vm_compute. exact I. Qed.

Lemma others_kept k (o : Obj) : k ∉ policy_keys -> map_get k (enforce num o) = map_get k o.
Proof using Type.
  intros Hk. rewrite enforce_get. destruct (find_first _ _) as [w|] eqn:E; [|done]. destruct Hk.
  apply find_first_Some in E as [Hin Hw%String.eqb_eq]. apply policy_keys_written.
  apply list_elem_of_fmap. exists w. by split.
Qed.

(** *** Writing twice *)

Lemma find_write_self (l : list (@Write Num)) w :
  NoDup (map write_key l) -> w ∈ l -> find_first (fun w' => String.eqb (write_key w') (write_key w)) l = Some w.
Proof using Type.
  induction l as [|x l IH]; intros Hnd Hw; [by apply elem_of_nil in Hw|]. simpl.
  apply NoDup_cons in Hnd as [Hx Hnd]. destruct (String.eqb_spec (write_key x) (write_key w)) as [E|E].
  - apply elem_of_cons in Hw as [-> |Hw]; [done|]. destruct Hx. rewrite E. by apply list_elem_of_fmap_2.
  - apply elem_of_cons in Hw as [-> |Hw]; [done|]. by apply IH.
Qed.

(** The writes to an object of the policy have the effect of one pass. *)
Definition idempotent_write (w : @Write Num) : Prop :=
  match w with Entry _ f => forall p, f (f p) = f p | _ => True end.

(** Replaces the second pass by the first. *)
Ltac second_pass :=
  intros p; cbv beta; unfold off;
  repeat (rewrite (map_insert_same _ _ _); [|read_object; reflexivity]).

Lemma sandbox_twice (o : Obj) :
  let f o := object_entry "m1" (fun m => off "ad_measurement_enabled" (off "fledge_enabled" (off "topics_enabled" m)))
               (off "first_party_sets_enabled" o) in
  f (f o) = f o.
Proof using Type.
  cbv beta zeta. set (g := fun m => off "ad_measurement_enabled" _). set (q := off "first_party_sets_enabled" o).
  assert (off "first_party_sets_enabled" (object_entry "m1" g q) = object_entry "m1" g q) as ->.
  { apply map_insert_same. unfold q. read_object. reflexivity. }
  eapply object_entry_same; [read_object; reflexivity|].
  unfold g. generalize (as_object (map_get "m1" q)). second_pass. reflexivity.
Qed.

Lemma policy_idempotent : Forall idempotent_write (policy_writes num).
Proof using Type.
  unfold policy_writes. apply Forall_app. split; [by apply Forall_fmap, Forall_true|].
  repeat (apply Forall_cons; split); try exact I; [..|by apply Forall_nil];
    cbn [idempotent_write]; first [exact sandbox_twice | second_pass; reflexivity].
Qed.

Lemma settled_all (o : Obj) (l : list (@Write Num)) :
  Forall (fun w => apply_write o w = o) l -> foldl apply_write o l = o.
Proof using Type. induction 1 as [|w l Hw _ IH]; simpl; [done|]. by rewrite Hw. Qed.

Lemma enforce_idempotent (o : Obj) : enforce num (enforce num o) = enforce num o.
Proof using Type.
  unfold enforce at 1. apply settled_all, Forall_forall. intros w Hw.
  pose proof (proj1 (Forall_forall _ _) policy_idempotent w Hw) as Hid. pose proof (enforce_get (write_key w) o) as Hg.
  rewrite (find_write_self _ _ policy_keys_distinct Hw) in Hg. clear Hw. revert Hg.
  generalize (enforce num o). intros o' Hg. destruct w as [k|k v|k f]; simpl in *.
  - by apply map_remove_same.
  - by apply map_insert_same.
  - by eapply object_entry_same; [exact Hg|].
Qed.

(** The browser policy is enforced whatever the preferences file held.
    After [enforce], every preference of the policy has its value (also
    where an entry was no object), no stale key is left, preferences that
    the policy does not name are as they were, and enforcing again changes
    nothing. *)
Theorem cef_policy_enforced (o : Obj) :
  (forall path v, (path, v) ∈ required_prefs -> get_path path (enforce num o) = Some v)
  /\ (forall k, k ∈ stale_keys -> map_get k (enforce num o) = None)
  /\ (forall k, k ∉ policy_keys -> map_get k (enforce num o) = map_get k o)
  /\ enforce num (enforce num o) = enforce num o.
Proof using Type.
  pose proof (proj1 (Forall_forall _ _) (required_hold o)) as H1.
  pose proof (proj1 (Forall_forall _ _) (stale_gone o)) as H2.
  refine (conj _ (conj H2 (conj (fun k => others_kept k o) (enforce_idempotent o)))).
  intros path v H. exact (H1 (path, v) H).
Qed.
End PolicyFacts.

(** ** Caches *)

Lemma split_once_uint n rest : split_once "-"%char (uint_to_string n +:+ "-" +:+ rest) = Some (uint_to_string n, rest).
Proof.
  pose proof (uint_to_string_digits n) as Hd. revert Hd. generalize (uint_to_string n). intros s.
  induction s as [|c s IH]; [done|]. cbn [all_chars]. intros [Hc Hs]%andb_true_iff.
  change (String c s +:+ "-" +:+ rest) with (String c (s +:+ "-" +:+ rest)). cbn [split_once].
  destruct (Ascii.eqb "-" c) eqn:E.
  { apply Ascii.eqb_eq in E. subst c. vm_compute in Hc. discriminate Hc. }
  by rewrite (IH Hs).
Qed.

Lemma strip_prefix_inv s p r : strip_prefix s p = Some r -> s = p +:+ r.
Proof.
  unfold strip_prefix, starts_with. revert s. induction p as [|c p IH]; intros s; [by destruct s; intros [= <-]|].
  destruct s as [|d s]; [done|]. simpl. destruct (Ascii.ascii_dec c d) as [-> |]; [|done].
  intros H. by rewrite (IH s H) at 1.
Qed.

(** A cache is removed only when it is one of this application's, not the
    current one, at least a minute old, and its process is gone; the cache
    of a process that is alive is never removed. *)
Theorem purge_spares_live_caches (bundle temp : string) (own : list string) (now : Z) (alive : Z -> bool)
    (entries : list CacheEntry) :
  (forall path, path ∈ purge_stale_temp_cef_caches bundle own now alive entries ->
     exists e name rest modified, e ∈ entries /\ ce_path e = path /\ path <> own
       /\ ce_name e = Some name /\ name = bundle +:+ "-" +:+ rest
       /\ ce_modified e = Some modified /\ modified + min_age <= now)
  /\ (forall e pid stamp, 0 <= pid <= u32_max -> alive pid = true ->
        ce_name e = Some (cef_cache_name bundle pid stamp) -> stale_entry bundle own now alive e = false).
Proof.
  split.
  - intros path. unfold purge_stale_temp_cef_caches. rewrite list_elem_of_fmap.
    intros (e & -> & [Hin He]%list_elem_of_In%filter_In). unfold stale_entry in He.
    case_bool_decide as Hown; [done|]. destruct (ce_name e) as [name|] eqn:En; [|done].
    destruct (strip_prefix name _) as [rest|] eqn:Es; [|done]. apply strip_prefix_inv in Es.
    destruct (default _ _); [done|]. destruct (ce_modified e) as [m|] eqn:Em; [|done].
    destruct (now <? m) eqn:E1; [done|]. apply negb_true_iff, Z.ltb_ge in He.
    exists e, name, rest, m. split_and!; [by apply list_elem_of_In|done|done|done| |done|lia].
    by rewrite Es, string_app_assoc.
  - intros e pid stamp Hp Ha En. unfold stale_entry. case_bool_decide; [done|]. rewrite En.
    unfold cef_cache_name. rewrite <- (string_app_assoc bundle "-"), strip_prefix_app, split_once_uint. cbn [mbind option_bind fst].
    rewrite parse_uint_to_string by done. simpl. by rewrite Ha.
Qed.

(** No switch is given twice, name resolution is mapped away and DNS over
    HTTPS is off, on every platform. *)
Theorem cef_switches_unique (macos : bool) (keychain : option string) :
  NoDup (cef_runtime_args macos keychain).*1
  /\ ("--host-resolver-rules", Some CEF_HOST_RESOLVER_RULES) ∈ cef_runtime_args macos keychain
  /\ ("--dns-over-https-mode", Some "off") ∈ cef_runtime_args macos keychain
  /\ ("--incognito", None) ∈ cef_runtime_args macos keychain
  /\ (("--use-mock-keychain", None) ∈ cef_runtime_args macos keychain <-> macos = true /\ keychain <> Some "1").
Proof.
  unfold cef_runtime_args. destruct macos; simpl negb; simpl andb.
  2:{ repeat split; try (apply (bool_decide_unpack _); vm_compute; exact I).
      all: exfalso; revert H; apply (bool_decide_unpack _); vm_compute; exact I. }
  destruct (bool_decide_reflect (keychain = Some "1")) as [-> |Hk]; simpl negb.
  - repeat split; try (apply (bool_decide_unpack _); vm_compute; exact I).
    exfalso. revert H. apply (bool_decide_unpack _). vm_compute. exact I.
  - repeat split; try (apply (bool_decide_unpack _); vm_compute; exact I); [done|]. intros _. by left.
Qed.

(** ** The bridge *)

(** What a sensitive command needs. *)
Lemma guard_passes command header now last last' :
  invoke_guard command header now last = (None, last') -> command ∈ SENSITIVE_COMMANDS ->
  exists v, header = Some v /\ eq_ignore_ascii_case v SENSITIVE_CONFIRM_VALUE = true.
Proof.
  unfold invoke_guard, confirm_sensitive_access. intros H Hin.
  assert (existsb (String.eqb command) SENSITIVE_COMMANDS = true) as Hex.
  { apply existsb_exists. exists command. split; [by apply list_elem_of_In|apply String.eqb_refl]. }
  rewrite Hex in H. destruct header as [v|]; [|done]. cbn [fmap option_fmap option_map default from_option id] in H.
  exists v. split; [done|]. by destruct (eq_ignore_ascii_case _ _).
Qed.

Lemma seed_guard_cases header now last :
  (exists r, invoke_guard "zbag_view_seed_phrase" header now last = (Some r, last))
  \/ invoke_guard "zbag_view_seed_phrase" header now last = (None, Some now)
     /\ forall previous, last = Some previous -> SENSITIVE_MIN_INTERVAL <= Z.max 0 (now - previous).
Proof.
  unfold invoke_guard, confirm_sensitive_access. cbn [existsb String.eqb Ascii.eqb Bool.eqb SENSITIVE_COMMANDS orb
    RATE_LIMITED_SENSITIVE_COMMANDS andb].
  destruct (negb _); [left; by eexists|]. destruct last as [p|]; [|by right].
  destruct (Z.ltb_spec (Z.max 0 (now - p)) SENSITIVE_MIN_INTERVAL); [left; by eexists|right].
  split; [done|]. by intros ? [= <-].
Qed.

Lemma seed_views_spaced calls last :
  StronglySorted Z.le (map snd calls) -> (forall p, last = Some p -> Forall (Z.le p) (map snd calls)) ->
  StronglySorted (fun a b => a + SENSITIVE_MIN_INTERVAL <= b) (seed_views calls last)
  /\ (forall p, last = Some p -> Forall (fun t => p + SENSITIVE_MIN_INTERVAL <= t) (seed_views calls last)).
Proof.
  revert last. induction calls as [|[header now] calls IH]; intros last Hs Hl; cbn [map snd seed_views] in *.
  { split; [constructor|by constructor]. }
  apply StronglySorted_inv in Hs as [Hs Hnow].
  destruct (seed_guard_cases header now last) as [[r ->]|[-> Hgap]]; simpl.
  - destruct (IH last Hs) as (H1 & H3); [intros p Hp; by eapply Forall_inv_tail, Hl|]. auto.
  - destruct (IH (Some now) Hs) as (H1 & H3); [by intros p [= <-]|]. specialize (H3 now eq_refl).
    split; [by constructor|]. intros p Hp. specialize (Hgap p Hp).
    assert (p + SENSITIVE_MIN_INTERVAL <= now) by (unfold SENSITIVE_MIN_INTERVAL in *; lia).
    constructor; [done|]. eapply Forall_impl; [exact H3|]. simpl. unfold SENSITIVE_MIN_INTERVAL in *. lia.
Qed.

(** The bridge lets a sensitive command through only with the confirmation
    header, and answers requests for the seed phrase at least two seconds
    apart, whatever else arrives in between. *)
Theorem bridge_guards_secrets (calls : list (option string * Z)) :
  StronglySorted Z.le (map snd calls) ->
  StronglySorted (fun a b => a + SENSITIVE_MIN_INTERVAL <= b) (seed_views calls None)
  /\ forall command header now last last', command ∈ SENSITIVE_COMMANDS ->
       invoke_guard command header now last = (None, last') ->
       exists v, header = Some v /\ eq_ignore_ascii_case v SENSITIVE_CONFIRM_VALUE = true.
Proof.
  intros Hs. split; [by apply (seed_views_spaced calls None Hs)|].
  intros command header now last last' Hin H. by eapply guard_passes.
Qed.

Example bridge_demo :
  seed_views [(Some "TRUE", 10); (None, 20); (Some "true", 1500000000); (Some "true", 2000000010)] None
  = [10; 2000000010].
Proof. reflexivity. Qed.
