(* ===== verification/ShellServices.v ===== *)
(** The swap and server commands of the desktop shell ([commands/swap.rs],
    [commands/server.rs]), with the deposit of a swap from ZEC
    ([SwapService::start_swap_from_zec]) made by the wallet manager itself.

    [Swaps] has the service with the wallet's send as an argument; here its
    state stands next to [AppState], both write to the one application
    database, and the send is the one of [WalletManager].  The answers of the
    1Click API are arguments ([OneClick] has its client). *)
From S2P Require Import Prelude Text Domain AppDb Reauth Broadcast Servers BroadcastQueue Jobs.
From S2P Require Import Sends Shielding Encryption KeyStore Addresses Float64 SyncPipeline SyncService Swaps SwapSafety WalletManager Tor Shell.
From S2P Require Import SendSafety WalletFrames WalletDemo WalletSafety WalletGuards.
From Stdlib Require Import QArith.
Open Scope Z_scope.
#[local] Open Scope list_scope.

(** ** State *)

Record SwapShell := mkSwapShell {
  zs_app : AppState;
  zs_svc : SwapSvc;
  zs_events : list Event;
  zs_submitted : list (string * string);
}.

Definition zs_mgr (s : SwapShell) : WM := as_mgr (zs_app s).
Definition zs_db (s : SwapShell) : AppDb := wm_db (zs_mgr s).

Definition on_wallet {A} (m : M WM A) : M SwapShell A :=
  m_zoom zs_mgr (fun mgr s => mkSwapShell (as_set_mgr mgr (zs_app s)) (zs_svc s) (zs_events s) (zs_submitted s)) m.

Definition wm_set_db (db : AppDb) (s : WM) : WM := (on_app_db (m_put db) s).2.

(** The swap service works on the database of the manager. *)
Definition swap_env (s : SwapShell) : SwapEnv :=
  mkSwapEnv (zs_svc s) (zs_db s) (zs_events s) [] (zs_submitted s).
Definition set_swap_env (e : SwapEnv) (s : SwapShell) : SwapShell :=
  mkSwapShell (as_set_mgr (wm_set_db (se_db e) (zs_mgr s)) (zs_app s)) (se_svc e) (se_events e) (se_submitted e).
Definition on_swaps {A} (m : M SwapEnv A) : M SwapShell A := m_zoom swap_env set_swap_env m.

(** A command that needs the active wallet, locked or not. *)
Definition SwapCommand (A : Type) : Type := SwapShell -> IpcResult A * SwapShell.

Definition swap_command {A} (schema_version : Z) (body : WalletInfo -> M SwapShell A) : SwapCommand A := fun s =>
  match ensure_schema_version schema_version with
  | Err err => (IpcErr (to_ipc_error err), s)
  | Ok _ =>
      match active_wallet_info (zs_mgr s) with
      | None => (IpcErr (to_ipc_error (ipc_err errors.WALLET_NOT_FOUND "wallet not loaded")), s)
      | Some wallet => (map_anyhow (body wallet s).1, (body wallet s).2)
      end
  end.

(** The oracles, clocks and fresh names of a deposit. *)
Record DepositIo := mkDepositIo {
  di_io : SendIo;
  di_max_money : Z;
  di_prepare : Z;
  di_proposal_id : string;
  di_task : Z;
  di_execute : Z;
  di_execute_ms : Z;
}.

Section ShellServices.
Context `{C : Crypto} `{KS : KeyStore} `{WL : WalletLib}.
Context (from_slice : string -> option QueuedBroadcastMeta) (to_vec_pretty : QueuedBroadcastMeta -> string)
        (fl : Q -> Q) (send : nat -> string -> string -> option (result unit)) (nonce : string -> string)
        (offset_ms : string -> Q) (url_parse : string -> Url + ParseError) (debug : bool) (env_var : option string).

(** ** The deposit *)

Definition send_zec (io : DepositIo) (account_id : Z) (deposit_address raw_input_amount : string)
    (memo : option string) (allow_transparent_interaction : bool) (reauth_token : string) : M WM string :=
  proposal ← wm_prepare_send (di_max_money io) (di_io io) (di_prepare io) (di_proposal_id io) account_id
               deposit_address raw_input_amount memo allow_transparent_interaction;
  task ← prepare_confirm_send_task url_parse debug env_var (di_task io) (psr_proposal_id proposal) reauth_token;
  on_tx (execute_prepared_confirm_send_task from_slice to_vec_pretty fl send nonce offset_ms (di_io io)
           (di_execute io) (di_execute_ms io) task false).

(** What follows the send. *)
Definition deposit_failed (now_ms : Z) (wallet_id : Uuid) (swap : SwapInfo) (err : error) : M SwapShell SwapInfo :=
  let swap := with_state swap SwapState.Failed (Some (error_to_string err)) now_ms in
  m_ignore (on_swaps (in_db (update_swap wallet_id swap))) ;;
  on_swaps (emit_swap true swap) ;;
  m_err err.

Definition deposit_sent (now_ms : Z) (spawned : bool) (wallet_id : Uuid) (swap : SwapInfo)
    (txid deposit_address : string) : M SwapShell SwapInfo :=
  on_swaps (Swaps.submit_deposit txid deposit_address) ;;
  let swap := with_state swap SwapState.Pending None now_ms in
  on_swaps (m_context "failed to update swap" (in_db (update_swap wallet_id swap))) ;;
  on_swaps (emit_swap true swap) ;;
  on_swaps (in_svc (start_polling spawned (sw_id swap))) ;;
  mret swap.

Definition shell_start_swap_from_zec (now_ms later_ms : Z) (new_id : Uuid) (spawned : bool) (io : DepositIo)
    (wallet_id : Uuid) (allow_transparent_interaction : bool) (reauth_token : option string) (record : QuoteRecord)
    : M SwapShell SwapInfo :=
  if negb allow_transparent_interaction
  then m_err (ipc_err errors.PRIVACY_ACK_REQUIRED
                "swap-from-ZEC requires transparent interaction acknowledgement")
  else
  match reauth_token with
  | None => m_err (ipc_err errors.INVALID_REQUEST "reauth_token required")
  | Some reauth_token =>
      if is_empty (trim reauth_token) then m_err (ipc_err errors.INVALID_REQUEST "reauth_token required") else
      deposit_address ← m_lift (ok_or (sq_deposit_address (q_quote record))
        (ipc_err errors.SWAP_FAILED "quote missing deposit address"));
      on_swaps open_conn ;;
      accounts ← on_swaps (m_context "failed to list accounts" (in_db (list_accounts wallet_id)));
      account ← m_lift (ok_or
        (find_first (fun a => bool_decide (ai_account_type a = AccountType.Software)) accounts)
        (ipc_err errors.WATCH_ONLY_CANNOT_SPEND "no spend-capable account available"));
      let swap := new_swap new_id record deposit_address SwapState.Draft now_ms in
      on_swaps (m_context "failed to insert swap" (in_db (insert_swap wallet_id swap))) ;;
      on_swaps (emit_swap true swap) ;;
      sent ← m_try (on_wallet (send_zec io (ai_id account) deposit_address (sq_input_amount (q_quote record))
                                 (sw_deposit_memo swap) allow_transparent_interaction reauth_token));
      match sent with
      | Err err => deposit_failed later_ms wallet_id swap err
      | Ok txid => deposit_sent later_ms spawned wallet_id swap txid deposit_address
      end
  end.

(** A swap to ZEC sends nothing: it is started as in [Swaps]. *)
Definition shell_start_swap (now_ms later_ms : Z) (new_id : Uuid) (spawned : bool) (io : DepositIo)
    (wallet_id : Uuid) (network : Network) (quote_id : string) (allow_transparent_interaction : bool)
    (reauth_token : option string) : M SwapShell SwapInfo :=
  if bool_decide (network = Network.Testnet)
  then m_err (ipc_err errors.SWAP_UNSUPPORTED_NETWORK "swaps are not supported on Testnet")
  else
  record ← on_swaps (in_svc (take_quote now_ms wallet_id quote_id));
  if bool_decide (in_swap_type (q_intent record) = SwapType.FromZec)
  then shell_start_swap_from_zec now_ms later_ms new_id spawned io wallet_id allow_transparent_interaction
         reauth_token record
  else
  deposit_address ← m_lift (ok_or (sq_deposit_address (q_quote record))
    (ipc_err errors.SWAP_FAILED "quote missing deposit address"));
  let swap := new_swap new_id record deposit_address SwapState.AwaitingDeposit now_ms in
  on_swaps open_conn ;;
  on_swaps (m_context "failed to insert swap" (in_db (insert_swap wallet_id swap))) ;;
  on_swaps (emit_swap true swap) ;;
  on_swaps (in_svc (start_polling spawned (sw_id swap))) ;;
  mret swap.

(** ** The commands *)

Definition zbag_request_swap_quote (schema_version : Z) (to_rfc3339 : Z -> string) (now_ms : Z)
    (tokens : NearIntentsError + list (string * Z)) (get_quote : QuoteRequest -> NearIntentsError + QuoteResponse)
    (intent : SwapIntent) : SwapCommand (string * SwapQuote) :=
  swap_command schema_version (fun wallet =>
    on_swaps (in_svc (request_swap_quote to_rfc3339 now_ms tokens get_quote (wi_id wallet) (wi_network wallet) intent))).

Definition zbag_start_swap (schema_version now_ms later_ms : Z) (new_id : Uuid) (spawned : bool) (io : DepositIo)
    (quote_id : string) (allow_transparent_interaction : bool) (reauth_token : option string)
    : SwapCommand SwapInfo :=
  swap_command schema_version (fun wallet =>
    shell_start_swap now_ms later_ms new_id spawned io (wi_id wallet) (wi_network wallet) quote_id
      allow_transparent_interaction reauth_token).

Definition zbag_get_swap_status (schema_version : Z) (swap_id : Uuid) : SwapCommand SwapInfo :=
  swap_command schema_version (fun wallet => on_swaps (get_swap_status (wi_id wallet) swap_id)).

Definition zbag_list_swaps (schema_version : Z) : SwapCommand (list SwapInfo) :=
  swap_command schema_version (fun wallet => on_swaps (list_swaps (wi_id wallet))).

(** [has_confirmed_zcash_tx]: the rows of the wallet's view, as long as this
    is the active wallet and its database opens; a failure of the
    application database on the way is not carried over. *)
Definition wallet_view (rows : option (list TxRow)) (wallet_id : Uuid) (s : WM) : option (list TxRow) :=
  match active_wallet_info s with
  | None => None
  | Some active_wallet =>
      if negb (bool_decide (wi_id active_wallet = wallet_id)) then None else
      match (ctx ← get_tx_operation_context url_parse debug env_var; on_disk (open_wallet_db_for_tx ctx)) s with
      | (Ok _, _) => rows
      | (Err _, _) => None
      end
  end.

Definition zbag_refresh_swap_status (schema_version now_ms : Z)
    (get_status : StatusRequest -> option (NearIntentsError + StatusResponse)) (rows : option (list TxRow))
    (swap_id : Uuid) : SwapCommand SwapInfo :=
  swap_command schema_version (fun wallet s =>
    on_swaps (refresh_swap_status get_status (wallet_view rows (wi_id wallet) (zs_mgr s))
                (is_active_wallet_unlocked (wi_id wallet) (zs_mgr s)) now_ms (wi_id wallet) swap_id true) s).

Definition zbag_resume_pending_swaps (schema_version now_ms : Z) (spawned : bool) : SwapCommand Z :=
  swap_command schema_version (fun wallet => on_swaps (resume_pending_swaps now_ms spawned (wi_id wallet))).

(** ** Servers *)

Definition active_network (s : AppState) : option Network := wi_network <$> active_wallet_info (as_mgr s).

(** The time-out is part of [probe]. *)
Definition SERVER_PROBE_TIMEOUT : Z := 15.

Definition zbag_add_server (schema_version : Z) (probe : Z -> string -> result string) (name grpc_url : string)
    (fresh_id : Uuid) (now_ms : Z) : Command ServerInfo :=
  command schema_version
    (on_mgr (on_app_db (add_server url_parse debug (probe SERVER_PROBE_TIMEOUT) name grpc_url fresh_id now_ms))).

Definition zbag_set_default_server (schema_version : Z) (server_id : Uuid) : Command bool :=
  command schema_version (
    s ← m_get;
    on_mgr (on_app_db (set_default_server_cmd url_parse debug (active_network s) server_id))).

Definition zbag_list_servers (schema_version : Z) : Command (list ServerInfo) :=
  command schema_version (on_mgr (on_app_db (list_servers_cmd url_parse debug))).

Definition zbag_test_server (schema_version : Z) (probe : Z -> string -> result string) (server_id : Uuid)
    (now_ms : Z) : Command TestServerResponse :=
  command schema_version
    (on_mgr (on_app_db (test_server url_parse debug (probe SERVER_PROBE_TIMEOUT) server_id now_ms))).

(** ** What a deposit does to the wallet *)

Lemma wm_prepare_send_keeps mm io now i a r z m al : m_pres keeps (wm_prepare_send mm io now i a r z m al).
Proof using Type. unfold wm_prepare_send. m_pres_auto. Qed.
Lemma wm_prepare_send_idle mm io now i a r z m al : m_pres idle (wm_prepare_send mm io now i a r z m al).
Proof using Type. unfold wm_prepare_send. m_pres_auto. Qed.

Lemma send_zec_keeps io a d z m al t : m_pres keeps (send_zec io a d z m al t).
Proof using Type.
  unfold send_zec. apply m_pres_bind; [apply _|apply wm_prepare_send_keeps|intros p].
  apply m_pres_bind; [apply _|apply prepare_confirm_send_task_keeps|intros task].
  apply on_tx_keeps, execute_confirm_grows.
Qed.

(** Nothing is sent without a live token of the active, unlocked wallet, and
    without a proposal for the amount and the address. *)
Lemma send_zec_authorised io acc d z m al t s :
  let s' := (send_zec io acc d z m al t s).2 in
  sent s' = sent s
  \/ exists a resp s1, wm_active s = Some a /\ is_unlocked a = true /\ accepted (di_task io) t a s s'
       /\ wm_prepare_send (di_max_money io) (di_io io) (di_prepare io) (di_proposal_id io) acc d z m al s = (Ok resp, s1).
Proof using Type.
  cbv zeta. unfold send_zec. rewrite m_bind_eq.
  pose proof (wm_prepare_send_idle (di_max_money io) (di_io io) (di_prepare io) (di_proposal_id io) acc d z m al s) as Hi.
  destruct (wm_prepare_send _ _ _ _ _ _ _ _ _ s) as [[p|e] s1] eqn:E; [|left; apply Hi]. simpl in Hi.
  assert (exists a, wm_active s = Some a /\ is_unlocked a = true) as (a & Ha & Hu).
  { unfold wm_prepare_send in E. rewrite m_get_bind in E. unfold m_lift, require_active_unlocked_wallet_db in E.
    destruct (wm_active s) as [a|]; [|done]. destruct (is_unlocked a) eqn:Eu; [|done]. by exists a. }
  destruct Hi as [Hact Hre _ Hs].
  assert (needs_token (di_task io) t a (task ← prepare_confirm_send_task url_parse debug env_var (di_task io)
      (psr_proposal_id p) t; on_tx (execute_prepared_confirm_send_task from_slice to_vec_pretty fl send nonce
        offset_ms (di_io io) (di_execute io) (di_execute_ms io) task false))) as Hn.
  { apply needs_token_seq; [|intros task; apply on_tx_tokens]. unfold prepare_confirm_send_task.
    apply needs_token_seq; [apply prepare_confirm_needs_token|]. intros []. pose proof preflight_idle. m_pres_auto. }
  destruct (Hn s1) as [[[] _]|Hacc]; [congruence|left; congruence|].
  right. exists a, p, s1. split; [done|]. split; [done|]. split; [|done]. unfold accepted in *. by rewrite Hre in Hacc.
Qed.

(** ** What the swap service leaves alone *)

(** The wallet did nothing; what is on record for a deposit stays there. *)
Record followed (id : Uuid) (addr : string) (record : QuoteRecord) (s s' : SwapShell) : Prop := {
  fo_active : wm_active (zs_mgr s') = wm_active (zs_mgr s);
  fo_tokens : wm_reauth (zs_mgr s') = wm_reauth (zs_mgr s);
  fo_sent : sent (zs_mgr s') = sent (zs_mgr s);
  fo_record : on_record id addr record (zs_db s) -> on_record id addr record (zs_db s');
}.

#[global] Instance followed_preorder id addr record : PreOrder (followed id addr record).
Proof using Type. split; [by intros s|]. intros a b c [] []. split; [congruence..|auto]. Qed.

Lemma on_swaps_run {A} (m : M SwapEnv A) s r s' :
  on_swaps m s = (r, s') ->
  exists e', m (swap_env s) = (r, e') /\ zs_db s' = se_db e' /\ zs_svc s' = se_svc e'
    /\ wm_active (zs_mgr s') = wm_active (zs_mgr s) /\ wm_reauth (zs_mgr s') = wm_reauth (zs_mgr s)
    /\ sent (zs_mgr s') = sent (zs_mgr s).
Proof using Type.
  unfold on_swaps, m_zoom. destruct (m (swap_env s)) as [r0 e']. intros [= <- <-]. by exists e'.
Qed.

Lemma on_swaps_followed {A} id addr record (m : M SwapEnv A) :
  (forall e, on_record id addr record (se_db e) -> on_record id addr record (se_db (m e).2)) ->
  m_pres (followed id addr record) (on_swaps m).
Proof using Type.
  intros Hm s. destruct (on_swaps m s) as [r s'] eqn:E.
  destruct (on_swaps_run _ _ _ _ E) as (e' & Em & Hdb & _ & Ha & Hr & Hs). simpl.
  specialize (Hm (swap_env s)). rewrite Em in Hm. split; [done..|]. rewrite Hdb. exact Hm.
Qed.

Lemma framed_followed {A} id addr record (m : M SwapEnv A) :
  framed m -> m_pres (followed id addr record) (on_swaps m).
Proof using Type.
  intros Hm. apply on_swaps_followed. intros e. destruct (Hm e) as [_ H]. by apply on_record_swaps.
Qed.

Lemma update_followed id addr record w swap c :
  sw_id swap = id -> sw_deposit_address swap = Some addr ->
  sw_remote_id swap = Some (sq_correlation_id (q_quote record)) ->
  m_pres (followed id addr record) (on_swaps (in_db (update_swap w swap)))
  /\ m_pres (followed id addr record) (on_swaps (m_context c (in_db (update_swap w swap)))).
Proof using Type.
  intros Hid Ha Hq. assert (forall e, on_record id addr record (se_db e) ->
    on_record id addr record (se_db (in_db (update_swap w swap) e).2)) as Hu.
  { intros e Hr. pose proof (on_record_update id addr record w swap (se_db e) Hr Hid Ha Hq) as H.
    unfold in_db, m_zoom. by destruct (update_swap w swap (se_db e)). }
  split; apply on_swaps_followed; [exact Hu|]. intros e Hr. specialize (Hu e Hr). unfold m_context.
  by destruct (in_db _ e).
Qed.

Lemma framed_submit txid addr : framed (Swaps.submit_deposit txid addr).
Proof using Type. by intros e. Qed.

(** The tail of a deposit, after the send. *)
Lemma deposit_failed_followed id addr record now later w err :
  m_pres (followed id addr record) (deposit_failed later w (new_swap id record addr SwapState.Draft now) err).
Proof using Type.
  unfold deposit_failed. apply m_pres_bind; [apply _| |intros _].
  - apply m_pres_ignore. by eapply (fun H1 H2 H3 => proj1 (update_followed id addr record w _ "" H1 H2 H3)).
  - apply m_pres_bind; [apply _|apply framed_followed; auto with swaps|intros _; m_pres_auto].
Qed.

Lemma deposit_sent_followed id addr record now later spawned w txid :
  m_pres (followed id addr record)
    (deposit_sent later spawned w (new_swap id record addr SwapState.Draft now) txid addr).
Proof using Type.
  unfold deposit_sent. cbv zeta. apply m_pres_bind; [apply _|apply framed_followed, framed_submit|intros _].
  apply m_pres_bind; [apply _| |intros _].
  - by eapply (fun H1 H2 H3 => proj2 (update_followed id addr record w _ _ H1 H2 H3)).
  - repeat (apply m_pres_bind; [apply _|apply framed_followed; auto with swaps|intros _]). m_pres_auto.
Qed.

(** The row of a new swap, after its insertion. *)
Lemma inserted_on_record id addr record now w s s' :
  on_swaps (m_context "failed to insert swap" (in_db (insert_swap w (new_swap id record addr SwapState.Draft now)))) s
    = (Ok tt, s') ->
  on_record id addr record (zs_db s').
Proof using Type.
  intros E. destruct (on_swaps_run _ _ _ _ E) as (e' & Em & -> & _). unfold m_context in Em.
  pose proof (insert_env w (new_swap id record addr SwapState.Draft now) (swap_env s)) as H.
  destruct (in_db _ (swap_env s)) as [[[]|x] e1]; [|done]. injection Em as ->. destruct H as [_ H].
  exists (row_of_swap w (new_swap id record addr SwapState.Draft now)). rewrite H.
  split; [apply elem_of_app; right; by left|done].
Qed.

(** What has to hold when a deposit leaves the wallet, from [s] to [s']. *)
Definition deposit_made (io : DepositIo) (id : Uuid) (record : QuoteRecord) (allow : bool) (reauth_token : option string)
    (s s' : SwapShell) : Prop :=
  exists a addr token,
    wm_active (zs_mgr s) = Some a /\ is_unlocked a = true
    /\ sq_deposit_address (q_quote record) = Some addr /\ allow = true /\ reauth_token = Some token
    /\ accepted (di_task io) token a (zs_mgr s) (zs_mgr s') /\ on_record id addr record (zs_db s')
    /\ exists account_id mgr resp mgr', wm_active mgr = Some a
         /\ wm_prepare_send (di_max_money io) (di_io io) (di_prepare io) (di_proposal_id io) account_id addr
              (sq_input_amount (q_quote record)) (sq_deposit_memo (q_quote record)) allow mgr = (Ok resp, mgr').

(** The state is [s] as far as the wallet is concerned. *)
Definition idle_since (s s' : SwapShell) : Prop :=
  wm_active (zs_mgr s') = wm_active (zs_mgr s) /\ wm_reauth (zs_mgr s') = wm_reauth (zs_mgr s)
  /\ sent (zs_mgr s') = sent (zs_mgr s).

#[global] Instance idle_since_preorder : PreOrder idle_since.
Proof using Type.
  unfold idle_since. split; [by intros s|]. intros a b c (-> & -> & ->) (-> & -> & ->). by split_and!.
Qed.

Lemma on_swaps_idle {A} (m : M SwapEnv A) : m_pres idle_since (on_swaps m).
Proof using Type.
  intros s. destruct (on_swaps m s) as [r s'] eqn:E.
  destruct (on_swaps_run _ _ _ _ E) as (_ & _ & _ & _ & H1 & H2 & H3). by split_and!.
Qed.
Hint Resolve on_swaps_idle : zbag.

Lemma idle_then {A} (m : M SwapEnv A) s s1 r s2 : idle_since s s1 -> on_swaps m s1 = (r, s2) -> idle_since s s2.
Proof using Type.
  intros H E. etransitivity; [exact H|]. pose proof (on_swaps_idle m s1) as Hm. by rewrite E in Hm.
Qed.

Ltac step_idle s1 :=
  rewrite m_bind_eq;
  match goal with I : idle_since ?s0 ?s |- context [on_swaps ?m ?s] =>
    let E := fresh "E" in destruct (on_swaps m s) as [[?x|?x] s1] eqn:E;
    apply (idle_then _ _ _ _ _ I) in E as ?I end;
  [|match goal with I : idle_since _ s1, H : forall x, _ = _ -> _ |- _ => exact (H _ (proj2 (proj2 I))) end].

Lemma from_zec_outcome now later id spawned io w allow reauth_token record s :
  let s' := (shell_start_swap_from_zec now later id spawned io w allow reauth_token record s).2 in
  sent (zs_mgr s') = sent (zs_mgr s) \/ deposit_made io id record allow reauth_token s s'.
Proof using Type.
  intros s'. pattern s'. match goal with |- ?Q s' => set (P := Q) end. subst s'.
  assert (forall x, sent (zs_mgr x) = sent (zs_mgr s) -> P x) as Hidle by (intros x Hx; by left).
  unfold shell_start_swap_from_zec. destruct allow; [change (negb true) with false; cbv iota|by apply Hidle].
  destruct reauth_token as [token|]; [|by apply Hidle]. destruct (is_empty (trim token)); [by apply Hidle|].
  rewrite m_bind_eq. destruct (sq_deposit_address (q_quote record)) as [addr|] eqn:Ea; [|by apply Hidle].
  unfold m_lift at 1. simpl ok_or. cbv beta iota. assert (idle_since s s) as I0 by by split_and!.
  step_idle s1. step_idle s2. rewrite m_bind_eq. unfold m_lift at 1.
  destruct (find_first _ _) as [account|]; [|apply Hidle, I2]. simpl ok_or. cbv beta iota zeta. step_idle s3.
  destruct x1, I3 as (A3 & T3 & S3). pose proof (inserted_on_record _ _ _ _ _ _ _ E1) as R3. clear E E0 E1.
  rewrite m_bind_eq.
  pose proof (framed_followed id addr record _ (framed_emit true (new_swap id record addr SwapState.Draft now)) s3) as F4.
  destruct (on_swaps (emit_swap true _) s3) as [[u|e] s4] eqn:E4; [|done]. simpl in F4.
  destruct F4 as [A4 T4 S4 R4]. specialize (R4 R3). rewrite m_bind_eq. unfold m_try.
  set (snd_ := send_zec _ _ _ _ _ _ _).
  pose proof (send_zec_authorised io (ai_id account) addr (sq_input_amount (q_quote record))
    (sw_deposit_memo (new_swap id record addr SwapState.Draft now)) true token (zs_mgr s4)) as Hs.
  pose proof (send_zec_keeps io (ai_id account) addr (sq_input_amount (q_quote record))
    (sw_deposit_memo (new_swap id record addr SwapState.Draft now)) true token (zs_mgr s4)) as [_ Hk].
  fold snd_ in Hs, Hk. unfold on_wallet, m_zoom. destruct (snd_ (zs_mgr s4)) as [r mgr5]. simpl in Hs, Hk |- *.
  set (s5 := mkSwapShell _ _ _ _). assert (on_record id addr record (zs_db s5)) as R5.
  { revert R4. apply on_record_swaps. exact (eg_swaps _ _ Hk). }
  assert (forall out, followed id addr record s5 out -> P out) as Hout.
  { intros out [A6 T6 S6 R6]. change (zs_mgr s5) with mgr5 in *.
    destruct Hs as [Hs|(a & resp & mgr' & Ha & Hu & Hacc & Hprep)]; [apply Hidle; by rewrite S6, Hs, S4|].
    right. exists a, addr, token. split; [by rewrite <- A3, <- A4|]. do 4 (split; [done|]).
    split; [|split; [auto|by exists (ai_id account), (zs_mgr s4), resp, mgr']].
    unfold accepted in *. rewrite T6. by rewrite T4, T3 in Hacc. }
  destruct r as [txid|err]; apply Hout; [apply deposit_sent_followed|apply deposit_failed_followed].
Qed.

(** C21. A swap pays its deposit only as the owner asked.  Over the whole
    desktop stack, whatever the database, the disk, the network and the 1Click
    API answer: when one [zbag_start_swap] has sent a transaction, the active
    wallet was unlocked and on Mainnet, the quote was an unexpired one for a
    swap from ZEC of this wallet, the transparent interaction was
    acknowledged, a live token for spending of this wallet was given and is
    used up now, the send was prepared for the quoted amount to the quoted
    address, and the swap with that address is on record. *)
Theorem swap_deposit_authorised (schema_version now later : Z) (id : Uuid) (spawned : bool) (io : DepositIo)
    (quote_id : string) (allow : bool) (reauth_token : option string) (s : SwapShell) :
  let s' := (zbag_start_swap schema_version now later id spawned io quote_id allow reauth_token s).2 in
  sent (zs_mgr s') = sent (zs_mgr s)
  \/ exists a record,
       wm_active (zs_mgr s) = Some a /\ wi_network (aw_wallet a) = Network.Mainnet
       /\ ss_quotes (zs_svc s) !! quote_id = Some record /\ q_wallet_id record = wi_id (aw_wallet a)
       /\ (sq_deadline (q_quote record) <= 0 \/ now < sq_deadline (q_quote record))
       /\ in_swap_type (q_intent record) = SwapType.FromZec
       /\ deposit_made io id record allow reauth_token s s'.
Proof using Type.
  intros s'. pattern s'. match goal with |- ?Q s' => set (P := Q) end. subst s'.
  assert (forall x, idle_since s x -> P x) as Hidle by (intros x (_ & _ & Hx); by left).
  assert (idle_since s s) as I0 by by split_and!.
  unfold zbag_start_swap, swap_command. destruct (ensure_schema_version schema_version) as [u|e]; [|by apply Hidle].
  unfold active_wallet_info. destruct (wm_active (zs_mgr s)) as [a|] eqn:Ea; [|by apply Hidle]. simpl fmap.
  cbv beta iota. unfold shell_start_swap. destruct (bool_decide (wi_network (aw_wallet a) = Network.Testnet)) eqn:En;
    [by apply Hidle|]. rewrite m_bind_eq.
  pose proof (take_quote_cases now (wi_id (aw_wallet a)) quote_id (swap_env s)) as Hq.
  destruct (on_swaps (in_svc (take_quote now (wi_id (aw_wallet a)) quote_id)) s) as [[record|e] s1] eqn:E;
    pose proof (idle_then _ _ _ _ _ I0 E) as I1; [|by apply Hidle].
  destruct (on_swaps_run _ _ _ _ E) as (e' & Em & Hdb & Hsvc & A1 & T1 & S1). rewrite Em in Hq.
  destruct Hq as (-> & Hl & Hw & Hdl). destruct (bool_decide (in_swap_type _ = SwapType.FromZec)) eqn:Et; breflect.
  - pose proof (from_zec_outcome now later id spawned io (wi_id (aw_wallet a)) allow reauth_token record s1) as Ho.
    simpl in Ho. destruct Ho as [Ho|(a' & addr & token & Ha & Hu & Had & Hal & Hr & Hacc & Hrec & Hprep)].
    + left. simpl. by rewrite Ho.
    + right. exists a, record. split; [done|]. split; [by destruct (wi_network (aw_wallet a))|]. do 4 (split; [done|]).
      exists a', addr, token. rewrite <- A1. do 5 (split; [done|]). split; [|by split].
      unfold accepted in *. by rewrite T1 in Hacc.
  - apply Hidle. destruct (sq_deposit_address (q_quote record)) as [addr|]; [|done].
    etransitivity; [exact I1|]. simpl snd. match goal with |- idle_since s1 (?m s1).2 =>
      assert (m_pres idle_since m) as Hm by m_pres_auto; exact (Hm s1) end.
Qed.
End ShellServices.

(** ** A deposit that goes through *)

Definition demo_owner : WM :=
  ((restore_wallet (KS := demo_key_store) "/wallets" (fun _ => None) demo_draws "Main" Network.Mainnet "correct horse"
      (join " " demo_words) None ;;
    reauth_wallet 5 "t1" "w1" "correct horse" ReauthPurpose.Spend) demo_start).2.

Definition demo_deposit_quote : QuoteRecord :=
  mkQuoteRecord "w1" (demo_intent SwapType.FromZec)
    (mkSwapQuote "nep141:zec.omft.near" "150000" "0.0015" "nep141:eth.omft.near" "1" "0.01" "1" 9000 60
       (Some "u1dest") None "corr1" None).

Definition demo_swap_shell : SwapShell :=
  mkSwapShell (mkAppState demo_owner world0 (init_world (mkTorState false TorStatus.Off None)))
    (mkSwapSvc {["corr1" := demo_deposit_quote]} ∅ ∅ ∅ None) [] [].

Definition demo_deposit_io : DepositIo := mkDepositIo demo_send_io demo_max_money 6 "p1" 7 8 8.

Definition demo_start_swap (id : Uuid) (reauth_token : option string) : SwapCommand SwapInfo :=
  zbag_start_swap (KS := demo_key_store) (fun _ => None) (fun _ => "") (fun q => q) (fun _ _ _ => Some (Ok tt))
    (fun _ => "nonce") (fun _ => 0%Q) demo_parse true (Some "https://zec.rocks") 1
    6 7 id true demo_deposit_io "corr1" true
    reauth_token.

(** The deposit is sent and the swap waits for the provider; without the
    token, or with a token that was used, nothing is sent; with a new token
    the same quote is paid a second time. *)
Example deposit_demo :
  let '(r, s) := demo_start_swap "s1" (Some "t1") demo_swap_shell in
  let again token := demo_start_swap "s2" (Some token) s in
  let s2 := (on_wallet (reauth_wallet 9 "t2" "w1" "correct horse" ReauthPurpose.Spend) s).2 in
  (exists swap, r = IpcOk swap /\ sw_state swap = SwapState.Pending)
  /\ sent (zs_mgr s) = ["https://zec.rocks"; "https://zec.rocks"] /\ zs_submitted s = [("aa", "u1dest")]
  /\ sent (zs_mgr (demo_start_swap "s1" None demo_swap_shell).2) = []
  /\ sent (zs_mgr (again "t1").2) = sent (zs_mgr s)
  /\ sent (zs_mgr (demo_start_swap "s2" (Some "t2") s2).2) = sent (zs_mgr s) ++ sent (zs_mgr s).
Proof. vm_compute. split_and!; try reflexivity. eexists. by split. Qed.
