(* ===== verification/CliWallet.v ===== *)
(** The commands of the command-line tool on wallets ([zbag-cli/src]:
    [cli_app_state.rs], [password.rs], [commands/*.rs] other than
    [server.rs], the dispatch of [main.rs]).

    Each command is a process of its own: [app_state_new] builds its state
    from the disk and the database, and all that a command leaves behind is
    there.  The terminal is two scripts of answers, one for the passwords
    read from the terminal and one for the lines of standard input, and the
    list of what was printed; an item is the call of [OutputMode] and not its
    text.  Writing to the terminal does not fail.  The opening of the
    application database is one statement ([Migrations] has it in detail). *)
From S2P Require Import Prelude Text Domain AppDb Reauth Broadcast Servers BroadcastQueue Jobs.
From S2P Require Import Sends Shielding Encryption KeyStore Addresses Float64 SyncPipeline SyncService WalletManager Tor NetClients Shell.
From Stdlib Require Import QArith.
Open Scope Z_scope.
#[local] Open Scope list_scope.

(** ** The terminal *)

Inductive Printed :=
| Asked (prompt : string)
| Message (msg : string)
| WalletList (wallets : list WalletInfo)
| WalletDetails (wallet : WalletInfo)
| WalletCreated (wallet : WalletInfo) (seed_phrase : list string)
| WalletRestored (wallet : WalletInfo) (birthday_height : Z)
| SeedPhrase (wallet_name : string) (seed_phrase : list string)
| BalanceOf (balance : Balance) (wallet_name : string)
| AddressOf (address address_type : string)
| Summary (summary : TransactionSummary)
| Transactions (transactions : list TransactionInfo) (total_count : Z)
| TxSent (txid : string)
| Challenge (challenge : BackupChallenge)
| BackupVerified
| BackupFailed (e : error)
| SyncProgressed (progress : SyncProgress)
| SyncComplete.

Record Console := mkConsole {
  co_tty : list (string + string);
  co_stdin : list (string + string);
  co_out : list Printed;
}.

Definition say (p : Printed) : M Console unit :=
  m_modify (fun c => mkConsole (co_tty c) (co_stdin c) (co_out c ++ [p])).

(** [rpassword::read_password]: an error or a line without its end; a script
    that has run out is the end of the input. *)
Definition read_password : M Console string :=
  c ← m_get;
  match co_tty c with
  | [] => m_err (AnyhowMsg "unexpected end of file")
  | answer :: rest =>
      m_put (mkConsole rest (co_stdin c) (co_out c)) ;;
      match answer with inr line => mret line | inl e => m_err (AnyhowMsg e) end
  end.

(** [Stdin::read_line]: nothing is appended at the end of the input. *)
Definition read_line : M Console string :=
  c ← m_get;
  match co_stdin c with
  | [] => mret ""
  | answer :: rest =>
      m_put (mkConsole (co_tty c) rest (co_out c)) ;;
      match answer with inr line => mret line | inl e => m_err (AnyhowMsg e) end
  end.

(** ** Passwords and seed phrases ([password.rs]) *)

Definition password_empty : error := AnyhowMsg "password cannot be empty".

Definition wrap_password_arg (password : option string) : result (option string) :=
  match password with
  | Some p => if is_empty p then Err password_empty else Ok (Some p)
  | None => Ok None
  end.

Definition get_password (provided : option string) (prompt : string) : M Console string :=
  match provided with
  | Some p => if is_empty p then m_err password_empty else mret p
  | None => say (Asked prompt) ;; m_context "failed to read password" read_password
  end.

Definition get_password_with_confirm (provided : option string) : M Console string :=
  match provided with
  | Some p => if is_empty p then m_err password_empty else mret p
  | None =>
      say (Asked "Password: ") ;;
      password ← m_context "failed to read password" read_password;
      if is_empty password then m_err password_empty else
      say (Asked "Confirm password: ") ;;
      confirm_password ← m_context "failed to read confirmation" read_password;
      if negb (bool_decide (password = confirm_password)) then m_err (AnyhowMsg "passwords do not match")
      else mret password
  end.

Definition validate_seed_phrase (phrase : string) : result unit :=
  let word_count := length (split_whitespace phrase) in
  if negb (word_count =? 24)%nat
  then Err (AnyhowMsg ("seed phrase must be 24 words (got " +:+ uint_to_string (Z.of_nat word_count) +:+ ")"))
  else Ok tt.

Definition get_seed_phrase (provided : option string) : M Console string :=
  phrase ← (match provided with
            | Some phrase => mret (trim phrase)
            | None =>
                say (Asked "Enter your 24-word seed phrase (words separated by spaces):") ;;
                raw_phrase ← read_line;
                mret (trim raw_phrase)
            end);
  m_lift (validate_seed_phrase phrase) ;;
  mret phrase.

Definition confirm_action (message : string) : M Console bool :=
  say (Asked (message +:+ " [y/N]: ")) ;;
  response ← read_line;
  mret (bool_decide (to_lowercase (trim response) = "y")).

(** [prompt_word] of [backup.rs]. *)
Definition prompt_word (index : Z) : M Console string :=
  say (Asked ("  Word #" +:+ uint_to_string index +:+ ": ")) ;;
  raw_word ← read_line;
  let word := trim raw_word in
  if is_empty word then m_err (AnyhowMsg "word cannot be empty") else mret word.

(** ** The state of a process ([cli_app_state.rs]) *)

(** [cl_tor]: whether there is a Tor manager, the one of [cl_app]. *)
Record Cli := mkCli {
  cl_app : AppState;
  cl_tor : bool;
  cl_console : Console;
}.

Definition cl_set_app (a : AppState) (c : Cli) : Cli := mkCli a (cl_tor c) (cl_console c).
Definition cl_set_console (o : Console) (c : Cli) : Cli := mkCli (cl_app c) (cl_tor c) o.

Definition on_app {A} (m : M AppState A) : M Cli A := m_zoom cl_app cl_set_app m.
Definition on_wm {A} (m : M WM A) : M Cli A := on_app (on_mgr m).
Definition on_console {A} (m : M Console A) : M Cli A := m_zoom cl_console cl_set_console m.
Definition print (p : Printed) : M Cli unit := on_console (say p).

Definition cl_mgr (c : Cli) : WM := as_mgr (cl_app c).
Definition cl_sync (c : Cli) : SyncWorld := as_sync (cl_app c).

(** What the clients of the process read of its Tor manager. *)
Definition cl_transport (c : Cli) : TransportError + SelectedTransport :=
  select (if cl_tor c then Some (tw_mgr (as_tor (cl_app c)), tw_mgr (as_tor (cl_app c))) else None).

(** [WalletManager::new_with_wallets_root] and [TxService::new] over the disk
    and the database. *)
Definition manager_new (s : WM) : WM :=
  mkWM (mkTxEnv ∅ ∅ (mkRetryEnv (q_set_mem (wm_queue s) ∅) (wm_db s) [] [])) None ∅
    (new_service (wm_queue s)) ∅ ∅ ∅ ∅ ∅ false false.

Definition network_dir_name (network : Network) : string :=
  match network with Network.Mainnet => "mainnet" | Network.Testnet => "testnet" end.

(** The clocks and fresh names of a command, in the order of their use. *)
Record Session := mkSession {
  se_load : Z;
  se_load_ms : Z;
  se_unlock : Z;
  se_prepare : Z;
  se_proposal_id : string;
  se_reauth : Z;
  se_token : string;
  se_consume : Z;
  se_execute : Z;
  se_execute_ms : Z;
}.

(** A sleep of the sync command: what the tasks do during it, and the clock after it. *)
Record Tick := mkTick { tk_acts : list WorldAct; tk_now : Z }.

Section Cli.
Context `{C : Crypto} `{KS : KeyStore} `{WL : WalletLib}.
Context (wallets_root : string) (from_slice : string -> option QueuedBroadcastMeta)
        (url_parse : string -> Url + ParseError) (debug : bool) (env_var : option string)
        (to_vec_pretty : QueuedBroadcastMeta -> string) (fl : Q -> Q)
        (send : nat -> string -> string -> option (result unit))
        (nonce : string -> string) (offset_ms : string -> Q) (exp : f64 -> f64)
        (schedules : WorldAct -> SyncWorld -> bool).
(** [NaiveDate::parse_from_str] with [%Y-%m-%d]: the days since 1970. *)
Context (parse_date : string -> option Z).

Definition app_state_new (enable_tor : bool) : M Cli unit :=
  on_wm (on_disk (create_dir_all_secure wallets_root)) ;;
  on_wm (on_app_db db_stmt) ;;
  m_modify (fun c => cl_set_app (mkAppState (manager_new (cl_mgr c)) world0 (as_tor (cl_app c))) c) ;;
  if enable_tor then
    tor_state ← on_wm (on_app_db get_tor_state);
    m_modify (fun c => mkCli (as_set_tor (init_world tor_state) (cl_app c)) true (cl_console c))
  else m_modify (fun c => mkCli (cl_app c) false (cl_console c)).

Definition cli_list_wallets : M Cli (list WalletInfo) := on_wm list_wallets_api.

Definition cli_load_wallet (se : Session) (wallet_id : Uuid) : M Cli (WalletInfo * bool) :=
  '(info, lock_status) ← on_wm (load_wallet wallets_root from_slice (se_load se) (se_load_ms se) wallet_id);
  mret (info, bool_decide (lock_status = WalletLockStatus.Unlocked)).

Definition cli_unlock_wallet (se : Session) (wallet_id : Uuid) (password : string) : M Cli unit :=
  on_wm (unlock_wallet wallets_root from_slice (se_unlock se) wallet_id password) ;;
  mret tt.

Definition cli_lock_wallet (wallet_id : Uuid) : M Cli unit :=
  on_wm (lock_wallet wallet_id) ;; mret tt.

Definition prefix_matches (prefix : string) (w : WalletInfo) : bool :=
  starts_with (to_lowercase (wi_id w)) (to_lowercase prefix).

Definition find_wallet_by_prefix (prefix : string) : M Cli (option WalletInfo) :=
  wallets ← cli_list_wallets;
  match List.filter (prefix_matches prefix) wallets with
  | [] => mret None
  | [w] => mret (Some w)
  | matches =>
      m_err (AnyhowMsg ("ambiguous wallet ID prefix '" +:+ prefix +:+ "' matches "
                        +:+ uint_to_string (Z.of_nat (length matches)) +:+ " wallets"))
  end.

Definition get_wallet_by_prefix (prefix : string) : M Cli WalletInfo :=
  found ← find_wallet_by_prefix prefix;
  m_lift (ok_or found (AnyhowMsg ("wallet not found: " +:+ prefix))).

(** The wallet a command means; [how] is how its message says to name one. *)
Definition choose_wallet (how : string) (wallet : option string) : M Cli WalletInfo :=
  match wallet with
  | Some prefix => get_wallet_by_prefix prefix
  | None =>
      wallets ← cli_list_wallets;
      match wallets with
      | [] => m_err (AnyhowMsg "no wallets found - create one with: zbag wallet create --name <NAME>")
      | [w] => mret w
      | _ => m_err (AnyhowMsg ("multiple wallets found - specify one with" +:+ how +:+ " --wallet <ID>"))
      end
  end.

(** *** Unlocking *)

(** [load_wallet] and [unlock_if_needed] of [tx.rs]: the password that was typed. *)
Definition tx_load_wallet (se : Session) (wallet_prefix : option string) : M Cli (WalletInfo * bool) :=
  wallet_info ← choose_wallet "" wallet_prefix;
  '(_, unlocked) ← cli_load_wallet se (wi_id wallet_info);
  mret (wallet_info, unlocked).

Definition unlock_if_needed (se : Session) (wallet_id : Uuid) (unlocked : bool) (provided_password : option string)
    : M Cli (option string) :=
  if unlocked then mret None else
  match provided_password with
  | Some p => cli_unlock_wallet se wallet_id p ;; mret None
  | None =>
      password ← on_console (get_password None "Password: ");
      cli_unlock_wallet se wallet_id password ;;
      mret (Some password)
  end.

(** The same in the other commands, which take the provided password. *)
Definition password_or_prompt (provided_password : option string) (prompt : string) : M Cli string :=
  match provided_password with
  | Some p => mret p
  | None => on_console (get_password None prompt)
  end.

Definition load_unlocked (se : Session) (wallet_info : WalletInfo) (provided_password : option string)
    : M Cli WalletInfo :=
  '(info, unlocked) ← cli_load_wallet se (wi_id wallet_info);
  (if (unlocked : bool) then mret tt else
   password ← password_or_prompt provided_password "Password: ";
   cli_unlock_wallet se (wi_id wallet_info) password) ;;
  mret info.

(** The token of a spend, for the password that is at hand or asked for now. *)
Definition reauth_to_spend (se : Session) (wallet_id : Uuid) (provided_password unlock_password : option string)
    : M Cli string :=
  reauth_password ← match provided_password, unlock_password with
                    | Some p, _ => mret p
                    | None, Some p => mret p
                    | None, None => on_console (get_password None "Password: ")
                    end;
  '(token, _) ← on_wm (reauth_wallet (se_reauth se) (se_token se) wallet_id reauth_password ReauthPurpose.Spend);
  mret token.

(** ** Transactions ([tx.rs]) *)

Definition cli_send (json enable_tor : bool) (se : Session) (io : SendIo) (max_money : Z) (account_id : Z)
    (to amount : string) (memo : option string) (allow_transparent : bool) (wallet password : option string)
    (yes : bool) : M Cli unit :=
  provided_password ← m_lift (wrap_password_arg password);
  app_state_new enable_tor ;;
  '(wallet_info, unlocked) ← tx_load_wallet se wallet;
  unlock_password ← unlock_if_needed se (wi_id wallet_info) unlocked provided_password;
  prepare_response ← on_wm (wm_prepare_send max_money io (se_prepare se) (se_proposal_id se) account_id to amount
                              memo allow_transparent);
  confirmed ← (if negb json && negb yes
               then print (Summary (psr_summary prepare_response)) ;;
                    on_console (confirm_action "Send this transaction?")
               else mret true);
  if negb confirmed then print (Message "Transaction cancelled") else
  reauth_token ← reauth_to_spend se (wi_id wallet_info) provided_password unlock_password;
  '(ctx, spending_key) ← on_wm (prepare_confirm_send url_parse debug env_var (se_consume se)
                                  (psr_proposal_id prepare_response) reauth_token);
  on_wm (on_disk (open_wallet_db_for_tx ctx)) ;;
  txid ← on_wm (on_tx (confirm_send to_vec_pretty from_slice aead_encrypt fl send nonce offset_ms io
                         (se_execute se) (se_execute_ms se) (oc_wallet_id ctx) (oc_wallet_dir ctx) (oc_dek ctx)
                         (oc_grpc_url ctx) (psr_proposal_id prepare_response) false));
  print (TxSent txid).

Definition cli_shield (enable_tor : bool) (se : Session) (io : ShieldIo) (account_id : Z)
    (wallet password : option string) : M Cli unit :=
  provided_password ← m_lift (wrap_password_arg password);
  app_state_new enable_tor ;;
  '(wallet_info, unlocked) ← tx_load_wallet se wallet;
  unlock_password ← unlock_if_needed se (wi_id wallet_info) unlocked provided_password;
  reauth_token ← reauth_to_spend se (wi_id wallet_info) provided_password unlock_password;
  '(ctx, spending_key) ← on_wm (prepare_shield_funds url_parse debug env_var (se_consume se) account_id reauth_token);
  on_wm (on_disk (open_wallet_db_for_tx ctx)) ;;
  response ← on_wm (on_tx (shield_funds to_vec_pretty from_slice aead_encrypt fl send nonce offset_ms io
                             (se_execute se) (se_execute_ms se) (oc_wallet_id ctx) (oc_wallet_dir ctx) (oc_dek ctx)
                             (oc_grpc_url ctx) account_id false));
  match response with
  | Some response => print (TxSent (sr_txid response))
  | None => mret tt
  end.

Definition cli_list_transactions (se : Session) (txid_display : string -> string)
    (memo_rows : string -> list string) (memo_parse : string -> option Memo) (io : SendIo)
    (rows : string -> list ViewRow) (chain_height : option Z) (account_id : Z) (limit offset : nat)
    (wallet password : option string) : M Cli unit :=
  provided_password ← m_lift (wrap_password_arg password);
  app_state_new false ;;
  '(wallet_info, unlocked) ← tx_load_wallet se wallet;
  unlock_if_needed se (wi_id wallet_info) unlocked provided_password ;;
  '(transactions, total_count) ←
    on_wm (wm_list_transactions from_slice txid_display memo_rows memo_parse io rows chain_height
             (se_execute se) (se_execute_ms se) account_id limit offset);
  print (Transactions transactions total_count).

Definition cli_retry (enable_tor : bool) (se : Session) (io : RetryIo) (txid : string)
    (wallet password : option string) : M Cli unit :=
  provided_password ← m_lift (wrap_password_arg password);
  app_state_new enable_tor ;;
  '(wallet_info, unlocked) ← tx_load_wallet se wallet;
  unlock_password ← unlock_if_needed se (wi_id wallet_info) unlocked provided_password;
  reauth_token ← reauth_to_spend se (wi_id wallet_info) provided_password unlock_password;
  task ← on_wm (prepare_retry_broadcast_task url_parse debug env_var (se_consume se) txid reauth_token);
  c ← m_get;
  m_lift (validate_retry_broadcast_task task (cl_mgr c)) ;;
  result_txid ← on_wm (on_tx (execute_prepared_retry_broadcast_task from_slice url_parse debug to_vec_pretty fl send
                                io task false false));
  print (TxSent result_txid).

(** ** Wallets ([commands/wallet.rs]) *)

(** [tip]: the answer of the server at a URL. *)
Definition cli_create_wallet (enable_tor : bool) (tip : string -> string + Z) (d : Draws) (name : string)
    (network : Network) (password : option string) : M Cli unit :=
  provided_password ← m_lift (wrap_password_arg password);
  app_state_new enable_tor ;;
  grpc_url ← on_wm (on_app_db (resolve_grpc_url url_parse debug network env_var));
  let birthday := fetch_birthday_height_for_new_wallet (tip grpc_url) in
  password ← match provided_password with
             | Some p => mret p
             | None => on_console (get_password_with_confirm None)
             end;
  result ← on_wm (create_wallet wallets_root from_slice d name network password birthday);
  print (WalletCreated (cw_wallet result) (cw_seed_phrase result)).

Definition parse_birthday_date (date_str : string) : result Z :=
  match parse_date date_str with
  | None => Err (AnyhowMsg "invalid date format, expected YYYY-MM-DD")
  | Some days => Ok (days * 86400000)
  end.

Definition cli_restore_wallet (enable_tor : bool) (d : Draws) (name : string) (network : Network)
    (password seed birthday : option string) : M Cli unit :=
  provided_password ← m_lift (wrap_password_arg password);
  app_state_new enable_tor ;;
  password ← match provided_password with
             | Some p => mret p
             | None => on_console (get_password_with_confirm None)
             end;
  seed_phrase ← on_console (get_seed_phrase seed);
  birthday_ms ← match birthday with
                | Some b => ms ← m_lift (parse_birthday_date b); mret (Some ms)
                | None => mret None
                end;
  '(wallet, birthday_height) ← on_wm (restore_wallet wallets_root from_slice d name network password seed_phrase
                                        birthday_ms);
  print (WalletRestored wallet birthday_height).

Definition cli_wallet_list : M Cli unit :=
  app_state_new false ;;
  wallets ← cli_list_wallets;
  print (WalletList wallets).

Definition cli_wallet_show (wallet : string) : M Cli unit :=
  app_state_new false ;;
  wallet_info ← get_wallet_by_prefix wallet;
  print (WalletDetails wallet_info).

Definition cli_wallet_unlock (se : Session) (wallet : string) (password : option string) : M Cli unit :=
  provided_password ← m_lift (wrap_password_arg password);
  app_state_new false ;;
  wallet_info ← get_wallet_by_prefix wallet;
  '(_, already_unlocked) ← cli_load_wallet se (wi_id wallet_info);
  if (already_unlocked : bool) then print (Message ("Wallet '" +:+ wi_name wallet_info +:+ "' is already unlocked")) else
  password ← password_or_prompt provided_password "Password: ";
  cli_unlock_wallet se (wi_id wallet_info) password ;;
  print (Message ("Wallet '" +:+ wi_name wallet_info +:+ "' unlocked")).

Definition cli_wallet_lock (wallet : string) : M Cli unit :=
  app_state_new false ;;
  wallet_info ← get_wallet_by_prefix wallet;
  cli_lock_wallet (wi_id wallet_info) ;;
  print (Message ("Wallet '" +:+ wi_name wallet_info +:+ "' locked")).

(** ** Addresses, balances, seed phrases *)

Definition address_type_text (address_type : AddressType) : string :=
  match address_type with
  | AddressType.ShieldedOnly => "Shielded"
  | AddressType.Transparent => "Transparent"
  end.

Definition cli_address (se : Session) (io : AddressIo) (account_id : Z) (address_type : AddressType)
    (wallet password : option string) : M Cli unit :=
  provided_password ← m_lift (wrap_password_arg password);
  app_state_new false ;;
  wallet_info ← choose_wallet (": zbag address " +:+ uint_to_string account_id) wallet;
  load_unlocked se wallet_info provided_password ;;
  address_info ← on_wm (wm_get_receive_address io account_id address_type (se_execute_ms se));
  print (AddressOf (ad_encoded address_info) (address_type_text (ad_address_type address_info))).

Definition cli_balance (se : Session) (io : SendIo) (account_id : Z) (wallet password : option string)
    : M Cli unit :=
  provided_password ← m_lift (wrap_password_arg password);
  app_state_new false ;;
  wallet_info ← choose_wallet (": zbag balance " +:+ uint_to_string account_id) wallet;
  load_unlocked se wallet_info provided_password ;;
  balance ← on_wm (wm_get_balance io account_id);
  print (BalanceOf balance (wi_name wallet_info)).

(** The password of a seed phrase is asked for also when the wallet is unlocked. *)
Definition cli_seed (se : Session) (wallet password : option string) : M Cli unit :=
  provided_password ← m_lift (wrap_password_arg password);
  app_state_new false ;;
  wallet_info ← choose_wallet ": zbag seed" wallet;
  '(_, unlocked) ← cli_load_wallet se (wi_id wallet_info);
  reauth_password ← (if (unlocked : bool)
                     then password_or_prompt provided_password "Re-enter password to view seed phrase: "
                     else pwd ← password_or_prompt provided_password "Password: ";
                          cli_unlock_wallet se (wi_id wallet_info) pwd ;;
                          mret pwd);
  '(token, _) ← on_wm (reauth_wallet (se_reauth se) (se_token se) (wi_id wallet_info) reauth_password
                         ReauthPurpose.ViewSeedPhrase);
  seed_phrase ← on_wm (view_seed_phrase (se_consume se) (wi_id wallet_info) token);
  print (SeedPhrase (wi_name wallet_info) seed_phrase).

(** ** Backups ([backup.rs]) *)

(** The words of a phrase at the indices of a challenge, which count from 1. *)
Fixpoint words_at (words : list string) (indices : list Z) (word_map : gmap Z string) : result (gmap Z string) :=
  match indices with
  | [] => Ok word_map
  | index :: indices' =>
      let word_idx := Z.to_nat (Z.max 0 (index - 1)) in
      match words !! word_idx with
      | None => Err (AnyhowMsg ("invalid index " +:+ uint_to_string index +:+ " for 24-word seed"))
      | Some word => words_at words indices' (<[index := word]> word_map)
      end
  end.

Definition challenge_words (seed_phrase : string) (indices : list Z) : result (gmap Z string) :=
  let words := split_whitespace seed_phrase in
  if negb (length words =? 24)%nat
  then Err (AnyhowMsg ("seed phrase must be 24 words, got " +:+ uint_to_string (Z.of_nat (length words))))
  else words_at words indices ∅.

(** The outcome is printed and returned. *)
Definition verify_and_report (now_ms : Z) (wallet_id : Uuid) (challenge_id : string) (word_map : gmap Z string)
    : M Cli unit :=
  result ← m_try (on_wm (verify_backup now_ms wallet_id challenge_id word_map));
  print (match result with Ok _ => BackupVerified | Err e => BackupFailed e end) ;;
  m_lift result.

Definition run_verify (json : bool) (se : Session) (d : ChallengeDraw) (wallet_prefix : string)
    (password seed : option string) : M Cli unit :=
  provided_password ← m_lift (wrap_password_arg password);
  app_state_new false ;;
  wallet_info ← get_wallet_by_prefix wallet_prefix;
  load_unlocked se wallet_info provided_password ;;
  challenge ← on_wm (get_backup_challenge d (wi_id wallet_info));
  match seed with
  | Some seed_phrase =>
      word_map ← m_lift (challenge_words seed_phrase (ch_indices challenge));
      verify_and_report (se_execute_ms se) (wi_id wallet_info) (ch_challenge_id challenge) word_map
  | None =>
      if json then print (Challenge challenge) else
      word_map ← m_fold (fun word_map index => word ← on_console (prompt_word index); mret (<[index := word]> word_map))
                   ∅ (ch_indices challenge);
      verify_and_report (se_execute_ms se) (wi_id wallet_info) (ch_challenge_id challenge) word_map
  end.

(** ** Synchronisation ([commands/sync.rs]) *)

Definition poll_progress (now : Z) (wallet_id : Uuid) (w : SyncWorld) : SyncProgress * SyncWorld :=
  let '(progress, s) := SyncService.get_progress exp now wallet_id (wo_state w) in
  (progress, with_sync_state (fun _ => s) w).

Definition idle_at (percent_ok : Z -> bool) (p : SyncProgress) : bool :=
  bool_decide (sp_phase p = SyncPhase.Idle) && percent_ok (sp_progress_percent p).

Definition sync_complete : SyncProgress -> bool := idle_at (fun percent => 100 <=? percent).
Definition sync_not_running : SyncProgress -> bool := idle_at (fun percent => percent =? 0).

Definition sleep (t : Tick) (w : SyncWorld) : SyncWorld :=
  run_enabled exp schedules (List.filter task_act (tk_acts t)) w.

(** The polling loop, while the process is left running for the sleeps
    [ticks]: whether it has ended. *)
Fixpoint wait_for_sync (wallet_id : Uuid) (ticks : list Tick) (now : Z) (w : SyncWorld) : bool * SyncWorld :=
  let '(progress, w) := poll_progress now wallet_id w in
  if sync_complete progress then (true, w) else
  match ticks with
  | [] => (false, w)
  | t :: ticks1 =>
      let w := sleep t w in
      if sync_not_running progress then
        let '(progress_after, w) := poll_progress (tk_now t) wallet_id w in
        if sync_not_running progress_after then (true, w) else
        match ticks1 with
        | [] => (false, w)
        | t' :: ticks2 => wait_for_sync wallet_id ticks2 (tk_now t') (sleep t' w)
        end
      else wait_for_sync wallet_id ticks1 (tk_now t) w
  end.

Definition progress_of (e : Event) : option SyncProgress :=
  match e with SyncProgressEvent p => Some p | _ => None end.

(** What the progress handler has printed, in JSON mode. *)
Definition print_progress (json : bool) (events : list Event) : M Cli unit :=
  if json then m_fold (fun _ p => print (SyncProgressed p)) tt (omap progress_of events) else mret tt.

Definition cli_sync (json enable_tor : bool) (se : Session) (io : StartIo) (ticks : list Tick) (now : Z)
    (wallet : string) (password : option string) : M Cli unit :=
  provided_password ← m_lift (wrap_password_arg password);
  app_state_new enable_tor ;;
  wallet_info ← get_wallet_by_prefix wallet;
  info ← load_unlocked se wallet_info provided_password;
  c ← m_get;
  dek ← m_lift (unlocked_wallet_dek (wi_id wallet_info) (cl_mgr c));
  account_ids ← on_wm (list_wallet_db_account_ids (wi_id wallet_info));
  started ← m_try (on_app (start_sync url_parse debug env_var exp schedules io (wi_id wallet_info) (wi_network info)));
  c ← m_get;
  match started with Ok _ => mret tt | Err e => print_progress json (wo_events (cl_sync c)) ;; m_err e end ;;
  let '(ended, w) := wait_for_sync (wi_id wallet_info) ticks now (cl_sync c) in
  m_modify (fun c => cl_set_app (as_set_sync w (cl_app c)) c) ;;
  print_progress json (wo_events w) ;;
  if ended then print SyncComplete else mret tt.

(** ** The dispatch ([run_command] of [main.rs]) *)

Inductive CliCommand :=
| WalletCreate (tip : string -> string + Z) (d : Draws) (name : string) (network : Network) (password : option string)
| WalletRestore (d : Draws) (name : string) (network : Network) (password seed birthday : option string)
| WalletListAll
| WalletShow (wallet : string)
| WalletUnlock (se : Session) (wallet : string) (password : option string)
| WalletLock (wallet : string)
| Sync (se : Session) (io : StartIo) (ticks : list Tick) (now : Z) (wallet : string) (password : option string)
| TxSend (se : Session) (io : SendIo) (max_money account_id : Z) (to amount : string) (memo : option string)
    (allow_transparent : bool) (wallet password : option string) (yes : bool)
| TxShield (se : Session) (io : ShieldIo) (account_id : Z) (wallet password : option string)
| TxList (se : Session) (txid_display : string -> string) (memo_rows : string -> list string)
    (memo_parse : string -> option Memo) (io : SendIo) (rows : string -> list ViewRow) (chain_height : option Z)
    (account_id : Z) (limit offset : nat) (wallet password : option string)
| TxRetry (se : Session) (io : RetryIo) (txid : string) (wallet password : option string)
| ShowBalance (se : Session) (io : SendIo) (account_id : Z) (wallet password : option string)
| ReceiveAddress (se : Session) (io : AddressIo) (account_id : Z) (address_type : AddressType)
    (wallet password : option string)
| Seed (se : Session) (wallet password : option string)
| BackupVerify (se : Session) (d : ChallengeDraw) (wallet : string) (password seed : option string).

Definition run_command (data_dir : string) (json tor : bool) (cmd : CliCommand) : M Cli unit :=
  on_wm (on_disk (create_dir_all_secure data_dir)) ;;
  match cmd with
  | WalletCreate tip d name network password => cli_create_wallet tor tip d name network password
  | WalletRestore d name network password seed birthday =>
      cli_restore_wallet tor d name network password seed birthday
  | WalletListAll => cli_wallet_list
  | WalletShow wallet => cli_wallet_show wallet
  | WalletUnlock se wallet password => cli_wallet_unlock se wallet password
  | WalletLock wallet => cli_wallet_lock wallet
  | Sync se io ticks now wallet password => cli_sync json tor se io ticks now wallet password
  | TxSend se io max_money account_id to amount memo allow_transparent wallet password yes =>
      cli_send json tor se io max_money account_id to amount memo allow_transparent wallet password yes
  | TxShield se io account_id wallet password => cli_shield tor se io account_id wallet password
  | TxList se txid_display memo_rows memo_parse io rows chain_height account_id limit offset wallet password =>
      cli_list_transactions se txid_display memo_rows memo_parse io rows chain_height account_id limit offset
        wallet password
  | TxRetry se io txid wallet password => cli_retry tor se io txid wallet password
  | ShowBalance se io account_id wallet password => cli_balance se io account_id wallet password
  | ReceiveAddress se io account_id address_type wallet password =>
      cli_address se io account_id address_type wallet password
  | Seed se wallet password => cli_seed se wallet password
  | BackupVerify se d wallet password seed => run_verify json se d wallet password seed
  end.
End Cli.
