(* ===== verification/CliSafety.v ===== *)
(** What the command-line tool promises ([CliWallet]): nothing of a wallet is
    shown, scanned or spent without its password; a send is confirmed; the
    wallet that is meant is the only one that matches; a wallet that was
    created shows its seed phrase again; how the sync command waits; what
    [--tor] does. *)
From S2P Require Import Prelude Text Domain AppDb Reauth Broadcast Servers BroadcastQueue Jobs.
From S2P Require Import Sends Shielding Encryption KeyStore Addresses Float64 SyncPipeline SyncService WalletManager Tor NetClients Shell.
From S2P Require Import WalletFrames WalletDemo WalletSafety WalletGuards SendSafety CliWallet.
From Stdlib Require Import QArith.
Open Scope Z_scope.
#[local] Open Scope list_scope.

(** ** Before the wallet is open *)

(** The stored keys, and the network of each wallet, are as they were. *)
Definition row_key (r : WalletRow) : Uuid * string := (wr_id r, wr_network r).

Record keys_kept (db db' : AppDb) : Prop := {
  kk_encryption : adb_encryption db' = adb_encryption db;
  kk_wallets : map row_key (adb_wallets db') = map row_key (adb_wallets db);
}.

#[global] Instance keys_kept_preorder : PreOrder keys_kept.
Proof. split; [by intros db|]. intros a b c [] []. split; congruence. Qed.

Lemma keys_kept_same db db' :
  adb_encryption db' = adb_encryption db -> adb_wallets db' = adb_wallets db -> keys_kept db db'.
Proof. intros H1 H2. split; [done|by rewrite H2]. Qed.

Lemma find_first_keys w l l' r' :
  map row_key l' = map row_key l -> find_first (wallet_id_is w) l' = Some r' ->
  exists r, find_first (wallet_id_is w) l = Some r /\ wr_network r = wr_network r'.
Proof.
  revert l. induction l' as [|x l' IH]; intros [|y l] Hm; try done. simpl in *. injection Hm as Hid Hn Hm.
  unfold wallet_id_is in *. rewrite Hid. case_bool_decide; [|by apply IH]. intros [= <-]. eauto.
Qed.

Ltac stmt_keys :=
  intros db; apply keys_kept_same;
  unfold db_require, mbind, M_bind, m_get, m_put, m_modify, m_err, m_lift, mret, M_ret;
  repeat (db_step; match goal with H : _ = Ok tt \/ _ = Err _ |- _ => destruct H as [-> | ->] end);
  repeat case_match; simplify_eq/=; congruence.

Lemma db_stmt_keys : m_pres keys_kept db_stmt.
Proof. intros db. db_step. by apply keys_kept_same. Qed.
Lemma get_tor_state_keys : m_pres keys_kept get_tor_state.
Proof. unfold get_tor_state. stmt_keys. Qed.
Lemma list_wallets_keys : m_pres keys_kept list_wallets.
Proof. unfold list_wallets. stmt_keys. Qed.
Lemma get_wallet_keys w : m_pres keys_kept (get_wallet w).
Proof. unfold get_wallet. stmt_keys. Qed.
Lemma get_backup_required_keys w : m_pres keys_kept (get_backup_required w).
Proof. unfold get_backup_required. stmt_keys. Qed.
Lemma get_wallet_encryption_keys w : m_pres keys_kept (get_wallet_encryption w).
Proof. unfold get_wallet_encryption. stmt_keys. Qed.

Lemma update_wallet_row_keys w f :
  (forall r, row_key (f r) = row_key r) -> m_pres keys_kept (update_wallet_row w f).
Proof.
  intros Hf db. unfold update_wallet_row, mbind, M_bind, m_modify.
  db_step. destruct Hr as [-> | ->]; [|by apply keys_kept_same].
  split; simpl; [done|]. rewrite map_map, Hwal. apply map_ext. intros r. by case_match.
Qed.

Lemma update_last_opened_at_keys w t : m_pres keys_kept (update_last_opened_at w t).
Proof. by apply update_wallet_row_keys. Qed.
Lemma set_remember_keys w b : m_pres keys_kept (set_remember_unlock_enabled w b).
Proof. by apply update_wallet_row_keys. Qed.
#[export] Hint Resolve db_stmt_keys get_tor_state_keys list_wallets_keys get_wallet_keys get_backup_required_keys
  get_wallet_encryption_keys update_last_opened_at_keys set_remember_keys : zbag.

(** The manager has sent nothing and its keys are as they were. *)
Record untouched (s s' : WM) : Prop := {
  un_keys : keys_kept (wm_db s) (wm_db s');
  un_sent : sent s' = sent s;
}.

#[global] Instance untouched_preorder : PreOrder untouched.
Proof. split; [intros s; split; reflexivity|]. intros a b c [] []. split; [by etransitivity|congruence]. Qed.

Lemma on_disk_untouched {A} (m : M QueueState A) : m_pres untouched (on_disk m).
Proof.
  intros s. unfold on_disk, on_tx, on_retry, on_queue, m_zoom. destruct (m _). split; [|done]. simpl. reflexivity.
Qed.
Lemma on_app_db_untouched {A} (m : M AppDb A) : m_pres keys_kept m -> m_pres untouched (on_app_db m).
Proof.
  intros Hm s. specialize (Hm (wm_db s)). unfold on_app_db, on_tx, on_retry, on_db, m_zoom. fold (wm_db s).
  destruct (m (wm_db s)). by split.
Qed.
Lemma set_active_untouched a : m_pres untouched (set_active a).
Proof. intros s. split; [|done]. simpl. reflexivity. Qed.
Lemma on_reauth_untouched {A} (m : M Tokens A) : m_pres untouched (on_reauth m).
Proof. intros s. unfold on_reauth, m_zoom. destruct (m _). split; [|done]. simpl. reflexivity. Qed.
Lemma emit_untouched ev : m_pres untouched (on_tx (on_retry (emit ev))).
Proof. intros s. split; [|done]. simpl. reflexivity. Qed.
#[export] Hint Resolve on_disk_untouched on_app_db_untouched set_active_untouched on_reauth_untouched
  emit_untouched : zbag.

Section Manager.
Context `{C : Crypto} `{KS : KeyStore} `{WL : WalletLib}.
Context (wallets_root : string) (from_slice : string -> option QueuedBroadcastMeta).

Lemma maybe_emit_untouched w : m_pres untouched (maybe_emit_wallet_status w).
Proof using Type.
  assert (m_pres untouched (compute_wallet_status w)) by (unfold compute_wallet_status; m_pres_auto).
  unfold maybe_emit_wallet_status.
  apply m_pres_bind; [apply _|m_pres_auto|intros [status|e]; [|m_pres_auto]].
  intros s. rewrite m_bind_eq. simpl. case_match; [reflexivity|]. rewrite m_bind_eq. simpl.
  etransitivity; [|case_match; [apply emit_untouched|reflexivity]]. split; [|done]. simpl. reflexivity.
Qed.

Lemma scan_active_untouched now w dir : m_pres untouched (scan_active from_slice now w dir).
Proof using Type. unfold scan_active. m_pres_auto. Qed.
Hint Resolve maybe_emit_untouched scan_active_untouched : zbag.

Lemma find_wallet_untouched w : m_pres untouched (find_wallet wallets_root w).
Proof using Type. unfold find_wallet. m_pres_auto. Qed.
Lemma open_key_untouched i w p : m_pres untouched (open_key i w p).
Proof using Type. unfold open_key. m_pres_auto. Qed.
Hint Resolve find_wallet_untouched open_key_untouched : zbag.

Lemma load_wallet_untouched now now_ms w : m_pres untouched (load_wallet wallets_root from_slice now now_ms w).
Proof using Type. unfold load_wallet. m_pres_auto. Qed.
Lemma unlock_wallet_untouched now w p : m_pres untouched (unlock_wallet wallets_root from_slice now w p).
Proof using Type. unfold unlock_wallet, finish_unlock. m_pres_auto. Qed.
Lemma lock_wallet_untouched w : m_pres untouched (lock_wallet w).
Proof using Type. unfold lock_wallet. m_pres_auto. Qed.

Lemma password_opens_kept db db' w pw k :
  keys_kept db db' -> password_opens db' w pw k -> password_opens db w pw k.
Proof using Type.
  intros [He Hw] (r & meta & Hr & Hm & Hu). destruct (find_first_keys _ _ _ _ Hw Hr) as (r0 & Hr0 & Hn).
  exists r0, meta. rewrite Hn, <- He. done.
Qed.

(** In a process that has no wallet yet, loading leaves it locked. *)
Lemma load_wallet_locked now now_ms w s wal st s' :
  wm_active s = None -> load_wallet wallets_root from_slice now now_ms w s = (Ok (wal, st), s') ->
  st = WalletLockStatus.Locked.
Proof using Type.
  intros Ha. unfold load_wallet. m_run; [|done]. destruct a as [wal0 dir]. m_run; [|done].
  assert (wm_active s1 = None) as Ha1.
  { pose proof (find_wallet_keeps wallets_root w s) as [H1 _]. rewrite E in H1.
    pose proof (on_app_db_keeps _ (update_last_opened_at_grows w now_ms) s0) as [H2 _]. rewrite E0 in H2.
    simpl in *. congruence. }
  rewrite m_get_bind, Ha1. do 3 (m_run; [|done]). by intros [= _ <-].
Qed.

(** A wallet that was unlocked was opened with the password. *)
Lemma unlock_wallet_opened now w p s st s' :
  unlock_wallet wallets_root from_slice now w p s = (Ok st, s') -> exists k, password_opens (wm_db s) w p k.
Proof using Type.
  unfold unlock_wallet. m_run; [|done]. destruct a as [wal dir]. m_run; [|done]. intros _. exists a.
  destruct (find_wallet_Ok _ _ _ _ _ _ E) as (Hid & _ & Hst).
  apply (password_opens_kept (wm_db s) (wm_db s1)).
  - pose proof (find_wallet_untouched w s) as [H1 _]. rewrite E in H1.
    pose proof (open_key_untouched wal w p s0) as [H2 _]. rewrite E0 in H2. by etransitivity.
  - by eapply open_key_opens.
Qed.
End Manager.

(** ** Processes *)

Definition cl_db (c : Cli) : AppDb := wm_db (cl_mgr c).

(** What shows something of a wallet that only its owner may see. *)
Definition discloses (p : Printed) : bool :=
  match p with
  | Asked _ | Message _ | WalletList _ | WalletDetails _ => false
  | _ => true
  end.

(** Nothing was sent, no sync was started and nothing private was printed. *)
Record tight_lipped (c c' : Cli) : Prop := {
  tl_sent : sent (cl_mgr c) = [] -> sent (cl_mgr c') = [];
  tl_sync : wo_next (cl_sync c) = 0%nat -> wo_next (cl_sync c') = 0%nat;
  tl_out : exists l, co_out (cl_console c') = co_out (cl_console c) ++ l /\ Forall (fun p => discloses p = false) l;
}.

(** ... and the keys are as they were, and no password came from elsewhere. *)
Record before (c c' : Cli) : Prop := {
  bf_tight : tight_lipped c c';
  bf_keys : keys_kept (cl_db c) (cl_db c');
  bf_tty : forall p, inr p ∈ co_tty (cl_console c') -> inr p ∈ co_tty (cl_console c);
}.

#[global] Instance tight_lipped_preorder : PreOrder tight_lipped.
Proof.
  split; [intros c; split; try done; exists []; by rewrite app_nil_r|].
  intros c1 c2 c3 [? ? (l1 & E1 & F1)] [? ? (l2 & E2 & F2)]. split; [auto|auto|].
  exists (l1 ++ l2). rewrite E2, E1, <- app_assoc. split; [done|by apply Forall_app].
Qed.
#[global] Instance before_preorder : PreOrder before.
Proof.
  split; [intros c; split; [reflexivity|reflexivity|done]|].
  intros c1 c2 c3 [] []. split; [by etransitivity|by etransitivity|auto].
Qed.

Lemma on_wm_run {A} (m : M WM A) c r c' :
  on_wm m c = (r, c') ->
  m (cl_mgr c) = (r, cl_mgr c') /\ cl_sync c' = cl_sync c /\ cl_tor c' = cl_tor c /\ cl_console c' = cl_console c
  /\ as_tor (cl_app c') = as_tor (cl_app c).
Proof. unfold on_wm, on_app, on_mgr, m_zoom, cl_mgr, cl_sync. destruct (m _) as [r0 s0]. by intros [= <- <-]. Qed.

Lemma on_console_run {A} (m : M Console A) c r c' :
  on_console m c = (r, c') ->
  m (cl_console c) = (r, cl_console c') /\ cl_app c' = cl_app c /\ cl_tor c' = cl_tor c.
Proof. unfold on_console, m_zoom. destruct (m _) as [r0 s0]. by intros [= <- <-]. Qed.

Lemma on_wm_before {A} (m : M WM A) : m_pres untouched m -> m_pres before (on_wm m).
Proof.
  intros Hm c. destruct (on_wm m c) as [r c'] eqn:E. destruct (on_wm_run _ _ _ _ E) as (Em & Hs & _ & Ho & _).
  specialize (Hm (cl_mgr c)). rewrite Em in Hm. destruct Hm as [Hk Hsent]. simpl in *. split; [split|exact Hk|].
  - by rewrite Hsent.
  - by rewrite Hs.
  - exists []. by rewrite app_nil_r, Ho.
  - by rewrite Ho.
Qed.

(** The console is only read, and told nothing private. *)
Record discreet (o o' : Console) : Prop := {
  di_tty : forall p, inr p ∈ co_tty o' -> inr p ∈ co_tty o;
  di_out : exists l, co_out o' = co_out o ++ l /\ Forall (fun p => discloses p = false) l;
}.

#[global] Instance discreet_preorder : PreOrder discreet.
Proof.
  split; [intros o; split; [done|exists []; by rewrite app_nil_r]|].
  intros o1 o2 o3 [? (l1 & E1 & F1)] [? (l2 & E2 & F2)]. split; [auto|].
  exists (l1 ++ l2). rewrite E2, E1, <- app_assoc. split; [done|by apply Forall_app].
Qed.

Lemma on_console_before {A} (m : M Console A) : m_pres discreet m -> m_pres before (on_console m).
Proof.
  intros Hm c. destruct (on_console m c) as [r c'] eqn:E. destruct (on_console_run _ _ _ _ E) as (Em & Ha & _).
  specialize (Hm (cl_console c)). rewrite Em in Hm. destruct Hm as [Htty Hout]. simpl in *.
  unfold cl_db, cl_mgr, cl_sync. split; [split|..]; unfold cl_db, cl_mgr, cl_sync; rewrite ?Ha; try done.
Qed.

Lemma say_discreet p : discloses p = false -> m_pres discreet (say p).
Proof. intros Hp o. split; [done|]. exists [p]. split; [done|by constructor]. Qed.

Lemma read_password_discreet : m_pres discreet read_password.
Proof.
  intros o. unfold read_password. rewrite m_get_bind. destruct (co_tty o) as [|a l] eqn:E; [reflexivity|].
  rewrite m_put_bind. assert (discreet o (mkConsole l (co_stdin o) (co_out o))) as H.
  { split; simpl; [rewrite E; set_solver|]. exists []. by rewrite app_nil_r. }
  by destruct a.
Qed.

Lemma read_line_discreet : m_pres discreet read_line.
Proof.
  intros o. unfold read_line. rewrite m_get_bind. destruct (co_stdin o) as [|a l] eqn:E; [reflexivity|].
  rewrite m_put_bind. assert (discreet o (mkConsole (co_tty o) l (co_out o))) as H.
  { split; simpl; [done|]. exists []. by rewrite app_nil_r. }
  by destruct a.
Qed.
#[export] Hint Resolve say_discreet read_password_discreet read_line_discreet on_wm_before on_console_before : zbag.

Lemma get_password_discreet p prompt : m_pres discreet (get_password p prompt).
Proof. unfold get_password. m_pres_auto. Qed.
Lemma confirm_action_discreet msg : m_pres discreet (confirm_action msg).
Proof. unfold confirm_action. m_pres_auto. Qed.
#[export] Hint Resolve get_password_discreet confirm_action_discreet : zbag.

(** A password that is prompted for is one that the terminal answers. *)
Lemma prompted_given prompt o p o' :
  get_password None prompt o = (Ok p, o') -> inr p ∈ co_tty o.
Proof.
  unfold get_password. rewrite m_bind_eq. simpl. unfold m_context, read_password. rewrite m_get_bind. simpl.
  destruct (co_tty o) as [|[e|x] l]; [done| |]; rewrite m_put_bind; [done|]. intros [= -> _]. set_solver.
Qed.

(** ** Only the owner *)

(** The wallets as they are listed, and the one that a command means. *)
Definition listed (db : AppDb) : list WalletInfo :=
  map wallet_of_row (isort (fun a b => wr_created_at b <=? wr_created_at a) (adb_wallets db)).

Definition the_wallet (wallet : option string) (db : AppDb) (wal : WalletInfo) : Prop :=
  match wallet with
  | Some prefix => List.filter (prefix_matches prefix) (listed db) = [wal]
  | None => listed db = [wal]
  end.

Section Cli.
Context `{C : Crypto} `{KS : KeyStore} `{WL : WalletLib}.
Context (wallets_root : string) (from_slice : string -> option QueuedBroadcastMeta)
        (url_parse : string -> Url + ParseError) (debug : bool) (env_var : option string)
        (to_vec_pretty : QueuedBroadcastMeta -> string) (fl : Q -> Q)
        (send : nat -> string -> string -> option (result unit))
        (nonce : string -> string) (offset_ms : string -> Q) (exp : f64 -> f64)
        (schedules : WorldAct -> SyncWorld -> bool) (parse_date : string -> option Z).

(** The wallet that is meant was opened with a password that was given. *)
Definition owner_present (wallet password : option string) (c : Cli) : Prop :=
  exists wal pw k, the_wallet wallet (cl_db c) wal
    /\ (password = Some pw \/ inr pw ∈ co_tty (cl_console c))
    /\ password_opens (cl_db c) (wi_id wal) pw k.

(** From a state in [Pre] on, either [m] keeps silent or [E] holds. *)
Definition silent_unless {A} (Pre : Cli -> Prop) (E : Prop) (m : M Cli A) : Prop :=
  forall c, Pre c -> tight_lipped c (m c).2 \/ E.

Lemma silent_bind {A B} (Pre : Cli -> Prop) (Post : A -> Cli -> Prop) E (m : M Cli A) (f : A -> M Cli B) :
  m_pres before m -> (forall c a c', Pre c -> m c = (Ok a, c') -> Post a c') ->
  (forall a, silent_unless (Post a) E (f a)) -> silent_unless Pre E (m ≫= f).
Proof using Type.
  intros Hm Hp Hf c Hc. rewrite m_bind_eq. specialize (Hm c). destruct (m c) as [[a|e] c1] eqn:Em.
  - destruct (Hf a c1 (Hp c a c1 Hc Em)) as [H|H]; [|by right]. left.
    etransitivity; [apply (bf_tight _ _ Hm)|done].
  - left. apply (bf_tight _ _ Hm).
Qed.

Lemma silent_done {A} (Pre : Cli -> Prop) (E : Prop) (m : M Cli A) :
  (forall c, Pre c -> E) -> silent_unless Pre E m.
Proof using Type. intros H c Hc. right. by eapply H. Qed.

Lemma manager_new_before c :
  before c (cl_set_app (mkAppState (manager_new (cl_mgr c)) world0 (as_tor (cl_app c))) c).
Proof using Type. split; [split|..]; try done. exists []. by rewrite app_nil_r. Qed.

Lemma set_tor_before c a b :
  as_mgr a = cl_mgr c -> as_sync a = cl_sync c -> before c (mkCli a b (cl_console c)).
Proof using Type.
  intros Hm Hs. unfold cl_mgr, cl_sync in *.
  split; [split|..]; unfold cl_db, cl_mgr, cl_sync; simpl; rewrite ?Hm, ?Hs; try done.
  exists []. by rewrite app_nil_r.
Qed.

Lemma app_state_new_before tor : m_pres before (app_state_new wallets_root tor).
Proof using Type.
  unfold app_state_new. pose proof manager_new_before.
  repeat (apply m_pres_bind; [apply _|..]; [|intros _]); [auto with zbag..| |].
  - by apply m_pres_modify.
  - destruct tor.
    + apply m_pres_bind; [apply _|auto with zbag|intros st]. apply m_pres_modify. intros c. by apply set_tor_before.
    + apply m_pres_modify. intros c. by apply set_tor_before.
Qed.
Hint Resolve app_state_new_before : zbag.

(** *** A fresh process, and the wallet it means *)

Record fresh_from (c0 c : Cli) : Prop := {
  ff_before : before c0 c;
  ff_active : wm_active (cl_mgr c) = None;
  ff_wallets : adb_wallets (cl_db c) = adb_wallets (cl_db c0);
}.

Lemma on_wm_db_wallets {A} (m : M WM A) c r c' :
  (forall s, adb_wallets (wm_db (m s).2) = adb_wallets (wm_db s)) -> on_wm m c = (r, c') ->
  adb_wallets (cl_db c') = adb_wallets (cl_db c).
Proof using Type.
  intros Hm E. destruct (on_wm_run _ _ _ _ E) as (Em & _). specialize (Hm (cl_mgr c)). by rewrite Em in Hm.
Qed.

Lemma on_disk_wallets {A} (m : M QueueState A) s : adb_wallets (wm_db (on_disk m s).2) = adb_wallets (wm_db s).
Proof using Type. unfold on_disk, on_tx, on_retry, on_queue, m_zoom. by destruct (m _). Qed.

Lemma on_app_db_wallets {A} (m : M AppDb A) :
  (forall db, adb_wallets (m db).2 = adb_wallets db) ->
  forall s, adb_wallets (wm_db (on_app_db m s).2) = adb_wallets (wm_db s).
Proof using Type.
  intros Hm s. specialize (Hm (wm_db s)). unfold on_app_db, on_tx, on_retry, on_db, m_zoom. fold (wm_db s).
  by destruct (m (wm_db s)).
Qed.

Lemma db_stmt_wallets db : adb_wallets (db_stmt db).2 = adb_wallets db.
Proof using Type. db_step. by simpl. Qed.
Lemma get_tor_state_wallets db : adb_wallets (get_tor_state db).2 = adb_wallets db.
Proof using Type.
  unfold get_tor_state, mbind, M_bind, m_get, mret, M_ret. db_step. by destruct Hr as [-> | ->].
Qed.

Lemma app_state_new_fresh tor c c' :
  app_state_new wallets_root tor c = (Ok tt, c') -> fresh_from c c'.
Proof using Type.
  intros E. pose proof (app_state_new_before tor c) as Hb. rewrite E in Hb.
  enough (wm_active (cl_mgr c') = None /\ adb_wallets (cl_db c') = adb_wallets (cl_db c)) as [] by by split.
  revert E. clear Hb. unfold app_state_new. m_run; [|done]. m_run; [|done]. m_run.
  pose proof (on_wm_db_wallets _ _ _ _ (on_disk_wallets _) E) as W1.
  pose proof (on_wm_db_wallets _ _ _ _ (on_app_db_wallets _ db_stmt_wallets) E0) as W2. destruct tor.
  - m_run; [|done]. destruct (on_wm_run _ _ _ _ E1) as (Em & _).
    pose proof (on_wm_db_wallets _ _ _ _ (on_app_db_wallets _ get_tor_state_wallets) E1) as W3.
    pose proof (on_app_db_idle get_tor_state (manager_new (cl_mgr s0))) as [Ha _ _ _].
    unfold cl_mgr at 1 in Em. simpl in Em. rewrite Em in Ha. intros [= <-]. split; [exact Ha|].
    etransitivity; [exact W3|]. exact (eq_trans W2 W1).
  - intros [= <-]. split; [done|]. exact (eq_trans W2 W1).
Qed.

Lemma cli_list_wallets_run c l c' :
  cli_list_wallets c = (Ok l, c') -> l = listed (cl_db c) /\ wm_active (cl_mgr c') = wm_active (cl_mgr c).
Proof using Type.
  intros E. destruct (on_wm_run _ _ _ _ E) as (Em & _). unfold list_wallets_api in Em.
  pose proof (on_app_db_idle list_wallets (cl_mgr c)) as [Ha _ _ _]. rewrite Em in Ha. split; [|exact Ha].
  apply on_app_db_run in Em as (db' & Em & _). revert Em. fold (cl_db c).
  unfold list_wallets, mbind, M_bind, m_get, mret, M_ret. db_step. destruct Hr as [-> | ->]; [|done].
  intros [= <- _]. unfold listed. by rewrite Hwal.
Qed.

Lemma cli_list_wallets_before : m_pres before cli_list_wallets.
Proof using Type. unfold cli_list_wallets, list_wallets_api. auto with zbag. Qed.
Hint Resolve cli_list_wallets_before : zbag.

Lemma get_wallet_by_prefix_before prefix : m_pres before (get_wallet_by_prefix prefix).
Proof using Type. unfold get_wallet_by_prefix, find_wallet_by_prefix. m_pres_auto. Qed.
Hint Resolve get_wallet_by_prefix_before : zbag.

Lemma choose_wallet_before how wallet : m_pres before (choose_wallet how wallet).
Proof using Type. unfold choose_wallet. m_pres_auto. Qed.

Lemma get_wallet_by_prefix_run prefix c wal c' :
  get_wallet_by_prefix prefix c = (Ok wal, c') ->
  the_wallet (Some prefix) (cl_db c) wal /\ wm_active (cl_mgr c') = wm_active (cl_mgr c).
Proof using Type.
  unfold get_wallet_by_prefix. m_run; [|done]. revert E. unfold find_wallet_by_prefix. m_run; [|done].
  apply cli_list_wallets_run in E as [-> Ha]. simpl. destruct (List.filter _ _) as [|x [|y l]].
  - by intros [= <- <-].
  - intros [= <- <-]. simpl. by intros [= <- <-].
  - done.
Qed.

Lemma choose_wallet_run how wallet c wal c' :
  choose_wallet how wallet c = (Ok wal, c') ->
  the_wallet wallet (cl_db c) wal /\ wm_active (cl_mgr c') = wm_active (cl_mgr c).
Proof using Type.
  destruct wallet as [prefix|]; [apply get_wallet_by_prefix_run|]. unfold choose_wallet. m_run; [|done].
  apply cli_list_wallets_run in E as [Hl Ha]. simpl. rewrite <- Hl. destruct a as [|x [|y l]]; [done| |done].
  by intros [= <- <-].
Qed.

(** *** Opening it *)

Record meant_from (c0 : Cli) (wallet : option string) (wal : WalletInfo) (c : Cli) : Prop := {
  mf_before : before c0 c;
  mf_wallet : the_wallet wallet (cl_db c0) wal;
}.

Lemma the_wallet_same wallet db db' wal :
  adb_wallets db' = adb_wallets db -> the_wallet wallet db' wal -> the_wallet wallet db wal.
Proof using Type. intros Hw. unfold the_wallet, listed. by rewrite Hw. Qed.

Lemma chosen_from how wallet c0 c wal c' :
  fresh_from c0 c -> choose_wallet how wallet c = (Ok wal, c') ->
  meant_from c0 wallet wal c' /\ wm_active (cl_mgr c') = None.
Proof using Type.
  intros [Hb Ha Hw] E. pose proof (choose_wallet_before how wallet c) as Hb'. rewrite E in Hb'.
  destruct (choose_wallet_run _ _ _ _ _ E) as [Ht Ha']. split; [|congruence]. split; [by etransitivity|].
  by eapply the_wallet_same.
Qed.

Lemma cli_load_before se w : m_pres before (cli_load_wallet wallets_root from_slice se w).
Proof using Type. unfold cli_load_wallet. pose proof load_wallet_untouched. m_pres_auto. Qed.

Lemma cli_load_locked se w c info b c' :
  wm_active (cl_mgr c) = None -> cli_load_wallet wallets_root from_slice se w c = (Ok (info, b), c') -> b = false.
Proof using Type.
  intros Ha. unfold cli_load_wallet. m_run; [|done]. destruct a as [i st].
  apply on_wm_run in E as (E & _). apply load_wallet_locked in E as ->; [|done]. by intros [= _ <-].
Qed.

Lemma cli_unlock_before se w p : m_pres before (cli_unlock_wallet wallets_root from_slice se w p).
Proof using Type. unfold cli_unlock_wallet. pose proof unlock_wallet_untouched. m_pres_auto. Qed.

(** A wallet that was unlocked with a given password has its owner present. *)
Definition given (password : option string) (c0 : Cli) (pw : string) : Prop :=
  password = Some pw \/ inr pw ∈ co_tty (cl_console c0).

Lemma unlocked_owner se wallet password c0 c wal pw c' u :
  meant_from c0 wallet wal c -> given password c0 pw ->
  cli_unlock_wallet wallets_root from_slice se (wi_id wal) pw c = (Ok u, c') -> owner_present wallet password c0.
Proof using Type.
  intros [Hb Ht] Hp. unfold cli_unlock_wallet. m_run; [|done]. intros _.
  apply on_wm_run in E as (E & _). apply unlock_wallet_opened in E as [k Hk].
  exists wal, pw, k. split; [done|]. split; [done|].
  eapply password_opens_kept; [apply (bf_keys _ _ Hb)|done].
Qed.

Lemma meant_later c0 wallet wal c c' : meant_from c0 wallet wal c -> before c c' -> meant_from c0 wallet wal c'.
Proof using Type. intros [Hb Ht] H. split; [by etransitivity|done]. Qed.

Lemma password_or_prompt_run provided prompt c0 c p c' :
  before c0 c -> password_or_prompt provided prompt c = (Ok p, c') -> given provided c0 p /\ before c0 c'.
Proof using Type.
  intros Hb. unfold password_or_prompt. destruct provided as [q|]; [intros [= <- <-]; split; [by left|done]|].
  intros E. pose proof (on_console_before _ (get_password_discreet None prompt) c) as Hb'. rewrite E in Hb'.
  split; [|by etransitivity]. apply on_console_run in E as (E & _). right. apply (bf_tty _ _ Hb).
  by eapply prompted_given.
Qed.

Lemma password_or_prompt_before provided prompt : m_pres before (password_or_prompt provided prompt).
Proof using Type. unfold password_or_prompt. m_pres_auto. Qed.

Lemma unlock_if_needed_before se w u p : m_pres before (unlock_if_needed wallets_root from_slice se w u p).
Proof using Type. unfold unlock_if_needed. pose proof cli_unlock_before. m_pres_auto. Qed.

Lemma load_unlocked_before se w p : m_pres before (load_unlocked wallets_root from_slice se w p).
Proof using Type.
  unfold load_unlocked. pose proof cli_unlock_before. pose proof cli_load_before.
  pose proof password_or_prompt_before. m_pres_auto.
Qed.

(** Asking for the password of a wallet that is meant, and unlocking with it. *)
Lemma prompt_unlock_owner se wallet password prompt c0 wal c p c1 u c2 :
  meant_from c0 wallet wal c -> password_or_prompt password prompt c = (Ok p, c1) ->
  cli_unlock_wallet wallets_root from_slice se (wi_id wal) p c1 = (Ok u, c2) -> owner_present wallet password c0.
Proof using Type.
  intros [Hb Ht] E1 E2. destruct (password_or_prompt_run _ _ _ _ _ _ Hb E1) as [Hg Hb'].
  by eapply unlocked_owner; [split| |].
Qed.

Lemma unlock_if_needed_owner se wallet password c0 wal c u c' :
  meant_from c0 wallet wal c ->
  unlock_if_needed wallets_root from_slice se (wi_id wal) false password c = (Ok u, c') ->
  owner_present wallet password c0.
Proof using Type.
  intros Hm. unfold unlock_if_needed. destruct password as [p|].
  - m_run; [|done]. intros _. by eapply unlocked_owner; [|left|].
  - m_run; [|done]. m_run; [|done]. intros _. by eapply (prompt_unlock_owner se wallet None "Password: ").
Qed.

(** *** The entries of the commands *)

Record started_from (c0 c : Cli) : Prop := {
  sf_before : before c0 c;
  sf_wallets : adb_wallets (cl_db c) = adb_wallets (cl_db c0);
}.

Lemma wrap_password_Ok password provided : wrap_password_arg password = Ok provided -> provided = password.
Proof using Type. destruct password as [p|]; simpl; [destruct (is_empty p)|]; congruence. Qed.

Lemma enter_silent {A} c0 E password tor (k : option string -> M Cli A) :
  silent_unless (fresh_from c0) E (k password) ->
  silent_unless (started_from c0) E
    (m_lift (wrap_password_arg password) ≫= fun provided => app_state_new wallets_root tor ≫= fun _ => k provided).
Proof using Type.
  intros Hk. apply (silent_bind _ (fun p c => p = password /\ started_from c0 c)).
  - m_pres_auto.
  - intros c a c' Hs. unfold m_lift. intros [= Hw <-]. apply wrap_password_Ok in Hw. done.
  - intros p. apply (silent_bind _ (fun _ c => p = password /\ fresh_from c0 c)).
    + apply app_state_new_before.
    + intros c [] c' [-> Hs] E1. split; [done|]. destruct Hs as [Hb Hw].
      destruct (app_state_new_fresh _ _ _ E1) as [Hb' Ha Hw']. split; [by etransitivity|done|congruence].
    + intros _ c [-> Hf]. by apply Hk.
Qed.

Lemma choose_silent {A} c0 E how wallet (k : WalletInfo -> M Cli A) :
  (forall wal, silent_unless (fun c => meant_from c0 wallet wal c /\ wm_active (cl_mgr c) = None) E (k wal)) ->
  silent_unless (fresh_from c0) E (choose_wallet how wallet ≫= k).
Proof using Type.
  intros Hk. eapply silent_bind; [apply choose_wallet_before| |exact Hk].
  intros c wal c' Hf E1. by eapply chosen_from.
Qed.

Lemma load_silent {A} c0 wallet wal E se (k : WalletInfo * bool -> M Cli A) :
  (forall info, silent_unless (meant_from c0 wallet wal) E (k (info, false))) ->
  silent_unless (fun c => meant_from c0 wallet wal c /\ wm_active (cl_mgr c) = None) E
    (cli_load_wallet wallets_root from_slice se (wi_id wal) ≫= k).
Proof using Type.
  intros Hk. apply (silent_bind _ (fun x c => x.2 = false /\ meant_from c0 wallet wal c)).
  - apply cli_load_before.
  - intros c [info b] c' [Hm Ha] E1. pose proof (cli_load_before se (wi_id wal) c) as Hb. rewrite E1 in Hb.
    split; [by eapply cli_load_locked|by eapply meant_later].
  - intros [info b] c [Hf Hm]. simpl in Hf. subst b. by apply Hk.
Qed.

Lemma load_unlocked_silent {A} c0 wallet wal password se (k : WalletInfo -> M Cli A) :
  silent_unless (fun c => meant_from c0 wallet wal c /\ wm_active (cl_mgr c) = None) (owner_present wallet password c0)
    (load_unlocked wallets_root from_slice se wal password ≫= k).
Proof using Type.
  intros c [Hm Ha]. rewrite m_bind_eq. pose proof (load_unlocked_before se wal password c) as Hb.
  destruct (load_unlocked _ _ se wal password c) as [[info|e] c'] eqn:E; [|left; apply (bf_tight _ _ Hb)].
  right. revert E. unfold load_unlocked. m_run; [|done]. destruct a as [i b].
  pose proof (cli_load_before se (wi_id wal) c) as Hb1. rewrite E in Hb1.
  apply cli_load_locked in E as ->; [|done]. m_run; [|done]. intros _. revert E. m_run; [|done]. intros E2.
  by eapply prompt_unlock_owner; [eapply meant_later| |].
Qed.

(** The commands of [tx.rs]. *)
Lemma tx_silent {A} c0 wallet password se (k : WalletInfo -> option string -> M Cli A) :
  silent_unless (fresh_from c0) (owner_present wallet password c0)
    (tx_load_wallet wallets_root from_slice se wallet ≫= fun '(wallet_info, unlocked) =>
     unlock_if_needed wallets_root from_slice se (wi_id wallet_info) unlocked password ≫= k wallet_info).
Proof using Type.
  apply (silent_bind _ (fun x c => x.2 = false /\ meant_from c0 wallet x.1 c)).
  - unfold tx_load_wallet. pose proof choose_wallet_before. pose proof cli_load_before. m_pres_auto.
  - intros c [wal b] c' Hf. unfold tx_load_wallet. m_run; [|done]. destruct (chosen_from _ _ _ _ _ _ Hf E) as [Hm Ha].
    m_run; [|done]. destruct a0 as [i b0]. intros [= <- <- <-].
    pose proof (cli_load_before se (wi_id a) s) as Hb. rewrite E0 in Hb.
    split; [by eapply cli_load_locked|by eapply meant_later].
  - intros [wal b]. simpl. apply (silent_bind _ (fun _ _ => owner_present wallet password c0)).
    + apply unlock_if_needed_before.
    + intros c u c' [-> Hm]. by apply unlock_if_needed_owner.
    + intros u. by apply silent_done.
Qed.

Lemma seed_silent c0 se wallet password :
  silent_unless (started_from c0) (owner_present wallet password c0) (cli_seed wallets_root from_slice se wallet password).
Proof using Type.
  unfold cli_seed. apply enter_silent, choose_silent. intros wal. apply load_silent. intros info. cbv iota.
  apply (silent_bind _ (fun _ _ => owner_present wallet password c0)).
  - pose proof password_or_prompt_before. pose proof cli_unlock_before. m_pres_auto.
  - intros c pw c' Hm. m_run; [|done]. m_run; [|done]. intros _. by eapply prompt_unlock_owner.
  - intros pw. by apply silent_done.
Qed.

(** Which wallet and password a command works with. *)
Inductive Access := Creates | Opens (wallet password : option string) | Public.

Definition access (cmd : CliCommand) : Access :=
  match cmd with
  | WalletCreate _ _ _ _ _ | WalletRestore _ _ _ _ _ _ => Creates
  | WalletListAll | WalletShow _ | WalletUnlock _ _ _ | WalletLock _ => Public
  | Sync _ _ _ _ wallet password | BackupVerify _ _ wallet password _ => Opens (Some wallet) password
  | TxSend _ _ _ _ _ _ _ _ wallet password _ | TxShield _ _ _ wallet password
  | TxList _ _ _ _ _ _ _ _ _ _ wallet password | TxRetry _ _ _ wallet password
  | ShowBalance _ _ _ wallet password | ReceiveAddress _ _ _ _ wallet password
  | Seed _ wallet password => Opens wallet password
  end.

Lemma public_before cmd data_dir json tor :
  access cmd = Public ->
  m_pres before (run_command wallets_root from_slice url_parse debug env_var to_vec_pretty fl send nonce offset_ms exp
                   schedules parse_date data_dir json tor cmd).
Proof using Type.
  assert (forall p, discloses p = false -> m_pres before (print p)) by (intros; unfold print; auto with zbag).
  pose proof cli_load_before. pose proof cli_unlock_before. pose proof password_or_prompt_before.
  pose proof lock_wallet_untouched. intros Ha. unfold run_command. apply m_pres_bind; [apply _|auto with zbag|intros _].
  destruct cmd; try done;
    unfold cli_wallet_list, cli_wallet_show, cli_wallet_unlock, cli_wallet_lock, cli_lock_wallet; m_pres_auto.
Qed.

(** C3. Nothing of a wallet is shown or done without its password.  Whatever
    the disk, the database, the network and the terminal answer: a command
    that only lists, shows, unlocks or locks wallets prints nothing private,
    sends nothing and starts no sync; and so does every other command on an
    existing wallet, unless exactly one wallet matches what it was told to
    use and a password that was given to it, as an argument or at the
    terminal, opens the stored key of that wallet. *)
Theorem cli_needs_the_owner (data_dir : string) (json tor : bool) (cmd : CliCommand) (c : Cli) :
  let c' := (run_command wallets_root from_slice url_parse debug env_var to_vec_pretty fl send nonce offset_ms exp
               schedules parse_date data_dir json tor cmd c).2 in
  match access cmd with
  | Creates => True
  | Public => tight_lipped c c'
  | Opens wallet password => tight_lipped c c' \/ owner_present wallet password c
  end.
Proof using Type.
  cbv zeta. destruct (access cmd) as [|wallet password|] eqn:Ea; [done| |].
  - unfold run_command. match goal with |- tight_lipped c ((?m ≫= ?f) c).2 \/ _ =>
      assert (silent_unless (fun x => x = c) (owner_present wallet password c) (m ≫= f)) as H;
        [|exact (H c eq_refl)] end.
    apply (silent_bind _ (fun _ => started_from c)).
    + auto with zbag.
    + intros x u x' -> E. split; [|exact (on_wm_db_wallets _ _ _ _ (on_disk_wallets _) E)].
      pose proof (on_wm_before _ (on_disk_untouched (create_dir_all_secure data_dir)) c) as Hb. by rewrite E in Hb.
    + intros u. pose proof seed_silent.
      destruct cmd; simplify_eq/=; try done;
        unfold cli_sync, cli_send, cli_shield, cli_list_transactions, cli_retry, cli_balance, cli_address, run_verify;
        apply enter_silent; first [apply tx_silent|idtac];
        apply (choose_silent _ _ "" (Some _)) || apply choose_silent; intros wal; apply load_unlocked_silent.
  - apply (bf_tight _ _ (public_before cmd data_dir json tor Ea c)).
Qed.

(** ** Consent to a send *)

(** Nothing sent, no line read, nothing taken back. *)
Record calm (c c' : Cli) : Prop := {
  cm_sent : sent (cl_mgr c) = [] -> sent (cl_mgr c') = [];
  cm_stdin : co_stdin (cl_console c') = co_stdin (cl_console c);
}.

#[local] Instance calm_preorder : PreOrder calm.
Proof using Type. split; [by intros c|]. intros a b c [] []. split; [auto|congruence]. Qed.

Definition printed_more (c c' : Cli) : Prop := exists l, co_out (cl_console c') = co_out (cl_console c) ++ l.

#[local] Instance printed_more_preorder : PreOrder printed_more.
Proof using Type.
  split; [intros c; exists []; by rewrite app_nil_r|]. intros a b c [l1 E1] [l2 E2]. exists (l1 ++ l2).
  by rewrite E2, E1, app_assoc.
Qed.

Lemma on_wm_prints {A} (m : M WM A) : m_pres printed_more (on_wm m).
Proof using Type.
  intros c. destruct (on_wm m c) as [r c'] eqn:E. destruct (on_wm_run _ _ _ _ E) as (_ & _ & _ & Ho & _).
  exists []. simpl. by rewrite app_nil_r, Ho.
Qed.
Lemma print_prints p : m_pres printed_more (print p).
Proof using Type. intros c. by exists [p]. Qed.
Lemma before_prints {A} (m : M Cli A) : m_pres before m -> m_pres printed_more m.
Proof using Type. apply m_pres_weaken. intros c c' [[_ _ (l & Hl & _)] _ _]. by exists l. Qed.
Hint Resolve on_wm_prints print_prints : zbag.

Definition same_sent (s s' : WM) : Prop := sent s' = sent s.

Lemma on_wm_calm {A} (m : M WM A) : m_pres same_sent m -> m_pres calm (on_wm m).
Proof using Type.
  intros Hm c. destruct (on_wm m c) as [r c'] eqn:E. destruct (on_wm_run _ _ _ _ E) as (Em & _ & _ & Ho & _).
  specialize (Hm (cl_mgr c)). rewrite Em in Hm. unfold same_sent in Hm. simpl in *.
  split; [by rewrite Hm|by rewrite Ho].
Qed.

Lemma untouched_same_sent {A} (m : M WM A) : m_pres untouched m -> m_pres same_sent m.
Proof using Type. apply m_pres_weaken. by intros s s' []. Qed.
Lemma idle_same_sent {A} (m : M WM A) : m_pres idle m -> m_pres same_sent m.
Proof using Type. apply m_pres_weaken. by intros s s' []. Qed.

(** The console is not asked for a line. *)
Definition no_line (o o' : Console) : Prop := co_stdin o' = co_stdin o.
#[local] Instance no_line_preorder : PreOrder no_line.
Proof using Type. unfold no_line. split; [done|]. intros a b c ? ?. congruence. Qed.

Lemma on_console_calm {A} (m : M Console A) : m_pres no_line m -> m_pres calm (on_console m).
Proof using Type.
  intros Hm c. destruct (on_console m c) as [r c'] eqn:E. destruct (on_console_run _ _ _ _ E) as (Em & Ha & _).
  specialize (Hm (cl_console c)). rewrite Em in Hm. simpl in *. split; [unfold cl_mgr; by rewrite Ha|exact Hm].
Qed.

Lemma get_password_no_line p prompt : m_pres no_line (get_password p prompt).
Proof using Type.
  intros o. unfold get_password. destruct p as [p|]; [by destruct (is_empty p)|]. rewrite m_bind_eq. simpl.
  unfold m_context, read_password. rewrite m_get_bind. simpl.
  destruct (co_tty o) as [|[e|x] l]; [done| |]; by rewrite m_put_bind.
Qed.
Hint Resolve on_wm_calm untouched_same_sent on_console_calm get_password_no_line : zbag.

Lemma app_state_new_calm tor : m_pres calm (app_state_new wallets_root tor).
Proof using Type.
  unfold app_state_new. apply m_pres_bind; [apply _|auto with zbag|intros _].
  apply m_pres_bind; [apply _|auto with zbag|intros _]. apply m_pres_bind; [apply _|by apply m_pres_modify|intros _].
  destruct tor; [|by apply m_pres_modify]. apply m_pres_bind; [apply _|auto with zbag|intros st].
  by apply m_pres_modify.
Qed.

Lemma tx_load_wallet_calm se wallet : m_pres calm (tx_load_wallet wallets_root from_slice se wallet).
Proof using Type.
  assert (m_pres calm cli_list_wallets) by (unfold cli_list_wallets, list_wallets_api; auto with zbag).
  pose proof (load_wallet_untouched wallets_root from_slice).
  unfold tx_load_wallet, choose_wallet, get_wallet_by_prefix, find_wallet_by_prefix, cli_load_wallet. m_pres_auto.
Qed.

Lemma unlock_if_needed_calm se w u p : m_pres calm (unlock_if_needed wallets_root from_slice se w u p).
Proof using Type.
  pose proof (unlock_wallet_untouched wallets_root from_slice).
  unfold unlock_if_needed, cli_unlock_wallet. m_pres_auto.
Qed.

Lemma wm_prepare_send_calm mm io now pid a to amount memo al :
  m_pres calm (on_wm (wm_prepare_send mm io now pid a to amount memo al)).
Proof using Type. apply on_wm_calm, idle_same_sent. unfold wm_prepare_send. m_pres_auto. Qed.

(** What the user has seen and answered, by the end of the run. *)
Definition agreed (json yes : bool) (to amount : string) (c c' : Cli) : Prop :=
  json = true \/ yes = true
  \/ exists line rest summary n,
       co_stdin (cl_console c) = inr line :: rest /\ to_lowercase (trim line) = "y"
       /\ Summary summary ∈ co_out (cl_console c') /\ ts_recipient summary = to
       /\ parse_uint u64_max (trim amount) = Some n /\ ts_amount summary = uint_to_string n.

(** A step before the question, and what is left of the run. *)
Lemma calm_step {A B} c0 (m : M Cli A) (f : A -> M Cli B) (G : Cli -> Cli -> Prop) c :
  m_pres calm m -> calm c0 c ->
  (forall a c1, m c = (Ok a, c1) -> calm c0 c1 -> G c0 (f a c1).2) ->
  (forall c1, calm c0 c1 -> G c0 c1) -> G c0 ((m ≫= f) c).2.
Proof using Type.
  intros Hm Hc Hf Hg. rewrite m_bind_eq. specialize (Hm c). destruct (m c) as [[a|e] c1].
  - apply (Hf a c1 eq_refl). by etransitivity.
  - apply Hg. by etransitivity.
Qed.

Lemma prepared_summary mm io now pid a to amount memo al c resp c' :
  on_wm (wm_prepare_send mm io now pid a to amount memo al) c = (Ok resp, c') ->
  ts_recipient (psr_summary resp) = to
  /\ exists n, parse_uint u64_max (trim amount) = Some n /\ ts_amount (psr_summary resp) = uint_to_string n.
Proof using Type.
  intros E. apply on_wm_run in E as (E & _). revert E. unfold wm_prepare_send. rewrite m_get_bind. m_run; [|done].
  destruct a0 as [wal p]. unfold on_tx, m_zoom.
  pose proof (prepare_send_cases mm io now pid (wi_id wal) a to amount memo al (wm_tx s)) as Hc.
  destruct (prepare_send _ _ _ _ _ _ _ _ _ _ _) as [r e']. intros [= -> _].
  destruct Hc as [[_ [err He]]|(v & pr & fee & e1 & _ & _ & Hv & _ & _ & _ & _ & Hr)]; [done|].
  apply check_send_Ok in Hv as [Ha _ _ _ _ _ _ _ _]. destruct (to_unix_ms _); [|done]. injection Hr as ->. simpl. eauto.
Qed.

(** The question: what was printed, and the answer that counts as a yes. *)
Lemma asked_and_agreed s message c b c' :
  (print s ≫= fun _ => on_console (confirm_action message)) c = (Ok b, c') ->
  s ∈ co_out (cl_console c')
  /\ (b = true -> exists line rest, co_stdin (cl_console c) = inr line :: rest /\ to_lowercase (trim line) = "y").
Proof using Type.
  assert (forall l, s ∈ (co_out (cl_console c) ++ [s]) ++ l) as Hin.
  { intros l. apply elem_of_app. left. apply elem_of_app. right. by apply list_elem_of_singleton. }
  m_run; [|done]. apply on_console_run in E as (E & _). injection E as _ Hc.
  intros E. apply on_console_run in E as (E & _). revert E. rewrite <- Hc. unfold confirm_action, say, read_line.
  rewrite m_modify_bind. m_run; [|done]. revert E. rewrite m_get_bind. simpl.
  destruct (co_stdin (cl_console c)) as [|[e|line] rest] eqn:Es.
  - intros [= <- <-] [= <- <-]. split; [apply Hin|done].
  - by rewrite m_put_bind.
  - rewrite m_put_bind. intros [= <- <-] [= <- <-]. split; [apply Hin|].
    intros Hy%bool_decide_eq_true. eauto.
Qed.

Lemma asking_sends_nothing s message c :
  sent (cl_mgr c) = [] -> sent (cl_mgr ((print s ≫= fun _ => on_console (confirm_action message)) c).2) = [].
Proof using Type.
  assert (forall A (m : M Console A) c, cl_mgr (on_console m c).2 = cl_mgr c) as Hm.
  { intros A m x. unfold on_console, m_zoom. by destruct (m _). }
  intros Hs. rewrite m_bind_eq. unfold print. pose proof (Hm _ (say s) c) as H1.
  destruct (on_console (say s) c) as [[[]|e] c1]; simpl in *; by rewrite ?Hm, H1.
Qed.

Lemma reauth_to_spend_prints se w p q : m_pres printed_more (reauth_to_spend se w p q).
Proof using Type.
  pose proof (fun x y => before_prints _ (on_console_before _ (get_password_discreet x y))).
  unfold reauth_to_spend. m_pres_auto.
Qed.
Hint Resolve reauth_to_spend_prints : zbag.

(** C4. A send is confirmed.  Unless the caller asked for JSON or passed
    [--yes], [zbag tx send] sends nothing before it has printed a summary with
    the recipient and the amount it was told to send, and the first line
    that it then reads is a yes. *)
Theorem cli_send_needs_consent (json tor : bool) (se : Session) (io : SendIo) (max_money account_id : Z)
    (to amount : string) (memo : option string) (allow : bool) (wallet password : option string) (yes : bool)
    (c : Cli) :
  let c' := (cli_send wallets_root from_slice url_parse debug env_var to_vec_pretty fl send nonce offset_ms json tor
               se io max_money account_id to amount memo allow wallet password yes c).2 in
  (sent (cl_mgr c) = [] -> sent (cl_mgr c') = []) \/ agreed json yes to amount c c'.
Proof using Type.
  set (G := fun c c' => (sent (cl_mgr c) = [] -> sent (cl_mgr c') = []) \/ agreed json yes to amount c c').
  cbv zeta. change (G c (cli_send wallets_root from_slice url_parse debug env_var to_vec_pretty fl send nonce offset_ms
    json tor se io max_money account_id to amount memo allow wallet password yes c).2).
  assert (forall c1, calm c c1 -> G c c1) as Hg by (intros c1 []; by left).
  unfold cli_send. apply calm_step; [m_pres_auto|reflexivity| |done]. intros provided c1 _ C1.
  apply calm_step; [apply app_state_new_calm|done| |done]. intros _ c2 _ C2.
  apply calm_step; [apply tx_load_wallet_calm|done| |done]. intros [wal u] c3 _ C3.
  apply calm_step; [apply unlock_if_needed_calm|done| |done]. intros up c4 _ C4.
  apply calm_step; [apply wm_prepare_send_calm|done| |done]. intros resp c5 E5 [S5 I5].
  destruct (negb json && negb yes) eqn:Eb.
  2:{ right. apply andb_false_iff in Eb as [Eb|Eb]; apply negb_false_iff in Eb; [by left|by right; left]. }
  pose proof (asking_sends_nothing (Summary (psr_summary resp)) "Send this transaction?" c5) as Hask.
  rewrite m_bind_eq. destruct ((print _ ≫= _) c5) as [[b|e] c6] eqn:E6; [|left; auto].
  destruct (asked_and_agreed _ _ _ _ _ E6) as [Hout Hyes]. destruct b; simpl negb; cbv iota; [|left; auto].
  destruct (Hyes eq_refl) as (line & rest & Hl & Hy). destruct (prepared_summary _ _ _ _ _ _ _ _ _ _ _ _ E5) as (Hr & n & Hn & Ha).
  right. right. right. exists line, rest, (psr_summary resp), n. rewrite <- I5. do 2 (split; [done|]).
  split; [|done]. match goal with |- _ ∈ co_out (cl_console (?m c6).2) =>
    assert (m_pres printed_more m) as Hm by m_pres_auto; destruct (Hm c6) as [l ->] end. apply elem_of_app. by left.
Qed.

(** ** What [--tor] does *)

Definition stored_tor (db : AppDb) : TorState :=
  match adb_tor db with
  | None => mkTorState false TorStatus.Off None
  | Some r => mkTorState (negb (tr_enabled r =? 0)) (parse_tor_status_column (tr_status r)) (tr_last_error r)
  end.

Definition same_tor (c c' : Cli) : Prop := cl_tor c' = cl_tor c /\ as_tor (cl_app c') = as_tor (cl_app c).

#[local] Instance same_tor_preorder : PreOrder same_tor.
Proof using Type. unfold same_tor. split; [done|]. intros a b c [] []. split; congruence. Qed.

Lemma on_app_same_tor {A} (m : M AppState A) :
  (forall s, as_tor (m s).2 = as_tor s) -> m_pres same_tor (on_app m).
Proof using Type. intros Hm c. specialize (Hm (cl_app c)). unfold on_app, m_zoom. by destruct (m _). Qed.
Lemma on_wm_same_tor {A} (m : M WM A) : m_pres same_tor (on_wm m).
Proof using Type. apply on_app_same_tor. intros s. unfold on_mgr, m_zoom. by destruct (m _). Qed.
Lemma on_console_same_tor {A} (m : M Console A) : m_pres same_tor (on_console m).
Proof using Type. intros c. unfold on_console, m_zoom. by destruct (m _). Qed.
Lemma print_same_tor p : m_pres same_tor (print p).
Proof using Type. apply on_console_same_tor. Qed.
Lemma set_sync_same_tor w : m_pres same_tor (m_modify (fun c => cl_set_app (as_set_sync w (cl_app c)) c)).
Proof using Type. by intros c. Qed.
Lemma start_sync_same_tor io w n :
  m_pres same_tor (on_app (start_sync url_parse debug env_var exp schedules io w n)).
Proof using Type. apply on_app_same_tor. intros s. unfold start_sync. by destruct (match _ with Ok _ => _ | Err _ => _ end). Qed.
Hint Resolve on_wm_same_tor on_console_same_tor print_same_tor set_sync_same_tor start_sync_same_tor : zbag.

(** Before the manager is built, and after. *)
Definition tor_unread (c0 c : Cli) : Prop := adb_tor (cl_db c) = adb_tor (cl_db c0) /\ cl_tor c = false.
Definition tor_idle (c0 c : Cli) : Prop := cl_tor c = true -> as_tor (cl_app c) = init_world (stored_tor (cl_db c0)).

Lemma on_wm_tor_unread {A} (m : M WM A) c0 c :
  (forall s, adb_tor (wm_db (m s).2) = adb_tor (wm_db s)) -> tor_unread c0 c -> tor_unread c0 (on_wm m c).2.
Proof using Type.
  intros Hm [H1 H2]. destruct (on_wm m c) as [r c'] eqn:E. destruct (on_wm_run _ _ _ _ E) as (Em & _ & Ht & _).
  specialize (Hm (cl_mgr c)). rewrite Em in Hm. unfold tor_unread, cl_db in *. simpl in *. split; congruence.
Qed.

Lemma on_disk_adb_tor {A} (m : M QueueState A) s : adb_tor (wm_db (on_disk m s).2) = adb_tor (wm_db s).
Proof using Type. unfold on_disk, on_tx, on_retry, on_queue, m_zoom. by destruct (m _). Qed.

Lemma app_state_new_tor enable_tor c0 c :
  tor_unread c0 c -> tor_idle c0 (app_state_new wallets_root enable_tor c).2.
Proof using Type.
  assert (forall x, tor_unread c0 x -> tor_idle c0 x) as Hu by (intros x [_ H] Ht; congruence).
  intros H0. unfold app_state_new. rewrite m_bind_eq.
  pose proof (on_wm_tor_unread _ c0 c (on_disk_adb_tor (create_dir_all_secure wallets_root)) H0) as H1.
  destruct (on_wm (on_disk _) c) as [[[]|e] c1]; [|by apply Hu]. simpl in H1. rewrite m_bind_eq.
  assert (tor_unread c0 (on_wm (on_app_db db_stmt) c1).2) as H2.
  { apply on_wm_tor_unread; [|done]. intros s. unfold on_app_db, on_tx, on_retry, on_db, m_zoom. fold (wm_db s).
    destruct (db_stmt (wm_db s)) as [r db] eqn:E. simpl. revert E. db_step. by intros [= _ <-]. }
  destruct (on_wm (on_app_db db_stmt) c1) as [[[]|e] c2]; [|by apply Hu]. simpl in H2. rewrite m_modify_bind.
  set (c3 := cl_set_app _ c2). assert (tor_unread c0 c3) as H3 by exact H2. clearbody c3.
  destruct enable_tor; [|by intros ?]. rewrite m_bind_eq.
  destruct (on_wm (on_app_db get_tor_state) c3) as [[st|e] c4] eqn:E4; destruct (on_wm_run _ _ _ _ E4) as (Em & _ & Ht & _).
  2:{ intros Hc. destruct H3. simpl in Hc. congruence. }
  intros _. simpl. f_equal. destruct H3 as [H3 _].
  unfold on_app_db, on_tx, on_retry, on_db, m_zoom in Em. fold (wm_db (cl_mgr c3)) in Em. fold (cl_db c3) in Em.
  destruct (get_tor_state (cl_db c3)) as [r db] eqn:Eg. injection Em as -> _. revert Eg.
  unfold get_tor_state, mbind, M_bind, m_get, mret, M_ret. db_step. destruct Hr as [-> | ->]; [|done].
  intros [= <- _]. unfold stored_tor. by rewrite Htor, H3.
Qed.

Lemma idle_later c0 c c' : tor_idle c0 c -> same_tor c c' -> tor_idle c0 c'.
Proof using Type. intros H [H1 H2] Ht. rewrite H2. apply H. congruence. Qed.

Lemma new_then_idle {A} c0 enable_tor (f : unit -> M Cli A) :
  (forall u, m_pres same_tor (f u)) ->
  forall c, tor_unread c0 c -> tor_idle c0 ((app_state_new wallets_root enable_tor ≫= f) c).2.
Proof using Type.
  intros Hf c H. rewrite m_bind_eq. pose proof (app_state_new_tor enable_tor c0 c H) as H1.
  destruct (app_state_new _ _ c) as [[u|e] c1]; [|done]. eapply idle_later; [exact H1|apply Hf].
Qed.

Lemma wrapped_idle {A B} c0 (r : result A) (f : A -> M Cli B) :
  (forall a c, tor_unread c0 c -> tor_idle c0 (f a c).2) ->
  forall c, tor_unread c0 c -> tor_idle c0 ((m_lift r ≫= f) c).2.
Proof using Type.
  intros Hf c H. rewrite m_bind_eq. destruct r as [a|e]; simpl; [by apply Hf|]. intros Ht. destruct H. congruence.
Qed.

Lemma command_tor_idle data_dir json tor cmd c :
  cl_tor c = false ->
  tor_idle c (run_command wallets_root from_slice url_parse debug env_var to_vec_pretty fl send nonce offset_ms exp
                schedules parse_date data_dir json tor cmd c).2.
Proof using Type.
  intros H0. unfold run_command. rewrite m_bind_eq.
  pose proof (on_wm_tor_unread _ c c (on_disk_adb_tor (create_dir_all_secure data_dir)) (conj eq_refl H0)) as H1.
  destruct (on_wm (on_disk _) c) as [[[]|e] c1]; simpl in H1; [|destruct H1 as [_ H1]; intros Ht; simpl in Ht; congruence].
  destruct cmd; unfold cli_create_wallet, cli_restore_wallet, cli_wallet_list, cli_wallet_show, cli_wallet_unlock,
    cli_wallet_lock, cli_sync, cli_send, cli_shield, cli_list_transactions, cli_retry, cli_balance, cli_address,
    cli_seed, run_verify, tx_load_wallet, choose_wallet, get_wallet_by_prefix, find_wallet_by_prefix, cli_list_wallets,
    load_unlocked, cli_load_wallet, unlock_if_needed, cli_unlock_wallet, cli_lock_wallet, password_or_prompt,
    reauth_to_spend, verify_and_report, print_progress.
  all: revert c1 H1; first [apply wrapped_idle; intros ?; apply new_then_idle|apply new_then_idle]; intros ?; m_pres_auto.
Qed.

(** C20. The command line never uses Tor.  Whatever [--tor] says, no command
    ends with its clients on a Tor connection: without the flag they connect
    directly; with it they follow the state that the application has stored,
    that is, they connect directly as well when Tor is disabled there, and
    refuse to connect when it is enabled, since no bootstrap is ever
    started. *)
Theorem cli_never_on_tor (data_dir : string) (json tor : bool) (cmd : CliCommand) (c : Cli) :
  let c' := (run_command wallets_root from_slice url_parse debug env_var to_vec_pretty fl send nonce offset_ms exp
               schedules parse_date data_dir json tor cmd c).2 in
  cl_tor c = false ->
  (forall client, cl_transport c' <> inr (ViaTor client))
  /\ (cl_tor c' = false \/ tor_enabled (stored_tor (cl_db c)) = false -> cl_transport c' = inr Direct)
  /\ (cl_tor c' = true -> tor_enabled (stored_tor (cl_db c)) = true -> exists e, cl_transport c' = inl e).
Proof using Type.
  intros c' H0. assert (tor_idle c c') as Hi by by apply command_tor_idle. clearbody c'. unfold cl_transport.
  destruct (cl_tor c') eqn:Et; [|split; [done|split; [by intros _|done]]].
  rewrite (Hi Et). unfold select. simpl. unfold new_state.
  destruct (stored_tor (cl_db c)) as [[] [] e]; simpl; split_and!; try done; intros; eauto; naive_solver.
Qed.

(** ** Waiting for a sync *)

(** The percentage of an idle progress. *)
Definition idle_percent (p : SyncProgress) : option Z :=
  if bool_decide (sp_phase p = SyncPhase.Idle) then Some (sp_progress_percent p) else None.

Definition waited_for (o : option Z) : bool :=
  match o with Some percent => (percent =? 0) || (100 <=? percent) | None => false end.

Definition stored_progress (w : SyncWorld) (wallet_id : Uuid) : SyncProgress :=
  default default_progress (ss_progress (wo_state w) !! wallet_id).

Definition no_task_runs (w : SyncWorld) : Prop := forall t tk, wo_tasks w !! t = Some tk -> tk_running tk = false.

Lemma height_percent_phase p e : sp_phase (height_percent p e).1 = sp_phase p.
Proof using Type. unfold height_percent. by repeat case_match. Qed.
Lemma estimate_eta_phase now d p e : sp_phase (estimate_eta exp now d p e).1 = sp_phase p.
Proof using Type. unfold estimate_eta, finish_eta. by repeat case_match. Qed.

Lemma with_eta_idle now wid p s : idle_percent (with_eta exp now wid p s).1 = idle_percent p.
Proof using Type.
  unfold idle_percent, with_eta.
  pose proof (height_percent_phase p
    (track_target p (capture_start now p (default default_estimate (ss_progress_estimates s !! wid))))) as H1.
  destruct (height_percent p _) as [p1 e1]. simpl in H1.
  pose proof (estimate_eta_phase now
    (clamp_delta now (default default_estimate (ss_progress_estimates s !! wid))) p1 e1) as H2.
  destruct (estimate_eta _ _ _ _ _) as [p2 e2]. simpl in H2.
  destruct (sp_phase p) eqn:Ep, (caught_up p); simpl; by rewrite ?H2, ?H1, ?Ep.
Qed.

Lemma poll_idle now wid w :
  let '(p, w') := poll_progress exp now wid w in
  p = stored_progress w' wid /\ idle_percent p = idle_percent (stored_progress w wid) /\ wo_tasks w' = wo_tasks w.
Proof using Type.
  unfold poll_progress, SyncService.get_progress. pose proof (with_eta_idle now wid (stored_progress w wid) (wo_state w)) as H.
  unfold stored_progress in *. destruct (with_eta _ _ _ _ _) as [p s]. simpl in *.
  split; [by rewrite lookup_insert_eq|done].
Qed.

(** Tasks that are over change nothing while the command sleeps. *)
Lemma rested_step wid a w :
  task_act a = true -> no_task_runs w ->
  no_task_runs (run_step exp schedules w a) /\ stored_progress (run_step exp schedules w a) wid = stored_progress w wid.
Proof using Type.
  intros Ha Hw. unfold run_step. destruct (negb _ || _); [|done].
  assert (forall t, can_step t w = None) as Hstep.
  { intros t. unfold can_step. destruct (wo_tasks w !! t) as [tk|] eqn:E; [|done]. simpl. by rewrite (Hw t tk E). }
  destruct a; try done; simpl; rewrite ?Hstep; try done.
  - destruct (wo_tasks w !! t) as [tk|] eqn:E; [|done]. simpl. destruct (tk_scanning tk); [|done]. simpl.
    split; [|done]. intros t' tk' Hl. simpl in Hl. apply lookup_alter_Some in Hl as [(-> & tk0 & H0 & ->)|[_ H0]]; simpl; by eapply Hw.
  - destruct (wo_tasks w !! t) as [tk|] eqn:E; [|done]. simpl. by rewrite (Hw t tk E).
Qed.

Lemma rested_sleep wid t w :
  no_task_runs w ->
  no_task_runs (sleep exp schedules t w) /\ stored_progress (sleep exp schedules t w) wid = stored_progress w wid.
Proof using Type.
  unfold sleep, run_enabled. assert (Forall (fun a => task_act a = true) (List.filter task_act (tk_acts t))) as Ha.
  { apply List.Forall_forall. intros a Hin%filter_In. by destruct Hin. }
  revert w Ha. induction (List.filter task_act (tk_acts t)) as [|a l IH]; intros w Ha Hw; [done|].
  apply Forall_cons in Ha as [H1 H2]. simpl. destruct (rested_step wid a w H1 Hw) as [Hw' <-]. by apply IH.
Qed.

Lemma complete_idle p : sync_complete p = match idle_percent p with Some x => 100 <=? x | None => false end.
Proof using Type. unfold sync_complete, idle_at, idle_percent. by case_bool_decide. Qed.
Lemma not_running_idle p : sync_not_running p = match idle_percent p with Some x => x =? 0 | None => false end.
Proof using Type. unfold sync_not_running, idle_at, idle_percent. by case_bool_decide. Qed.

(** Induction over the sleeps of the loop, which takes one or two at a time. *)
Lemma ticks_ind (P : list Tick -> Prop) :
  (forall l, (forall l', (length l' < length l)%nat -> P l') -> P l) -> forall l, P l.
Proof using Type. intros H. exact (well_founded_ind (Wf_nat.well_founded_ltof _ length) P H). Qed.

Lemma wait_sound wid ticks now w w' :
  wait_for_sync exp schedules wid ticks now w = (true, w') ->
  waited_for (idle_percent (stored_progress w' wid)) = true.
Proof using Type.
  revert now w. induction ticks as [ticks IH] using ticks_ind. intros now w.
  pose proof (poll_idle now wid w) as Hp.
  destruct ticks as [|t ticks1]; simpl; destruct (poll_progress exp now wid w) as [p w1]; destruct Hp as (Hs & _);
    destruct (sync_complete p) eqn:Ec; try done.
  1, 2: intros [= <-]; rewrite <- Hs; rewrite complete_idle in Ec; destruct (idle_percent p); [|done];
    simpl; by rewrite Ec, orb_true_r.
  destruct (sync_not_running p); [|apply IH; simpl; lia].
  pose proof (poll_idle (tk_now t) wid (sleep exp schedules t w1)) as Hp'.
  destruct (poll_progress exp (tk_now t) wid _) as [p' w2]. destruct Hp' as (Hs' & _).
  destruct (sync_not_running p') eqn:En.
  - intros [= <-]. rewrite <- Hs'. rewrite not_running_idle in En. destruct (idle_percent p'); [|done]. simpl. by rewrite En.
  - destruct ticks1 as [|t' ticks2]; [done|]. apply IH. simpl. lia.
Qed.

Lemma wait_rested wid ticks now w :
  no_task_runs w ->
  (wait_for_sync exp schedules wid ticks now w).1
  = match ticks with
    | [] => sync_complete (stored_progress w wid)
    | _ => waited_for (idle_percent (stored_progress w wid))
    end.
Proof using Type.
  revert now w. induction ticks as [|t ticks IH]; intros now w Hw; pose proof (poll_idle now wid w) as Hp; simpl;
    destruct (poll_progress exp now wid w) as [p w1]; destruct Hp as (Hs & Hi & Ht).
  - rewrite !complete_idle, Hi. by destruct (match idle_percent _ with Some _ => _ | None => _ end).
  - assert (no_task_runs w1) as Hw1 by (intros t' tk; rewrite Ht; apply Hw).
    destruct (rested_sleep wid t w1 Hw1) as [Hw2 Hs2].
    assert (idle_percent (stored_progress (sleep exp schedules t w1) wid) = idle_percent (stored_progress w wid)) as Hi2
      by congruence.
    rewrite complete_idle, not_running_idle, Hi. unfold waited_for.
    destruct (idle_percent (stored_progress w wid)) as [x|] eqn:Ex.
    + destruct (100 <=? x) eqn:E1; [by rewrite orb_true_r|]. destruct (x =? 0) eqn:E2; simpl.
      * pose proof (poll_idle (tk_now t) wid (sleep exp schedules t w1)) as Hp'.
        destruct (poll_progress exp (tk_now t) wid _) as [p' w2]. destruct Hp' as (_ & Hi' & _).
        by rewrite not_running_idle, Hi', Hi2, E2.
      * rewrite IH by done. rewrite complete_idle, Hi2, E1. unfold waited_for. rewrite E1, E2. by destruct ticks.
    + rewrite IH by done. rewrite complete_idle, Hi2. by destruct ticks.
Qed.

(** C27. When [zbag sync] stops waiting.  Its loop ends only when the stored
    progress is idle at 0 or at 100 percent and more; and once no sync task
    runs any more it ends, after one sleep at most, exactly in that case: a
    sync that ended with an error keeps the command waiting for ever, and one
    that was given up before it began counts as complete. *)
Theorem cli_sync_wait_decided (wallet_id : Uuid) (ticks : list Tick) (now : Z) (w : SyncWorld) :
  (forall w', wait_for_sync exp schedules wallet_id ticks now w = (true, w') ->
     waited_for (idle_percent (stored_progress w' wallet_id)) = true)
  /\ (no_task_runs w -> ticks <> [] ->
     (wait_for_sync exp schedules wallet_id ticks now w).1 = waited_for (idle_percent (stored_progress w wallet_id))).
Proof using Type.
  split; [intros w'; apply wait_sound|]. intros Hw Ht. rewrite wait_rested by done. by destruct ticks.
Qed.
End Cli.

(** ** Witnesses *)

Definition demo_console : Console := mkConsole [] [] [].
Definition demo_cli : Cli :=
  mkCli (mkAppState demo_start world0 (init_world (mkTorState false TorStatus.Off None))) false demo_console.

Definition demo_run : string -> bool -> bool -> CliCommand -> M Cli unit :=
  run_command (KS := demo_key_store) "/wallets" (fun _ => None) demo_parse true (Some "https://zec.rocks")
    (fun _ => "") (fun q => q) (fun _ _ _ => None) (fun _ => "") (fun _ => 0%Q) (fun x => x) (fun _ _ => true)
    (fun _ => None).

(** The demonstration database, where Tor is disabled. *)
Lemma cli_never_on_tor_witness :
  cl_transport (demo_run "/data" false true WalletListAll demo_cli).2 = inr Direct.
Proof.
  by apply (cli_never_on_tor (KS := demo_key_store) "/wallets" (fun _ => None) demo_parse true
    (Some "https://zec.rocks") (fun _ => "") (fun q => q) (fun _ _ _ => None) (fun _ => "") (fun _ => 0%Q)
    (fun x => x) (fun _ _ => true) (fun _ => None) "/data" false true WalletListAll demo_cli eq_refl); right.
Defined.

(** A sync that failed keeps the command waiting. *)
Definition failed_sync : SyncWorld :=
  with_sync_state (set_progress <["w1" := mkSyncProgress SyncPhase.Error 0 0 0 None None (Some "worker failed")]>) world0.

Lemma cli_sync_wait_decided_witness :
  (wait_for_sync (fun x => x) (fun _ _ => true) "w1" (repeat (mkTick [] 0) 1000) 0 failed_sync).1 = false.
Proof.
  by rewrite (proj2 (cli_sync_wait_decided (fun x => x) (fun _ _ => true) "w1"
    (repeat (mkTick [] 0) 1000) 0 failed_sync)).
Defined.
