(* ===== verification/CliRoundtrip.v ===== *)
(** A wallet that [zbag wallet create] made shows its seed phrase again to
    [zbag seed], a process of its own: the theorem of [WalletRoundtrip], from
    one command line to the next. *)
From S2P Require Import Prelude Text Domain AppDb Reauth Broadcast Servers BroadcastQueue Jobs.
From S2P Require Import Sends Shielding Encryption KeyStore Addresses Float64 SyncPipeline SyncService WalletManager Tor NetClients Shell.
From S2P Require Import WalletFrames WalletDemo WalletDisk WalletSafety WalletBackup WalletRoundtrip WalletGuards CliWallet CliSafety.
From Stdlib Require Import QArith.
Open Scope Z_scope.
#[local] Open Scope list_scope.

(** ** Starting a process on a disk and a database that work *)

(** The database and the files are as they were, and go on working. *)
Record same_rest (c c' : Cli) : Prop := {
  sr_db : cl_db c' = cl_db c;
  sr_files p : file_at (wm_queue (cl_mgr c')) p = file_at (wm_queue (cl_mgr c)) p;
  sr_faults : q_faults (wm_queue (cl_mgr c)) = [] -> q_faults (wm_queue (cl_mgr c')) = [];
  sr_console : cl_console c' = cl_console c;
}.

#[global] Instance same_rest_preorder : PreOrder same_rest.
Proof. split; [by intros c|]. intros a b c [] []. split; [congruence|congruence|auto|congruence]. Qed.

Lemma same_rest_quiet c c' : same_rest c c' -> quiet (cl_mgr c) -> quiet (cl_mgr c').
Proof. intros [Hd _ Hf _] [H1 H2]. split; [auto|]. fold (cl_db c') in *. fold (cl_db c) in *. by rewrite Hd. Qed.

Lemma make_dir_quiet dir c :
  quiet (cl_mgr c) ->
  exists c', on_wm (on_disk (create_dir_all_secure dir)) c = (Ok tt, c') /\ same_rest c c'
    /\ wm_force_validate_fail (cl_mgr c') = wm_force_validate_fail (cl_mgr c).
Proof.
  intros [Hq _]. pose proof (create_dir_all_secure_spec dir (wm_queue (cl_mgr c))) as H.
  destruct (on_disk_eq (create_dir_all_secure dir) (cl_mgr c)) as (E1 & E2 & E3 & E4 & _).
  destruct (create_dir_all_secure dir (wm_queue (cl_mgr c))) as [r q']. destruct H as ([_ Hf _ Hquiet] & _ & Hok).
  destruct (on_wm (on_disk (create_dir_all_secure dir)) c) as [r0 c'] eqn:E.
  destruct (on_wm_run _ _ _ _ E) as (Em & _ & _ & Ho & _). rewrite Em in *. simpl in *. injection E1 as E1.
  exists c'. split; [by rewrite E1, Hok|]. split; [|done]. split; [done| | |done].
  - intros p. rewrite E2. apply Hf. by intros [].
  - by rewrite E2.
Qed.

Lemma app_state_new_quiet wallets_root c :
  quiet (cl_mgr c) ->
  exists c', app_state_new wallets_root false c = (Ok tt, c') /\ same_rest c c'
    /\ wm_active (cl_mgr c') = None /\ wm_force_validate_fail (cl_mgr c') = false.
Proof.
  intros Hq. unfold app_state_new. destruct (make_dir_quiet wallets_root c Hq) as (c1 & E1 & H1 & _).
  rewrite m_bind_eq, E1. cbv beta iota. pose proof (same_rest_quiet _ _ H1 Hq) as [_ Hd].
  assert (on_wm (on_app_db db_stmt) c1 = (Ok tt, c1)) as E2.
  { unfold on_wm, on_app, on_mgr, m_zoom. fold (cl_mgr c1). rewrite (on_app_db_read _ (cl_mgr c1) tt).
    - by destruct c1 as [[] ? ?].
    - unfold db_stmt. by rewrite Hd. }
  rewrite m_bind_eq, E2. cbv beta iota. rewrite m_modify_bind. eexists. split; [reflexivity|].
  split; [|done]. etransitivity; [exact H1|]. by split.
Qed.

Section Roundtrip.
Context `{C : Crypto} `{KS : KeyStore} `{WL : WalletLib}.
Context `{L : !CryptoLaws C} `{S : !KeyStoreSpec KS} `{WLL : !WalletLibLaws WL}.
Context (wallets_root : string) (from_slice : string -> option QueuedBroadcastMeta).

Lemma at_rest_same w n password dek words kdf aead c c' :
  same_rest c c' -> wm_force_validate_fail (cl_mgr c') = false ->
  at_rest wallets_root w n password dek words kdf aead (cl_mgr c) ->
  at_rest wallets_root w n password dek words kdf aead (cl_mgr c').
Proof using Type.
  intros Hs Hv [Hq _ Hr (x & Hf & Hk) (b & Hb & Hdec)]. pose proof (same_rest_quiet _ _ Hs Hq) as Hq'.
  destruct Hs as [Hd Hfiles _ _]. unfold cl_db in Hd. split; [done|done|..].
  - unfold row_kept. by rewrite Hd.
  - exists x. by rewrite Hfiles.
  - exists b. split; [|done]. rewrite <- Hb. apply ks_view_ext. intros p _. apply Hfiles.
Qed.

Lemma fresh_wallet_same w n c c' :
  same_rest c c' -> wm_force_validate_fail (cl_mgr c') = false ->
  fresh_wallet wallets_root w n (cl_mgr c) -> fresh_wallet wallets_root w n (cl_mgr c').
Proof using Type.
  intros Hs Hv [Hq _ Hr Hk Hf]. pose proof (same_rest_quiet _ _ Hs Hq) as Hq'.
  destruct Hs as [Hd Hfiles _ _]. unfold cl_db in Hd. split; [done|done|..]; rewrite ?Hd, ?Hfiles; done.
Qed.

Section Wallet.
Context (w : Uuid) (n : Network) (password dek : string) (words : list string)
        (kdf : WalletKdfParams) (aead : WalletAeadParams).
Let rest := at_rest wallets_root w n password dek words kdf aead.

Lemma on_wm_Ok {A} (m : M WM A) c a s' :
  m (cl_mgr c) = (Ok a, s') ->
  on_wm m c = (Ok a, cl_set_app (as_set_mgr s' (cl_app c)) c).
Proof using Type. unfold on_wm, on_app, on_mgr, m_zoom. fold (cl_mgr c). by intros ->. Qed.

Hypotheses (Hplain : forallb plain_word words = true) (Hpw : password <> "").

(** The seed command on a wallet at rest. *)
Lemma seed_rest se prefix wal c :
  rest (cl_mgr c) -> the_wallet (Some prefix) (cl_db c) wal -> wi_id wal = w ->
  clock_ok (se_load se) -> clock_ok (se_unlock se) -> se_consume se <= se_reauth se + REAUTH_TTL ->
  exists c', cli_seed wallets_root from_slice se (Some prefix) (Some password) c = (Ok tt, c')
    /\ co_out (cl_console c') = co_out (cl_console c) ++ [SeedPhrase (wi_name wal) words].
Proof using All.
  intros Hs Hw Hid Hl Hu Ht. pose proof Hs as [Hq _ _ _ _]. unfold cli_seed.
  assert (is_empty password = false) as Hne by by destruct password.
  rewrite m_bind_eq. unfold m_lift at 1. simpl wrap_password_arg. rewrite Hne. cbv beta iota.
  destruct (app_state_new_quiet wallets_root c Hq) as (c1 & E1 & S1 & A1 & V1). rewrite m_bind_eq, E1. cbv beta iota.
  pose proof (at_rest_same _ _ _ _ _ _ _ _ _ S1 V1 Hs) as H1. pose proof H1 as [[_ Hd1] _ _ _ _].
  assert (get_wallet_by_prefix prefix c1 = (Ok wal, c1)) as E2.
  { unfold get_wallet_by_prefix, find_wallet_by_prefix, cli_list_wallets, list_wallets_api.
    assert (on_wm (on_app_db list_wallets) c1 = (Ok (listed (cl_db c1)), c1)) as El.
    { erewrite on_wm_Ok; [|apply on_app_db_read].
      - by destruct c1 as [[] ? ?].
      - unfold list_wallets, mbind, M_bind, m_get, mret, M_ret, db_stmt. by rewrite Hd1. }
    rewrite !m_bind_eq, El. cbv beta iota. destruct S1 as [-> _ _ _]. simpl in Hw. by rewrite Hw. }
  unfold choose_wallet. rewrite m_bind_eq, E2. cbv beta iota. rewrite Hid.
  destruct (load_rest wallets_root from_slice w n password dek words kdf aead (se_load se) (se_load_ms se) (cl_mgr c1) Hl H1 A1) as (info & s2 & a0 & E3 & H2 & _).
  unfold cli_load_wallet. rewrite m_bind_eq, m_bind_eq, (on_wm_Ok _ _ _ _ E3). cbv beta iota. rewrite m_ret_run.
  cbv beta iota. set (c2 := cl_set_app _ c1).
  destruct (unlock_rest wallets_root from_slice w n password dek words kdf aead (se_unlock se) s2 Hu H2)
    as (s3 & a & E4 & H3 & Ha & Has).
  change (cl_mgr c2) with s2 in *. rewrite bool_decide_eq_false_2 by done. cbv iota. unfold password_or_prompt, cli_unlock_wallet.
  rewrite !m_bind_eq, m_ret_run. cbv beta iota. rewrite !m_bind_eq, (on_wm_Ok _ c2 _ s3 E4). cbv beta iota.
  rewrite !m_ret_run. cbv beta iota. set (c3 := cl_set_app _ c2).
  destruct (reauth_rest wallets_root w n password dek words kdf aead (se_reauth se) (se_token se) s3 a Hpw H3 Ha)
    as (s4 & E5 & H4 & Ha4 & Htok).
  rewrite m_bind_eq, (on_wm_Ok _ c3 _ s4 E5). cbv beta iota. set (c4 := cl_set_app _ c3).
  pose proof (view_seed_rest wallets_root w n password dek words kdf aead Hplain (se_consume se) (se_token se)
    (se_reauth se + REAUTH_TTL) s4 a H4 Ha4 Has Ht Htok) as Hv.
  destruct (view_seed_phrase (se_consume se) w (se_token se) s4) as [r s5] eqn:E6. simpl in Hv. subst r.
  rewrite m_bind_eq, (on_wm_Ok _ c4 _ s5 E6). cbv beta iota. eexists. split; [reflexivity|]. simpl.
  by rewrite (sr_console _ _ S1).
Qed.
End Wallet.

Context (url_parse : string -> Url + ParseError) (debug : bool) (env_var : option string)
        (to_vec_pretty : QueuedBroadcastMeta -> string) (fl : Q -> Q)
        (send : nat -> string -> string -> option (result unit))
        (nonce : string -> string) (offset_ms : string -> Q) (exp : f64 -> f64)
        (schedules : WorldAct -> SyncWorld -> bool) (parse_date : string -> option Z).

Lemma create_rest_cli d tip name n password url c :
  draws_ok d -> check_new_wallet name password = Ok tt -> Z.of_nat (String.length password) <= u32_max ->
  fresh_wallet wallets_root (dr_uuid d) n (cl_mgr c) ->
  resolve_grpc_url url_parse debug n env_var (cl_db c) = (Ok url, cl_db c) ->
  exists res words c', cli_create_wallet wallets_root from_slice url_parse debug env_var false tip d name n (Some password) c
                       = (Ok tt, c')
    /\ length words = 24%nat /\ forallb plain_word words = true
    /\ co_out (cl_console c') = co_out (cl_console c) ++ [WalletCreated (cw_wallet res) words]
    /\ at_rest wallets_root (dr_uuid d) n password (dr_dek d) words (default_kdf_params (dr_salt_b64 d))
         (default_aead_params (dr_nonce d)) (cl_mgr c').
Proof using All.
  intros [He Hd Hno Hmn (salt & Hs & Hsl) Hc] Hcheck Hpw Hfresh Hurl. pose proof Hfresh as [Hq _ _ _ _].
  assert (is_empty password = false) as Hne by by (unfold check_new_wallet in Hcheck; repeat case_match).
  unfold cli_create_wallet. rewrite m_bind_eq. unfold m_lift at 1. simpl wrap_password_arg. rewrite Hne. cbv beta iota.
  destruct (app_state_new_quiet wallets_root c Hq) as (c1 & E1 & S1 & _ & V1). rewrite m_bind_eq, E1. cbv beta iota.
  pose proof (fresh_wallet_same _ _ _ _ S1 V1 Hfresh) as Hf1.
  assert (on_wm (on_app_db (resolve_grpc_url url_parse debug n env_var)) c1 = (Ok url, c1)) as E2.
  { erewrite on_wm_Ok; [|apply on_app_db_read].
    - by destruct c1 as [[] ? ?].
    - pose proof (sr_db _ _ S1) as Hdb. unfold cl_db in Hdb. rewrite Hdb. exact Hurl. }
  rewrite m_bind_eq, E2. cbv beta iota zeta. rewrite m_bind_eq, m_ret_run. cbv beta iota.
  destruct (entropy_words (dr_entropy d) He) as (words & Hw & H24 & Hplain & Hlen).
  destruct (create_rest wallets_root from_slice (dr_uuid d) n password (dr_dek d) words _ _ Hplain d eq_refl eq_refl Hd
    (default_kdf_valid _ _ Hs Hsl) (default_aead_valid _ Hno) Hpw eq_refl eq_refl Hc Hmn Hw H24 Hlen name
    (fetch_birthday_height_for_new_wallet (tip url)) (cl_mgr c1) Hcheck Hf1) as (res & s2 & E3 & Hseed & H2 & _).
  rewrite m_bind_eq, (on_wm_Ok _ c1 _ s2 E3). cbv beta iota.
  exists res, words. eexists. split; [reflexivity|]. split; [done|]. split; [done|]. simpl.
  rewrite Hseed, (sr_console _ _ S1). done.
Qed.

Let run := run_command wallets_root from_slice url_parse debug env_var to_vec_pretty fl send nonce offset_ms exp
             schedules parse_date.

(** C5. A wallet made on the command line shows its seed phrase again.  On a
    disk and a database that work, with a server to ask, [zbag wallet create]
    with a valid name and password and a fresh id succeeds and prints 24
    words; a later [zbag seed] with that password, told any prefix that
    matches only this wallet, prints the same words. *)
Theorem cli_seed_roundtrip (data_dir : string) (json json' : bool) (d : Draws) (tip : string -> string + Z)
    (name : string) (n : Network) (password url : string) (c : Cli) :
  draws_ok d -> check_new_wallet name password = Ok tt -> Z.of_nat (String.length password) <= u32_max ->
  fresh_wallet wallets_root (dr_uuid d) n (cl_mgr c) ->
  resolve_grpc_url url_parse debug n env_var (cl_db c) = (Ok url, cl_db c) ->
  exists wallet words c1, run data_dir json false (WalletCreate tip d name n (Some password)) c = (Ok tt, c1)
    /\ length words = 24%nat
    /\ co_out (cl_console c1) = co_out (cl_console c) ++ [WalletCreated wallet words]
    /\ forall se prefix wal tor,
         the_wallet (Some prefix) (cl_db c1) wal -> wi_id wal = dr_uuid d ->
         clock_ok (se_load se) -> clock_ok (se_unlock se) -> se_consume se <= se_reauth se + REAUTH_TTL ->
         exists c2, run data_dir json' tor (Seed se (Some prefix) (Some password)) c1 = (Ok tt, c2)
           /\ co_out (cl_console c2) = co_out (cl_console c1) ++ [SeedPhrase (wi_name wal) words].
Proof using All.
  intros Hd Hcheck Hpw Hfresh Hurl. pose proof Hfresh as [Hq Hv _ _ _]. unfold run, run_command.
  destruct (make_dir_quiet data_dir c Hq) as (c0 & E0 & S0 & V0). rewrite Hv in V0.
  rewrite m_bind_eq, E0. cbv beta iota.
  destruct (create_rest_cli d tip name n password url c0 Hd Hcheck Hpw) as (res & words & c1 & E1 & H24 & Hplain & Hout & H1).
  { by eapply fresh_wallet_same. }
  { pose proof (sr_db _ _ S0) as ->. exact Hurl. }
  exists (cw_wallet res), words, c1. split; [exact E1|]. split; [done|].
  split; [rewrite Hout, (sr_console _ _ S0); done|]. intros se prefix wal tor Hw Hid Hl Hu Ht.
  pose proof H1 as [Hq1 V1 _ _ _]. destruct (make_dir_quiet data_dir c1 Hq1) as (c2 & E2 & S2 & V2). rewrite V1 in V2.
  rewrite m_bind_eq, E2. cbv beta iota. rewrite <- (sr_console _ _ S2).
  eapply (seed_rest (dr_uuid d) n password (dr_dek d) words _ _ Hplain); try done.
  - intros ->. unfold check_new_wallet in Hcheck. by repeat case_match.
  - by eapply at_rest_same.
  - pose proof (sr_db _ _ S2) as ->. exact Hw.
Qed.
End Roundtrip.

(** ** Witness *)

Definition demo_session : Session := mkSession 5 5 6 7 "p1" 8 "t1" 9 10 10.

Definition demo_create : CliCommand :=
  WalletCreate (fun _ => inr 2000000) demo_full_draws "Main" Network.Mainnet (Some "correct horse").

Lemma cli_seed_roundtrip_witness :
  exists c2, (demo_run "/data" false false (Seed demo_session (Some "W") (Some "correct horse"))
                (demo_run "/data" false false demo_create demo_cli).2) = (Ok tt, c2)
    /\ last (co_out (cl_console c2)) = Some (SeedPhrase "Main" demo_words).
Proof.
  destruct (cli_seed_roundtrip (KS := demo_key_store) "/wallets" (fun _ => None) demo_parse true
    (Some "https://zec.rocks") (fun _ => "") (fun q => q) (fun _ _ _ => None) (fun _ => "") (fun _ => 0%Q)
    (fun x => x) (fun _ _ => true) (fun _ => None) "/data" false false demo_full_draws (fun _ => inr 2000000) "Main"
    Network.Mainnet "correct horse" "https://zec.rocks" demo_cli) as (wal & words & c1 & E1 & _ & Hout & Hnext).
  - split; try done. exists "saltsaltsalt". split; [done|]. simpl. lia.
  - done.
  - by vm_compute.
  - by split.
  - by vm_compute.
  - assert (c1 = (demo_run "/data" false false demo_create demo_cli).2) as Hc1 by (symmetry; exact (f_equal snd E1)).
    set (main := mkWalletInfo "w1" "Main" WalletType.Software Network.Mainnet false 1000 None).
    assert (the_wallet (Some "W") (cl_db c1) main) as Hw by (rewrite Hc1; by vm_compute).
    assert (co_out (cl_console c1) = [WalletCreated main demo_words]) as Ho by (rewrite Hc1; by vm_compute).
    destruct (Hnext demo_session "W" main false Hw eq_refl) as (c2 & E2 & Hout2).
    + by split.
    + by split.
    + by vm_compute.
    + rewrite <- Hc1. exists c2. split; [exact E2|]. rewrite Hout2, last_snoc.
      rewrite Ho in Hout. by injection Hout as _ ->.
Defined.
