(* ===== verification/CliText.v ===== *)
(** What the command-line tool prints ([zbag-cli/src/output.rs],
    [progress.rs]): balances, identifiers, durations and the progress of a
    sync.

    A float is its exact value and [fl] the rounding of a real to it, as in
    [Broadcast]; colours are left out. *)
From S2P Require Import Prelude Text Domain AppDb Broadcast Amounts Sends CliWallet CliSafety.
From Stdlib Require Import Ascii QArith Qround Qabs Lqa.
Open Scope Z_scope.
#[local] Open Scope list_scope.

(** ** Numbers *)

Definition digit_char (d : Z) : ascii := ascii_of_nat (48 + Z.to_nat d).

(** The last [k] decimal digits of a number. *)
Fixpoint fixed_digits (k : nat) (n : Z) : string :=
  match k with
  | O => ""
  | S k' => fixed_digits k' (n / 10) +:+ String (digit_char (n mod 10)) ""
  end.

(** To the nearest integer, ties to even: what a precision in a format does. *)
Definition round_even (x : Q) : Z :=
  let k := Qfloor (x + (1 # 2)) in
  if Qeq_bool (inject_Z k) (x + (1 # 2)) && Z.odd k then k - 1 else k.

(** A column of at least [n] bytes. *)
Fixpoint spaces (n : nat) : string := match n with O => "" | S n' => String " " (spaces n') end.
Definition align_right (n : nat) (s : string) : string := spaces (n - String.length s) +:+ s.
Definition align_left (n : nat) (s : string) : string := s +:+ spaces (n - String.length s).

(** [{:02}]. *)
Definition two_digits (n : Z) : string :=
  let s := uint_to_string n in zeros (2 - String.length s) +:+ s.

(** ** output.rs *)

Section Output.
Context (fl : Q -> Q).

Definition format_zec (zatoshis : Z) : string :=
  let zec := fl (fl (inject_Z zatoshis) / 100000000) in
  let units := round_even (zec * 100000000) in
  uint_to_string (units / 100000000) +:+ String "." (fixed_digits 8 units).

Definition short_uuid (id : Uuid) : string := take_string 8 id.

(** The amounts of a balance that is shown: a text that is no number counts as 0. *)
Definition shown_amount (text : string) : Z := default 0 (parse_uint u64_max text).

Definition print_balance (balance : Balance) (wallet_name : string) : list string :=
  let shielded := shown_amount (bal_shielded_spendable balance) in
  let pending := shown_amount (bal_shielded_pending balance) in
  let transparent := shown_amount (bal_transparent_total balance) in
  let total := shown_amount (bal_total balance) in
  [wallet_name +:+ " Balance:"; "  Shielded:    " +:+ format_zec shielded +:+ " ZEC"]
  ++ (if 0 <? pending then ["  Pending:     " +:+ format_zec pending +:+ " ZEC"] else [])
  ++ (if 0 <? transparent
      then ["  Transparent: " +:+ format_zec transparent +:+ " ZEC (shield recommended)"] else [])
  ++ ["  Total: " +:+ format_zec total +:+ " ZEC"].

Definition print_wallet_list (wallets : list WalletInfo) : list string :=
  match wallets with
  | [] => ["No wallets found."; ""; "Create one with: zbag wallet create --name <NAME>"]
  | _ => "Wallets:" :: map (fun w => "  " +:+ short_uuid (wi_id w) +:+ " " +:+ wi_name w +:+ " ["
                                     +:+ network_dir_name (wi_network w) +:+ "]") wallets
  end.

(** A line on standard output. *)
Definition newline : string := String "010" "".
Definition println (s : string) : string := s +:+ newline.

Definition network_debug (network : Network) : string :=
  match network with Network.Mainnet => "Mainnet" | Network.Testnet => "Testnet" end.
Definition wallet_type_debug (wallet_type : WalletType) : string :=
  match wallet_type with WalletType.Software => "Software" | WalletType.WatchOnly => "WatchOnly" end.

Definition print_wallet_details (w : WalletInfo) : string :=
  println "Wallet Details:"
  +:+ println ("  ID:       " +:+ wi_id w)
  +:+ println ("  Short ID: " +:+ short_uuid (wi_id w))
  +:+ println ("  Name:     " +:+ wi_name w)
  +:+ println ("  Network:  " +:+ network_debug (wi_network w))
  +:+ println ("  Type:     " +:+ wallet_type_debug (wi_wallet_type w))
  +:+ println ("  Remember: " +:+ if wi_remember_unlock_enabled w then "true" else "false").

(** The words of a seed phrase from index [i] on, four in a row. *)
Fixpoint print_words (i : nat) (seed_phrase : list string) : string :=
  match seed_phrase with
  | [] => ""
  | word :: seed_phrase' =>
      align_right 2 (uint_to_string (Z.of_nat (i + 1))) +:+ (". " +:+ (align_left 12 word
        +:+ ((if ((i + 1) mod 4 =? 0)%nat then newline else "") +:+ print_words (S i) seed_phrase')))
  end.

Definition seed_rows (seed_phrase : list string) : string :=
  print_words 0 seed_phrase +:+ if negb (length seed_phrase mod 4 =? 0)%nat then newline else "".

Definition print_wallet_created (w : WalletInfo) (seed_phrase : list string) : string :=
  println "Wallet created successfully!" +:+ println ""
  +:+ println ("  ID:   " +:+ short_uuid (wi_id w))
  +:+ println ("  Name: " +:+ wi_name w) +:+ println ""
  +:+ println "IMPORTANT: Write down your seed phrase!"
  +:+ println "This is the ONLY way to recover your wallet." +:+ println ""
  +:+ seed_rows seed_phrase +:+ println ""
  +:+ println ("Next step: zbag sync " +:+ short_uuid (wi_id w)).

Definition print_wallet_restored (w : WalletInfo) (birthday_height : Z) : string :=
  println "Wallet restored successfully!" +:+ println ""
  +:+ println ("  ID:              " +:+ short_uuid (wi_id w))
  +:+ println ("  Name:            " +:+ wi_name w)
  +:+ println ("  Birthday Height: " +:+ uint_to_string birthday_height) +:+ println ""
  +:+ println ("Next step: zbag sync " +:+ short_uuid (wi_id w)).

(** [print_seed_phrase] of [commands/seed.rs]. *)
Definition print_seed_phrase (wallet_name : string) (seed_phrase : list string) : string :=
  println "" +:+ println "WARNING: Keep your seed phrase secret!"
  +:+ println "Anyone with these words can access your funds." +:+ println ""
  +:+ println ("Seed phrase for wallet '" +:+ wallet_name +:+ "':") +:+ println ""
  +:+ seed_rows seed_phrase +:+ println "".

(** ** progress.rs *)

Definition phase_label (phase : SyncPhase) : string :=
  match phase with
  | SyncPhase.Idle => "Idle"
  | SyncPhase.Preparing => "Preparing"
  | SyncPhase.Downloading => "Downloading"
  | SyncPhase.Scanning => "Scanning"
  | SyncPhase.Enhancing => "Enhancing"
  | SyncPhase.CatchingUp => "Catching up"
  | SyncPhase.Offline => "Offline"
  | SyncPhase.Error => "Error"
  end.

Definition format_duration (seconds : Z) : string :=
  if seconds <? 60 then uint_to_string seconds +:+ "s"
  else if seconds <? 3600
  then uint_to_string (seconds / 60) +:+ "m " +:+ uint_to_string (seconds mod 60) +:+ "s"
  else uint_to_string (seconds / 3600) +:+ "h " +:+ uint_to_string (seconds mod 3600 / 60) +:+ "m".

Definition waits (phase : SyncPhase) : bool :=
  match phase with SyncPhase.Offline | SyncPhase.Error => true | _ => false end.

(** The position of the bar and its message. *)
Definition update_sync_progress (p : SyncProgress) : Z * string :=
  let phase_str :=
    match sp_phase p, sp_error_message p with
    | SyncPhase.Error, Some msg => "Error: " +:+ msg
    | phase, _ => phase_label phase
    end in
  let eta :=
    if waits (sp_phase p)
    then match sp_retry_in_seconds p with
         | Some s => " (Retry in " +:+ format_duration s +:+ ")" | None => "" end
    else match sp_eta_seconds p with
         | Some s => " (ETA: " +:+ format_duration s +:+ ")" | None => "" end in
  let height_info :=
    if 0 <? sp_scan_frontier_height p then " - Block " +:+ uint_to_string (sp_scan_frontier_height p) else "" in
  (sp_progress_percent p, phase_str +:+ height_info +:+ eta).

(** [elapsed] in nanoseconds. *)
Definition format_elapsed (elapsed : Z) : string :=
  let total_secs := elapsed / 1000000000 in
  two_digits (total_secs / 3600) +:+ ":" +:+ two_digits (total_secs mod 3600 / 60) +:+ ":"
    +:+ two_digits (total_secs mod 60).

(** The digit at index [i] of [len] is preceded by a comma when a multiple of
    three digits is left. *)
Fixpoint push_commas (len i : nat) (s : string) : string :=
  match s with
  | "" => ""
  | String c s' =>
      let rest := String c (push_commas len (S i) s') in
      if (0 <? i)%nat && ((len - i) mod 3 =? 0)%nat then String "," rest else rest
  end.

Definition format_with_commas (n : Z) : string :=
  let s := uint_to_string n in push_commas (String.length s) 0 s.

Definition format_progress_log_line (elapsed : Z) (p : SyncProgress) (start_height chain_tip : Z) : string :=
  let current_height := sp_scan_frontier_height p in
  let blocks_scanned := u32_saturating_sub current_height start_height in
  let secs := elapsed / 1000000000 in
  let rate :=
    if 0 <? secs
    then fl (inject_Z blocks_scanned / fl (inject_Z secs + fl (inject_Z (elapsed mod 1000000000) / 1000000000)))
    else 0%Q in
  let eta_str :=
    if waits (sp_phase p)
    then match sp_retry_in_seconds p with
         | Some s => "Retry in " +:+ format_duration s | None => "Retry --" end
    else match sp_eta_seconds p with
         | Some s => "ETA " +:+ format_duration s +:+ " (" +:+ uint_to_string s +:+ "s)" | None => "ETA --" end in
  "[" +:+ format_elapsed elapsed +:+ "] " +:+ align_right 3 (uint_to_string (sp_progress_percent p)) +:+ "% | "
    +:+ align_left 10 (phase_label (sp_phase p)) +:+ " | " +:+ align_right 9 (format_with_commas current_height)
    +:+ " / " +:+ align_right 9 (format_with_commas chain_tip) +:+ " | "
    +:+ align_right 5 (uint_to_string (round_even rate)) +:+ " blk/s | " +:+ eta_str.

(** *** The progress log of [commands/sync.rs] *)

(** The handler keeps the first height above 0. *)
Definition capture_start_height (start_height : Z) (p : SyncProgress) : Z :=
  if (0 <? sp_scan_frontier_height p) && (start_height =? 0) then sp_scan_frontier_height p else start_height.

(** A tick of the logger: nothing before the scan has begun. *)
Definition progress_log_tick (elapsed start_h : Z) (p : SyncProgress) : option string :=
  if sp_scan_frontier_height p =? 0 then None else
  if start_h =? 0 then None else
  let chain_tip := Z.max (sp_wallet_tip_height p) (sp_scan_frontier_height p) in
  Some (format_progress_log_line elapsed p start_h chain_tip).
End Output.

(** The line that [progress.rs] gives as an example. *)
Example log_line_demo :
  format_progress_log_line (fun q => Qred q) 161000000000
    (mkSyncProgress SyncPhase.Scanning 3450000 3868370 15 (Some 161) None None) 3030756 3868370
  = "[00:02:41]  15% | Scanning   | 3,450,000 / 3,868,370 |  2604 blk/s | ETA 2m 41s (161s)".
Proof. by vm_compute. Qed.

(** ** Amounts are shown exactly *)

(** Round-to-nearest on the normal range, zero included. *)
Definition nearest_normal (fl : Q -> Q) : Prop :=
  (forall x, (x == 0)%Q -> (fl x == 0)%Q)
  /\ forall x, (1 # 1000000000 <= x)%Q -> (Qabs (fl x - x) <= x * (1 # 9007199254740992))%Q.

Lemma round_even_near x z :
  (inject_Z z - (1 # 2) < x < inject_Z z + (1 # 2))%Q -> round_even x = z.
Proof.
  intros [H1 H2]. unfold round_even. set (k := Qfloor (x + (1 # 2))).
  pose proof (Qfloor_le (x + (1 # 2))) as Hf1. pose proof (Qlt_floor (x + (1 # 2))) as Hf2. fold k in Hf1, Hf2.
  assert (inject_Z z < inject_Z (k + 1))%Q as L1 by lra.
  assert (inject_Z k < inject_Z (z + 1))%Q as L2
    by (rewrite (inject_Z_plus z 1); change (inject_Z 1) with 1%Q; lra).
  rewrite <- Zlt_Qlt in L1, L2. assert (k = z) as -> by lia.
  destruct (Qeq_bool (inject_Z z) (x + (1 # 2))) eqn:E; [|done]. apply Qeq_bool_eq in E. lra.
Qed.

Lemma digit_char_value d : 0 <= d < 10 -> digit (digit_char d) = Some d.
Proof.
  intros Hd. assert (forall k, (k < 10)%nat -> digit (ascii_of_nat (48 + k)) = Some (Z.of_nat k)) as Hall
    by (intros k Hlt; do 10 (destruct k as [|k]; [done|]); lia).
  unfold digit_char. rewrite Hall by lia. f_equal. lia.
Qed.

Lemma fixed_digits_value k n :
  all_chars is_ascii_digit (fixed_digits k n) = true /\ String.length (fixed_digits k n) = k
  /\ dec (fixed_digits k n) = n mod 10 ^ Z.of_nat k.
Proof.
  revert n. induction k as [|k IH]; intros n; [simpl; by rewrite Z.mod_1_r|]. cbn [fixed_digits].
  destruct (IH (n / 10)) as (H1 & H2 & H3).
  assert (0 <= n mod 10 < 10) as Hd by (apply Z.mod_pos_bound; lia).
  pose proof (digit_char_value _ Hd) as Hc. set (c := digit_char (n mod 10)) in *. clearbody c.
  split; [|split].
  - rewrite all_chars_app, H1. cbn [all_chars]. unfold is_ascii_digit. by rewrite Hc.
  - rewrite string_length_app, H2. cbn [String.length]. lia.
  - rewrite dec_app, H3. cbn [String.length]. unfold dec. cbn [dec_acc]. rewrite Hc. simpl default.
    change (10 ^ Z.of_nat 1) with 10. replace (10 ^ Z.of_nat (S k)) with (10 * 10 ^ Z.of_nat k)
      by (rewrite Nat2Z.inj_succ, Z.pow_succ_r; lia).
    rewrite (Z.rem_mul_r n 10) by lia. lia.
Qed.

(** What is left of an amount after its two roundings is less than half a
    zatoshi away from it. *)
Lemma zec_near fl z :
  nearest_normal fl -> 0 <= z <= 2100000000000000 ->
  (inject_Z z - (1 # 2) < fl (fl (inject_Z z) / 100000000) * 100000000 < inject_Z z + (1 # 2))%Q.
Proof.
  intros [H0 Hfl] Hz. destruct (decide (z = 0)) as [->|Hne].
  - assert (fl (fl (inject_Z 0) / 100000000) == 0)%Q as ->; [|by split].
    apply H0. rewrite (H0 (inject_Z 0)) by reflexivity. reflexivity.
  - assert (inject_Z 1 <= inject_Z z)%Q as H1 by (rewrite <- Zle_Qle; lia).
    assert (inject_Z z <= inject_Z 2100000000000000)%Q as H2 by (rewrite <- Zle_Qle; lia).
    change (inject_Z 1) with 1%Q in H1. change (inject_Z 2100000000000000) with 2100000000000000%Q in H2.
    set (x := inject_Z z) in *. clearbody x.
    pose proof (Hfl x ltac:(lra)) as E1. apply Qabs_Qle_condition in E1. set (y := fl x) in *. clearbody y.
    assert (y / 100000000 == y * (1 # 100000000))%Q as Ey by (unfold Qdiv; reflexivity).
    pose proof (Hfl (y / 100000000)%Q ltac:(rewrite Ey; lra)) as E2. apply Qabs_Qle_condition in E2.
    set (v := fl (y / 100000000)%Q) in *. clearbody v. rewrite Ey in E2. lra.
Qed.

Lemma dec_uint n : 0 <= n -> dec (uint_to_string n) = n.
Proof.
  intros Hn. pose proof (parse_uint_to_string n n ltac:(lia)) as H.
  rewrite parse_uint_value in H; [|apply uint_to_string_digits|apply uint_to_string_nonempty|lia].
  by destruct (dec (uint_to_string n) <=? n); simplify_eq.
Qed.

(** A balance is shown exactly.  For every amount of zatoshis that can
    exist, whatever the two roundings of [format_zec] do within the bounds of
    IEEE 754, the text is the whole ZEC, a point and the eight digits of the
    rest, and a reader of ZEC amounts gets the same amount back. *)
Theorem shown_balance_exact (fl : Q -> Q) (zatoshis : Z) :
  nearest_normal fl -> 0 <= zatoshis <= 2100000000000000 ->
  format_zec fl zatoshis
    = uint_to_string (zatoshis / 100000000) +:+ String "." (fixed_digits 8 zatoshis)
  /\ Amounts.parse_zatoshis (format_zec fl zatoshis) = Some zatoshis.
Proof.
  intros Hfl Hz. assert (format_zec fl zatoshis
    = uint_to_string (zatoshis / 100000000) +:+ String "." (fixed_digits 8 zatoshis)) as E
    by (unfold format_zec; by rewrite (round_even_near _ zatoshis) by by apply zec_near).
  split; [done|]. rewrite E. destruct (fixed_digits_value 8 zatoshis) as (H1 & H2 & H3).
  assert (fixed_digits 8 zatoshis <> "") as Hne by (intros Hf; by rewrite Hf in H2).
  destruct (parse_zatoshis_exact (uint_to_string (zatoshis / 100000000)) (fixed_digits 8 zatoshis)) as [-> _];
    [apply uint_to_string_digits|done|apply uint_to_string_nonempty|done|].
  rewrite H2. cbv zeta. change (8 <? 8)%nat with false. cbv iota. rewrite H3, dec_uint by (apply Z.div_pos; lia).
  change (10 ^ Z.of_nat (8 - 8)) with 1. change (10 ^ Z.of_nat 8) with 100000000.
  pose proof (Z.div_mod zatoshis 100000000 ltac:(lia)). unfold u64_max.
  replace (zatoshis / 100000000 * 100000000 + zatoshis mod 100000000 * 1) with zatoshis by lia.
  by replace (zatoshis <=? 18446744073709551615) with true by lia.
Qed.

Lemma shown_balance_exact_witness :
  nearest_normal (fun x => x) /\ format_zec (fun x => x) 1234567 = "0.01234567".
Proof.
  assert (nearest_normal (fun x => x)) as Hfl.
  { split; [done|]. intros x Hx. assert (x - x == 0)%Q as -> by ring. change (Qabs 0) with 0%Q. lra. }
  split; [exact Hfl|]. rewrite (proj1 (shown_balance_exact (fun x => x) 1234567 Hfl ltac:(lia))). by vm_compute.
Defined.

(** ** Digits in groups of three *)

Lemma split_cons_other c d s g gs :
  Ascii.eqb c d = false -> Text.split c s = g :: gs -> Text.split c (String d s) = String d g :: gs.
Proof. intros Hd Hs. simpl. by rewrite Hd, Hs. Qed.

Lemma split_cons_same c s : Text.split c (String c s) = "" :: Text.split c s.
Proof. simpl. by rewrite Ascii.eqb_refl. Qed.

Lemma join_cons c g gs : join "" (String c g :: gs) = String c (join "" (g :: gs)).
Proof. by destruct gs. Qed.

Lemma digit_not_comma c : is_ascii_digit c = true -> Ascii.eqb "," c = false.
Proof. by destruct c as [[] [] [] [] [] [] [] []]. Qed.

(** The length of the group that [n] remaining digits begin with. *)
Lemma group_step n :
  (S n mod 3 = if n mod 3 =? 2 then 0 else S (n mod 3))%nat.
Proof.
  pose proof (Nat.div_mod n 3 ltac:(lia)). pose proof (Nat.mod_upper_bound n 3 ltac:(lia)).
  destruct (n mod 3 =? 2)%nat eqn:E; [apply Nat.eqb_eq in E|apply Nat.eqb_neq in E]; symmetry.
  - apply (Nat.mod_unique _ _ (S (n / 3))); lia.
  - apply (Nat.mod_unique _ _ (n / 3)); lia.
Qed.

(** What is left at index [i]: the rest of a group, and groups of three. *)
Lemma commas_split len i s :
  (len - i = String.length s)%nat -> (0 < i)%nat -> all_chars is_ascii_digit s = true ->
  exists g gs, Text.split "," (push_commas len i s) = g :: gs
    /\ String.length g = (String.length s mod 3)%nat
    /\ Forall (fun x => String.length x = 3%nat) gs
    /\ join "" (g :: gs) = s.
Proof.
  revert i. induction s as [|c s IH]; intros i Hl Hi Hd; [by exists "", []|].
  cbn [all_chars] in Hd. apply andb_true_iff in Hd as [Hc Hd]. cbn [String.length] in *.
  destruct (IH (S i)) as (g & gs & Hs & Hg & Hgs & Hj); [lia|lia|done|].
  pose proof (split_cons_other "," c _ _ _ (digit_not_comma c Hc) Hs) as Hs'.
  cbn [push_commas]. rewrite (proj2 (Nat.ltb_lt 0 i) Hi), Hl, group_step, andb_true_l.
  destruct (String.length s mod 3 =? 2)%nat eqn:E.
  - apply Nat.eqb_eq in E. exists "", (String c g :: gs). cbn [Nat.eqb]. split; [by rewrite split_cons_same, Hs'|].
    split; [done|]. split; [constructor; [cbn [String.length]; lia|done]|]. cbn [join]. rewrite string_app_nil_l.
    rewrite string_app_nil_l. change (join "" (String c g :: gs) = String c s). by rewrite join_cons, Hj.
  - cbn [Nat.eqb]. exists (String c g), gs. split; [done|]. cbn [String.length]. split; [lia|]. split; [done|].
    by rewrite join_cons, Hj.
Qed.

(** Heights are grouped in threes.  Cut at the commas, a formatted number
    gives groups of exactly three digits after a first one of one to three,
    and put together they are the digits of the number. *)
Theorem commas_grouped (n : Z) :
  exists g gs, Text.split "," (format_with_commas n) = g :: gs
    /\ (1 <= String.length g <= 3)%nat
    /\ Forall (fun x => String.length x = 3%nat) gs
    /\ join "" (g :: gs) = uint_to_string n.
Proof.
  unfold format_with_commas. pose proof (uint_to_string_digits n) as Hd. pose proof (uint_to_string_nonempty n) as Hne.
  destruct (uint_to_string n) as [|c s]; [done|]. cbn [all_chars] in Hd. apply andb_true_iff in Hd as [Hc Hd].
  destruct (commas_split (String.length (String c s)) 1 s) as (g & gs & Hs & Hg & Hgs & Hj); [simpl; lia|lia|done|].
  exists (String c g), gs. cbn [push_commas Nat.ltb Nat.leb andb].
  split; [by apply split_cons_other; [apply digit_not_comma|]|]. cbn [String.length].
  pose proof (Nat.mod_upper_bound (String.length s) 3 ltac:(lia)). split; [lia|]. split; [done|].
  by rewrite join_cons, Hj.
Qed.

(** ** Short identifiers *)

(** The text of an identifier: lower-case hexadecimal digits and hyphens. *)
Definition uuid_char (c : ascii) : bool := is_ascii_digit c || byte_in 97 102 c || Ascii.eqb c "-".

Lemma to_lowercase_uuid s : all_chars uuid_char s = true -> to_lowercase s = s.
Proof.
  induction s as [|c s IH]; [done|]. cbn [all_chars]. intros [Hc Hs]%andb_true_iff. specialize (IH Hs).
  destruct c as [[] [] [] [] [] [] [] []]; try discriminate Hc; cbn [to_lowercase]; by rewrite IH.
Qed.

Lemma take_string_chars p k s : all_chars p s = true -> all_chars p (take_string k s) = true.
Proof.
  revert s. induction k as [|k IH]; intros [|c s]; try done. cbn [take_string all_chars].
  intros [-> Hs]%andb_true_iff. simpl. by apply IH.
Qed.

Lemma prefix_take k s : String.prefix (take_string k s) s = true.
Proof.
  revert s. induction k as [|k IH]; intros [|c s]; try done. cbn [take_string String.prefix].
  destruct (ascii_dec c c); [apply IH|done].
Qed.

(** The short identifier that a listing shows names its wallet: on the
    command line it means that wallet, unless another one begins with it. *)
Theorem short_uuid_names_wallet (db : AppDb) (wal wal' : WalletInfo) :
  wal ∈ listed db -> all_chars uuid_char (wi_id wal) = true ->
  the_wallet (Some (short_uuid (wi_id wal))) db wal' -> wal' = wal.
Proof.
  intros Hin Hid. simpl. intros Hf. assert (wal ∈ [wal']) as H; [|by apply list_elem_of_singleton in H].
  rewrite <- Hf. apply list_elem_of_In, filter_In. split; [by apply list_elem_of_In|].
  unfold prefix_matches, short_uuid, starts_with.
  rewrite !to_lowercase_uuid by (try apply take_string_chars; done). apply prefix_take.
Qed.

(** ** Seed phrases are listed legibly *)

(** A token: no white space begins with one of its bytes. *)
Definition token_char (c : ascii) : bool := is_lower c || is_ascii_digit c || Ascii.eqb c ".".

Lemma split_ws_token w fuel acc s :
  all_chars token_char w = true ->
  split_ws (String.length w + fuel) acc (w +++ s) = split_ws fuel (acc +++ w) s.
Proof.
  revert acc. induction w as [|c w IH]; intros acc; [by rewrite string_app_nil_r|].
  intros [Hc Hw]%andb_true_iff. rewrite string_app_cons. simpl String.length. rewrite Nat.add_succ_l.
  cbn [split_ws]. rewrite (strip_any_solid token_char) by done. rewrite IH by done.
  by rewrite string_app_assoc, string_app_cons, string_app_nil_l.
Qed.

(** A token ends at a space. *)
Lemma split_token w s :
  w <> "" -> all_chars token_char w = true -> split_whitespace (w +:+ String " " s) = w :: split_whitespace s.
Proof.
  intros Hne Hw. unfold split_whitespace. rewrite string_length_app. cbn [String.length].
  rewrite split_ws_token, string_app_nil_l by done. cbn [split_ws]. rewrite strip_space. by destruct w.
Qed.

Lemma split_space s : split_whitespace (String " " s) = split_whitespace s.
Proof. unfold split_whitespace. cbn [String.length split_ws]. by rewrite strip_space. Qed.

Lemma split_newline s : split_whitespace (newline +:+ s) = split_whitespace s.
Proof.
  unfold split_whitespace, newline. rewrite string_app_cons, string_app_nil_l. cbn [String.length split_ws].
  assert (strip_any ws_patterns (String "010" s) = Some s) as -> by by destruct s. done.
Qed.

Lemma split_spaces n s : split_whitespace (spaces n +:+ s) = split_whitespace s.
Proof. induction n as [|n IH]; [done|]. cbn [spaces]. by rewrite string_app_cons, split_space. Qed.

(** The words with their numbers. *)
Fixpoint numbered (i : nat) (words : list string) : list string :=
  match words with
  | [] => []
  | word :: words' => (uint_to_string (Z.of_nat i) +:+ ".") :: word :: numbered (S i) words'
  end.

Lemma all_chars_impl (p q : ascii -> bool) s :
  (forall c, p c = true -> q c = true) -> all_chars p s = true -> all_chars q s = true.
Proof. intros H. induction s as [|c s IH]; [done|]. cbn [all_chars]. intros [Hc%H Hs]%andb_true_iff. by rewrite Hc, IH. Qed.

Lemma word_token w : plain_word w = true -> w <> "" /\ all_chars token_char w = true.
Proof.
  unfold plain_word. intros [Hne Hw]%andb_true_iff. split; [by intros ->|].
  revert Hw. apply all_chars_impl. intros c Hc. unfold token_char. by rewrite Hc.
Qed.

Lemma number_token n : uint_to_string n +:+ "." <> "" /\ all_chars token_char (uint_to_string n +:+ ".") = true.
Proof.
  split; [by destruct (uint_to_string n)|]. rewrite all_chars_app. apply andb_true_iff. split; [|done].
  generalize (uint_to_string_digits n). apply all_chars_impl. intros c Hc. unfold token_char. by rewrite Hc, orb_true_r.
Qed.

Lemma split_words i seed_phrase tail :
  Forall (fun w => plain_word w = true /\ (String.length w < 12)%nat) seed_phrase ->
  split_whitespace (print_words i seed_phrase +:+ tail) = numbered (S i) seed_phrase ++ split_whitespace tail.
Proof.
  intros Hw. revert i. induction Hw as [|w ws [Hp Hlen] _ IH]; intros i; [done|].
  apply word_token in Hp as [Hne Hw]. destruct (number_token (Z.of_nat (S i))) as [Hne' Hu].
  cbn [print_words numbered app]. rewrite Nat.add_1_r. set (u := uint_to_string (Z.of_nat (S i))) in *. clearbody u.
  unfold align_right, align_left. replace (12 - String.length w)%nat with (S (11 - String.length w)) by lia.
  rewrite !string_app_assoc, split_spaces. change (". " +:+ ?x) with ("." +:+ String " " x).
  rewrite <- (string_app_assoc u "."), split_token by done. f_equal. cbn [spaces].
  rewrite string_app_cons, split_token by done. f_equal. rewrite split_spaces.
  destruct (S i mod 4 =? 0)%nat; [rewrite split_newline|]; apply IH.
Qed.

(** A listed seed phrase can be copied.  Words of less than twelve
    letters, as those of BIP 39 are, stand in the rows of four that are
    printed apart from one another and from their numbers: what is read at
    white space is number 1 and the first word, number 2 and the second, and
    so on to the last. *)
Theorem seed_rows_legible (seed_phrase : list string) :
  Forall (fun w => plain_word w = true /\ (String.length w < 12)%nat) seed_phrase ->
  split_whitespace (seed_rows seed_phrase) = numbered 1 seed_phrase.
Proof.
  intros Hw. unfold seed_rows. rewrite split_words by done.
  destruct (negb (length seed_phrase mod 4 =? 0)%nat); by rewrite app_nil_r.
Qed.

Lemma seed_rows_legible_witness :
  split_whitespace (seed_rows ["abandon"; "zoo"; "art"; "above"; "zero"])
  = ["1."; "abandon"; "2."; "zoo"; "3."; "art"; "4."; "above"; "5."; "zero"].
Proof. apply (seed_rows_legible ["abandon"; "zoo"; "art"; "above"; "zero"]). repeat constructor. Defined.
