(* ===== verification/Smoketest.v ===== *)
(** The network smoke test of the browser engine ([xtask/src/cmd/cef_smoketest]):
    the sockets that [lsof] lists for the processes of the application, their
    classification, the sampling loop and the verdict.

    What [lsof], [pgrep] and [kill] answer, and which writes of a sentinel file
    succeed, are arguments; [lossy] is [String::from_utf8_lossy].  The log of
    each thread is the list of its lines, without their time stamps; the lines
    of the self-test are left out.  Additions to a [u32] wrap, as in a release
    build. *)
From S2P Require Import Prelude Text.
From Stdlib Require Import Ascii.
Open Scope Z_scope.
#[local] Open Scope list_scope.

(** ** Strings *)

Definition rsplit_once (c : ascii) (s : string) : option (string * string) :=
  '(b, a) ← split_once c (String.rev s); Some (String.rev a, String.rev b).

Definition rsplit_once_str (pat s : string) : option (string * string) :=
  '(b, a) ← split_once_str (String.rev pat) (String.rev s); Some (String.rev a, String.rev b).

Fixpoint trim_start_matches (c : ascii) (s : string) : string :=
  match s with
  | String d s' => if Ascii.eqb c d then trim_start_matches c s' else s
  | "" => ""
  end.

Definition trim_end_matches (c : ascii) (s : string) : string :=
  String.rev (trim_start_matches c (String.rev s)).

Definition nul : ascii := "000".
Definition lf : ascii := "010".
Definition cr : ascii := "013".

(** [PathBuf::join]: an absolute path replaces what it is joined to. *)
Definition path_join (base p : string) : string :=
  if starts_with p "/" then p
  else if is_empty base || starts_with (String.rev base) "/" then base +:+ p
  else base +:+ "/" +:+ p.

Fixpoint replace_char (c d : ascii) (s : string) : string :=
  match s with
  | "" => ""
  | String e s' => String (if Ascii.eqb c e then d else e) (replace_char c d s')
  end.

(** [str::lines], the empty ones left out: a carriage return before a line
    feed is no part of the line. *)
Definition strip_cr (s : string) : string :=
  match String.rev s with String c r => if Ascii.eqb cr c then String.rev r else s | "" => s end.

Fixpoint chomp (pieces : list string) : list string :=
  match pieces with
  | [] => []
  | [final] => [final]
  | line :: pieces' => strip_cr line :: chomp pieces'
  end.

Definition filled_lines (s : string) : list string :=
  List.filter (fun line => negb (is_empty line)) (chomp (Text.split lf s)).

(** ** Sockets ([parser.rs]) *)

Inductive SocketViolationReason := NonLoopbackRemote | NonLoopbackBind.

Record SocketViolation := mkSocketViolation {
  sv_sample : string;
  sv_reason : SocketViolationReason;
  sv_pid : string;
  sv_cmd : string;
  sv_proto : string;
  sv_state : string;
  sv_name : string;
}.

Definition reason_to_string (r : SocketViolationReason) : string :=
  match r with NonLoopbackRemote => "non-loopback remote" | NonLoopbackBind => "non-loopback bind" end.

Definition violation_to_string (v : SocketViolation) : string :=
  reason_to_string (sv_reason v) +:+ " sample=" +:+ sv_sample v +:+ " pid=" +:+ sv_pid v +:+ " cmd=" +:+ sv_cmd v
    +:+ " proto=" +:+ sv_proto v +:+ " state=" +:+ sv_state v +:+ " name=" +:+ sv_name v.

Definition endpoint_host (endpoint : string) : string :=
  let endpoint := default "" (head (split_whitespace endpoint)) in
  let host := match rsplit_once ":" endpoint with Some (host, _) => host | None => endpoint end in
  if bool_decide (endpoint = "::1") then endpoint else
  match strip_prefix endpoint "[" with
  | Some rest =>
      match split_once_str "]:" rest with
      | Some (host, _) => host
      | None => match split_once "]" rest with Some (host, _) => host | None => host end
      end
  | None => host
  end.

Definition is_loopback_host (host : string) : bool :=
  let host := trim_end_matches "]" (trim_start_matches "[" host) in
  starts_with host "127." || bool_decide (host = "::1").

Definition classify_socket (sample pid cmd proto state name : string) : option SocketViolation :=
  match rsplit_once_str "->" name with
  | Some (_, remote) =>
      if is_loopback_host (endpoint_host remote) then None
      else Some (mkSocketViolation sample NonLoopbackRemote pid cmd proto state name)
  | None =>
      if is_loopback_host (endpoint_host name) then None
      else Some (mkSocketViolation sample NonLoopbackBind pid cmd proto state name)
  end.

(** What the loop over the fields carries. *)
Record Fields := mkFields {
  fd_pid : string;
  fd_cmd : string;
  fd_proto : string;
  fd_state : string;
  fd_violations : list SocketViolation;
}.

Definition read_field (sample : string) (s : Fields) (field : string) : Fields :=
  match strip_prefix field "p" with
  | Some value => mkFields value (fd_cmd s) (fd_proto s) (fd_state s) (fd_violations s)
  | None =>
  match strip_prefix field "c" with
  | Some value => mkFields (fd_pid s) value (fd_proto s) (fd_state s) (fd_violations s)
  | None =>
  match strip_prefix field "P" with
  | Some value => mkFields (fd_pid s) (fd_cmd s) value (fd_state s) (fd_violations s)
  | None =>
  match strip_prefix field "TST=" with
  | Some value => mkFields (fd_pid s) (fd_cmd s) (fd_proto s) value (fd_violations s)
  | None =>
  if starts_with field "T" then s else
  match strip_prefix field "n" with
  | Some name =>
      let violations :=
        match classify_socket sample (fd_pid s) (fd_cmd s) (fd_proto s) (fd_state s) name with
        | Some violation => fd_violations s ++ [violation]
        | None => fd_violations s
        end in
      mkFields (fd_pid s) (fd_cmd s) "" "" violations
  | None => s
  end end end end end.

Definition no_fields : Fields := mkFields "" "" "" "" [].

Section Lossy.
Context (lossy : string -> string).

Definition classify_lsof_fields (sample raw_fields : string) : list SocketViolation :=
  let fields := replace_char nul lf (lossy raw_fields) in
  fd_violations (foldl (read_field sample) no_fields (filled_lines fields)).

(** The fields of a fixture, each with its NUL. *)
Definition stream (fields : list string) : string :=
  foldr (fun field s => field +:+ String nul s) "" fields.

Definition fixture_stream (name : string) : option string :=
  let lo l := Some (stream (["p1234"; "czbag"; "PTCP"] ++ l)) in
  if bool_decide (name = "loopback-listener") then lo ["TST=LISTEN"; "n127.0.0.1:7777"]
  else if bool_decide (name = "wildcard-listener") then lo ["TST=LISTEN"; "n*:7777"]
  else if bool_decide (name = "zero-listener") then lo ["TST=LISTEN"; "n0.0.0.0:7777"]
  else if bool_decide (name = "external-connected")
  then lo ["TST=ESTABLISHED"; "n127.0.0.1:54321->142.250.190.78:443"]
  else if bool_decide (name = "loopback-connected")
  then lo ["TST=ESTABLISHED"; "n127.0.0.1:54321->127.0.0.1:7777"]
  else None.

(** ** Samples ([lsof.rs], [sampler.rs]) *)

Record LsofOutput := mkLsofOutput { lo_status : Z; lo_stdout : string; lo_stderr : string; lo_timed_out : bool }.

Definition lsof_success (stdout : string) : LsofOutput := mkLsofOutput 0 stdout "" false.
Definition lsof_failure (status : Z) (stdout stderr : string) : LsofOutput := mkLsofOutput status stdout stderr false.
Definition lsof_timeout (stdout stderr : string) : LsofOutput := mkLsofOutput 1 stdout stderr true.

Inductive SampleOutcome :=
| SampleOk
| Policy (evidence : list SocketViolation)
| Instrument (reason : string).

(** What a sample meets: the processes of the tree, in order, the two calls of
    [lsof] and the processes that are live between them. *)
Record Probe := mkProbe {
  pb_tree : list Z;
  pb_first : string + LsofOutput;
  pb_live : Z -> bool;
  pb_retry : string + LsofOutput;
}.

Definition filter_live_pids (p : Probe) (pids : list Z) : list Z := List.filter (pb_live p) pids.

(** The outcome and the lines of the log. *)
Definition instrument (reason : string) : SampleOutcome * list string :=
  (Instrument reason, ["ERROR: " +:+ reason]).
Definition evidence (violations : list SocketViolation) : SampleOutcome * list string :=
  (Policy violations, map (fun v => "FAIL: " +:+ violation_to_string v) violations).

Definition secs (n : Z) : string := uint_to_string n +:+ "s".

Definition sample_once (sample : string) (timeout_secs : Z) (p : Probe) : SampleOutcome * list string :=
  let pid_csv := pb_tree p in
  if bool_decide (pid_csv = []) then (SampleOk, []) else
  match pb_first p with
  | inl err => instrument ("lsof spawn failed sample=" +:+ sample +:+ ": " +:+ err)
  | inr first =>
      let violations := classify_lsof_fields sample (lo_stdout first) in
      if negb (bool_decide (length violations = 0%nat)) then evidence violations else
      if lo_timed_out first then
        instrument ("lsof timed out sample=" +:+ sample +:+ " timeout=" +:+ secs timeout_secs) else
      if (lo_status first =? 0) || is_empty (lo_stderr first) then (SampleOk, []) else
      let live_csv := filter_live_pids p pid_csv in
      if bool_decide (live_csv = []) then (SampleOk, []) else
      if bool_decide (live_csv = pid_csv) then
        instrument ("lsof instrumentation failed sample=" +:+ sample +:+ " status=" +:+ pretty (lo_status first)
                +:+ " stderr=" +:+ replace_char lf " " (lossy (lo_stderr first))) else
      match pb_retry p with
      | inl err => instrument ("lsof retry spawn failed sample=" +:+ sample +:+ ": " +:+ err)
      | inr retry =>
          let retry_violations := classify_lsof_fields sample (lo_stdout retry) in
          if negb (bool_decide (length retry_violations = 0%nat)) then evidence retry_violations else
          if lo_timed_out retry then instrument ("lsof timed out (retry) sample=" +:+ sample) else
          if (lo_status retry =? 0) || is_empty (lo_stderr retry) then (SampleOk, []) else
          instrument ("lsof instrumentation failed (retry) sample=" +:+ sample +:+ " status=" +:+ pretty (lo_status retry))
      end
  end.

(** *** The loop *)

(** The sentinel files, and the log. *)
Record SmokeRoot := mkSmokeRoot {
  rt_network_failure : bool;
  rt_instrumentation_failure : bool;
  rt_log : list string;
}.

(** A turn: the flags at its head, the root process, the sample, whether the
    sentinel can be written, and the flags during the pause. *)
Record Turn := mkTurn {
  tu_stop : bool;
  tu_root_live : bool;
  tu_probe : Probe;
  tu_write : option string;
  tu_stop_in_pause : bool;
}.

Definition log_lines (lines : list string) (r : SmokeRoot) : SmokeRoot :=
  mkSmokeRoot (rt_network_failure r) (rt_instrumentation_failure r) (rt_log r ++ lines).

Definition touch_sentinel (name : string) (write : option string) (touched r : SmokeRoot) : SmokeRoot :=
  match write with
  | None => touched
  | Some err => log_lines ["ERROR: failed to write " +:+ name +:+ " sentinel: " +:+ err] r
  end.

Definition record_outcome (write : option string) (outcome : SampleOutcome) (r : SmokeRoot) : SmokeRoot :=
  match outcome with
  | SampleOk => r
  | Policy _ =>
      touch_sentinel "network-failure" write (mkSmokeRoot true (rt_instrumentation_failure r) (rt_log r)) r
  | Instrument _ =>
      touch_sentinel "instrumentation-failure" write (mkSmokeRoot (rt_network_failure r) true (rt_log r)) r
  end.

Fixpoint run_loop (timeout_secs : Z) (turns : list Turn) (sample : Z) (r : SmokeRoot) : SmokeRoot :=
  match turns with
  | [] => r
  | t :: turns' =>
      if tu_stop t || negb (tu_root_live t) then r else
      let sample := sample + 1 in
      let '(outcome, lines) := sample_once ("sample-" +:+ uint_to_string sample) timeout_secs (tu_probe t) in
      let r := record_outcome (tu_write t) outcome (log_lines lines r) in
      if tu_stop_in_pause t then r else run_loop timeout_secs turns' sample r
  end.
End Lossy.

(** ** Processes ([process.rs]) *)

Section Processes.
(** [pgrep -P]. *)
Context (direct_children : Z -> list Z).

(** The walk of [collect]: the processes seen and those put out; [None] when
    the fuel is used up. *)
Fixpoint collect (fuel : nat) (parent : Z) (st : gset Z * list Z) : option (gset Z * list Z) :=
  match fuel with
  | O => None
  | S fuel' =>
      foldl (fun acc child =>
               st ← acc;
               if bool_decide (child ∈ st.1) then Some st
               else collect fuel' child ({[child]} ∪ st.1, st.2 ++ [child]))
        (Some st) (direct_children parent)
  end.

Definition descendants (fuel : nat) (root : Z) : option (list Z) := snd <$> collect fuel root (∅, []).
End Processes.

(** Without repeated neighbours ([Vec::dedup]). *)
Fixpoint dedup (l : list Z) : list Z :=
  match l with
  | a :: (b :: _) as l' => if a =? b then dedup l' else a :: dedup l'
  | _ => l
  end.

Definition process_tree (root : Z) (descendants : list Z) : list Z :=
  dedup (isort Z.leb (descendants ++ [root])).

(** The order of [kill_pids]: children, which are younger, mostly first. *)
Definition kill_order (pids : list Z) : list Z := isort (fun a b => b <=? a) pids.

(** What [pgrep -P] prints, or nothing when it fails. *)
Definition direct_children (lossy : string -> string) (pgrep : Z -> option string) (parent : Z) : list Z :=
  match pgrep parent with
  | Some stdout => omap (parse_uint u32_max) (split_whitespace (lossy stdout))
  | None => []
  end.

Definition kill_tree (root : Z) (descendants : list Z) : list Z := kill_order (process_tree root descendants).

(** ** The call of [lsof] ([lsof.rs]) *)

Record RawOutput := mkRawOutput { ro_code : option Z; ro_stdout : string; ro_stderr : string }.

(** How the wait for [lsof] ends: with its output, or with its output after it
    was killed, or without the thread that waits. *)
Inductive LsofWait :=
| Received (output : string + RawOutput)
| TimedOut (output : option (string + RawOutput))
| Disconnected.

Definition build_command (pids : list Z) : list string :=
  ["lsof"; "-nP"; "-a"; "-p"; join "," (map uint_to_string pids); "-iTCP"; "-iUDP"; "-F"; "pcPTn0"].

Definition lsof_output (timed_out : bool) (r : RawOutput) : LsofOutput :=
  mkLsofOutput (default 1 (ro_code r)) (ro_stdout r) (ro_stderr r) timed_out.

Definition lsof_run (spawn : option string) (w : LsofWait) : string + LsofOutput :=
  match spawn with
  | Some err => inl err
  | None =>
      match w with
      | Received (inr output) => inr (lsof_output false output)
      | TimedOut (Some (inr output)) => inr (lsof_output true output)
      | Received (inl err) | TimedOut (Some (inl err)) => inl err
      | TimedOut None | Disconnected => inl "lsof watchdog thread disconnected"
      end
  end.

(** ** The verdict ([smoke.rs], [exit.rs], [mod.rs], [bundle.rs]) *)

Inductive ExitCode := Pass | PolicyFailure | InstrumentFailure.

Definition exit_code (e : ExitCode) : Z :=
  match e with Pass => 0 | PolicyFailure => 1 | InstrumentFailure => 2 end.

(** The bundle: the name in its property list, and the files of [Contents/MacOS]. *)
Definition resolve_executable (bundle : string) (plist_name : option string) (entries : list string)
    (is_executable_file : string -> bool) : option string :=
  let macos_dir := path_join bundle "Contents/MacOS" in
  let by_plist :=
    match plist_name with
    | Some name => if is_executable_file (path_join macos_dir name) then Some (path_join macos_dir name) else None
    | None => None
    end in
  match by_plist with
  | Some executable => Some executable
  | None =>
      match List.filter is_executable_file (map (path_join macos_dir) entries) with
      | [only] => Some only
      | _ => None
      end
  end.

(** [ExitStatus]: no code when a signal ended the process. *)
Definition status_text (status : option Z) : string :=
  match status with Some c => "Some(" +:+ pretty c +:+ ")" | None => "None" end.
Definition status_success (status : option Z) : bool := bool_decide (status = Some 0).

(** [wait_for_child]: every 200 ms the signal flag is read and the child
    polled; [None] as long as it runs. *)
Inductive WaitOutcome := Exited (status : option Z) | Signaled.

Fixpoint wait_for_child (polls : list (bool * (string + option (option Z)))) : option (string + WaitOutcome) :=
  match polls with
  | [] => None
  | (signal_requested, polled) :: polls' =>
      if signal_requested then Some (inr Signaled) else
      match polled with
      | inl err => Some (inl err)
      | inr (Some status) => Some (inr (Exited status))
      | inr None => wait_for_child polls'
      end
  end.

(** The watchdog: nothing when it is woken or finds a flag set; else it writes
    its sentinel, or fails to, and kills the tree. *)
Record Watchdog := mkWatchdog { wd_timed_out : bool; wd_flags : bool; wd_write : option string }.

Definition watchdog_fired (w : Watchdog) : bool :=
  wd_timed_out w && negb (wd_flags w) && bool_decide (wd_write w = None).

Definition seconds_u32 (n : Z) : Z := n mod 2 ^ 32.

Definition post_wait_checks (duration_secs : Z) (watchdog smoke_ready : bool) (status : option Z)
    (app_elapsed total_elapsed : Z) (r : SmokeRoot) : ExitCode * string :=
  let lower_bound := u32_saturating_sub duration_secs 2 in
  let upper_bound := seconds_u32 (duration_secs + 5) in
  let elapsed := " app_elapsed=" +:+ secs app_elapsed +:+ " total_elapsed=" +:+ secs total_elapsed in
  if watchdog then
    (InstrumentFailure, "FAIL: app hung until watchdog fired after " +:+ secs (seconds_u32 (duration_secs + 30)))
  else if negb smoke_ready then
    (InstrumentFailure, "FAIL: app exited before CEF smoke setup wrote readiness sentinel status=" +:+ status_text status
       +:+ " elapsed=" +:+ secs total_elapsed)
  else if app_elapsed <? lower_bound then
    (InstrumentFailure, "FAIL: app exited too early status=" +:+ status_text status +:+ elapsed
       +:+ " expected_min=" +:+ secs lower_bound)
  else if upper_bound <? app_elapsed then
    (InstrumentFailure, "FAIL: app exited too late status=" +:+ status_text status +:+ elapsed
       +:+ " expected_max=" +:+ secs upper_bound)
  else if negb (status_success status) then
    (InstrumentFailure, "FAIL: app exited non-zero status=" +:+ status_text status +:+ " elapsed=" +:+ secs total_elapsed)
  else if rt_instrumentation_failure r then (InstrumentFailure, "FAIL: lsof failed during sampling")
  else if rt_network_failure r then (PolicyFailure, "FAIL: non-loopback CEF socket observed")
  else (Pass, "PASS: CEF network smoke observed no non-loopback sockets").

(** What the launch meets, each step with its error. *)
Record Launch := mkLaunch {
  la_lsof_available : bool;
  la_bundle : string;
  la_executable : option string;
  la_root : option string;
  la_dirs : option string;
  la_stdio : option string;
  la_spawn : string + Z;
}.

(** What the session meets: the polls of the child, the turns of the sampler,
    the watchdog, the readiness file, the two times and the children of the
    root when the session is dropped. *)
Record SmokeSession := mkSmokeSession {
  ss_polls : list (bool * (string + option (option Z)));
  ss_turns : list Turn;
  ss_watchdog : Watchdog;
  ss_ready : bool;
  ss_app_elapsed : Z;
  ss_total_elapsed : Z;
  ss_descendants : list Z;
}.

(** The exit code, the lines of the main thread, and the processes that are
    killed at the end. *)
Record Smoked := mkSmoked { sk_exit : ExitCode; sk_lines : list string; sk_killed : list Z }.

Definition no_sentinels : SmokeRoot := mkSmokeRoot false false [].

Section RunSmoke.
Context (lossy : string -> string).

Definition sampled (lsof_timeout_secs : Z) (s : SmokeSession) : SmokeRoot :=
  run_loop lossy lsof_timeout_secs (ss_turns s) 0 no_sentinels.

(** [None] while the application runs. *)
Definition run_smoke (l : Launch) (duration_secs lsof_timeout_secs : Z) (s : SmokeSession) : option Smoked :=
  let refuse line := Some (mkSmoked InstrumentFailure [line] []) in
  if negb (la_lsof_available l) then refuse "error: lsof is required on Darwin" else
  match la_executable l with
  | None => refuse ("error: bundled app executable not found in: " +:+ la_bundle l +:+ "/Contents/MacOS")
  | Some app_exe =>
  match la_root l with
  | Some err => refuse ("error: failed to create smoke root: " +:+ err)
  | None =>
  match la_dirs l with
  | Some err => refuse ("error: failed to create smoke state dirs: " +:+ err)
  | None =>
  let start := "starting CEF network smoke: app=" +:+ app_exe +:+ " duration=" +:+ secs duration_secs
                 +:+ " timeout=" +:+ secs (seconds_u32 (duration_secs + 30)) in
  let started exit line killed := Some (mkSmoked exit [start; line] killed) in
  match la_stdio l with
  | Some err => started InstrumentFailure ("error: failed to open smoke run log: " +:+ err) []
  | None =>
  match la_spawn l with
  | inl err => started InstrumentFailure ("error: failed to spawn app: " +:+ err) []
  | inr root_pid =>
      let killed := kill_tree root_pid (ss_descendants s) in
      wait ← wait_for_child (ss_polls s);
      match wait with
      | inl err => started InstrumentFailure ("FAIL: app wait failed: " +:+ err) killed
      | inr Signaled => started InstrumentFailure "FAIL: signal received during smoke" killed
      | inr (Exited status) =>
          let '(exit, line) := post_wait_checks duration_secs (watchdog_fired (ss_watchdog s)) (ss_ready s) status
            (ss_app_elapsed s) (ss_total_elapsed s) (sampled lsof_timeout_secs s) in
          started exit line killed
      end
  end end end end end.

(** Off macOS nothing is tested. *)
Definition run_smoke_elsewhere (os : string) : ExitCode * string := (Pass, "smoke not implemented for " +:+ os).

(** [run]: the log and the handler of the signal, the smoke test or the
    self-test, and the flag at the end. *)
Definition run (log handler : option string) (exit : option ExitCode) (signal_requested : bool) : option ExitCode :=
  match log, handler with
  | Some _, _ | _, Some _ => Some InstrumentFailure
  | None, None => exit ← exit; Some (if signal_requested then InstrumentFailure else exit)
  end.
End RunSmoke.

Definition smoke_env (root : string) (duration_secs : Z) : list (string * string) :=
  let join := path_join root in
  [("HOME", join "home"); ("TMPDIR", join "tmp"); ("XDG_CACHE_HOME", join "cache");
   ("XDG_CONFIG_HOME", join "config"); ("XDG_DATA_HOME", join "data"); ("XDG_STATE_HOME", join "state");
   ("ZBAG_GRPC_URL", "https://127.0.0.1:1"); ("ZBAG_HEADLESS_SMOKE", "1");
   ("ZBAG_SMOKE_DURATION_SECS", uint_to_string duration_secs); ("ZBAG_SMOKE_READY_FILE", join "smoke-ready");
   ("ZBAG_USE_SYSTEM_KEYCHAIN", "0")].

(** [resolve_artifact_path] of [log.rs]. *)
Definition resolve_artifact_path (flag : option string) (get_env : string -> option string) : string :=
  match flag with
  | Some path => path
  | None => path_join (default "/tmp" (get_env "RUNNER_TEMP")) "zbag-cef-smoketest.log"
  end.

(** ** The self-test ([selftest.rs]) *)

Section Selftest.
Context (lossy : string -> string).

Definition parser_fixture (name : string) (should_pass : bool) : bool :=
  let violations := classify_lsof_fields lossy ("selftest:" +:+ name) (default "" (fixture_stream name)) in
  Bool.eqb (bool_decide (length violations = 0%nat)) should_pass.

Definition outcome_code (outcome : SampleOutcome) : Z :=
  match outcome with SampleOk => 0 | Policy _ => 1 | Instrument _ => 2 end.

Definition live_pid_fixture (live : Z -> bool) (input expected : list Z) : bool :=
  bool_decide (List.filter live input = expected).

Definition sample_socket_fixture (label : string) (expected_code : Z) (p : Probe) : bool :=
  outcome_code (sample_once lossy ("fixture-" +:+ label) 1 p).1 =? expected_code.

(** The current process has no children that [lsof] is asked for; [dead] is
    one that has ended. *)
Definition selftest (current dead : Z) : ExitCode :=
  let live pid := bool_decide (pid = current) in
  let fixture name := default "" (fixture_stream name) in
  let once output := mkProbe [current] (inr output) live (inl "fake lsof response exhausted") in
  if parser_fixture "loopback-listener" true && parser_fixture "wildcard-listener" false
     && parser_fixture "zero-listener" false && parser_fixture "external-connected" false
     && parser_fixture "loopback-connected" true
     && live_pid_fixture live [current] [current] && live_pid_fixture live [current; dead] [current]
     && live_pid_fixture live [dead] []
     && sample_socket_fixture "evidence-with-nonzero-status" 1
          (once (lsof_failure 1 (fixture "external-connected") "lsof: synthetic stderr about a dead PID"))
     && sample_socket_fixture "clean-with-nonzero-status-no-race" 2
          (once (lsof_failure 1 (fixture "loopback-listener") "lsof: synthetic generic error"))
     && sample_socket_fixture "timeout-no-evidence" 2 (once (lsof_timeout "" ""))
     && sample_socket_fixture "timeout-with-evidence" 1 (once (lsof_timeout (fixture "external-connected") ""))
     && sample_socket_fixture "retry-benign-no-matching-files" 0
          (mkProbe (process_tree current [dead])
             (inr (lsof_failure 1 (fixture "loopback-listener") "lsof: synthetic stderr forcing race retry")) live
             (inr (lsof_failure 1 "" "")))
  then Pass else InstrumentFailure.
End Selftest.

(** ** What is classified *)

(** A process of [lsof -F pcPTn0]: a set of fields for itself and one for each
    of its sockets. *)
Record Socket := mkSocket { so_proto : string; so_state : option string; so_other : list string; so_name : string }.
Record Process := mkProcess { pr_pid : string; pr_cmd : string; pr_sockets : list Socket }.

Definition socket_fields (s : Socket) : list string :=
  ("P" +:+ so_proto s) :: match so_state s with Some state => ["TST=" +:+ state] | None => [] end
    ++ map (String.append "T") (so_other s) ++ ["n" +:+ so_name s].

Definition field_sets (p : Process) : list (list string) :=
  ["p" +:+ pr_pid p; "c" +:+ pr_cmd p] :: map socket_fields (pr_sockets p).

Definition lsof_listing (ps : list Process) : string :=
  foldr (fun fields s => stream fields +:+ String lf s) "" (flat_map field_sets ps).

(** Fields have no separator in them, and the other fields on a TCP connection
    are no states. *)
Definition plain_char (c : ascii) : bool := negb (Ascii.eqb nul c) && negb (Ascii.eqb lf c) && negb (Ascii.eqb cr c).
Definition plain_text (s : string) : Prop := all_chars plain_char s = true.

Record plain_socket (s : Socket) : Prop := {
  ps_proto : plain_text (so_proto s);
  ps_state : forall state, so_state s = Some state -> plain_text state;
  ps_other : Forall (fun x => plain_text x /\ String.prefix "ST=" x = false) (so_other s);
  ps_name : plain_text (so_name s);
}.

Record plain_process (p : Process) : Prop := {
  pp_pid : plain_text (pr_pid p);
  pp_cmd : plain_text (pr_cmd p);
  pp_sockets : Forall plain_socket (pr_sockets p);
}.

(** The sockets that are no loopback ones, of each process. *)
Definition violations_of (sample : string) (p : Process) : list SocketViolation :=
  omap (fun s => classify_socket sample (pr_pid p) (pr_cmd p) (so_proto s) (default "" (so_state s)) (so_name s))
    (pr_sockets p).

(** *** Lines *)

Lemma plain_split s t : plain_text s -> Text.split lf (s +:+ String lf t) = s :: Text.split lf t.
Proof.
  unfold plain_text. induction s as [|c s IH]; [done|]. cbn [all_chars]. intros [Hc Hs]%andb_true_iff.
  unfold plain_char in Hc. apply andb_true_iff in Hc as [[_ Hc%negb_true_iff]%andb_true_iff _].
  rewrite string_app_cons. cbn [Text.split]. by rewrite Hc, IH.
Qed.

Lemma split_nonempty c s : Text.split c s <> [].
Proof. destruct s as [|d s]; [done|]. cbn [Text.split]. destruct (Ascii.eqb c d); [done|]. by destruct (Text.split c s). Qed.

Lemma strip_cr_plain s : plain_text s -> strip_cr s = s.
Proof.
  unfold plain_text, strip_cr. rewrite <- all_chars_rev. destruct (String.rev s) as [|c r]; [done|]. cbn [all_chars].
  intros [Hc _]%andb_true_iff. unfold plain_char in Hc.
  by apply andb_true_iff in Hc as [_ ->%negb_true_iff].
Qed.

Lemma filled_line s t : plain_text s -> s <> "" -> filled_lines (s +:+ String lf t) = s :: filled_lines t.
Proof.
  intros Hs Hne. unfold filled_lines. rewrite plain_split by done. pose proof (split_nonempty lf t) as Ht.
  destruct (Text.split lf t) as [|x l]; [done|]. cbn [chomp List.filter]. rewrite strip_cr_plain by done.
  by destruct s.
Qed.

Lemma blank_line t : filled_lines (String lf t) = filled_lines t.
Proof.
  unfold filled_lines. cbn [Text.split]. rewrite Ascii.eqb_refl. pose proof (split_nonempty lf t) as Ht.
  by destruct (Text.split lf t).
Qed.

Lemma replace_char_app c d s t : replace_char c d (s +:+ t) = replace_char c d s +:+ replace_char c d t.
Proof. induction s as [|e s IH]; [done|]. rewrite string_app_cons. simpl. by rewrite IH, string_app_cons. Qed.

Lemma replace_plain s : plain_text s -> replace_char nul lf s = s.
Proof.
  unfold plain_text. induction s as [|c s IH]; [done|]. cbn [all_chars replace_char].
  intros [Hc Hs]%andb_true_iff. unfold plain_char in Hc.
  apply andb_true_iff in Hc as [[->%negb_true_iff _]%andb_true_iff _]. by rewrite IH.
Qed.

Lemma stream_lines fields s :
  Forall (fun f => plain_text f /\ f <> "") fields ->
  filled_lines (replace_char nul lf (stream fields +:+ String lf s)) = fields ++ filled_lines (replace_char nul lf s).
Proof.
  intros Hf. induction Hf as [|f fs [Hp Hne] _ IH]; cbn [stream foldr app].
  - change ("" +:+ String lf s) with (String lf s). cbn [replace_char]. apply blank_line.
  - rewrite string_app_assoc, string_app_cons, replace_char_app, replace_plain by done. cbn [replace_char].
    rewrite filled_line by done. f_equal. exact IH.
Qed.

Lemma listing_lines sets :
  Forall (Forall (fun f => plain_text f /\ f <> "")) sets ->
  filled_lines (replace_char nul lf (foldr (fun fields s => stream fields +:+ String lf s) "" sets)) = concat sets.
Proof.
  intros Hs. induction Hs as [|fs sets Hf _ IH]; [done|]. cbn [foldr concat]. by rewrite stream_lines, IH.
Qed.

Lemma plain_app s t : plain_text s -> plain_text t -> plain_text (s +:+ t).
Proof. unfold plain_text. rewrite all_chars_app. by intros -> ->. Qed.

Lemma plain_fields p : plain_process p ->
  Forall (Forall (fun f => plain_text f /\ f <> "")) (field_sets p).
Proof.
  intros [Hp Hc Hs]. constructor.
  - repeat constructor; try done; by apply plain_app.
  - apply Forall_fmap. eapply Forall_impl; [exact Hs|]. intros s [H1 H2 H3 H4]. unfold compose, socket_fields.
    constructor; [split; [by apply plain_app|done]|]. apply Forall_app. split.
    + destruct (so_state s) as [state|]; [|done]. constructor; [split; [apply plain_app; auto; done|done]|done].
    + apply Forall_app. split.
      * apply Forall_fmap. eapply Forall_impl; [exact H3|]. intros x [Hx _]. split; [by apply plain_app|done].
      * constructor; [split; [by apply plain_app|done]|done].
Qed.

(** *** Fields *)

Lemma other_field sample st x : String.prefix "ST=" x = false -> read_field sample st ("T" +:+ x) = st.
Proof.
  intros Hx. rewrite string_app_cons, string_app_nil_l. unfold read_field.
  assert (forall c pat, c <> "T"%char -> strip_prefix (String "T" x) (String c pat) = None) as Hc.
  { intros c pat Hne. unfold strip_prefix. cbn [String.prefix]. by destruct (ascii_dec c "T"). }
  rewrite !Hc by done. unfold strip_prefix, starts_with. cbn [String.prefix].
  destruct (ascii_dec "T" "T"); [|done]. rewrite Hx. by destruct x.
Qed.

(** The fields that are read, by their first letters. *)
Lemma pid_field sample st x : read_field sample st ("p" +:+ x)
  = mkFields x (fd_cmd st) (fd_proto st) (fd_state st) (fd_violations st).
Proof. unfold read_field. by rewrite (strip_prefix_app "p"). Qed.
Lemma cmd_field sample st x : read_field sample st ("c" +:+ x)
  = mkFields (fd_pid st) x (fd_proto st) (fd_state st) (fd_violations st).
Proof. unfold read_field. rewrite (strip_prefix_app "c"). done. Qed.
Lemma proto_field sample st x : read_field sample st ("P" +:+ x)
  = mkFields (fd_pid st) (fd_cmd st) x (fd_state st) (fd_violations st).
Proof. unfold read_field. rewrite (strip_prefix_app "P"). done. Qed.
Lemma state_field sample st x : read_field sample st ("TST=" +:+ x)
  = mkFields (fd_pid st) (fd_cmd st) (fd_proto st) x (fd_violations st).
Proof. unfold read_field. rewrite (strip_prefix_app "TST="). done. Qed.
Lemma name_field sample st x : read_field sample st ("n" +:+ x)
  = mkFields (fd_pid st) (fd_cmd st) "" "" (fd_violations st ++ option_list
      (classify_socket sample (fd_pid st) (fd_cmd st) (fd_proto st) (fd_state st) x)).
Proof.
  unfold read_field. rewrite (strip_prefix_app "n").
  destruct (classify_socket _ _ _ _ _ x); [done|]. by rewrite app_nil_r.
Qed.

Lemma foldl_other sample st l :
  Forall (fun x => plain_text x /\ String.prefix "ST=" x = false) l ->
  foldl (read_field sample) st (map (String.append "T") l) = st.
Proof. intros Hl. induction Hl as [|x l [_ Hx] _ IH]; [done|]. cbn [map foldl]. by rewrite other_field. Qed.

Lemma read_socket sample pid cmd vs s : plain_socket s ->
  foldl (read_field sample) (mkFields pid cmd "" "" vs) (socket_fields s)
  = mkFields pid cmd "" "" (vs ++ omap (fun s => classify_socket sample pid cmd (so_proto s)
      (default "" (so_state s)) (so_name s)) [s]).
Proof.
  destruct s as [proto state other name]. intros [_ _ Ho _]. unfold socket_fields.
  cbn [foldl so_proto so_state so_other so_name] in *. rewrite !foldl_app, proto_field.
  destruct state as [state|]; cbn [foldl]; rewrite ?state_field, foldl_other by done; cbn [foldl];
    rewrite name_field; cbn [fd_pid fd_cmd fd_proto fd_state fd_violations]; cbn; by case_match.
Qed.

Lemma read_sockets sample pid cmd vs l : Forall plain_socket l ->
  foldl (read_field sample) (mkFields pid cmd "" "" vs) (concat (map socket_fields l))
  = mkFields pid cmd "" "" (vs ++ omap (fun s => classify_socket sample pid cmd (so_proto s)
      (default "" (so_state s)) (so_name s)) l).
Proof.
  intros Hl. revert vs. induction Hl as [|s l Hs _ IH]; intros vs; [by rewrite app_nil_r|].
  cbn [map concat]. rewrite foldl_app, read_socket, IH by done. f_equal. rewrite <- app_assoc. f_equal.
  cbn [omap list_omap]. by destruct (classify_socket _ _ _ _ _ _).
Qed.

Lemma read_process sample st p : plain_process p -> fd_proto st = "" -> fd_state st = "" ->
  foldl (read_field sample) st (concat (field_sets p))
  = mkFields (pr_pid p) (pr_cmd p) "" "" (fd_violations st ++ violations_of sample p).
Proof.
  intros Hp Hpr Hst. unfold field_sets. cbn [concat]. rewrite foldl_app. cbn [foldl].
  rewrite pid_field, cmd_field. cbn [fd_pid fd_cmd fd_proto fd_state fd_violations]. rewrite Hpr, Hst.
  by rewrite read_sockets by apply Hp.
Qed.

Lemma read_processes sample st ps : Forall plain_process ps -> fd_proto st = "" -> fd_state st = "" ->
  fd_violations (foldl (read_field sample) st (concat (flat_map field_sets ps)))
  = fd_violations st ++ flat_map (violations_of sample) ps.
Proof.
  intros Hps. revert st. induction Hps as [|p ps Hp _ IH]; intros st Hpr Hst; [simpl; by rewrite app_nil_r|].
  cbn [flat_map]. rewrite concat_app, foldl_app, read_process, IH by done. cbn [fd_violations].
  by rewrite app_assoc.
Qed.

(** The classification is exact.  For the listing of any processes, with
    text that has no separators in it, the violations are those of the
    sockets one by one, in their order, each under its own process: the ones
    whose remote end, or whose local end when there is none, is no loopback
    address. *)
Theorem classification_exact (lossy : string -> string) (sample : string) (ps : list Process) :
  Forall plain_process ps -> lossy (lsof_listing ps) = lsof_listing ps ->
  classify_lsof_fields lossy sample (lsof_listing ps) = flat_map (violations_of sample) ps.
Proof.
  intros Hps Hl. unfold classify_lsof_fields. rewrite Hl. unfold lsof_listing. rewrite listing_lines.
  - by apply (read_processes sample no_fields).
  - clear Hl. induction Hps as [|p ps Hp _ IH]; [done|]. cbn [flat_map]. apply Forall_app. split; [by apply plain_fields|done].
Qed.

Example listing_classified :
  map sv_name (classify_lsof_fields (fun s => s) "s" (lsof_listing
    [mkProcess "12" "zbag" [mkSocket "TCP" (Some "LISTEN") ["QR=0"] "127.0.0.1:7777"; mkSocket "UDP" None [] "*:5353"]]))
  = ["*:5353"].
Proof.
  rewrite (classification_exact (fun s => s)); [by vm_compute| |done]. repeat constructor; try done. by intros ? [= <-].
Qed.

(** ** The walk over the processes *)

Section Walk.
Context (children : Z -> list Z) (U : gset Z).
Context (U_closed : forall p c, p ∈ U -> c ∈ children p -> c ∈ U).

#[local] Abbreviation child_of p c := (c ∈ children p).

(** What a walk over the processes [cs] has done: it has put out [new], each
    process once and none that was seen, all of them below [cs], and has seen
    whatever is one step below them. *)
Record walked (cs : list Z) (st st' : gset Z * list Z) (new : list Z) : Prop := {
  wk_out : st'.2 = st.2 ++ new;
  wk_once : NoDup new;
  wk_fresh : forall x, x ∈ new -> x ∉ st.1;
  wk_seen : forall x, x ∈ st'.1 <-> x ∈ st.1 \/ x ∈ new;
  wk_below : forall x, x ∈ new -> exists c, c ∈ cs /\ rtc (fun p c => child_of p c) c x;
  wk_closed : forall x c, x ∈ new -> child_of x c -> c ∈ st'.1;
  wk_cover : forall c, c ∈ cs -> c ∈ st'.1;
}.

Lemma walked_skip c cs st st' new : c ∈ st.1 -> walked cs st st' new -> walked (c :: cs) st st' new.
Proof.
  intros Hc [H1 H2 H3 H4 H5 H6 H7]. split; try done.
  - intros x Hx. destruct (H5 x Hx) as (d & Hd & ?). exists d. split; [by right|done].
  - intros d [->|Hd]%elem_of_cons; [apply H4; by left|by apply H7].
Qed.

Lemma walked_step c cs st st1 st2 new1 new2 : c ∉ st.1 ->
  walked (children c) ({[c]} ∪ st.1, st.2 ++ [c]) st1 new1 -> walked cs st1 st2 new2 ->
  walked (c :: cs) st st2 (c :: new1 ++ new2).
Proof.
  intros Hc [A1 A2 A3 A4 A5 A6 A7] [B1 B2 B3 B4 B5 B6 B7]. cbn [fst snd] in *. split.
  - by rewrite B1, A1, <- !app_assoc.
  - apply NoDup_cons. rewrite NoDup_app. repeat split; try done.
    + intros [Hx|Hx]%elem_of_app; [apply (A3 c Hx); set_solver|apply (B3 c Hx), A4; set_solver].
    + intros x Hx1 Hx2. apply (B3 x Hx2), A4. by right.
  - intros x [->|[Hx|Hx]%elem_of_app]%elem_of_cons; [done|intros ?; apply (A3 x Hx); set_solver|].
    intros ?. apply (B3 x Hx), A4. set_solver.
  - intros x. rewrite B4, A4, elem_of_cons, elem_of_app. set_solver.
  - intros x [->|[Hx|Hx]%elem_of_app]%elem_of_cons.
    + exists c. split; [by left|apply rtc_refl].
    + destruct (A5 x Hx) as (d & Hd & Hdx). exists c. split; [by left|by eapply rtc_l].
    + destruct (B5 x Hx) as (d & Hd & Hdx). exists d. split; [by right|done].
  - intros x d [->|[Hx|Hx]%elem_of_app]%elem_of_cons Hd; [apply B4; left; by apply A7|apply B4; left|by eapply B6].
    by eapply A6.
  - intros d [->|Hd]%elem_of_cons; [apply B4; left; apply A4; set_solver|by apply B7].
Qed.

#[local] Abbreviation left_over st := (size (U ∖ fst st)).

Lemma collect_walks fuel parent st : (forall c, child_of parent c -> c ∈ U) -> (left_over st < fuel)%nat ->
  exists st' new, collect children fuel parent st = Some st' /\ walked (children parent) st st' new.
Proof using All.
  revert parent st. induction fuel as [|fuel IH]; intros parent st HU Hsz; [lia|]. cbn [collect].
  generalize dependent (children parent). intros cs. revert st Hsz.
  induction cs as [|c cs IHcs]; intros st Hsz HU; cbn [foldl].
  { exists st, []. split; [done|]. split; try set_solver; [by rewrite app_nil_r|apply NoDup_nil_2]. }
  cbn [mbind option_bind]. case_bool_decide as Hc.
  - destruct (IHcs st) as (st' & new & -> & Hw); [done|set_solver|]. exists st', new. split; [done|by apply walked_skip].
  - assert (left_over ({[c]} ∪ st.1, st.2 ++ [c]) < left_over st)%nat as Hlt.
    { apply subset_size. cbn [fst]. assert (c ∈ U) by set_solver. set_solver. }
    destruct (IH c ({[c]} ∪ st.1, st.2 ++ [c])) as (st1 & new1 & -> & Hw1);
      [intros d; apply U_closed; set_solver|lia|].
    assert (left_over st1 <= left_over ({[c]} ∪ st.1, st.2 ++ [c]))%nat as Hle.
    { apply subseteq_size. intros x [Hx Hn]%elem_of_difference. apply elem_of_difference. split; [done|].
      intros Hin. apply Hn, (wk_seen _ _ _ _ Hw1). by left. }
    destruct (IHcs st1) as (st2 & new2 & -> & Hw2); [lia|set_solver|].
    exists st2, (c :: new1 ++ new2). split; [done|by eapply walked_step].
Qed.

(** The walk ends, with fuel for every process there is, and lists exactly the
    processes below the root, each once. *)
Theorem descendants_exact (root : Z) (fuel : nat) :
  (forall c, child_of root c -> c ∈ U) -> (size U < fuel)%nat ->
  exists out, descendants children fuel root = Some out /\ NoDup out
    /\ forall x, x ∈ out <-> tc (fun p c => child_of p c) root x.
Proof using All.
  intros HU Hf. destruct (collect_walks fuel root (∅, [])) as (st & new & Hc & Hw);
    [done|cbn [fst]; rewrite difference_empty_L; lia|].
  exists new. unfold descendants. rewrite Hc. cbn. destruct Hw as [H1 H2 H3 H4 H5 H6 H7]. cbn in *. rewrite H1.
  split; [done|]. split; [done|]. assert (forall x, x ∈ st.1 <-> x ∈ new) as Hs by (intros x; rewrite H4; set_solver).
  intros x. split.
  - intros Hx. destruct (H5 x Hx) as (c & Hcx & Hr). eapply tc_rtc_r; [by apply tc_once|done].
  - revert x. apply tc_ind_r; [intros y Hy; by apply Hs, H7|]. intros y z _ Hyz Hy. apply Hs. by eapply H6.
Qed.
End Walk.

(** ** The verdict *)

Definition is_policy (o : SampleOutcome) : bool := match o with Policy _ => true | _ => false end.
Definition is_instrument (o : SampleOutcome) : bool := match o with Instrument _ => true | _ => false end.

Lemma elem_of_dedup x l : x ∈ dedup l <-> x ∈ l.
Proof.
  induction l as [|a [|b l] IH]; [done|done|]. cbn [dedup].
  destruct (Z.eqb_spec a b) as [->|]; [rewrite IH|rewrite !(elem_of_cons _ _ a), IH]; set_solver.
Qed.

Lemma elem_of_kill_tree pid l x : x ∈ kill_tree pid l <-> x ∈ l \/ x = pid.
Proof. unfold kill_tree, kill_order, process_tree. rewrite elem_of_isort, elem_of_dedup, elem_of_isort. set_solver. Qed.

Lemma clean_samples l : existsb is_policy l = false /\ existsb is_instrument l = false <-> Forall (eq SampleOk) l.
Proof.
  induction l as [|o l IH]; [by split|]. rewrite Forall_cons, <- IH. cbn [existsb]. destruct o; cbn; naive_solver.
Qed.

Definition launched (l : Launch) : Prop :=
  la_lsof_available l = true /\ is_Some (la_executable l) /\ la_root l = None /\ la_dirs l = None
  /\ la_stdio l = None /\ exists pid, la_spawn l = inr pid.

Lemma checks_pass d fired ready status app total r :
  (post_wait_checks d fired ready status app total r).1 = Pass <->
  fired = false /\ ready = true /\ status = Some 0
  /\ u32_saturating_sub d 2 <= app <= seconds_u32 (d + 5)
  /\ rt_instrumentation_failure r = false /\ rt_network_failure r = false.
Proof.
  unfold post_wait_checks, status_success. destruct fired; [naive_solver|]. destruct ready; [cbn [negb]|naive_solver].
  destruct (Z.ltb_spec app (u32_saturating_sub d 2)); [split; [done|lia]|].
  destruct (Z.ltb_spec (seconds_u32 (d + 5)) app); [split; [done|lia]|].
  case_bool_decide; cbn [negb]; [|naive_solver].
  destruct (rt_instrumentation_failure r), (rt_network_failure r); naive_solver lia.
Qed.

Section Verdict.
Context (lossy : string -> string).

(** Evidence is never empty, and comes from one of the two listings. *)
Theorem sample_policy_sound sample timeout p ev :
  (sample_once lossy sample timeout p).1 = Policy ev ->
  ev <> [] /\ exists o, (pb_first p = inr o \/ pb_retry p = inr o) /\ ev = classify_lsof_fields lossy sample (lo_stdout o).
Proof using Type.
  assert (forall l : list SocketViolation, negb (bool_decide (length l = 0%nat)) = true -> l <> []) as Hne by (by intros []).
  unfold sample_once, evidence, instrument. destruct (bool_decide (pb_tree p = [])); [done|].
  destruct (pb_first p) as [|o]; [done|].
  destruct (negb _) eqn:E1; [intros [= <-]; split; [by apply Hne|exists o; auto]|].
  destruct (lo_timed_out o); [done|]. destruct ((lo_status o =? 0) || _); [done|].
  destruct (bool_decide (filter_live_pids p (pb_tree p) = [])); [done|].
  destruct (bool_decide (filter_live_pids p (pb_tree p) = pb_tree p)); [done|].
  destruct (pb_retry p) as [|o']; [done|].
  destruct (negb (bool_decide (length (classify_lsof_fields lossy sample (lo_stdout o')) = _))) eqn:E2;
    [intros [= <-]; split; [by apply Hne|exists o'; auto]|].
  destruct (lo_timed_out o'); [done|]. by destruct ((lo_status o' =? 0) || _).
Qed.

(** A sample that is in order has a listing of every process of the tree, or
    of those still live, without a violation, and [lsof] ended in time. *)
Theorem sample_ok_clean sample timeout p :
  (sample_once lossy sample timeout p).1 = SampleOk ->
  pb_tree p = [] \/ exists o, pb_first p = inr o
    /\ classify_lsof_fields lossy sample (lo_stdout o) = [] /\ lo_timed_out o = false
    /\ (lo_status o = 0 \/ lo_stderr o = "" \/ filter_live_pids p (pb_tree p) = []
        \/ (filter_live_pids p (pb_tree p) <> pb_tree p /\ exists o', pb_retry p = inr o'
            /\ classify_lsof_fields lossy sample (lo_stdout o') = [] /\ lo_timed_out o' = false
            /\ (lo_status o' = 0 \/ lo_stderr o' = ""))).
Proof using Type.
  unfold sample_once, evidence, instrument. destruct (bool_decide_reflect (pb_tree p = [])); [by left|]. intros H. right. revert H.
  assert (forall l : list SocketViolation, negb (bool_decide (length l = 0%nat)) = false -> l = []) as Hnil by (by intros []).
  assert (forall o, (lo_status o =? 0) || is_empty (lo_stderr o) = true -> lo_status o = 0 \/ lo_stderr o = "") as Hend.
  { intros o [?%Z.eqb_eq|?]%orb_true_iff; [by left|right; by destruct (lo_stderr o)]. }
  destruct (pb_first p) as [|o]; [done|]. intros H. exists o. split; [done|]. revert H.
  destruct (negb _) eqn:E1; [done|]. destruct (lo_timed_out o) eqn:E2; [done|].
  destruct ((lo_status o =? 0) || _) eqn:E3; [apply Hend in E3; intros _; repeat split; auto; tauto|].
  destruct (bool_decide_reflect (filter_live_pids p (pb_tree p) = [])); [intros _; repeat split; auto|].
  destruct (bool_decide_reflect (filter_live_pids p (pb_tree p) = pb_tree p)); [done|].
  destruct (pb_retry p) as [|o'] eqn:E6; [done|].
  destruct (negb (bool_decide (length (classify_lsof_fields lossy sample (lo_stdout o')) = _))) eqn:E7; [done|].
  destruct (lo_timed_out o') eqn:E8; [done|]. destruct ((lo_status o' =? 0) || _) eqn:E9; [|done].
  intros _. repeat split; auto. right. right. right. split; [done|]. exists o'. auto.
Qed.

(** The samples that the loop takes. *)
Fixpoint samples (timeout : Z) (turns : list Turn) (n : Z) : list SampleOutcome :=
  match turns with
  | [] => []
  | t :: turns' =>
      if tu_stop t || negb (tu_root_live t) then []
      else (sample_once lossy ("sample-" +:+ uint_to_string (n + 1)) timeout (tu_probe t)).1
             :: if tu_stop_in_pause t then [] else samples timeout turns' (n + 1)
  end.

Lemma run_loop_sentinels timeout turns n r : Forall (fun t => tu_write t = None) turns ->
  let r' := run_loop lossy timeout turns n r in
  rt_network_failure r' = rt_network_failure r || existsb is_policy (samples timeout turns n)
  /\ rt_instrumentation_failure r' = rt_instrumentation_failure r || existsb is_instrument (samples timeout turns n).
Proof using Type.
  intros Hw. cbn zeta. revert n r.
  induction Hw as [|t turns Ht _ IH]; intros n r; cbn [run_loop samples existsb]; [by rewrite !orb_false_r|].
  destruct (tu_stop t || _); [by rewrite !orb_false_r|]. rewrite Ht.
  destruct (sample_once _ _ _ _) as [o lines]. cbn [fst existsb].
  destruct (tu_stop_in_pause t); [|destruct (IH (n + 1) (record_outcome None o (log_lines lines r))) as [-> ->]];
    destruct o; cbn; by rewrite ?orb_false_r, ?orb_true_r, ?orb_true_l.
Qed.

(** The smoke test passes exactly when the application was launched, ended by
    itself with success in its time and ready, and every sample that was taken
    is in order, where the sentinels of the sampler can be written. *)
Theorem smoke_pass_exact l d timeout s k :
  run_smoke lossy l d timeout s = Some k -> Forall (fun t => tu_write t = None) (ss_turns s) ->
  sk_exit k = Pass <->
  launched l /\ wait_for_child (ss_polls s) = Some (inr (Exited (Some 0)))
  /\ watchdog_fired (ss_watchdog s) = false /\ ss_ready s = true
  /\ u32_saturating_sub d 2 <= ss_app_elapsed s <= seconds_u32 (d + 5)
  /\ Forall (eq SampleOk) (samples timeout (ss_turns s) 0).
Proof using Type.
  intros Hr Hw. unfold run_smoke, launched in *. destruct (la_lsof_available l); [cbn [negb] in Hr|naive_solver].
  destruct (la_executable l) as [exe|]; [|naive_solver by destruct H1].
  destruct (la_root l); [naive_solver|]. destruct (la_dirs l); [naive_solver|]. destruct (la_stdio l); [naive_solver|].
  destruct (la_spawn l) as [err|pid]; [naive_solver|]. destruct (wait_for_child _) as [[err|[status|]]|]; try naive_solver.
  cbn [mbind option_bind] in Hr. destruct (post_wait_checks _ _ _ _ _ _ _) as [exit line] eqn:Hc. injection Hr as <-. cbn [sk_exit].
  pose proof (checks_pass d (watchdog_fired (ss_watchdog s)) (ss_ready s) status (ss_app_elapsed s) (ss_total_elapsed s)
    (sampled lossy timeout s)) as H. rewrite Hc in H. cbn [fst] in H. rewrite H, <- clean_samples.
  unfold sampled. destruct (run_loop_sentinels timeout (ss_turns s) 0 no_sentinels Hw) as [-> ->]. cbn.
  assert (is_Some (Some exe)) by eauto. naive_solver.
Qed.

(** Every exit after the launch kills the whole tree, the root with it. *)
Theorem smoke_kills_the_tree l d timeout s k pid :
  run_smoke lossy l d timeout s = Some k -> launched l -> la_spawn l = inr pid ->
  pid ∈ sk_killed k /\ forall x, x ∈ ss_descendants s -> x ∈ sk_killed k.
Proof using Type.
  unfold launched. intros Hr (Hl & [exe He] & Hro & Hd & Hst & _) Hs. revert Hr. unfold run_smoke.
  rewrite Hl, He, Hro, Hd, Hst, Hs. cbn [negb]. destruct (wait_for_child _) as [w|]; [cbn [mbind option_bind]|done].
  assert (forall x, x ∈ kill_tree pid (ss_descendants s) <-> x ∈ ss_descendants s \/ x = pid) as Hk
    by apply elem_of_kill_tree.
  destruct w as [err|[status|]]; [|destruct (post_wait_checks _ _ _ _ _ _ _)|]; intros [= <-]; cbn [sk_killed];
    setoid_rewrite Hk; auto.
Qed.
End Verdict.

(** A sentinel that cannot be written is a line of the log and no failure: the
    sample below has a connection to an outside address, and the test passes. *)
Example lost_sentinel_passes :
  let outside := mkProbe [7] (inr (lsof_success (default "" (fixture_stream "external-connected")))) (fun _ => true)
                   (inl "") in
  let turn := mkTurn false true outside (Some "No space left on device") true in
  let session := mkSmokeSession [(false, inr (Some (Some 0)))] [turn] (mkWatchdog false true None) true 15 16 [] in
  is_policy (sample_once (fun s => s) "sample-1" 5 outside).1 = true
  /\ sk_exit <$> run_smoke (fun s => s) (mkLaunch true "zbag.app" (Some "zbag") None None None (inr 7)) 15 5 session = Some Pass.
Proof. split; by vm_compute. Qed.

(** The self-test of the repository. *)
Example selftest_passes : selftest (fun s => s) 4242 4243 = Pass.
Proof. by vm_compute. Qed.
