(* ===== verification/Diagnostics.v ===== *)
(** What the program says about itself: log files and redaction
    ([zbag-engine/src/logging.rs]), strings that hold secrets
    ([zbag-core/src/sensitive.rs]) and the version ([zbag-core/src/version.rs]).

    The date parser of [chrono], the directory listing and the environment
    are arguments; a date is its number of days. *)
From S2P Require Import Prelude Text.
From Stdlib Require Import Ascii.
#[local] Open Scope list_scope.

(** ** Text *)

Definition ends_with (s pat : string) : bool := starts_with (String.rev s) (String.rev pat).

(** [trim_start_matches] and [trim_end_matches] of a string. *)
Definition trim_start_matches (pat s : string) : string := trim_with [pat] (String.length s) s.
Definition trim_end_matches (pat s : string) : string :=
  String.rev (trim_with [String.rev pat] (String.length s) (String.rev s)).

(** [s.chars().take(n).collect()]: up to the first byte of character [n + 1]. *)
Fixpoint take_chars (n : nat) (s : string) : string :=
  match s with
  | EmptyString => EmptyString
  | String c s' =>
      if byte_in 128 191 c then String c (take_chars n s')
      else match n with 0%nat => EmptyString | S n' => String c (take_chars n' s') end
  end.

(** ** Redaction *)

Definition redacted {A} (_ : A) : string := "[REDACTED]".

Definition redact_memo (memo : string) : string :=
  "[REDACTED MEMO len=" +:+ uint_to_string (Z.of_nat (String.length memo)) +:+ "]".

(** The ellipsis is one character of three bytes. *)
Definition ellipsis : string := bytes [226; 128; 166]%nat.

Definition redact_address (address : string) : string :=
  let prefix := take_chars 8 address in
  if (chars_count prefix =? chars_count address)%nat then prefix else prefix +:+ ellipsis.

(** ** Configuration *)

Definition parse_env_flag_value (value : string) : bool :=
  bool_decide (to_ascii_lowercase (trim value) ∈ ["1"; "true"; "yes"; "on"]).

(** [compiled]: debug assertions, or the feature for temporary debug logs. *)
Definition temporary_debug_enabled (compiled : bool) (env_var : option string) : bool :=
  if compiled then match env_var with Some raw => parse_env_flag_value raw | None => false end else false.

Definition default_env_filter (debug_assertions temp_debug_enabled : bool) : string :=
  if debug_assertions || temp_debug_enabled
  then "info,zbag_engine=debug,zbag_network=debug,zbag_tor=debug,zbag_app_tauri_lib=debug"
  else "info".

Definition default_log_directory (home : option string) : result string :=
  match home with
  | Some h => Ok (h +:+ "/.zbag/logs")
  | None => Err (AnyhowMsg "HOME is not set")
  end.

Definition current_log_file_path (log_directory today : string) : string :=
  log_directory +:+ "/zbag." +:+ today +:+ ".log".

(** ** Old log files *)

Section Logs.
Context (parse_date : string -> option Z).

(** Whether a file is a log of before the cut-off. *)
Definition old_log (cutoff : Z) (name : string) : bool :=
  if negb (starts_with name "zbag.") || negb (ends_with name ".log") then false
  else
    match parse_date (trim_end_matches ".log" (trim_start_matches "zbag." name)) with
    | Some date => date <? cutoff
    | None => false
    end.

(** [entries]: the readable entries of the directory with their names ([None]
    for a name that is no UTF-8), or nothing when it cannot be read;
    [removable]: whether the removal of a file succeeds. *)
Definition cleanup_old_logs (entries : option (list (option string))) (removable : string -> bool)
    (today days_to_keep : Z) (files : gset string) : gset string :=
  match entries with
  | None => files
  | Some entries =>
      let cutoff := today - days_to_keep in
      foldl (fun files entry =>
               match entry with
               | Some name => if old_log cutoff name && removable name then files ∖ {[name]} else files
               | None => files
               end) files entries
  end.
End Logs.

(** ** Secrets in memory *)

(** A [String] as the bytes of its buffer: [trim_in_place] answers the new
    contents and the bytes of the old buffer behind them. *)
Definition zero_byte : ascii := ascii_of_nat 0.

Definition trim_in_place (s : list ascii) : list ascii * list ascii :=
  let str := String.string_of_list_ascii s in
  let trimmed_start := trim_start str in
  let start := (String.length str - String.length trimmed_start)%nat in
  let trimmed := trim_end trimmed_start in
  let new_len := String.length trimmed in
  if (new_len =? String.length str)%nat then (s, [])
  else
    let bytes := take new_len (drop start s) ++ drop new_len s in       (* copy_within *)
    let bytes := take new_len bytes ++ replicate (length s - new_len) zero_byte in   (* zeroize *)
    (take new_len bytes, drop new_len bytes).                             (* truncate *)

(** ** Version *)

(** The values captured at build time. *)
Record Build := mkBuild {
  bd_version : string; bd_git_commit : string; bd_git_describe : string; bd_timestamp : string;
  bd_release : option string;
}.

Definition is_release (b : Build) : bool := bool_decide (bd_release b = Some "true").

Definition full_version (b : Build) : string :=
  if is_release b || is_empty (bd_git_describe b) then bd_version b
  else match strip_prefix (bd_git_describe b) "v" with Some v => v | None => bd_git_describe b end.

Record VersionInfo := mkVersionInfo {
  vi_version : string; vi_git_commit : option string; vi_git_describe : option string;
  vi_build_timestamp : string; vi_full_version : string;
}.

Definition version_current (b : Build) : VersionInfo :=
  mkVersionInfo (bd_version b)
    (if is_release b || is_empty (bd_git_commit b) then None else Some (bd_git_commit b))
    (if is_empty (bd_git_describe b) then None else Some (bd_git_describe b))
    (bd_timestamp b) (full_version b).

(** ** Theorems *)

Lemma take_chars_prefix n s : exists t, s = take_chars n s +:+ t.
Proof.
  revert n. induction s as [|c s IH]; intros n; simpl; [by exists ""|].
  destruct (byte_in 128 191 c); [destruct (IH n) as [t Ht]|destruct n as [|n]; [by exists (String c s)|destruct (IH n) as [t Ht]]];
    exists t; change (String c s = String c (take_chars n s +:+ t)); by rewrite <- Ht.
Qed.

Lemma take_chars_count n s : chars_count (take_chars n s) = Nat.min n (chars_count s).
Proof.
  revert n. induction s as [|c s IH]; intros n; simpl; [lia|].
  destruct (byte_in 128 191 c) eqn:E; simpl; rewrite ?E; [apply IH|]. destruct n as [|n]; simpl; rewrite ?E; [done|].
  by rewrite IH.
Qed.

(** A redacted address shows at most eight characters, from its start, and
    marks that something was left out; a memo shows its length only. *)
Theorem redaction_hides (address memo memo' : string) :
  (exists rest, address = take_chars 8 address +:+ rest)
  /\ (chars_count (take_chars 8 address) <= 8)%nat
  /\ redact_address address = take_chars 8 address +:+ (if (chars_count address <=? 8)%nat then "" else ellipsis)
  /\ (String.length memo = String.length memo' -> redact_memo memo = redact_memo memo').
Proof.
  split_and!; [apply take_chars_prefix|rewrite take_chars_count; lia| |].
  - unfold redact_address. rewrite take_chars_count. destruct (Nat.leb_spec (chars_count address) 8).
    + rewrite Nat.min_r, Nat.eqb_refl by lia. by rewrite string_app_nil_r.
    + rewrite Nat.min_l by lia. destruct (Nat.eqb_spec 8 (chars_count address)); [lia|done].
  - intros E. unfold redact_memo. by rewrite E.
Qed.

(** Of the files in the directory exactly the old logs are removed. *)
Theorem cleanup_removes_old (parse_date : string -> option Z) (entries : list (option string)) (removable : string -> bool)
    (today days : Z) (files : gset string) (name : string) :
  name ∈ cleanup_old_logs parse_date (Some entries) removable today days files <->
  name ∈ files /\ (Some name ∈ entries -> old_log parse_date (today - days) name && removable name = false).
Proof.
  unfold cleanup_old_logs. cbv zeta. revert files. induction entries as [|e entries IH]; intros files; simpl.
  - split; [|by intros [? _]]. intros Hn. split; [done|]. by intros ?%elem_of_nil.
  - rewrite IH. destruct e as [n|].
    + destruct (old_log parse_date (today - days) n && removable n) eqn:E.
      * rewrite elem_of_difference, elem_of_singleton. split.
        -- intros [[Hf Hne] Hx]. split; [done|]. intros [[= ->]|Hin]%elem_of_cons; [done|by apply Hx].
        -- intros [Hf Hx]. split_and!; [done| |intros; apply Hx; by constructor].
           intros ->. rewrite Hx in E by constructor. done.
      * split; intros [Hf Hx]; (split; [done|]).
        -- intros [[= ->]|Hin]%elem_of_cons; [done|by apply Hx].
        -- intros Hin. apply Hx. by constructor.
    + split; intros [Hf Hx]; (split; [done|]).
      * intros [?|Hin]%elem_of_cons; [done|by apply Hx].
      * intros Hin. apply Hx. by constructor.
Qed.

(** The daily files of [tracing_appender::rolling::daily] are named
    [zbag.<date>]; they are never removed. *)
Example daily_logs_stay :
  forall parse_date cutoff, old_log parse_date cutoff "zbag.2020-01-01" = false.
Proof. intros parse_date cutoff. vm_compute. reflexivity. Qed.

Lemma strip_any_prefix pats s t : strip_any pats s = Some t -> exists p, s = p +++ t.
Proof.
  induction pats as [|p pats IH]; simpl; [done|]. destruct (strip_prefix s p) as [t'|] eqn:E; [|done].
  intros [= ->]. unfold strip_prefix in E. destruct (String.prefix p s) eqn:Ep; [|done]. injection E as <-.
  exists (take_string (String.length p) s). by rewrite take_drop_string.
Qed.

Lemma trim_with_suffix pats fuel s : exists p, s = p +++ trim_with pats fuel s.
Proof.
  revert s. induction fuel as [|fuel IH]; intros s; simpl; [by exists ""|].
  destruct (strip_any pats s) as [t|] eqn:E; [|by exists ""].
  apply strip_any_prefix in E as [p ->]. destruct (IH t) as [q Hq]. exists (p +++ q).
  rewrite string_app_assoc. by rewrite <- Hq.
Qed.

Lemma trim_end_prefix s : exists q, s = trim_end s +++ q.
Proof.
  unfold trim_end. destruct (trim_with_suffix ws_patterns_rev (String.length s) (String.rev s)) as [p Hp].
  exists (String.rev p). rewrite <- string_rev_app, <- Hp. by rewrite string_rev_involutive.
Qed.

Lemma list_of_app a b :
  String.list_ascii_of_string (a +++ b) = String.list_ascii_of_string a ++ String.list_ascii_of_string b.
Proof. induction a as [|c a IH]; simpl; [done|]. by f_equal. Qed.

Lemma list_of_length a : length (String.list_ascii_of_string a) = String.length a.
Proof. induction a as [|c a IH]; simpl; [done|]. by f_equal. Qed.

(** Trimming a secret in place leaves the trimmed text, as [str::trim]
    answers it, and overwrites every byte of the old buffer behind it: no
    part of the removed text, nor a second copy of the secret, stays. *)
Theorem trim_in_place_wipes (s : list ascii) :
  let '(kept, behind) := trim_in_place s in
  String.string_of_list_ascii kept = trim (String.string_of_list_ascii s)
  /\ Forall (fun b => b = zero_byte) behind
  /\ (length kept + length behind = length s)%nat.
Proof.
  set (str := String.string_of_list_ascii s).
  assert (s = String.list_ascii_of_string str) as Es by (symmetry; apply String.list_ascii_of_string_of_list_ascii).
  destruct (trim_with_suffix ws_patterns (String.length str) str) as [p Hp]. fold (trim_start str) in Hp.
  destruct (trim_end_prefix (trim_start str)) as [q Hq]. fold (trim str) in Hq.
  unfold trim_in_place. fold str. fold (trim str).
  assert (String.length str = String.length p + (String.length (trim str) + String.length q))%nat as Hlen.
  { rewrite Hp, Hq at 1. by rewrite !string_length_app. }
  assert (String.length (trim_start str) = String.length (trim str) + String.length q)%nat as Hlen2.
  { rewrite Hq at 1. by rewrite string_length_app. }
  assert (length s = String.length str) as Hls by (rewrite Es at 1; apply list_of_length).
  destruct (Nat.eqb_spec (String.length (trim str)) (String.length str)) as [Heq|Hne].
  - assert (p = "" /\ q = "") as [-> ->] by (destruct p, q; simpl in Hlen; (done || lia)).
    rewrite string_app_nil_r in Hq. split_and!; [|constructor|simpl; lia].
    change (str = trim str). rewrite <- Hq. exact Hp.
  - assert (take (String.length (trim str)) (drop (String.length str - String.length (trim_start str)) s)
            = String.list_ascii_of_string (trim str)) as Hkept.
    { assert (s = String.list_ascii_of_string p ++ String.list_ascii_of_string (trim str) ++ String.list_ascii_of_string q) as Es2.
      { rewrite Es, <- !list_of_app. f_equal. rewrite <- Hq. exact Hp. }
      clearbody str. rewrite Es2 at 1.
      replace (String.length str - String.length (trim_start str))%nat
        with (length (String.list_ascii_of_string p)) by (rewrite list_of_length; lia).
      rewrite drop_app_length. rewrite <- (list_of_length (trim str)). apply take_app_length. }
    rewrite Hkept. rewrite <- (list_of_length (trim str)). rewrite !take_app_length, drop_app_length.
    split_and!; [apply String.string_of_list_ascii_of_string|by apply Forall_replicate|].
    rewrite length_replicate, list_of_length. lia.
Qed.
